(* ===== verification/_CoqProject ===== *)
-Q . S2P
Prelude.v
Ring.v
Mem.v
Printf.v
Types.v
Kernel.v
Wp.v
Spinlock.v
Riscv.v
Kalloc.v
Vm.v
Frame.v
VmFacts.v
Copy.v
UvmFacts.v
Sched.v
SchedFacts.v
Rendezvous.v
Bio.v
BioFacts.v
Virtio.v
VirtioFacts.v
Log.v
LogFacts.v
Fs.v
FsFacts.v
FsTx.v
FsAlloc.v
FsExtend.v
FsWrite.v
FsDisk.v
FsOp.v
Console.v
ConsoleFacts.v
File.v
PipeFacts.v
FileWrite.v
Asm.v
AsmFacts.v
Boot.v
Proc.v
Kthread.v
KthreadFacts.v
ProcFacts.v
Signal.v
SignalFacts.v
Syscall.v
Exec.v
Sysfile.v
Trap.v
Main.v
Typing.v
TypingKern.v
TypingFs.v
TypingProc.v
TypeSafety.v
User.v
Grep.v
Shell.v
UserProgs.v
Grind.v
Umalloc.v
Mkfs.v
MkfsFacts.v
MkfsRead.v
