(* ===== verification/Prelude.v ===== *)
(** * A verification development for xv6-riscv with kernel threads, signals and semaphores

    The program is a Unix-like teaching kernel for RISC-V multiprocessors (src/kernel), its user
    programs (src/user) and the tool that builds its first disk (src/mkfs).  This library is a
    shallow embedding of that code: each C function is a Rocq function of the same name where
    Rocq allows it, with the statements, guards and early returns of the source in their order.

    ** How the program is represented

    - Integers are [Z], with the wrap-around of their C type written out ([u8], [u32], [u64],
      [i32], ... in this file).  Physical memory is a finite map from addresses to bytes
      (Mem.v); page tables, trapframes and the free pages of the allocator live in it.
    - The globals of the kernel are the record [kstate] (Types.v).  A pointer into a static table
      is an index, a null pointer is [None]; pointers to pages are addresses.
    - A kernel function is a value of the monad [K] (Kernel.v): it runs on the globals and
      returns, panics, runs into undefined behaviour (a null or wild pointer, an index out of
      range: [UB]), or gives up the CPU.  What other threads, CPUs and interrupt handlers do
      while a thread is switched out is the [interference], a list of state transformers over
      which the theorems quantify.  A section under a spinlock is one step; Spinlock.v, which
      models the lock itself on several CPUs, is the justification.
    - [wp] (Wp.v) is total correctness: the operation returns and the result satisfies the
      postcondition.  [keeps] (Frame.v) is framing.
    - User programs are values of the monad [U] (User.v) over the class [Syscalls]; the class
      [FileLaws] is what they rely on about files.
    - Code that is not in the repository is a parameter: the virtio device (classes [VirtioBlk],
      which may report errors, and [VirtioDevice] in VirtioFacts.v), the address translation of the hardware (AsmFacts.v), the system calls
      of the host in mkfs, the addresses chosen by the linker.

    ** The files

    Foundations: Prelude.v (this file: integers, record updates, tactics, hints), Ring.v (ring
    buffers with wrapping counters), Mem.v (memory; kernel/string.c), Types.v (headers and the
    globals), Kernel.v, Wp.v, Frame.v.

    Machine: Asm.v and AsmFacts.v (trampoline.S, swtch.S, kernelvec.S, entry.S as lists of
    instructions), Boot.v (start.c, plic.c, the timer), Spinlock.v (spinlock.c on several CPUs),
    Main.v (main.c and the initialisation of the devices it calls).

    Memory: Riscv.v (paging macros of riscv.h), Kalloc.v (kalloc.c), Vm.v, VmFacts.v, Copy.v
    and UvmFacts.v (vm.c).

    Processes: Sched.v and SchedFacts.v (the table, [sched], [sleep], [wakeup] of proc.c),
    Rendezvous.v (the statements of [sleep] and [wakeup] of many threads, interleaved), Proc.v
    and ProcFacts.v ([allocproc], [fork], [exit], [wait], [kill], ... of proc.c), Kthread.v and
    KthreadFacts.v (threads and binary semaphores of proc.c), Signal.v and SignalFacts.v (delivery
    of signals in trap.c), Syscall.v (syscall.c, sysproc.c), Trap.v (trap.c), Exec.v (exec.c).

    Storage: Virtio.v and VirtioFacts.v (virtio_disk.c), Bio.v and BioFacts.v (sleeplock.c,
    bio.c), Log.v and LogFacts.v (log.c), Fs.v and FsFacts.v (fs.c), File.v and PipeFacts.v
    (file.c, pipe.c), Sysfile.v (sysfile.c).  Writing a file, from [writei] to the disk, is followed
    through FsTx.v (updates of blocks inside a transaction), FsAlloc.v ([balloc]), FsExtend.v
    ([bmap] when it allocates), FsWrite.v ([writei]), FsDisk.v (the file system on the disk), FsOp.v
    ([begin_op] and [end_op]) and FileWrite.v ([filewrite]).  Mkfs.v and MkfsFacts.v are mkfs.c; MkfsRead.v joins
    mkfs and the kernel.

    Console: Printf.v (printf.c), Console.v and ConsoleFacts.v (console.c, uart.c).

    Types: Typing.v says when the globals are well typed and gives the rules for [typed]
    functions, TypingKern.v, TypingFs.v and TypingProc.v apply them to every function of the
    kernel, and TypeSafety.v composes booting, traps, system calls and the scheduler.

    User space: User.v (ulib.c), Umalloc.v (umalloc.c), Grep.v, Shell.v, UserProgs.v (printf.c and
    the small programs), Grind.v (the random numbers of grind.c).

    ** What is proved

    - Machine: the trampoline saves and restores every user register at the offsets of struct
      trapframe; [swtch], [kernelvec] and [timervec] put back what they must; [start] prepares what
      the timer handler relies on, for ever.  Spinlocks exclude each other for every interleaving,
      with interrupts off, and [holding] is exact.
    - Memory: [kalloc] and [kfree] refine a list of free pages; [kinit] frees all of RAM once;
      [mappages] gives the translations asked for and changes no other; [copyin] and [copyout]
      never panic on a user address, agree with the page table and with each other; [uvmalloc]
      and [uvmcopy] give zeroed or copied private pages, or undo what they did without losing a
      page.
    - Types: in every state reached from the zeroed globals, under any interleaving, the tables
      have their sizes and pointers between structures point into their tables, so no entry into
      the kernel accesses the tables of processes, threads, inodes, buffers or files out of
      bounds; the unchecked accesses that remain are listed ([known_fault] in Typing.v).
    - Processes: no wakeup is lost, for every interleaving of waiting and waking threads; [fork] and [allocproc] give fresh pids and touch one slot.
      Several calls that were added to xv6 do not do what they mean to; the theorems about
      signals, threads and semaphores (SignalFacts.v, KthreadFacts.v, and the last theorem of
      ProcFacts.v) say what they do instead.
    - Storage: the virtio driver implements an atomic disk for any device that follows its
      specification and any number of callers; it panics exactly when the device has reported an
      error, and with a device that does not, it does not deadlock; the buffer cache is
      transparent; a transaction reaches the disk as a whole or, after a crash at any of its
      writes and recovery, not at all.  The layers meet at contracts: Bio.v uses the disk as
      VirtioFacts.v proves it, LogFacts.v uses the cache through the rules of BioFacts.v.
    - Files: [filewrite] of any length, in its transactions of up to 3072 bytes, extends and
      overwrites the file on the disk, keeps the file system consistent, and after a crash at any
      write leaves the file with a prefix of the transactions; what it wrote [readi] reads back.
      mkfs turns files that fit into a consistent file system; [bmap], [readi], [ilock],
      [iget] and [dirlookup] return what the blocks hold (FsFacts.v), so the kernel finds and
      reads on mkfs's image exactly those files.
    - Pipes and console: bytes are delivered once and in order, with blocking readers and writers;
      the interrupt handler of the serial port is a line editor that stays within its ring.
    - User space: grep's matcher decides the language of its pattern and the program prints the
      matching lines; the shell's parser terminates on every line and never leaves its buffer,
      and needs at most two calls of [malloc] per character to succeed, as it tests none of them;
      blocks given out by [malloc], for requests below 2^31 - 31 bytes, do not overlap, and
      [malloc] and [free] terminate; the random
      numbers of grind are those of the generator that its comment names.

    ** Bounds and fuel

    Loops of the source that are not structural take fuel.  [whileK (S n)] is used where the loop
    runs at most [n] times ([copyin], [copyout]: every iteration moves at least one byte;
    [piperead]: one per byte).  A loop that sleeps ([blockK], [blockN]) can go round only as often
    as there is interference left, so its length bounds the iterations.  The parser of the shell
    takes fuel linear in the length of the line, and [parsecmd_terminates] shows that it is
    enough.  The walks of [malloc] and [free] round the free list take [fuel_of], more than the
    number of blocks that fit below the break; [iappend] of mkfs takes the number of bytes.  The loops
    over pages of vm.c take one more than the number of pages.  [scheduler] never returns; its
    model takes the number of rounds it makes.  In every theorem about a result the fuel is that
    of the definition, and running out of it is a failure.  The theorems about [filewrite] ask
    for a log with room for the blocks of the bitmap and twelve more, which the 29 of mkfs's image
    are: the 3072 bytes of a transaction touch at most four blocks of data, the indirect block and
    the block of the inode.

    ** Not modelled

    ramdisk.c is not part of the build, and signal.c and binarySemaphore hold no code.
    Caches, the TLB and memory ordering of the hardware are not modelled ([sfence.vma] and the
    fences have no effect in the model).  [sched]'s test that interrupts are off is left out, as
    the holder of a spinlock has them off.  defs.h, user.h and usys.pl only declare or generate
    stubs.  usertests.c and the loop of grind.c exercise the system calls and have no result but
    messages.
    mkfs is modelled on a little-endian host whose writes to the image succeed. *)

From stdpp Require Import base numbers list gmap strings.
From Stdlib Require Import ZArith Lia.

#[global] Open Scope Z_scope.

(** ** Machine-width integers

    A C integer of width [w] is a [Z]; the wrap-around of unsigned arithmetic is the
    explicit reduction [uw], that of a conversion to a signed type is [iw]. *)

Definition u8 (x : Z) : Z := x mod 2 ^ 8.
Definition u16 (x : Z) : Z := x mod 2 ^ 16.
Definition u32 (x : Z) : Z := x mod 2 ^ 32.
Definition u64 (x : Z) : Z := x mod 2 ^ 64.
Definition i32 (x : Z) : Z := (x + 2 ^ 31) mod 2 ^ 32 - 2 ^ 31.
Definition i16 (x : Z) : Z := (x + 2 ^ 15) mod 2 ^ 16 - 2 ^ 15.

Lemma u8_range x : 0 <= u8 x < 256.
Proof. unfold u8. apply Z.mod_pos_bound. lia. Qed.
Lemma u16_range x : 0 <= u16 x < 2 ^ 16.
Proof. unfold u16. apply Z.mod_pos_bound. lia. Qed.
Lemma u32_range x : 0 <= u32 x < 2 ^ 32.
Proof. unfold u32. apply Z.mod_pos_bound. lia. Qed.
Lemma u64_range x : 0 <= u64 x < 2 ^ 64.
Proof. unfold u64. apply Z.mod_pos_bound. lia. Qed.
Lemma i32_range x : - 2 ^ 31 <= i32 x < 2 ^ 31.
Proof. unfold i32. pose proof (Z.mod_pos_bound (x + 2 ^ 31) (2 ^ 32)). lia. Qed.

Lemma u8_small x : 0 <= x < 256 -> u8 x = x.
Proof. intros. unfold u8. apply Z.mod_small. lia. Qed.
Lemma u16_small x : 0 <= x < 2 ^ 16 -> u16 x = x.
Proof. intros. unfold u16. apply Z.mod_small. lia. Qed.
Lemma u32_small x : 0 <= x < 2 ^ 32 -> u32 x = x.
Proof. intros. unfold u32. apply Z.mod_small. lia. Qed.
Lemma u64_small x : 0 <= x < 2 ^ 64 -> u64 x = x.
Proof. intros. unfold u64. apply Z.mod_small. lia. Qed.
Lemma i32_small x : - 2 ^ 31 <= x < 2 ^ 31 -> i32 x = x.
Proof. intros. unfold i32. rewrite Z.mod_small; lia. Qed.
Lemma i16_small x : - 2 ^ 15 <= x < 2 ^ 15 -> i16 x = x.
Proof. intros. unfold i16. rewrite Z.mod_small; lia. Qed.

Lemma land_pow2_zero a n : 0 <= n -> Z.land a (2 ^ n) = if Z.testbit a n then 2 ^ n else 0.
Proof.
  intros Hn. apply Z.bits_inj'. intros k Hk. rewrite Z.land_spec, Z.pow2_bits_eqb by done.
  destruct (Z.eqb_spec n k) as [->|Hne].
  - destruct (Z.testbit a k); [by rewrite Z.pow2_bits_true|by rewrite Z.bits_0].
  - rewrite andb_false_r. destruct (Z.testbit a n); [|by rewrite Z.bits_0].
    by rewrite Z.pow2_bits_false.
Qed.

Create HintDb word.
Create Rewrite HintDb wrap.
#[export] Hint Rewrite u8_small u16_small u32_small u64_small i32_small i16_small
  using lia : wrap.
#[export] Hint Resolve u8_range u16_range u32_range u64_range i32_range : word.

(** ** Functional record update

    [r <| f := v |>] is the C assignment [r.f = v]; [r <| f ::= g |>] applies [g] to the
    field.  The setter of a projection is derived from the record's [Eta] instance. *)

Class Eta (R : Type) := eta : R -> R.
Class Setter {R T : Type} (proj : R -> T) := upd : (T -> T) -> R -> R.
Arguments upd {R T} proj {_} f r.

Ltac mk_setter R T proj :=
  exact (fun (f : T -> T) (r : R) =>
    ltac:(let i := constr:(_ : Eta R) in
          let b := eval red in (i r) in
          let p := eval pattern (proj r) in b in
          lazymatch p with
          | ?g _ => let res := eval cbv beta in (g (f (proj r))) in exact res
          end)).
#[export] Hint Extern 1 (@Setter ?R ?T ?proj) => mk_setter R T proj : typeclass_instances.

Declare Scope xv6_scope.
Notation "r <| proj := v |>" := (upd proj (fun _ => v) r)
  (at level 12, left associativity, proj constr) : xv6_scope.
Notation "r <| proj ::= f |>" := (upd proj f r)
  (at level 12, left associativity, proj constr) : xv6_scope.
#[global] Open Scope xv6_scope.

(** Two chains of updates are equal when the records they build have equal fields. *)
Ltac rec_eq := cbv [upd]; cbn; reflexivity.

(** ** Lists used as C arrays *)

Lemma list_insert_len {A} (l : list A) i x n : length l = n -> length (<[i := x]> l) = n.
Proof. intros <-. apply length_insert. Qed.

Lemma list_alter_len {A} (f : A -> A) (l : list A) i n :
  length l = n -> length (alter f i l) = n.
Proof. intros <-. apply length_alter. Qed.

#[export] Hint Resolve list_insert_len list_alter_len : core.

(** ** Character strings of the source, as their bytes *)

Fixpoint str (s : string) : list Z :=
  match s with
  | String.EmptyString => []
  | String.String c s' => Z.of_N (Ascii.N_of_ascii c) :: str s'
  end.
