(* ===== verification/Ring.v ===== *)
(** * Ring buffers

    Several structures of the kernel are rings: an array of [N] entries and two counters of
    fixed width that are only ever incremented, with the entry of counter value [i] at index
    [i mod N].  This holds as long as [N] divides the range [M] of the counters.  The queue a
    ring holds is [ring_queue]; adding and removing an entry are [ring_push] and [ring_pop]. *)

From stdpp Require Import base numbers list.
From S2P Require Import Prelude.

Section Ring.
Context {A : Type} `{!Inhabited A} (N : nat) (M : Z).

(** The index of counter value [i]. *)
Definition slot (i : Z) : nat := Z.to_nat (i mod Z.of_nat N).

(** The [n] entries from counter value [lo] on. *)
Fixpoint ring_from (ring : list A) (lo : Z) (n : nat) : list A :=
  match n with
  | O => []
  | S k => ring !!! slot lo :: ring_from ring (lo + 1) k
  end.

(** The number of entries between two counters. *)
Definition pending (lo hi : Z) : nat := Z.to_nat ((hi - lo) mod M).

Definition ring_queue (ring : list A) (lo hi : Z) : list A := ring_from ring lo (pending lo hi).

Lemma length_ring_from ring lo n : length (ring_from ring lo n) = n.
Proof. revert lo. induction n; intros; cbn; auto. Qed.

Lemma length_ring_queue ring lo hi : length (ring_queue ring lo hi) = pending lo hi.
Proof. apply length_ring_from. Qed.

Context (HN : (0 < N)%nat) (HM : (Z.of_nat N | M)) (HNM : Z.of_nat N < M).

Lemma slot_lt i : (slot i < N)%nat.
Proof using HN. clear HM HNM. unfold slot. pose proof (Z.mod_pos_bound i (Z.of_nat N)). lia. Qed.

Lemma slot_wrap i : slot (i mod M) = slot i.
Proof using HM. unfold slot. by rewrite Z.mod_mod_divide. Qed.

Lemma slot_next lo lo' : slot lo = slot lo' -> slot (lo + 1) = slot (lo' + 1).
Proof using HN.
  clear HM HNM. unfold slot. intros H. pose proof (Z.mod_pos_bound lo (Z.of_nat N)). pose proof (Z.mod_pos_bound lo' (Z.of_nat N)).
  f_equal. rewrite <- (Zplus_mod_idemp_l lo), <- (Zplus_mod_idemp_l lo'). do 2 f_equal. lia.
Qed.

Lemma ring_from_slot ring lo lo' n : slot lo = slot lo' -> ring_from ring lo n = ring_from ring lo' n.
Proof using HN.
  revert lo lo'. induction n as [|n IH]; intros lo lo' H; [done|]. cbn [ring_from]. rewrite H. f_equal.
  by apply IH, slot_next.
Qed.

(** Entries at other indices may be written. *)
Lemma ring_from_insert_ne ring lo n j x :
  (forall k, 0 <= k < Z.of_nat n -> slot (lo + k) <> j) -> ring_from (<[j := x]> ring) lo n = ring_from ring lo n.
Proof using Type.
  clear HN HM HNM. revert lo. induction n as [|n IH]; intros lo H; [done|]. cbn [ring_from]. f_equal.
  - apply list_lookup_total_insert_ne. specialize (H 0). rewrite Z.add_0_r in H. symmetry. apply H. lia.
  - apply IH. intros k Hk. replace (lo + 1 + k) with (lo + (k + 1)) by lia. apply H. lia.
Qed.

Lemma ring_from_snoc ring lo n : ring_from ring lo (S n) = ring_from ring lo n ++ [ring !!! slot (lo + Z.of_nat n)].
Proof using Type.
  clear HN HM HNM. revert lo. induction n as [|n IH]; intros lo; [cbn; by rewrite Z.add_0_r|].
  cbn [ring_from app]. cbn [ring_from] in IH. rewrite IH.
  by replace (lo + 1 + Z.of_nat n) with (lo + Z.of_nat (S n)) by lia.
Qed.

Lemma slot_ne lo k n : 0 <= k < n -> n < Z.of_nat N -> slot (lo + k) <> slot (lo + n).
Proof using HN.
  clear HM HNM. intros Hk Hn. unfold slot. intros Heq.
  pose proof (Z.mod_pos_bound (lo + k) (Z.of_nat N)). pose proof (Z.mod_pos_bound (lo + n) (Z.of_nat N)).
  assert ((lo + k) mod Z.of_nat N = (lo + n) mod Z.of_nat N) as Hm by lia.
  apply Z.cong_iff_0 in Hm. replace (lo + k - (lo + n)) with (k - n) in Hm by lia.
  apply Z.mod_divide in Hm as [q Hq]; [|lia].
  destruct (decide (0 <= q)) as [Hq0|Hq0]; [|assert (q <= -1) by lia]; nia.
Qed.

Lemma pending_same lo hi : 0 <= lo < M -> 0 <= hi < M -> pending lo hi = O <-> lo = hi.
Proof using Type.
  clear HN HM HNM. intros H1 H2. unfold pending. pose proof (Z.mod_pos_bound (hi - lo) M). split; intros H0.
  - assert ((hi - lo) mod M = 0) as Hm by lia. apply Z.mod_divide in Hm as [q Hq]; [|lia].
    destruct (decide (q = 0)) as [->|]; [lia|]. destruct (decide (0 <= q)) as [Hq0|Hq0]; [assert (1 <= q) by lia|assert (q <= -1) by lia]; nia.
  - subst. by rewrite Z.sub_diag, Zmod_0_l.
Qed.

Lemma pending_push lo hi : (pending lo hi < N)%nat -> pending lo ((hi + 1) mod M) = S (pending lo hi).
Proof using HNM.
  clear HN HM. unfold pending. intros H. pose proof (Z.mod_pos_bound (hi - lo) M).
  rewrite Zminus_mod_idemp_l. replace (hi + 1 - lo) with (hi - lo + 1) by lia.
  rewrite <- Zplus_mod_idemp_l, Z.mod_small by lia. lia.
Qed.

Lemma pending_pop lo hi n : pending lo hi = S n -> pending ((lo + 1) mod M) hi = n.
Proof using HNM.
  clear HN HM. unfold pending. intros H. pose proof (Z.mod_pos_bound (hi - lo) M).
  rewrite Zminus_mod_idemp_r. replace (hi - (lo + 1)) with (hi - lo - 1) by lia.
  rewrite <- Zminus_mod_idemp_l, Z.mod_small by lia. lia.
Qed.

Lemma ring_queue_nil ring lo : ring_queue ring lo lo = [].
Proof. unfold ring_queue, pending. by rewrite Z.sub_diag, Zmod_0_l. Qed.

(** A new entry is stored at the slot of the upper counter. *)
Lemma ring_push ring lo hi x :
  length ring = N -> (length (ring_queue ring lo hi) < N)%nat ->
  ring_queue (<[slot hi := x]> ring) lo ((hi + 1) mod M) = ring_queue ring lo hi ++ [x].
Proof using All.
  intros Hl Hn. rewrite length_ring_queue in Hn. unfold ring_queue. rewrite pending_push by done.
  assert (slot hi = slot (lo + Z.of_nat (pending lo hi))) as ->.
  { unfold pending. pose proof (Z.mod_pos_bound (hi - lo) M). rewrite Z2Nat.id by lia. unfold slot. f_equal.
    rewrite <- Zplus_mod_idemp_r, Z.mod_mod_divide, Zplus_mod_idemp_r by done. f_equal. lia. }
  rewrite ring_from_snoc, list_lookup_total_insert_eq by (rewrite Hl; apply slot_lt). f_equal.
  apply ring_from_insert_ne. intros k Hk. apply slot_ne; lia.
Qed.

(** The oldest entry is at the slot of the lower counter. *)
Lemma ring_pop ring lo hi : 0 <= lo < M -> 0 <= hi < M -> lo <> hi ->
  ring_queue ring lo hi = ring !!! slot lo :: ring_queue ring ((lo + 1) mod M) hi.
Proof using All.
  intros H1 H2 Hne. unfold ring_queue. destruct (pending lo hi) as [|n] eqn:E.
  { apply pending_same in E; done. }
  rewrite (pending_pop _ _ _ E). cbn [ring_from]. f_equal. apply ring_from_slot. by rewrite slot_wrap.
Qed.
End Ring.
