(* ===== verification/Mem.v ===== *)
(** * Byte-addressed memory and the routines of kernel/string.c

    Physical memory is a finite map from addresses to byte values; an address that was
    never written reads as 0.  [load]/[store] are the little-endian accesses the compiler
    emits for multi-byte objects.  [memset], [memcmp], [memmove], [strncmp], [strncpy],
    [safestrcpy] and [strlen] follow the loops of kernel/string.c, byte by byte, on that
    memory; the theorems give their effect on every address. *)

From stdpp Require Import base numbers list gmap.
From S2P Require Import Prelude.

(** ** Bytes and little-endian words *)

Definition rd (m : gmap Z Z) (a : Z) : Z := u8 (default 0%Z (m !! a)).
Definition wr (m : gmap Z Z) (a v : Z) : gmap Z Z := <[a := v]> m.

Fixpoint load (n : nat) (m : gmap Z Z) (a : Z) : Z :=
  match n with
  | O => 0
  | S k => rd m a + 256 * load k m (a + 1)
  end.

Fixpoint store (n : nat) (m : gmap Z Z) (a v : Z) : gmap Z Z :=
  match n with
  | O => m
  | S k => store k (wr m a v) (a + 1) (v / 256)
  end.

Definition load64 (m : gmap Z Z) (a : Z) : Z := load 8 m a.
Definition store64 (m : gmap Z Z) (a v : Z) : gmap Z Z := store 8 m a v.
Definition load32 (m : gmap Z Z) (a : Z) : Z := load 4 m a.
Definition store32 (m : gmap Z Z) (a v : Z) : gmap Z Z := store 4 m a v.
#[global] Arguments load64 : simpl never.
#[global] Arguments store64 : simpl never.
#[global] Arguments load32 : simpl never.
#[global] Arguments store32 : simpl never.

(** ** kernel/string.c *)

(** [for(i = 0; i < n; i++) cdst[i] = c;] *)
Fixpoint memset_loop (m : gmap Z Z) (dst c : Z) (n : nat) : gmap Z Z :=
  match n with
  | O => m
  | S k => memset_loop (wr m dst c) (dst + 1) c k
  end.

Definition memset (m : gmap Z Z) (dst c n : Z) : gmap Z Z :=
  memset_loop m dst c (Z.to_nat n).

Fixpoint memcmp_loop (m : gmap Z Z) (s1 s2 : Z) (n : nat) : Z :=
  match n with
  | O => 0
  | S k => if rd m s1 =? rd m s2 then memcmp_loop m (s1 + 1) (s2 + 1) k
           else rd m s1 - rd m s2
  end.

Definition memcmp (m : gmap Z Z) (v1 v2 n : Z) : Z := memcmp_loop m v1 v2 (Z.to_nat n).

(** [while(n-- > 0) *--d = *--s;] *)
Fixpoint copy_down (m : gmap Z Z) (d s : Z) (n : nat) : gmap Z Z :=
  match n with
  | O => m
  | S k => copy_down (wr m (d - 1) (rd m (s - 1))) (d - 1) (s - 1) k
  end.

(** [while(n-- > 0) *d++ = *s++;] *)
Fixpoint copy_up (m : gmap Z Z) (d s : Z) (n : nat) : gmap Z Z :=
  match n with
  | O => m
  | S k => copy_up (wr m d (rd m s)) (d + 1) (s + 1) k
  end.

Definition memmove (m : gmap Z Z) (dst src n : Z) : gmap Z Z :=
  if (src <? dst) && (src + n >? dst)
  then copy_down m (dst + n) (src + n) (Z.to_nat n)
  else copy_up m dst src (Z.to_nat n).

Definition memcpy (m : gmap Z Z) (dst src n : Z) : gmap Z Z := memmove m dst src n.

Fixpoint strncmp_loop (m : gmap Z Z) (p q : Z) (n : nat) : Z :=
  match n with
  | O => 0
  | S k => if negb (rd m p =? 0) && (rd m p =? rd m q)
           then strncmp_loop m (p + 1) (q + 1) k
           else rd m p - rd m q
  end.

Definition strncmp (m : gmap Z Z) (p q n : Z) : Z := strncmp_loop m p q (Z.to_nat n).

(** [while(n-- > 0) *s++ = 0;] *)
Fixpoint strncpy_pad (m : gmap Z Z) (s : Z) (n : nat) : gmap Z Z :=
  match n with
  | O => m
  | S k => strncpy_pad (wr m s 0) (s + 1) k
  end.

(** [while(n-- > 0 && ( *s++ = *t++) != 0);] and then the padding loop, which sees the
    count the first loop left. *)
Fixpoint strncpy_loop (m : gmap Z Z) (s t : Z) (n : nat) : gmap Z Z :=
  match n with
  | O => m
  | S k => let c := rd m t in
           let m1 := wr m s c in
           if c =? 0 then strncpy_pad m1 (s + 1) k
           else strncpy_loop m1 (s + 1) (t + 1) k
  end.

Definition strncpy (m : gmap Z Z) (s t n : Z) : gmap Z Z := strncpy_loop m s t (Z.to_nat n).

(** [while(--n > 0 && ( *s++ = *t++) != 0); *s = 0;], started with [k = n - 1]. *)
Fixpoint safestrcpy_loop (m : gmap Z Z) (s t : Z) (k : nat) : gmap Z Z :=
  match k with
  | O => wr m s 0
  | S k' => let c := rd m t in
            let m1 := wr m s c in
            if c =? 0 then wr m1 (s + 1) 0
            else safestrcpy_loop m1 (s + 1) (t + 1) k'
  end.

Definition safestrcpy (m : gmap Z Z) (s t n : Z) : gmap Z Z :=
  if n <=? 0 then m else safestrcpy_loop m s t (Z.to_nat (n - 1)).

(** [for(n = 0; s[n]; n++);] has no bound of its own: [fuel] bounds the scan and [None]
    means no NUL was met within it. *)
Fixpoint strlen_loop (fuel : nat) (m : gmap Z Z) (s n : Z) : option Z :=
  match fuel with
  | O => None
  | S k => if rd m (s + n) =? 0 then Some n else strlen_loop k m s (n + 1)
  end.

Definition strlen (fuel : nat) (m : gmap Z Z) (s : Z) : option Z := strlen_loop fuel m s 0.

#[global] Arguments memset : simpl never.
#[global] Arguments memmove : simpl never.

(** ** Lemmas on bytes and words *)

Lemma rd_range m a : 0 <= rd m a < 256.
Proof. apply u8_range. Qed.

Lemma rd_wr m a b v : rd (wr m a v) b = if decide (a = b) then u8 v else rd m b.
Proof. unfold rd, wr. rewrite lookup_insert. by case_decide. Qed.

Lemma rd_wr_eq m a v : rd (wr m a v) a = u8 v.
Proof. rewrite rd_wr. by case_decide. Qed.

Lemma rd_wr_ne m a b v : a <> b -> rd (wr m a v) b = rd m b.
Proof. intros. rewrite rd_wr. by case_decide. Qed.

Lemma load_range n m a : 0 <= load n m a < 256 ^ Z.of_nat n.
Proof.
  revert a. induction n as [|n IH]; intros a; [simpl; lia|].
  rewrite Nat2Z.inj_succ, Z.pow_succ_r by lia. cbn [load].
  pose proof (rd_range m a). specialize (IH (a + 1)). nia.
Qed.

Lemma load_ext n m1 m2 a :
  (forall b, a <= b < a + Z.of_nat n -> rd m1 b = rd m2 b) -> load n m1 a = load n m2 a.
Proof.
  revert a. induction n as [|n IH]; intros a H; [done|]. cbn [load].
  rewrite (H a) by lia. f_equal. f_equal. apply IH. intros. apply H. lia.
Qed.

Lemma rd_store_ne n m a v b :
  b < a \/ a + Z.of_nat n <= b -> rd (store n m a v) b = rd m b.
Proof.
  revert m a v. induction n as [|n IH]; intros m a v H; [done|]. cbn [store].
  rewrite IH by lia. apply rd_wr_ne. lia.
Qed.

Lemma load_store_ne n k m a v b :
  b + Z.of_nat k <= a \/ a + Z.of_nat n <= b -> load k (store n m a v) b = load k m b.
Proof. intros. apply load_ext. intros. apply rd_store_ne. lia. Qed.

Lemma load_store_eq n m a v : load n (store n m a v) a = v mod 256 ^ Z.of_nat n.
Proof.
  revert m a v. induction n as [|n IH]; intros m a v; [by rewrite Z.mod_1_r|].
  rewrite Nat2Z.inj_succ, Z.pow_succ_r by lia. cbn [load store].
  rewrite IH, rd_store_ne, rd_wr_eq by lia. unfold u8.
  change (2 ^ 8) with 256.
  rewrite (Z.rem_mul_r v 256 (256 ^ Z.of_nat n)); lia.
Qed.

Lemma load64_range m a : 0 <= load64 m a < 2 ^ 64.
Proof. apply (load_range 8). Qed.

Lemma load64_ext m1 m2 a :
  (forall b, a <= b < a + 8 -> rd m1 b = rd m2 b) -> load64 m1 a = load64 m2 a.
Proof. apply (load_ext 8). Qed.

Lemma load64_store64_eq m a v : load64 (store64 m a v) a = u64 v.
Proof. apply (load_store_eq 8). Qed.

Lemma load64_store64_ne m a v b :
  b + 8 <= a \/ a + 8 <= b -> load64 (store64 m a v) b = load64 m b.
Proof. intros. apply (load_store_ne 8 8). lia. Qed.

Lemma rd_store64_ne m a v b : b < a \/ a + 8 <= b -> rd (store64 m a v) b = rd m b.
Proof. intros. apply (rd_store_ne 8). lia. Qed.

(** ** Correctness of the string.c routines *)

Lemma rd_memset_loop m d c n a :
  rd (memset_loop m d c n) a =
  if decide (d <= a < d + Z.of_nat n) then u8 c else rd m a.
Proof.
  revert m d. induction n as [|n IH]; intros m d; cbn [memset_loop].
  - by case_decide; [lia|].
  - rewrite IH, rd_wr. repeat case_decide; lia || done.
Qed.

Lemma rd_memset m d c n a :
  rd (memset m d c n) a = if decide (d <= a < d + n) then u8 c else rd m a.
Proof. unfold memset. rewrite rd_memset_loop. repeat case_decide; lia || done. Qed.

Lemma rd_copy_up m d s n a :
  d <= s \/ s + Z.of_nat n <= d ->
  rd (copy_up m d s n) a =
  if decide (d <= a < d + Z.of_nat n) then rd m (s + (a - d)) else rd m a.
Proof.
  revert m d s. induction n as [|n IH]; intros m d s H; cbn [copy_up].
  - by case_decide; [lia|].
  - rewrite IH by lia. rewrite !rd_wr, (u8_small (rd m s)) by apply rd_range.
    repeat case_decide; subst; try lia; try done; f_equal; lia.
Qed.

Lemma rd_copy_down m d s n a :
  s <= d ->
  rd (copy_down m d s n) a =
  if decide (d - Z.of_nat n <= a < d) then rd m (s + (a - d)) else rd m a.
Proof.
  revert m d s. induction n as [|n IH]; intros m d s H; cbn [copy_down].
  - by case_decide; [lia|].
  - rewrite IH by lia. rewrite !rd_wr, (u8_small (rd m (s - 1))) by apply rd_range.
    repeat case_decide; subst; try lia; try done; f_equal; lia.
Qed.

Lemma rd_memmove m dst src n a :
  rd (memmove m dst src n) a =
  if decide (dst <= a < dst + n) then rd m (src + (a - dst)) else rd m a.
Proof.
  unfold memmove.
  destruct (Z.ltb_spec src dst); destruct (Z.gtb_spec (src + n) dst); cbn [andb];
    [rewrite rd_copy_down by lia|rewrite rd_copy_up by lia..];
    repeat case_decide; try lia; try done; f_equal; lia.
Qed.

(** [memmove] copies the source range as it was before the call, also when the ranges
    overlap in either direction, and touches no byte outside the destination. *)
Theorem memmove_correct m dst src n :
  forall a, rd (memmove m dst src n) a =
    if decide (dst <= a < dst + n) then rd m (src + (a - dst)) else rd m a.
Proof. intros. apply rd_memmove. Qed.

Lemma load64_memset_ne m d c n a :
  a + 8 <= d \/ d + n <= a -> load64 (memset m d c n) a = load64 m a.
Proof.
  intros. apply load_ext. intros b Hb. rewrite rd_memset. case_decide; [lia|done].
Qed.

Lemma load_zero n m a :
  (forall b, a <= b < a + Z.of_nat n -> rd m b = 0) -> load n m a = 0.
Proof.
  revert a. induction n as [|n IH]; intros a H; [done|]. cbn [load].
  rewrite H by lia. rewrite IH; [lia|]. intros. apply H. lia.
Qed.

Lemma load64_zero m a : (forall b, a <= b < a + 8 -> rd m b = 0) -> load64 m a = 0.
Proof. intros H. by apply load_zero. Qed.

Lemma load64_memset_zero m d n a :
  d <= a -> a + 8 <= d + n -> load64 (memset m d 0 n) a = 0.
Proof.
  intros. apply load_zero. intros b Hb. rewrite rd_memset. case_decide; [done|lia].
Qed.

(** ** Little-endian fields of a byte buffer that is a list, such as a disk block *)

Fixpoint lget (n : nat) (l : list Z) (off : nat) : Z :=
  match n with
  | O => 0
  | S k => u8 (default 0 (l !! off)) + 256 * lget k l (S off)
  end.

Fixpoint lput (n : nat) (off : nat) (v : Z) (l : list Z) : list Z :=
  match n with
  | O => l
  | S k => lput k (S off) (v / 256) (<[off := v mod 256]> l)
  end.

(** The bytes of a [n]-byte integer. *)
Fixpoint bytes_of (n : nat) (v : Z) : list Z :=
  match n with
  | O => []
  | S k => v mod 256 :: bytes_of k (v / 256)
  end.

Lemma lput_length n off v l : length (lput n off v l) = length l.
Proof. revert off v l. induction n as [|n IH]; intros; cbn; [done|]. by rewrite IH, length_insert. Qed.

Lemma lget_range n l off : 0 <= lget n l off < 256 ^ Z.of_nat n.
Proof.
  revert off. induction n as [|n IH]; intros off; [cbn; lia|]. cbn [lget].
  pose proof (u8_range (default 0 (l !! off))). specialize (IH (S off)).
  rewrite Nat2Z.inj_succ, Z.pow_succ_r by lia. lia.
Qed.

Lemma lput_lookup_ne n off v l i :
  (i < off \/ off + n <= i)%nat -> lput n off v l !! i = l !! i.
Proof.
  revert off v l. induction n as [|n IH]; intros off v l Hi; [done|]. cbn.
  rewrite IH by lia. apply list_lookup_insert_ne. lia.
Qed.

Lemma lget_ext n l1 l2 off :
  (forall i, (off <= i < off + n)%nat -> l1 !! i = l2 !! i) -> lget n l1 off = lget n l2 off.
Proof.
  revert off. induction n as [|n IH]; intros off H; [done|]. cbn.
  rewrite H, (IH (S off)) by (lia || (intros; apply H; lia)). done.
Qed.

Lemma lget_lput_ne n k off off' v l :
  (off' + k <= off \/ off + n <= off')%nat -> lget k (lput n off v l) off' = lget k l off'.
Proof. intros H. apply lget_ext. intros i Hi. apply lput_lookup_ne. lia. Qed.

Lemma lget_lput n off v l :
  (off + n <= length l)%nat -> lget n (lput n off v l) off = v mod 256 ^ Z.of_nat n.
Proof.
  revert off v l. induction n as [|n IH]; intros off v l Hl; [by rewrite Z.mod_1_r|].
  cbn [lget lput]. rewrite lput_lookup_ne by lia. rewrite list_lookup_insert_eq by lia.
  cbn [default from_option id]. rewrite IH by (rewrite length_insert; lia).
  rewrite Nat2Z.inj_succ, Z.pow_succ_r, Z.rem_mul_r by lia.
  unfold u8. change (2 ^ 8) with 256. by rewrite Z.mod_mod.
Qed.

(** ** The same string routines on buffers that are lists; a byte past the end is the NUL *)

Definition at_l (l : list Z) (i : nat) : Z := u8 (default 0 (l !! i)).

Fixpoint strncmp_l (p q : list Z) (n : nat) : Z :=
  match n with
  | O => 0
  | S k =>
      let a := at_l p 0 in let b := at_l q 0 in
      if negb (a =? 0) && (a =? b) then strncmp_l (tail p) (tail q) k else a - b
  end.

(** The [n] bytes [strncpy(s, t, n)] stores: [t] up to its NUL, padded with zeros. *)
Fixpoint strncpy_l (t : list Z) (n : nat) : list Z :=
  match n with
  | O => []
  | S k => if at_l t 0 =? 0 then replicate n 0 else at_l t 0 :: strncpy_l (tail t) k
  end.

(** What [safestrcpy(s, t, n)] stores at the start of [s], for [n = S k]: at most [k] bytes
    of [t] up to and including its NUL, then a NUL. *)
Fixpoint safestrcpy_l (t : list Z) (k : nat) : list Z :=
  match k with
  | O => [0]
  | S k' => if at_l t 0 =? 0 then [0; 0] else at_l t 0 :: safestrcpy_l (tail t) k'
  end.

(** [buf] with the bytes [bs] stored from index [off] on. *)
Definition splice (off : nat) (bs buf : list Z) : list Z :=
  take off buf ++ bs ++ drop (off + length bs) buf.

(** The [len] bytes of [buf] from index [off] on. *)
Definition slice (off len : nat) (buf : list Z) : list Z := take len (drop off buf).

Lemma length_splice off bs buf :
  (off + length bs <= length buf)%nat -> length (splice off bs buf) = length buf.
Proof. intros. unfold splice. rewrite !length_app, length_take, length_drop. lia. Qed.

Lemma length_slice off n buf :
  (off + n <= length buf)%nat -> length (slice off n buf) = n.
Proof. intros. unfold slice. rewrite length_take, length_drop. lia. Qed.

Lemma slice_splice off bs buf :
  (off <= length buf)%nat -> slice off (length bs) (splice off bs buf) = bs.
Proof.
  intros. unfold slice, splice. rewrite drop_app_length' by (rewrite length_take; lia).
  apply take_app_length.
Qed.

Lemma slice_splice_ne off off' n bs buf :
  (off + length bs <= length buf)%nat -> (off' + n <= off \/ off + length bs <= off')%nat ->
  slice off' n (splice off bs buf) = slice off' n buf.
Proof.
  intros Hl Hd. unfold slice, splice. apply list_eq. intros i.
  destruct (decide (i < n)%nat) as [Hi|Hi]; [|by rewrite !lookup_take_ge by lia].
  rewrite !lookup_take_lt, !lookup_drop by lia.
  destruct Hd.
  - rewrite lookup_app_l, lookup_take_lt by (rewrite ?length_take; lia). done.
  - rewrite lookup_app_r by (rewrite length_take; lia).
    rewrite lookup_app_r by (rewrite length_take; lia).
    rewrite lookup_drop. f_equal. rewrite length_take. lia.
Qed.

Lemma splice_app_r off bs l1 l2 :
  (length l1 <= off)%nat -> splice off bs (l1 ++ l2) = l1 ++ splice (off - length l1) bs l2.
Proof.
  intros. unfold splice. rewrite take_app_ge, drop_app_ge by lia.
  rewrite <- !app_assoc. do 4 f_equal. lia.
Qed.

Lemma splice_end bs l z :
  (length bs <= z)%nat ->
  splice (length l) bs (l ++ replicate z 0) = (l ++ bs) ++ replicate (z - length bs) 0.
Proof.
  intros. unfold splice. rewrite take_app_length, drop_app_ge by lia.
  rewrite drop_replicate, <- app_assoc. do 3 f_equal. lia.
Qed.

Lemma lget_slice n k o data :
  (k + n <= 64)%nat -> lget n (slice o 64 data) k = lget n data (o + k).
Proof.
  revert k. induction n as [|n IH]; intros k Hk; [done|]. cbn [lget].
  rewrite IH by lia. unfold slice at 1. rewrite lookup_take_lt, lookup_drop by lia.
  by rewrite Nat.add_succ_r.
Qed.

(** The routines are used through the lemmas above; the conversion test should not run
    their loops. *)
#[global] Opaque memset memmove load64 store64 load32 store32.
