(* ===== verification/Printf.v ===== *)
(** * Formatted output: kernel/printf.c

    [printint], [printptr] and the format interpreter of [printf] as the bytes they send to
    the console, in order. *)

From stdpp Require Import base numbers list gmap strings.
From S2P Require Import Prelude Mem.

Definition digits : list Z := str "0123456789abcdef".
Definition digit (d : Z) : Z := digits !!! Z.to_nat d.

(** The [do ... while] of [printint]: the digits of [x], least significant first; a 32-bit
    number has at most 32 of them. *)
Fixpoint int_digits (fuel : nat) (x base : Z) : list Z :=
  match fuel with
  | O => []
  | S k => digit (x mod base) :: (if x / base =? 0 then [] else int_digits k (x / base) base)
  end.

(** [buf] as [printint] fills it: digits, then the sign. *)
Definition printint_buf (xx base : Z) (sign : bool) : list Z :=
  let neg := sign && (xx <? 0) in
  let x := if neg then u32 (- xx) else u32 xx in
  int_digits 32 x base ++ (if neg then [45] else []).

Definition printint (xx base : Z) (sign : bool) : list Z := reverse (printint_buf xx base sign).

Fixpoint ptr_digits (n : nat) (x : Z) : list Z :=
  match n with
  | O => []
  | S k => digit (Z.shiftr x 60) :: ptr_digits k (u64 (Z.shiftl x 4))
  end.
Definition printptr (x : Z) : list Z := 48 :: 120 :: ptr_digits 16 x.

(** An argument of [printf], as [va_arg] reads it. *)
Inductive varg := AInt (v : Z) | APtr (v : Z) | AStr (s : option (list Z)).

Definition null_string : list Z := str "(null)".

Fixpoint until_nul (l : list Z) : list Z :=
  match l with c :: l' => if c =? 0 then [] else c :: until_nul l' | [] => [] end.

(** The output for a format, [None] when an argument is missing or of the wrong type. *)
Fixpoint format (fmt : list Z) (args : list varg) : option (list Z) :=
  match fmt with
  | [] => Some []
  | c :: fmt' =>
      if c =? 0 then Some [] else
      if negb (c =? 37) then cons c <$> format fmt' args else
      match fmt' with
      | [] => Some []
      | c :: fmt'' =>
          if c =? 0 then Some [] else
          if c =? 100 then
            match args with
            | AInt v :: args' => app (printint v 10 true) <$> format fmt'' args'
            | _ => None
            end
          else if c =? 120 then
            match args with
            | AInt v :: args' => app (printint v 16 true) <$> format fmt'' args'
            | _ => None
            end
          else if c =? 112 then
            match args with
            | APtr v :: args' => app (printptr v) <$> format fmt'' args'
            | _ => None
            end
          else if c =? 115 then
            match args with
            | AStr s :: args' => app (until_nul (default null_string s)) <$> format fmt'' args'
            | _ => None
            end
          else if c =? 37 then cons 37 <$> format fmt'' args
          else (fun l => 37 :: c :: l) <$> format fmt'' args
      end
  end.

(** ** [%d] prints the number *)

(** Reading a number back: optional sign, then digits in base 10. *)
Fixpoint read_digits (acc : Z) (l : list Z) : option Z :=
  match l with
  | [] => Some acc
  | c :: l' => if (48 <=? c) && (c <=? 57) then read_digits (10 * acc + (c - 48)) l' else None
  end.
Definition read_int (l : list Z) : option Z :=
  match l with
  | 45 :: l' => Z.opp <$> read_digits 0 l'
  | _ => read_digits 0 l
  end.

Lemma digit_decimal d : 0 <= d < 10 -> digit d = 48 + d.
Proof.
  intros H. assert (d = 0 \/ d = 1 \/ d = 2 \/ d = 3 \/ d = 4 \/ d = 5 \/ d = 6 \/ d = 7 \/ d = 8 \/ d = 9) as Hd by lia.
  by repeat destruct Hd as [->|Hd]; subst.
Qed.

Lemma read_digits_app acc l1 l2 :
  read_digits acc (l1 ++ l2) = a ← read_digits acc l1; read_digits a l2.
Proof.
  revert acc. induction l1 as [|c l1 IH]; intros acc; [done|]. cbn.
  destruct (_ && _); [apply IH|done].
Qed.

Lemma read_int_digits fuel x :
  0 <= x < 10 ^ Z.of_nat fuel -> read_digits 0 (reverse (int_digits fuel x 10)) = Some x.
Proof.
  revert x. induction fuel as [|fuel IH]; intros x Hx; [cbn in Hx; by replace x with 0 by lia|].
  cbn [int_digits]. rewrite reverse_cons, read_digits_app.
  pose proof (Z.mod_pos_bound x 10 ltac:(lia)). pose proof (Z.div_mod x 10 ltac:(lia)).
  assert (read_digits 0 (reverse (if x / 10 =? 0 then [] else int_digits fuel (x / 10) 10)) = Some (x / 10)) as ->.
  { destruct (Z.eqb_spec (x / 10) 0) as [->|]; [done|]. apply IH.
    rewrite Nat2Z.inj_succ, Z.pow_succ_r in Hx by lia.
    split; [apply Z.div_pos; lia|apply Z.div_lt_upper_bound; lia]. }
  cbn. rewrite digit_decimal by lia.
  destruct (Z.leb_spec 48 (48 + x mod 10)); [|lia]. destruct (Z.leb_spec (48 + x mod 10) 57); [|lia].
  cbn. f_equal. lia.
Qed.

Lemma int_digits_S fuel x base :
  int_digits (S fuel) x base =
  digit (x mod base) :: (if x / base =? 0 then [] else int_digits fuel (x / base) base).
Proof. reflexivity. Qed.

Lemma reverse_int_digits_first fuel x :
  0 <= x -> exists d l, reverse (int_digits (S fuel) x 10) = d :: l /\ 48 <= d <= 57.
Proof.
  revert x. induction fuel as [|fuel IH]; intros x Hx; rewrite int_digits_S, reverse_cons;
    pose proof (Z.mod_pos_bound x 10 ltac:(lia)); pose proof (digit_decimal (x mod 10) ltac:(lia)) as Hd.
  - destruct (x / 10 =? 0); cbn; do 2 eexists; (split; [done|lia]).
  - destruct (Z.eqb_spec (x / 10) 0).
    + cbn. do 2 eexists. split; [done|lia].
    + destruct (IH (x / 10)) as (d & l & -> & Hd'); [apply Z.div_pos; lia|].
      do 2 eexists. split; [done|lia].
Qed.

Lemma int_digits_length n fuel x :
  (0 < n)%nat -> 0 <= x < 10 ^ Z.of_nat n -> (length (int_digits fuel x 10) <= n)%nat.
Proof.
  revert n x. induction fuel as [|fuel IH]; intros n x Hn Hx; [cbn; lia|].
  rewrite int_digits_S. cbn [length]. destruct (Z.eqb_spec (x / 10) 0) as [|Hne]; [cbn; lia|].
  destruct n as [|n]; [lia|]. rewrite Nat2Z.inj_succ, Z.pow_succ_r in Hx by lia.
  assert (0 <= x / 10 < 10 ^ Z.of_nat n)
    by (split; [apply Z.div_pos; lia|apply Z.div_lt_upper_bound; lia]).
  destruct n as [|n]; [cbn in *; lia|]. specialize (IH (S n) (x / 10) ltac:(lia) ltac:(lia)). lia.
Qed.

(** [printint] with base 10 and a sign prints any [int], the most negative one included,
    so that it reads back as the same number, and it never writes past the sixteen
    characters of its buffer. *)
Theorem printint_decimal xx :
  - 2 ^ 31 <= xx < 2 ^ 31 ->
  read_int (printint xx 10 true) = Some xx /\ (length (printint_buf xx 10 true) <= 16)%nat.
Proof.
  intros Hx. unfold printint, printint_buf. cbn [andb].
  set (x := if xx <? 0 then u32 (- xx) else u32 xx).
  assert (x = Z.abs xx) as Hxa by (unfold x; destruct (Z.ltb_spec xx 0); rewrite u32_small; lia).
  pose proof (read_int_digits 32 x ltac:(lia)) as Hr.
  pose proof (int_digits_length 10 32 x ltac:(lia) ltac:(lia)) as Hlen.
  split.
  - destruct (Z.ltb_spec xx 0).
    + rewrite reverse_app. cbn [reverse app]. change (reverse [45]) with [45]. cbn [app read_int].
      rewrite Hr. cbn. f_equal. lia.
    + rewrite app_nil_r. destruct (reverse_int_digits_first 31 x) as (d & l & Hd & Hb); [lia|].
      rewrite Hd in *. unfold read_int.
      destruct d as [|d|d]; try lia. do 6 (destruct d as [d|d|]; try lia); rewrite Hr; f_equal; lia.
  - rewrite length_app. destruct (xx <? 0); cbn [length]; lia.
Qed.

Lemma printint_decimal_witness :
  read_int (printint (- 2 ^ 31) 10 true) = Some (- 2 ^ 31) /\
  (length (printint_buf (- 2 ^ 31) 10 true) <= 16)%nat.
Proof. apply (printint_decimal (- 2 ^ 31)). lia. Defined.
