(* ===== verification/Types.v ===== *)
(** * Constants and structures of the kernel headers

    kernel/param.h, memlayout.h, riscv.h, proc.h, signal.h, spinlock.h and the globals of
    kernel/proc.c and kernel/kalloc.c.  A pointer into a static table is the index of its
    slot, a null pointer is [None]; a pointer to a page obtained from [kalloc] is its
    address, with 0 the null pointer. *)

From stdpp Require Import base numbers list gmap strings.
From S2P Require Import Prelude Mem.

(** ** param.h, signal.h, proc.h *)

Definition NPROC : nat := 64.
Definition NTHREAD : nat := 8.
Definition NOFILE : nat := 16.
Definition NUMOFSIGNALS : nat := 32.
Definition MAX_BSEM : nat := 128.
Definition NUM_OF_THREADS : nat := 20.
Definition MAX_STACK_SIZE : Z := 4000.
Definition SIG_DFL : Z := 0.
Definition SIG_IGN : Z := 1.
Definition SIGKILL : Z := 9.
Definition SIGSTOP : Z := 17.
Definition SIGCONT : Z := 19.

Definition NCPU : nat := 8.
Definition NFILE : nat := 100.
Definition NINODE : nat := 50.
Definition NDEV : Z := 10.
Definition ROOTDEV : Z := 1.
Definition MAXARG : nat := 32.
Definition MAXOPBLOCKS : Z := 10.
Definition LOGSIZE : Z := MAXOPBLOCKS * 3.
Definition NBUF : nat := 30.
Definition FSSIZE : Z := 1000.
Definition MAXPATH : nat := 128.

(** ** riscv.h *)

Definition SSTATUS_SPP : Z := Z.shiftl 1 8.
Definition SSTATUS_SPIE : Z := Z.shiftl 1 5.
Definition SSTATUS_UPIE : Z := Z.shiftl 1 4.
Definition SSTATUS_SIE : Z := Z.shiftl 1 1.
Definition SSTATUS_UIE : Z := Z.shiftl 1 0.
Definition SATP_SV39 : Z := Z.shiftl 8 60.
Definition MAKE_SATP (pagetable : Z) : Z := Z.lor SATP_SV39 (Z.shiftr pagetable 12).


Definition PGSIZE : Z := 4096.
Definition PGSHIFT : Z := 12.
Definition PGROUNDUP (sz : Z) : Z := Z.land (u64 (sz + PGSIZE - 1)) (Z.lnot (PGSIZE - 1)).
Definition PGROUNDDOWN (a : Z) : Z := Z.land a (Z.lnot (PGSIZE - 1)).
Definition PTE_V : Z := 1.
Definition PTE_R : Z := 2.
Definition PTE_W : Z := 4.
Definition PTE_X : Z := 8.
Definition PTE_U : Z := 16.
Definition PA2PTE (pa : Z) : Z := u64 (Z.shiftl (Z.shiftr pa 12) 10).
Definition PTE2PA (pte : Z) : Z := u64 (Z.shiftl (Z.shiftr pte 10) 12).
Definition PTE_FLAGS (pte : Z) : Z := Z.land pte 1023.
Definition PXMASK : Z := 511.
Definition PXSHIFT (level : Z) : Z := PGSHIFT + 9 * level.
Definition PX (level va : Z) : Z := Z.land (Z.shiftr va (PXSHIFT level)) PXMASK.
Definition MAXVA : Z := Z.shiftl 1 (9 + 9 + 9 + 12 - 1).

(** ** memlayout.h *)

Definition KERNBASE : Z := 2147483648.
Definition PHYSTOP : Z := KERNBASE + 128 * 1024 * 1024.
Definition UART0 : Z := 268435456.
Definition UART0_IRQ : Z := 10.
Definition VIRTIO0 : Z := 268439552.
Definition VIRTIO0_IRQ : Z := 1.
Definition CLINT : Z := 33554432.
Definition PLIC : Z := 201326592.
Definition TRAMPOLINE : Z := MAXVA - PGSIZE.
Definition TRAPFRAME : Z := TRAMPOLINE - PGSIZE.
Definition KSTACK (p t : Z) : Z := TRAMPOLINE - ((p + 1) * Z.of_nat NTHREAD + t) * 2 * PGSIZE.

(** ** fs.h, stat.h, file.h, fcntl.h, pipe.c, console.c, uart.c *)

Definition ROOTINO : Z := 1.
Definition BSIZE : Z := 1024.
Definition FSMAGIC : Z := 270544960.
Definition NDIRECT : Z := 12.
Definition NINDIRECT : Z := BSIZE / 4.
Definition MAXFILE : Z := NDIRECT + NINDIRECT.
Definition IPB : Z := BSIZE / 64.
Definition BPB : Z := BSIZE * 8.
Definition DIRSIZ : nat := 14.
Definition T_DIR : Z := 1.
Definition T_FILE : Z := 2.
Definition T_DEVICE : Z := 3.
Definition CONSOLE : Z := 1.
Definition O_RDONLY : Z := 0.
Definition O_WRONLY : Z := 1.
Definition O_RDWR : Z := 2.
Definition O_CREATE : Z := 512.
Definition O_TRUNC : Z := 1024.
Definition PIPESIZE : Z := 512.
Definition INPUT_BUF : Z := 128.
Definition UART_TX_BUF_SIZE : Z := 32.

(** ** Lock and channel identities

    The address of a lock, and of the objects [sleep] and [wakeup] use as channels, is
    represented by what it is the address of. *)

Inductive slock := SL_buf (i : nat) | SL_inode (i : nat).
#[export] Instance slock_eq_dec : EqDecision slock.
Proof. solve_decision. Defined.

Inductive lock :=
| L_kmem | L_pid | L_tid | L_wait | L_ticks
| L_proc (i : nat) | L_thread (i j : nat) | L_bsem (i : nat)
| L_bcache | L_log | L_itable | L_ftable | L_pipe (a : Z)
| L_sleep (k : slock) | L_cons | L_uart | L_vdisk | L_pr.
#[export] Instance lock_eq_dec : EqDecision lock.
Proof. solve_decision. Defined.

Inductive channel :=
| CH_null | CH_proc (i : nat) | CH_thread (i j : nat) | CH_ticks | CH_bsem (i : nat)
| CH_sleeplock (k : slock) | CH_log | CH_buf (i : nat)
| CH_nread (a : Z) | CH_nwrite (a : Z) | CH_cons | CH_uart | CH_diskfree.
#[export] Instance channel_eq_dec : EqDecision channel.
Proof. solve_decision. Defined.

(** ** Threads and processes (proc.h) *)

Inductive threadstate :=
| t_UNUSED | t_USED | t_SLEEPING | t_RUNNABLE | t_RUNNING | TZOMBIE | INVALID.
#[export] Instance threadstate_eq_dec : EqDecision threadstate.
Proof. solve_decision. Defined.

Inductive procstate := UNUSED | USED | ZOMBIE.
#[export] Instance procstate_eq_dec : EqDecision procstate.
Proof. solve_decision. Defined.

(** The trapframe is accessed in memory: these are the offsets of its registers, in the
    order of the structure, and its size. *)
Definition tf_kernel_satp : Z := 0.
Definition tf_kernel_sp : Z := 8.
Definition tf_kernel_trap : Z := 16.
Definition tf_epc : Z := 24.
Definition tf_kernel_hartid : Z := 32.
Definition tf_ra : Z := 40.
Definition tf_sp : Z := 48.
Definition tf_gp : Z := 56.
Definition tf_tp : Z := 64.
Definition tf_t0 : Z := 72.
Definition tf_t1 : Z := 80.
Definition tf_t2 : Z := 88.
Definition tf_s0 : Z := 96.
Definition tf_s1 : Z := 104.
Definition tf_a0 : Z := 112.
Definition tf_a1 : Z := 120.
Definition tf_a2 : Z := 128.
Definition tf_a3 : Z := 136.
Definition tf_a4 : Z := 144.
Definition tf_a5 : Z := 152.
Definition tf_a6 : Z := 160.
Definition tf_a7 : Z := 168.
Definition tf_s2 : Z := 176.
Definition tf_s3 : Z := 184.
Definition tf_s4 : Z := 192.
Definition tf_s5 : Z := 200.
Definition tf_s6 : Z := 208.
Definition tf_s7 : Z := 216.
Definition tf_s8 : Z := 224.
Definition tf_s9 : Z := 232.
Definition tf_s10 : Z := 240.
Definition tf_s11 : Z := 248.
Definition tf_t3 : Z := 256.
Definition tf_t4 : Z := 264.
Definition tf_t5 : Z := 272.
Definition tf_t6 : Z := 280.
Definition sizeof_trapframe : Z := 288.

Set Primitive Projections.

Record context := Context {
  ctx_ra : Z; ctx_sp : Z;
  ctx_s0 : Z; ctx_s1 : Z; ctx_s2 : Z; ctx_s3 : Z; ctx_s4 : Z; ctx_s5 : Z;
  ctx_s6 : Z; ctx_s7 : Z; ctx_s8 : Z; ctx_s9 : Z; ctx_s10 : Z; ctx_s11 : Z }.

Record thread := Thread {
  t_state : threadstate;
  t_chan : channel;
  t_killed : Z;
  t_xstate : Z;
  t_tid : Z;
  t_tparent : option nat;
  t_kstack : Z;
  t_trapframe : Z;
  t_context : context }.

Record proc := Proc {
  p_state : procstate;
  p_killed : Z;
  p_xstate : Z;
  p_pid : Z;
  p_pendingsignals : Z;
  p_parent : option nat;
  p_threads : list thread;
  p_sz : Z;
  p_pagetable : Z;
  p_trapframepointer : Z;
  p_ofile : list (option nat);
  p_cwd : option nat;
  p_name : list Z;
  p_signalmask : Z;
  p_signalhandlers : list Z;
  p_signalmasks : list Z;
  p_user_trap_frame_backup : Z;
  p_freeze : Z;
  p_handlingSignal : Z;
  p_signalmask_origin : Z }.

(** The addresses the linker script and the assembly files define. *)
Record symbols := Symbols {
  sym_end : Z;
  sym_etext : Z;
  sym_trampoline : Z;
  sym_uservec : Z;
  sym_userret : Z;
  sym_kernelvec : Z;
  sym_forkret : Z;
  sym_usertrap : Z;
  sym_sigretBEG : Z;
  sym_sigretEND : Z }.

Record binarySemaphore := BinarySemaphore {
  bs_value : Z;
  bs_threads : list (option (nat * nat));
  bs_currentThread : option (nat * nat);
  bs_descriptor : Z }.

(** ** The file system's structures (sleeplock.h, buf.h, file.h, fs.h, log.c, pipe.c) *)

Record sleeplock := Sleeplock { sl_locked : bool; sl_pid : Z }.

(** A buffer is named by its index in [bcache.buf]; [NBUF] names [bcache.head]. *)
Record buf := Buf {
  b_valid : bool;
  b_disk : bool;
  b_dev : Z;
  b_blockno : Z;
  b_lock : sleeplock;
  b_refcnt : Z;
  b_prev : nat;
  b_next : nat;
  b_data : list Z }.

Record superblock := Superblock {
  sb_magic : Z; sb_size : Z; sb_nblocks : Z; sb_ninodes : Z;
  sb_nlog : Z; sb_logstart : Z; sb_inodestart : Z; sb_bmapstart : Z }.

Record logstate := Log {
  lg_start : Z;
  lg_size : Z;
  lg_outstanding : Z;
  lg_committing : bool;
  lg_dev : Z;
  lh_n : Z;
  lh_block : list Z }.

Record inode := Inode {
  i_dev : Z;
  i_inum : Z;
  i_ref : Z;
  i_lock : sleeplock;
  i_valid : bool;
  i_type : Z;
  i_major : Z;
  i_minor : Z;
  i_nlink : Z;
  i_size : Z;
  i_addrs : list Z }.

Inductive filetype := FD_NONE | FD_PIPE | FD_INODE | FD_DEVICE.

Record file := File {
  f_type : filetype;
  f_ref : Z;
  f_readable : bool;
  f_writable : bool;
  f_pipe : Z;
  f_ip : option nat;
  f_off : Z;
  f_major : Z }.

Record pipe := Pipe {
  pi_data : list Z;
  pi_nread : Z;
  pi_nwrite : Z;
  pi_readopen : bool;
  pi_writeopen : bool }.

(** ** Devices: the console and its UART, the disk, the supervisor's registers

    [ut_rx] is the input waiting in the UART, [ut_idle] what the next reads of the line
    status register say about its transmitter, [ut_out] the bytes given to it, the last one
    first.  [dk_blocks] is the durable content of the disk and [dk_writes] the writes it
    has received, the last one first. *)

Record console := Console { cn_buf : list Z; cn_r : Z; cn_w : Z; cn_e : Z }.

Record uart := Uart {
  ut_buf : list Z;
  ut_w : Z;
  ut_r : Z;
  ut_rx : list Z;
  ut_idle : list bool;
  ut_out : list Z }.

Record diskstate := Disk { dk_blocks : gmap Z (list Z); dk_writes : list (Z * list Z) }.

Record csrs := Csrs {
  r_sstatus : Z; r_sepc : Z; r_scause : Z; r_stval : Z;
  r_stvec : Z; r_satp : Z; r_sip : Z; r_tp : Z }.

(** ** The kernel's globals

    [held] is the list of spinlocks the executing CPU holds, the most recently acquired
    first: [noff] of kernel/spinlock.c is its length. *)

Record kstate := KState {
  syms : symbols;
  held : list lock;
  mem : gmap Z Z;
  freelist : Z;
  procs : list proc;
  initproc : option nat;
  nextpid : Z;
  nexttid : Z;
  c_proc : option nat;
  c_thread : option (nat * nat);
  bsems : list binarySemaphore;
  ticks : Z;
  kernel_pagetable : Z;
  forkret_first : bool;
  csr : csrs;
  bcache : list buf;
  log : logstate;
  sb : superblock;
  itable : list inode;
  ftable : list file;
  pipes : gmap Z pipe;
  cons_dev : console;
  uart_dev : uart;
  disk : diskstate }.

Unset Primitive Projections.

#[export] Instance eta_context : Eta context := fun c =>
  Context (ctx_ra c) (ctx_sp c) (ctx_s0 c) (ctx_s1 c) (ctx_s2 c) (ctx_s3 c) (ctx_s4 c)
    (ctx_s5 c) (ctx_s6 c) (ctx_s7 c) (ctx_s8 c) (ctx_s9 c) (ctx_s10 c) (ctx_s11 c).

#[export] Instance eta_thread : Eta thread := fun t =>
  Thread (t_state t) (t_chan t) (t_killed t) (t_xstate t) (t_tid t) (t_tparent t)
    (t_kstack t) (t_trapframe t) (t_context t).

#[export] Instance eta_proc : Eta proc := fun p =>
  Proc (p_state p) (p_killed p) (p_xstate p) (p_pid p) (p_pendingsignals p) (p_parent p)
    (p_threads p) (p_sz p) (p_pagetable p) (p_trapframepointer p) (p_ofile p) (p_cwd p)
    (p_name p) (p_signalmask p) (p_signalhandlers p) (p_signalmasks p)
    (p_user_trap_frame_backup p) (p_freeze p) (p_handlingSignal p) (p_signalmask_origin p).

#[export] Instance eta_bsem : Eta binarySemaphore := fun b =>
  BinarySemaphore (bs_value b) (bs_threads b) (bs_currentThread b) (bs_descriptor b).

#[export] Instance eta_sleeplock : Eta sleeplock := fun x =>
  Sleeplock
    (sl_locked x) (sl_pid x).

#[export] Instance eta_buf : Eta buf := fun x =>
  Buf
    (b_valid x) (b_disk x) (b_dev x) (b_blockno x) (b_lock x) (b_refcnt x) (b_prev x)
    (b_next x) (b_data x).

#[export] Instance eta_superblock : Eta superblock := fun x =>
  Superblock
    (sb_magic x) (sb_size x) (sb_nblocks x) (sb_ninodes x) (sb_nlog x) (sb_logstart x)
    (sb_inodestart x) (sb_bmapstart x).

#[export] Instance eta_logstate : Eta logstate := fun x =>
  Log
    (lg_start x) (lg_size x) (lg_outstanding x) (lg_committing x) (lg_dev x) (lh_n x)
    (lh_block x).

#[export] Instance eta_inode : Eta inode := fun x =>
  Inode
    (i_dev x) (i_inum x) (i_ref x) (i_lock x) (i_valid x) (i_type x) (i_major x) (i_minor x)
    (i_nlink x) (i_size x) (i_addrs x).

#[export] Instance eta_file : Eta file := fun x =>
  File
    (f_type x) (f_ref x) (f_readable x) (f_writable x) (f_pipe x) (f_ip x) (f_off x)
    (f_major x).

#[export] Instance eta_pipe : Eta pipe := fun x =>
  Pipe
    (pi_data x) (pi_nread x) (pi_nwrite x) (pi_readopen x) (pi_writeopen x).

#[export] Instance eta_console : Eta console := fun x =>
  Console
    (cn_buf x) (cn_r x) (cn_w x) (cn_e x).

#[export] Instance eta_uart : Eta uart := fun x =>
  Uart
    (ut_buf x) (ut_w x) (ut_r x) (ut_rx x) (ut_idle x) (ut_out x).

#[export] Instance eta_diskstate : Eta diskstate := fun x =>
  Disk
    (dk_blocks x) (dk_writes x).

#[export] Instance eta_csrs : Eta csrs := fun x =>
  Csrs
    (r_sstatus x) (r_sepc x) (r_scause x) (r_stval x) (r_stvec x) (r_satp x) (r_sip x) (r_tp
    x).

#[export] Instance eta_kstate : Eta kstate := fun x =>
  KState
    (syms x) (held x) (mem x) (freelist x) (procs x) (initproc x) (nextpid x) (nexttid x)
    (c_proc x) (c_thread x) (bsems x) (ticks x) (kernel_pagetable x) (forkret_first x) (csr
    x) (bcache x) (log x) (sb x) (itable x) (ftable x) (pipes x) (cons_dev x) (uart_dev x) (disk
    x).

(** ** The all-zero objects of the BSS segment *)

Definition context0 : context := Context 0 0 0 0 0 0 0 0 0 0 0 0 0 0.

Definition thread0 : thread := Thread t_UNUSED CH_null 0 0 0 None 0 0 context0.

Definition proc0 : proc :=
  Proc UNUSED 0 0 0 0 None (replicate NTHREAD thread0) 0 0 0 (replicate NOFILE None) None
    (replicate 16 0) 0 (replicate NUMOFSIGNALS SIG_DFL) (replicate NUMOFSIGNALS 0) 0 0 0 0.

Definition bsem0 : binarySemaphore :=
  BinarySemaphore 0 (replicate NUM_OF_THREADS None) None 0.

Definition sleeplock0 : sleeplock := Sleeplock false 0.
Definition zero_block : list Z := replicate (Z.to_nat BSIZE) 0.
Definition buf0 : buf := Buf false false 0 0 sleeplock0 0 0 0 zero_block.
#[export] Instance buf_inhabited : Inhabited buf := populate buf0.
Definition log0 : logstate := Log 0 0 0 false 0 0 (replicate (Z.to_nat LOGSIZE) 0).
Definition superblock0 : superblock := Superblock 0 0 0 0 0 0 0 0.
Definition inode0 : inode := Inode 0 0 0 sleeplock0 false 0 0 0 0 0 (replicate 13 0).
Definition file0 : file := File FD_NONE 0 false false 0 None 0 0.
Definition console0 : console := Console (replicate (Z.to_nat INPUT_BUF) 0) 0 0 0.
Definition uart0 : uart := Uart (replicate (Z.to_nat UART_TX_BUF_SIZE) 0) 0 0 [] [] [].
Definition disk0 : diskstate := Disk ∅ [].
Definition csrs0 : csrs := Csrs 0 0 0 0 0 0 0 0.

Definition kstate0 (sy : symbols) : kstate :=
  KState sy [] ∅ 0 (replicate NPROC proc0) None 1 1 None None (replicate MAX_BSEM bsem0) 0
    0 true csrs0 (replicate (S NBUF) buf0) log0 superblock0 (replicate NINODE inode0)
    (replicate NFILE file0) ∅ console0 uart0 disk0.
