(* ===== verification/Kernel.v ===== *)
(** * The monad of kernel code

    A kernel function runs on one CPU, on the globals [kstate].  It returns a value, or
    panics, or hands the CPU to the scheduler.  What the other threads, CPUs and interrupt
    handlers do between the moment a thread is switched out and the moment it runs again
    is a list of state transformers, the [interference]: each switch consumes one, and a
    function that gives up the CPU with none left ends as [Switched] with the state it
    left behind.  Theorems quantify over the interference, so they hold for every
    schedule; runs without interference are obtained with the empty list.

    A section between [acquire] and [release] of a spinlock is one atomic step: the
    justification is the mutual exclusion theorem of Spinlock.v. *)

From stdpp Require Import base numbers list gmap strings.
From S2P Require Import Prelude Mem Types.

Definition interference : Type := list (kstate -> kstate).

Inductive outcome (A : Type) : Type :=
| Ok (a : A) (e : interference) (s : kstate)
| Panic (msg : string)
| Switched (s : kstate)
| UB (why : string)
| OutOfFuel.
Arguments Ok {A} a e s.
Arguments Panic {A} msg.
Arguments Switched {A} s.
Arguments UB {A} why.
Arguments OutOfFuel {A}.

Definition K (A : Type) : Type := interference -> kstate -> outcome A.

Definition retK {A} (a : A) : K A := fun e s => Ok a e s.
Definition bindK {A B} (c : K A) (k : A -> K B) : K B := fun e s =>
  match c e s with
  | Ok a e' s' => k a e' s'
  | Panic msg => Panic msg
  | Switched s' => Switched s'
  | UB why => UB why
  | OutOfFuel => OutOfFuel
  end.

Definition panic {A} (msg : string) : K A := fun _ _ => Panic msg.
Definition ub {A} (why : string) : K A := fun _ _ => UB why.
Definition getsK {A} (f : kstate -> A) : K A := fun e s => Ok (f s) e s.
Definition modifyK (f : kstate -> kstate) : K unit := fun e s => Ok tt e (f s).

Notation "x <- c ;; k" := (bindK c (fun x => k))
  (at level 100, c at next level, right associativity) : xv6_scope.
Notation "c ;;; k" := (bindK c (fun _ => k))
  (at level 100, right associativity) : xv6_scope.

(** The state and the value of a run that returned, with a default for one that did not. *)
Definition final_state {A} (d : kstate) (o : outcome A) : kstate :=
  match o with Ok _ _ s => s | _ => d end.
Definition final_value {A} (d : A) (o : outcome A) : A :=
  match o with Ok a _ _ => a | _ => d end.

(** ** Loops *)

(** [for(x in l) body(x);] *)
Fixpoint forK {X} (l : list X) (body : X -> K unit) : K unit :=
  match l with
  | [] => retK tt
  | x :: l' => body x ;;; forK l' body
  end.

(** [for(x in l) { ... return r; ... }]: the body answers [Some r] to leave the loop. *)
Fixpoint searchK {X R} (l : list X) (body : X -> K (option R)) : K (option R) :=
  match l with
  | [] => retK None
  | x :: l' => r <- body x ;; match r with Some v => retK (Some v) | None => searchK l' body end
  end.

(** A loop whose body maps the loop variables to new ones ([inl]) or leaves the loop with
    a result ([inr]), bounded by [fuel] iterations. *)
Fixpoint whileK {A R} (fuel : nat) (body : A -> K (A + R)) (a : A) : K R :=
  match fuel with
  | O => fun _ _ => OutOfFuel
  | S k => r <- body a ;; match r with inl a' => whileK k body a' | inr v => retK v end
  end.

(** ** Spinlocks as the executing CPU sees them (kernel/spinlock.c)

    [acquire] panics when this CPU already holds the lock; when another CPU holds it, it
    spins until the lock is free, so the state on return is one in which this CPU holds
    it.  [release] panics unless this CPU holds the lock. *)

Definition is_held (l : lock) (h : list lock) : bool := bool_decide (l ∈ h).

Fixpoint unhold (l : lock) (h : list lock) : list lock :=
  match h with
  | [] => []
  | x :: h' => if decide (x = l) then h' else x :: unhold l h'
  end.

Definition holding (l : lock) : K bool := getsK (fun s => is_held l (held s)).

Definition acquire (l : lock) : K unit :=
  h <- holding l ;;
  if h then panic "acquire" else modifyK (fun s => s <| held ::= cons l |>).

Definition release (l : lock) : K unit :=
  h <- holding l ;;
  if h then modifyK (fun s => s <| held ::= unhold l |>) else panic "release".

Definition noff (s : kstate) : nat := length (held s).

(** A lock of the BSS, or of a page being initialised, is not held by anybody. *)
Definition initlock (l : lock) : K unit := modifyK (fun s => s <| held ::= unhold l |>).

#[global] Arguments acquire : simpl never.
#[global] Arguments release : simpl never.
#[global] Arguments holding : simpl never.
#[global] Arguments initlock : simpl never.

(** ** Lemmas *)

Lemma bindK_Ok {A B} (c : K A) (k : A -> K B) e s a e' s' :
  c e s = Ok a e' s' -> bindK c k e s = k a e' s'.
Proof. intros H. unfold bindK. by rewrite H. Qed.

Lemma bindK_ret {A B} (a : A) (k : A -> K B) : bindK (retK a) k = k a.
Proof. reflexivity. Qed.

Lemma bindK_inv {A B} (c : K A) (k : A -> K B) e s b e' s' :
  bindK c k e s = Ok b e' s' ->
  exists a e1 s1, c e s = Ok a e1 s1 /\ k a e1 s1 = Ok b e' s'.
Proof. unfold bindK. destruct (c e s) eqn:E; try discriminate. eauto. Qed.

Lemma getsK_run {A} (f : kstate -> A) e s : getsK f e s = Ok (f s) e s.
Proof. reflexivity. Qed.
Lemma modifyK_run f e s : modifyK f e s = Ok tt e (f s).
Proof. reflexivity. Qed.

Lemma is_held_true l h : is_held l h = true <-> l ∈ h.
Proof. apply bool_decide_eq_true. Qed.
Lemma is_held_false l h : is_held l h = false <-> l ∉ h.
Proof. apply bool_decide_eq_false. Qed.
Lemma is_held_cons l h : is_held l (l :: h) = true.
Proof. apply is_held_true. constructor. Qed.

Lemma unhold_cons l h : unhold l (l :: h) = h.
Proof. simpl. by rewrite decide_True. Qed.

Lemma unhold_cons_ne l k h : k <> l -> unhold l (k :: h) = k :: unhold l h.
Proof. intros. simpl. by rewrite decide_False. Qed.

Lemma acquire_free l e s :
  l ∉ held s -> acquire l e s = Ok tt e (s <| held ::= cons l |>).
Proof.
  intros H. apply is_held_false in H. unfold acquire, holding, bindK, getsK, modifyK.
  by rewrite H.
Qed.

Lemma acquire_held l e s : l ∈ held s -> acquire l e s = Panic "acquire".
Proof.
  intros H. apply is_held_true in H. unfold acquire, holding, bindK, getsK, panic.
  by rewrite H.
Qed.

Lemma release_held l e s :
  l ∈ held s -> release l e s = Ok tt e (s <| held ::= unhold l |>).
Proof.
  intros H. apply is_held_true in H. unfold release, holding, bindK, getsK, modifyK.
  by rewrite H.
Qed.

Lemma release_top l e s h :
  held s = l :: h -> release l e s = Ok tt e (s <| held := h |>).
Proof.
  intros H. rewrite release_held by (rewrite H; constructor).
  f_equal. cbv [upd]. by rewrite H, unhold_cons.
Qed.

Lemma release_at l e s h h' :
  held s = h -> l ∈ h -> unhold l h = h' -> release l e s = Ok tt e (s <| held := h' |>).
Proof. intros H Hl <-. rewrite release_held by (by rewrite H). f_equal. cbv [upd]. by rewrite H. Qed.

Lemma release_not_held l e s : l ∉ held s -> release l e s = Panic "release".
Proof.
  intros H. apply is_held_false in H. unfold release, holding, bindK, getsK, panic.
  by rewrite H.
Qed.

(** A critical section: a body run between [acquire] and [release] of a free lock, which
    gives back the lock it was entered with, leaves the list of held locks unchanged. *)
Lemma critical {A} l (body : K A) (k : A -> K A) e s a s1 :
  l ∉ held s ->
  body e (s <| held ::= cons l |>) = Ok a e s1 ->
  held s1 = l :: held s ->
  (acquire l ;;; x <- body ;; release l ;;; k x) e s = k a e (s1 <| held := held s |>).
Proof.
  intros Hl Hb Hh. rewrite (bindK_Ok _ _ _ _ _ _ _ (acquire_free _ _ _ Hl)).
  rewrite (bindK_Ok _ _ _ _ _ _ _ Hb).
  by rewrite (bindK_Ok _ _ _ _ _ _ _ (release_top _ _ _ _ Hh)).
Qed.

(** The page allocator and the page tables change only [mem] and [freelist]. *)
Definition vm_frame (s s' : kstate) : Prop :=
  exists m f, s' = s <| mem := m |> <| freelist := f |>.

Lemma vm_frame_refl s : vm_frame s s.
Proof. exists (mem s), (freelist s). rec_eq. Qed.

Lemma vm_frame_trans s1 s2 s3 : vm_frame s1 s2 -> vm_frame s2 s3 -> vm_frame s1 s3.
Proof. intros (m & f & ->) (m' & f' & ->). exists m', f'. rec_eq. Qed.

Lemma vm_frame_held s s' : vm_frame s s' -> held s' = held s.
Proof. intros (m & f & ->). reflexivity. Qed.

Lemma vm_frame_syms s s' : vm_frame s s' -> syms s' = syms s.
Proof. intros (m & f & ->). reflexivity. Qed.

#[export] Hint Resolve vm_frame_refl vm_frame_trans : core.

(** [kred] computes the plumbing of the monad; [klock] steps over [acquire] and [release],
    leaving the side condition on [held] to [klock_side]. *)

Ltac kred := cbv [bindK getsK modifyK retK panic ub]; cbn beta iota.

(** [kstep H] executes the first operation of a sequence, whose run is [H]. *)
Ltac kstep H := rewrite (bindK_Ok _ _ _ _ _ _ _ H); cbn beta iota.

Ltac klock_side :=
  cbn; first [ assumption | by constructor | set_solver ].

Ltac klock :=
  match goal with
  | |- context [acquire ?l ?e ?s] => rewrite (acquire_free l e s) by klock_side
  | |- context [release ?l ?e ?s] => erewrite (release_top l e s) by reflexivity
  end; cbn beta iota.
