(* ===== verification/Wp.v ===== *)
(** * Total correctness of kernel code

    [wp c Q e s]: run in the state [s] with the interference [e], the operation [c] returns (it
    neither panics, nor runs into undefined behaviour, nor gives up the CPU for good) and what
    it returns satisfies [Q].  The rules follow the structure of the code; the tactic [wp]
    applies them, and [wpapply] uses what was proved of a called function. *)

From stdpp Require Import base numbers list gmap strings.
From S2P Require Import Prelude Mem Types Kernel.

Definition wp {A} (c : K A) (Q : A -> interference -> kstate -> Prop) (e : interference) (s : kstate) : Prop :=
  match c e s with Ok a e' s' => Q a e' s' | _ => False end.

Section Rules.
Context {A B : Type}.
Implicit Types (Q : A -> interference -> kstate -> Prop).

Lemma wp_run (c : K A) Q e s : wp c Q e s <-> exists a e' s', c e s = Ok a e' s' /\ Q a e' s'.
Proof.
  unfold wp. split.
  - destruct (c e s); try done. eauto.
  - by intros (a & e' & s' & -> & H).
Qed.

Lemma wp_ok (c : K A) Q e s a e' s' : c e s = Ok a e' s' -> Q a e' s' -> wp c Q e s.
Proof. unfold wp. by intros ->. Qed.

Lemma wp_mono (c : K A) (P Q : A -> interference -> kstate -> Prop) e s :
  wp c P e s -> (forall a e' s', P a e' s' -> Q a e' s') -> wp c Q e s.
Proof. unfold wp. destruct (c e s); eauto. Qed.

Lemma wp_ret (a : A) Q e s : Q a e s -> wp (retK a) Q e s.
Proof. done. Qed.

Lemma wp_gets (g : kstate -> A) Q e s : Q (g s) e s -> wp (getsK g) Q e s.
Proof. done. Qed.

Lemma wp_bind (c : K B) (k : B -> K A) Q e s :
  wp c (fun b e' s' => wp (k b) Q e' s') e s -> wp (bindK c k) Q e s.
Proof. unfold wp, bindK. by destruct (c e s). Qed.
End Rules.

Lemma wp_modify g (Q : unit -> interference -> kstate -> Prop) e s : Q tt e (g s) -> wp (modifyK g) Q e s.
Proof. done. Qed.

Lemma wp_acquire l (Q : unit -> interference -> kstate -> Prop) e s :
  l ∉ held s -> Q tt e (s <| held ::= cons l |>) -> wp (acquire l) Q e s.
Proof. intros Hl HQ. unfold wp. by rewrite (acquire_free l e s Hl). Qed.

Lemma wp_release l h (Q : unit -> interference -> kstate -> Prop) e s :
  held s = l :: h -> Q tt e (s <| held := h |>) -> wp (release l) Q e s.
Proof. intros H HQ. unfold wp. by rewrite (release_top l e s h H). Qed.

(** One iteration of a loop. *)
Lemma wp_whileK {A R} (body : A -> K (A + R)) k a (Q : R -> interference -> kstate -> Prop) e s :
  wp (body a) (fun r e' s' => match r with inl a' => wp (whileK k body a') Q e' s' | inr v => Q v e' s' end) e s ->
  wp (whileK (S k) body a) Q e s.
Proof. intros H. cbn [whileK]. apply wp_bind. eapply wp_mono; [exact H|]. by intros [a'|v] e' s' H'. Qed.

(** A loop over a list, with an invariant that may mention the elements done. *)
Lemma wp_forK {X} (I : list X -> interference -> kstate -> Prop) (l : list X) (body : X -> K unit)
    (Q : unit -> interference -> kstate -> Prop) e s :
  I [] e s ->
  (forall l1 x l2 e s, l = l1 ++ x :: l2 -> I l1 e s -> wp (body x) (fun _ => I (l1 ++ [x])) e s) ->
  (forall e s, I l e s -> Q tt e s) -> wp (forK l body) Q e s.
Proof.
  intros H0 Hb HQ.
  assert (forall l2 l1 e s, l = l1 ++ l2 -> I l1 e s -> wp (forK l2 body) Q e s) as Hgen; [|by apply (Hgen l [])].
  induction l2 as [|x l2 IH]; intros l1 e1 s1 Hl HI; cbn [forK].
  - rewrite app_nil_r in Hl. subst l1. by apply HQ.
  - apply wp_bind. eapply wp_mono; [by apply (Hb l1 x l2)|]. intros [] e2 s2 H2.
    apply (IH (l1 ++ [x])); [|done]. by rewrite <- app_assoc.
Qed.

(** A counted loop. *)
Lemma wp_for_seq (I : nat -> interference -> kstate -> Prop) n (body : nat -> K unit)
    (Q : unit -> interference -> kstate -> Prop) e s :
  I O e s -> (forall k e s, (k < n)%nat -> I k e s -> wp (body k) (fun _ => I (S k)) e s) ->
  (forall e s, I n e s -> Q tt e s) -> wp (forK (seq 0 n) body) Q e s.
Proof.
  intros H0 Hb HQ. apply (wp_forK (fun l1 => I (length l1))); [done| |by rewrite length_seq].
  intros l1 k l2 e1 s1 Hl HI. assert (k = length l1 /\ (k < n)%nat) as [-> Hk].
  { assert (seq 0 n !! length l1 = Some k) as Hk by by rewrite Hl, list_lookup_middle.
    apply lookup_seq in Hk as [-> ?]. lia. }
  rewrite length_app. replace (length l1 + length [length l1])%nat with (S (length l1)) by (cbn; lia). by apply Hb.
Qed.

(** The common case: the invariant is a property of the state only. *)
Lemma wp_forK_inv {X} (I : kstate -> Prop) (l : list X) (body : X -> K unit)
    (Q : unit -> interference -> kstate -> Prop) e s :
  I s -> (forall x s, x ∈ l -> I s -> wp (body x) (fun _ e' s' => e' = e /\ I s') e s) ->
  (forall s, I s -> Q tt e s) -> wp (forK l body) Q e s.
Proof.
  intros H0 Hb HQ. apply (wp_forK (fun _ e' s' => e' = e /\ I s')); [done| |by intros ?? [-> ?]; auto].
  intros l1 x l2 e1 s1 -> [-> HI]. apply Hb; [set_solver|done].
Qed.

Create HintDb wp.

(** One rule for the operation the goal starts with. *)
Ltac wp_step :=
  lazymatch goal with
  | |- wp (bindK _ _) _ _ _ => apply wp_bind
  | |- wp (retK _) _ _ _ => apply wp_ret
  | |- wp (getsK _) _ _ _ => apply wp_gets
  | |- wp (modifyK _) _ _ _ => apply wp_modify
  | |- wp (let '_ := _ in _) _ _ _ => cbv zeta
  end.
Ltac wp := repeat (wp_step; cbn beta iota).

(** [wpapply H]: the operation returns by [H], a [wp] statement; the goal is the rest. *)
Tactic Notation "wpapply" uconstr(H) := eapply wp_mono; [eapply H|cbn beta].
(** [wprun H]: the operation returns by the equation [H]. *)
Tactic Notation "wprun" uconstr(H) := eapply wp_ok; [eapply H|cbn beta].
