(* ===== verification/Spinlock.v ===== *)
(** * Spinlocks on several CPUs: kernel/spinlock.c

    Every CPU runs client code that calls [acquire], [release], [push_off] and [pop_off]; the
    four routines are split into the accesses to shared memory that the hardware does one at a
    time (the atomic swap, the reads of [lk->locked] and [lk->cpu] in [holding], the two stores
    of [release]), and the steps of the CPUs interleave in any order.  An interrupt may arrive
    on a CPU whenever its interrupts are enabled, and its handler may take locks as well.

    Kernel.v treats a critical section as one atomic step; the theorems here are the reason it
    may: a lock has one owner at a time, its owner's interrupts are off, and [holding] answers
    by ownership although it reads its two fields separately. *)

From stdpp Require Import functions base numbers list gmap strings.
From S2P Require Import Prelude Mem Types.

(** ** The data of spinlock.h and of [struct cpu] *)

Record spinlock := Spin { locked : Z; lk_cpu : option nat }.

(** Where a CPU is in the code; the places are named after the access that comes next. *)
Inductive place :=
| Client                          (* outside of spinlock.c *)
| Acq_off (l : lock) (old : bool) (* acquire: push_off has read sstatus into old *)
| Acq_locked (l : lock)           (* acquire: holding reads lk->locked *)
| Acq_cpu (l : lock)              (* acquire: holding reads lk->cpu *)
| Acq_swap (l : lock)             (* acquire: the atomic swap *)
| Acq_set (l : lock)              (* acquire: lk->cpu = mycpu() *)
| Rel_locked (l : lock)           (* release: holding reads lk->locked *)
| Rel_cpu (l : lock)              (* release: holding reads lk->cpu *)
| Rel_clear (l : lock)            (* release: lk->cpu = 0 *)
| Rel_unlock (l : lock)           (* release: __sync_lock_release *)
| Rel_pop (l : lock)              (* release: pop_off *)
| Push_off (old : bool).          (* push_off called by the client, sstatus read into old *)

(** [c_stack] holds the places interrupted by handlers that have not returned.  [c_own] and
    [c_raw] are auxiliary: the locks whose swap succeeded and that were not unlocked since, and
    the calls of [push_off] the client has not yet matched.  No step reads [c_own]. *)
Record cpu := Cpu {
  c_noff : Z; c_intena : bool; c_intr : bool;
  c_place : place; c_stack : list place; c_own : list lock; c_raw : nat }.
#[export] Instance eta_spinlock : Eta spinlock := fun x => Spin (locked x) (lk_cpu x).
#[export] Instance eta_cpu : Eta cpu := fun x =>
  Cpu (c_noff x) (c_intena x) (c_intr x) (c_place x) (c_stack x) (c_own x) (c_raw x).

Record machine := Machine { cpus : nat -> cpu; locks : lock -> spinlock }.
#[export] Instance eta_machine : Eta machine := fun x => Machine (cpus x) (locks x).

(** ** The routines *)

Definition init_spinlock : spinlock := Spin 0 None.

(** [push_off] after it has read [old = intr_get()]; [None] is the overflow of the counter. *)
Definition push_off_rest (old : bool) (x : cpu) : option cpu :=
  let x := x <| c_intr := false |> in
  let x := if c_noff x =? 0 then x <| c_intena := old |> else x in
  if c_noff x =? 2 ^ 31 - 1 then None else Some (x <| c_noff := c_noff x + 1 |>).

Definition push_off (x : cpu) : option cpu := push_off_rest (c_intr x) x.

Definition pop_off (x : cpu) : string + cpu :=
  if c_intr x then inl "pop_off - interruptible"%string else
  if c_noff x <? 1 then inl "pop_off"%string else
  let x := x <| c_noff := c_noff x - 1 |> in
  inr (if (c_noff x =? 0) && c_intena x then x <| c_intr := true |> else x).

(** ** Steps of a CPU *)

Inductive action :=
| Call_acquire (l : lock) | Call_release (l : lock) | Call_push_off | Call_pop_off
| Intr_on | Intr_off   (* the client, e.g. the scheduler and the trap code *)
| Trap | Trap_return   (* an interrupt, and the return of its handler *)
| Run.                 (* the routine the CPU is in goes on *)

#[export] Instance action_eq_dec : EqDecision action.
Proof. solve_decision. Defined.

Inductive result := Next (m : machine) | Panics (msg : string) | Undefined | Disabled.

Definition put_cpu (c : nat) (x : cpu) (m : machine) : machine := m <| cpus ::= <[c := x]> |>.
Definition put_lock (l : lock) (k : spinlock) (m : machine) : machine := m <| locks ::= <[l := k]> |>.
Definition goto (c : nat) (p : place) (m : machine) : machine :=
  put_cpu c (cpus m c <| c_place := p |>) m.

(** [old = intr_get()] was read; the rest of [push_off], then on to [p]. *)
Definition do_push (c : nat) (old : bool) (p : place) (raw : nat) (m : machine) : result :=
  match push_off_rest old (cpus m c) with
  | None => Undefined
  | Some x => Next (put_cpu c (x <| c_place := p |> <| c_raw ::= Nat.add raw |>) m)
  end.

Definition do_pop (c : nat) (raw : nat) (m : machine) : result :=
  match pop_off (cpus m c) with
  | inl msg => Panics msg
  | inr x => Next (put_cpu c (x <| c_place := Client |> <| c_raw := (c_raw x - raw)%nat |>) m)
  end.

(** The code of [acquire], one access at a time. *)
Definition acquire_step (c : nat) (p : place) (m : machine) : result :=
  match p with
  | Acq_off l old => do_push c old (Acq_locked l) 0 m
  | Acq_locked l =>
      Next (goto c (if locked (locks m l) =? 0 then Acq_swap l else Acq_cpu l) m)
  | Acq_cpu l =>
      if decide (lk_cpu (locks m l) = Some c) then Panics "acquire"
      else Next (goto c (Acq_swap l) m)
  | Acq_swap l =>
      let m' := put_lock l (locks m l <| locked := 1 |>) m in
      if locked (locks m l) =? 0 then
        Next (put_cpu c (cpus m c <| c_place := Acq_set l |> <| c_own ::= cons l |>) m')
      else Next m'
  | Acq_set l =>
      Next (goto c Client (put_lock l (locks m l <| lk_cpu := Some c |>) m))
  | _ => Disabled
  end.

(** The code of [release]. *)
Definition release_step (c : nat) (p : place) (m : machine) : result :=
  match p with
  | Rel_locked l =>
      if locked (locks m l) =? 0 then Panics "release" else Next (goto c (Rel_cpu l) m)
  | Rel_cpu l =>
      if decide (lk_cpu (locks m l) = Some c) then Next (goto c (Rel_clear l) m)
      else Panics "release"
  | Rel_clear l =>
      Next (goto c (Rel_unlock l) (put_lock l (locks m l <| lk_cpu := None |>) m))
  | Rel_unlock l =>
      Next (put_cpu c (cpus m c <| c_place := Rel_pop l |> <| c_own ::= filter (fun k => k <> l) |>)
        (put_lock l (locks m l <| locked := 0 |>) m))
  | Rel_pop l => do_pop c 0 m
  | _ => Disabled
  end.

Definition run (c : nat) (m : machine) : result :=
  match c_place (cpus m c) with
  | Client => Disabled
  | Push_off old => do_push c old Client 1 m
  | (Acq_off _ _ | Acq_locked _ | Acq_cpu _ | Acq_swap _ | Acq_set _) as p => acquire_step c p m
  | p => release_step c p m
  end.

(** What a CPU may do next.  The client may call any routine at any time, with three rules the
    kernel follows: it matches its own [push_off]s, it enables interrupts only when it has not
    disabled them through [push_off], and a handler gives back what it took. *)
Definition step (c : nat) (a : action) (m : machine) : result :=
  let x := cpus m c in
  match a, c_place x with
  | Run, _ => run c m
  | Trap, p =>
      if c_intr x then
        Next (put_cpu c (x <| c_intr := false |> <| c_stack := p :: c_stack x |> <| c_place := Client |>) m)
      else Disabled
  | Trap_return, Client =>
      match c_stack x with
      | p :: st =>
          if c_noff x =? 0 then
            Next (put_cpu c (x <| c_intr := true |> <| c_stack := st |> <| c_place := p |>) m)
          else Disabled
      | [] => Disabled
      end
  | Call_acquire l, Client => Next (goto c (Acq_off l (c_intr x)) m)
  | Call_release l, Client => Next (goto c (Rel_locked l) m)
  | Call_push_off, Client => Next (goto c (Push_off (c_intr x)) m)
  | Call_pop_off, Client => match c_raw x with O => Disabled | S _ => do_pop c 1 m end
  | Intr_on, Client =>
      if c_noff x =? 0 then Next (put_cpu c (x <| c_intr := true |>) m) else Disabled
  | Intr_off, Client => Next (put_cpu c (x <| c_intr := false |>) m)
  | _, _ => Disabled
  end.

(** The machine once [initlock] has run on every lock; CPU [c] has interrupts as [intr c]. *)
Definition boot (intr : nat -> bool) : machine :=
  Machine (fun c => Cpu 0 false (intr c) Client [] [] 0) (fun _ => init_spinlock).

Inductive reachable : machine -> Prop :=
| reach_boot intr : reachable (boot intr)
| reach_step m c a m' : reachable m -> step c a m = Next m' -> reachable m'.

(** A run of a given schedule, for concrete executions. *)
Fixpoint exec_schedule (sched : list (nat * action)) (m : machine) : result :=
  match sched with
  | [] => Next m
  | (c, a) :: sched' => match step c a m with Next m' => exec_schedule sched' m' | r => r end
  end.

Lemma exec_schedule_reachable sched m m' : reachable m -> exec_schedule sched m = Next m' -> reachable m'.
Proof.
  revert m. induction sched as [|[c a] sched IH]; cbn; intros m Hm H; [by simplify_eq|].
  destruct (step c a m) eqn:E; try discriminate. eauto using reachable.
Qed.

(** ** The invariant *)

(** The routine has disabled interrupts for a lock that is not yet, or no longer, owned. *)
Definition extra (p : place) : nat :=
  match p with Acq_locked _ | Acq_cpu _ | Acq_swap _ | Rel_pop _ => 1 | _ => 0 end.

(** The lock is owned while [lk->cpu] is not set. *)
Definition mid (p : place) (l : lock) : bool :=
  match p with Acq_set k | Rel_unlock k => bool_decide (k = l) | _ => false end.

(** What a place says about ownership. *)
Definition place_ok (p : place) (own : list lock) : Prop :=
  match p with
  | Acq_set l | Rel_clear l | Rel_unlock l => l ∈ own
  | Acq_swap l => l ∉ own
  | _ => True
  end.

(** The places at which interrupts may be enabled. *)
Definition calm (p : place) : Prop :=
  match p with Client | Acq_off _ _ | Rel_locked _ | Rel_cpu _ | Push_off _ => True | _ => False end.

Record cpu_ok (x : cpu) : Prop := {
  ok_noff : c_noff x = Z.of_nat (length (c_own x) + c_raw x + extra (c_place x));
  ok_intr : c_intr x = true -> c_noff x = 0;
  ok_own : NoDup (c_own x);
  ok_place : place_ok (c_place x) (c_own x);
  ok_stack : Forall calm (c_stack x) }.

Definition owner_is (m : machine) (l : lock) (o : option nat) : Prop :=
  forall c, l ∈ c_own (cpus m c) <-> o = Some c.

Record lock_ok (m : machine) (l : lock) (o : option nat) : Prop := {
  lk_owner : owner_is m l o;
  lk_locked : locked (locks m l) = match o with Some _ => 1 | None => 0 end;
  lk_field : lk_cpu (locks m l) =
    match o with
    | Some c => if mid (c_place (cpus m c)) l then None else Some c
    | None => None
    end }.

Record inv (m : machine) : Prop := {
  inv_cpu : forall c, cpu_ok (cpus m c);
  inv_lock : forall l, exists o, lock_ok m l o }.

(** With interrupts enabled a CPU owns nothing and is at a place where an interrupt may come. *)
Lemma cpu_ok_calm x : cpu_ok x -> c_intr x = true ->
  c_own x = [] /\ c_raw x = O /\ calm (c_place x).
Proof.
  intros [Hn Hi _ Hp _] H. specialize (Hi H). rewrite Hi in Hn.
  assert (c_own x = [] /\ c_raw x = O /\ extra (c_place x) = O) as (Ho & Hr & He).
  { destruct (c_own x); cbn [length] in Hn; repeat split; lia. }
  split_and!; [done..|]. rewrite Ho in Hp.
  destruct (c_place x); cbn in *; try done; by apply not_elem_of_nil in Hp.
Qed.

Lemma calm_facts p own : calm p -> extra p = O /\ place_ok p own /\ (forall l, mid p l = false).
Proof. by destruct p. Qed.

Lemma filter_ne_all (own : list lock) l : l ∉ own -> filter (fun k => k <> l) own = own.
Proof.
  induction own as [|k own IH]; intros Hl; [done|].
  rewrite filter_cons_True, IH by set_solver. done.
Qed.

Lemma filter_ne_length (own : list lock) l :
  NoDup own -> l ∈ own -> S (length (filter (fun k => k <> l) own)) = length own.
Proof.
  induction 1 as [|k own Hk Hnd IH]; intros Hl; [by apply not_elem_of_nil in Hl|].
  destruct (decide (k = l)) as [->|Hne].
  - rewrite filter_cons_False by tauto. by rewrite filter_ne_all.
  - rewrite filter_cons_True by done. cbn. f_equal. apply IH. set_solver.
Qed.

Lemma cpus_put c x m c' : cpus (put_cpu c x m) c' = if decide (c' = c) then x else cpus m c'.
Proof.
  cbn. case_decide; subst; [by rewrite fn_lookup_insert|by rewrite fn_lookup_insert_ne].
Qed.
Lemma locks_put l k m l' : locks (put_lock l k m) l' = if decide (l' = l) then k else locks m l'.
Proof.
  cbn. case_decide; subst; [by rewrite fn_lookup_insert|by rewrite fn_lookup_insert_ne].
Qed.

(** A step that changes only the CPU that takes it, and neither what it owns nor whether it
    is between taking a lock and recording it. *)
Lemma inv_put_cpu m c x :
  inv m -> cpu_ok x -> c_own x = c_own (cpus m c) ->
  (forall l, mid (c_place x) l = mid (c_place (cpus m c)) l) -> inv (put_cpu c x m).
Proof.
  intros [Hc Hl] Hx Ho Hm. split.
  - intros c'. rewrite cpus_put. by case_decide.
  - intros l. destruct (Hl l) as [o [H1 H2 H3]]. exists o. split; [|done|].
    + intros c'. rewrite cpus_put. case_decide; subst; [rewrite Ho|]; apply H1.
    + change (locks (put_cpu c x m) l) with (locks m l). rewrite H3. destruct o as [c'|]; [|done].
      rewrite cpus_put. case_decide; subst; [by rewrite Hm|done].
Qed.

(** A step that also writes the fields of a lock [l]: it says who owns it afterwards; the other
    locks are owned as before. *)
Lemma inv_put_both m c x l k o :
  inv m -> cpu_ok x ->
  (forall l', l' <> l -> (l' ∈ c_own x <-> l' ∈ c_own (cpus m c)) /\ mid (c_place x) l' = mid (c_place (cpus m c)) l') ->
  lock_ok (put_cpu c x (put_lock l k m)) l o ->
  inv (put_cpu c x (put_lock l k m)).
Proof.
  intros [Hc Hl] Hx Hoth Hlk. split.
  - intros c'. rewrite cpus_put. case_decide; [done|apply Hc].
  - intros l'. destruct (decide (l' = l)) as [->|Hne]; [eauto|].
    destruct (Hl l') as [o' [H1 H2 H3]]. destruct (Hoth l' Hne) as [Ho Hm]. exists o'. split.
    + intros c'. rewrite cpus_put. case_decide; subst; [rewrite Ho|]; apply H1.
    + change (locks (put_cpu c x (put_lock l k m)) l') with (locks (put_lock l k m) l'). by rewrite locks_put, decide_False.
    + change (locks (put_cpu c x (put_lock l k m)) l') with (locks (put_lock l k m) l').
      rewrite locks_put, decide_False, H3 by done. destruct o' as [c'|]; [|done].
      rewrite cpus_put. case_decide; subst; [by rewrite Hm|done].
Qed.

(** [push_off] and [pop_off] on one CPU. *)
Lemma push_off_rest_inv old x x' : push_off_rest old x = Some x' ->
  exists ie, x' = Cpu (c_noff x + 1) ie false (c_place x) (c_stack x) (c_own x) (c_raw x).
Proof.
  unfold push_off_rest. intros H. cbn in H.
  destruct (c_noff x =? 0); repeat case_match; simplify_eq; eexists; reflexivity.
Qed.

Lemma pop_off_inv x x' : pop_off x = inr x' ->
  1 <= c_noff x /\ exists i, x' = Cpu (c_noff x - 1) (c_intena x) i (c_place x) (c_stack x) (c_own x) (c_raw x) /\
    (i = true -> c_noff x - 1 = 0).
Proof.
  unfold pop_off. intros H. cbn in H. destruct (c_intr x) eqn:Ei; [done|].
  destruct (c_noff x <? 1) eqn:E1; [done|]. apply Z.ltb_ge in E1. split; [lia|].
  destruct ((c_noff x - 1 =? 0) && c_intena x) eqn:E2; simplify_eq; (eexists; split; [reflexivity|]).
  - apply andb_true_iff in E2 as [? _]. lia.
  - cbn. congruence.
Qed.

Lemma do_push_inv m c old p raw m' :
  inv m -> do_push c old p raw m = Next m' ->
  (raw + extra p = 1)%nat -> calm (c_place (cpus m c)) -> place_ok p (c_own (cpus m c)) ->
  (forall l, mid p l = false) -> inv m'.
Proof.
  intros Hi H Hp Hcalm Hok Hmid. unfold do_push in H.
  destruct (push_off_rest old (cpus m c)) as [x|] eqn:E; [|done]. simplify_eq.
  apply push_off_rest_inv in E as [ie ->].
  destruct (inv_cpu m Hi c) as [Hn Hin Hown Hpl Hst]. destruct (calm_facts _ (c_own (cpus m c)) Hcalm) as (He & _ & Hm).
  apply inv_put_cpu; [done| |done|cbn; by intros; rewrite Hm].
  split; cbn; [lia|done..].
Qed.

Lemma do_pop_inv m c raw m' :
  inv m -> do_pop c raw m = Next m' -> (raw <= c_raw (cpus m c))%nat ->
  (raw + extra (c_place (cpus m c)) = 1)%nat -> (forall l, mid (c_place (cpus m c)) l = false) -> inv m'.
Proof.
  intros Hi H Hr Hp Hmid. unfold do_pop in H. destruct (pop_off (cpus m c)) as [|x] eqn:E; [done|]. simplify_eq.
  apply pop_off_inv in E as (H1 & i & -> & Hin). destruct (inv_cpu m Hi c) as [Hn _ Hown Hpl Hst].
  apply inv_put_cpu; [done| |done|cbn; by intros; rewrite Hmid].
  split; cbn; [lia|done..].
Qed.

(** A lock this CPU owns: what the lock's fields are. *)
Lemma owned_fields m l c :
  inv m -> l ∈ c_own (cpus m c) ->
  locked (locks m l) = 1 /\ lk_cpu (locks m l) = (if mid (c_place (cpus m c)) l then None else Some c) /\
  forall c', l ∈ c_own (cpus m c') -> c' = c.
Proof.
  intros Hi Hl. destruct (inv_lock m Hi l) as [o [H1 H2 H3]].
  assert (o = Some c) as -> by by apply H1. split_and!; [done..|].
  intros c' Hc'. apply H1 in Hc'. congruence.
Qed.

Lemma free_fields m l :
  inv m -> locked (locks m l) = 0 -> lk_cpu (locks m l) = None /\ forall c, l ∉ c_own (cpus m c).
Proof.
  intros Hi H0. destruct (inv_lock m Hi l) as [[c|] [H1 H2 H3]]; [lia|]. split; [done|].
  intros c Hc. apply H1 in Hc. done.
Qed.

Lemma cpu_field_owned m l c : inv m -> lk_cpu (locks m l) = Some c -> l ∈ c_own (cpus m c).
Proof.
  intros Hi H. destruct (inv_lock m Hi l) as [o [H1 H2 H3]]. apply H1.
  rewrite H in H3. destruct o as [c'|]; [|done]. destruct (mid _ l); congruence.
Qed.

Lemma mid_true p l : mid p l = true <-> p = Acq_set l \/ p = Rel_unlock l.
Proof. destruct p; cbn; rewrite ?bool_decide_eq_true; split; try tauto; intros H; intuition congruence. Qed.

(** Going from one place of a routine to the next. *)
Lemma goto_inv m c p :
  inv m -> extra p = extra (c_place (cpus m c)) -> place_ok p (c_own (cpus m c)) ->
  (forall l, mid p l = mid (c_place (cpus m c)) l) -> inv (goto c p m).
Proof.
  intros Hi He Hp Hm. destruct (inv_cpu m Hi c) as [Hn Hin Hown Hpl Hst].
  apply inv_put_cpu; [done| |done|done]. split; cbn; try done. by rewrite He.
Qed.

(** The swap that takes the lock. *)
Lemma swap_inv m c l :
  inv m -> c_place (cpus m c) = Acq_swap l -> locked (locks m l) = 0 ->
  inv (put_cpu c (cpus m c <| c_place := Acq_set l |> <| c_own ::= cons l |>)
        (put_lock l (locks m l <| locked := 1 |>) m)).
Proof.
  intros Hi Hp H0. destruct (free_fields m l Hi H0) as [Hf Hno].
  destruct (inv_cpu m Hi c) as [Hn Hin Hown Hpl Hst]. rewrite Hp in Hn. cbn in Hn.
  apply (inv_put_both _ _ _ _ _ (Some c)); [done| | |].
  - split; cbn; [lia| |by constructor|by left|done]. intros Ht. specialize (Hin Ht). lia.
  - intros l' Hne. cbn. rewrite Hp. rewrite bool_decide_eq_false_2 by congruence. set_solver.
  - split; cbn [locks put_cpu put_lock upd].
    + intros c'. rewrite cpus_put. case_decide as Hc; subst; cbn; [split; [done|by left]|].
      split; [intros Hx; by apply Hno in Hx|congruence].
    + by rewrite fn_lookup_insert.
    + rewrite fn_lookup_insert, cpus_put, decide_True by done. cbn. by rewrite bool_decide_eq_true_2.
Qed.

(** Recording and clearing the owner. *)
Lemma set_cpu_inv m c l p v :
  inv m -> l ∈ c_own (cpus m c) -> extra p = extra (c_place (cpus m c)) -> place_ok p (c_own (cpus m c)) ->
  (forall l', l' <> l -> mid p l' = mid (c_place (cpus m c)) l') ->
  v = (if mid p l then None else Some c) ->
  inv (goto c p (put_lock l (locks m l <| lk_cpu := v |>) m)).
Proof.
  intros Hi Hl He Hp Hm Hv. destruct (owned_fields m l c Hi Hl) as (H1 & _ & Huniq).
  destruct (inv_cpu m Hi c) as [Hn Hin Hown Hpl Hst].
  apply (inv_put_both _ _ _ _ _ (Some c)); [done| |by intros; cbn; rewrite Hm|].
  - split; cbn; try done. by rewrite He.
  - split; cbn [locks put_cpu put_lock upd].
    + intros c'. rewrite cpus_put. case_decide as Hc; subst; cbn; [done|].
      split; [intros Hx; apply Huniq in Hx; congruence|congruence].
    + by rewrite fn_lookup_insert.
    + rewrite fn_lookup_insert, cpus_put, decide_True by done. done.
Qed.

Lemma unlock_inv m c l :
  inv m -> c_place (cpus m c) = Rel_unlock l ->
  inv (put_cpu c (cpus m c <| c_place := Rel_pop l |> <| c_own ::= filter (fun k => k <> l) |>)
        (put_lock l (locks m l <| locked := 0 |>) m)).
Proof.
  intros Hi Hp. destruct (inv_cpu m Hi c) as [Hn Hin Hown Hpl Hst]. rewrite Hp in Hn, Hpl. cbn in Hn, Hpl.
  destruct (owned_fields m l c Hi Hpl) as (H1 & H2 & Huniq). rewrite Hp in H2.
  pose proof (filter_ne_length _ l Hown Hpl) as Hlen.
  apply (inv_put_both _ _ _ _ _ None); [done| | |].
  - split; cbn; [lia| |by apply NoDup_filter|done|done]. intros Ht. specialize (Hin Ht). lia.
  - intros l' Hne. cbn. rewrite Hp. cbn. rewrite bool_decide_eq_false_2 by congruence. split; [|done]. rewrite list_elem_of_filter. naive_solver.
  - split; cbn [locks put_cpu put_lock upd].
    + intros c'. rewrite cpus_put. split; [|done]. case_decide as Hc; subst; cbn; [rewrite list_elem_of_filter; naive_solver|].
      intros Hx. apply Huniq in Hx. congruence.
    + by rewrite fn_lookup_insert.
    + rewrite fn_lookup_insert. cbn. rewrite H2. cbn. by rewrite bool_decide_eq_true_2.
Qed.

Lemma inv_ext m m' : inv m -> (forall c, cpus m' c = cpus m c) -> (forall l, locks m' l = locks m l) -> inv m'.
Proof.
  intros [Hc Hl] E1 E2. split; [by intros; rewrite E1|]. intros l. destruct (Hl l) as [o [H1 H2 H3]].
  exists o. split; rewrite ?E2; [|done|].
  - intros c. rewrite E1. apply H1.
  - rewrite H3. destruct o; [by rewrite E1|done].
Qed.

Lemma run_inv m c m' : inv m -> run c m = Next m' -> inv m'.
Proof.
  intros Hi H. unfold run, acquire_step, release_step in H. pose proof (ok_place _ (inv_cpu m Hi c)) as Hpl.
  destruct (c_place (cpus m c)) as [|l old|l|l|l|l|l|l|l|l|l|old] eqn:Hp; cbn in Hpl; [done|..].
  - eapply do_push_inv; rewrite ?Hp; try done.
  - injection H as <-. destruct (locked (locks m l) =? 0) eqn:E; apply goto_inv; rewrite ?Hp; try done.
    by apply (free_fields m l Hi), Z.eqb_eq.
  - case_decide as Hc; [done|]. injection H as <-. apply goto_inv; rewrite ?Hp; try done. cbn. intros Hl.
    destruct (owned_fields m l c Hi Hl) as (_ & Hf & _). by rewrite Hp in Hf.
  - destruct (locked (locks m l) =? 0) eqn:E; injection H as <-; [by apply swap_inv; [..|apply Z.eqb_eq]|].
    destruct (inv_lock m Hi l) as [[c'|] [H1 H2 H3]]; [|by rewrite H2 in E].
    apply (inv_ext m); [done|done|]. intros l'. rewrite locks_put. case_decide; subst; [|done].
    destruct (locks m l); cbn in *; by subst.
  - injection H as <-. apply set_cpu_inv; rewrite ?Hp; try done. intros l' Hne. cbn.
    by rewrite bool_decide_eq_false_2.
  - destruct (locked (locks m l) =? 0); [done|]. injection H as <-. apply goto_inv; by rewrite ?Hp.
  - case_decide as Hc; [|done]. injection H as <-. apply goto_inv; rewrite ?Hp; try done.
    by apply cpu_field_owned.
  - injection H as <-. apply set_cpu_inv; rewrite ?Hp; try done.
    + intros l' Hne. cbn. by rewrite bool_decide_eq_false_2.
    + cbn. by rewrite bool_decide_eq_true_2.
  - injection H as <-. by apply unlock_inv.
  - eapply do_pop_inv; rewrite ?Hp; try done. lia.
  - eapply do_push_inv; rewrite ?Hp; try done.
Qed.

Lemma step_inv m c a m' : inv m -> step c a m = Next m' -> inv m'.
Proof.
  intros Hi H. pose proof (inv_cpu m Hi c) as Hok. pose proof Hok as [Hn Hin Hown Hpl Hst].
  destruct (decide (a = Run)) as [->|]; [by eapply run_inv|]. unfold step in H.
  destruct (decide (a = Trap)) as [->|].
  { destruct (c_intr (cpus m c)) eqn:Ei; [|done]. injection H as <-.
    destruct (cpu_ok_calm _ Hok Ei) as (Ho & Hr & Hcalm).
    apply inv_put_cpu; [done| |done|cbn; by intros; rewrite (proj2 (proj2 (calm_facts _ [] Hcalm)))].
    split; cbn; [|done..|by constructor]. rewrite Ho, Hr. cbn. by apply Hin. }
  destruct a as [l|l| | | | | | |]; try done; destruct (c_place (cpus m c)) eqn:Hp; try done.
  - injection H as <-. apply goto_inv; by rewrite ?Hp.
  - injection H as <-. apply goto_inv; by rewrite ?Hp.
  - injection H as <-. apply goto_inv; by rewrite ?Hp.
  - destruct (c_raw (cpus m c)) eqn:Er; [done|]. eapply do_pop_inv; rewrite ?Hp; try done. lia.
  - destruct (c_noff (cpus m c) =? 0) eqn:E; [|done]. injection H as <-. apply Z.eqb_eq in E.
    apply inv_put_cpu; [done| |done|done]. split; cbn; rewrite ?Hp; try done.
  - injection H as <-. apply inv_put_cpu; [done| |done|done]. split; cbn; rewrite ?Hp; try done.
  - destruct (c_stack (cpus m c)) as [|p st] eqn:Es; [done|].
    destruct (c_noff (cpus m c) =? 0) eqn:E; [|done]. injection H as <-. apply Z.eqb_eq in E.
    apply Forall_cons in Hst as [Hcalm Hst]. destruct (calm_facts _ (c_own (cpus m c)) Hcalm) as (He & Hpok & Hm).
    apply inv_put_cpu; [done| |done|cbn; intros; by rewrite Hm, Hp]. split; cbn; try done. by rewrite He.
Qed.

Lemma reachable_inv m : reachable m -> inv m.
Proof.
  induction 1 as [intr|m c a m' Hr IH Hs]; [|by eapply step_inv].
  split; [intros c|intros l; exists None]; split; cbn; try done; [constructor|]. intros c. set_solver.
Qed.

(** The places from which a CPU panics, and the fields it has read there. *)
Lemma panic_place m c a msg :
  inv m -> step c a m = Panics msg ->
  (msg = "acquire"%string /\ exists l, c_place (cpus m c) = Acq_cpu l /\ lk_cpu (locks m l) = Some c) \/
  (msg = "release"%string /\ exists l,
     (c_place (cpus m c) = Rel_locked l /\ locked (locks m l) = 0) \/
     (c_place (cpus m c) = Rel_cpu l /\ lk_cpu (locks m l) <> Some c)).
Proof.
  intros Hi H. destruct (inv_cpu m Hi c) as [Hn Hin _ _ _].
  assert (forall raw, do_pop c raw m <> Panics msg \/ c_noff (cpus m c) <= 0) as Hpop.
  { intros raw. destruct (decide (c_noff (cpus m c) <= 0)) as [|H0]; [by right|left].
    unfold do_pop, pop_off. destruct (c_intr (cpus m c)); [specialize (Hin eq_refl); lia|].
    by rewrite (proj2 (Z.ltb_ge _ _)) by lia. }
  assert (forall old p raw, do_push c old p raw m <> Panics msg) as Hpush.
  { intros. unfold do_push. by destruct (push_off_rest _ _). }
  destruct a as [k|k| | | | | | |]; cbn [step] in H; unfold run, acquire_step, release_step in H; destruct (c_place (cpus m c)) as [|l old|l|l|l|l|l|l|l|l|l|old] eqn:Hp;
    cbn [extra] in Hn; try done; try (by apply Hpush in H).
  all: try (repeat case_match; done).
  - destruct (c_raw (cpus m c)) eqn:Er; [done|]. destruct (Hpop 1%nat); [done|lia].
  - case_decide; [|done]. left. injection H as <-. eauto.
  - case_match eqn:E; [|done]. right. injection H as <-. apply Z.eqb_eq in E. eauto 6.
  - case_decide; [done|]. right. injection H as <-. eauto 6.
  - destruct (Hpop 0%nat); [done|lia].
Qed.

(** ** Theorems *)

(** C6: in every state that any number of CPUs can reach, with any interleaving of their steps and
    interrupts, no two CPUs own the same lock, and a CPU that owns a lock has its interrupts
    off, so that no handler can run on it. *)
Theorem mutual_exclusion m c1 c2 l :
  reachable m -> l ∈ c_own (cpus m c1) ->
  (l ∈ c_own (cpus m c2) -> c1 = c2) /\ c_intr (cpus m c1) = false /\ step c1 Trap m = Disabled.
Proof.
  intros Hr Hl. pose proof (reachable_inv m Hr) as Hi.
  destruct (owned_fields m l c1 Hi Hl) as (_ & _ & Hu).
  assert (c_intr (cpus m c1) = false) as Hoff.
  { destruct (c_intr (cpus m c1)) eqn:E; [|done].
    destruct (cpu_ok_calm _ (inv_cpu m Hi c1) E) as (Ho & _). rewrite Ho in Hl. by apply not_elem_of_nil in Hl. }
  split_and!; [by intros ?%Hu|done|]. cbn. by rewrite Hoff.
Qed.

(** Two CPUs race for the page allocator's lock; CPU 0 wins and CPU 1 spins. *)
Definition race : list (nat * action) :=
  [(0, Call_acquire L_kmem); (1, Call_acquire L_kmem); (0, Run); (1, Run); (1, Run); (0, Run);
   (0, Run); (1, Run); (0, Run); (1, Run)]%nat.
Definition raced : machine :=
  match exec_schedule race (boot (fun _ => true)) with Next m => m | _ => boot (fun _ => true) end.

Lemma raced_reachable : reachable raced.
Proof. apply (exec_schedule_reachable race (boot (fun _ => true))); [constructor|]. vm_compute. reflexivity. Qed.

Lemma mutual_exclusion_witness :
  L_kmem ∈ c_own (cpus raced 0%nat) /\ c_place (cpus raced 1%nat) = Acq_swap L_kmem /\
  c_intr (cpus raced 0%nat) = false.
Proof.
  assert (L_kmem ∈ c_own (cpus raced 0%nat)) as H by (vm_compute; left).
  split; [exact H|split; [reflexivity|]].
  exact (proj1 (proj2 (mutual_exclusion raced 0 1 L_kmem raced_reachable H))).
Defined.

(** C24: [holding] answers by ownership on every interleaving, although it reads the two fields of
    the lock separately and without protection.  [acquire] panics only on a lock its CPU owns and
    never spins on one; [release] panics only on a lock its CPU does not own and otherwise goes on
    to unlock one it owns; the two panics of [pop_off] cannot happen. *)
Theorem holding_exact m c :
  reachable m ->
  (forall a msg, step c a m = Panics msg ->
     (msg = "acquire"%string /\ exists l, c_place (cpus m c) = Acq_cpu l /\ l ∈ c_own (cpus m c)) \/
     (msg = "release"%string /\ exists l, c_place (cpus m c) ∈ [Rel_locked l; Rel_cpu l] /\
        l ∉ c_own (cpus m c))) /\
  (forall l, c_place (cpus m c) = Acq_swap l -> l ∉ c_own (cpus m c)) /\
  (forall l, c_place (cpus m c) ∈ [Rel_clear l; Rel_unlock l] -> l ∈ c_own (cpus m c)).
Proof.
  intros Hr. pose proof (reachable_inv m Hr) as Hi. pose proof (ok_place _ (inv_cpu m Hi c)) as Hpl.
  split_and!.
  - intros a msg H. destruct (panic_place m c a msg Hi H) as [(-> & l & Hp & Hf)|(-> & l & Hf)].
    + left. split; [done|]. exists l. split; [done|]. by apply cpu_field_owned.
    + right. split; [done|]. exists l. destruct Hf as [[Hp Hf]|[Hp Hf]]; rewrite Hp.
      * split; [by left|]. by apply (free_fields m l Hi).
      * split; [right; by left|]. intros Hl. destruct (owned_fields m l c Hi Hl) as (_ & Hcpu & _).
        by rewrite Hp in Hcpu.
  - intros l Hp. by rewrite Hp in Hpl.
  - intros l [Hp|[Hp|[]%not_elem_of_nil]%elem_of_cons]%elem_of_cons; by rewrite Hp in Hpl.
Qed.

Lemma holding_exact_witness :
  c_place (cpus raced 1%nat) = Acq_swap L_kmem /\ L_kmem ∉ c_own (cpus raced 1%nat).
Proof.
  split; [reflexivity|].
  exact (proj1 (proj2 (holding_exact raced 1 raced_reachable)) L_kmem eq_refl).
Defined.

(** Well-nested sequences of calls: [true] is [push_off], [false] is [pop_off]. *)
Inductive nested : list bool -> Prop :=
| nested_nil : nested []
| nested_wrap w v : nested w -> nested v -> nested (true :: w ++ false :: v).

Fixpoint run_calls (w : list bool) (x : cpu) : option cpu :=
  match w with
  | [] => Some x
  | true :: w' => match push_off x with Some x' => run_calls w' x' | None => None end
  | false :: w' => match pop_off x with inr x' => run_calls w' x' | inl _ => None end
  end.

Lemma run_calls_app w v x :
  run_calls (w ++ v) x = match run_calls w x with Some x' => run_calls v x' | None => None end.
Proof.
  revert x. induction w as [|[] w IH]; intros x; cbn; [done|destruct (push_off x)|destruct (pop_off x)]; by rewrite ?IH.
Qed.

(** [push_off] and [pop_off] are matched: any well-nested sequence of them returns without a
    panic and leaves the nesting count and the interrupt state of the CPU as they were, and
    inside another [push_off] also what the outermost one has saved. *)
Theorem push_pop_matched w x :
  nested w -> 0 <= c_noff x -> c_noff x + Z.of_nat (length w) < 2 ^ 31 ->
  (c_intr x = true -> c_noff x = 0) ->
  exists x', run_calls w x = Some x' /\ c_noff x' = c_noff x /\ c_intr x' = c_intr x /\
    (0 < c_noff x -> c_intena x' = c_intena x).
Proof.
  intros Hw. revert x. induction Hw as [|w v Hw IHw Hv IHv]; intros x H0 Hlen Hin; [by exists x|].
  cbn [length] in Hlen. rewrite length_app in Hlen. cbn [length] in Hlen.
  assert (exists x1, push_off x = Some x1 /\ c_noff x1 = c_noff x + 1 /\ c_intr x1 = false /\
    c_intena x1 = (if c_noff x =? 0 then c_intr x else c_intena x)) as (x1 & E1 & Hn1 & Hi1 & He1).
  { unfold push_off, push_off_rest. cbn.
    destruct (c_noff x =? 0); cbn; rewrite (proj2 (Z.eqb_neq _ _)) by lia; eexists; split_and!; reflexivity. }
  destruct (IHw x1) as (x2 & E2 & Hn2 & Hi2 & He2); [lia..|congruence|].
  assert (exists x3, pop_off x2 = inr x3 /\ c_noff x3 = c_noff x /\ c_intena x3 = c_intena x2 /\
    c_intr x3 = (c_noff x =? 0) && c_intena x2) as (x3 & E3 & Hn3 & He3 & Hi3).
  { unfold pop_off. rewrite Hi2, Hi1, (proj2 (Z.ltb_ge _ _)) by lia. cbn.
    replace (c_noff x2 - 1) with (c_noff x) by lia.
    destruct ((c_noff x =? 0) && c_intena x2) eqn:E; rewrite ?E; eexists; split_and!; try reflexivity; cbn; congruence. }
  rewrite He2, He1 in Hi3 by lia.
  assert (c_intr x3 = c_intr x) as Hi3'.
  { rewrite Hi3. destruct (c_noff x =? 0) eqn:E; [done|]. destruct (c_intr x); [|done].
    apply Z.eqb_neq in E. by rewrite Hin in E. }
  destruct (IHv x3) as (x4 & E4 & Hn4 & Hi4 & He4); [lia..|rewrite Hi3', Hn3; done|].
  exists x4. cbn. rewrite E1, run_calls_app, E2. cbn. rewrite E3. split_and!; [done|lia|congruence|].
  intros Hpos. rewrite He4, He3, He2, He1, (proj2 (Z.eqb_neq _ _)) by lia. done.
Qed.

Lemma push_pop_matched_witness :
  let x := Cpu 0 false true Client [] [] 0 in
  nested [true; true; false; false] /\
  exists x', run_calls [true; true; false; false] x = Some x' /\ c_noff x' = 0 /\ c_intr x' = true /\
    (0 < c_noff x -> c_intena x' = c_intena x).
Proof.
  intros x. assert (nested [true; true; false; false]) as H.
  { apply (nested_wrap [true; false] []); [apply (nested_wrap [] [])|]; constructor. }
  split; [exact H|]. apply (push_pop_matched [true; true; false; false] x H); cbn; [lia|lia|reflexivity].
Defined.
