(* ===== verification/Riscv.v ===== *)
(** * Facts about the paging macros of kernel/riscv.h *)

From stdpp Require Import base numbers list gmap.
From S2P Require Import Prelude Mem Types.

Lemma lnot_page_mask : Z.lnot (PGSIZE - 1) = Z.lnot (Z.ones 12).
Proof. reflexivity. Qed.

Lemma PGROUNDDOWN_mod a : PGROUNDDOWN a = a - a mod PGSIZE.
Proof.
  unfold PGROUNDDOWN. rewrite lnot_page_mask, <- Z.ldiff_land, Z.ldiff_ones_r by lia.
  rewrite Z.shiftl_mul_pow2, Z.shiftr_div_pow2 by lia. unfold PGSIZE.
  pose proof (Z.div_mod a 4096). change (2 ^ 12) with 4096. lia.
Qed.

Lemma PGROUNDDOWN_div a : PGROUNDDOWN a = PGSIZE * (a / PGSIZE).
Proof.
  rewrite PGROUNDDOWN_mod. pose proof (Z.div_mod a PGSIZE). unfold PGSIZE in *. lia.
Qed.

Lemma PGROUNDDOWN_aligned a : PGROUNDDOWN a mod PGSIZE = 0.
Proof. rewrite PGROUNDDOWN_div, Z.mul_comm. apply Z.mod_mul. done. Qed.

Lemma PGROUNDDOWN_bounds a : PGROUNDDOWN a <= a < PGROUNDDOWN a + PGSIZE.
Proof.
  rewrite PGROUNDDOWN_mod. pose proof (Z.mod_pos_bound a PGSIZE). unfold PGSIZE in *. lia.
Qed.

Lemma PGROUNDDOWN_id a : a mod PGSIZE = 0 -> PGROUNDDOWN a = a.
Proof. intros H. rewrite PGROUNDDOWN_mod. lia. Qed.

Lemma PGROUNDUP_div sz :
  0 <= sz <= 2 ^ 64 - PGSIZE -> PGROUNDUP sz = PGSIZE * ((sz + PGSIZE - 1) / PGSIZE).
Proof.
  intros H. unfold PGROUNDUP. fold (PGROUNDDOWN (u64 (sz + PGSIZE - 1))).
  unfold PGSIZE in *. rewrite u64_small by lia. apply PGROUNDDOWN_div.
Qed.

Lemma PGROUNDUP_aligned sz : PGROUNDUP sz mod PGSIZE = 0.
Proof. apply PGROUNDDOWN_aligned. Qed.

Lemma PGROUNDUP_bounds sz :
  0 <= sz <= 2 ^ 64 - PGSIZE -> sz <= PGROUNDUP sz < sz + PGSIZE.
Proof.
  intros H. rewrite PGROUNDUP_div by done. unfold PGSIZE in *.
  pose proof (Z.div_mod (sz + 4096 - 1) 4096).
  pose proof (Z.mod_pos_bound (sz + 4096 - 1) 4096). lia.
Qed.

Lemma PGROUNDUP_id sz :
  0 <= sz <= 2 ^ 64 - PGSIZE -> sz mod PGSIZE = 0 -> PGROUNDUP sz = sz.
Proof.
  intros H Hm. pose proof (PGROUNDUP_bounds sz H). pose proof (PGROUNDUP_aligned sz).
  unfold PGSIZE in *.
  pose proof (Z.div_mod (PGROUNDUP sz) 4096). pose proof (Z.div_mod sz 4096). lia.
Qed.

Lemma mod_page_add a i : (a + PGSIZE * i) mod PGSIZE = a mod PGSIZE.
Proof. rewrite Z.mul_comm. by apply Z.mod_add. Qed.

Lemma aligned_eq_or_apart a b :
  a mod PGSIZE = 0 -> b mod PGSIZE = 0 -> a = b \/ a + PGSIZE <= b \/ b + PGSIZE <= a.
Proof.
  unfold PGSIZE. intros Ha Hb.
  pose proof (Z.div_mod a 4096). pose proof (Z.div_mod b 4096). lia.
Qed.

(** ** Page-table indices *)

Lemma PX_div level va :
  0 <= level -> PX level va = (va / 2 ^ (12 + 9 * level)) mod 512.
Proof.
  intros. unfold PX, PXMASK, PXSHIFT, PGSHIFT. rewrite Z.shiftr_div_pow2 by lia.
  change 511 with (Z.ones 9). rewrite Z.land_ones by lia. done.
Qed.

Lemma PX_range level va : 0 <= level -> 0 <= PX level va < 512.
Proof. intros. rewrite PX_div by done. apply Z.mod_pos_bound. lia. Qed.

(** The three indices determine a page-aligned virtual address below MAXVA. *)
Lemma PX_inj va va' :
  0 <= va < MAXVA -> 0 <= va' < MAXVA ->
  va mod PGSIZE = 0 -> va' mod PGSIZE = 0 ->
  PX 2 va = PX 2 va' -> PX 1 va = PX 1 va' -> PX 0 va = PX 0 va' -> va = va'.
Proof.
  intros Hv Hv' Ha Ha'. rewrite !PX_div by lia.
  change MAXVA with (2 ^ 38) in *. unfold PGSIZE in *.
  change (2 ^ (12 + 9 * 2)) with (4096 * 512 * 512).
  change (2 ^ (12 + 9 * 1)) with (4096 * 512).
  change (2 ^ (12 + 9 * 0)) with 4096.
  rewrite <- !Z.div_div by lia.
  pose proof (Z.div_mod va 4096). pose proof (Z.div_mod va' 4096).
  assert (0 <= va / 4096 < 2 ^ 26) by (split; [apply Z.div_pos|apply Z.div_lt_upper_bound]; lia).
  assert (0 <= va' / 4096 < 2 ^ 26) by (split; [apply Z.div_pos|apply Z.div_lt_upper_bound]; lia).
  intros E2 E1 E0. assert (va / 4096 = va' / 4096); [|lia].
  generalize dependent (va / 4096). generalize dependent (va' / 4096). clear.
  intros y _ Hy x _ Hx E2 E1 E0. Z.div_mod_to_equations. lia.
Qed.

(** ** Page-table entries *)

Lemma PA2PTE_eq pa : 0 <= pa < 2 ^ 56 -> PA2PTE pa = Z.shiftl (Z.shiftr pa 12) 10.
Proof.
  intros H. unfold PA2PTE. apply u64_small.
  rewrite Z.shiftl_mul_pow2, Z.shiftr_div_pow2 by lia.
  assert (0 <= pa / 2 ^ 12 < 2 ^ 44); [|lia].
  split; [apply Z.div_pos|apply Z.div_lt_upper_bound]; lia.
Qed.

Lemma shiftr_small a n : 0 <= a < 2 ^ n -> Z.shiftr a n = 0.
Proof.
  intros H. assert (0 <= n) by (destruct (Z.le_gt_cases 0 n); [done|];
    rewrite Z.pow_neg_r in H by lia; lia).
  rewrite Z.shiftr_div_pow2 by done. by apply Z.div_small.
Qed.

Definition leaf_pte (pa perm : Z) : Z := Z.lor (Z.lor (PA2PTE pa) perm) PTE_V.

Lemma PTE2PA_leaf pa perm :
  0 <= pa < 2 ^ 56 -> pa mod PGSIZE = 0 -> 0 <= perm < 1024 ->
  PTE2PA (leaf_pte pa perm) = pa.
Proof.
  intros Hp Ha Hf. unfold PTE2PA, leaf_pte. rewrite PA2PTE_eq by done.
  rewrite !Z.shiftr_lor, (shiftr_small perm 10), (shiftr_small PTE_V 10), !Z.lor_0_r
    by (unfold PTE_V; lia).
  rewrite Z.shiftr_shiftl_l by lia. change (10 - 10) with 0. rewrite Z.shiftl_0_r.
  rewrite Z.shiftl_mul_pow2, Z.shiftr_div_pow2 by lia. unfold PGSIZE in *.
  pose proof (Z.div_mod pa 4096). change (2 ^ 12) with 4096. apply u64_small || rewrite u64_small;
  lia.
Qed.

Lemma PTE2PA_dir pa :
  0 <= pa < 2 ^ 56 -> pa mod PGSIZE = 0 -> PTE2PA (Z.lor (PA2PTE pa) PTE_V) = pa.
Proof.
  intros. rewrite <- (PTE2PA_leaf pa 0) at 2 by (done || lia).
  unfold leaf_pte. by rewrite Z.lor_0_r.
Qed.

Lemma PTE_FLAGS_leaf pa perm :
  0 <= pa < 2 ^ 56 -> 0 <= perm < 1024 ->
  PTE_FLAGS (leaf_pte pa perm) = Z.lor perm PTE_V.
Proof.
  intros Hp Hf. unfold PTE_FLAGS, leaf_pte. rewrite PA2PTE_eq by done.
  change 1023 with (Z.ones 10). rewrite !Z.land_lor_distr_l.
  rewrite (Z.land_ones (Z.shiftl _ _)) by lia. rewrite Z.shiftl_mul_pow2, Z.mod_mul by lia.
  rewrite Z.lor_0_l. f_equal. rewrite Z.land_ones by lia. apply Z.mod_small. lia.
Qed.

Lemma flags_land pte bit :
  0 <= bit < 1024 -> Z.land pte bit = Z.land (PTE_FLAGS pte) bit.
Proof.
  intros Hb. unfold PTE_FLAGS. rewrite <- Z.land_assoc. f_equal.
  change 1023 with (Z.ones 10). rewrite Z.land_comm, Z.land_ones by lia.
  symmetry. apply Z.mod_small. lia.
Qed.

Lemma leaf_pte_range pa perm :
  0 <= pa < 2 ^ 56 -> 0 <= perm < 1024 -> 0 <= leaf_pte pa perm < 2 ^ 64.
Proof.
  intros Hp Hf. unfold leaf_pte. pose proof (u64_range (Z.shiftl (Z.shiftr pa 12) 10)).
  fold (PA2PTE pa) in H. split.
  - rewrite !Z.lor_nonneg. unfold PTE_V. lia.
  - assert (forall a b, 0 <= a < 2 ^ 64 -> 0 <= b < 2 ^ 64 -> Z.lor a b < 2 ^ 64) as Hlor.
    { intros a b Ha Hb. assert (0 <= Z.lor a b) by (rewrite Z.lor_nonneg; lia).
      destruct (Z.eq_dec (Z.lor a b) 0) as [->|]; [lia|].
      apply Z.log2_lt_pow2; [lia|]. rewrite Z.log2_lor by lia.
      assert (Z.log2 a < 64) by (destruct (Z.eq_dec a 0) as [->|]; [done|];
        apply Z.log2_lt_pow2; lia).
      assert (Z.log2 b < 64) by (destruct (Z.eq_dec b 0) as [->|]; [done|];
        apply Z.log2_lt_pow2; lia). lia. }
    apply Hlor; [|unfold PTE_V; lia]. split; [rewrite Z.lor_nonneg; lia|].
    apply Hlor; lia.
Qed.
