(* ===== verification/Kalloc.v ===== *)
(** * The physical page allocator (kernel/kalloc.c)

    The free list is threaded through the free pages themselves: the first eight bytes of
    a free page hold the address of the next one.  The theorems relate the list in memory
    to a list of page addresses, and [kfree]/[kalloc] to consing and uncons. *)

From stdpp Require Import base numbers list gmap strings.
From S2P Require Import Prelude Mem Types Kernel Riscv.

Definition kfree (pa : Z) : K unit :=
  kend <- getsK (fun s => sym_end (syms s)) ;;
  if negb (pa mod PGSIZE =? 0) || (pa <? kend) || (PHYSTOP <=? pa) then panic "kfree" else
  (* Fill with junk to catch dangling refs. *)
  modifyK (fun s => s <| mem := memset (mem s) pa 1 PGSIZE |>) ;;;
  acquire L_kmem ;;;
  modifyK (fun s => s <| mem := store64 (mem s) pa (freelist s) |>) ;;;
  modifyK (fun s => s <| freelist := pa |>) ;;;
  release L_kmem.

Definition kalloc : K Z :=
  acquire L_kmem ;;;
  r <- getsK freelist ;;
  (if r =? 0 then retK tt else modifyK (fun s => s <| freelist := load64 (mem s) r |>)) ;;;
  release L_kmem ;;;
  (if r =? 0 then retK tt
   else modifyK (fun s => s <| mem := memset (mem s) r 5 PGSIZE |>)) ;;;
  retK r.

(** [for(; p + PGSIZE <= pa_end; p += PGSIZE) kfree(p);] *)
Definition freerange (pa_start pa_end : Z) : K unit :=
  whileK (S (Z.to_nat ((pa_end - pa_start) / PGSIZE + 1)))
    (fun p => if p + PGSIZE <=? pa_end then kfree p ;;; retK (inl (p + PGSIZE))
              else retK (inr tt))
    (PGROUNDUP pa_start).

Definition kinit : K unit :=
  initlock L_kmem ;;;
  kend <- getsK (fun s => sym_end (syms s)) ;;
  freerange kend PHYSTOP.

#[global] Arguments kfree : simpl never.
#[global] Arguments kalloc : simpl never.

(** ** The list in memory *)

Fixpoint flist (m : gmap Z Z) (p : Z) (l : list Z) : Prop :=
  match l with
  | [] => p = 0
  | x :: l' => p = x /\ flist m (load64 m x) l'
  end.

(** A page [kfree] accepts. *)
Definition ram_page (s : kstate) (pa : Z) : Prop :=
  pa mod PGSIZE = 0 /\ sym_end (syms s) <= pa < PHYSTOP.

Record kmem_ok (s : kstate) (l : list Z) : Prop := {
  kmem_end : 0 < sym_end (syms s);
  kmem_list : flist (mem s) (freelist s) l;
  kmem_nodup : NoDup l;
  kmem_pages : Forall (ram_page s) l }.

(** Memory agrees outside the page at [pa]. *)
Definition same_outside (pa : Z) (m m' : gmap Z Z) : Prop :=
  forall a, a < pa \/ pa + PGSIZE <= a -> rd m' a = rd m a.

Lemma same_outside_load64 pa m m' a :
  same_outside pa m m' -> a + 8 <= pa \/ pa + PGSIZE <= a -> load64 m' a = load64 m a.
Proof. intros H Ha. apply load64_ext. intros b Hb. apply H. unfold PGSIZE in *. lia. Qed.

Lemma flist_ext m m' p l :
  (forall x, x ∈ l -> load64 m' x = load64 m x) -> flist m p l -> flist m' p l.
Proof.
  revert p. induction l as [|x l IH]; intros p H; [done|]. cbn.
  intros [-> Hl]. split; [done|]. rewrite H by set_solver. apply IH; [set_solver|done].
Qed.

Lemma flist_same_outside s m m' p pa l :
  pa mod PGSIZE = 0 -> Forall (ram_page s) l -> pa ∉ l ->
  same_outside pa m m' -> flist m p l -> flist m' p l.
Proof.
  intros Hpa Hl Hni Hm. apply flist_ext. intros x Hx.
  rewrite Forall_forall in Hl. destruct (Hl x Hx) as [Hal _].
  apply (same_outside_load64 pa); [done|].
  destruct (aligned_eq_or_apart x pa Hal Hpa) as [->|]; [done|]. unfold PGSIZE in *; lia.
Qed.

(** ** Refinement: [kfree] conses, [kalloc] takes the head *)

Lemma kfree_run pa e s :
  ram_page s pa -> L_kmem ∉ held s ->
  kfree pa e s =
  Ok tt e (s <| mem := store64 (memset (mem s) pa 1 PGSIZE) pa (freelist s) |>
             <| freelist := pa |>).
Proof.
  intros [Hal Hb] Hh. unfold kfree. kred.
  destruct (Z.eqb_spec (pa mod PGSIZE) 0); [|lia].
  destruct (Z.ltb_spec pa (sym_end (syms s))); [lia|].
  destruct (Z.leb_spec PHYSTOP pa); [lia|]. cbn [negb orb].
  klock. klock. rec_eq.
Qed.

Lemma kfree_same_outside m pa v :
  same_outside pa m (store64 (memset m pa 1 PGSIZE) pa v).
Proof.
  intros a Ha. unfold PGSIZE in *. rewrite rd_store64_ne by lia.
  rewrite rd_memset. case_decide; [lia|done].
Qed.

Lemma ram_page_range s pa : 0 < sym_end (syms s) -> ram_page s pa -> 0 < pa < 2 ^ 32.
Proof. intros ? [_ ?]. unfold PHYSTOP, KERNBASE in *. lia. Qed.

Lemma flist_head s m p l :
  0 < sym_end (syms s) -> flist m p l -> Forall (ram_page s) l -> 0 <= p < 2 ^ 32.
Proof.
  intros He Hf Hp. destruct l as [|x l]; cbn in Hf; [lia|]. destruct Hf as [-> _].
  apply Forall_cons in Hp as [Hx _]. pose proof (ram_page_range s x He Hx). lia.
Qed.

Lemma kfree_spec pa l e s :
  kmem_ok s l -> ram_page s pa -> pa ∉ l -> L_kmem ∉ held s ->
  exists s', kfree pa e s = Ok tt e s' /\ kmem_ok s' (pa :: l) /\
    same_outside pa (mem s) (mem s') /\
    vm_frame s s'.
Proof.
  intros Hk Hp Hni Hh. rewrite (kfree_run _ _ _ Hp Hh). eexists. split; [done|].
  destruct Hk as [He Hl Hnd Hpg]. pose proof (flist_head _ _ _ _ He Hl Hpg) as Hfr.
  split; [|split; [apply kfree_same_outside|by do 2 eexists]].
  split; cbn; [done| |by constructor|by constructor].
  split; [done|]. rewrite load64_store64_eq, u64_small by lia.
  eapply (flist_same_outside s); [apply Hp|done|done|apply kfree_same_outside|done].
Qed.

Lemma kalloc_empty e s :
  kmem_ok s [] -> L_kmem ∉ held s -> kalloc e s = Ok 0 e s.
Proof.
  intros [_ Hl _ _] Hh. cbn in Hl. unfold kalloc. kred. klock. cbn. rewrite Hl. cbn.
  klock. rewrite <- Hl. done.
Qed.

Lemma kalloc_run x l e s :
  kmem_ok s (x :: l) -> L_kmem ∉ held s ->
  kalloc e s = Ok x e (s <| freelist := load64 (mem s) x |>
                         <| mem := memset (mem s) x 5 PGSIZE |>).
Proof.
  intros [He [Hx Hl] Hnd Hp] Hh. inversion Hp as [|? ? Hpx]; subst.
  pose proof (ram_page_range _ _ He Hpx). unfold kalloc. kred. klock. cbn [freelist upd].
  destruct (Z.eqb_spec (freelist s) 0); [lia|]. cbn. klock. done.
Qed.

Lemma kalloc_spec x l e s :
  kmem_ok s (x :: l) -> L_kmem ∉ held s ->
  exists s', kalloc e s = Ok x e s' /\ kmem_ok s' l /\ (x ∉ l) /\ ram_page s x /\
    same_outside x (mem s) (mem s') /\
    vm_frame s s'.
Proof.
  intros Hk Hh. rewrite (kalloc_run _ _ _ _ Hk Hh). eexists. split; [done|].
  destruct Hk as [He [Hx Hl] Hnd Hp]. inversion Hp as [|? ? Hpx Hpl]; subst.
  apply NoDup_cons in Hnd as [Hni Hnd].
  assert (same_outside (freelist s) (mem s) (memset (mem s) (freelist s) 5 PGSIZE)) as Hso.
  { intros a Ha. rewrite rd_memset. case_decide; [lia|done]. }
  split; [|split; [done|split; [done|split; [done|]]]]; [|by do 2 eexists].
  split; cbn; [done| |done|done].
  eapply (flist_same_outside s); [apply Hpx|done|done|done|done].
Qed.

(** ** The allocator at boot *)

Fixpoint pages (p : Z) (n : nat) : list Z :=
  match n with
  | O => []
  | S k => p :: pages (p + PGSIZE) k
  end.

Lemma elem_of_pages x p n :
  x ∈ pages p n -> exists i, 0 <= i < Z.of_nat n /\ x = p + PGSIZE * i.
Proof.
  revert p. induction n as [|n IH]; intros p; cbn; [set_solver|].
  rewrite elem_of_cons. intros [->|H]; [exists 0; lia|].
  apply IH in H as (i & Hi & ->). exists (i + 1). lia.
Qed.

Lemma next_page_aligned p : p mod PGSIZE = 0 -> (p + PGSIZE) mod PGSIZE = 0.
Proof. intros. by rewrite <- Z.add_mod_idemp_r, Z.mod_same, Z.add_0_r by done. Qed.

Lemma freerange_loop n fuel p pa_end l e s :
  kmem_ok s l -> L_kmem ∉ held s -> (n < fuel)%nat ->
  p mod PGSIZE = 0 -> sym_end (syms s) <= p -> pa_end <= PHYSTOP ->
  p + PGSIZE * Z.of_nat n <= pa_end < p + PGSIZE * Z.of_nat n + PGSIZE ->
  (forall x, x ∈ l -> x < p) ->
  exists s', whileK fuel
    (fun p => if p + PGSIZE <=? pa_end then kfree p ;;; retK (inl (p + PGSIZE))
              else retK (inr tt)) p e s = Ok tt e s' /\
    kmem_ok s' (reverse (pages p n) ++ l) /\ vm_frame s s'.
Proof.
  revert fuel p l s. induction n as [|n IH]; intros fuel p l s Hk Hh Hf Hal He Hpe Hn Hlt;
    (destruct fuel as [|fuel]; [lia|]); cbn [whileK]; unfold PGSIZE in *.
  - exists s. unfold bindK. destruct (Z.leb_spec (p + 4096) pa_end); [lia|]. eauto.
  - destruct (Z.leb_spec (p + 4096) pa_end); [|lia].
    destruct (kfree_spec p l e s) as (s1 & Hr & Hk1 & _ & Hfr); try done.
    { split; [done|]. lia. }
    { intros Hin. apply Hlt in Hin. lia. }
    assert (held s1 = held s) as Hh1 by by apply vm_frame_held.
    assert (syms s1 = syms s) as Hs1 by by apply vm_frame_syms.
    destruct (IH fuel (p + 4096) (p :: l) s1) as (s2 & Hr2 & Hk2 & Hfr2); try done.
    + by rewrite Hh1.
    + lia.
    + by apply next_page_aligned.
    + rewrite Hs1. lia.
    + lia.
    + intros x Hx. apply elem_of_cons in Hx as [->|Hx]; [lia|]. apply Hlt in Hx. lia.
    + exists s2. unfold bindK at 1 2. rewrite Hr. cbn beta iota. split; [exact Hr2|].
      split; [|by eapply vm_frame_trans].
      change (pages p (S n)) with (p :: pages (p + 4096) n).
      rewrite reverse_cons, <- app_assoc. exact Hk2.
Qed.

(** The number of whole pages between the end of the kernel and PHYSTOP. *)
Definition npages (kend : Z) : nat := Z.to_nat ((PHYSTOP - PGROUNDUP kend) / PGSIZE).

Lemma elem_of_pages_iff x p n :
  x ∈ pages p n <-> exists i, 0 <= i < Z.of_nat n /\ x = p + PGSIZE * i.
Proof.
  split; [apply elem_of_pages|]. revert p. induction n as [|n IH]; intros p (i & Hi & ->); [lia|].
  cbn. rewrite elem_of_cons. destruct (decide (i = 0)) as [->|]; [left; lia|right].
  apply IH. exists (i - 1). lia.
Qed.

Lemma elem_of_all_pages s pa :
  0 < sym_end (syms s) <= PHYSTOP - PGSIZE ->
  pa ∈ pages (PGROUNDUP (sym_end (syms s))) (npages (sym_end (syms s))) <->
  ram_page s pa /\ pa + PGSIZE <= PHYSTOP.
Proof.
  intros He. set (kend := sym_end (syms s)) in *. rewrite elem_of_pages_iff.
  unfold ram_page, npages. fold kend. pose proof (PGROUNDUP_bounds kend) as Hup.
  pose proof (PGROUNDUP_aligned kend) as Hal. change PHYSTOP with 2281701376 in *.
  unfold PGSIZE in *. specialize (Hup ltac:(lia)). rewrite Z2Nat.id by (apply Z.div_pos; lia).
  pose proof (Z.div_mod (PGROUNDUP kend) 4096 ltac:(lia)).
  pose proof (Z.div_mod pa 4096 ltac:(lia)). split.
  - intros (i & Hi & ->). pose proof (Z.mul_div_le (2281701376 - PGROUNDUP kend) 4096 ltac:(lia)).
    assert ((PGROUNDUP kend + 4096 * i) mod 4096 = 0)
      by (rewrite (Z.mul_comm 4096 i), Z.mod_add by lia; done). lia.
  - intros [[Ha Hb] Hle]. exists ((pa - PGROUNDUP kend) / 4096).
    assert ((pa - PGROUNDUP kend) mod 4096 = 0) as Hm
      by (rewrite Zminus_mod, Ha, Hal; reflexivity).
    pose proof (Z.div_mod (pa - PGROUNDUP kend) 4096 ltac:(lia)).
    assert (PGROUNDUP kend <= pa) by lia.
    split; [|lia]. split; [apply Z.div_pos; lia|].
    enough ((pa - PGROUNDUP kend) / 4096 + 1 <= (2281701376 - PGROUNDUP kend) / 4096) by lia.
    apply Z.div_le_lower_bound; lia.
Qed.

(** [kinit] makes every whole page between the kernel and PHYSTOP available exactly once. *)
Lemma kinit_spec e s :
  L_kmem ∉ held s -> 0 < sym_end (syms s) <= PHYSTOP - PGSIZE ->
  freelist s = 0 ->
  exists s', kinit e s = Ok tt e s' /\
    kmem_ok s' (reverse (pages (PGROUNDUP (sym_end (syms s))) (npages (sym_end (syms s))))) /\
    vm_frame s s'.
Proof.
  intros Hh He Hf. set (kend := sym_end (syms s)) in *.
  pose proof (PGROUNDUP_bounds kend) as Hup. pose proof (PGROUNDUP_aligned kend) as Hal.
  unfold npages, PHYSTOP, KERNBASE, PGSIZE in *.
  specialize (Hup ltac:(lia)).
  assert (unhold L_kmem (held s) = held s) as Hu.
  { clear -Hh. induction (held s) as [|x h IH]; [done|]. cbn.
    case_decide; subst; [set_solver|]. rewrite IH; set_solver. }
  unfold kinit, initlock, freerange. kred. fold kend.
  replace (upd held (unhold L_kmem) s) with s by (cbv [upd]; by rewrite Hu).
  fold kend.
  destruct (freerange_loop (Z.to_nat ((2281701376 - PGROUNDUP kend) / 4096))
    (S (Z.to_nat ((2281701376 - kend) / 4096 + 1))) (PGROUNDUP kend) 2281701376 [] e s)
    as (s' & Hr & Hk & Hfr); unfold PGSIZE, PHYSTOP, KERNBASE; try done.
  - split; cbn; [lia|done|constructor|constructor].
  - assert ((2281701376 - PGROUNDUP kend) / 4096 <= (2281701376 - kend) / 4096)
      by (apply Z.div_le_mono; lia).
    assert (0 <= (2281701376 - PGROUNDUP kend) / 4096) by (apply Z.div_pos; lia). lia.
  - lia.
  - rewrite Z2Nat.id by (apply Z.div_pos; lia).
    pose proof (Z.div_mod (2281701376 - PGROUNDUP kend) 4096).
    pose proof (Z.mod_pos_bound (2281701376 - PGROUNDUP kend) 4096). lia.
  - intros x Hx. by apply elem_of_nil in Hx.
  - rewrite app_nil_r in Hk. eauto.
Qed.

(** ** Traces of allocator calls

    An abstract allocator is the list of free pages.  Allocation takes its head, or
    answers 0 when there is none; a client frees only pages of RAM that are not free. *)

Inductive kcall := CallAlloc | CallFree (pa : Z).

Definition ram_pageb (s : kstate) (pa : Z) : bool :=
  (pa mod PGSIZE =? 0) && (sym_end (syms s) <=? pa) && (pa <? PHYSTOP).

Fixpoint abs_run (s : kstate) (l : list Z) (calls : list kcall) : option (list Z * list Z) :=
  match calls with
  | [] => Some ([], l)
  | CallAlloc :: cs =>
      let '(r, l1) := match l with [] => (0, []) | x :: l' => (x, l') end in
      match abs_run s l1 cs with Some (rs, l2) => Some (r :: rs, l2) | None => None end
  | CallFree pa :: cs =>
      if ram_pageb s pa && bool_decide (pa ∉ l) then abs_run s (pa :: l) cs else None
  end.

Fixpoint run_calls (calls : list kcall) : K (list Z) :=
  match calls with
  | [] => retK []
  | CallAlloc :: cs => r <- kalloc ;; rs <- run_calls cs ;; retK (r :: rs)
  | CallFree pa :: cs => kfree pa ;;; run_calls cs
  end.

Lemma ram_pageb_true s pa : ram_pageb s pa = true <-> ram_page s pa.
Proof.
  unfold ram_pageb, ram_page. rewrite !andb_true_iff, Z.eqb_eq, Z.leb_le, Z.ltb_lt. tauto.
Qed.

Lemma abs_run_syms s s' l calls : syms s' = syms s -> abs_run s' l calls = abs_run s l calls.
Proof.
  intros Hs. revert l. induction calls as [|[|pa] cs IH]; intros l; [done| |].
  - destruct l as [|x l']; cbn [abs_run]; by rewrite IH.
  - cbn [abs_run]. unfold ram_pageb. rewrite Hs. by destruct (_ && _).
Qed.

(** C8: the page allocator refines the abstract one.  On every sequence of calls the
    abstract allocator accepts, [kalloc] and [kfree] neither panic nor block, return the
    same pages, and leave a free list in memory that represents the abstract one. *)
Theorem kalloc_refines calls rs l l' e s :
  kmem_ok s l -> L_kmem ∉ held s -> abs_run s l calls = Some (rs, l') ->
  exists s', run_calls calls e s = Ok rs e s' /\ kmem_ok s' l' /\ vm_frame s s'.
Proof.
  revert rs l s. induction calls as [|[|pa] cs IH]; intros rs l s Hk Hh Hr; cbn in Hr.
  - injection Hr as <- <-. exists s. eauto.
  - destruct l as [|x l].
    + destruct (abs_run s [] cs) as [[rs' l2]|] eqn:E; [|done]. injection Hr as <- <-.
      destruct (IH _ _ _ Hk Hh E) as (s' & H1 & H2 & H3). exists s'. cbn.
      unfold bindK. rewrite kalloc_empty, H1 by done. eauto.
    + destruct (abs_run s l cs) as [[rs' l2]|] eqn:E; [|done]. injection Hr as <- <-.
      destruct (kalloc_spec x l e s Hk Hh) as (s1 & Ha & Hk1 & _ & _ & _ & Hf).
      destruct (IH rs' l s1 Hk1) as (s' & H1 & H2 & H3).
      { by rewrite (vm_frame_held _ _ Hf). }
      { by rewrite (abs_run_syms s) by by apply vm_frame_syms. }
      exists s'. cbn. unfold bindK. rewrite Ha, H1. eauto.
  - destruct (ram_pageb s pa && bool_decide (pa ∉ l)) eqn:E; [|done].
    apply andb_true_iff in E as [Ep%ram_pageb_true En%bool_decide_eq_true].
    destruct (kfree_spec pa l e s Hk Ep En Hh) as (s1 & Ha & Hk1 & _ & Hf).
    destruct (IH rs (pa :: l) s1 Hk1) as (s' & H1 & H2 & H3).
    { by rewrite (vm_frame_held _ _ Hf). }
    { by rewrite (abs_run_syms s) by by apply vm_frame_syms. }
    exists s'. cbn. unfold bindK. rewrite Ha, H1. eauto.
Qed.

(** A machine with three pages of memory above the kernel. *)
Definition demo_syms : symbols :=
  Symbols (PHYSTOP - 3 * PGSIZE) KERNBASE KERNBASE 0 0 0 0 0 0 0.
Definition demo_page : Z := PHYSTOP - 2 * PGSIZE.
Definition demo_boot : kstate := kstate0 demo_syms.

Lemma demo_boot_ok : kmem_ok demo_boot [].
Proof. split; [reflexivity|reflexivity|constructor|constructor]. Qed.

Lemma kalloc_refines_witness :
  exists s', run_calls [CallAlloc; CallFree demo_page; CallAlloc] [] demo_boot =
    Ok [0; demo_page] [] s' /\ kmem_ok s' [] /\ vm_frame demo_boot s'.
Proof.
  apply (kalloc_refines [CallAlloc; CallFree demo_page; CallAlloc] [0; demo_page] [] []
    [] demo_boot).
  - apply demo_boot_ok.
  - apply not_elem_of_nil.
  - vm_compute. reflexivity.
Defined.

(** C30: [kinit] builds the allocator: every aligned page between the end of the kernel and
    PHYSTOP becomes free exactly once, and nothing else does. *)
Theorem kinit_frees_all_ram e s :
  L_kmem ∉ held s -> 0 < sym_end (syms s) <= PHYSTOP - PGSIZE -> freelist s = 0 ->
  exists s' l, kinit e s = Ok tt e s' /\ kmem_ok s' l /\ vm_frame s s' /\
    forall pa, pa ∈ l <-> ram_page s pa /\ pa + PGSIZE <= PHYSTOP.
Proof.
  intros Hh He Hf. destruct (kinit_spec e s Hh He Hf) as (s' & Hr & Hk & Hfr).
  do 2 eexists. split; [done|]. split; [done|]. split; [done|]. intros pa.
  rewrite elem_of_reverse. apply elem_of_all_pages; unfold PHYSTOP, KERNBASE, PGSIZE in *; lia.
Qed.

Lemma kinit_frees_all_ram_witness :
  exists s' l, kinit [] demo_boot = Ok tt [] s' /\ kmem_ok s' l /\ vm_frame demo_boot s' /\
    forall pa, pa ∈ l <-> ram_page demo_boot pa /\ pa + PGSIZE <= PHYSTOP.
Proof.
  apply (kinit_frees_all_ram [] demo_boot).
  - apply not_elem_of_nil.
  - vm_compute. split; [reflexivity|discriminate].
  - reflexivity.
Defined.
