(* ===== verification/Vm.v ===== *)
(** * Sv39 page tables and user memory (kernel/vm.c)

    A page table is what the hardware sees: 512 little-endian 64-bit entries in a page of
    physical memory.  [walk] returns the address of an entry, with 0 the null pointer.
    The kernel buffer of [copyout], [copyin] and [copyinstr] is the list of its bytes. *)

From stdpp Require Import base numbers list gmap strings.
From S2P Require Import Prelude Mem Types Kernel Riscv Kalloc.

Definition loadK (a : Z) : K Z := getsK (fun s => load64 (mem s) a).
Definition storeK (a v : Z) : K unit := modifyK (fun s => s <| mem := store64 (mem s) a v |>).
Definition memsetK (a c n : Z) : K unit :=
  modifyK (fun s => s <| mem := memset (mem s) a c n |>).

Definition flag (pte bit : Z) : bool := negb (Z.land pte bit =? 0).

(** One iteration of the loop of [walk]: the next page-table page, or [None] for the
    early [return 0]. *)
Definition walk_level (va : Z) (alloc : bool) (level pagetable : Z) : K (option Z) :=
  let pte := pagetable + 8 * PX level va in
  v <- loadK pte ;;
  if flag v PTE_V then retK (Some (PTE2PA v)) else
  if negb alloc then retK None else
  pg <- kalloc ;;
  if pg =? 0 then retK None else
  memsetK pg 0 PGSIZE ;;;
  storeK pte (Z.lor (PA2PTE pg) PTE_V) ;;;
  retK (Some pg).

Definition walk (pagetable va : Z) (alloc : bool) : K Z :=
  if MAXVA <=? va then panic "walk" else
  r2 <- walk_level va alloc 2 pagetable ;;
  match r2 with
  | None => retK 0
  | Some pt1 =>
      r1 <- walk_level va alloc 1 pt1 ;;
      match r1 with
      | None => retK 0
      | Some pt0 => retK (pt0 + 8 * PX 0 va)
      end
  end.

Definition walkaddr (pagetable va : Z) : K Z :=
  if MAXVA <=? va then retK 0 else
  pte <- walk pagetable va false ;;
  if pte =? 0 then retK 0 else
  v <- loadK pte ;;
  if negb (flag v PTE_V) then retK 0 else
  if negb (flag v PTE_U) then retK 0 else
  retK (PTE2PA v).

(** The [for(;;)] of [mappages] on its variables [a] and [pa]. *)
Definition mappages_body (pagetable perm last : Z) (st : Z * Z) : K (Z * Z + Z) :=
  let '(a, pa) := st in
  pte <- walk pagetable a true ;;
  if pte =? 0 then retK (inr (-1)) else
  v <- loadK pte ;;
  if flag v PTE_V then panic "remap" else
  storeK pte (Z.lor (Z.lor (PA2PTE pa) perm) PTE_V) ;;;
  if a =? last then retK (inr 0) else retK (inl (u64 (a + PGSIZE), u64 (pa + PGSIZE))).

Definition mappages (pagetable va size pa perm : Z) : K Z :=
  let a := PGROUNDDOWN va in
  let last := PGROUNDDOWN (u64 (va + size - 1)) in
  let fuel := Z.to_nat (if a <=? last then (last - a) / PGSIZE + 1
                        else Z.max 1 ((MAXVA - a) / PGSIZE + 1)) in
  whileK fuel (mappages_body pagetable perm last) (a, pa).

Definition kvmmap (kpgtbl va pa sz perm : Z) : K unit :=
  r <- mappages kpgtbl va sz pa perm ;;
  if negb (r =? 0) then panic "kvmmap" else retK tt.

Definition uvmunmap_body (pagetable va npages : Z) (do_free : bool) (a : Z) : K (Z + unit) :=
  if negb (a <? u64 (va + u64 (npages * PGSIZE))) then retK (inr tt) else
  pte <- walk pagetable a false ;;
  if pte =? 0 then panic "uvmunmap: walk" else
  v <- loadK pte ;;
  if negb (flag v PTE_V) then panic "uvmunmap: not mapped" else
  if PTE_FLAGS v =? PTE_V then panic "uvmunmap: not a leaf" else
  (if do_free then kfree (PTE2PA v) else retK tt) ;;;
  storeK pte 0 ;;;
  retK (inl (u64 (a + PGSIZE))).

Definition uvmunmap (pagetable va npages : Z) (do_free : bool) : K unit :=
  if negb (va mod PGSIZE =? 0) then panic "uvmunmap: not aligned" else
  whileK (S (Z.to_nat npages)) (uvmunmap_body pagetable va npages do_free) va.

Definition uvmcreate : K Z :=
  pagetable <- kalloc ;;
  if pagetable =? 0 then retK 0 else
  memsetK pagetable 0 PGSIZE ;;;
  retK pagetable.

(** The bytes of a kernel object copied to and from physical memory. *)
Fixpoint wr_list (m : gmap Z Z) (a : Z) (l : list Z) : gmap Z Z :=
  match l with
  | [] => m
  | x :: l' => wr_list (wr m a x) (a + 1) l'
  end.

Fixpoint rd_list (m : gmap Z Z) (a : Z) (n : nat) : list Z :=
  match n with
  | O => []
  | S k => rd m a :: rd_list m (a + 1) k
  end.

Definition uvminit (pagetable : Z) (src : list Z) : K unit :=
  let sz := Z.of_nat (length src) in
  if PGSIZE <=? sz then panic "inituvm: more than a page" else
  pg <- kalloc ;;
  memsetK pg 0 PGSIZE ;;;
  mappages pagetable 0 PGSIZE pg (Z.lor (Z.lor (Z.lor PTE_W PTE_R) PTE_X) PTE_U) ;;;
  modifyK (fun s => s <| mem := wr_list (mem s) pg src |>).

Definition uvmdealloc (pagetable oldsz newsz : Z) : K Z :=
  if oldsz <=? newsz then retK oldsz else
  (if PGROUNDUP newsz <? PGROUNDUP oldsz then
     let npages := i32 ((PGROUNDUP oldsz - PGROUNDUP newsz) / PGSIZE) in
     uvmunmap pagetable (PGROUNDUP newsz) (u64 npages) true
   else retK tt) ;;;
  retK newsz.

Definition uvmalloc_body (pagetable oldsz newsz a : Z) : K (Z + Z) :=
  if negb (a <? newsz) then retK (inr newsz) else
  pg <- kalloc ;;
  if pg =? 0 then uvmdealloc pagetable a oldsz ;;; retK (inr 0) else
  memsetK pg 0 PGSIZE ;;;
  r <- mappages pagetable a PGSIZE pg (Z.lor (Z.lor (Z.lor PTE_W PTE_X) PTE_R) PTE_U) ;;
  if negb (r =? 0) then
    kfree pg ;;; uvmdealloc pagetable a oldsz ;;; retK (inr 0)
  else retK (inl (u64 (a + PGSIZE))).

Definition uvmalloc (pagetable oldsz newsz : Z) : K Z :=
  if newsz <? oldsz then retK oldsz else
  let oldsz := PGROUNDUP oldsz in
  whileK (S (Z.to_nat ((newsz - oldsz) / PGSIZE + 1)))
    (uvmalloc_body pagetable oldsz newsz) oldsz.

(** Recursive over the levels of the tree: [depth] bounds the recursion (a well-formed
    table has three levels). *)
Fixpoint freewalk (depth : nat) (pagetable : Z) : K unit :=
  match depth with
  | O => fun _ _ => OutOfFuel
  | S d =>
      forK (seqZ 0 512) (fun i =>
        pte <- loadK (pagetable + 8 * i) ;;
        if flag pte PTE_V && (Z.land pte (Z.lor (Z.lor PTE_R PTE_W) PTE_X) =? 0) then
          freewalk d (PTE2PA pte) ;;;
          storeK (pagetable + 8 * i) 0
        else if flag pte PTE_V then panic "freewalk: leaf"
        else retK tt) ;;;
      kfree pagetable
  end.

Definition uvmfree (pagetable sz : Z) : K unit :=
  (if 0 <? sz then uvmunmap pagetable 0 (PGROUNDUP sz / PGSIZE) true else retK tt) ;;;
  freewalk 3 pagetable.

Definition uvmcopy_body (old new sz i : Z) : K (Z + Z) :=
  if negb (i <? sz) then retK (inr 0) else
  pte <- walk old i false ;;
  if pte =? 0 then panic "uvmcopy: pte should exist" else
  v <- loadK pte ;;
  if negb (flag v PTE_V) then panic "uvmcopy: page not present" else
  let pa := PTE2PA v in
  let flags := PTE_FLAGS v in
  pg <- kalloc ;;
  if pg =? 0 then uvmunmap new 0 (i / PGSIZE) true ;;; retK (inr (-1)) else
  modifyK (fun s => s <| mem := memmove (mem s) pg pa PGSIZE |>) ;;;
  r <- mappages new i PGSIZE pg flags ;;
  if negb (r =? 0) then
    kfree pg ;;; uvmunmap new 0 (i / PGSIZE) true ;;; retK (inr (-1))
  else retK (inl (u64 (i + PGSIZE))).

Definition uvmcopy (old new sz : Z) : K Z :=
  whileK (S (Z.to_nat (sz / PGSIZE + 1))) (uvmcopy_body old new sz) 0.

Definition uvmclear (pagetable va : Z) : K unit :=
  pte <- walk pagetable va false ;;
  if pte =? 0 then panic "uvmclear" else
  v <- loadK pte ;;
  storeK pte (Z.land v (u64 (Z.lnot PTE_U))).

(** [copyout]: the loop variables are [dstva] and the bytes still to be copied. *)
Definition copyout_body (pagetable : Z) (st : Z * list Z) : K (Z * list Z + Z) :=
  let '(dstva, src) := st in
  match src with
  | [] => retK (inr 0)
  | _ =>
      let va0 := PGROUNDDOWN dstva in
      pa0 <- walkaddr pagetable va0 ;;
      if pa0 =? 0 then retK (inr (-1)) else
      let n := Nat.min (Z.to_nat (PGSIZE - (dstva - va0))) (length src) in
      modifyK (fun s => s <| mem := wr_list (mem s) (pa0 + (dstva - va0)) (take n src) |>) ;;;
      retK (inl (u64 (va0 + PGSIZE), drop n src))
  end.

Definition copyout (pagetable dstva : Z) (src : list Z) : K Z :=
  whileK (S (length src)) (copyout_body pagetable) (dstva, src).

(** [copyin] returns its result and the bytes it stored at [dst]; on an error these are
    the bytes of the pages that preceded the unmapped one. *)
Definition copyin_body (pagetable : Z) (st : Z * nat * list Z)
    : K (Z * nat * list Z + Z * list Z) :=
  let '(srcva, len, dst) := st in
  match len with
  | O => retK (inr (0, dst))
  | _ =>
      let va0 := PGROUNDDOWN srcva in
      pa0 <- walkaddr pagetable va0 ;;
      if pa0 =? 0 then retK (inr (-1, dst)) else
      let n := Nat.min (Z.to_nat (PGSIZE - (srcva - va0))) len in
      bs <- getsK (fun s => rd_list (mem s) (pa0 + (srcva - va0)) n) ;;
      retK (inl (u64 (va0 + PGSIZE), (len - n)%nat, dst ++ bs))
  end.

Definition copyin (pagetable srcva : Z) (len : nat) : K (Z * list Z) :=
  whileK (S len) (copyin_body pagetable) (srcva, len, []).

(** The inner loop of [copyinstr]: copy at most [n] bytes up to a NUL; the flag says
    whether one was met (it is then part of what was copied). *)
Fixpoint scan_nul (m : gmap Z Z) (p : Z) (n : nat) : list Z * bool :=
  match n with
  | O => ([], false)
  | S k => if rd m p =? 0 then ([0], true)
           else let '(l, got) := scan_nul m (p + 1) k in (rd m p :: l, got)
  end.

Definition copyinstr_body (pagetable : Z) (st : Z * nat * list Z)
    : K (Z * nat * list Z + Z * list Z) :=
  let '(srcva, max, dst) := st in
  match max with
  | O => retK (inr (-1, dst))
  | _ =>
      let va0 := PGROUNDDOWN srcva in
      pa0 <- walkaddr pagetable va0 ;;
      if pa0 =? 0 then retK (inr (-1, dst)) else
      let n := Nat.min (Z.to_nat (PGSIZE - (srcva - va0))) max in
      r <- getsK (fun s => scan_nul (mem s) (pa0 + (srcva - va0)) n) ;;
      if snd r : bool then retK (inr (0, dst ++ fst r))
      else retK (inl (u64 (va0 + PGSIZE), (max - n)%nat, dst ++ fst r))
  end.

Definition copyinstr (pagetable srcva : Z) (max : nat) : K (Z * list Z) :=
  whileK (S max) (copyinstr_body pagetable) (srcva, max, []).

(** ** The kernel's page table *)

(** proc_mapstacks of kernel/proc.c: a kernel stack for every thread of every process. *)
Definition proc_mapstacks (kpgtbl : Z) : K unit :=
  forK (seq 0 NPROC) (fun p =>
    forK (seq 0 NTHREAD) (fun i =>
      pa <- kalloc ;;
      if pa =? 0 then panic "kalloc" else
      let va := u64 (KSTACK (Z.of_nat p) (Z.of_nat i)) in
      kvmmap kpgtbl va pa PGSIZE (Z.lor PTE_R PTE_W))).

Definition kvmmake : K Z :=
  kpgtbl <- kalloc ;;
  memsetK kpgtbl 0 PGSIZE ;;;
  etext <- getsK (fun s => sym_etext (syms s)) ;;
  trampoline <- getsK (fun s => sym_trampoline (syms s)) ;;
  kvmmap kpgtbl UART0 UART0 PGSIZE (Z.lor PTE_R PTE_W) ;;;
  kvmmap kpgtbl VIRTIO0 VIRTIO0 PGSIZE (Z.lor PTE_R PTE_W) ;;;
  kvmmap kpgtbl PLIC PLIC 4194304 (Z.lor PTE_R PTE_W) ;;;
  kvmmap kpgtbl KERNBASE KERNBASE (u64 (etext - KERNBASE)) (Z.lor PTE_R PTE_X) ;;;
  kvmmap kpgtbl etext etext (u64 (PHYSTOP - etext)) (Z.lor PTE_R PTE_W) ;;;
  kvmmap kpgtbl TRAMPOLINE trampoline PGSIZE (Z.lor PTE_R PTE_X) ;;;
  proc_mapstacks kpgtbl ;;;
  retK kpgtbl.

Definition kvminit : K unit :=
  kpgtbl <- kvmmake ;;
  modifyK (fun s => s <| kernel_pagetable := kpgtbl |>).

Definition kvminithart : K unit :=
  modifyK (fun s => s <| csr ::= (fun c => c <| r_satp := MAKE_SATP (kernel_pagetable s) |>) |>).
