(* ===== verification/Frame.v ===== *)
(** * Framing: the parts of the state an operation leaves alone

    [keeps f c]: whenever [c] returns, the part [f] of the state is what it was.  The
    property is compositional, so that the tactic [keeps] proves it for a whole function
    from the hints for the functions it calls.  [steady c] says that [c] does not give up the
    CPU: it consumes no interference. *)

From stdpp Require Import base numbers list gmap strings.
From S2P Require Import Prelude Mem Types Kernel Kalloc Vm.

Definition keeps {A T} (f : kstate -> T) (c : K A) : Prop :=
  forall e s a e' s', c e s = Ok a e' s' -> f s' = f s.

Definition steady {A} (c : K A) : Prop :=
  forall e s a e' s', c e s = Ok a e' s' -> e' = e.

Section Keeps.
Context {T : Type} (part : kstate -> T).

Lemma keeps_ret {A} (a : A) : keeps part (retK a).
Proof. intros e s b e' s' [= <- <- <-]. done. Qed.
Lemma keeps_gets {A} (g : kstate -> A) : keeps part (getsK g).
Proof. intros e s b e' s' [= <- <- <-]. done. Qed.
Lemma keeps_panic {A} msg : keeps part (panic (A := A) msg).
Proof. intros e s b e' s' [=]. Qed.
Lemma keeps_ub {A} why : keeps part (ub (A := A) why).
Proof. intros e s b e' s' [=]. Qed.
Lemma keeps_fuel {A} : keeps part (fun _ _ => @OutOfFuel A).
Proof. intros e s b e' s' [=]. Qed.
Lemma keeps_modify g : (forall s, part (g s) = part s) -> keeps part (modifyK g).
Proof. intros H e s b e' s' [= <- <- <-]. apply H. Qed.
Lemma keeps_bind {A B} (c : K A) (k : A -> K B) :
  keeps part c -> (forall a, keeps part (k a)) -> keeps part (bindK c k).
Proof.
  intros Hc Hk e s b e' s' H. apply bindK_inv in H as (a & e1 & s1 & H1 & H2).
  by rewrite (Hk _ _ _ _ _ _ H2), (Hc _ _ _ _ _ H1).
Qed.
Lemma keeps_forK {X} (l : list X) body : (forall x, keeps part (body x)) -> keeps part (forK l body).
Proof.
  intros H. induction l; cbn; [apply keeps_ret|]. apply keeps_bind; auto.
Qed.
Lemma keeps_searchK {X R} (l : list X) (body : X -> K (option R)) :
  (forall x, keeps part (body x)) -> keeps part (searchK l body).
Proof.
  intros H. induction l; cbn; [apply keeps_ret|]. apply keeps_bind; [auto|].
  intros [r|]; [apply keeps_ret|done].
Qed.
Lemma keeps_whileK {A R} n (body : A -> K (A + R)) a :
  (forall a, keeps part (body a)) -> keeps part (whileK n body a).
Proof.
  intros H. revert a. induction n; intros a; cbn; [apply keeps_fuel|].
  apply keeps_bind; [auto|]. intros [a'|r]; [auto|apply keeps_ret].
Qed.
Lemma keeps_holding l : keeps part (holding l).
Proof. apply keeps_gets. Qed.
Lemma keeps_acquire l : (forall s h, part (s <| held := h |>) = part s) -> keeps part (acquire l).
Proof.
  intros H. apply keeps_bind; [apply keeps_holding|]. intros [|]; [apply keeps_panic|].
  apply keeps_modify. intros s. apply (H s (l :: held s)).
Qed.
Lemma keeps_release l : (forall s h, part (s <| held := h |>) = part s) -> keeps part (release l).
Proof.
  intros H. apply keeps_bind; [apply keeps_holding|]. intros [|]; [|apply keeps_panic].
  apply keeps_modify. intros s. apply (H s (unhold l (held s))).
Qed.
Lemma keeps_initlock l : (forall s h, part (s <| held := h |>) = part s) -> keeps part (initlock l).
Proof. intros H. apply keeps_modify. intros s. apply (H s (unhold l (held s))). Qed.
End Keeps.

(** The cases of a function body; the functions it calls are found in the database. *)
Create HintDb keeps.

Ltac keeps_step :=
  match goal with
  | |- forall _, _ => intros
  | |- _ = _ => reflexivity
  | |- keeps _ (retK _) => apply keeps_ret
  | |- keeps _ (getsK _) => apply keeps_gets
  | |- keeps _ (panic _) => apply keeps_panic
  | |- keeps _ (ub _) => apply keeps_ub
  | |- keeps _ (fun _ _ => OutOfFuel) => apply keeps_fuel
  | |- keeps _ (modifyK _) => apply keeps_modify
  | |- keeps _ (bindK _ _) => apply keeps_bind
  | |- keeps _ (forK _ _) => apply keeps_forK
  | |- keeps _ (searchK _ _) => apply keeps_searchK
  | |- keeps _ (whileK _ _ _) => apply keeps_whileK
  | |- keeps _ (acquire _) => apply keeps_acquire
  | |- keeps _ (release _) => apply keeps_release
  | |- keeps _ (initlock _) => apply keeps_initlock
  | |- keeps _ (let '_ := ?x in _) => destruct x
  | |- keeps _ (match ?x with _ => _ end) => destruct x
  | |- keeps _ _ => solve [eauto with keeps]
  end.
Ltac keeps := repeat keeps_step.

(** ** The page allocator and the page tables touch memory only *)

Section Vm.
Context {T : Type} (part : kstate -> T).
(** [part] does not look at the locks, at the memory or at the free list. *)
Class MemBlind : Prop := {
  blind_held : forall s h, part (s <| held := h |>) = part s;
  blind_mem : forall s m, part (s <| mem := m |>) = part s;
  blind_free : forall s p, part (s <| freelist := p |>) = part s }.
Context `{MemBlind}.

Lemma keeps_loadK a : keeps part (loadK a).
Proof. unfold loadK. keeps. Qed.
Lemma keeps_storeK a v : keeps part (storeK a v).
Proof. apply keeps_modify. intros s. apply blind_mem. Qed.
Lemma keeps_memsetK a c n : keeps part (memsetK a c n).
Proof. apply keeps_modify. intros s. apply blind_mem. Qed.

Lemma keeps_kfree pa : keeps part (kfree pa).
Proof. unfold kfree. keeps; apply blind_mem || apply blind_free || apply blind_held. Qed.
Lemma keeps_kalloc : keeps part kalloc.
Proof. unfold kalloc. keeps; apply blind_mem || apply blind_free || apply blind_held. Qed.
#[local] Hint Resolve keeps_loadK keeps_storeK keeps_memsetK keeps_kfree keeps_kalloc : keeps.

Lemma keeps_walk_level va alloc level pt : keeps part (walk_level va alloc level pt).
Proof. unfold walk_level. keeps. Qed.
#[local] Hint Resolve keeps_walk_level : keeps.
Lemma keeps_walk pt va alloc : keeps part (walk pt va alloc).
Proof. unfold walk. keeps. Qed.
#[local] Hint Resolve keeps_walk : keeps.
Lemma keeps_walkaddr pt va : keeps part (walkaddr pt va).
Proof. unfold walkaddr. keeps. Qed.
Lemma keeps_mappages pt va size pa perm : keeps part (mappages pt va size pa perm).
Proof. unfold mappages, mappages_body. keeps. Qed.
Lemma keeps_uvmunmap pt va n fr : keeps part (uvmunmap pt va n fr).
Proof. unfold uvmunmap, uvmunmap_body. keeps. Qed.
#[local] Hint Resolve keeps_walkaddr keeps_mappages keeps_uvmunmap : keeps.
Lemma keeps_uvmcreate : keeps part uvmcreate.
Proof. unfold uvmcreate. keeps. Qed.
Lemma keeps_uvmdealloc pt o n : keeps part (uvmdealloc pt o n).
Proof. unfold uvmdealloc. keeps. Qed.
#[local] Hint Resolve keeps_uvmcreate keeps_uvmdealloc : keeps.
Lemma keeps_uvmalloc pt o n : keeps part (uvmalloc pt o n).
Proof. unfold uvmalloc, uvmalloc_body. keeps. Qed.
Lemma keeps_freewalk d pt : keeps part (freewalk d pt).
Proof. revert pt. induction d; intros pt; cbn [freewalk]; keeps. Qed.
#[local] Hint Resolve keeps_uvmalloc keeps_freewalk : keeps.
Lemma keeps_uvmfree pt sz : keeps part (uvmfree pt sz).
Proof. unfold uvmfree. keeps. Qed.
Lemma keeps_uvmcopy old new sz : keeps part (uvmcopy old new sz).
Proof. unfold uvmcopy, uvmcopy_body. keeps; apply blind_mem. Qed.
Lemma keeps_uvmclear pt va : keeps part (uvmclear pt va).
Proof. unfold uvmclear. keeps. Qed.
Lemma keeps_uvminit pt src : keeps part (uvminit pt src).
Proof. unfold uvminit. keeps; apply blind_mem. Qed.
Lemma keeps_copyout pt va src : keeps part (copyout pt va src).
Proof. unfold copyout, copyout_body. keeps; apply blind_mem. Qed.
Lemma keeps_copyin pt va len : keeps part (copyin pt va len).
Proof. unfold copyin, copyin_body. keeps. Qed.
Lemma keeps_copyinstr pt va len : keeps part (copyinstr pt va len).
Proof. unfold copyinstr, copyinstr_body. keeps. Qed.
End Vm.

#[export] Hint Resolve keeps_loadK keeps_storeK keeps_memsetK keeps_kfree keeps_kalloc keeps_walk
  keeps_walkaddr keeps_mappages keeps_uvmunmap keeps_uvmcreate keeps_uvmdealloc keeps_uvmalloc
  keeps_freewalk keeps_uvmfree keeps_uvmcopy keeps_uvmclear keeps_uvminit keeps_copyout
  keeps_copyin keeps_copyinstr : keeps.
#[export] Hint Extern 0 (MemBlind _) => (split; reflexivity) : typeclass_instances keeps.

(** [kept part H N]: from the run [H] of an operation that keeps [part], the equation [N]. *)
Ltac kept part H N :=
  match type of H with
  | ?c ?e ?s = Ok ?a ?e' ?s' =>
      assert (part s' = part s) as N by (refine ((_ : keeps part c) e s a e' s' H); keeps)
  end.

(** [kinv H]: the first operation of a sequence that returned, and the rest. *)
Ltac kinv H :=
  let a := fresh "a" in let e := fresh "e" in let s := fresh "s" in let H1 := fresh "H" in
  apply bindK_inv in H as (a & e & s & H1 & H); cbn beta iota in H.

(** [kskip part H]: steps over an operation of the run [H] that keeps [part], in a goal about
    the value of [part] before it. *)
Ltac kskip part H :=
  let a := fresh "a" in let e := fresh "e" in let s := fresh "s" in
  let H1 := fresh "H" in let N := fresh "N" in
  apply bindK_inv in H as (a & e & s & H1 & H); cbn beta iota in H;
  kept part H1 N; rewrite <- N; clear N.
