(* ===== verification/VmFacts.v ===== *)
(** * Page tables as trees, and the correctness of [walk] and [mappages]

    A page table is a tree of pages: [node m pt p] is the page reached from the root by
    following the entries at the indices of the path [p] (at most two of them).  A table
    is well formed when it really is a tree (no page is reached along two paths) made of
    allocatable pages none of which is free.  [pte_of m pt va] is the leaf entry for
    [va], 0 when there is none: it is the mapping the hardware uses. *)

From stdpp Require Import base numbers list gmap strings.
From S2P Require Import Prelude Mem Types Kernel Riscv Kalloc Vm.

Definition dir_next (m : gmap Z Z) (pt i : Z) : option Z :=
  let v := load64 m (pt + 8 * i) in
  if flag v PTE_V then Some (PTE2PA v) else None.

Definition idx_ok (i : Z) : bool := (0 <=? i) && (i <? 512).

Fixpoint follow (m : gmap Z Z) (b : Z) (p : list Z) : option Z :=
  match p with
  | [] => Some b
  | i :: p' => if idx_ok i
               then match dir_next m b i with Some c => follow m c p' | None => None end
               else None
  end.

Definition node (m : gmap Z Z) (pt : Z) (p : list Z) : option Z :=
  if (length p <=? 2)%nat then follow m pt p else None.

Record pt_wf (s : kstate) (pt : Z) (l : list Z) : Prop := {
  pt_inj : forall p q a, node (mem s) pt p = Some a -> node (mem s) pt q = Some a -> p = q;
  pt_page : forall p a, node (mem s) pt p = Some a -> ram_page s a /\ a ∉ l }.

Definition walk0 (m : gmap Z Z) (pt va : Z) : option Z :=
  match node m pt [PX 2 va; PX 1 va] with
  | Some pt0 => Some (pt0 + 8 * PX 0 va)
  | None => None
  end.

Definition pte_of (m : gmap Z Z) (pt va : Z) : Z :=
  match walk0 m pt va with Some a => load64 m a | None => 0 end.

Lemma follow_snoc m b p i :
  follow m b (p ++ [i]) =
  if idx_ok i then match follow m b p with Some c => dir_next m c i | None => None end
  else None.
Proof.
  revert b. induction p as [|j p IH]; intros b; cbn.
  - destruct (idx_ok i); [|done]. by destruct (dir_next m b i).
  - destruct (idx_ok j); [|by destruct (idx_ok i)].
    destruct (dir_next m b j); [apply IH|by destruct (idx_ok i)].
Qed.

Lemma node_snoc m pt p i :
  (length p < 2)%nat ->
  node m pt (p ++ [i]) =
  if idx_ok i then match node m pt p with Some c => dir_next m c i | None => None end
  else None.
Proof.
  intros H. unfold node. rewrite length_app, follow_snoc. cbn [length].
  destruct (Nat.leb_spec (length p + 1) 2); [|lia].
  destruct (Nat.leb_spec (length p) 2); [done|lia].
Qed.

(** ** [walk] without allocation *)

Lemma idx_ok_PX level va : 0 <= level -> idx_ok (PX level va) = true.
Proof.
  intros H. pose proof (PX_range level va H). unfold idx_ok.
  apply andb_true_intro. split; [apply Z.leb_le|apply Z.ltb_lt]; lia.
Qed.

Lemma idx_ok_range i : idx_ok i = true <-> 0 <= i < 512.
Proof. unfold idx_ok. rewrite andb_true_iff, Z.leb_le, Z.ltb_lt. done. Qed.

Lemma walk_level_noalloc va level pt e s :
  walk_level va false level pt e s = Ok (dir_next (mem s) pt (PX level va)) e s.
Proof. unfold walk_level, dir_next, loadK. kred. by destruct (flag _ _). Qed.

Lemma walk_noalloc pt va e s :
  va < MAXVA -> walk pt va false e s = Ok (default 0 (walk0 (mem s) pt va)) e s.
Proof.
  intros Hv. unfold walk, walk0, node. destruct (Z.leb_spec MAXVA va); [lia|].
  cbn [length Nat.leb follow]. rewrite !idx_ok_PX by lia.
  unfold bindK. rewrite walk_level_noalloc. destruct (dir_next _ pt _); [|done].
  rewrite walk_level_noalloc. by destruct (dir_next _ _ _).
Qed.

(** ** Slots of aligned pages *)

Lemma slot_apart b1 i1 b2 i2 :
  b1 mod PGSIZE = 0 -> b2 mod PGSIZE = 0 -> 0 <= i1 < 512 -> 0 <= i2 < 512 ->
  b1 <> b2 \/ i1 <> i2 ->
  b1 + 8 * i1 + 8 <= b2 + 8 * i2 \/ b2 + 8 * i2 + 8 <= b1 + 8 * i1.
Proof.
  intros H1 H2 Hi1 Hi2 Hne. destruct (aligned_eq_or_apart b1 b2 H1 H2) as [->|H];
    unfold PGSIZE in *; lia.
Qed.

Lemma ram_page_syms s s' a : syms s' = syms s -> ram_page s a -> ram_page s' a.
Proof. unfold ram_page. by intros ->. Qed.

Lemma ram_page_aligned s a : ram_page s a -> a mod PGSIZE = 0.
Proof. by intros [? _]. Qed.

Section AllocDir.
(** A page [x] taken from the free list is cleared and linked at slot [idx] of the
    directory page [base], which is reached along [p]. *)
Context (s : kstate) (pt : Z) (l : list Z) (x base idx : Z) (p : list Z).
Context (Hend : 0 < sym_end (syms s)).
Context (Hwf : pt_wf s pt (x :: l)) (Hx : ram_page s x) (Hxl : x ∉ l).
Context (Hp : (length p < 2)%nat) (Hbase : node (mem s) pt p = Some base).
Context (Hidx : 0 <= idx < 512) (Hfree : node (mem s) pt (p ++ [idx]) = None).

Let m := mem s.
Definition alloc_dir_mem : gmap Z Z :=
  store64 (memset (memset m x 5 PGSIZE) x 0 PGSIZE) (base + 8 * idx)
    (Z.lor (PA2PTE x) PTE_V).

Lemma node_not_x q a : node m pt q = Some a -> a <> x /\ ram_page s a.
Proof using Hwf.
  intros H. apply (pt_page _ _ _ Hwf) in H as [Hr Hn]. split; [|exact Hr].
  intros ->. apply Hn. constructor.
Qed.

Lemma base_not_x : base <> x /\ ram_page s base.
Proof. by apply (node_not_x p). Qed.

Lemma alloc_dir_rd a :
  a < x \/ x + PGSIZE <= a -> a < base + 8 * idx \/ base + 8 * idx + 8 <= a ->
  rd alloc_dir_mem a = rd m a.
Proof.
  intros H1 H2. unfold alloc_dir_mem. rewrite rd_store64_ne by lia.
  rewrite !rd_memset. case_decide; [lia|done].
Qed.

Lemma alloc_dir_slot b i :
  ram_page s b -> 0 <= i < 512 ->
  load64 alloc_dir_mem (b + 8 * i) =
  if decide (b = base /\ i = idx) then Z.lor (PA2PTE x) PTE_V
  else if decide (b = x) then 0 else load64 m (b + 8 * i).
Proof.
  intros Hb Hi. destruct base_not_x as [Hbx Hbr].
  pose proof (ram_page_aligned _ _ Hb) as Ab. pose proof (ram_page_aligned _ _ Hx) as Ax.
  pose proof (ram_page_aligned _ _ Hbr) as Abase.
  unfold alloc_dir_mem. case_decide as Hc.
  - destruct Hc as [-> ->]. rewrite load64_store64_eq. apply u64_small.
    pose proof (leaf_pte_range x 0). unfold leaf_pte in *. rewrite Z.lor_0_r in *.
    pose proof (ram_page_range _ _ Hend Hx). lia.
  - rewrite load64_store64_ne by (destruct (slot_apart b i base idx); [done..|lia|lia|lia]).
    case_decide as Hc2.
    + subst b. apply load64_memset_zero; unfold PGSIZE; lia.
    + destruct (aligned_eq_or_apart b x Ab Ax); [done|].
      rewrite !load64_memset_ne by (unfold PGSIZE in *; lia). done.
Qed.

Lemma alloc_dir_next b i :
  ram_page s b -> 0 <= i < 512 ->
  dir_next alloc_dir_mem b i =
  if decide (b = base /\ i = idx) then Some x
  else if decide (b = x) then None else dir_next m b i.
Proof.
  intros Hb Hi. unfold dir_next. rewrite alloc_dir_slot by done.
  pose proof (ram_page_range _ _ Hend Hx). case_decide.
  - rewrite PTE2PA_dir by (apply Hx || lia). unfold flag.
    rewrite Z.land_lor_distr_l, (Z.land_diag PTE_V).
    destruct (Z.eqb_spec (Z.lor (Z.land (PA2PTE x) PTE_V) PTE_V) 0) as [E|]; [|done].
    apply Z.lor_eq_0_iff in E as [_ E]. discriminate E.
  - by case_decide.
Qed.

Lemma alloc_dir_node q :
  node alloc_dir_mem pt q = if decide (q = p ++ [idx]) then Some x else node m pt q.
Proof.
  induction q as [|i q IH] using rev_ind.
  { rewrite decide_False by (by destruct p). done. }
  destruct (decide (length q < 2)%nat) as [Hq|Hq].
  2: { unfold node. rewrite length_app. cbn [length].
       destruct (Nat.leb_spec (length q + 1) 2); [lia|].
       rewrite decide_False; [done|]. intros [-> _]%app_inj_tail. lia. }
  rewrite !node_snoc, IH by done. destruct (idx_ok i) eqn:Ei.
  2: { rewrite decide_False; [done|]. intros [_ ->]%app_inj_tail.
       rewrite (proj2 (idx_ok_range idx) Hidx) in Ei. done. }
  apply idx_ok_range in Ei. case_decide as Hqp.
  - (* below the new page *)
    rewrite alloc_dir_next, decide_False, decide_True; try done;
      [|intros [E _]; destruct base_not_x; congruence].
    rewrite decide_False; [by rewrite Hqp; unfold m; rewrite Hfree|].
    intros [-> _]%app_inj_tail. apply (f_equal length) in Hqp.
    rewrite length_app in Hqp. cbn in Hqp. lia.
  - destruct (node m pt q) as [b|] eqn:Eb.
    + destruct (node_not_x _ _ Eb). rewrite alloc_dir_next by done.
      rewrite (decide_False (P := b = x)) by done.
      destruct (decide (b = base /\ i = idx)) as [[-> ->]|Hn].
      * rewrite (pt_inj _ _ _ Hwf _ _ _ Eb Hbase). by rewrite decide_True.
      * rewrite decide_False; [done|]. intros [-> ->]%app_inj_tail. apply Hn.
        split; [|done]. fold m in Hbase. congruence.
    + rewrite decide_False; [done|]. intros [-> _]%app_inj_tail.
      unfold m in Eb. congruence.
Qed.

Definition alloc_dir_st : kstate :=
  s <| freelist := load64 m x |> <| mem := alloc_dir_mem |>.

Lemma alloc_dir_wf : pt_wf alloc_dir_st pt l.
Proof.
  assert (forall q a, node alloc_dir_mem pt q = Some a ->
    (q = p ++ [idx] /\ a = x) \/ (node m pt q = Some a /\ a <> x)) as Hcase.
  { intros q a. rewrite alloc_dir_node. case_decide; [intros [= <-]; auto|].
    intros H1. right. split; [done|]. by apply node_not_x in H1 as [? _]. }
  split; cbn.
  - intros q1 q2 a H1 H2.
    destruct (Hcase _ _ H1) as [[E1 F1]|[H1' Hx1]], (Hcase _ _ H2) as [[E2 F2]|[H2' Hx2]];
      try congruence. by apply (pt_inj _ _ _ Hwf q1 q2 a).
  - intros q a H1. destruct (Hcase _ _ H1) as [[_ E]|[H1' _]].
    + rewrite E. split; [exact Hx|exact Hxl].
    + apply (pt_page _ _ _ Hwf) in H1' as [? Hn]. split; [done|]. intros Hin. apply Hn.
      by constructor.
Qed.

Lemma alloc_dir_pte va : pte_of alloc_dir_mem pt va = pte_of m pt va.
Proof.
  unfold pte_of, walk0. rewrite alloc_dir_node.
  pose proof (PX_range 0 va) as H0. case_decide as Hc.
  - unfold m at 1. rewrite Hc, Hfree. rewrite alloc_dir_slot by (done || lia).
    destruct base_not_x. by rewrite decide_False, decide_True by naive_solver.
  - destruct (node m pt _) as [pt0|] eqn:E0; [|done]. destruct (node_not_x _ _ E0).
    rewrite alloc_dir_slot by (done || lia). rewrite decide_False; [by rewrite decide_False|].
    intros [-> _]. pose proof (pt_inj _ _ _ Hwf _ _ _ E0 Hbase) as E.
    rewrite <- E in Hp. cbn in Hp. lia.
Qed.

Lemma alloc_dir_kmem : kmem_ok s (x :: l) -> kmem_ok alloc_dir_st l.
Proof.
  intros [_ [Hfx Hl] Hnd Hpg]. apply NoDup_cons in Hnd as [Hni Hnd].
  apply Forall_cons in Hpg as [_ Hpg]. split; cbn; [done| |done|done].
  apply (flist_ext m); [|done]. intros y Hy. apply load64_ext. intros b Hb.
  rewrite Forall_forall in Hpg. destruct (Hpg y Hy) as [Ay _].
  destruct base_not_x as [_ [Ab _]]. destruct Hx as [Ax _].
  assert (y <> base).
  { intros ->. apply (pt_page _ _ _ Hwf) in Hbase as [_ Hn]. apply Hn. by constructor. }
  apply alloc_dir_rd.
  - destruct (aligned_eq_or_apart y x Ay Ax) as [->|]; [done|]. unfold PGSIZE in *. lia.
  - destruct (aligned_eq_or_apart y base Ay Ab) as [->|]; [done|]. unfold PGSIZE in *. lia.
Qed.
End AllocDir.

(** ** What an operation that may add directory pages preserves *)

Definition outside (a b : Z) : Prop := a < b \/ b + PGSIZE <= a.

(** [u] holds the leaf entries that were written; [page_va] are the addresses that name a
    user page. *)
Definition page_va (va : Z) : Prop := 0 <= va < MAXVA /\ va mod PGSIZE = 0.

Record vm_ext (s s' : kstate) (pt : Z) (l l' : list Z) (u : gmap Z Z) : Prop := {
  ext_frame : vm_frame s s';
  ext_kmem : kmem_ok s' l';
  ext_wf : pt_wf s' pt l';
  ext_suffix : exists u, l = u ++ l';
  ext_node : forall q a, node (mem s) pt q = Some a -> node (mem s') pt q = Some a;
  ext_new : forall q a, node (mem s') pt q = Some a -> node (mem s) pt q = Some a \/ a ∈ l;
  ext_pte : forall va, page_va va ->
    pte_of (mem s') pt va = default (pte_of (mem s) pt va) (u !! va);
  ext_mem : forall a, (forall x, x ∈ l -> outside a x) ->
    (forall q b, node (mem s) pt q = Some b -> outside a b) -> rd (mem s') a = rd (mem s) a;
  ext_taken : forall x, x ∈ l -> x ∈ l' \/ exists q, node (mem s') pt q = Some x }.

Lemma vm_ext_refl s pt l : kmem_ok s l -> pt_wf s pt l -> vm_ext s s pt l l ∅.
Proof. intros. split; auto. by exists []. Qed.

Lemma vm_ext_trans s1 s2 s3 pt l1 l2 l3 u1 u2 :
  vm_ext s1 s2 pt l1 l2 u1 -> vm_ext s2 s3 pt l2 l3 u2 -> vm_ext s1 s3 pt l1 l3 (u2 ∪ u1).
Proof.
  intros H12 H23. destruct (ext_suffix _ _ _ _ _ _ H12) as [v1 ->].
  destruct (ext_suffix _ _ _ _ _ _ H23) as [v2 ->]. split.
  - eapply vm_frame_trans; [apply H12|apply H23].
  - apply H23.
  - apply H23.
  - exists (v1 ++ v2). by rewrite app_assoc.
  - intros q a Hq. by apply (ext_node _ _ _ _ _ _ H23), (ext_node _ _ _ _ _ _ H12).
  - intros q a Hq. apply (ext_new _ _ _ _ _ _ H23) in Hq as [Hq|Hq]; [|set_solver].
    by apply (ext_new _ _ _ _ _ _ H12) in Hq.
  - intros va Hva. rewrite (ext_pte _ _ _ _ _ _ H23), (ext_pte _ _ _ _ _ _ H12) by done.
    rewrite lookup_union. by destruct (u2 !! va), (u1 !! va).
  - intros a Ha Hn. rewrite (ext_mem _ _ _ _ _ _ H23); [by apply (ext_mem _ _ _ _ _ _ H12)| |].
    + intros x Hx. apply Ha. set_solver.
    + intros q b Hb. apply (ext_new _ _ _ _ _ _ H12) in Hb as [Hb|Hb]; [by eapply Hn|auto].
  - intros x Hx. apply (ext_taken _ _ _ _ _ _ H12) in Hx as [Hx|[q Hq]].
    + by apply (ext_taken _ _ _ _ _ _ H23) in Hx.
    + right. exists q. by apply (ext_node _ _ _ _ _ _ H23).
Qed.

Lemma vm_ext_trans_l s1 s2 s3 pt l1 l2 l3 u :
  vm_ext s1 s2 pt l1 l2 ∅ -> vm_ext s2 s3 pt l2 l3 u -> vm_ext s1 s3 pt l1 l3 u.
Proof. intros H1 H2. rewrite <- (right_id_L ∅ (∪) u). by eapply vm_ext_trans. Qed.

(** ** [walk] with allocation *)

Lemma walk_level_alloc va level pt p base l e s :
  0 <= level -> kmem_ok s l -> pt_wf s pt l -> L_kmem ∉ held s ->
  (length p < 2)%nat -> node (mem s) pt p = Some base ->
  exists r l' s', walk_level va true level base e s = Ok r e s' /\ vm_ext s s' pt l l' ∅ /\
    match r with
    | Some c => node (mem s') pt (p ++ [PX level va]) = Some c
    | None => l' = [] /\ s' = s
    end.
Proof.
  intros Hlv Hk Hwf Hh Hp Hb. unfold walk_level, loadK, storeK, memsetK.
  pose proof (PX_range level va Hlv) as Hi.
  assert (node (mem s) pt (p ++ [PX level va]) = dir_next (mem s) base (PX level va)) as Hn.
  { rewrite node_snoc, idx_ok_PX, Hb by done. done. }
  unfold dir_next in Hn. kred.
  destruct (flag (load64 (mem s) (base + 8 * PX level va)) PTE_V) eqn:Ev.
  { do 3 eexists. split; [done|]. split; [by apply vm_ext_refl|done]. }
  cbn [negb]. destruct l as [|x l].
  { rewrite kalloc_empty by done. cbn. do 3 eexists. split; [done|].
    split; [by apply vm_ext_refl|done]. }
  rewrite (kalloc_run x l) by done.
  pose proof (kmem_end _ _ Hk) as He. pose proof (kmem_nodup _ _ Hk) as Hnd.
  pose proof (kmem_pages _ _ Hk) as Hpg. apply Forall_cons in Hpg as [Hx Hpg].
  apply NoDup_cons in Hnd as [Hxl Hnd].
  destruct (Z.eqb_spec x 0) as [->|_]; [pose proof (ram_page_range _ _ He Hx); lia|].
  cbn beta iota. exists (Some x), l, (alloc_dir_st s x base (PX level va)).
  split; [unfold alloc_dir_st, alloc_dir_mem; f_equal; rec_eq|].
  assert (forall q, node (alloc_dir_mem s x base (PX level va)) pt q =
    if decide (q = p ++ [PX level va]) then Some x else node (mem s) pt q) as Hnode
    by (by apply (alloc_dir_node _ _ l)).
  split; [split|].
  - by do 2 eexists.
  - by apply (alloc_dir_kmem _ pt _ _ _ _ p).
  - by apply (alloc_dir_wf _ _ _ _ _ _ p).
  - by exists [x].
  - intros q a Hq. cbn. rewrite Hnode. case_decide; [congruence|done].
  - intros q a. cbn. rewrite Hnode. case_decide; [intros [= <-]; right; constructor|auto].
  - intros va' _. cbn. rewrite lookup_empty. by apply (alloc_dir_pte _ _ l _ _ _ p).
  - intros a Ha Hq. cbn. eapply alloc_dir_rd; eauto; [apply Ha; constructor|].
    specialize (Hq _ _ Hb). unfold outside, PGSIZE in *. lia.
  - intros y [->|Hy]%elem_of_cons; [|by left]. right. exists (p ++ [PX level va]). cbn. by rewrite Hnode, decide_True.
  - cbn. rewrite Hnode. by rewrite decide_True.
Qed.

Lemma walk_alloc pt va l e s :
  va < MAXVA -> kmem_ok s l -> pt_wf s pt l -> L_kmem ∉ held s ->
  exists r l' s', walk pt va true e s = Ok r e s' /\ vm_ext s s' pt l l' ∅ /\
    ((r = 0 /\ l' = []) \/ (0 < r /\ walk0 (mem s') pt va = Some r)).
Proof.
  intros Hv Hk Hwf Hh. unfold walk. destruct (Z.leb_spec MAXVA va); [lia|].
  destruct (walk_level_alloc va 2 pt [] pt l e s) as (r2 & l2 & s2 & Hr2 & H2 & Hc2);
    try done; [cbn; lia|].
  rewrite (bindK_Ok _ _ _ _ _ _ _ Hr2). destruct r2 as [pt1|]; cbn [app] in Hc2.
  2: { destruct Hc2 as [-> ->]. do 3 eexists. split; [done|]. split; [exact H2|]. by left. }
  destruct (walk_level_alloc va 1 pt [PX 2 va] pt1 l2 e s2) as (r1 & l1 & s1 & Hr1 & H1 & Hc1);
    [lia|apply H2|apply H2| |cbn; lia|exact Hc2|].
  { by rewrite (vm_frame_held _ _ (ext_frame _ _ _ _ _ _ H2)). }
  rewrite (bindK_Ok _ _ _ _ _ _ _ Hr1). destruct r1 as [pt0|]; cbn [app] in Hc1.
  - do 3 eexists. split; [done|]. split; [by eapply vm_ext_trans_l|]. right.
    unfold walk0. rewrite Hc1. split; [|done].
    destruct (pt_page _ _ _ (ext_wf _ _ _ _ _ _ H1) _ _ Hc1) as [Hr0 _].
    pose proof (ram_page_range _ _ (kmem_end _ _ (ext_kmem _ _ _ _ _ _ H1)) Hr0).
    pose proof (PX_range 0 va). lia.
  - destruct Hc1 as [-> ->]. do 3 eexists. split; [done|].
    split; [by eapply vm_ext_trans_l|]. by left.
Qed.

(** ** Writing a leaf entry *)

Section SetLeaf.
Context (s : kstate) (pt : Z) (l : list Z) (va A v : Z).
Context (Hwf : pt_wf s pt l) (Hva : page_va va) (HA : walk0 (mem s) pt va = Some A).

Definition set_leaf_st : kstate := s <| mem := store64 (mem s) A v |>.

Lemma leaf_slot : exists pt0, node (mem s) pt [PX 2 va; PX 1 va] = Some pt0 /\
  A = pt0 + 8 * PX 0 va /\ ram_page s pt0 /\ pt0 ∉ l.
Proof.
  unfold walk0 in HA. destruct (node _ pt _) as [pt0|] eqn:E; [|done].
  injection HA as <-. exists pt0. split; [done|]. split; [done|].
  by apply (pt_page _ _ _ Hwf) in E.
Qed.

Lemma set_leaf_node q : node (mem set_leaf_st) pt q = node (mem s) pt q.
Proof.
  destruct leaf_slot as (pt0 & Hpt0 & E & Hr0 & _).
  induction q as [|i q IH] using rev_ind; [done|].
  destruct (decide (length q < 2)%nat) as [Hq|Hq].
  2: { unfold node. rewrite length_app. cbn [length].
       by destruct (Nat.leb_spec (length q + 1) 2); [lia|]. }
  rewrite !node_snoc, IH by done. destruct (idx_ok i) eqn:Ei; [|done].
  apply idx_ok_range in Ei. destruct (node (mem s) pt q) as [b|] eqn:Eb; [|done].
  unfold dir_next. cbn. rewrite load64_store64_ne; [done|]. rewrite E.
  apply (pt_page _ _ _ Hwf) in Eb as Hb. destruct Hb as [[Ab _] _].
  apply slot_apart; [done|apply Hr0|done|apply PX_range; lia|]. left. intros ->.
  pose proof (pt_inj _ _ _ Hwf _ _ _ Eb Hpt0) as ->. cbn in Hq. lia.
Qed.

Lemma set_leaf_pte va' : page_va va' ->
  pte_of (mem set_leaf_st) pt va' = if decide (va' = va) then u64 v else pte_of (mem s) pt va'.
Proof.
  intros Hva'. unfold pte_of, walk0. rewrite set_leaf_node.
  destruct leaf_slot as (pt0 & Hpt0 & E & Hr0 & _). case_decide as Hc.
  - subst va'. rewrite Hpt0. cbn. rewrite E. apply load64_store64_eq.
  - destruct (node (mem s) pt [PX 2 va'; PX 1 va']) as [b|] eqn:Eb; [|done]. cbn.
    apply load64_store64_ne. rewrite E.
    apply (pt_page _ _ _ Hwf) in Eb as Hb. destruct Hb as [[Ab _] _].
    apply slot_apart; [done|apply Hr0|apply PX_range; lia|apply PX_range; lia|].
    destruct (decide (b = pt0)) as [->|]; [right|by left]. intros E0. apply Hc.
    pose proof (pt_inj _ _ _ Hwf _ _ _ Eb Hpt0) as [= E2 E1].
    destruct Hva, Hva'. by apply PX_inj.
Qed.

Lemma set_leaf_ext : kmem_ok s l -> vm_ext s set_leaf_st pt l l {[va := u64 v]}.
Proof.
  intros Hk. destruct leaf_slot as (pt0 & Hpt0 & E & Hr0 & Hl0). split.
  - by exists (store64 (mem s) A v), (freelist s).
  - destruct Hk as [He Hl Hnd Hpg]. split; cbn; [done| |done|done].
    apply (flist_ext (mem s)); [|done]. intros y Hy. apply load64_store64_ne.
    rewrite Forall_forall in Hpg. destruct (Hpg y Hy) as [Ay _].
    rewrite <- (Z.add_0_r y). change 0 with (8 * 0) at 1. rewrite E.
    pose proof (PX_range 0 va). destruct (slot_apart y 0 pt0 (PX 0 va)); try lia; try done.
    + apply Hr0.
    + left. by intros ->.
  - split; intros *; rewrite ?set_leaf_node; apply Hwf.
  - by exists [].
  - intros q a. by rewrite set_leaf_node.
  - intros q a. rewrite set_leaf_node. auto.
  - intros va' Hva'. rewrite set_leaf_pte by done. rewrite lookup_singleton.
    repeat case_decide; done || congruence.
  - intros a _ Hn. cbn. apply rd_store64_ne. specialize (Hn _ _ Hpt0).
    pose proof (PX_range 0 va). unfold outside, PGSIZE in *. lia.
  - auto.
Qed.
End SetLeaf.

(** ** [mappages] *)

Fixpoint leafmap (a pa perm : Z) (n : nat) : gmap Z Z :=
  match n with
  | O => ∅
  | S k => <[a := leaf_pte pa perm]> (leafmap (a + PGSIZE) (pa + PGSIZE) perm k)
  end.

Lemma lookup_leafmap_lt a pa perm n va : va < a -> leafmap a pa perm n !! va = None.
Proof.
  revert a pa. induction n as [|n IH]; intros a pa H; cbn; [apply lookup_empty|].
  rewrite lookup_insert_ne by lia. apply IH. unfold PGSIZE. lia.
Qed.

Lemma lookup_leafmap a pa perm n i :
  0 <= i < Z.of_nat n ->
  leafmap a pa perm n !! (a + PGSIZE * i) = Some (leaf_pte (pa + PGSIZE * i) perm).
Proof.
  revert a pa i. induction n as [|n IH]; intros a pa i Hi; [lia|]. cbn.
  destruct (decide (i = 0)) as [->|].
  - rewrite !Z.mul_0_r, !Z.add_0_r. by rewrite lookup_insert_eq.
  - rewrite lookup_insert_ne by (unfold PGSIZE; lia).
    replace (a + PGSIZE * i) with (a + PGSIZE + PGSIZE * (i - 1)) by lia.
    replace (pa + PGSIZE * i) with (pa + PGSIZE + PGSIZE * (i - 1)) by lia.
    apply IH. lia.
Qed.

Lemma lookup_leafmap_inv a pa perm n va v :
  leafmap a pa perm n !! va = Some v ->
  exists i, 0 <= i < Z.of_nat n /\ va = a + PGSIZE * i /\ v = leaf_pte (pa + PGSIZE * i) perm.
Proof.
  revert a pa. induction n as [|n IH]; intros a pa; cbn; [by rewrite lookup_empty|].
  rewrite lookup_insert. case_decide as H; [intros [= <-]; exists 0|].
  - rewrite !Z.mul_0_r, !Z.add_0_r. split; [lia|done].
  - intros (i & Hi & -> & ->)%IH. exists (i + 1). split; [lia|]. split; [lia|]. f_equal. lia.
Qed.

Lemma leafmap_cons a pa perm n :
  leafmap (a + PGSIZE) (pa + PGSIZE) perm n ∪ {[a := leaf_pte pa perm]} =
  leafmap a pa perm (S n).
Proof.
  cbn. rewrite map_union_comm; [by rewrite <- insert_union_singleton_l|].
  apply map_disjoint_singleton_r_2. apply lookup_leafmap_lt. unfold PGSIZE. lia.
Qed.

(** One page: the body of [mappages]'s loop. *)
Lemma mappages_body_spec pt perm last a pa l e s :
  page_va a -> kmem_ok s l -> pt_wf s pt l -> L_kmem ∉ held s ->
  0 <= pa < 2 ^ 56 -> 0 <= perm < 1024 ->
  flag (pte_of (mem s) pt a) PTE_V = false ->
  exists r l' s', mappages_body pt perm last (a, pa) e s = Ok r e s' /\
    ((r = inr (-1) /\ l' = [] /\ vm_ext s s' pt l l' ∅) \/
     (r = (if a =? last then inr 0 else inl (u64 (a + PGSIZE), u64 (pa + PGSIZE))) /\
      vm_ext s s' pt l l' {[a := leaf_pte pa perm]})).
Proof.
  intros Ha Hk Hwf Hh Hpa Hperm Hnv. unfold mappages_body, loadK, storeK.
  destruct (walk_alloc pt a l e s) as (r & l1 & s1 & Hr & H1 & Hc); try done; [apply Ha|].
  rewrite (bindK_Ok _ _ _ _ _ _ _ Hr). destruct Hc as [[-> ->]|[Hr0 HA]].
  - do 3 eexists. split; [done|]. by left.
  - destruct (Z.eqb_spec r 0); [lia|]. kred.
    assert (load64 (mem s1) r = pte_of (mem s) pt a) as ->.
    { pose proof (ext_pte _ _ _ _ _ _ H1 a Ha) as E. rewrite lookup_empty in E. cbn in E.
      rewrite <- E. unfold pte_of. by rewrite HA. }
    rewrite Hnv. pose proof (leaf_pte_range pa perm Hpa Hperm).
    pose proof (set_leaf_ext s1 pt l1 a r (leaf_pte pa perm) (ext_wf _ _ _ _ _ _ H1) Ha HA
      (ext_kmem _ _ _ _ _ _ H1)) as H2. rewrite u64_small in H2 by lia.
    exists (if a =? last then inr 0 else inl (u64 (a + PGSIZE), u64 (pa + PGSIZE))), l1,
      (set_leaf_st s1 r (leaf_pte pa perm)). split.
    + unfold set_leaf_st, leaf_pte. by destruct (a =? last).
    + right. split; [done|]. by eapply vm_ext_trans_l.
Qed.

Lemma mappages_loop n pt perm a pa l e s :
  (0 < n)%nat -> page_va a -> a + PGSIZE * (Z.of_nat n - 1) < MAXVA ->
  kmem_ok s l -> pt_wf s pt l -> L_kmem ∉ held s ->
  0 <= pa -> pa + PGSIZE * Z.of_nat n <= 2 ^ 56 -> 0 <= perm < 1024 ->
  (forall i, 0 <= i < Z.of_nat n -> flag (pte_of (mem s) pt (a + PGSIZE * i)) PTE_V = false) ->
  exists r k l' s',
    whileK n (mappages_body pt perm (a + PGSIZE * (Z.of_nat n - 1))) (a, pa) e s = Ok r e s' /\
    vm_ext s s' pt l l' (leafmap a pa perm k) /\
    ((r = 0 /\ k = n) \/ (r = -1 /\ (k < n)%nat /\ l' = [])).
Proof.
  revert a pa l s. induction n as [|n IH]; intros a pa l s Hn Ha Hlast Hk Hwf Hh Hpa Hpn Hperm Hnv;
    [lia|]. cbn [whileK].
  destruct (mappages_body_spec pt perm (a + PGSIZE * (Z.of_nat (S n) - 1)) a pa l e s)
    as (r & l1 & s1 & Hr & Hc); try done.
  { clear Hnv. split; [done|]. unfold PGSIZE in *. rewrite Nat2Z.inj_succ in Hpn. nia. }
  { specialize (Hnv 0 ltac:(lia)). by rewrite Z.mul_0_r, Z.add_0_r in Hnv. }
  rewrite (bindK_Ok _ _ _ _ _ _ _ Hr). destruct Hc as [(-> & -> & H1)|[-> H1]].
  { exists (-1), 0%nat. do 2 eexists. split; [done|]. split; [exact H1|]. right. auto with lia. }
  destruct (Z.eqb_spec a (a + PGSIZE * (Z.of_nat (S n) - 1))) as [Heq|Hne].
  { assert (n = 0%nat) as -> by (unfold PGSIZE in *; lia). exists 0, 1%nat. do 2 eexists.
    split; [done|]. split; [|by left]. cbn. by rewrite insert_empty. }
  unfold page_va, PGSIZE in *. change MAXVA with (2 ^ 38) in *. assert (0 < n)%nat by lia.
  rewrite !u64_small by lia.
  destruct (IH (a + 4096) (pa + 4096) l1 s1) as (r & k & l2 & s2 & Hr2 & H2 & Hc2); try done.
  - split; [lia|]. apply next_page_aligned, Ha.
  - lia.
  - apply H1.
  - apply H1.
  - by rewrite (vm_frame_held _ _ (ext_frame _ _ _ _ _ _ H1)).
  - lia.
  - lia.
  - intros i Hi. rewrite (ext_pte _ _ _ _ _ _ H1); [|split; [change MAXVA with (2 ^ 38); lia|]].
    + rewrite lookup_singleton_ne by lia. cbn.
      replace (a + 4096 + 4096 * i) with (a + 4096 * (i + 1)) by lia. apply Hnv. lia.
    + unfold PGSIZE. rewrite <- Z.add_assoc, <- (Z.mul_1_r 4096) at 1.
      rewrite <- Z.mul_add_distr_l, Z.mul_comm, Z.mod_add by lia. apply Ha.
  - exists r, (S k), l2, s2. split; [|split].
    + replace (a + 4096 * (Z.of_nat (S n) - 1)) with (a + 4096 + 4096 * (Z.of_nat n - 1)) by lia.
      exact Hr2.
    + rewrite <- leafmap_cons. by eapply vm_ext_trans.
    + destruct Hc2 as [[-> ->]|(-> & Hk2 & ->)]; [by left|]. right. auto with lia.
Qed.

(** [mappages] on the pages that [va, va + size) touches: it returns 0 with exactly those
    leaf entries written, or -1 when the free list ran out. *)
Definition page_count (va size : Z) : nat :=
  Z.to_nat ((PGROUNDDOWN (va + size - 1) - PGROUNDDOWN va) / PGSIZE + 1).

Lemma mappages_spec pt va size pa perm l e s :
  0 <= va -> 0 < size -> va + size <= MAXVA ->
  kmem_ok s l -> pt_wf s pt l -> L_kmem ∉ held s ->
  0 <= pa -> pa + PGSIZE * Z.of_nat (page_count va size) <= 2 ^ 56 -> 0 <= perm < 1024 ->
  (forall i, 0 <= i < Z.of_nat (page_count va size) ->
     flag (pte_of (mem s) pt (PGROUNDDOWN va + PGSIZE * i)) PTE_V = false) ->
  exists r k l' s', mappages pt va size pa perm e s = Ok r e s' /\
    vm_ext s s' pt l l' (leafmap (PGROUNDDOWN va) pa perm k) /\
    ((r = 0 /\ k = page_count va size) \/ (r = -1 /\ (k < page_count va size)%nat /\ l' = [])).
Proof.
  intros Hva Hsz Hmax Hk Hwf Hh Hpa Hpn Hperm Hnv. unfold mappages.
  change MAXVA with (2 ^ 38) in *. rewrite u64_small by lia.
  pose proof (PGROUNDDOWN_bounds va). pose proof (PGROUNDDOWN_bounds (va + size - 1)).
  pose proof (PGROUNDDOWN_aligned va) as Ha. rewrite (PGROUNDDOWN_div va) in *.
  rewrite (PGROUNDDOWN_div (va + size - 1)) in *.
  assert (va / PGSIZE <= (va + size - 1) / PGSIZE) by (apply Z.div_le_mono; unfold PGSIZE; lia).
  assert (page_count va size = Z.to_nat ((va + size - 1) / PGSIZE - va / PGSIZE + 1)) as Hc.
  { unfold page_count. rewrite !PGROUNDDOWN_div, <- Z.mul_sub_distr_l, Z.mul_comm.
    by rewrite Z.div_mul. }
  destruct (Z.leb_spec (PGSIZE * (va / PGSIZE)) (PGSIZE * ((va + size - 1) / PGSIZE)));
    [|unfold PGSIZE in *; lia].
  rewrite <- Z.mul_sub_distr_l, (Z.mul_comm PGSIZE (_ - _)), Z.div_mul, <- Hc by done.
  replace (PGSIZE * ((va + size - 1) / PGSIZE))
    with (PGSIZE * (va / PGSIZE) + PGSIZE * (Z.of_nat (page_count va size) - 1))
    by (rewrite Hc; lia).
  assert (0 <= va / PGSIZE) by (apply Z.div_pos; unfold PGSIZE; lia).
  apply mappages_loop; try done.
  - lia.
  - split; [|done]. change MAXVA with (2 ^ 38). unfold PGSIZE in *. lia.
  - change MAXVA with (2 ^ 38). unfold PGSIZE in *. lia.
Qed.

(** ** [walkaddr] is the lookup of a user page in the table *)

Definition user_page (m : gmap Z Z) (pt va : Z) : Z :=
  let v := pte_of m pt va in
  if flag v PTE_V && flag v PTE_U then PTE2PA v else 0.

Lemma walkaddr_spec pt va l e s :
  0 <= va < MAXVA -> 0 < sym_end (syms s) -> pt_wf s pt l ->
  walkaddr pt va e s = Ok (user_page (mem s) pt va) e s.
Proof.
  intros Hva He Hwf. unfold walkaddr, user_page, pte_of, loadK.
  destruct (Z.leb_spec MAXVA va); [lia|].
  rewrite (bindK_Ok _ _ _ _ _ _ _ (walk_noalloc pt va e s ltac:(lia))).
  destruct (walk0 (mem s) pt va) as [A|] eqn:E; cbn [default from_option id].
  - assert (0 < A).
    { unfold walk0 in E. destruct (node _ pt _) as [b|] eqn:Eb; [|done]. injection E as <-.
      apply (pt_page _ _ _ Hwf) in Eb as [Hb _]. pose proof (ram_page_range _ _ He Hb).
      pose proof (PX_range 0 va). lia. }
    destruct (Z.eqb_spec A 0); [lia|]. kred.
    by destruct (flag _ PTE_V), (flag _ PTE_U).
  - reflexivity.
Qed.

Lemma flag_leaf_V pa perm :
  0 <= pa < 2 ^ 56 -> 0 <= perm < 1024 -> flag (leaf_pte pa perm) PTE_V = true.
Proof.
  intros Hpa Hp. unfold flag. rewrite flags_land, PTE_FLAGS_leaf by (done || unfold PTE_V; lia).
  rewrite Z.land_lor_distr_l, Z.land_diag.
  destruct (Z.eqb_spec (Z.lor (Z.land perm PTE_V) PTE_V) 0) as [E|]; [|done].
  apply Z.lor_eq_0_iff in E as [_ E]. discriminate E.
Qed.

Lemma flag_leaf_U pa perm :
  0 <= pa < 2 ^ 56 -> 0 <= perm < 1024 -> flag (leaf_pte pa perm) PTE_U = flag perm PTE_U.
Proof.
  intros Hpa Hp. unfold flag. rewrite flags_land, PTE_FLAGS_leaf by (done || unfold PTE_U; lia).
  by rewrite Z.land_lor_distr_l, Z.lor_0_r.
Qed.

Lemma user_page_leaf m pt va pa perm :
  pte_of m pt va = leaf_pte pa perm -> 0 <= pa < 2 ^ 56 -> pa mod PGSIZE = 0 ->
  0 <= perm < 1024 -> flag perm PTE_U = true -> user_page m pt va = pa.
Proof.
  intros E Hpa Ha Hp Hu. unfold user_page. rewrite E, flag_leaf_V, flag_leaf_U, Hu by done.
  by apply PTE2PA_leaf.
Qed.
