(* ===== verification/Copy.v ===== *)
(** * Copying between kernel buffers and user memory: [copyin] and [copyout] of vm.c

    [upa m pt va] is the physical address of the user byte at [va], when the process can
    access it.  [copyin] reads exactly those bytes or reports an error, and no user
    address makes it panic; what [copyout] wrote, [copyin] reads back. *)

From stdpp Require Import base numbers list gmap strings.
From S2P Require Import Prelude Mem Types Kernel Riscv Kalloc Vm VmFacts.

Definition upa (m : gmap Z Z) (pt va : Z) : option Z :=
  if (0 <=? va) && (va <? MAXVA) then
    let pa := user_page m pt (PGROUNDDOWN va) in
    if pa =? 0 then None else Some (pa + (va - PGROUNDDOWN va))
  else None.

Definition mapped (m : gmap Z Z) (pt va : Z) (n : nat) : Prop :=
  forall i, 0 <= i < Z.of_nat n -> is_Some (upa m pt (va + i)).

Definition ubyte (m : gmap Z Z) (pt va : Z) : Z :=
  match upa m pt va with Some a => rd m a | None => 0 end.

Fixpoint ubytes (m : gmap Z Z) (pt va : Z) (n : nat) : list Z :=
  match n with
  | O => []
  | S k => ubyte m pt va :: ubytes m pt (va + 1) k
  end.

(** ** Within one page *)

Lemma PGROUNDDOWN_same va i :
  0 <= i -> va + i < PGROUNDDOWN va + PGSIZE -> PGROUNDDOWN (va + i) = PGROUNDDOWN va.
Proof.
  intros Hi Hlt. pose proof (PGROUNDDOWN_bounds va). rewrite !PGROUNDDOWN_div in *.
  f_equal. unfold PGSIZE in *. symmetry. apply (Z.div_unique_pos _ _ _ (va + i - 4096 * (va / 4096)));
  lia.
Qed.

Lemma PGROUNDDOWN_page_va va : 0 <= va < MAXVA -> page_va (PGROUNDDOWN va).
Proof.
  intros H. split; [|apply PGROUNDDOWN_aligned]. pose proof (PGROUNDDOWN_bounds va).
  rewrite PGROUNDDOWN_div in *. assert (0 <= va / PGSIZE) by (apply Z.div_pos; unfold PGSIZE; lia).
  unfold PGSIZE in *. lia.
Qed.

Lemma upa_in_page m pt va i :
  0 <= va < MAXVA -> 0 <= i -> va + i < PGROUNDDOWN va + PGSIZE ->
  upa m pt (va + i) =
  if user_page m pt (PGROUNDDOWN va) =? 0 then None
  else Some (user_page m pt (PGROUNDDOWN va) + (va - PGROUNDDOWN va) + i).
Proof.
  intros Hva Hi Hlt. unfold upa. rewrite PGROUNDDOWN_same by done.
  assert (PGROUNDDOWN va + PGSIZE <= MAXVA) as Hm.
  { pose proof (PGROUNDDOWN_page_va va Hva) as [? Ha].
    destruct (aligned_eq_or_apart (PGROUNDDOWN va) MAXVA Ha eq_refl); unfold PGSIZE in *; lia. }
  destruct (Z.leb_spec 0 (va + i)); [|lia]. destruct (Z.ltb_spec (va + i) MAXVA); [|lia].
  cbn [andb]. destruct (_ =? 0); [done|]. f_equal. lia.
Qed.

Lemma rd_list_ubytes m pt va i n :
  0 <= va < MAXVA -> 0 <= i -> va + i + Z.of_nat n <= PGROUNDDOWN va + PGSIZE ->
  user_page m pt (PGROUNDDOWN va) <> 0 ->
  rd_list m (user_page m pt (PGROUNDDOWN va) + (va - PGROUNDDOWN va) + i) n =
  ubytes m pt (va + i) n.
Proof.
  intros Hva Hi Hlt Hp. revert i Hi Hlt. induction n as [|n IH]; intros i Hi Hlt; [done|].
  cbn [rd_list ubytes]. unfold ubyte at 1. rewrite upa_in_page by lia.
  destruct (Z.eqb_spec (user_page m pt (PGROUNDDOWN va)) 0); [done|]. f_equal.
  rewrite <- (Z.add_assoc va), <- IH by lia. f_equal. lia.
Qed.

Lemma ubytes_app m pt va n k :
  ubytes m pt va (n + k) = ubytes m pt va n ++ ubytes m pt (va + Z.of_nat n) k.
Proof.
  revert va. induction n as [|n IH]; intros va; cbn [ubytes app Nat.add].
  - by rewrite Z.add_0_r.
  - f_equal. rewrite IH. do 2 f_equal. lia.
Qed.

Lemma ubytes_length m pt va n : length (ubytes m pt va n) = n.
Proof. revert va. induction n; intros; cbn; auto. Qed.

Lemma upa_ge_MAXVA m pt va : MAXVA <= va -> upa m pt va = None.
Proof.
  intros. unfold upa. destruct (Z.ltb_spec va MAXVA); [lia|]. by rewrite andb_false_r.
Qed.

(** ** [copyin] *)

Lemma walkaddr_any pt va l e s :
  0 <= va -> 0 < sym_end (syms s) -> pt_wf s pt l ->
  walkaddr pt (PGROUNDDOWN va) e s =
  Ok (if va <? MAXVA then user_page (mem s) pt (PGROUNDDOWN va) else 0) e s.
Proof.
  intros Hva He Hwf. destruct (Z.ltb_spec va MAXVA).
  - eapply walkaddr_spec; [|done|done]. by apply PGROUNDDOWN_page_va.
  - unfold walkaddr. pose proof (PGROUNDDOWN_bounds va).
    destruct (Z.leb_spec MAXVA (PGROUNDDOWN va)); [done|].
    pose proof (PGROUNDDOWN_aligned va) as Ha.
    destruct (aligned_eq_or_apart (PGROUNDDOWN va) MAXVA Ha eq_refl); unfold PGSIZE in *; lia.
Qed.

Lemma copyin_loop fuel len va dst pt l e s :
  (len < fuel)%nat -> 0 <= va -> 0 < sym_end (syms s) -> pt_wf s pt l ->
  exists r bs, whileK fuel (copyin_body pt) (va, len, dst) e s = Ok (r, dst ++ bs) e s /\
    ((r = 0 /\ bs = ubytes (mem s) pt va len /\ mapped (mem s) pt va len) \/
     (r = -1 /\ ~ mapped (mem s) pt va len)).
Proof.
  revert len va dst. induction fuel as [|fuel IH]; intros len va dst Hf Hva He Hwf; [lia|].
  cbn [whileK]. unfold copyin_body at 1. destruct len as [|len].
  { exists 0, []. rewrite app_nil_r. split; [done|]. left. split; [done|]. split; [done|].
    intros i Hi. lia. }
  unfold bindK. rewrite (walkaddr_any _ _ l) by done.
  assert (upa (mem s) pt (va + 0) =
    if (if va <? MAXVA then user_page (mem s) pt (PGROUNDDOWN va) else 0) =? 0 then None
    else Some (user_page (mem s) pt (PGROUNDDOWN va) + (va - PGROUNDDOWN va) + 0)) as Hu.
  { destruct (Z.ltb_spec va MAXVA); [|rewrite upa_ge_MAXVA by lia; done].
    apply upa_in_page; [lia|lia|]. pose proof (PGROUNDDOWN_bounds va). lia. }
  destruct (Z.eqb_spec (if va <? MAXVA then user_page (mem s) pt (PGROUNDDOWN va) else 0) 0).
  { exists (-1), []. rewrite app_nil_r. split; [done|]. right. split; [done|]. intros Hm.
    destruct (Hm 0 ltac:(lia)) as [x Hx]. congruence. }
  destruct (Z.ltb_spec va MAXVA) as [Hlt|]; [|done].
  pose proof (PGROUNDDOWN_bounds va) as Hb. kred.
  set (k := Nat.min (Z.to_nat (PGSIZE - (va - PGROUNDDOWN va))) (S len)).
  assert (0 < k <= S len)%nat as Hk by lia.
  pose proof (rd_list_ubytes (mem s) pt va 0 k ltac:(lia) ltac:(lia) ltac:(lia) ltac:(done)) as Hrd.
  rewrite !Z.add_0_r in Hrd. rewrite Hrd.
  assert (mapped (mem s) pt va k) as Hmk.
  { intros i Hi. rewrite upa_in_page by lia. destruct (Z.eqb_spec (user_page (mem s) pt (PGROUNDDOWN va)) 0);
      [done|eauto]. }
  rewrite u64_small by (change MAXVA with (2 ^ 38) in *; unfold PGSIZE in *; lia).
  destruct (decide (k = S len)) as [Hall|Hpart].
  - (* the rest of the buffer lies in this page *)
    rewrite Hall, Nat.sub_diag. destruct fuel as [|fuel]; [lia|].
    exists 0, (ubytes (mem s) pt va (S len)). split; [done|]. left. rewrite Hall in Hmk. auto.
  - assert (PGROUNDDOWN va + PGSIZE = va + Z.of_nat k) as Hnext by lia. rewrite Hnext.
    destruct (IH (S len - k)%nat (va + Z.of_nat k) (dst ++ ubytes (mem s) pt va k))
      as (r & bs & Hr & Hc); try done; [lia|lia|].
    exists r, (ubytes (mem s) pt va k ++ bs). rewrite app_assoc. split; [exact Hr|].
    destruct Hc as [(-> & -> & Hm)|(-> & Hm)].
    + left. split; [done|]. split.
      * rewrite <- ubytes_app. f_equal. lia.
      * intros i Hi. destruct (decide (i < Z.of_nat k)); [apply Hmk; lia|].
        replace (va + i) with (va + Z.of_nat k + (i - Z.of_nat k)) by lia. apply Hm. lia.
    + right. split; [done|]. intros Hm'. apply Hm. intros i Hi. rewrite <- Z.add_assoc.
      apply Hm'. lia.
Qed.

(** C15: [copyin] reads the bytes of user memory the page table gives the process access to,
    all of them, across page boundaries; when some byte of the range is not mapped for the
    user it returns -1.  Whatever address and length a program passes, it terminates
    without a panic and changes nothing in the kernel's state. *)
Theorem copyin_reads_user_memory pt va len l e s :
  0 <= va -> 0 < sym_end (syms s) -> pt_wf s pt l ->
  exists r bs, copyin pt va len e s = Ok (r, bs) e s /\
    ((r = 0 /\ bs = ubytes (mem s) pt va len /\ mapped (mem s) pt va len) \/
     (r = -1 /\ ~ mapped (mem s) pt va len)).
Proof. intros. unfold copyin. eapply (copyin_loop _ _ _ []); eauto. Qed.

(** ** Writes that leave the page table alone *)

Definition same_pt (m m' : gmap Z Z) (pt : Z) : Prop :=
  forall q b a, node m pt q = Some b -> b <= a < b + PGSIZE -> rd m' a = rd m a.

Lemma load64_same_pt m m' pt q b i :
  same_pt m m' pt -> node m pt q = Some b -> 0 <= i < 512 ->
  load64 m' (b + 8 * i) = load64 m (b + 8 * i).
Proof.
  intros H Hq Hi. apply load64_ext. intros k Hk. apply (H q b); [done|]. unfold PGSIZE. lia.
Qed.

Lemma node_same_pt m m' pt q : same_pt m m' pt -> node m' pt q = node m pt q.
Proof.
  intros H. induction q as [|i q IH] using rev_ind; [done|].
  destruct (decide (length q < 2)%nat).
  - rewrite !node_snoc, IH by done. destruct (idx_ok i) eqn:Ei; [|done].
    destruct (node m pt q) as [c|] eqn:Eq; [|done]. unfold dir_next.
    apply idx_ok_range in Ei. by rewrite (load64_same_pt m m' pt q c i).
  - unfold node. rewrite length_app. cbn [length].
    by destruct (Nat.leb_spec (length q + 1) 2); [lia|].
Qed.

Lemma upa_same_pt m m' pt va : same_pt m m' pt -> upa m' pt va = upa m pt va.
Proof.
  intros H. unfold upa, user_page, pte_of, walk0. rewrite (node_same_pt m m') by done.
  destruct (node m pt [PX 2 (PGROUNDDOWN va); PX 1 (PGROUNDDOWN va)]) as [c|] eqn:E; [|done].
  by rewrite (load64_same_pt _ _ _ _ _ _ H E) by (apply PX_range; lia).
Qed.

Lemma pt_wf_same_pt s m' pt l :
  same_pt (mem s) m' pt -> pt_wf s pt l -> pt_wf (s <| mem := m' |>) pt l.
Proof.
  intros H [Hi Hp]. split; cbn.
  - intros p q a. rewrite !(node_same_pt (mem s) m') by done. apply Hi.
  - intros p a. rewrite (node_same_pt (mem s) m') by done. apply Hp.
Qed.

Lemma pt_wf_ext s s' pt l : mem s' = mem s -> syms s' = syms s -> pt_wf s pt l -> pt_wf s' pt l.
Proof.
  intros Hm Hs [Hi Hp]. split; rewrite Hm; [exact Hi|]. intros p a Hq. apply Hp in Hq as [Hr Hl].
  split; [by eapply ram_page_syms|done].
Qed.

(** User pages are not pages of the table, and no physical byte has two user addresses:
    what [uvmalloc] and [uvmcopy] establish by mapping freshly allocated pages. *)
Record user_sep (m : gmap Z Z) (pt : Z) : Prop := {
  us_node : forall va a q b, upa m pt va = Some a -> node m pt q = Some b -> outside a b;
  us_inj : forall va va' a, upa m pt va = Some a -> upa m pt va' = Some a -> va = va' }.

Lemma user_sep_same_pt m m' pt : same_pt m m' pt -> user_sep m pt -> user_sep m' pt.
Proof.
  intros H [Hn Hi]. split.
  - intros va a q b. rewrite (upa_same_pt m m'), (node_same_pt m m') by done. apply Hn.
  - intros va va' a. rewrite !(upa_same_pt m m') by done. apply Hi.
Qed.

Lemma rd_wr_list m a l b :
  rd (wr_list m a l) b =
  match (if a <=? b then l !! Z.to_nat (b - a) else None) with
  | Some x => u8 x | None => rd m b end.
Proof.
  revert m a. induction l as [|x l IH]; intros m a; cbn [wr_list].
  - by destruct (a <=? b).
  - rewrite IH. destruct (Z.leb_spec (a + 1) b), (Z.leb_spec a b); try lia.
    + replace (Z.to_nat (b - a)) with (S (Z.to_nat (b - (a + 1)))) by lia.
      rewrite lookup_cons_ne_0 by done. cbn [Nat.pred]. destruct (l !! _); [done|].
      apply rd_wr_ne. lia.
    + replace b with a by lia. rewrite Z.sub_diag. cbn. apply rd_wr_eq.
    + apply rd_wr_ne. lia.
Qed.

(** ** [copyout] *)

(** [m'] is [m] with the bytes [src] at the user addresses from [va] on. *)
Record written (m m' : gmap Z Z) (pt va : Z) (src : list Z) : Prop := {
  wd_src : forall i x a, src !! i = Some x -> upa m pt (va + Z.of_nat i) = Some a ->
             rd m' a = u8 x;
  wd_frame : forall a, (forall i, 0 <= i < Z.of_nat (length src) -> upa m pt (va + i) <> Some a) ->
             rd m' a = rd m a }.

Lemma written_same_pt m m' pt va src :
  user_sep m pt -> written m m' pt va src -> same_pt m m' pt.
Proof.
  intros Hs Hw q b a Hq Ha. apply (wd_frame _ _ _ _ _ Hw). intros i Hi Hu.
  pose proof (us_node _ _ Hs _ _ _ _ Hu Hq) as Ho. unfold outside in Ho. lia.
Qed.

Lemma written_app m m1 m2 pt va src1 src2 :
  user_sep m pt -> written m m1 pt va src1 ->
  written m1 m2 pt (va + Z.of_nat (length src1)) src2 -> written m m2 pt va (src1 ++ src2).
Proof.
  intros Hs H1 H2. pose proof (written_same_pt _ _ _ _ _ Hs H1) as Hpt.
  split; [intros i x a Hi Hu|intros a Ha].
  - destruct (decide (i < length src1)%nat) as [Hlt|Hge].
    + rewrite lookup_app_l in Hi by done. rewrite (wd_frame _ _ _ _ _ H2).
      * eapply wd_src; eauto.
      * intros j Hj Hu'. rewrite (upa_same_pt m m1) in Hu' by done.
        pose proof (us_inj _ _ Hs _ _ _ Hu Hu'). lia.
    + rewrite lookup_app_r in Hi by lia. apply (wd_src _ _ _ _ _ H2 _ _ _ Hi).
      rewrite (upa_same_pt m m1) by done. rewrite <- Hu. f_equal. lia.
  - rewrite length_app in Ha. rewrite (wd_frame _ _ _ _ _ H2).
    + apply (wd_frame _ _ _ _ _ H1). intros i Hi. apply Ha. lia.
    + intros i Hi. rewrite (upa_same_pt m m1) by done. rewrite <- Z.add_assoc. apply Ha. lia.
Qed.

Lemma written_chunk m pt va src :
  0 <= va < MAXVA -> va + Z.of_nat (length src) <= PGROUNDDOWN va + PGSIZE ->
  user_page m pt (PGROUNDDOWN va) <> 0 ->
  written m (wr_list m (user_page m pt (PGROUNDDOWN va) + (va - PGROUNDDOWN va)) src) pt va src.
Proof.
  intros Hva Hlen Hp.
  assert (forall i, 0 <= i < Z.of_nat (length src) -> upa m pt (va + i) =
    Some (user_page m pt (PGROUNDDOWN va) + (va - PGROUNDDOWN va) + i)) as Hu.
  { intros i Hi. rewrite upa_in_page by lia. by destruct (Z.eqb_spec (user_page m pt (PGROUNDDOWN va)) 0). }
  split.
  - intros i x a Hi Ha. pose proof (lookup_lt_Some _ _ _ Hi). rewrite Hu in Ha by lia.
    injection Ha as <-. rewrite rd_wr_list. destruct (Z.leb_spec
      (user_page m pt (PGROUNDDOWN va) + (va - PGROUNDDOWN va))
      (user_page m pt (PGROUNDDOWN va) + (va - PGROUNDDOWN va) + Z.of_nat i)); [|lia].
    replace (Z.to_nat _) with i by lia. by rewrite Hi.
  - intros a Ha. rewrite rd_wr_list. destruct (Z.leb_spec
      (user_page m pt (PGROUNDDOWN va) + (va - PGROUNDDOWN va)) a); [|done].
    destruct (src !! _) eqn:E; [|done]. exfalso. apply lookup_lt_Some in E.
    apply (Ha (a - (user_page m pt (PGROUNDDOWN va) + (va - PGROUNDDOWN va)))); [lia|].
    rewrite Hu by lia. f_equal. lia.
Qed.

Lemma copyout_loop fuel src va pt l e s :
  (length src < fuel)%nat -> 0 <= va -> 0 < sym_end (syms s) -> pt_wf s pt l ->
  user_sep (mem s) pt -> mapped (mem s) pt va (length src) ->
  exists m', whileK fuel (copyout_body pt) (va, src) e s = Ok 0 e (s <| mem := m' |>) /\
    written (mem s) m' pt va src.
Proof.
  revert src va s. induction fuel as [|fuel IH]; intros src va s Hf Hva He Hwf Hs Hm; [lia|].
  cbn [whileK]. unfold copyout_body at 1. destruct src as [|x src].
  { exists (mem s). split; [done|]. split; [done|]. intros a _. done. }
  cbn beta iota zeta. set (all := x :: src) in *. assert (0 < length all)%nat as Hpos by (cbn; lia). clearbody all.
  destruct (Hm 0 ltac:(lia)) as [a0 Ha0]. rewrite Z.add_0_r in Ha0.
  destruct (decide (va < MAXVA)) as [Hlt|]; [|rewrite upa_ge_MAXVA in Ha0; [done|lia]].
  pose proof (PGROUNDDOWN_bounds va) as Hb.
  assert (user_page (mem s) pt (PGROUNDDOWN va) <> 0) as Hp.
  { rewrite <- (Z.add_0_r va), upa_in_page in Ha0 by lia. intros E. by rewrite E in Ha0. }
  unfold bindK. rewrite (walkaddr_any _ _ l) by done.
  destruct (Z.ltb_spec va MAXVA); [|lia]. apply Z.eqb_neq in Hp as Hp'. rewrite Hp'. kred.
  set (k := Nat.min (Z.to_nat (PGSIZE - (va - PGROUNDDOWN va))) (length all)).
  pose proof (length_take all k) as Hk. rewrite Nat.min_l in Hk by lia.
  pose proof (written_chunk (mem s) pt va (take k all) ltac:(lia) ltac:(lia) Hp) as Hw.
  set (m1 := wr_list _ _ _) in *.
  pose proof (written_same_pt _ _ _ _ _ Hs Hw) as Hpt.
  destruct (decide (k = length all)) as [Hall|Hpart].
  - (* the rest of the buffer lies in this page *)
    rewrite Hall, drop_all. rewrite Hall, firstn_all in Hw. destruct fuel as [|fuel]; [lia|].
    exists m1. done.
  - rewrite u64_small by (change MAXVA with (2 ^ 38) in *; unfold PGSIZE in *; lia).
    replace (PGROUNDDOWN va + PGSIZE) with (va + Z.of_nat (length (take k all))) by lia.
    destruct (IH (drop k all) (va + Z.of_nat (length (take k all))) (s <| mem := m1 |>))
      as (m' & Hr & Hw').
    + rewrite length_drop. lia.
    + lia.
    + done.
    + by apply pt_wf_same_pt.
    + eapply user_sep_same_pt; [|done]. done.
    + intros i Hi. rewrite length_drop in Hi. cbn. rewrite (upa_same_pt (mem s) m1), <- Z.add_assoc by done.
      apply Hm. lia.
    + exists m'. split; [rewrite Hr; f_equal; rec_eq|]. rewrite <- (take_drop k all).
      by eapply written_app.
Qed.

Lemma written_ubytes m m' pt va src :
  user_sep m pt -> mapped m pt va (length src) -> written m m' pt va src ->
  ubytes m' pt va (length src) = map u8 src.
Proof.
  intros Hs. intros Hm Hw. pose proof (written_same_pt _ _ _ _ _ Hs Hw) as Hpt.
  assert (forall n k, (k + n = length src)%nat ->
    ubytes m' pt (va + Z.of_nat k) n = map u8 (drop k src)) as H.
  { induction n as [|n IH]; intros k Hk; cbn [ubytes].
    - rewrite drop_ge by lia. done.
    - destruct (lookup_lt_is_Some_2 src k ltac:(lia)) as [x Hx].
      rewrite (drop_S _ _ _ Hx). cbn [map]. f_equal.
      + unfold ubyte. rewrite (upa_same_pt m m') by done. destruct (Hm (Z.of_nat k) ltac:(lia)) as [a Ha].
        rewrite Ha. eapply wd_src; eauto.
      + rewrite <- IH by lia. f_equal. lia. }
  specialize (H (length src) 0%nat eq_refl). rewrite Z.add_0_r, drop_0 in H. exact H.
Qed.

(** C14: What [copyout] stores into user memory is what [copyin] reads back: on a range that
    is mapped for the user both succeed, and the bytes come back whatever pages the range
    spans; physical bytes outside the range are untouched. *)
Theorem copyout_copyin_roundtrip pt va src l e s :
  0 <= va -> 0 < sym_end (syms s) -> pt_wf s pt l -> user_sep (mem s) pt ->
  mapped (mem s) pt va (length src) ->
  exists s', copyout pt va src e s = Ok 0 e s' /\
    copyin pt va (length src) e s' = Ok (0, map u8 src) e s' /\
    forall a, (forall i, 0 <= i < Z.of_nat (length src) -> upa (mem s) pt (va + i) <> Some a) ->
      rd (mem s') a = rd (mem s) a.
Proof.
  intros Hva He Hwf Hs Hm.
  destruct (copyout_loop (S (length src)) src va pt l e s) as (m' & Hr & Hw); try done; [lia|].
  pose proof (written_same_pt _ _ _ _ _ Hs Hw) as Hpt.
  exists (s <| mem := m' |>). split; [exact Hr|]. split; [|apply (wd_frame _ _ _ _ _ Hw)].
  destruct (copyin_loop (S (length src)) (length src) va [] pt l e (s <| mem := m' |>))
    as (r & bs & Hc & Hcase); [lia|done|done|by apply pt_wf_same_pt|].
  assert (mapped m' pt va (length src)) as Hm'.
  { intros i Hi. rewrite (upa_same_pt (mem s) m') by done. by apply Hm. }
  destruct Hcase as [(-> & -> & _)|(_ & Hn)]; [|by destruct Hn].
  unfold copyin. rewrite Hc. cbn. by erewrite written_ubytes.
Qed.

(** ** A fresh page table, and the first page of a process

    [uvmcreate] gives a table that maps nothing; mapping one freshly allocated page at
    address 0, as [uvminit] does, gives an address space that satisfies the hypotheses of
    the theorems above. *)

Lemma dir_next_zero m b i :
  0 <= i < 512 -> (forall a, b <= a < b + PGSIZE -> rd m a = 0) -> dir_next m b i = None.
Proof.
  intros Hi Hz. unfold dir_next. replace (load64 m (b + 8 * i)) with 0; [done|].
  symmetry. apply load64_zero. intros a Ha. apply Hz. unfold PGSIZE. lia.
Qed.

Lemma node_zero m pt q :
  (forall a, pt <= a < pt + PGSIZE -> rd m a = 0) ->
  node m pt q = match q with [] => Some pt | _ => None end.
Proof.
  intros Hz. unfold node. destruct q as [|i q]; [done|]. destruct (length (i :: q) <=? 2)%nat; [|done].
  cbn [follow]. destruct (idx_ok i) eqn:Hi; [|done]. apply idx_ok_range in Hi.
  by rewrite dir_next_zero.
Qed.

Lemma uvmcreate_spec x l e s :
  kmem_ok s (x :: l) -> L_kmem ∉ held s ->
  exists s', uvmcreate e s = Ok x e s' /\ kmem_ok s' l /\ pt_wf s' x l /\ vm_frame s s' /\
    same_outside x (mem s) (mem s') /\ forall va, pte_of (mem s') x va = 0.
Proof.
  intros Hk Hh. destruct (kalloc_spec x l e s Hk Hh) as (s1 & Hr & Hk1 & Hni & Hx & Hso & Hfr).
  unfold uvmcreate, memsetK. rewrite (bindK_Ok _ _ _ _ _ _ _ Hr).
  pose proof (ram_page_range _ _ (kmem_end _ _ Hk) Hx).
  destruct (Z.eqb_spec x 0); [lia|]. kred.
  set (s2 := s1 <| mem := _ |>).
  assert (forall a, x <= a < x + PGSIZE -> rd (mem s2) a = 0) as Hz.
  { intros a Ha. cbn. rewrite rd_memset. case_decide; [done|lia]. }
  assert (same_outside x (mem s1) (mem s2)) as Hso2.
  { intros a Ha. cbn. rewrite rd_memset. case_decide; [lia|done]. }
  assert (syms s1 = syms s) as Hsy by (by apply vm_frame_syms).
  exists s2. split; [done|]. split; [|split; [|split; [|split]]].
  - destruct Hk1 as [He Hl Hnd Hpg]. split; [done| |done|done].
    eapply (flist_same_outside s1); [|done|done|done|done].
    by eapply ram_page_syms.
  - split.
    + intros p q a. rewrite !node_zero by done. by destruct p, q.
    + intros p a. rewrite node_zero by done. destruct p; [|done]. intros [= <-].
      split; [|done]. eapply (ram_page_syms s); done.
  - eapply vm_frame_trans; [exact Hfr|]. exists (mem s2), (freelist s1). rec_eq.
  - intros a Ha. by rewrite Hso2, Hso.
  - intros va. unfold pte_of, walk0. by rewrite node_zero.
Qed.

Lemma pt_wf_kalloc s s1 pt x l :
  kmem_ok s (x :: l) -> pt_wf s pt (x :: l) -> same_outside x (mem s) (mem s1) ->
  syms s1 = syms s -> same_pt (mem s) (mem s1) pt /\ pt_wf s1 pt l.
Proof.
  intros Hk Hwf Hso Hsy.
  assert (same_pt (mem s) (mem s1) pt) as Hpt.
  { intros q b a Hq Ha. apply Hso. apply (pt_page _ _ _ Hwf) in Hq as [Hb Hni].
    pose proof (Forall_inv (kmem_pages _ _ Hk)) as Hx.
    destruct (aligned_eq_or_apart b x (ram_page_aligned _ _ Hb) (ram_page_aligned _ _ Hx));
      [set_solver|lia]. }
  split; [done|]. split.
  - intros p q a. rewrite !(node_same_pt (mem s) (mem s1)) by done. apply (pt_inj _ _ _ Hwf).
  - intros p a. rewrite (node_same_pt (mem s)) by done. intros Hq.
    apply (pt_page _ _ _ Hwf) in Hq as [Hb Hni]. split; [by eapply ram_page_syms|set_solver].
Qed.

(** One user page [pg] at address 0 and nothing else. *)
Lemma one_page_sep m pt pg :
  0 < pg -> (forall va, page_va va -> user_page m pt va = if va =? 0 then pg else 0) ->
  (forall q b, node m pt q = Some b -> b + PGSIZE <= pg \/ pg + PGSIZE <= b) ->
  user_sep m pt /\ forall n, (n <= 4096)%nat -> mapped m pt 0 n.
Proof.
  intros Hpg Hup Hn.
  assert (forall va, upa m pt va = if (0 <=? va) && (va <? PGSIZE) then Some (pg + va) else None) as Hu.
  { intros va. unfold upa. destruct (Z.leb_spec 0 va); [|done]. cbn [andb].
    pose proof (PGROUNDDOWN_bounds va). destruct (Z.ltb_spec va PGSIZE).
    - assert (PGROUNDDOWN va = 0) as ->.
      { rewrite PGROUNDDOWN_div, Z.div_small by lia. lia. }
      destruct (Z.ltb_spec va MAXVA); [|change MAXVA with (2 ^ 38) in *; unfold PGSIZE in *; lia].
      rewrite Hup by (split; [change MAXVA with (2 ^ 38)|]; done). cbn [Z.eqb].
      destruct (Z.eqb_spec pg 0); [lia|]. f_equal. lia.
    - destruct (Z.ltb_spec va MAXVA); [|done]. rewrite Hup by (apply PGROUNDDOWN_page_va; lia).
      destruct (Z.eqb_spec (PGROUNDDOWN va) 0); [lia|done]. }
  split; [split|].
  - intros va a q b. rewrite Hu. destruct (_ && _) eqn:E; [|done]. intros [= <-] Hq.
    apply Hn in Hq. unfold outside. lia.
  - intros va va' a. rewrite !Hu. destruct (_ && _); [|done]. intros [= <-].
    destruct (_ && _); [|done]. intros [= ?]. lia.
  - intros n Hle i Hi. rewrite Hu. unfold PGSIZE. destruct (Z.leb_spec 0 (0 + i)); [|lia].
    destruct (Z.ltb_spec (0 + i) 4096); [|lia]. eauto.
Qed.

(** A machine with eight pages above the kernel, after [kinit], a [uvmcreate] and the
    mapping of one page, read-write, for the user. *)
Definition demo8_syms : symbols :=
  Symbols (PHYSTOP - 8 * PGSIZE) KERNBASE KERNBASE 0 0 0 0 0 0 0.
Definition demo_perm : Z := Z.lor (Z.lor PTE_W PTE_R) PTE_U.
Definition first_user_page : K (Z * Z) :=
  pt <- uvmcreate ;;
  pg <- kalloc ;;
  r <- mappages pt 0 PGSIZE pg demo_perm ;;
  retK (pt, r).
Definition demo_space_run : outcome (Z * Z) := (kinit ;;; first_user_page) [] (kstate0 demo8_syms).
Definition demo_space : kstate := final_state (kstate0 demo8_syms) demo_space_run.
Definition demo_pt : Z := fst (final_value (0, 0) demo_space_run).

Lemma user_page_empty m pt va : pte_of m pt va = 0 -> user_page m pt va = 0.
Proof. intros H. unfold user_page. by rewrite H. Qed.

Lemma mapped_page_sep s s' x pg l l' :
  kmem_ok s l -> pt_wf s x l -> ram_page s pg -> pg ∉ l ->
  (forall q, node (mem s) x q <> Some pg) -> (forall va, pte_of (mem s) x va = 0) ->
  vm_ext s s' x l l' (leafmap 0 pg demo_perm 1) ->
  user_sep (mem s') x /\ forall n, (n <= 4096)%nat -> mapped (mem s') x 0 n.
Proof.
  intros Hk Hwf Hpg Hnl Hnn H0 Hx. pose proof (ram_page_range _ _ (kmem_end _ _ Hk) Hpg) as Hpr.
  apply (one_page_sep _ _ pg); [lia| |].
  - intros va Hva. pose proof (ext_pte _ _ _ _ _ _ Hx va Hva) as Hp. rewrite H0 in Hp.
    cbn in Hp. rewrite lookup_insert in Hp. destruct (Z.eqb_spec va 0) as [->|].
    + eapply user_page_leaf; [exact Hp| | |done|done]; [lia|apply Hpg].
    + rewrite decide_False in Hp by done. by apply user_page_empty.
  - intros q b Hb.
    assert (b <> pg /\ b mod PGSIZE = 0) as [Hne Hal].
    { split; [|by eapply ram_page_aligned, (pt_page _ _ _ (ext_wf _ _ _ _ _ _ Hx))].
      intros ->. by apply (ext_new _ _ _ _ _ _ Hx) in Hb as [Hb%Hnn|]. }
    destruct (aligned_eq_or_apart b pg Hal (ram_page_aligned _ _ Hpg)); [done|lia].
Qed.

Lemma first_user_page_spec s s' e x pg l pt :
  kmem_ok s (x :: pg :: l) -> held s = [] -> first_user_page e s = Ok (pt, 0) e s' ->
  vm_frame s s' /\ (exists l', pt_wf s' pt l') /\ user_sep (mem s') pt /\
  forall n, (n <= 4096)%nat -> mapped (mem s') pt 0 n.
Proof.
  intros Hk Hh. assert (L_kmem ∉ held s) as Hni by (rewrite Hh; apply not_elem_of_nil).
  unfold first_user_page.
  destruct (uvmcreate_spec x (pg :: l) e s Hk Hni) as (s1 & Hr1 & Hk1 & Hwf1 & Hf1 & Hso1 & Hp1).
  rewrite (bindK_Ok _ _ _ _ _ _ _ Hr1).
  assert (L_kmem ∉ held s1) as Hni1 by (by rewrite (vm_frame_held _ _ Hf1)).
  destruct (kalloc_spec pg l e s1 Hk1 Hni1) as (s2 & Hr2 & Hk2 & Hnl & Hpg & Hso2 & Hf2).
  rewrite (bindK_Ok _ _ _ _ _ _ _ Hr2).
  destruct (pt_wf_kalloc s1 s2 x pg l Hk1 Hwf1 Hso2 (vm_frame_syms _ _ Hf2)) as [Hpt Hwf2].
  assert (forall va, pte_of (mem s2) x va = 0) as Hp2.
  { intros va. rewrite <- (Hp1 va). unfold pte_of, walk0. rewrite (node_same_pt (mem s1) (mem s2)) by done.
    destruct (node (mem s1) x _) as [b|] eqn:Eb; [|done].
    by rewrite (load64_same_pt _ _ _ _ _ _ Hpt Eb) by (apply PX_range; lia). }
  pose proof (ram_page_range _ _ (kmem_end _ _ Hk1) Hpg) as Hpr.
  destruct (mappages_spec x 0 PGSIZE pg demo_perm l e s2)
    as (r & k & l' & s3 & Hr3 & Hx & Hc); try done.
  { by rewrite (vm_frame_held _ _ Hf2). } { lia. }
  { change (page_count 0 PGSIZE) with 1%nat. unfold PGSIZE. lia. }
  { intros. by rewrite Hp2. }
  rewrite (bindK_Ok _ _ _ _ _ _ _ Hr3). intros [= <- -> <-].
  destruct Hc as [[_ ->]|[? _]]; [|done]. split; [|split].
  - eapply vm_frame_trans; [exact Hf1|]. eapply vm_frame_trans; [exact Hf2|apply Hx].
  - exists l'. apply Hx.
  - eapply mapped_page_sep; [| |by eapply ram_page_syms; [apply (vm_frame_syms _ _ Hf2)|]|done| |done|exact Hx]; try done.
    intros q. rewrite (node_same_pt (mem s1) (mem s2)) by done. intros Hq.
    apply (pt_page _ _ _ Hwf1) in Hq as [_ Hq]. apply Hq. constructor.
Qed.

Lemma demo_space_run_ok : demo_space_run = Ok (demo_pt, 0) [] demo_space.
Proof.
  assert (match demo_space_run with Ok (_, r) [] _ => r =? 0 | _ => false end = true) as H
    by (vm_compute; reflexivity).
  unfold demo_pt, demo_space. destruct demo_space_run as [[pt r] e s| | | |]; try done.
  destruct e; [|done]. by apply Z.eqb_eq in H as ->.
Qed.

Lemma demo_space_ok :
  (exists l, pt_wf demo_space demo_pt l) /\ user_sep (mem demo_space) demo_pt /\
  forall n, (n <= 4096)%nat -> mapped (mem demo_space) demo_pt 0 n.
Proof.
  destruct (kinit_spec [] (kstate0 demo8_syms)) as (s1 & Hr & Hk & Hf);
    [apply not_elem_of_nil|done|done|].
  pose proof demo_space_run_ok as Hd. unfold demo_space_run in Hd. rewrite (bindK_Ok _ _ _ _ _ _ _ Hr) in Hd.
  eapply first_user_page_spec in Hd as (_ & H1 & H2); [done| |].
  - exact Hk.
  - by rewrite (vm_frame_held _ _ Hf).
Qed.

Lemma demo_space_frame : syms demo_space = demo8_syms /\ held demo_space = [].
Proof. vm_compute. split; reflexivity. Qed.

(** There is an address space with one user page at address 0. *)
Lemma space_exists : exists s pt l, syms s = demo8_syms /\ held s = [] /\ pt_wf s pt l /\
  user_sep (mem s) pt /\ forall n, (n <= 4096)%nat -> mapped (mem s) pt 0 n.
Proof.
  destruct demo_space_ok as ([l Hwf] & Hs & Hm). exists demo_space, demo_pt, l.
  split; [apply demo_space_frame|]. split; [apply demo_space_frame|]. done.
Qed.

Lemma demo_space_end : 0 < sym_end (syms demo_space).
Proof. rewrite (proj1 demo_space_frame). reflexivity. Qed.

Lemma copyin_reads_user_memory_witness : exists l, pt_wf demo_space demo_pt l /\
  exists r bs, copyin demo_pt 4000 200 [] demo_space = Ok (r, bs) [] demo_space /\
    ((r = 0 /\ bs = ubytes (mem demo_space) demo_pt 4000 200 /\ mapped (mem demo_space) demo_pt 4000 200) \/
     (r = -1 /\ ~ mapped (mem demo_space) demo_pt 4000 200)).
Proof.
  destruct demo_space_ok as [[l Hwf] _]. exists l. split; [exact Hwf|].
  apply (copyin_reads_user_memory demo_pt 4000 200 l [] demo_space);
    [done|exact demo_space_end|exact Hwf].
Defined.

Lemma copyout_copyin_roundtrip_witness :
  exists s', copyout demo_pt 0 [104; 105] [] demo_space = Ok 0 [] s' /\
    copyin demo_pt 0 2 [] s' = Ok (0, [104; 105]) [] s' /\
    forall a, (forall i, 0 <= i < 2 -> upa (mem demo_space) demo_pt (0 + i) <> Some a) ->
      rd (mem s') a = rd (mem demo_space) a.
Proof.
  destruct demo_space_ok as ([l Hwf] & Hs & Hm).
  apply (copyout_copyin_roundtrip demo_pt 0 [104; 105] l [] demo_space);
    [done|exact demo_space_end|exact Hwf|exact Hs|apply Hm; cbn; lia].
Defined.

(** ** [mappages] and [walkaddr] *)

Lemma page_va_range va size i :
  0 <= va -> 0 < size -> va + size <= MAXVA -> 0 <= i < Z.of_nat (page_count va size) ->
  page_va (PGROUNDDOWN va + PGSIZE * i).
Proof.
  intros Hva Hsz Hmax Hi. pose proof (PGROUNDDOWN_page_va va ltac:(lia)) as [H0 H1].
  split; [|by rewrite mod_page_add].
  pose proof (PGROUNDDOWN_bounds (va + size - 1)) as Hb. unfold page_count in Hi.
  rewrite !PGROUNDDOWN_div in *. rewrite <- Z.mul_sub_distr_l, Z.mul_comm, Z.div_mul in Hi by done.
  unfold PGSIZE in *. lia.
Qed.

(** [mappages] on any range of unmapped pages either succeeds, and then every page of the
    range translates to its consecutive physical page, or returns -1 because the free list
    is empty; either way no other page of the address space changes its translation. *)
Theorem mappages_translates pt va size pa perm l e s :
  0 <= va -> 0 < size -> va + size <= MAXVA ->
  kmem_ok s l -> pt_wf s pt l -> L_kmem ∉ held s ->
  0 <= pa -> pa mod PGSIZE = 0 -> pa + PGSIZE * Z.of_nat (page_count va size) <= 2 ^ 56 ->
  0 <= perm < 1024 -> flag perm PTE_U = true ->
  (forall i, 0 <= i < Z.of_nat (page_count va size) ->
     flag (pte_of (mem s) pt (PGROUNDDOWN va + PGSIZE * i)) PTE_V = false) ->
  exists r s', mappages pt va size pa perm e s = Ok r e s' /\
    (r = 0 \/ (r = -1 /\ freelist s' = 0)) /\
    (r = 0 -> forall i, 0 <= i < Z.of_nat (page_count va size) ->
       walkaddr pt (PGROUNDDOWN va + PGSIZE * i) e s' = Ok (pa + PGSIZE * i) e s') /\
    (forall va', page_va va' ->
       va' < PGROUNDDOWN va \/ PGROUNDDOWN va + PGSIZE * Z.of_nat (page_count va size) <= va' ->
       exists w, walkaddr pt va' e s = Ok w e s /\ walkaddr pt va' e s' = Ok w e s').
Proof.
  intros Hva Hsz Hmax Hk Hwf Hh Hpa Hal Hpn Hp HU Hnv.
  destruct (mappages_spec pt va size pa perm l e s) as (r & k & l' & s' & Hr & Hx & Hc); try done.
  pose proof (kmem_end _ _ (ext_kmem _ _ _ _ _ _ Hx)) as He'.
  exists r, s'. split; [exact Hr|]. split; [|split].
  - destruct Hc as [[-> _]|(-> & _ & ->)]; [by left|right]. split; [done|].
    apply (kmem_list _ _ (ext_kmem _ _ _ _ _ _ Hx)).
  - intros ->. destruct Hc as [[_ ->]|[? _]]; [|done]. intros i Hi.
    pose proof (page_va_range va size i Hva Hsz Hmax Hi) as Hpv.
    rewrite (walkaddr_spec _ _ l') by (done || apply Hpv || apply Hx). f_equal.
    eapply (user_page_leaf _ _ _ _ perm); try done.
    + rewrite (ext_pte _ _ _ _ _ _ Hx) by done. by rewrite lookup_leafmap.
    + unfold PGSIZE in *. lia.
    + by rewrite mod_page_add.
  - intros va' Hpv Hout. exists (user_page (mem s) pt va').
    rewrite (walkaddr_spec _ _ l) by (done || apply Hpv || apply Hk).
    rewrite (walkaddr_spec _ _ l') by (done || apply Hpv || apply Hx).
    split; [done|]. f_equal. unfold user_page. rewrite (ext_pte _ _ _ _ _ _ Hx) by done.
    destruct (leafmap _ _ _ _ !! va') eqn:E; [|done].
    apply lookup_leafmap_inv in E as (i & Hi & -> & _).
    destruct Hc as [[_ ->]|(_ & ? & _)]; unfold PGSIZE in *; lia.
Qed.

(** The table of the witness: what [uvmcreate] returns after [kinit]. *)
Lemma demo_table : exists s pt l, kmem_ok s l /\ pt_wf s pt l /\ held s = [] /\
  (forall va, pte_of (mem s) pt va = 0).
Proof.
  destruct (kinit_spec [] (kstate0 demo8_syms)) as (s1 & _ & Hk & Hf);
    [apply not_elem_of_nil|done|done|].
  destruct (uvmcreate_spec _ _ [] s1 Hk) as (s2 & _ & Hk2 & Hwf & Hf2 & _ & Hp);
    [rewrite (vm_frame_held _ _ Hf); apply not_elem_of_nil|].
  do 3 eexists. split; [exact Hk2|]. split; [exact Hwf|].
  split; [by rewrite (vm_frame_held _ _ Hf2), (vm_frame_held _ _ Hf)|]. exact Hp.
Qed.

Lemma mappages_translates_witness : exists s pt r s',
  mappages pt 5000 8192 PHYSTOP demo_perm [] s = Ok r [] s' /\
    (r = 0 \/ (r = -1 /\ freelist s' = 0)) /\
    (r = 0 -> forall i, 0 <= i < 3 ->
       walkaddr pt (4096 + PGSIZE * i) [] s' = Ok (PHYSTOP + PGSIZE * i) [] s') /\
    (forall va', page_va va' -> va' < 4096 \/ 4096 + PGSIZE * 3 <= va' ->
       exists w, walkaddr pt va' [] s = Ok w [] s /\ walkaddr pt va' [] s' = Ok w [] s').
Proof.
  destruct demo_table as (s & pt & l & Hk & Hwf & Hh & Hp). exists s, pt.
  apply (mappages_translates pt 5000 8192 PHYSTOP demo_perm l [] s); try done.
  - rewrite Hh. apply not_elem_of_nil.
  - intros i Hi. rewrite Hp. done.
Defined.
