(* ===== verification/UvmFacts.v ===== *)
(** * Growing, copying and freeing user memory: [uvmunmap], [uvmalloc] and [uvmcopy] of vm.c

    These functions take pages from the free list, fill them, map them, and give them back when
    something fails.  [holds] says where every page is meanwhile: on the free list, a page of the
    page table, or one of the pages the function owns, whose contents are known.  So nothing
    leaks on any path, and what is not involved stays as it is. *)

From stdpp Require Import base numbers list gmap strings.
From S2P Require Import Prelude Mem Types Kernel Riscv Kalloc Vm VmFacts Copy.

Lemma page_outside s a b off :
  ram_page s a -> ram_page s b -> a <> b -> 0 <= off < PGSIZE -> outside (a + off) b.
Proof.
  intros Ha Hb Hne Ho. destruct (aligned_eq_or_apart a b (ram_page_aligned _ _ Ha) (ram_page_aligned _ _ Hb)); [done|].
  unfold outside. lia.
Qed.

(** Taking the first free page and writing into it. *)
Definition taken_st (s : kstate) (x : Z) (m : gmap Z Z) : kstate :=
  s <| freelist := load64 (mem s) x |> <| mem := m |>.

Lemma taken_kmem s x l m : kmem_ok s (x :: l) -> same_outside x (mem s) m -> kmem_ok (taken_st s x m) l.
Proof.
  intros [He [Hx Hl] Hnd Hp] Hso. inversion Hp as [|? ? Hpx Hpl]; subst. apply NoDup_cons in Hnd as [Hni Hnd].
  split; cbn; [done| |done|done]. eapply (flist_same_outside s); [apply Hpx|done|done|exact Hso|done].
Qed.

(** The leaf entries of consecutive pages from [a] on. *)
Fixpoint entries (a : Z) (vs : list Z) : gmap Z Z :=
  match vs with
  | [] => ∅
  | v :: vs' => <[a := v]> (entries (a + PGSIZE) vs')
  end.

Lemma entries_lt a vs va : va < a -> entries a vs !! va = None.
Proof.
  revert a. induction vs as [|v vs IH]; intros a H; cbn; [apply lookup_empty|].
  rewrite lookup_insert_ne by lia. apply IH. unfold PGSIZE. lia.
Qed.

Lemma entries_page a vs (i : nat) : entries a vs !! (a + PGSIZE * Z.of_nat i) = vs !! i.
Proof.
  revert a i. induction vs as [|v vs IH]; intros a i; cbn; [apply lookup_empty|]. destruct i as [|i].
  - rewrite Z.mul_0_r, Z.add_0_r. apply lookup_insert_eq.
  - rewrite lookup_insert_ne by (unfold PGSIZE; lia). cbn. rewrite <- (IH (a + PGSIZE)). f_equal. lia.
Qed.

Lemma entries_ge a vs va : a + PGSIZE * Z.of_nat (length vs) <= va -> entries a vs !! va = None.
Proof.
  revert a. induction vs as [|v vs IH]; intros a H; cbn in *; [apply lookup_empty|]. unfold PGSIZE in *.
  rewrite lookup_insert_ne by lia. apply IH. unfold PGSIZE. lia.
Qed.

Lemma entries_snoc a vs v : entries a (vs ++ [v]) = <[a + PGSIZE * Z.of_nat (length vs) := v]> (entries a vs).
Proof.
  revert a. induction vs as [|w vs IH]; intros a; cbn [app entries length]; [by rewrite Z.mul_0_r, Z.add_0_r|].
  rewrite IH, insert_insert_ne by (unfold PGSIZE; lia). f_equal. lia.
Qed.

Lemma entries_cons a v vs u : entries (a + PGSIZE) vs ∪ ({[a := v]} ∪ u) = entries a (v :: vs) ∪ u.
Proof.
  rewrite (assoc_L (∪)). f_equal. cbn. rewrite map_union_comm; [by rewrite <- insert_union_singleton_l|].
  apply map_disjoint_singleton_r_2, entries_lt. unfold PGSIZE. lia.
Qed.

Lemma entries_cover a vs : forall ws, length vs = length ws -> entries a vs ∪ entries a ws = entries a vs.
Proof.
  revert a. induction vs as [|v vs IH]; intros a [|w ws] Hlen; try discriminate Hlen; cbn [entries];
    [apply (left_id_L ∅ (∪))|].
  rewrite <- insert_union_l, <- insert_union_r by (apply entries_lt; unfold PGSIZE; lia).
  rewrite insert_insert_eq, IH by (cbn in Hlen; lia). done.
Qed.

(** Entry [v] is a leaf that maps page [x]. *)
Definition maps_to (v x : Z) : Prop := flag v PTE_V = true /\ PTE_FLAGS v <> PTE_V /\ PTE2PA v = x.

Lemma maps_to_leaf x perm : 0 <= x < 2 ^ 56 -> x mod PGSIZE = 0 -> 0 <= perm < 1024 -> Z.lor perm PTE_V <> PTE_V ->
  maps_to (leaf_pte x perm) x.
Proof. intros. split; [by apply flag_leaf_V|]. by rewrite PTE_FLAGS_leaf, PTE2PA_leaf. Qed.

(** ** What growing a table from [lo] to [hi] comes to: [ps] are the pages now mapped there *)

Record uvm_ext (s s' : kstate) (pt : Z) (l l' ps : list Z) (lo hi : Z) : Prop := {
  uvm_frame : vm_frame s s';
  uvm_kmem : kmem_ok s' l';
  uvm_wf : pt_wf s' pt l';
  uvm_all : forall x, x ∈ l -> x ∈ l' \/ x ∈ ps \/ exists q, node (mem s') pt q = Some x;
  uvm_own : NoDup ps /\ forall x, x ∈ ps -> x ∈ l /\ (x ∉ l') /\ forall q, node (mem s') pt q <> Some x;
  uvm_sub : forall x, x ∈ l' -> x ∈ l;
  uvm_node : forall q a, node (mem s) pt q = Some a -> node (mem s') pt q = Some a;
  uvm_new : forall q a, node (mem s') pt q = Some a -> node (mem s) pt q = Some a \/ a ∈ l;
  uvm_pte : forall va, page_va va -> va < lo \/ hi <= va -> pte_of (mem s') pt va = pte_of (mem s) pt va;
  uvm_mem : forall a, (forall x, x ∈ l -> outside a x) -> (forall q b, node (mem s) pt q = Some b -> outside a b) ->
    rd (mem s') a = rd (mem s) a }.

Section Holds.
Context (s0 : kstate) (l0 : list Z) (pt : Z).
Hypothesis Hpages0 : forall x, x ∈ l0 -> ram_page s0 x.
Hypothesis Hnodes0 : forall q a, node (mem s0) pt q = Some a -> ram_page s0 a.

Record holds (s : kstate) (l own : list Z) (u : gmap Z Z) (c : Z -> Z -> Z) : Prop := {
  ho_frame : vm_frame s0 s;
  ho_kmem : kmem_ok s l;
  ho_wf : pt_wf s pt l;
  ho_all : forall x, x ∈ l0 -> x ∈ l \/ x ∈ own \/ exists q, node (mem s) pt q = Some x;
  ho_sub : forall x, x ∈ l \/ x ∈ own -> x ∈ l0;
  ho_nodup : NoDup own;
  ho_fresh : forall x, x ∈ own -> (x ∉ l) /\ forall q, node (mem s) pt q <> Some x;
  ho_node : forall q a, node (mem s0) pt q = Some a -> node (mem s) pt q = Some a;
  ho_new : forall q a, node (mem s) pt q = Some a -> node (mem s0) pt q = Some a \/ a ∈ l0;
  ho_pte : forall va, page_va va -> pte_of (mem s) pt va = default (pte_of (mem s0) pt va) (u !! va);
  ho_content : forall x off, x ∈ own -> 0 <= off < PGSIZE -> rd (mem s) (x + off) = c x off;
  ho_mem : forall a, (forall x, x ∈ l0 -> outside a x) -> (forall q b, node (mem s0) pt q = Some b -> outside a b) ->
    rd (mem s) a = rd (mem s0) a }.

Implicit Types (s : kstate) (l own : list Z).

Lemma holds_start l own : kmem_ok s0 l -> pt_wf s0 pt l -> (forall x, x ∈ l0 <-> x ∈ l \/ x ∈ own) -> NoDup own ->
  (forall x, x ∈ own -> (x ∉ l) /\ forall q, node (mem s0) pt q <> Some x) ->
  holds s0 l own ∅ (fun x off => rd (mem s0) (x + off)).
Proof using All. intros Hk Hwf Hl0 Hnd Hown. split; try done; auto; naive_solver. Qed.

Lemma holds_empty : kmem_ok s0 l0 -> pt_wf s0 pt l0 -> holds s0 l0 [] ∅ (fun x off => rd (mem s0) (x + off)).
Proof using All.
  intros Hk Hwf. apply holds_start; [done|done| |constructor|].
  - intros x. rewrite elem_of_nil. tauto.
  - intros x Hx. by apply elem_of_nil in Hx.
Qed.

Lemma holds_perm s l own own' u c : own ≡ₚ own' -> holds s l own u c -> holds s l own' u c.
Proof using All.
  intros Hp H. assert (forall x, x ∈ own' <-> x ∈ own) as E by (intros x; by rewrite Hp).
  destruct H as [? ? ? Hall Hsub Hnd Hfr ? ? ? Hc ?]. split; try done.
  - intros x Hx. rewrite E. by apply Hall.
  - intros x. rewrite E. apply Hsub.
  - by rewrite <- Hp.
  - intros x. rewrite E. apply Hfr.
  - intros x off. rewrite E. apply Hc.
Qed.

Lemma holds_view s l own u u' c c' : holds s l own u c ->
  (forall va, page_va va -> default (pte_of (mem s0) pt va) (u !! va) = default (pte_of (mem s0) pt va) (u' !! va)) ->
  (forall x off, x ∈ own -> c x off = c' x off) -> holds s l own u' c'.
Proof using All.
  intros H Hu Hc. split; try apply H.
  - intros va Hva. rewrite <- Hu by done. by apply H.
  - intros x off Ho Hoff. rewrite <- Hc by done. by apply H.
Qed.

Lemma ho_syms s l own u c : holds s l own u c -> syms s = syms s0 /\ held s = held s0.
Proof. intros H. split; [apply vm_frame_syms, H|apply vm_frame_held, H]. Qed.

Lemma node_page s l own u c q a : holds s l own u c -> node (mem s) pt q = Some a -> ram_page s0 a.
Proof using All. intros H Hq. apply (ho_new _ _ _ _ _ H) in Hq as [Hq|Hq]; [by eapply Hnodes0|by apply Hpages0]. Qed.

(** Directory pages are added, and leaf entries written. *)
Lemma holds_ext s l own u c s' l' u' : holds s l own u c -> vm_ext s s' pt l l' u' -> holds s' l' own (u' ∪ u) c.
Proof using All.
  intros H Hx. destruct (ext_suffix _ _ _ _ _ _ Hx) as [v Hl].
  assert (forall x, x ∈ own -> (x ∉ l) /\ forall q, node (mem s') pt q <> Some x) as Hfresh.
  { intros x Ho. destruct (ho_fresh _ _ _ _ _ H x Ho) as [Hn Hq]. split; [done|]. intros q E.
    apply (ext_new _ _ _ _ _ _ Hx) in E as [E|E]; [by eapply Hq|done]. }
  split.
  - eapply vm_frame_trans; [apply H|apply Hx].
  - apply Hx.
  - apply Hx.
  - intros x Hx0. destruct (ho_all _ _ _ _ _ H x Hx0) as [Hl'|[Ho|[q Hq]]]; [|by right; left|].
    + apply (ext_taken _ _ _ _ _ _ Hx) in Hl' as [?|?]; auto.
    + right. right. exists q. by apply (ext_node _ _ _ _ _ _ Hx).
  - intros x Hin. apply (ho_sub _ _ _ _ _ H). destruct Hin as [Hin|]; [left|by right]. rewrite Hl. set_solver.
  - apply H.
  - intros x Ho. destruct (Hfresh x Ho) as [Hn Hq]. split; [|done]. rewrite Hl in Hn. set_solver.
  - intros q a Hq. by apply (ext_node _ _ _ _ _ _ Hx), (ho_node _ _ _ _ _ H).
  - intros q a Hq. apply (ext_new _ _ _ _ _ _ Hx) in Hq as [Hq|Hq]; [by eapply ho_new|].
    right. apply (ho_sub _ _ _ _ _ H). by left.
  - intros va Hva. rewrite (ext_pte _ _ _ _ _ _ Hx), (ho_pte _ _ _ _ _ H) by done. rewrite lookup_union.
    by destruct (u' !! va), (u !! va).
  - intros x off Ho Hoff. rewrite <- (ho_content _ _ _ _ _ H) by done. destruct (ho_fresh _ _ _ _ _ H x Ho) as [Hn Hq].
    assert (ram_page s0 x) as Hpx by (apply Hpages0, (ho_sub _ _ _ _ _ H); by right).
    apply (ext_mem _ _ _ _ _ _ Hx).
    + intros y Hy. apply (page_outside s0); [done|apply Hpages0, (ho_sub _ _ _ _ _ H); by left|congruence|done].
    + intros q b Hb. apply (page_outside s0); [done|by eapply node_page|intros ->; by eapply Hq|done].
  - intros a Ha Hn. rewrite <- (ho_mem _ _ _ _ _ H) by done. apply (ext_mem _ _ _ _ _ _ Hx).
    + intros x Hin. apply Ha, (ho_sub _ _ _ _ _ H). by left.
    + intros q b Hb. apply (ho_new _ _ _ _ _ H) in Hb as [Hb|Hb]; [by eapply Hn|by apply Ha].
Qed.

(** The first free page is taken and filled. *)
Definition fill (x : Z) (f : Z -> Z) (c : Z -> Z -> Z) : Z -> Z -> Z := fun y => if decide (y = x) then f else c y.

Lemma same_pt_aside s m x : (forall q b, node (mem s) pt q = Some b -> ram_page s0 b /\ b <> x) -> ram_page s0 x ->
  same_outside x (mem s) m -> same_pt (mem s) m pt.
Proof using All.
  intros Hn Hx Hso q b a Hq Ha. destruct (Hn q b Hq) as [Hb Hne]. apply Hso.
  replace a with (b + (a - b)) by lia. by apply (page_outside s0); [..|lia].
Qed.

Lemma pte_of_same_pt m m' va : same_pt m m' pt -> pte_of m' pt va = pte_of m pt va.
Proof.
  intros H. unfold pte_of, walk0. rewrite (node_same_pt m m') by done.
  destruct (node m pt _) as [b|] eqn:E; [|done]. by rewrite (load64_same_pt _ _ _ _ _ _ H E) by (apply PX_range; lia).
Qed.

Lemma holds_take s x l own u c f m : holds s (x :: l) own u c ->
  same_outside x (mem s) m -> (forall off, 0 <= off < PGSIZE -> rd m (x + off) = f off) ->
  holds (taken_st s x m) l (x :: own) u (fill x f c).
Proof using All.
  intros H Hso Hf. pose proof (ho_kmem _ _ _ _ _ H) as Hk. pose proof (kmem_nodup _ _ Hk) as [Hxl _]%NoDup_cons.
  assert (x ∈ l0) as Hx0 by (apply (ho_sub _ _ _ _ _ H); left; by left).
  pose proof (Hpages0 x Hx0) as Hpx.
  destruct (pt_wf_kalloc s (taken_st s x m) pt x l Hk (ho_wf _ _ _ _ _ H) Hso eq_refl) as [Hpt Hwf].
  assert (forall q, node m pt q = node (mem s) pt q) as Hnode by (intros; by apply node_same_pt).
  assert (x ∉ own) as Hxo by (intros Ho; apply (ho_fresh _ _ _ _ _ H x Ho); by left).
  split; cbn [mem taken_st].
  - eapply vm_frame_trans; [apply H|]. by exists m, (load64 (mem s) x).
  - by apply taken_kmem.
  - done.
  - intros y Hy. destruct (ho_all _ _ _ _ _ H y Hy) as [[->|Hl]%elem_of_cons|[Ho|[q Hq]]];
      [right; left; by left|by left|right; left; by right|]. right. right. exists q. by rewrite <- Hnode in Hq.
  - intros y Hy. apply (ho_sub _ _ _ _ _ H). rewrite !elem_of_cons in *. naive_solver.
  - constructor; [done|apply H].
  - intros y [->|Ho]%elem_of_cons.
    + split; [done|]. intros q Hq. change (node m pt q = Some x) in Hq. rewrite Hnode in Hq.
      apply (pt_page _ _ _ (ho_wf _ _ _ _ _ H)) in Hq as [_ Hq]. apply Hq. by left.
    + destruct (ho_fresh _ _ _ _ _ H y Ho) as [Hn Hq]. split; [set_solver|]. intros q. rewrite Hnode. apply Hq.
  - intros q a Hq. rewrite Hnode. by apply H.
  - intros q a. rewrite Hnode. apply H.
  - intros va Hva. rewrite (pte_of_same_pt (mem s)) by done. by apply H.
  - intros y off Hy Hoff. unfold fill. case_decide as Hc; [subst; auto|]. apply elem_of_cons in Hy as [?|Hy]; [done|].
    rewrite <- (ho_content _ _ _ _ _ H) by done. apply Hso.
    apply (page_outside s0); [apply Hpages0, (ho_sub _ _ _ _ _ H); by right|done..].
  - intros a Ha Hn. rewrite <- (ho_mem _ _ _ _ _ H) by done. apply Hso. apply Ha, Hx0.
Qed.

(** A page is given back. *)
Lemma holds_free s l own1 x own2 u c e : holds s l (own1 ++ x :: own2) u c -> L_kmem ∉ held s0 ->
  exists s', kfree x e s = Ok tt e s' /\ holds s' (x :: l) (own1 ++ own2) u c /\
    forall q, node (mem s') pt q = node (mem s) pt q.
Proof using All.
  intros H Hh. destruct (ho_syms _ _ _ _ _ H) as [Hsy Hhe].
  assert (x ∈ own1 ++ x :: own2) as Hin by set_solver.
  assert (x ∈ l0) as Hx0 by (apply (ho_sub _ _ _ _ _ H); by right). pose proof (Hpages0 x Hx0) as Hpx.
  destruct (ho_fresh _ _ _ _ _ H x Hin) as [Hxl Hxn].
  assert (x ∉ own1 ++ own2) as Hxo.
  { pose proof (ho_nodup _ _ _ _ _ H) as Hnd. rewrite <- Permutation_middle in Hnd. by apply NoDup_cons in Hnd as [? _]. }
  destruct (kfree_spec x l e s (ho_kmem _ _ _ _ _ H)) as (s' & Hr & Hk & Hso & Hfr);
    [by eapply ram_page_syms|done|by rewrite Hhe|]. exists s'. split; [done|].
  assert (same_pt (mem s) (mem s') pt) as Hpt.
  { apply (same_pt_aside s (mem s') x); [|done|done]. intros q b Hq. split; [by eapply node_page|]. intros ->. by eapply Hxn. }
  assert (forall q, node (mem s') pt q = node (mem s) pt q) as Hnode by (intros; by apply node_same_pt).
  assert (forall y, y ∈ own1 ++ own2 -> y ∈ own1 ++ x :: own2 /\ y <> x) as Hsub.
  { intros y Hy. split; [set_solver|]. by intros ->. }
  split; [|done]. split.
  - eapply vm_frame_trans; [apply H|done].
  - done.
  - split.
    + intros q1 q2 a. rewrite !Hnode. apply (ho_wf _ _ _ _ _ H).
    + intros q a. rewrite Hnode. intros Hq. pose proof (pt_page _ _ _ (ho_wf _ _ _ _ _ H) _ _ Hq) as [Hp Hn].
      split; [eapply ram_page_syms; [by apply vm_frame_syms|done]|]. intros [->|?]%elem_of_cons; [by eapply Hxn|done].
  - intros y Hy. destruct (ho_all _ _ _ _ _ H y Hy) as [Hl|[Ho|[q Hq]]]; [left; by right| |].
    + destruct (decide (y = x)) as [->|Hne]; [left; by left|right; left]. set_solver.
    + right. right. exists q. by rewrite Hnode.
  - intros y [[->|Hy]%elem_of_cons|Hy]; [done|apply (ho_sub _ _ _ _ _ H); by left|].
    apply (ho_sub _ _ _ _ _ H). right. by apply Hsub.
  - pose proof (ho_nodup _ _ _ _ _ H) as Hnd. rewrite <- Permutation_middle in Hnd. by apply NoDup_cons in Hnd as [_ ?].
  - intros y Hy. destruct (Hsub y Hy) as [Ho Hne]. destruct (ho_fresh _ _ _ _ _ H y Ho) as [Hn Hq].
    split; [set_solver|]. intros q. rewrite Hnode. apply Hq.
  - intros q a Hq. rewrite Hnode. by apply H.
  - intros q a. rewrite Hnode. apply H.
  - intros va Hva. rewrite (pte_of_same_pt (mem s)) by done. by apply H.
  - intros y off Hy Hoff. destruct (Hsub y Hy) as [Ho Hne]. rewrite <- (ho_content _ _ _ _ _ H) by done. apply Hso.
    apply (page_outside s0); [apply Hpages0, (ho_sub _ _ _ _ _ H); by right|done..].
  - intros a Ha Hn. rewrite <- (ho_mem _ _ _ _ _ H) by done. apply Hso, Ha, Hx0.
Qed.

(** ** [uvmunmap] *)

Lemma pte_slot m va : pte_of m pt va <> 0 -> exists A, walk0 m pt va = Some A.
Proof. unfold pte_of. destruct (walk0 m pt va); [eauto|done]. Qed.

Lemma holds_slot s l own u c va A : holds s l own u c -> walk0 (mem s) pt va = Some A -> 0 < A.
Proof using All.
  intros H. unfold walk0. destruct (node _ pt _) as [b|] eqn:E; [intros [= <-]|done].
  pose proof (ram_page_range _ _ (kmem_end _ _ (ho_kmem _ _ _ _ _ H)) (proj1 (pt_page _ _ _ (ho_wf _ _ _ _ _ H) _ _ E))).
  pose proof (PX_range 0 va). lia.
Qed.

Lemma unmap_page va npages a s l x own u c e : holds s l (x :: own) u c -> L_kmem ∉ held s0 ->
  page_va a -> a < u64 (va + u64 (npages * PGSIZE)) -> maps_to (pte_of (mem s) pt a) x ->
  exists s' l', uvmunmap_body pt va npages true a e s = Ok (inl (a + PGSIZE)) e s' /\
    holds s' l' own ({[a := 0]} ∪ u) c.
Proof using All.
  intros H Hh Ha Hlt (HV & HF & <-).
  destruct (pte_slot (mem s) a) as [A HA]; [by intros E; rewrite E in HV|].
  pose proof (holds_slot _ _ _ _ _ _ _ H HA) as HApos.
  destruct (holds_free s l [] _ own u c e H Hh) as (s1 & Hr & H1 & Hnode). cbn [app] in H1.
  assert (walk0 (mem s1) pt a = Some A) as HA1.
  { unfold walk0 in *. by rewrite Hnode. }
  eexists _, _. split.
  - unfold uvmunmap_body. destruct (Z.ltb_spec a (u64 (va + u64 (npages * PGSIZE)))); [|lia]. cbn [negb].
    rewrite (bindK_Ok _ _ _ _ _ _ _ (walk_noalloc pt a e s ltac:(apply Ha))), HA. cbn [default from_option id].
    destruct (Z.eqb_spec A 0); [lia|]. unfold loadK. kred.
    assert (load64 (mem s) A = pte_of (mem s) pt a) as -> by (unfold pte_of; by rewrite HA).
    rewrite HV. cbn [negb]. destruct (Z.eqb_spec (PTE_FLAGS (pte_of (mem s) pt a)) PTE_V); [done|].
    kred. rewrite Hr. unfold storeK. kred.
    rewrite u64_small by (unfold page_va in Ha; change MAXVA with (2 ^ 38) in Ha; unfold PGSIZE; lia). done.
  - eapply holds_ext; [exact H1|].
    apply (set_leaf_ext s1 pt _ a A 0 (ho_wf _ _ _ _ _ H1) Ha HA1 (ho_kmem _ _ _ _ _ H1)).
Qed.

Lemma page_va_at a (i n : nat) : 0 <= a -> a mod PGSIZE = 0 -> a + PGSIZE * Z.of_nat n <= MAXVA -> (i < n)%nat ->
  page_va (a + PGSIZE * Z.of_nat i).
Proof.
  intros Ha Hm Hle Hi. split; [unfold PGSIZE in *; lia|].
  rewrite Z.mul_comm, Z.mod_add by done. done.
Qed.

Lemma unmap_loop va npages c e ps : forall fuel a s l rest u, holds s l (ps ++ rest) u c -> L_kmem ∉ held s0 ->
  (length ps < fuel)%nat -> 0 <= a -> a mod PGSIZE = 0 -> a + PGSIZE * Z.of_nat (length ps) <= MAXVA ->
  u64 (va + u64 (npages * PGSIZE)) = a + PGSIZE * Z.of_nat (length ps) ->
  (forall i x, ps !! i = Some x -> maps_to (pte_of (mem s) pt (a + PGSIZE * Z.of_nat i)) x) ->
  exists s' l', whileK fuel (uvmunmap_body pt va npages true) a e s = Ok tt e s' /\
    holds s' l' rest (entries a (replicate (length ps) 0) ∪ u) c.
Proof using All.
  induction ps as [|x ps IH]; intros [|fuel] a s l rest u H Hh Hf Ha Hal Hmax Hend Hm; cbn [length] in *; try lia.
  - exists s, l. cbn [app] in H. cbn [replicate entries]. rewrite (left_id_L ∅ (∪)). split; [|done]. cbn [whileK]. unfold uvmunmap_body.
    rewrite Hend. destruct (Z.ltb_spec a (a + PGSIZE * Z.of_nat 0)); [lia|done].
  - assert (page_va a) as Hpa by (rewrite <- (Z.add_0_r a), <- (Z.mul_0_r PGSIZE); by apply (page_va_at a 0 (S (length ps))); [..|lia]).
    destruct (unmap_page va npages a s l x (ps ++ rest) u c e) as (s1 & l1 & Hr & H1); [done|done|done|..].
    { rewrite Hend. unfold PGSIZE. lia. }
    { specialize (Hm 0%nat x eq_refl). by rewrite Z.mul_0_r, Z.add_0_r in Hm. }
    destruct (IH fuel (a + PGSIZE) s1 l1 rest ({[a := 0]} ∪ u)) as (s2 & l2 & Hr2 & H2); try done.
    + lia.
    + unfold PGSIZE; lia.
    + by apply next_page_aligned.
    + unfold PGSIZE in *; lia.
    + rewrite Hend. unfold PGSIZE; lia.
    + intros i y Hy. pose proof (lookup_lt_Some _ _ _ Hy). specialize (Hm (S i) y Hy).
      replace (a + PGSIZE + PGSIZE * Z.of_nat i) with (a + PGSIZE * Z.of_nat (S i)) by lia.
      pose proof (page_va_at a (S i) (S (length ps)) Ha Hal Hmax ltac:(lia)) as Hva.
      rewrite (ho_pte _ _ _ _ _ H) in Hm by done. rewrite (ho_pte _ _ _ _ _ H1) by done.
      by rewrite lookup_union_r by (apply lookup_singleton_ne; unfold PGSIZE; lia).
    + exists s2, l2. cbn [replicate]. rewrite <- entries_cons. split; [|done].
      cbn [whileK]. by rewrite (bindK_Ok _ _ _ _ _ _ _ Hr).
Qed.

(** Unmapping pages that are owned frees exactly them. *)
Lemma uvmunmap_frees va c e ps s l rest u : holds s l (ps ++ rest) u c -> L_kmem ∉ held s0 ->
  0 <= va -> va mod PGSIZE = 0 -> va + PGSIZE * Z.of_nat (length ps) <= MAXVA ->
  (forall i x, ps !! i = Some x -> maps_to (pte_of (mem s) pt (va + PGSIZE * Z.of_nat i)) x) ->
  exists s' l', uvmunmap pt va (Z.of_nat (length ps)) true e s = Ok tt e s' /\
    holds s' l' rest (entries va (replicate (length ps) 0) ∪ u) c.
Proof using All.
  intros H Hh Hva Hal Hmax Hm. unfold uvmunmap. rewrite Hal. cbn [Z.eqb negb].
  apply (unmap_loop va _ c e ps _ va s l rest u); try done; [lia|].
  change MAXVA with (2 ^ 38) in Hmax. unfold PGSIZE in *. rewrite (u64_small (_ * 4096)), u64_small by lia; lia.
Qed.

(** ** Taking, filling and mapping one page

    [uvmalloc] and [uvmcopy] share this tail of their loop bodies: [fillm] fills the page and
    [undo] gives back what was mapped before it. *)

Definition grow_page {A} (fillm : gmap Z Z -> Z -> gmap Z Z) (perm : Z) (undo : K A) (err a : Z) : K (Z + Z) :=
  pg <- kalloc ;;
  if pg =? 0 then undo ;;; retK (inr err) else
  modifyK (fun s => s <| mem := fillm (mem s) pg |>) ;;;
  r <- mappages pt a PGSIZE pg perm ;;
  if negb (r =? 0) then kfree pg ;;; undo ;;; retK (inr err)
  else retK (inl (u64 (a + PGSIZE))).

Lemma page_count_one a : a mod PGSIZE = 0 -> page_count a PGSIZE = 1%nat /\ PGROUNDDOWN a = a.
Proof.
  intros Ha. unfold page_count. rewrite !PGROUNDDOWN_div. apply Z.div_exact in Ha; [|done].
  assert ((a + PGSIZE - 1) / PGSIZE = a / PGSIZE) as ->; [|split; [by rewrite Z.sub_diag|lia]].
  symmetry. apply (Z.div_unique_pos _ _ _ (PGSIZE - 1)); unfold PGSIZE in *; lia.
Qed.

Lemma map_owned s l own u c x a perm e : holds s l (x :: own) u c -> L_kmem ∉ held s0 ->
  page_va a -> 0 <= perm < 1024 -> flag (pte_of (mem s) pt a) PTE_V = false ->
  exists r s' l', mappages pt a PGSIZE x perm e s = Ok r e s' /\
    ((r = 0 /\ holds s' l' (own ++ [x]) ({[a := leaf_pte x perm]} ∪ u) c) \/
     (r = -1 /\ holds s' l' (x :: own) u c)).
Proof using All.
  intros H Hh Ha Hp Hv. destruct (page_count_one a (proj2 Ha)) as [Hn Hd]. destruct (ho_syms _ _ _ _ _ H) as [Hsy Hhe].
  assert (ram_page s x) as Hx.
  { eapply ram_page_syms; [done|]. apply Hpages0, (ho_sub _ _ _ _ _ H). right. by left. }
  pose proof (ram_page_range _ _ (kmem_end _ _ (ho_kmem _ _ _ _ _ H)) Hx) as Hr.
  destruct (mappages_spec pt a PGSIZE x perm l e s) as (r & k & l' & s' & Hm & Hx' & Hc).
  - apply Ha.
  - done.
  - destruct (aligned_eq_or_apart a MAXVA (proj2 Ha) eq_refl); destruct Ha; lia.
  - apply H.
  - apply H.
  - by rewrite Hhe.
  - lia.
  - rewrite Hn. unfold PGSIZE. lia.
  - done.
  - rewrite Hn, Hd. intros i Hi. assert (i = 0) as -> by lia. by rewrite Z.mul_0_r, Z.add_0_r.
  - exists r, s', l'. split; [done|]. pose proof (holds_ext _ _ _ _ _ _ _ _ H Hx') as H'. rewrite Hn in Hc.
    destruct Hc as [[-> ->]|(-> & Hk & _)].
    + left. split; [done|]. cbn in H'. rewrite Hd, insert_empty in H'. eapply holds_perm; [|exact H'].
      by rewrite Permutation_app_comm.
    + right. split; [done|]. assert (k = 0%nat) as -> by lia. cbn in H'. by rewrite (left_id_L ∅ (∪)) in H'.
Qed.

Lemma grow_page_spec {A} fillm f perm (undo : K A) err a s l ps u c u' e :
  holds s l ps u c -> L_kmem ∉ held s0 -> page_va a -> 0 <= perm < 1024 ->
  flag (pte_of (mem s) pt a) PTE_V = false ->
  (forall m x, x ∈ l -> same_outside x (mem s) m ->
    same_outside x (mem s) (fillm m x) /\ forall off, 0 <= off < PGSIZE -> rd (fillm m x) (x + off) = f off) ->
  (forall s1 l1, holds s1 l1 ps u c -> exists r s2 l2, undo e s1 = Ok r e s2 /\ holds s2 l2 [] u' c) ->
  exists s' l',
    (exists x, grow_page fillm perm undo err a e s = Ok (inl (a + PGSIZE)) e s' /\ (x ∉ ps) /\
      holds s' l' (ps ++ [x]) ({[a := leaf_pte x perm]} ∪ u) (fill x f c)) \/
    (grow_page fillm perm undo err a e s = Ok (inr err) e s' /\ holds s' l' [] u' c).
Proof using All.
  intros H Hh Ha Hp Hv Hfill Hundo. destruct (ho_syms _ _ _ _ _ H) as [_ Hhe]. unfold grow_page. destruct l as [|x l].
  { rewrite (bindK_Ok _ _ _ _ _ _ _ (kalloc_empty e s (ho_kmem _ _ _ _ _ H) ltac:(by rewrite Hhe))). cbn [Z.eqb].
    destruct (Hundo s [] H) as (r & s2 & l2 & Hr & H2). exists s2, l2. right. by rewrite (bindK_Ok _ _ _ _ _ _ _ Hr). }
  assert (x ∉ ps) as Hxps by (intros Hx; apply (ho_fresh _ _ _ _ _ H x Hx); by left).
  assert (ram_page s0 x) as Hpx by (apply Hpages0, (ho_sub _ _ _ _ _ H); left; by left).
  rewrite (bindK_Ok _ _ _ _ _ _ _ (kalloc_run x l e s (ho_kmem _ _ _ _ _ H) ltac:(by rewrite Hhe))).
  destruct (Z.eqb_spec x 0) as [->|_].
  { pose proof (kmem_end _ _ (ho_kmem _ _ _ _ _ H)) as He. rewrite (proj1 (ho_syms _ _ _ _ _ H)) in He.
    pose proof (ram_page_range _ _ He Hpx). lia. }
  set (m := memset (mem s) x 5 PGSIZE). assert (same_outside x (mem s) m) as Hm.
  { intros b Hb. unfold m. rewrite rd_memset. rewrite decide_False; [done|]. unfold outside in Hb. lia. }
  destruct (Hfill m x ltac:(by left) Hm) as [Hso Hrd].
  pose proof (holds_take s x l ps u c f _ H Hso Hrd) as H1. set (s1 := taken_st s x (fillm m x)) in *.
  rewrite (bindK_Ok _ _ e _ tt e s1) by reflexivity.
  assert (flag (pte_of (mem s1) pt a) PTE_V = false) as Hv1.
  { rewrite (ho_pte _ _ _ _ _ H1), <- (ho_pte _ _ _ _ _ H) by done. done. }
  destruct (map_owned s1 l ps u _ x a perm e H1 Hh Ha Hp Hv1) as (r & s2 & l2 & Hr & [[-> H2]|[-> H2]]);
    rewrite (bindK_Ok _ _ _ _ _ _ _ Hr); cbn [Z.eqb negb].
  { exists s2, l2. left. exists x. split; [|done].
    rewrite u64_small by (unfold page_va in Ha; change MAXVA with (2 ^ 38) in Ha; unfold PGSIZE; lia). done. }
  destruct (holds_free s2 l2 [] x ps u _ e H2 Hh) as (s3 & Hf & H3 & _). cbn [app] in H3.
  rewrite (bindK_Ok _ _ _ _ _ _ _ Hf).
  assert (holds s3 (x :: l2) ps u c) as H3'.
  { eapply holds_view; [exact H3|done|]. intros y off Hy. unfold fill. by rewrite decide_False by by intros ->. }
  destruct (Hundo s3 _ H3') as (r & s4 & l4 & Hr4 & H4). exists s4, l4. right. by rewrite (bindK_Ok _ _ _ _ _ _ _ Hr4).
Qed.

Lemma holds_uvm_ext s l ps u c lo hi : holds s l ps u c ->
  (forall va, page_va va -> va < lo \/ hi <= va -> u !! va = None) -> uvm_ext s0 s pt l0 l ps lo hi.
Proof using All.
  intros H Hu. split; try apply H.
  - split; [apply H|]. intros x Hx. split; [apply (ho_sub _ _ _ _ _ H); by right|by apply (ho_fresh _ _ _ _ _ H)].
  - intros x Hx. apply (ho_sub _ _ _ _ _ H). by left.
  - intros va Hva Hout. by rewrite (ho_pte _ _ _ _ _ H), Hu.
Qed.

(** ** The loop over the pages

    Page [i] is mapped at [base + PGSIZE * i] with permissions [perm i] and contents [f i]. *)
Section Grow.
Context (base : Z) (N : nat) (perm : nat -> Z) (f : nat -> Z -> Z) (ok err : Z) (body : Z -> K (Z + Z)).
Hypothesis Hlock : L_kmem ∉ held s0.
Hypothesis Hbase : 0 <= base /\ base mod PGSIZE = 0 /\ base + PGSIZE * Z.of_nat N <= MAXVA.
Hypothesis Hperm : forall i, (i < N)%nat -> 0 <= perm i < 1024 /\ Z.lor (perm i) PTE_V <> PTE_V.
Hypothesis Hunmapped : forall i, (i < N)%nat -> flag (pte_of (mem s0) pt (base + PGSIZE * Z.of_nat i)) PTE_V = false.

Definition leaves (ps : list Z) : gmap Z Z := entries base (imap (fun i x => leaf_pte x (perm i)) ps).

Definition grown (s : kstate) (l ps : list Z) : Prop :=
  exists c, holds s l ps (leaves ps) c /\
    forall i x off, ps !! i = Some x -> 0 <= off < PGSIZE -> c x off = f i off.

(** What an iteration does: it is [grow_page], with [f i] what the page is filled with and
    [undo] the unmapping of the pages before it. *)
Hypothesis Hdone : forall e s, body (base + PGSIZE * Z.of_nat N) e s = Ok (inr ok) e s.
Hypothesis Hmore : forall e s l ps c, (length ps < N)%nat -> holds s l ps (leaves ps) c ->
  exists (A : Type) fillm (undo : K A),
    body (base + PGSIZE * Z.of_nat (length ps)) e s =
      grow_page fillm (perm (length ps)) undo err (base + PGSIZE * Z.of_nat (length ps)) e s /\
    (forall m x, x ∈ l -> same_outside x (mem s) m -> same_outside x (mem s) (fillm m x) /\
      forall off, 0 <= off < PGSIZE -> rd (fillm m x) (x + off) = f (length ps) off) /\
    (forall s1 s2, uvmunmap pt base (Z.of_nat (length ps)) true e s1 = Ok tt e s2 ->
      exists r, undo e s1 = Ok r e s2).

Lemma leaves_snoc ps x :
  leaves (ps ++ [x]) = <[base + PGSIZE * Z.of_nat (length ps) := leaf_pte x (perm (length ps))]> (leaves ps).
Proof. unfold leaves. rewrite imap_app. cbn. by rewrite entries_snoc, length_imap, Nat.add_0_r. Qed.

Lemma leaves_map s l ps c i x : holds s l ps (leaves ps) c -> (length ps <= N)%nat -> ps !! i = Some x ->
  maps_to (pte_of (mem s) pt (base + PGSIZE * Z.of_nat i)) x.
Proof using All.
  intros H Hn Hi. pose proof (lookup_lt_Some _ _ _ Hi). destruct Hbase as (Hb & Hal & Hmax).
  rewrite (ho_pte _ _ _ _ _ H) by (by apply (page_va_at base i N); [..|lia]).
  unfold leaves. rewrite entries_page, list_lookup_imap, Hi. cbn.
  assert (ram_page s x) as Hx.
  { eapply ram_page_syms; [apply (ho_syms _ _ _ _ _ H)|]. apply Hpages0, (ho_sub _ _ _ _ _ H). right.
    by eapply list_elem_of_lookup_2. }
  pose proof (ram_page_range _ _ (kmem_end _ _ (ho_kmem _ _ _ _ _ H)) Hx).
  apply maps_to_leaf; [lia|apply Hx|apply Hperm; lia..].
Qed.

Lemma undo_frees s l ps c e : holds s l ps (leaves ps) c -> (length ps <= N)%nat ->
  exists s' l', uvmunmap pt base (Z.of_nat (length ps)) true e s = Ok tt e s' /\
    holds s' l' [] (entries base (replicate (length ps) 0)) c.
Proof using All.
  intros H Hn. destruct Hbase as (Hb & Hal & Hmax).
  destruct (uvmunmap_frees base c e ps s l [] (leaves ps)) as (s' & l' & Hr & H'); try done.
  - by rewrite app_nil_r.
  - unfold PGSIZE in *. lia.
  - intros i x Hi. by eapply leaves_map.
  - exists s', l'. split; [done|]. unfold leaves in H'.
    by rewrite entries_cover in H' by (by rewrite length_imap, length_replicate).
Qed.

Lemma grow_loop k e : forall fuel s l ps, (length ps + k = N)%nat -> (k < fuel)%nat -> grown s l ps ->
  exists s' l',
    (exists ps', whileK fuel body (base + PGSIZE * Z.of_nat (length ps)) e s = Ok ok e s' /\
      length ps' = N /\ grown s' l' ps') \/
    (exists j c, whileK fuel body (base + PGSIZE * Z.of_nat (length ps)) e s = Ok err e s' /\ (j <= N)%nat /\
      holds s' l' [] (entries base (replicate j 0)) c).
Proof using All.
  induction k as [|k IH]; intros [|fuel] s l ps Hlen Hf Hg; try lia; cbn [whileK].
  { exists s, l. left. exists ps. rewrite Nat.add_0_r in Hlen. rewrite Hlen.
    by rewrite (bindK_Ok _ _ _ _ _ _ _ (Hdone e s)). }
  destruct Hg as (c & H & Hc). destruct Hbase as (Hb & Hal & Hmax).
  destruct (Hmore e s l ps c ltac:(lia) H) as (A & fillm & undo & Hbody & Hfill & Hundo).
  set (a := base + PGSIZE * Z.of_nat (length ps)) in *.
  assert (page_va a) as Ha by (by apply (page_va_at base (length ps) N); [..|lia]).
  destruct (grow_page_spec fillm (f (length ps)) (perm (length ps)) undo err a s l ps (leaves ps) c
    (entries base (replicate (length ps) 0)) e) as (s' & l' & [(x & Hr & Hx & H')|(Hr & H')]); try done.
  - apply Hperm. lia.
  - rewrite (ho_pte _ _ _ _ _ H) by done. unfold leaves. rewrite entries_ge by (rewrite length_imap; unfold a; lia).
    apply Hunmapped. lia.
  - intros s1 l1 H1. destruct (undo_frees s1 l1 ps c e H1) as (s2 & l2 & Hu & H2); [lia|].
    destruct (Hundo s1 s2 Hu) as [r ?]. by exists r, s2, l2.
  - rewrite <- Hbody in Hr. rewrite (bindK_Ok _ _ _ _ _ _ _ Hr).
    replace (a + PGSIZE) with (base + PGSIZE * Z.of_nat (length (ps ++ [x])))
      by (unfold a; rewrite length_app; cbn [length]; lia).
    apply IH with l'; [rewrite length_app; cbn [length]; lia|lia|]. exists (fill x (f (length ps)) c).
    rewrite leaves_snoc, insert_union_singleton_l. split; [done|]. intros i y off Hy Hoff. unfold fill.
    apply lookup_snoc_Some in Hy as [[Hi Hy]|[-> ->]]; [|by rewrite decide_True].
    rewrite decide_False; [by apply Hc|]. intros ->. by eapply Hx, list_elem_of_lookup_2.
  - rewrite <- Hbody in Hr. rewrite (bindK_Ok _ _ _ _ _ _ _ Hr). exists s', l'. right. exists (length ps), c. split; [done|]. split; [lia|done].
Qed.

Lemma grow_run fuel e : kmem_ok s0 l0 -> pt_wf s0 pt l0 -> (N < fuel)%nat ->
  exists r s' l' ps, whileK fuel body base e s0 = Ok r e s' /\
    uvm_ext s0 s' pt l0 l' ps base (base + PGSIZE * Z.of_nat N) /\
    ((r = ok /\ forall i, (i < N)%nat -> exists x, x ∈ ps /\
        pte_of (mem s') pt (base + PGSIZE * Z.of_nat i) = leaf_pte x (perm i) /\
        forall off, 0 <= off < PGSIZE -> rd (mem s') (x + off) = f i off) \/
     (r = err /\ ps = [] /\
      forall i, (i < N)%nat -> flag (pte_of (mem s') pt (base + PGSIZE * Z.of_nat i)) PTE_V = false)).
Proof using All.
  intros Hk Hwf Hf. destruct Hbase as (Hb & Hal & Hmax).
  assert (forall vs va, (length vs <= N)%nat -> va < base \/ base + PGSIZE * Z.of_nat N <= va -> entries base vs !! va = None) as Hout.
  { intros vs va Hn [?|?]; [by apply entries_lt|apply entries_ge; unfold PGSIZE in *; lia]. }
  destruct (grow_loop N e fuel s0 l0 []) as (s' & l' & [(ps & Hr & Hlen & c & H & Hc)|(j & c & Hr & Hj & H)]); [done|done| | |].
  { exists (fun x off => rd (mem s0) (x + off)). split; [by apply holds_empty|done]. }
  - cbn [length] in Hr. rewrite Z.mul_0_r, Z.add_0_r in Hr. exists ok, s', l', ps. split; [done|]. split.
    + eapply holds_uvm_ext; [exact H|]. intros va _ Hva. apply Hout; [by rewrite length_imap, Hlen|done].
    + left. split; [done|]. intros i Hi. destruct (lookup_lt_is_Some_2 ps i) as [x Hx]; [lia|].
      exists x. split; [by eapply list_elem_of_lookup_2|]. split.
      * rewrite (ho_pte _ _ _ _ _ H) by (by apply (page_va_at base i N); [..|lia]).
        unfold leaves. by rewrite entries_page, list_lookup_imap, Hx.
      * intros off Hoff. rewrite (ho_content _ _ _ _ _ H) by (done || by eapply list_elem_of_lookup_2). by apply Hc.
  - cbn [length] in Hr. rewrite Z.mul_0_r, Z.add_0_r in Hr. exists err, s', l', []. split; [done|]. split.
    + eapply holds_uvm_ext; [exact H|]. intros va _ Hva. apply Hout; [by rewrite length_replicate|done].
    + right. split; [done|]. split; [done|]. intros i Hi.
      rewrite (ho_pte _ _ _ _ _ H) by (by apply (page_va_at base i N); [..|lia]). rewrite entries_page.
      destruct (replicate j 0 !! i) as [v|] eqn:E; [|by apply Hunmapped]. by apply lookup_replicate in E as [-> _].
Qed.
End Grow.
End Holds.

(** A page of the range, as an index into [ps]. *)
Lemma page_index lo (n : nat) va : lo mod PGSIZE = 0 -> page_va va -> lo <= va < lo + PGSIZE * Z.of_nat n ->
  exists i, (i < n)%nat /\ va = lo + PGSIZE * Z.of_nat i.
Proof.
  intros Hl [_ Ha] Hr. exists (Z.to_nat ((va - lo) / PGSIZE)).
  assert ((va - lo) mod PGSIZE = 0) as Hm by (rewrite Zminus_mod, Ha, Hl; done).
  apply Z.div_exact in Hm; [|done]. assert (0 <= (va - lo) / PGSIZE) by (apply Z.div_pos; unfold PGSIZE; lia).
  unfold PGSIZE in *. lia.
Qed.

(** Two tables without a common page; the one that is not changed stays as it is. *)
Definition apart (m : gmap Z Z) (pt pt' : Z) : Prop :=
  forall q q' a, node m pt q = Some a -> node m pt' q' <> Some a.

Lemma other_table s s' pt pt' l : (forall x, x ∈ l -> ram_page s x) -> pt_wf s pt l -> pt_wf s pt' l -> apart (mem s) pt pt' ->
  (forall a, (forall x, x ∈ l -> outside a x) -> (forall q b, node (mem s) pt q = Some b -> outside a b) ->
    rd (mem s') a = rd (mem s) a) -> same_pt (mem s) (mem s') pt'.
Proof.
  intros Hpg Hwf Hwf' Hap Hm q b a Hq Ha. pose proof (pt_page _ _ _ Hwf' _ _ Hq) as [Hb Hbl].
  apply Hm; [intros x Hin|intros q' b' Hq']; replace a with (b + (a - b)) by lia; apply (page_outside s); try done; try lia.
  - by apply Hpg.
  - congruence.
  - by eapply (pt_page _ _ _ Hwf).
  - intros ->. by eapply Hap.
Qed.

Lemma kmem_page s l : kmem_ok s l -> forall x, x ∈ l -> ram_page s x.
Proof. intros Hk. apply Forall_forall, Hk. Qed.

Lemma table_page s pt l : pt_wf s pt l -> forall q a, node (mem s) pt q = Some a -> ram_page s a.
Proof. intros Hwf q a Hq. by apply (pt_page _ _ _ Hwf) in Hq as [? _]. Qed.

(** The bytes of a page that is mapped for the user. *)
Lemma upa_leaf m pt va x perm : 0 <= va < MAXVA -> pte_of m pt (PGROUNDDOWN va) = leaf_pte x perm ->
  0 < x < 2 ^ 56 -> x mod PGSIZE = 0 -> 0 <= perm < 1024 ->
  upa m pt va = if flag perm PTE_U then Some (x + (va - PGROUNDDOWN va)) else None.
Proof.
  intros Hva E Hx Hal Hp. unfold upa. destruct (Z.leb_spec 0 va); [|lia]. destruct (Z.ltb_spec va MAXVA); [|lia].
  cbn [andb]. unfold user_page. rewrite E, flag_leaf_V, flag_leaf_U by (done || lia). destruct (flag perm PTE_U); [|done].
  cbn [andb]. rewrite PTE2PA_leaf by (done || lia). by destruct (Z.eqb_spec x 0); [lia|].
Qed.

(** ** [uvmalloc] *)

Definition PTE_user : Z := Z.lor (Z.lor (Z.lor PTE_W PTE_X) PTE_R) PTE_U.

Lemma uvmdealloc_unmap pt base (n : nat) e s s2 : 0 <= base -> base mod PGSIZE = 0 ->
  base + PGSIZE * Z.of_nat n <= MAXVA -> uvmunmap pt base (Z.of_nat n) true e s = Ok tt e s2 ->
  exists r, uvmdealloc pt (base + PGSIZE * Z.of_nat n) base e s = Ok r e s2.
Proof.
  intros Hb Hal Hmax Hu. change MAXVA with (2 ^ 38) in Hmax. unfold uvmdealloc, PGSIZE in *.
  destruct (Z.leb_spec (base + 4096 * Z.of_nat n) base) as [Hle|Hlt].
  { assert (n = 0%nat) as -> by lia. eexists. unfold uvmunmap in Hu. change PGSIZE with 4096 in Hu. rewrite Hal in Hu.
    cbn in Hu. unfold uvmunmap_body, u64 in Hu. change PGSIZE with 4096 in Hu.
    rewrite Z.add_0_r, Z.mod_small in Hu by lia. rewrite Z.ltb_irrefl in Hu. cbn in Hu. by injection Hu as ->. }
  rewrite !PGROUNDUP_id; unfold PGSIZE; try lia; [|by rewrite Z.mul_comm, Z.mod_add].
  destruct (Z.ltb_spec base (base + 4096 * Z.of_nat n)); [|lia].
  replace (base + 4096 * Z.of_nat n - base) with (Z.of_nat n * 4096) by lia. rewrite Z.div_mul by done.
  rewrite i32_small, u64_small by lia. rewrite (bindK_Ok _ _ _ _ _ _ _ Hu). by eexists.
Qed.

Lemma round_pages base sz : 0 <= base -> base mod PGSIZE = 0 -> 0 <= sz <= MAXVA -> base < sz + PGSIZE ->
  exists N, base + PGSIZE * Z.of_nat N = PGROUNDUP sz /\ (N < S (Z.to_nat ((sz - base) / PGSIZE + 1)))%nat /\
    PGROUNDUP sz <= MAXVA /\ sz <= PGROUNDUP sz < sz + PGSIZE.
Proof.
  intros Hb Hal Hsz Hlt. change MAXVA with (2 ^ 38) in *.
  pose proof (PGROUNDUP_bounds sz ltac:(unfold PGSIZE; lia)) as Hbn. pose proof (PGROUNDUP_aligned sz) as Han.
  set (top := PGROUNDUP sz) in *.
  assert (base <= top) as Hbt by (destruct (aligned_eq_or_apart base top Hal Han) as [|[]]; unfold PGSIZE in *; lia).
  assert (top <= 2 ^ 38) as Htm by (destruct (aligned_eq_or_apart top (2 ^ 38) Han eq_refl) as [|[]]; unfold PGSIZE in *; lia).
  assert ((top - base) mod PGSIZE = 0) as Hm by (rewrite Zminus_mod, Han, Hal; done). apply Z.div_exact in Hm; [|done].
  assert (0 <= (top - base) / PGSIZE) by (apply Z.div_pos; unfold PGSIZE; lia).
  exists (Z.to_nat ((top - base) / PGSIZE)). split; [rewrite Z2Nat.id by done; lia|]. split; [|done].
  replace ((sz - base) / PGSIZE + 1) with ((sz - base + PGSIZE) / PGSIZE)
    by (rewrite <- (Z.mul_1_l PGSIZE) at 1; by rewrite Z.div_add). apply Nat.lt_succ_r, Z2Nat.inj_le; [done| |].
  - apply Z.div_pos; unfold PGSIZE in *; lia.
  - apply Z.div_le_mono; unfold PGSIZE in *; lia.
Qed.

Lemma uvmalloc_run pt oldsz newsz l e s :
  kmem_ok s l -> pt_wf s pt l -> L_kmem ∉ held s -> 0 <= oldsz <= newsz -> newsz <= MAXVA ->
  (forall va, page_va va -> PGROUNDUP oldsz <= va < newsz -> flag (pte_of (mem s) pt va) PTE_V = false) ->
  exists r s' l' ps, uvmalloc pt oldsz newsz e s = Ok r e s' /\
    uvm_ext s s' pt l l' ps (PGROUNDUP oldsz) (PGROUNDUP newsz) /\
    ((r = newsz /\ forall va, page_va va -> PGROUNDUP oldsz <= va < PGROUNDUP newsz -> exists x, x ∈ ps /\
        pte_of (mem s') pt va = leaf_pte x PTE_user /\ forall off, 0 <= off < PGSIZE -> rd (mem s') (x + off) = 0) \/
     (r = 0 /\ ps = [] /\ forall va, page_va va -> PGROUNDUP oldsz <= va < PGROUNDUP newsz ->
        flag (pte_of (mem s') pt va) PTE_V = false)).
Proof.
  intros Hk Hwf Hh Hsz Hmax Hun.
  pose proof (PGROUNDUP_bounds oldsz ltac:(change MAXVA with (2 ^ 38) in *; unfold PGSIZE; lia)) as Hbo.
  pose proof (PGROUNDUP_aligned oldsz) as Hao. set (base := PGROUNDUP oldsz) in *.
  destruct (round_pages base newsz) as (N & HN & Hfuel & Hmaxt & Htop); [lia|done|lia|lia|]. set (top := PGROUNDUP newsz) in *.
  unfold uvmalloc. destruct (Z.ltb_spec newsz oldsz); [lia|]. fold base.
  destruct (grow_run s l pt (kmem_page s l Hk) (table_page s pt l Hwf) base N (fun _ => PTE_user) (fun _ _ => 0) newsz 0
    (uvmalloc_body pt base newsz)) with (fuel := S (Z.to_nat ((newsz - base) / PGSIZE + 1))) (e := e)
    as (r & s' & l' & ps & Hr & Hx & Hc); try done.
  - rewrite HN. lia.
  - intros i Hi. assert (page_va (base + PGSIZE * Z.of_nat i)) as Hva by (apply (page_va_at base i N); (done || lia)).
    apply Hun; [done|]. unfold PGSIZE in *. lia.
  - intros e1 s1. unfold uvmalloc_body. rewrite HN. destruct (Z.ltb_spec top newsz); [lia|done].
  - intros e1 s1 l1 ps1 c Hlen _. eexists _, (fun m x => memset m x 0 PGSIZE), _. split; [|split].
    + unfold uvmalloc_body. destruct (Z.ltb_spec (base + PGSIZE * Z.of_nat (length ps1)) newsz) as [_|?];
        [cbn [negb]; reflexivity|unfold PGSIZE in *; lia].
    + intros m x _ Hso. split.
      * intros b Hb. rewrite rd_memset, decide_False by lia. by apply Hso.
      * intros off Hoff. by rewrite rd_memset, decide_True by lia.
    + intros s2 s3 Hu. eapply uvmdealloc_unmap; [lia|done|unfold PGSIZE in *; lia|exact Hu].
  - exists r, s', l', ps. rewrite HN in Hx. split; [done|]. split; [done|].
    destruct Hc as [[-> Hc]|(-> & -> & Hc)]; [left|right; split; [done|]]; (split; [done|]); intros va Hva Hin;
      destruct (page_index base N va Hao Hva) as (i & Hi & ->); try lia; by apply Hc.
Qed.

(** ** [uvmcopy] *)

(** Below [sz] every page of [old] is mapped, to memory that is neither free nor part of [new]. *)
Definition user_pages (s : kstate) (old new : Z) (l : list Z) (sz : Z) : Prop :=
  forall va, page_va va -> va < sz -> exists x, maps_to (pte_of (mem s) old va) x /\
    ram_page s x /\ (x ∉ l) /\ forall q, node (mem s) new q <> Some x.

Lemma PTE_FLAGS_range v : 0 <= PTE_FLAGS v < 1024.
Proof. unfold PTE_FLAGS. change 1023 with (Z.ones 10). rewrite Z.land_ones by lia. apply Z.mod_pos_bound. lia. Qed.

Lemma maps_to_flags v x : maps_to v x -> Z.lor (PTE_FLAGS v) PTE_V = PTE_FLAGS v.
Proof.
  intros (HV & _). unfold flag in HV. apply negb_true_iff, Z.eqb_neq in HV.
  change PTE_V with (2 ^ 0) in *. apply Z.bits_inj'. intros n Hn. rewrite Z.lor_spec, Z.pow2_bits_eqb by lia.
  destruct (Z.eqb_spec 0 n) as [<-|]; [|by rewrite orb_false_r]. rewrite orb_true_r. symmetry.
  unfold PTE_FLAGS. rewrite Z.land_spec. change (Z.testbit 1023 0) with true. rewrite andb_true_r.
  destruct (Z.testbit v 0) eqn:E; [done|]. destruct HV. apply Z.bits_inj'. intros k Hk.
  rewrite Z.land_spec, Z.bits_0, Z.pow2_bits_eqb by lia. destruct (Z.eqb_spec 0 k) as [<-|]; [by rewrite E|by rewrite andb_false_r].
Qed.

(** A page that is neither free nor part of the table keeps its contents. *)
Lemma page_kept s s' pt l x off : (forall y, y ∈ l -> ram_page s y) -> pt_wf s pt l -> ram_page s x -> x ∉ l ->
  (forall q, node (mem s) pt q <> Some x) ->
  (forall a, (forall y, y ∈ l -> outside a y) -> (forall q b, node (mem s) pt q = Some b -> outside a b) ->
    rd (mem s') a = rd (mem s) a) -> 0 <= off < PGSIZE -> rd (mem s') (x + off) = rd (mem s) (x + off).
Proof.
  intros Hpg Hwf Hx Hxl Hxn Hm Hoff. apply Hm; [intros y Hy|intros q b Hq]; apply (page_outside s); try done.
  - by apply Hpg.
  - congruence.
  - by eapply (pt_page _ _ _ Hwf).
  - intros ->. by eapply Hxn.
Qed.

Section Copy.
Context (old new sz : Z) (l : list Z) (s : kstate).
Hypothesis Hk : kmem_ok s l.
Hypothesis Hold : pt_wf s old l.
Hypothesis Hnew : pt_wf s new l.
Hypothesis Hap : apart (mem s) new old.
Hypothesis Hlock : L_kmem ∉ held s.
Hypothesis Hsz : 0 <= sz <= MAXVA.
Hypothesis Huser : user_pages s old new l sz.
Hypothesis Hunmapped : forall va, page_va va -> va < sz -> flag (pte_of (mem s) new va) PTE_V = false.

Local Abbreviation pte i := (pte_of (mem s) old (0 + PGSIZE * Z.of_nat i)).

Lemma copy_body_page e s1 l1 (n : nat) u c ps :
  holds s l new s1 l1 ps u c -> page_va (0 + PGSIZE * Z.of_nat n) -> 0 + PGSIZE * Z.of_nat n < sz ->
  uvmcopy_body old new sz (0 + PGSIZE * Z.of_nat n) e s1 =
  grow_page new (fun m pg => memmove m pg (PTE2PA (pte n)) PGSIZE) (PTE_FLAGS (pte n))
    (uvmunmap new 0 (Z.of_nat n) true) (-1) (0 + PGSIZE * Z.of_nat n) e s1.
Proof using All.
  intros H Hva Hlt. destruct (Huser _ Hva Hlt) as (x & (HV & _) & _).
  pose proof (other_table s s1 new old l (kmem_page s l Hk) Hnew Hold Hap (ho_mem _ _ _ _ _ _ _ _ H)) as Hpt.
  set (a := 0 + PGSIZE * Z.of_nat n) in *.
  assert (pte_of (mem s1) old a = pte_of (mem s) old a) as Hp by by apply pte_of_same_pt.
  destruct (pte_slot old (mem s1) a) as [A HA]; [rewrite Hp; by intros E; rewrite E in HV|].
  assert (0 < A) as HApos.
  { unfold walk0 in HA. rewrite (node_same_pt (mem s) (mem s1)) in HA by done.
    destruct (node (mem s) old _) as [b|] eqn:E; [injection HA as <-|done].
    pose proof (ram_page_range _ _ (kmem_end _ _ Hk) (table_page _ _ _ Hold _ _ E)). pose proof (PX_range 0 a). lia. }
  unfold uvmcopy_body. destruct (Z.ltb_spec a sz); [|lia]. cbn [negb].
  rewrite (bindK_Ok _ _ _ _ _ _ _ (walk_noalloc old a e s1 ltac:(apply Hva))), HA. cbn [default from_option id].
  destruct (Z.eqb_spec A 0); [lia|]. unfold loadK. rewrite (bindK_Ok _ _ e s1 (pte_of (mem s) old a) e s1).
  2: { unfold getsK. f_equal. rewrite <- Hp. unfold pte_of. by rewrite HA. }
  rewrite HV. cbn [negb]. assert (a / PGSIZE = Z.of_nat n) as ->; [|done].
  unfold a. by rewrite Z.add_0_l, Z.mul_comm, Z.div_mul.
Qed.

Lemma uvmcopy_run e : exists r s' l' ps, uvmcopy old new sz e s = Ok r e s' /\
  uvm_ext s s' new l l' ps 0 (PGROUNDUP sz) /\
  ((r = 0 /\ forall va, page_va va -> va < PGROUNDUP sz -> exists x, x ∈ ps /\
      pte_of (mem s') new va = leaf_pte x (PTE_FLAGS (pte_of (mem s) old va)) /\
      forall off, 0 <= off < PGSIZE -> rd (mem s') (x + off) = rd (mem s) (PTE2PA (pte_of (mem s) old va) + off)) \/
   (r = -1 /\ ps = [] /\ forall va, page_va va -> va < PGROUNDUP sz -> flag (pte_of (mem s') new va) PTE_V = false)).
Proof using All.
  destruct (round_pages 0 sz) as (N & HN & Hfuel & Hmax & Htop); [lia|done|lia|unfold PGSIZE; lia|].
  rewrite Z.sub_0_r in Hfuel. set (top := PGROUNDUP sz) in *.
  assert (forall i, (i < N)%nat -> page_va (0 + PGSIZE * Z.of_nat i) /\ 0 + PGSIZE * Z.of_nat i < sz) as Hpage.
  { intros i Hi. split; [apply (page_va_at 0 i N); (done || lia)|unfold PGSIZE in *; lia]. }
  destruct (grow_run s l new (kmem_page s l Hk) (table_page s new l Hnew) 0 N (fun i => PTE_FLAGS (pte i))
    (fun i off => rd (mem s) (PTE2PA (pte i) + off)) 0 (-1) (uvmcopy_body old new sz))
    with (fuel := S (Z.to_nat (sz / PGSIZE + 1))) (e := e) as (r & s' & l' & ps & Hr & Hx & Hc); try done.
  - by rewrite HN.
  - intros i Hi. split; [apply PTE_FLAGS_range|]. destruct (Hpage i Hi) as [Hva Hlt].
    destruct (Huser _ Hva Hlt) as (x & Hm & _). rewrite (maps_to_flags _ _ Hm). apply Hm.
  - intros i Hi. by apply Hunmapped; apply Hpage.
  - intros e1 s1. unfold uvmcopy_body. rewrite HN. destruct (Z.ltb_spec top sz); [lia|done].
  - intros e1 s1 l1 ps1 c Hlen H. destruct (Hpage _ Hlen) as [Hva Hlt].
    do 3 eexists. split; [by eapply copy_body_page|]. split; [|by eexists].
    destruct (Huser _ Hva Hlt) as (x & (_ & _ & Hpa) & Hx & Hxl & Hxn). rewrite Hpa. intros m y Hy Hso.
    assert (y ∈ l) as Hyl by (apply (ho_sub _ _ _ _ _ _ _ _ H); by left). split.
    + intros b Hb. rewrite rd_memmove, decide_False by lia. by apply Hso.
    + intros off Hoff. rewrite rd_memmove, decide_True by lia. replace (x + (y + off - y)) with (x + off) by lia.
      rewrite Hso; [|apply (page_outside s); [done|by apply (kmem_page s l)|congruence|done]].
      apply (page_kept s s1 new l); try done; [by apply kmem_page|apply H].
  - exists r, s', l', ps. rewrite HN in Hx. split; [done|]. split; [done|].
    destruct Hc as [[-> Hc]|(-> & -> & Hc)]; [left|right; split; [done|]]; (split; [done|]); intros va Hva Hin;
      destruct (page_index 0 N va eq_refl Hva) as (i & Hi & ->); try (destruct Hva; lia); by apply Hc.
Qed.
End Copy.

(** ** The two functions as the user sees them *)

Lemma PGROUNDDOWN_below va top : va < top -> top mod PGSIZE = 0 -> PGROUNDDOWN va < top.
Proof. intros. pose proof (PGROUNDDOWN_bounds va). lia. Qed.

Lemma PGROUNDDOWN_above va lo : lo <= va -> lo mod PGSIZE = 0 -> lo <= PGROUNDDOWN va.
Proof.
  intros Hle Hal. pose proof (PGROUNDDOWN_bounds va).
  destruct (aligned_eq_or_apart lo (PGROUNDDOWN va) Hal (PGROUNDDOWN_aligned va)) as [|[]]; lia.
Qed.

Lemma own_range s s' pt l l' ps lo hi x : kmem_ok s l -> uvm_ext s s' pt l l' ps lo hi -> x ∈ ps ->
  0 < x < 2 ^ 56 /\ x mod PGSIZE = 0.
Proof.
  intros Hk Hx Hin. apply (uvm_own _ _ _ _ _ _ _ _ Hx) in Hin as [Hin _]. apply (kmem_page s l Hk) in Hin.
  pose proof (ram_page_range _ _ (kmem_end _ _ Hk) Hin). split; [lia|apply Hin].
Qed.

(** C10: [uvmalloc] grows the process to [newsz]: the pages it adds were free, are not shared, and
    read as zero; every other mapping and all other memory stay as they are.  When memory runs
    out it returns 0, nothing is mapped, and every page it took is free again or a page of the
    table: none is lost. *)
Theorem uvmalloc_grows pt oldsz newsz l e s :
  kmem_ok s l -> pt_wf s pt l -> L_kmem ∉ held s -> 0 <= oldsz <= newsz -> newsz <= MAXVA ->
  (forall va, page_va va -> PGROUNDUP oldsz <= va < newsz -> flag (pte_of (mem s) pt va) PTE_V = false) ->
  exists r s' l' ps, uvmalloc pt oldsz newsz e s = Ok r e s' /\
    uvm_ext s s' pt l l' ps (PGROUNDUP oldsz) (PGROUNDUP newsz) /\
    ((r = newsz /\ forall va, PGROUNDUP oldsz <= va < PGROUNDUP newsz -> exists x, x ∈ ps /\
        upa (mem s') pt va = Some (x + (va - PGROUNDDOWN va)) /\ ubyte (mem s') pt va = 0) \/
     (r = 0 /\ ps = [] /\ forall va, page_va va -> PGROUNDUP oldsz <= va < PGROUNDUP newsz ->
        flag (pte_of (mem s') pt va) PTE_V = false)).
Proof.
  intros Hk Hwf Hh Hsz Hmax Hun.
  destruct (uvmalloc_run pt oldsz newsz l e s) as (r & s' & l' & ps & Hr & Hx & Hc); try done.
  exists r, s', l', ps. split; [done|]. split; [done|]. destruct Hc as [[-> Hc]|Hc]; [left|by right].
  split; [done|]. intros va Hva. pose proof (PGROUNDUP_aligned newsz) as Han. pose proof (PGROUNDUP_aligned oldsz) as Hao.
  destruct (round_pages 0 newsz) as (_ & _ & _ & Htop & _); [lia|done|lia|unfold PGSIZE; lia|].
  pose proof (PGROUNDUP_bounds oldsz ltac:(change MAXVA with (2 ^ 38) in *; unfold PGSIZE; lia)) as Hbo.
  assert (0 <= va < MAXVA) as Hv by lia.
  destruct (Hc (PGROUNDDOWN va)) as (x & Hin & Hp & Hz).
  { by apply PGROUNDDOWN_page_va. }
  { split; [apply PGROUNDDOWN_above; [lia|done]|apply PGROUNDDOWN_below; [lia|done]]. }
  destruct (own_range _ _ _ _ _ _ _ _ x Hk Hx Hin) as [Hxr Hxa]. pose proof (PGROUNDDOWN_bounds va).
  exists x. split; [done|]. pose proof (upa_leaf _ _ va x PTE_user Hv Hp Hxr Hxa ltac:(done)) as Hu.
  change (flag PTE_user PTE_U) with true in Hu. cbv iota in Hu.
  split; [done|]. unfold ubyte. rewrite Hu. apply Hz. lia.
Qed.

Lemma upa_maps m pt va x : 0 <= va < MAXVA -> maps_to (pte_of m pt (PGROUNDDOWN va)) x -> 0 < x ->
  upa m pt va = if flag (PTE_FLAGS (pte_of m pt (PGROUNDDOWN va))) PTE_U then Some (x + (va - PGROUNDDOWN va)) else None.
Proof.
  intros Hva (HV & _ & Hpa) Hx. unfold upa. destruct (Z.leb_spec 0 va); [|lia]. destruct (Z.ltb_spec va MAXVA); [|lia].
  cbn [andb]. unfold user_page. rewrite HV, Hpa. cbn [andb]. set (v := pte_of _ _ _) in *.
  assert (flag v PTE_U = flag (PTE_FLAGS v) PTE_U) as -> by (unfold flag; by rewrite (flags_land v)).
  destruct (flag (PTE_FLAGS v) PTE_U); [|done]. by destruct (Z.eqb_spec x 0); [lia|].
Qed.

(** C9: [uvmcopy] gives the child a copy of the parent's memory: the same pages are accessible, with
    the same permissions and the same bytes, in pages that were free and are not shared.  When
    memory runs out it returns -1, the child maps nothing and no page is lost.  In both cases the
    parent's memory is unchanged. *)
Theorem uvmcopy_copies old new sz l e s :
  kmem_ok s l -> pt_wf s old l -> pt_wf s new l -> apart (mem s) new old -> L_kmem ∉ held s -> 0 <= sz <= MAXVA ->
  user_pages s old new l sz -> (forall va, page_va va -> va < sz -> flag (pte_of (mem s) new va) PTE_V = false) ->
  exists r s' l' ps, uvmcopy old new sz e s = Ok r e s' /\ uvm_ext s s' new l l' ps 0 (PGROUNDUP sz) /\
    (forall va, 0 <= va < sz -> upa (mem s') old va = upa (mem s) old va /\ ubyte (mem s') old va = ubyte (mem s) old va) /\
    ((r = 0 /\ forall va, 0 <= va < sz ->
        PTE_FLAGS (pte_of (mem s') new (PGROUNDDOWN va)) = PTE_FLAGS (pte_of (mem s) old (PGROUNDDOWN va)) /\
        ubyte (mem s') new va = ubyte (mem s) old va /\
        match upa (mem s) old va with
        | Some _ => exists x, x ∈ ps /\ upa (mem s') new va = Some (x + (va - PGROUNDDOWN va))
        | None => upa (mem s') new va = None
        end) \/
     (r = -1 /\ ps = [] /\ forall va, page_va va -> va < PGROUNDUP sz -> flag (pte_of (mem s') new va) PTE_V = false)).
Proof.
  intros Hk Ho Hn Hap Hh Hsz Hu Hun.
  destruct (uvmcopy_run old new sz l s Hk Ho Hn Hap Hh Hsz Hu Hun e) as (r & s' & l' & ps & Hr & Hx & Hc).
  pose proof (other_table s s' new old l (kmem_page s l Hk) Hn Ho Hap (uvm_mem _ _ _ _ _ _ _ _ Hx)) as Hpt.
  assert (forall va, 0 <= va < sz -> exists y, maps_to (pte_of (mem s) old (PGROUNDDOWN va)) y /\ 0 < y /\
    upa (mem s') old va = upa (mem s) old va /\ forall off, 0 <= off < PGSIZE -> rd (mem s') (y + off) = rd (mem s) (y + off)) as Hold.
  { intros va Hva. pose proof (PGROUNDDOWN_bounds va). destruct (Hu (PGROUNDDOWN va)) as (y & Hm & Hy & Hyl & Hyn);
      [apply PGROUNDDOWN_page_va; lia|lia|].
    pose proof (ram_page_range _ _ (kmem_end _ _ Hk) Hy). exists y. split; [done|]. split; [lia|]. split.
    - unfold upa, user_page. by rewrite (pte_of_same_pt old (mem s)).
    - intros off Hoff. apply (page_kept s s' new l); try done; [by apply kmem_page|apply Hx]. }
  exists r, s', l', ps. split; [done|]. split; [done|]. split.
  { intros va Hva. destruct (Hold va Hva) as (y & Hm & Hy & E & Hb). split; [done|]. unfold ubyte. rewrite E.
    rewrite (upa_maps _ _ _ y) by (done || lia). pose proof (PGROUNDDOWN_bounds va). destruct (flag _ _); [apply Hb; lia|done]. }
  destruct Hc as [[-> Hc]|Hc]; [left|by right]. split; [done|]. intros va Hva.
  destruct (Hold va Hva) as (y & Hm & Hy & _). assert (0 <= va < MAXVA) as Hv by lia. pose proof (PGROUNDDOWN_bounds va).
  destruct (Hc (PGROUNDDOWN va)) as (x & Hin & Hp & Hb); [by apply PGROUNDDOWN_page_va| |].
  { pose proof (PGROUNDUP_bounds sz ltac:(change MAXVA with (2 ^ 38) in *; unfold PGSIZE; lia)). lia. }
  destruct (own_range _ _ _ _ _ _ _ _ x Hk Hx Hin) as [Hxr Hxa].
  pose proof (PTE_FLAGS_range (pte_of (mem s) old (PGROUNDDOWN va))) as Hfr. split.
  { rewrite Hp, PTE_FLAGS_leaf by (done || lia). by eapply maps_to_flags. }
  rewrite (upa_maps (mem s) old va y) by done. unfold ubyte.
  rewrite (upa_leaf _ _ _ _ _ Hv Hp), (upa_maps (mem s) old va y) by done.
  destruct (flag (PTE_FLAGS _) PTE_U); [|done]. split; [|eauto]. destruct Hm as (_ & _ & <-). apply Hb. lia.
Qed.

(** ** Witnesses *)

Lemma uvmalloc_grows_witness : exists s pt r s' l l' ps, uvmalloc pt 100 9000 [] s = Ok r [] s' /\
  uvm_ext s s' pt l l' ps 4096 12288 /\
    ((r = 9000 /\ forall va, 4096 <= va < 12288 -> exists x, x ∈ ps /\
        upa (mem s') pt va = Some (x + (va - PGROUNDDOWN va)) /\ ubyte (mem s') pt va = 0) \/
     (r = 0 /\ ps = [] /\ forall va, page_va va -> 4096 <= va < 12288 -> flag (pte_of (mem s') pt va) PTE_V = false)).
Proof.
  destruct demo_table as (s & pt & l & Hk & Hwf & Hh & Hp). exists s, pt.
  destruct (uvmalloc_grows pt 100 9000 l [] s) as (r & s' & l' & ps & H); try done.
  - rewrite Hh. apply not_elem_of_nil.
  - intros va _ _. by rewrite Hp.
  - by exists r, s', l, l', ps.
Defined.

(** A machine after [kinit] with an empty table and one that maps a page at 0. *)
Definition two_tables : K (Z * Z * Z) :=
  new <- uvmcreate ;;
  old <- uvmcreate ;;
  r <- uvmalloc old 0 100 ;;
  retK (new, old, r).
Definition two_tables_run : outcome (Z * Z * Z) := (kinit ;;; two_tables) [] (kstate0 demo8_syms).

Lemma two_tables_ok : exists new old s, two_tables_run = Ok (new, old, 100) [] s.
Proof.
  assert (match two_tables_run with Ok (_, r) [] _ => r =? 100 | _ => false end = true) as H by (vm_compute; reflexivity).
  destruct two_tables_run as [[[new old] r] [|] s| | | |]; try done. apply Z.eqb_eq in H as ->. eauto.
Qed.

Lemma uvmcreate_root x l e s s' : kmem_ok s (x :: l) -> L_kmem ∉ held s -> uvmcreate e s = Ok x e s' ->
  forall q a, node (mem s') x q = Some a -> a = x.
Proof.
  intros Hk Hh. unfold uvmcreate, memsetK. rewrite (bindK_Ok _ _ _ _ _ _ _ (kalloc_run x l e s Hk Hh)).
  pose proof (ram_page_range _ _ (kmem_end _ _ Hk) (kmem_page _ _ Hk x ltac:(by left))). destruct (Z.eqb_spec x 0); [lia|].
  intros [= <-] q a. rewrite node_zero; [destruct q; [by intros [= <-]|done]|].
  intros b Hb. change (rd (memset (memset (mem s) x 5 PGSIZE) x 0 PGSIZE) b = 0). by rewrite rd_memset, decide_True.
Qed.

(** A table [x] that is only its root, beside one that grew. *)
Lemma beside_grown s s' x y l l' ps hi sz : kmem_ok s l -> pt_wf s y l -> pt_wf s x l ->
  (forall q a, node (mem s) x q = Some a -> a = x) -> apart (mem s) y x -> uvm_ext s s' y l l' ps 0 hi ->
  (forall va, page_va va -> va < sz -> exists z, z ∈ ps /\ pte_of (mem s') y va = leaf_pte z PTE_user /\
     forall off, 0 <= off < PGSIZE -> rd (mem s') (z + off) = 0) ->
  pt_wf s' x l' /\ apart (mem s') x y /\ user_pages s' y x l' sz /\ forall va, pte_of (mem s') x va = pte_of (mem s) x va.
Proof.
  intros Hk Hy Hx Hroot Hap Hg Hc.
  pose proof (other_table s s' y x l (kmem_page _ _ Hk) Hy Hx Hap (uvm_mem _ _ _ _ _ _ _ _ Hg)) as Hpt.
  pose proof (vm_frame_syms _ _ (uvm_frame _ _ _ _ _ _ _ _ Hg)) as Hsy.
  assert (forall q, node (mem s') x q = node (mem s) x q) as Hnode by (intros; by apply node_same_pt).
  assert (x ∉ l) as Hxl by (by apply (pt_page _ _ _ Hx [] x)).
  split; [split|split; [|split]].
  - intros p q a. rewrite !Hnode. apply Hx.
  - intros q a. rewrite Hnode. intros Hq. pose proof (pt_page _ _ _ Hx _ _ Hq) as [Hp Hn].
    split; [by eapply ram_page_syms|]. by intros ?%(uvm_sub _ _ _ _ _ _ _ _ Hg).
  - intros q q' a. rewrite Hnode. intros Hq. pose proof (Hroot _ _ Hq) as ->.
    intros [Hq'|Hq']%(uvm_new _ _ _ _ _ _ _ _ Hg); [by eapply Hap|done].
  - intros va Hva Hlt. destruct (Hc va Hva Hlt) as (z & Hz & Hp & _). exists z. rewrite Hp.
    destruct (own_range _ _ _ _ _ _ _ _ z Hk Hg Hz) as [Hr Ha]. split; [by apply maps_to_leaf; [lia|..]|].
    apply (uvm_own _ _ _ _ _ _ _ _ Hg) in Hz as (Hzl & Hzl' & _).
    split; [eapply ram_page_syms; [done|by apply (kmem_page s l)]|]. split; [done|].
    intros q. rewrite Hnode. intros ->%Hroot. done.
  - intros va. by apply pte_of_same_pt.
Qed.

Lemma two_tables_spec s x y l e new old s' :
  kmem_ok s (x :: y :: l) -> held s = [] -> two_tables e s = Ok (new, old, 100) e s' ->
  exists l', kmem_ok s' l' /\ pt_wf s' old l' /\ pt_wf s' new l' /\ apart (mem s') new old /\ held s' = [] /\
    user_pages s' old new l' 100 /\ forall va, pte_of (mem s') new va = 0.
Proof.
  intros Hk Hh. assert (L_kmem ∉ held s) as Hni by (rewrite Hh; apply not_elem_of_nil). unfold two_tables.
  destruct (uvmcreate_spec x (y :: l) e s Hk Hni) as (s1 & Hr1 & Hk1 & Hwf1 & Hf1 & _ & Hp1).
  assert (L_kmem ∉ held s1) as Hni1 by by rewrite (vm_frame_held _ _ Hf1).
  destruct (uvmcreate_spec y l e s1 Hk1 Hni1) as (s2 & Hr2 & Hk2 & Hwf2 & Hf2 & Hso2 & Hp2).
  destruct (pt_wf_kalloc s1 s2 x y l Hk1 Hwf1 Hso2 (vm_frame_syms _ _ Hf2)) as [Hpt2 Hwfx2].
  assert (L_kmem ∉ held s2) as Hni2 by by rewrite (vm_frame_held _ _ Hf2).
  pose proof (uvmcreate_root _ _ _ _ _ Hk Hni Hr1) as Hx1. pose proof (uvmcreate_root _ _ _ _ _ Hk1 Hni1 Hr2) as Hy2.
  rewrite (bindK_Ok _ _ _ _ _ _ _ Hr1), (bindK_Ok _ _ _ _ _ _ _ Hr2).
  assert (forall q a, node (mem s2) x q = Some a -> a = x) as Hx2.
  { intros q a. rewrite (node_same_pt (mem s1)) by done. apply Hx1. }
  assert (node (mem s1) x [] = Some x) as Hroot by done. apply (pt_page _ _ _ Hwf1) in Hroot as [Hxp Hxyl].
  assert (apart (mem s2) y x) as Hap.
  { intros q q' a ->%Hy2 ->%Hx2. apply Hxyl. by left. }
  destruct (uvmalloc_run y 0 100 l e s2 Hk2 Hwf2 Hni2) as (r & s3 & l' & ps & Hr3 & Hx & Hc); [done|done| |].
  { intros va _ _. by rewrite Hp2. }
  rewrite (bindK_Ok _ _ _ _ _ _ _ Hr3). intros [= <- <- -> <-]. destruct Hc as [[_ Hc]|[? _]]; [|done].
  destruct (beside_grown s2 s3 x y l l' ps _ 100 Hk2 Hwf2 Hwfx2 Hx2 Hap Hx) as (Hw & Ha & Hu & Hz).
  { intros va [Hva Hal] Hlt. apply Hc; [done|]. change (PGROUNDUP 0) with 0. change (PGROUNDUP 100) with 4096. lia. }
  exists l'. split; [apply Hx|]. split; [apply Hx|]. split; [done|]. split; [done|]. split; [|split; [done|]].
  - by rewrite (vm_frame_held _ _ (uvm_frame _ _ _ _ _ _ _ _ Hx)), (vm_frame_held _ _ Hf2), (vm_frame_held _ _ Hf1).
  - intros va. rewrite Hz, (pte_of_same_pt x (mem s1)) by done. apply Hp1.
Qed.

Lemma demo_tables : exists s old new l, kmem_ok s l /\ pt_wf s old l /\ pt_wf s new l /\ apart (mem s) new old /\
  held s = [] /\ user_pages s old new l 100 /\ forall va, pte_of (mem s) new va = 0.
Proof.
  destruct (kinit_spec [] (kstate0 demo8_syms)) as (s1 & Hr & Hk & Hf); [apply not_elem_of_nil|done|done|].
  destruct two_tables_ok as (new & old & s & Hd). unfold two_tables_run in Hd. rewrite (bindK_Ok _ _ _ _ _ _ _ Hr) in Hd.
  eapply two_tables_spec in Hd as (l & H); [by exists s, old, new, l|exact Hk|by rewrite (vm_frame_held _ _ Hf)].
Qed.

Lemma uvmcopy_copies_witness : exists s old new l r s' l' ps,
  user_pages s old new l 100 /\ uvmcopy old new 100 [] s = Ok r [] s' /\ uvm_ext s s' new l l' ps 0 4096 /\
    (forall va, 0 <= va < 100 -> upa (mem s') old va = upa (mem s) old va /\ ubyte (mem s') old va = ubyte (mem s) old va) /\
    ((r = 0 /\ forall va, 0 <= va < 100 ->
        PTE_FLAGS (pte_of (mem s') new (PGROUNDDOWN va)) = PTE_FLAGS (pte_of (mem s) old (PGROUNDDOWN va)) /\
        ubyte (mem s') new va = ubyte (mem s) old va /\
        match upa (mem s) old va with
        | Some _ => exists x, x ∈ ps /\ upa (mem s') new va = Some (x + (va - PGROUNDDOWN va))
        | None => upa (mem s') new va = None
        end) \/
     (r = -1 /\ ps = [] /\ forall va, page_va va -> va < 4096 -> flag (pte_of (mem s') new va) PTE_V = false)).
Proof.
  destruct demo_tables as (s & old & new & l & Hk & Ho & Hn & Hap & Hh & Hu & Hz).
  destruct (uvmcopy_copies old new 100 l [] s) as (r & s' & l' & ps & H); try done.
  - rewrite Hh. apply not_elem_of_nil.
  - intros va _ _. by rewrite Hz.
  - by exists s, old, new, l, r, s', l', ps.
Defined.
