(* ===== verification/Sched.v ===== *)
(** * The process table, context switches, [sleep] and [wakeup]

    The part of kernel/proc.c every other component relies on.  A process is named by its
    index in [proc], a thread by the index of its process and its index in [thread_tbl].

    [swtch] is where a thread gives up its CPU: the next transformer of the interference
    says what the rest of the machine does until the scheduler picks this thread again; the
    scheduler then holds the lock of the thread's process, has set the thread to
    [t_RUNNING] and the CPU's [proc] and [thread] to it. *)

From stdpp Require Import base numbers list gmap strings.
From S2P Require Import Prelude Mem Types Kernel Kalloc Vm.

(** ** Access to the table *)

Definition get_proc (i : nat) : K proc := fun e s =>
  match procs s !! i with Some p => Ok p e s | None => UB "proc index" end.
Definition set_proc (i : nat) (f : proc -> proc) : K unit :=
  modifyK (fun s => s <| procs ::= alter f i |>).

Definition get_thread (t : nat * nat) : K thread := fun e s =>
  match procs s !! fst t with
  | Some p => match p_threads p !! snd t with Some x => Ok x e s | None => UB "thread index" end
  | None => UB "proc index"
  end.
Definition alter_thread (j : nat) (f : thread -> thread) (p : proc) : proc :=
  p <| p_threads ::= alter f j |>.
Definition set_thread (t : nat * nat) (f : thread -> thread) : K unit :=
  set_proc (fst t) (alter_thread (snd t) f).

Definition threads_of (i : nat) : list (nat * nat) := map (fun j => (i, j)) (seq 0 NTHREAD).

(** [mythread] and [myproc] read the CPU's structure with interrupts off; a function that
    dereferences the result runs on behalf of a thread. *)
Definition mythread : K (option (nat * nat)) := getsK (fun s => c_thread s).
Definition myproc : K (option nat) := getsK (fun s => c_proc s).
Definition curthread : K (nat * nat) :=
  t <- mythread ;; match t with Some t => retK t | None => ub "mythread() is null" end.
Definition curproc : K nat :=
  p <- myproc ;; match p with Some p => retK p | None => ub "myproc() is null" end.

(** ** Initialisation and identifiers *)

Definition threadinit (p : nat) : K unit :=
  forK (seq 0 NTHREAD) (fun j =>
    initlock (L_thread p j) ;;;
    set_thread (p, j) (fun t => t <| t_kstack := u64 (KSTACK (Z.of_nat p) (Z.of_nat j)) |>)).

Definition procinit : K unit :=
  initlock L_pid ;;;
  initlock L_wait ;;;
  initlock L_tid ;;;
  forK (seq 0 NPROC) (fun p => initlock (L_proc p) ;;; threadinit p).

Definition allocpid : K Z :=
  acquire L_pid ;;;
  pid <- getsK (fun s => nextpid s) ;;
  modifyK (fun s => s <| nextpid := i32 (nextpid s + 1) |>) ;;;
  release L_pid ;;;
  retK pid.

Definition get_tid : K Z :=
  acquire L_tid ;;;
  tid <- getsK (fun s => nexttid s) ;;
  modifyK (fun s => s <| nexttid := i32 (nexttid s + 1) |>) ;;;
  release L_tid ;;;
  retK tid.

(** ** Context switches *)

Definition resume (p : nat) (t : nat * nat) (h : list lock) (s : kstate) : kstate :=
  s <| held := h |> <| c_proc := Some p |> <| c_thread := Some t |>
    <| procs ::= alter (alter_thread (snd t) (fun x => x <| t_state := t_RUNNING |>)) (fst t) |>.

Definition swtch (p : nat) (t : nat * nat) : K unit := fun e s =>
  match e with
  | [] => Switched s
  | f :: e' => Ok tt e' (resume p t (held s) (f s))
  end.

(** The last test, [intr_get()], is left out: the thread holds p->lock here, and who holds a
    spinlock runs with interrupts off (Spinlock.v). *)
Definition sched : K unit :=
  t <- curthread ;;
  p <- curproc ;;
  h <- holding (L_proc p) ;;
  if negb h then panic "sched p->lock" else
  n <- getsK noff ;;
  if negb (n =? 1)%nat && negb (n =? 2)%nat then panic "sched locks" else
  x <- get_thread t ;;
  if decide (t_state x = t_RUNNING) then panic "sched running" else
  swtch p t.

Definition yield : K unit :=
  t <- curthread ;;
  p <- curproc ;;
  acquire (L_proc p) ;;;
  set_thread t (fun x => x <| t_state := t_RUNNABLE |>) ;;;
  sched ;;;
  release (L_proc p).

(** ** [sleep] and [wakeup]

    Both are lists of statements.  Here a thread runs them on its own; Rendezvous.v runs the same
    statements of several threads interleaved. *)
Inductive stmt :=
| Acquire_ (l : lock) | Release_ (l : lock)
| Set_chan (t : nat * nat) (c : channel) | Set_state (t : nat * nat) (st : threadstate)
| Wake (t : nat * nat) (c : channel)
| Sched_.

Definition wake_thread (chan : channel) (t : thread) : thread :=
  if decide (t_state t = t_SLEEPING /\ t_chan t = chan) then t <| t_state := t_RUNNABLE |> else t.

Definition stmtK (st : stmt) : K unit :=
  match st with
  | Acquire_ l => acquire l
  | Release_ l => release l
  | Set_chan t c => set_thread t (fun x => x <| t_chan := c |>)
  | Set_state t st => set_thread t (fun x => x <| t_state := st |>)
  | Wake t c => set_thread t (wake_thread c)
  | Sched_ => sched
  end.

Definition sleep_code (chan : channel) (lk : lock) (p : nat) (t : nat * nat) : list stmt :=
  [Acquire_ (L_proc p); Release_ lk; Set_chan t chan; Set_state t t_SLEEPING; Sched_;
   Set_chan t CH_null; Release_ (L_proc p); Acquire_ lk].

Definition sleep (chan : channel) (lk : lock) : K unit :=
  t <- curthread ;;
  p <- curproc ;;
  forK (sleep_code chan lk p t) stmtK.

Definition wakeup_code (chan : channel) (p : nat) : list stmt :=
  Acquire_ (L_proc p) :: map (fun t => Wake t chan) (threads_of p) ++ [Release_ (L_proc p)].

Definition wakeup (chan : channel) : K unit :=
  forK (seq 0 NPROC) (fun p => forK (wakeup_code chan p) stmtK).

(** One round of the scheduler's loop over the process table; [run] is what happens from
    the [swtch] to a thread until that thread switches back. *)
Definition scheduler_round (run : nat * nat -> K unit) : K unit :=
  forK (seq 0 NPROC) (fun p =>
    acquire (L_proc p) ;;;
    x <- get_proc p ;;
    (if decide (p_state x = USED) then
       modifyK (fun s => s <| c_proc := Some p |>) ;;;
       forK (threads_of p) (fun t =>
         y <- get_thread t ;;
         if decide (t_state y = t_RUNNABLE) then
           set_thread t (fun y => y <| t_state := t_RUNNING |>) ;;;
           modifyK (fun s => s <| c_thread := Some t |>) ;;;
           run t ;;;
           modifyK (fun s => s <| c_thread := None |>)
         else retK tt) ;;;
       modifyK (fun s => s <| c_proc := None |>)
     else retK tt) ;;;
    release (L_proc p)).

(** A loop [while(cond) ... sleep ...]: every iteration that goes round the loop has given
    up the CPU, so the number of iterations is bounded by the interference. *)
Definition blockK {A R} (body : A -> K (A + R)) (a : A) : K R := fun e s =>
  whileK (S (length e)) body a e s.

#[global] Arguments sched : simpl never.
#[global] Arguments yield : simpl never.
#[global] Arguments sleep : simpl never.
#[global] Arguments wakeup : simpl never.
#[global] Arguments get_proc : simpl never.
#[global] Arguments get_thread : simpl never.
#[global] Arguments set_thread : simpl never.
#[global] Arguments set_proc : simpl never.

(** ** [either_copyout] and [either_copyin]

    The source or the destination of a transfer: a user address, or a kernel buffer, which
    is represented by its bytes (those collected so far for a destination, those still to
    be consumed for a source). *)
Inductive ioaddr := User (va : Z) | Kern (bytes : list Z).

Definition either_copyout (dst : ioaddr) (src : list Z) : K Z :=
  p <- curproc ;;
  match dst with
  | User va => x <- get_proc p ;; copyout (p_pagetable x) va src
  | Kern _ => retK 0
  end.

(** The destination after [src] was stored there. *)
Definition dst_advance (dst : ioaddr) (src : list Z) : ioaddr :=
  match dst with
  | User va => User (u64 (va + Z.of_nat (length src)))
  | Kern acc => Kern (acc ++ src)
  end.

Definition either_copyin (src : ioaddr) (len : nat) : K (Z * list Z) :=
  p <- curproc ;;
  match src with
  | User va => x <- get_proc p ;; copyin (p_pagetable x) va len
  | Kern bytes => retK (0, take len bytes)
  end.

Definition src_advance (src : ioaddr) (n : nat) : ioaddr :=
  match src with
  | User va => User (u64 (va + Z.of_nat n))
  | Kern bytes => Kern (drop n bytes)
  end.

Definition io_bytes (a : ioaddr) : list Z := match a with Kern bs => bs | User _ => [] end.

(** The same for a loop that also makes at most [n] iterations of its own. *)
Definition blockN {A R} (n : nat) (body : A -> K (A + R)) (a : A) : K R := fun e s =>
  whileK (S (n + length e)) body a e s.
