(* ===== verification/SchedFacts.v ===== *)
(** * What [wakeup], [sleep] and [yield] do

    [wakeup] makes runnable exactly the threads that sleep on its channel; [sleep] publishes
    the sleeping thread before it lets go of the caller's lock, so a [wakeup] by anybody who
    takes that lock afterwards finds it. *)

From stdpp Require Import base numbers list gmap strings.
From S2P Require Import Prelude Mem Types Kernel Wp Kalloc Vm Sched.

(** ** Loops that update a table entry by entry *)

Lemma forK_app {X} (l1 l2 : list X) body e s :
  forK (l1 ++ l2) body e s = (forK l1 body ;;; forK l2 body) e s.
Proof.
  revert e s. induction l1 as [|x l1 IH]; intros e s; [done|]. cbn [forK app]. unfold bindK.
  by destruct (body x e s); [apply IH| ..].
Qed.

Lemma forK_map {X Y} (f : X -> Y) (l : list X) body e s : forK (map f l) body e s = forK l (fun x => body (f x)) e s.
Proof.
  revert e s. induction l as [|x l IH]; intros e s; [done|]. cbn [forK map]. unfold bindK.
  by destruct (body (f x) e s); [apply IH|..].
Qed.

Lemma forK_modify {X} (l : list X) (g : X -> kstate -> kstate) e s :
  forK l (fun x => modifyK (g x)) e s = Ok tt e (foldl (fun s x => g x s) s l).
Proof. revert s. induction l as [|x l IH]; intros s; [done|]. cbn. unfold bindK, modifyK. apply IH. Qed.

Lemma foldl_alter_seq {X} (f : X -> X) (l1 l2 : list X) :
  foldl (fun l i => alter f i l) (l1 ++ l2) (seq (length l1) (length l2)) = l1 ++ (f <$> l2).
Proof.
  revert l1. induction l2 as [|x l2 IH]; intros l1; [done|].
  cbn [length seq foldl fmap list_fmap].
  replace (alter f (length l1) (l1 ++ x :: l2)) with ((l1 ++ [f x]) ++ l2).
  - replace (S (length l1)) with (length (l1 ++ [f x])) by (rewrite length_app; cbn; lia).
    rewrite IH. by rewrite <- app_assoc.
  - rewrite <- app_assoc. cbn. rewrite <- (Nat.add_0_r (length l1)), alter_app_r. done.
Qed.

Lemma alter_seq_fmap {X} (f : X -> X) (l : list X) n :
  length l = n -> foldl (fun l i => alter f i l) l (seq 0 n) = f <$> l.
Proof. intros <-. apply (foldl_alter_seq f [] l). Qed.

(** A critical section that only updates the table. *)
Lemma locked_procs l h f s :
  held s = h -> s <| held ::= cons l |> <| procs ::= f |> <| held := h |> = s <| procs ::= f |>.
Proof. intros <-. rec_eq. Qed.

Lemma procs_procs f g s : s <| procs ::= f |> <| procs ::= g |> = s <| procs ::= (fun ps => g (f ps)) |>.
Proof. rec_eq. Qed.

Lemma procs_ext f g s : f (procs s) = g (procs s) -> s <| procs ::= f |> = s <| procs ::= g |>.
Proof. intros H. cbv [upd]. by rewrite H. Qed.

Lemma wp_blockK {A R} (body : A -> K (A + R)) a (Q : R -> interference -> kstate -> Prop) e s :
  wp (whileK (S (length e)) body a) Q e s -> wp (blockK body a) Q e s.
Proof. done. Qed.

(** ** The table *)

(** Every process has its [NTHREAD] threads. *)
Definition table_ok (s : kstate) : Prop :=
  length (procs s) = NPROC /\ Forall (fun p => length (p_threads p) = NTHREAD) (procs s).

Lemma table_ok_procs s s' : procs s' = procs s -> table_ok s -> table_ok s'.
Proof. unfold table_ok. by intros ->. Qed.

Lemma set_thread_run t f e s :
  set_thread t f e s = Ok tt e (s <| procs ::= alter (alter_thread (snd t) f) (fst t) |>).
Proof. reflexivity. Qed.

Lemma list_alter_ext {X} (f g : X -> X) (l : list X) i :
  (forall x, l !! i = Some x -> f x = g x) -> alter f i l = alter g i l.
Proof.
  intros H. apply list_eq. intros j. destruct (decide (i = j)) as [->|].
  - rewrite !list_lookup_alter_eq. destruct (l !! j) eqn:E; [|done]. cbn. by rewrite H.
  - by rewrite !list_lookup_alter_ne.
Qed.

Lemma alter_thread_twice f g (j i : nat) (ps : list proc) :
  alter (alter_thread j f) i (alter (alter_thread j g) i ps) = alter (alter_thread j (fun x => f (g x))) i ps.
Proof.
  rewrite list_alter_alter_eq. apply list_alter_ext. intros x _. unfold alter_thread. cbv [upd]. cbn. f_equal.
  apply list_alter_alter_eq.
Qed.

Definition map_threads (f : thread -> thread) (p : proc) : proc := p <| p_threads ::= fmap f |>.

Lemma set_threads_run p f e s :
  table_ok s ->
  forK (threads_of p) (fun t => set_thread t f) e s =
  Ok tt e (s <| procs ::= alter (map_threads f) p |>).
Proof.
  intros [_ Hlen]. unfold threads_of. revert Hlen. generalize NTHREAD as n. intros n Hlen.
  assert (forall l s, forK (map (fun j => (p, j)) l) (fun t => set_thread t f) e s =
    Ok tt e (s <| procs ::= alter (fun x => x <| p_threads ::= (fun ts =>
      foldl (fun l i => alter f i l) ts l) |>) p |>)) as H.
  { clear. induction l as [|j l IH]; intros s.
    - cbn. f_equal. cbv [upd]. cbn. by rewrite list_alter_id.
    - cbn [map forK]. unfold bindK. rewrite set_thread_run, IH. f_equal. cbv [upd]. cbn.
      by rewrite list_alter_alter_eq. }
  rewrite H. f_equal. cbv [upd map_threads]. cbn. f_equal. apply list_alter_ext. intros x Hx.
  cbv [upd]. f_equal. apply alter_seq_fmap. by eapply Forall_lookup_1 in Hlen.
Qed.

Lemma table_ok_threads s g : table_ok s -> table_ok (s <| procs ::= fmap (map_threads g) |>).
Proof.
  intros [H1 H2]. split; cbn; [by rewrite length_fmap|]. apply Forall_fmap. eapply Forall_impl; [exact H2|].
  intros p Hp. cbn. by rewrite length_fmap.
Qed.

(** ** [wakeup] *)

Lemma for_procs (body : nat -> K unit) (f : proc -> proc) e :
  (forall i s, table_ok s -> (forall j, L_proc j ∉ held s) ->
     body i e s = Ok tt e (s <| procs ::= alter f i |>)) ->
  (forall p, length (p_threads (f p)) = length (p_threads p)) ->
  forall s, table_ok s -> (forall j, L_proc j ∉ held s) ->
  forK (seq 0 NPROC) body e s = Ok tt e (s <| procs ::= fmap f |>).
Proof.
  intros Hbody Hf s Hs Hh.
  assert (forall l s, table_ok s -> (forall j, L_proc j ∉ held s) ->
    forK l body e s = Ok tt e (s <| procs ::= (fun ps => foldl (fun l i => alter f i l) ps l) |>)) as H.
  { clear s Hs Hh. induction l as [|i l IH]; intros s Hs Hh.
    - cbn. f_equal.
    - cbn [forK]. unfold bindK. rewrite Hbody by done. rewrite IH; [f_equal|split|]; cbn; [ | |done].
      + rewrite length_alter. apply Hs.
      + apply Forall_alter; [apply Hs|]. intros x _ Hx. by rewrite Hf. }
  rewrite H by done. f_equal. cbv [upd]. f_equal. apply alter_seq_fmap, Hs.
Qed.

Lemma wakeup_run chan e s :
  table_ok s -> (forall p, L_proc p ∉ held s) ->
  wakeup chan e s = Ok tt e (s <| procs ::= fmap (map_threads (wake_thread chan)) |>).
Proof.
  intros Hs Hh. apply for_procs; try done.
  - clear s Hs Hh. intros i s Hs Hh. unfold wakeup_code. cbn [forK stmtK]. unfold bindK. rewrite acquire_free by done.
    rewrite forK_app. unfold bindK. rewrite forK_map. cbn [stmtK]. rewrite set_threads_run by done.
    cbn [forK stmtK]. unfold bindK. by rewrite (release_top _ _ _ (held s)).
  - intros p. cbn. apply length_fmap.
Qed.

(** ** [sched], [sleep] and [yield] *)

(** The executing CPU runs thread [j] of process [i]. *)
Record running (s : kstate) (i j : nat) (p : proc) (t : thread) : Prop := {
  run_proc : c_proc s = Some i;
  run_thread : c_thread s = Some (i, j);
  run_p : procs s !! i = Some p;
  run_t : p_threads p !! j = Some t }.

Definition thread_of (s : kstate) (i j : nat) : option thread :=
  p ← procs s !! i; p_threads p !! j.

Lemma get_thread_run i j e s t : thread_of s i j = Some t -> get_thread (i, j) e s = Ok t e s.
Proof.
  unfold thread_of, get_thread. cbn. destruct (procs s !! i); [|done]. cbn. by intros ->.
Qed.

Lemma thread_of_alter s i j f :
  thread_of (s <| procs ::= alter (alter_thread j f) i |>) i j = f <$> thread_of s i j.
Proof.
  unfold thread_of. cbn. rewrite list_lookup_alter_eq. destruct (procs s !! i); [|done].
  cbn. apply list_lookup_alter_eq.
Qed.

Lemma running_thread_of s i j p t : running s i j p t -> thread_of s i j = Some t.
Proof. intros H. unfold thread_of. rewrite (run_p _ _ _ _ _ H). cbn. apply H. Qed.

Lemma curthread_run t e s : c_thread s = Some t -> curthread e s = Ok t e s.
Proof. intros H. unfold curthread. kstep (getsK_run (fun s => c_thread s) e s). by rewrite H. Qed.
Lemma curproc_run p e s : c_proc s = Some p -> curproc e s = Ok p e s.
Proof. intros H. unfold curproc. kstep (getsK_run (fun s => c_proc s) e s). by rewrite H. Qed.
Lemma holding_run l e s : holding l e s = Ok (is_held l (held s)) e s.
Proof. reflexivity. Qed.

Lemma sched_run i j t e s :
  c_proc s = Some i -> c_thread s = Some (i, j) -> thread_of s i j = Some t ->
  t_state t <> t_RUNNING -> L_proc i ∈ held s -> (length (held s) <= 2)%nat ->
  sched e s = match e with [] => Switched s | f :: e' => Ok tt e' (resume i (i, j) (held s) (f s)) end.
Proof.
  intros Hp Ht Hth Hr Hh Hn. unfold sched. kstep (curthread_run _ e s Ht).
  kstep (curproc_run _ e s Hp). kstep (holding_run (L_proc i) e s).
  apply is_held_true in Hh as Hh'. rewrite Hh'. cbn [negb].
  kstep (getsK_run noff e s). unfold noff. assert (length (held s) = 1 \/ length (held s) = 2)%nat as [->| ->].
  { destruct (held s) as [|? [|? [|? ?]]]; cbn in *; try lia. by apply not_elem_of_nil in Hh. }
  all: cbn [Nat.eqb negb andb]; kstep (get_thread_run _ _ e _ _ Hth); by rewrite decide_False.
Qed.

Definition asleep (chan : channel) (t : thread) : thread :=
  t <| t_chan := chan |> <| t_state := t_SLEEPING |>.

(** The state in which [sleep] hands over the CPU. *)
Definition sleeping (chan : channel) (i j : nat) (s : kstate) : kstate :=
  s <| held := [L_proc i] |> <| procs ::= alter (alter_thread j (asleep chan)) i |>.

Lemma sleep_run chan lk i j p t e s :
  running s i j p t -> held s = [lk] -> lk <> L_proc i ->
  sleep chan lk e s =
  match e with
  | [] => Switched (sleeping chan i j s)
  | f :: e' => Ok tt e' (resume i (i, j) [lk] (f (sleeping chan i j s))
      <| procs ::= alter (alter_thread j (fun x => x <| t_chan := CH_null |>)) i |>)
  end.
Proof.
  intros Hr Hh Hlk. unfold sleep. kstep (curthread_run _ e s (run_thread _ _ _ _ _ Hr)).
  kstep (curproc_run _ e s (run_proc _ _ _ _ _ Hr)). cbn [forK stmtK sleep_code]. unfold bindK.
  rewrite acquire_free by (rewrite Hh; set_solver).
  rewrite release_held by (cbn; rewrite Hh; set_solver).
  rewrite !set_thread_run. cbn [fst snd].
  replace (upd procs _ _) with (sleeping chan i j s); cycle 1.
  { cbv [upd sleeping]. cbn -[unhold]. rewrite Hh, unhold_cons_ne, unhold_cons by done. by rewrite alter_thread_twice. }
  rewrite (sched_run i j (asleep chan t)).
  - destruct e as [|f e']; [done|]. rewrite set_thread_run, (release_top _ _ _ []) by done.
    by rewrite acquire_free by apply not_elem_of_nil.
  - apply Hr.
  - apply Hr.
  - change (thread_of (s <| procs ::= alter (alter_thread j (asleep chan)) i |>) i j = Some (asleep chan t)).
    rewrite thread_of_alter. by rewrite (running_thread_of _ _ _ _ _ Hr).
  - done.
  - cbn. set_solver.
  - cbn. lia.
Qed.

Lemma table_ok_alter s i j f :
  table_ok s -> table_ok (s <| procs ::= alter (alter_thread j f) i |>).
Proof.
  intros [H1 H2]. split; cbn; [by rewrite length_alter|]. apply Forall_alter; [done|].
  intros x _ Hx. cbn. by rewrite length_alter.
Qed.

Lemma thread_of_fmap s i j f :
  thread_of (s <| procs ::= fmap (map_threads f) |>) i j = f <$> thread_of s i j.
Proof.
  unfold thread_of. cbn. rewrite list_lookup_fmap. destruct (procs s !! i); [|done].
  cbn. apply list_lookup_fmap.
Qed.

(** [sleep] followed by [wakeup], one after the other (Rendezvous.v has every interleaving).
    A thread that calls [sleep] is already marked as sleeping on the
    channel when the caller's lock is let go, so whoever then calls [wakeup] on that channel
    makes it runnable; and when the scheduler resumes it, [sleep] returns holding the
    caller's lock again, with the channel cleared, whatever happened meanwhile. *)
Theorem sleep_then_wakeup chan lk i j p t s :
  running s i j p t -> held s = [lk] -> lk <> L_proc i -> table_ok s ->
  (exists s1, sleep chan lk [] s = Switched s1 /\ (lk ∉ held s1) /\
     exists s2, wakeup chan [] (s1 <| held := [] |>) = Ok tt [] s2 /\
       thread_of s2 i j = Some (t <| t_chan := chan |> <| t_state := t_RUNNABLE |>)) /\
  (forall f e, exists s3, sleep chan lk (f :: e) s = Ok tt e s3 /\ held s3 = [lk] /\
     c_thread s3 = Some (i, j) /\
     forall t', thread_of (f (sleeping chan i j s)) i j = Some t' ->
       thread_of s3 i j = Some (t' <| t_state := t_RUNNING |> <| t_chan := CH_null |>)).
Proof.
  intros Hr Hh Hlk Hok. split.
  - rewrite (sleep_run chan lk i j p t) by done. eexists. split; [done|]. split; [cbn; set_solver|].
    rewrite wakeup_run.
    + eexists. split; [done|]. rewrite thread_of_fmap.
      change (thread_of _ i j) with (thread_of (s <| procs ::= alter (alter_thread j (asleep chan)) i |>) i j).
      rewrite thread_of_alter, (running_thread_of _ _ _ _ _ Hr). cbn.
      unfold wake_thread. cbn. by rewrite decide_True.
    + eapply table_ok_procs; [|by eapply (table_ok_alter s i j (asleep chan))]. done.
    + intros q. apply not_elem_of_nil.
  - intros f e. rewrite (sleep_run chan lk i j p t) by done. eexists. split; [done|].
    split; [done|]. split; [done|]. intros t' Ht'. rewrite thread_of_alter.
    unfold resume. cbn [fst snd]. 
    pose proof (thread_of_alter (f (sleeping chan i j s)) i j (fun x => x <| t_state := t_RUNNING |>)) as H.
    change (thread_of (upd procs _ _) i j) with (thread_of (f (sleeping chan i j s) <| procs ::= alter (alter_thread j (fun x => x <| t_state := t_RUNNING |>)) i |>) i j).
    rewrite H, Ht'. done.
Qed.

(** Thread 0 of process 0 on a freshly booted CPU, holding the clock's lock. *)
Definition demo_running : kstate :=
  kstate0 demo_syms <| held := [L_ticks] |> <| c_proc := Some 0%nat |> <| c_thread := Some (0, 0)%nat |>.

Lemma demo_running_ok : running demo_running 0 0 proc0 thread0.
Proof. split; reflexivity. Qed.

Lemma demo_table_ok : table_ok demo_running.
Proof. split; [reflexivity|]. apply Forall_replicate. reflexivity. Qed.

