(* ===== verification/Rendezvous.v ===== *)
(** * [sleep] and [wakeup] of several threads, interleaved

    The rendezvous every blocking path of the kernel uses: a condition that a lock [lk]
    protects, threads that wait for it with

      acquire(lk);  while(!cond) sleep(chan, lk);  [cond = 0;]  release(lk);

    and threads that make it true with

      acquire(lk);  cond = 1;  wakeup(chan);  release(lk);

    Any number of threads of the process table run any sequence of these, on as many CPUs as
    there are threads: a step of the machine is one statement of one thread.  The statements
    of [sleep] and [wakeup] are those of Sched.v ([sleep_code], [wakeup_code]); [acquire]
    waits while the lock is taken, [sched] gives up p->lock with the CPU, and the scheduler
    resumes a RUNNABLE thread with p->lock taken again.  Besides, a signal or a kill may make
    a sleeping thread runnable at any time. *)

From stdpp Require Import base numbers list strings functions relations.
From S2P Require Import Prelude Types Kernel Sched.

Notation tid := (nat * nat)%type.

Inductive op := Wait_for (clear : bool) | Signal_it.

(** Where a thread is in its current operation; the lists are what is left to do of [sleep]
    and of [wakeup]. *)
Inductive mode :=
| At_start
| At_loop (clear : bool)
| In_sleep (clear : bool) (todo : list stmt)
| Switched_out (clear : bool) (todo : list stmt)
| At_clear
| At_set
| In_wakeup (todo : list stmt)
| At_release.

Record machine := Machine {
  owner : lock -> option tid;
  table : tid -> thread;
  cond : bool;
  ctl : tid -> mode * list op }.

Inductive sres := Next (m : machine) | Blocked | Panics.

(** One statement of thread [t] ([Sched_] is a step of its own, below). *)
Definition exec_stmt (t : tid) (st : stmt) (m : machine) : sres :=
  match st with
  | Acquire_ l =>
      match owner m l with
      | None => Next (Machine (<[l := Some t]> (owner m)) (table m) (cond m) (ctl m))
      | Some t' => if decide (t' = t) then Panics else Blocked
      end
  | Release_ l =>
      if decide (owner m l = Some t)
      then Next (Machine (<[l := None]> (owner m)) (table m) (cond m) (ctl m)) else Panics
  | Set_chan u c => Next (Machine (owner m) (<[u := (table m u) <| t_chan := c |>]> (table m)) (cond m) (ctl m))
  | Set_state u x => Next (Machine (owner m) (<[u := (table m u) <| t_state := x |>]> (table m)) (cond m) (ctl m))
  | Wake u c => Next (Machine (owner m) (<[u := wake_thread c (table m u)]> (table m)) (cond m) (ctl m))
  | Sched_ =>
      if decide (owner m (L_proc (fst t)) = Some t /\ t_state (table m t) <> t_RUNNING)
      then Next (Machine (<[L_proc (fst t) := None]> (owner m)) (table m) (cond m) (ctl m)) else Panics
  end.

Definition goto (t : tid) (x : mode) (ops : list op) (m : machine) : machine :=
  Machine (owner m) (table m) (cond m) (<[t := (x, ops)]> (ctl m)).
Definition exec_goto (t : tid) (st : stmt) (x : mode) (ops : list op) (m : machine) : sres :=
  match exec_stmt t st m with Next m' => Next (goto t x ops m') | r => r end.
Definition set_cond (b : bool) (m : machine) : machine := Machine (owner m) (table m) b (ctl m).

(** The scheduler takes p->lock and runs [t]. *)
Definition run_again (t : tid) (m : machine) : machine :=
  Machine (<[L_proc (fst t) := Some t]> (owner m)) (<[t := (table m t) <| t_state := t_RUNNING |>]> (table m))
    (cond m) (ctl m).

Definition in_table (t : tid) : Prop := (fst t < NPROC /\ snd t < NTHREAD)%nat.

Section Rendezvous.
Context (lk : lock) (chan : channel).

Definition wakeup_all : list stmt := concat (map (wakeup_code chan) (seq 0 NPROC)).

Definition step_thread (t : tid) (m : machine) : sres :=
  if decide (in_table t) then
    let '(x, ops) := ctl m t in
    match x with
    | At_start =>
        match ops with
        | [] => Blocked
        | Wait_for b :: ops' => exec_goto t (Acquire_ lk) (At_loop b) ops' m
        | Signal_it :: ops' => exec_goto t (Acquire_ lk) At_set ops' m
        end
    | At_loop b =>
        Next (goto t (if cond m then (if b then At_clear else At_release)
                      else In_sleep b (sleep_code chan lk (fst t) t)) ops m)
    | In_sleep b [] => Next (goto t (At_loop b) ops m)
    | In_sleep b (Sched_ :: todo) => exec_goto t Sched_ (Switched_out b todo) ops m
    | In_sleep b (st :: todo) => exec_goto t st (In_sleep b todo) ops m
    | Switched_out b todo =>
        if decide (t_state (table m t) = t_RUNNABLE /\ owner m (L_proc (fst t)) = None)
        then Next (goto t (In_sleep b todo) ops (run_again t m)) else Blocked
    | At_clear => Next (goto t At_release ops (set_cond false m))
    | At_set => Next (goto t (In_wakeup wakeup_all) ops (set_cond true m))
    | In_wakeup [] => Next (goto t At_release ops m)
    | In_wakeup (st :: todo) => exec_goto t st (In_wakeup todo) ops m
    | At_release => exec_goto t (Release_ lk) At_start ops m
    end
  else Blocked.

(** What a kill or a signal does to a sleeping thread: taking p->lock for it, from outside. *)
Definition interrupt (t : tid) (m : machine) : sres :=
  if decide (owner m (L_proc (fst t)) = None /\ t_state (table m t) = t_SLEEPING)
  then Next (Machine (owner m) (<[t := (table m t) <| t_state := t_RUNNABLE |>]> (table m)) (cond m) (ctl m))
  else Blocked.

Inductive moves (m : machine) : machine -> Prop :=
| moves_thread t m' : step_thread t m = Next m' -> moves m m'
| moves_interrupt t m' : interrupt t m = Next m' -> moves m m'.

(** At the start every lock is free, every thread runs and is about to begin its operations. *)
Definition starts (m : machine) : Prop :=
  (forall l, owner m l = None) /\ (forall t, t_state (table m t) = t_RUNNING) /\
  (forall t, fst (ctl m t) = At_start).

Definition reachable (m : machine) : Prop := exists m0, starts m0 /\ rtc moves m0 m.

(** Some thread is inside [wakeup] and has still to pass over [t]. *)
Definition pending (t : tid) (m : machine) : Prop :=
  exists w todo, fst (ctl m w) = In_wakeup todo /\ Wake t chan ∈ todo.

(** ** The invariant *)

Definition owns (m : machine) (t : tid) (ls : list lock) : Prop := forall l, owner m l = Some t <-> l ∈ ls.
Definition runs (m : machine) (t : tid) : Prop := t_state (table m t) = t_RUNNING.
Definition noticed (m : machine) (t : tid) : Prop := cond m = true -> pending t m.

(** After the first [n] statements of [sleep]. *)
Definition sleep_at (n : nat) (m : machine) (t : tid) : Prop :=
  match n with
  | 0 => owns m t [lk] /\ runs m t /\ cond m = false
  | 1 => owns m t [L_proc (fst t); lk] /\ runs m t /\ cond m = false
  | 2 => owns m t [L_proc (fst t)] /\ runs m t /\ noticed m t
  | 3 => owns m t [L_proc (fst t)] /\ runs m t /\ t_chan (table m t) = chan /\ noticed m t
  | 4 => owns m t [L_proc (fst t)] /\ t_state (table m t) = t_SLEEPING /\ t_chan (table m t) = chan /\ noticed m t
  | 5 | 6 => owns m t [L_proc (fst t)] /\ runs m t
  | 7 => owns m t [] /\ runs m t
  | 8 => owns m t [lk] /\ runs m t
  | _ => False
  end%nat.

(** What is left of [wakeup]: whole processes, or first the rest of process [p]. *)
Definition waking (m : machine) (t : tid) (todo : list stmt) : Prop :=
  exists ps, let rest := concat (map (wakeup_code chan) ps) in
    (todo = rest /\ owns m t [lk]) \/
    exists p us, todo = map (fun u => Wake u chan) us ++ Release_ (L_proc p) :: rest /\
      Forall (fun u => fst u = p) us /\ owns m t [L_proc p; lk].

Definition tinv (m : machine) (t : tid) : Prop :=
  match fst (ctl m t) with
  | At_start => owns m t [] /\ runs m t
  | At_loop _ | At_clear | At_set | At_release => in_table t /\ owns m t [lk] /\ runs m t
  | In_sleep _ todo => in_table t /\ exists n, todo = drop n (sleep_code chan lk (fst t) t) /\ sleep_at n m t
  | Switched_out _ todo =>
      in_table t /\ todo = drop 5 (sleep_code chan lk (fst t) t) /\ owns m t [] /\
      (t_state (table m t) = t_RUNNABLE \/
       t_state (table m t) = t_SLEEPING /\ t_chan (table m t) = chan /\ noticed m t)
  | In_wakeup todo => in_table t /\ runs m t /\ waking m t todo
  end.

Definition inv (m : machine) : Prop := forall t, tinv m t.

(** *** A thread is not disturbed by the others *)

Lemma owns_frame m m' t ls :
  (forall l, owner m' l = Some t <-> owner m l = Some t) -> owns m t ls -> owns m' t ls.
Proof. intros H Hh l. by rewrite H. Qed.

Ltac held := match goal with H : owns _ _ _ |- owner _ _ = Some _ => apply H; set_solver end.

(** [t] has let go of [lk] in [sleep] and has not been woken. *)
Definition dozes (m : machine) (t : tid) : Prop :=
  in_table t /\ (owner m (L_proc (fst t)) = Some t \/ t_state (table m t) = t_SLEEPING).

Lemma sleep_at_frame n m m' t :
  (forall l, owner m' l = Some t <-> owner m l = Some t) -> table m' t = table m t ->
  (owner m lk = Some t -> cond m' = cond m) -> (owner m (L_proc (fst t)) = Some t -> noticed m t -> noticed m' t) ->
  sleep_at n m t -> sleep_at n m' t.
Proof.
  intros Ho Ht Hc Hn H. unfold sleep_at, runs in *. rewrite Ht.
  do 9 (destruct n as [|n]; [destruct_and?; split_and?; eauto using owns_frame;
    first [rewrite Hc; [done|held] | apply Hn; [held|done]]|]). done.
Qed.

Lemma tinv_frame m m' t :
  ctl m' t = ctl m t -> (forall l, owner m' l = Some t <-> owner m l = Some t) -> table m' t = table m t ->
  (owner m lk = Some t -> cond m' = cond m) -> (dozes m t -> noticed m t -> noticed m' t) ->
  tinv m t -> tinv m' t.
Proof.
  intros Hk Ho Ht Hc Hn. unfold tinv, runs. rewrite Hk, Ht.
  destruct (fst (ctl m t)) as [|b|b todo|b todo| | |todo|]; intros H; destruct_and? H; split_and?; eauto using owns_frame.
  - destruct H1 as (n & -> & H1). exists n. split; [done|]. apply (sleep_at_frame n m); auto. unfold dozes in Hn. auto.
  - unfold dozes in Hn. naive_solver.
  - destruct H2 as (ps & [[-> H2]|(p & us & -> & Hus & H2)]); exists ps; [left|right; exists p, us];
      eauto using owns_frame.
Qed.

(** Waking [u] from outside: whoever does it has p->lock, so [u] runs or is switched out. *)
Lemma tinv_woken m m' u :
  ctl m' u = ctl m u -> (forall l, owner m' l = Some u <-> owner m l = Some u) -> cond m' = cond m ->
  owner m (L_proc (fst u)) <> Some u ->
  (t_state (table m u) <> t_SLEEPING -> table m' u = table m u) ->
  (t_state (table m u) = t_SLEEPING -> t_chan (table m u) = chan -> t_state (table m' u) = t_RUNNABLE) ->
  tinv m u -> tinv m' u.
Proof.
  intros Hk Ho Hc Hp Hs Hw Hu.
  destruct (decide (t_state (table m u) = t_SLEEPING)) as [Es|Es].
  - revert Hu. unfold tinv, runs. rewrite Hk, Es.
    destruct (fst (ctl m u)) as [|b|b todo|b todo| | |todo|]; intros H; destruct_and? H; try done.
    + destruct H1 as (n & -> & H1). destruct Hp. unfold sleep_at, runs in H1. rewrite ?Es in H1.
      do 9 (destruct n as [|n]; [destruct_and? H1; try done; held|]). done.
    + split_and!; eauto using owns_frame. naive_solver.
  - apply (tinv_frame m); auto. unfold dozes. naive_solver.
Qed.

(** ** Steps *)

Lemma owner_take m t u l l' (o : lock -> option tid) :
  t <> u -> owner m l = None -> o = <[l := Some t]> (owner m) -> o l' = Some u <-> owner m l' = Some u.
Proof.
  intros Hu Hl ->. destruct (decide (l = l')) as [<-|]; [|by rewrite fn_lookup_insert_ne].
  rewrite fn_lookup_insert, Hl. split; congruence.
Qed.
Lemma owner_drop m t u l l' (o : lock -> option tid) :
  t <> u -> owner m l = Some t -> o = <[l := None]> (owner m) -> o l' = Some u <-> owner m l' = Some u.
Proof.
  intros Hu Hl ->. destruct (decide (l = l')) as [<-|]; [|by rewrite fn_lookup_insert_ne].
  rewrite fn_lookup_insert, Hl. split; congruence.
Qed.
Lemma owns_take m m' t l ls :
  owner m' = <[l := Some t]> (owner m) -> owns m t ls -> owns m' t (l :: ls).
Proof.
  intros Ho H l'. rewrite Ho. destruct (decide (l = l')) as [<-|]; [rewrite fn_lookup_insert; set_solver|].
  rewrite fn_lookup_insert_ne by done. rewrite (H l'). set_solver.
Qed.
Lemma owns_drop m m' t l ls ls' :
  owner m' = <[l := None]> (owner m) -> owns m t ls -> (forall l', l' ∈ ls' <-> l' ∈ ls /\ l' <> l) -> owns m' t ls'.
Proof.
  intros Ho H Hls l'. rewrite Ho, Hls. destruct (decide (l = l')) as [<-|]; [rewrite fn_lookup_insert; naive_solver|].
  rewrite fn_lookup_insert_ne by done. rewrite (H l'). naive_solver.
Qed.

(** The other threads keep what they have. *)
Definition moved (m m' : machine) (t : tid) : Prop :=
  forall v, v <> t -> ctl m' v = ctl m v /\ (forall l, owner m' l = Some v <-> owner m l = Some v) /\
    table m' v = table m v.

(** [t] goes on to [x] without having skipped a thread it still had to wake. *)
Definition passes_on (m : machine) (t : tid) (x : mode) : Prop :=
  forall u todo, fst (ctl m t) = In_wakeup todo -> Wake u chan ∈ todo ->
    exists todo', x = In_wakeup todo' /\ Wake u chan ∈ todo'.

Lemma noticed_kept m m' t x ops u :
  ctl m' = <[t := (x, ops)]> (ctl m) -> cond m' = cond m ->
  (forall todo, fst (ctl m t) = In_wakeup todo -> Wake u chan ∈ todo ->
    exists todo', x = In_wakeup todo' /\ Wake u chan ∈ todo') ->
  noticed m u -> noticed m' u.
Proof.
  unfold noticed. intros Hk -> Hx Hn Hc. destruct (Hn Hc) as (w & todo & Hw & Hin). destruct (decide (w = t)) as [->|Hne].
  - destruct (Hx todo Hw Hin) as (todo' & -> & ?). exists t, todo'. by rewrite Hk, fn_lookup_insert.
  - exists w, todo. by rewrite Hk, fn_lookup_insert_ne.
Qed.

Lemma inv_moved m m' t x ops :
  inv m -> moved m m' t -> ctl m' = <[t := (x, ops)]> (ctl m) -> cond m' = cond m -> passes_on m t x ->
  tinv m' t -> inv m'.
Proof.
  intros Hi Hm Hk Hc Hx Ht v. destruct (decide (v = t)) as [->|Hne]; [done|].
  destruct (Hm v Hne) as (H1 & H2 & H3). apply (tinv_frame m); auto. intros _.
  apply (noticed_kept m m' t x ops); auto. intros todo. apply Hx.
Qed.

Definition safe (r : sres) : Prop :=
  match r with Next m' => inv m' | Blocked => True | Panics => False end.

(** What thread [t] finds after a statement that leaves the condition alone. *)
Definition after (m m' : machine) (t : tid) (x : mode) (ops : list op) : Prop :=
  ctl m' = <[t := (x, ops)]> (ctl m) /\ cond m' = cond m /\ (noticed m t -> noticed m' t).

Lemma after_intro m m' t x ops :
  ctl m' = <[t := (x, ops)]> (ctl m) -> cond m' = cond m -> passes_on m t x -> after m m' t x ops.
Proof.
  intros Hk Hc Hx. split_and!; [done..|]. apply (noticed_kept m m' t x ops); auto. intros todo. apply Hx.
Qed.

Lemma acquire_safe m t l ls x ops :
  inv m -> owns m t ls -> l ∉ ls -> passes_on m t x ->
  (forall m', after m m' t x ops -> owns m' t (l :: ls) -> table m' = table m -> tinv m' t) ->
  safe (exec_goto t (Acquire_ l) x ops m).
Proof.
  intros Hi Hh Hl Hx Hm. unfold exec_goto, exec_stmt. destruct (owner m l) as [v|] eqn:E; cbn.
  { case_decide; [|done]. subst. by apply Hh in E. }
  apply (inv_moved m _ t x ops); try done.
  - intros v Hv. cbn. rewrite fn_lookup_insert_ne by done. split_and!; [done| |done].
    intros l'. by apply (owner_take m t v l).
  - apply Hm; [by apply after_intro| |done]. by apply (owns_take m).
Qed.

Lemma drop_safe m m' t l ls ls' x ops :
  inv m -> owns m t ls -> l ∈ ls -> (forall l', l' ∈ ls' <-> l' ∈ ls /\ l' <> l) -> passes_on m t x ->
  m' = Machine (<[l := None]> (owner m)) (table m) (cond m) (<[t := (x, ops)]> (ctl m)) ->
  (after m m' t x ops -> owns m' t ls' -> tinv m' t) ->
  inv m'.
Proof.
  intros Hi Hh Hl Hls Hx -> Hm. apply Hh in Hl. apply (inv_moved m _ t x ops); try done.
  - intros v Hv. cbn. rewrite fn_lookup_insert_ne by done. split_and!; [done| |done].
    intros l'. by apply (owner_drop m t v l).
  - apply Hm; [by apply after_intro|]. by apply (owns_drop m _ t l ls).
Qed.

Lemma release_safe m t l ls ls' x ops :
  inv m -> owns m t ls -> l ∈ ls -> (forall l', l' ∈ ls' <-> l' ∈ ls /\ l' <> l) -> passes_on m t x ->
  (forall m', after m m' t x ops -> owns m' t ls' -> table m' = table m -> tinv m' t) ->
  safe (exec_goto t (Release_ l) x ops m).
Proof.
  intros Hi Hh Hl Hls Hx Hm. unfold exec_goto, exec_stmt. rewrite decide_True by by apply Hh.
  apply (drop_safe m _ t l ls ls' x ops); try done. auto.
Qed.

Lemma sched_safe m t ls ls' x ops :
  inv m -> owns m t ls -> L_proc (fst t) ∈ ls -> (forall l', l' ∈ ls' <-> l' ∈ ls /\ l' <> L_proc (fst t)) ->
  t_state (table m t) <> t_RUNNING -> passes_on m t x ->
  (forall m', after m m' t x ops -> owns m' t ls' -> table m' = table m -> tinv m' t) ->
  safe (exec_goto t Sched_ x ops m).
Proof.
  intros Hi Hh Hl Hls Hr Hx Hm. unfold exec_goto, exec_stmt. rewrite decide_True by (split; [by apply Hh|done]).
  apply (drop_safe m _ t (L_proc (fst t)) ls ls' x ops); try done. auto.
Qed.

(** A step that changes only the thread's own record. *)
Lemma own_safe m m' t x ops f :
  inv m -> passes_on m t x ->
  m' = Machine (owner m) (<[t := f (table m t)]> (table m)) (cond m) (<[t := (x, ops)]> (ctl m)) ->
  (after m m' t x ops -> (forall ls, owns m t ls -> owns m' t ls) -> table m' t = f (table m t) -> tinv m' t) ->
  inv m'.
Proof.
  intros Hi Hx -> Hm. apply (inv_moved m _ t x ops); try done.
  - intros v Hv. cbn. by rewrite !fn_lookup_insert_ne.
  - apply Hm; [by apply after_intro|auto|]. cbn. by rewrite fn_lookup_insert.
Qed.

Lemma goto_safe m t x ops :
  inv m -> passes_on m t x ->
  (forall m', after m m' t x ops -> (forall ls, owns m t ls -> owns m' t ls) -> table m' = table m -> tinv m' t) ->
  inv (goto t x ops m).
Proof.
  intros Hi Hx Hm. apply (inv_moved m _ t x ops); try done.
  - intros v Hv. cbn. by rewrite fn_lookup_insert_ne.
  - apply Hm; [by apply after_intro|auto|done].
Qed.

Lemma passes_idle m t x : (forall todo, fst (ctl m t) <> In_wakeup todo) -> passes_on m t x.
Proof. intros H u todo E. by destruct (H todo). Qed.

(** The holder of [lk] changes the condition; when it becomes true, a [wakeup] of everybody
    is ahead. *)
Lemma set_cond_safe m t b x ops :
  inv m -> owner m lk = Some t ->
  (b = true -> forall u, in_table u -> exists todo, x = In_wakeup todo /\ Wake u chan ∈ todo) ->
  tinv (goto t x ops (set_cond b m)) t -> inv (goto t x ops (set_cond b m)).
Proof.
  intros Hi Ho Hb Ht v. destruct (decide (v = t)) as [->|Hne]; [done|].
  apply (tinv_frame m); try done.
  - cbn. by rewrite fn_lookup_insert_ne.
  - intros Ho'. congruence.
  - intros [Hv _] _ Hc. cbn in Hc. destruct (Hb Hc v Hv) as (todo & -> & Hin).
    exists t, todo. cbn. by rewrite fn_lookup_insert.
Qed.

Lemma wake_in_all u : in_table u -> Wake u chan ∈ wakeup_all.
Proof.
  destruct u as [p j]. intros [Hp Hj]. apply list_elem_of_In, in_concat. exists (wakeup_code chan p). split.
  - apply in_map, in_seq. cbn in Hp. lia.
  - right. apply in_app_iff. left. apply (in_map (fun t => Wake t chan)). unfold threads_of.
    apply (in_map (fun j => (p, j))), in_seq. cbn in Hj. lia.
Qed.

Section Sleep.
Hypothesis Hlk : forall p, lk <> L_proc p.

(** The steps inside [sleep]. *)
Lemma in_sleep_safe m t b n ops :
  inv m -> in_table t -> sleep_at n m t -> ctl m t = (In_sleep b (drop n (sleep_code chan lk (fst t) t)), ops) ->
  safe (step_thread t m).
Proof.
  intros Hi Ht Hn Hk. unfold step_thread. rewrite decide_True by done. rewrite Hk.
  assert (forall x, passes_on m t x) as Hx by (intros x; apply passes_idle; rewrite Hk; done).
  assert (forall m' x ops', after m m' t x ops' -> ctl m' t = (x, ops')) as Hctl
    by (intros m' x ops' (-> & _); by rewrite fn_lookup_insert).
  pose proof (Hlk (fst t)) as Hne.
  destruct n as [|[|[|[|[|[|[|[|[|n]]]]]]]]]; cbn [drop sleep_code]; try done;
    unfold sleep_at in Hn; destruct_and? Hn.
  - apply (acquire_safe m t _ [lk]); [done..|set_solver|done|]. intros m' Ha Hh Htb. unfold tinv.
    rewrite (Hctl _ _ _ Ha). split; [done|]. exists 1%nat. split; [done|]. unfold sleep_at, runs. rewrite Htb.
    destruct Ha as (_ & -> & _). done.
  - apply (release_safe m t _ [L_proc (fst t); lk] [L_proc (fst t)]); [done..|set_solver|set_solver|done|].
    intros m' Ha Hh Htb. unfold tinv. rewrite (Hctl _ _ _ Ha). split; [done|]. exists 2%nat. split; [done|].
    unfold sleep_at, runs, noticed. rewrite Htb. destruct Ha as (_ & -> & _). split_and!; [done..|congruence].
  - eapply (own_safe m _ t _ ops (fun x => x <| t_chan := chan |>)); [done..|]. intros Ha Hh Htb. unfold tinv.
    rewrite (Hctl _ _ _ Ha). split; [done|]. exists 3%nat. split; [done|]. unfold sleep_at, runs. rewrite Htb.
    split_and!; [auto|done..|]. by apply Ha.
  - eapply (own_safe m _ t _ ops (fun x => x <| t_state := t_SLEEPING |>)); [done..|]. intros Ha Hh Htb. unfold tinv.
    rewrite (Hctl _ _ _ Ha). split; [done|]. exists 4%nat. split; [done|]. unfold sleep_at. rewrite Htb.
    split_and!; [auto|done..|]. by apply Ha.
  - apply (sched_safe m t [L_proc (fst t)] []); [done..|set_solver|set_solver|congruence|done|].
    intros m' Ha Hh Htb. unfold tinv. rewrite (Hctl _ _ _ Ha), Htb. split_and!; [done..|]. right.
    split_and!; [done..|]. by apply Ha.
  - eapply (own_safe m _ t _ ops (fun x => x <| t_chan := CH_null |>)); [done..|]. intros Ha Hh Htb. unfold tinv.
    rewrite (Hctl _ _ _ Ha). split; [done|]. exists 6%nat. split; [done|]. unfold sleep_at, runs. rewrite Htb. auto.
  - apply (release_safe m t _ [L_proc (fst t)] []); [done..|set_solver|set_solver|done|].
    intros m' Ha Hh Htb. unfold tinv. rewrite (Hctl _ _ _ Ha). split; [done|]. exists 7%nat. split; [done|].
    unfold sleep_at, runs. by rewrite Htb.
  - apply (acquire_safe m t _ []); [done..|set_solver|done|]. intros m' Ha Hh Htb. unfold tinv.
    rewrite (Hctl _ _ _ Ha). split; [done|]. exists 8%nat. split; [done|]. unfold sleep_at, runs. by rewrite Htb.
  - apply goto_safe; [done..|]. intros m' Ha Hh Htb. unfold tinv, runs. rewrite (Hctl _ _ _ Ha), Htb. split_and!; auto.
Qed.

(** The scheduler resumes a thread inside [sleep]. *)
Lemma switched_out_safe m t b ops :
  inv m -> in_table t -> owns m t [] -> ctl m t = (Switched_out b (drop 5 (sleep_code chan lk (fst t) t)), ops) ->
  safe (step_thread t m).
Proof.
  intros Hi Ht Hh Hk. unfold step_thread. rewrite decide_True by done. rewrite Hk.
  case_decide as Hd; [|done]. destruct Hd as [_ Ho]. eapply (inv_moved m _ t _ ops); try done.
  - intros v Hv. cbn. rewrite !fn_lookup_insert_ne by done. split_and!; [done| |done].
    intros l. by apply (owner_take m t v (L_proc (fst t))).
  - apply passes_idle. by rewrite Hk.
  - unfold tinv. cbn [ctl goto]. rewrite fn_lookup_insert. split; [done|]. exists 5%nat. split; [done|]. split.
    + by apply (owns_take m).
    + unfold runs. cbn. by rewrite fn_lookup_insert.
Qed.

(** The steps inside [wakeup]. *)
Lemma wake_running c x : t_state x <> t_SLEEPING -> wake_thread c x = x.
Proof. intros H. unfold wake_thread. rewrite decide_False; naive_solver. Qed.

Lemma wake_safe m t u todo ops :
  inv m -> owner m (L_proc (fst u)) = Some t -> runs m t -> ctl m t = (In_wakeup (Wake u chan :: todo), ops) ->
  (forall m', (forall ls, owns m t ls -> owns m' t ls) -> runs m' t -> ctl m' t = (In_wakeup todo, ops) -> tinv m' t) ->
  safe (exec_goto t (Wake u chan) (In_wakeup todo) ops m).
Proof.
  intros Hi Ho Hr Hk Hm. cbn. set (m' := goto _ _ _ _).
  assert (forall v, v <> u \/ t_state (table m v) <> t_SLEEPING -> table m' v = table m v) as Htab.
  { intros v Hv. cbn. destruct (decide (u = v)) as [<-|]; [|by rewrite fn_lookup_insert_ne].
    rewrite fn_lookup_insert. apply wake_running. naive_solver. }
  intros v. destruct (decide (v = t)) as [->|Hvt].
  { apply Hm; [done| |cbn; by rewrite fn_lookup_insert]. unfold runs in *. rewrite Htab; [done|]. right. congruence. }
  assert (ctl m' v = ctl m v) as Hkv by (cbn; by rewrite fn_lookup_insert_ne).
  destruct (decide (v = u)) as [->|Hvu].
  - apply (tinv_woken m); try done; [congruence|naive_solver|]. intros Es Ec. cbn. rewrite fn_lookup_insert.
    unfold wake_thread. by rewrite decide_True.
  - apply (tinv_frame m); try done; [naive_solver|]. intros _. apply (noticed_kept m m' t (In_wakeup todo) ops); try done.
    rewrite Hk. cbn. intros ? [= <-] Hin. exists todo. split; [done|]. apply elem_of_cons in Hin as [[= ->]|Hin]; done.
Qed.

Lemma in_wakeup_safe m t todo ops :
  inv m -> in_table t -> runs m t -> waking m t todo -> ctl m t = (In_wakeup todo, ops) -> safe (step_thread t m).
Proof.
  intros Hi Ht Hr (ps & Hw) Hk. unfold step_thread. rewrite decide_True by done. rewrite Hk.
  assert (forall st rest, todo = st :: rest -> (forall u, st <> Wake u chan) -> passes_on m t (In_wakeup rest)) as Hx.
  { intros st rest -> Hst u todo'. rewrite Hk. cbn. intros [= <-] Hin. exists rest. split; [done|].
    apply elem_of_cons in Hin as [Hin|Hin]; [by destruct (Hst u)|done]. }
  pose proof Hlk as Hlk'.
  destruct Hw as [[-> Hh]|(p & us & -> & Hus & Hh)].
  - destruct ps as [|p ps].
    + apply goto_safe; [done| |].
      * intros u todo'. rewrite Hk. intros [= <-] Hin. by apply not_elem_of_nil in Hin.
      * intros m' (Hk' & _) Hh' Htb. unfold tinv, runs. rewrite Hk', fn_lookup_insert, Htb. cbn. auto.
    + cbn [map concat wakeup_code app].
      apply (acquire_safe m t _ [lk]); [done..|set_solver|by apply (Hx (Acquire_ (L_proc p)))|].
      intros m' (Hk' & _) Hh' Htb. unfold tinv, runs. rewrite Hk', fn_lookup_insert, Htb. split_and!; [done..|].
      exists ps. right. exists p, (threads_of p). split_and!; [by rewrite <-app_assoc| |done].
      apply Forall_forall. intros [q j] Hq. apply list_elem_of_In, in_map_iff in Hq. naive_solver.
  - destruct us as [|u us]; cbn [map app].
    + apply (release_safe m t _ [L_proc p; lk] [lk]); [done..|set_solver|set_solver|by apply (Hx (Release_ (L_proc p)))|].
      intros m' (Hk' & _) Hh' Htb. unfold tinv, runs. rewrite Hk', fn_lookup_insert, Htb. split_and!; [done..|].
      exists ps. by left.
    + inversion Hus as [|? ? Hu Hus']; subst. apply wake_safe; [done|apply Hh; set_solver|done..|].
      intros m' Hh' Hr' Hk'. unfold tinv. rewrite Hk'. split_and!; [done..|]. exists ps. right. exists (fst u), us. auto.
Qed.

Lemma step_safe t m : inv m -> safe (step_thread t m).
Proof.
  intros Hi. destruct (decide (in_table t)) as [Ht|Ht]; [|unfold step_thread; by rewrite decide_False].
  pose proof (Hi t) as H. unfold tinv in H. destruct (ctl m t) as [x ops] eqn:Hk. cbn in H.
  assert ((forall todo, x <> In_wakeup todo) -> forall y, passes_on m t y) as Hx
    by (intros Hx y; apply passes_idle; by rewrite Hk).
  destruct x as [|b|b todo|b todo| | |todo|].
  3: destruct H as (_ & n & -> & H); by eapply in_sleep_safe.
  3: destruct H as (_ & -> & H & _); by eapply switched_out_safe.
  5: destruct H as (_ & ? & ?); by eapply in_wakeup_safe.
  all: unfold step_thread; rewrite decide_True by done; rewrite Hk; destruct_and? H.
  - destruct ops as [|[b|] ops]; [done|..]; (apply (acquire_safe m t _ []); [done..|set_solver|auto|]);
      intros m' (Hk' & _) Hh' Htb; unfold tinv, runs; rewrite Hk', fn_lookup_insert, Htb; done.
  - apply goto_safe; [done|auto|]. intros m' (Hk' & Hc & _) Hh' Htb. unfold tinv, runs.
    rewrite Hk', fn_lookup_insert. destruct (cond m) eqn:Ec; [destruct b; cbn; rewrite Htb; auto|]. cbn.
    split; [done|]. exists 0%nat. split; [done|]. unfold sleep_at, runs. rewrite Htb. auto.
  - apply set_cond_safe; [done|held|done|]. unfold tinv. cbn. by rewrite fn_lookup_insert.
  - apply set_cond_safe; [done|held|..].
    + intros _ u Hu. eexists. split; [done|]. by apply wake_in_all.
    + unfold tinv. cbn -[wakeup_all]. rewrite fn_lookup_insert. split_and!; [done..|]. exists (seq 0 NPROC). by left.
  - apply (release_safe m t _ [lk] []); [done..|set_solver|set_solver|auto|].
    intros m' (Hk' & _) Hh' Htb. unfold tinv, runs. by rewrite Hk', fn_lookup_insert, Htb.
Qed.

Lemma interrupt_safe t m : inv m -> safe (interrupt t m).
Proof.
  intros Hi. unfold interrupt. case_decide as Hd; [|done]. destruct Hd as [Ho Hs]. cbn. set (m' := Machine _ _ _ _).
  intros v. destruct (decide (v = t)) as [->|Hne].
  - apply (tinv_woken m); try done; [congruence|]. intros _ _. cbn. by rewrite fn_lookup_insert.
  - apply (tinv_frame m); try done. cbn. by rewrite fn_lookup_insert_ne.
Qed.

Lemma starts_inv m : starts m -> inv m.
Proof.
  intros (H1 & H2 & H3) t. unfold tinv. rewrite H3. split; [|apply H2]. intros l. rewrite H1. set_solver.
Qed.

Lemma rendezvous_inv m : reachable m -> inv m.
Proof.
  intros (m0 & H0 & Hr). apply starts_inv in H0. induction Hr as [|m1 m2 m3 Hm _ IH]; [done|]. apply IH.
  destruct Hm as [t m2 E|t m2 E].
  - pose proof (step_safe t m1 H0) as H. by rewrite E in H.
  - pose proof (interrupt_safe t m1 H0) as H. by rewrite E in H.
Qed.

(** In the states of the invariant, a sleeping thread is inside [sleep], on the channel. *)
Lemma asleep_noticed m t :
  tinv m t -> t_state (table m t) = t_SLEEPING -> t_chan (table m t) = chan /\ noticed m t.
Proof.
  unfold tinv, runs. intros H Es. rewrite Es in H.
  destruct (fst (ctl m t)) as [|b|b todo|b todo| | |todo|]; destruct_and? H; try done; [|naive_solver].
  destruct H1 as (n & -> & H1). unfold sleep_at, runs in H1. rewrite Es in H1.
  do 9 (destruct n as [|n]; [naive_solver|]). done.
Qed.
End Sleep.
End Rendezvous.

Arguments reachable : clear implicits.

(** C18: No wakeup is lost, whatever the interleaving.  In every state that any number of
    threads can reach by waiting for a condition with [sleep] and making it true with
    [wakeup], statement by statement and in any order: no [acquire], [release] or [sched]
    panics; a thread that sleeps does so on the channel, and if the condition already owns
    then some thread is inside [wakeup] and has still to pass over the sleeper (so once every
    [wakeup] is over nobody sleeps while the condition owns); a thread that gave up its CPU
    inside [sleep] is asleep or runnable; and a thread back at the test of its loop owns the
    lock. *)
Theorem no_lost_wakeup lk chan m :
  (forall p, lk <> L_proc p) -> reachable lk chan m ->
  (forall t, step_thread lk chan t m <> Panics) /\
  (forall t, t_state (table m t) = t_SLEEPING ->
     t_chan (table m t) = chan /\ (cond m = true -> pending chan t m)) /\
  (forall t b todo, fst (ctl m t) = Switched_out b todo ->
     t_state (table m t) = t_SLEEPING \/ t_state (table m t) = t_RUNNABLE) /\
  (forall t b, fst (ctl m t) = At_loop b -> owner m lk = Some t).
Proof.
  intros Hlk Hr. apply rendezvous_inv in Hr as Hi; [|done]. split_and!.
  - intros t E. pose proof (step_safe lk chan Hlk t m Hi) as H. by rewrite E in H.
  - intros t. apply (asleep_noticed lk), Hi.
  - intros t b todo E. specialize (Hi t). unfold tinv in Hi. rewrite E in Hi. naive_solver.
  - intros t b E. specialize (Hi t). unfold tinv in Hi. rewrite E in Hi. destruct Hi as (_ & H & _). apply H. set_solver.
Qed.

(** *** A run: one thread waits, another one signals, and the first one takes the condition *)

Definition demo_start : machine :=
  Machine (fun _ => None) (fun _ => thread0 <| t_state := t_RUNNING |>) false
    (fun t => (At_start, if decide (t = (0, 0)%nat) then [Wait_for true]
                         else if decide (t = (1, 0)%nat) then [Signal_it] else [])).

Fixpoint run_schedule (lk : lock) (chan : channel) (ts : list tid) (m : machine) : option machine :=
  match ts with
  | [] => Some m
  | t :: ts' => match step_thread lk chan t m with Next m' => run_schedule lk chan ts' m' | _ => None end
  end.

Lemma run_schedule_moves lk chan ts m m' : run_schedule lk chan ts m = Some m' -> rtc (moves lk chan) m m'.
Proof.
  revert m. induction ts as [|t ts IH]; intros m H; [injection H as <-; constructor|].
  cbn in H. destruct (step_thread lk chan t m) as [m1| |] eqn:E; [|done..]. econstructor; [|by apply IH].
  by apply (moves_thread _ _ _ t).
Qed.

(** The waiter goes to sleep; the waker makes the condition true and starts [wakeup]. *)
Definition demo_schedule : list tid := replicate 7 (0, 0)%nat ++ replicate 3 (1, 0)%nat.
Definition demo_middle : machine := default demo_start (run_schedule L_ticks CH_ticks demo_schedule demo_start).

Lemma demo_middle_reachable : reachable L_ticks CH_ticks demo_middle.
Proof.
  exists demo_start. split; [done|]. unfold demo_middle.
  destruct (run_schedule L_ticks CH_ticks demo_schedule demo_start) eqn:E; [by apply (run_schedule_moves _ _ demo_schedule)|].
  constructor.
Qed.

Lemma no_lost_wakeup_witness :
  t_state (table demo_middle (0, 0)%nat) = t_SLEEPING /\ cond demo_middle = true /\
  pending CH_ticks (0, 0)%nat demo_middle.
Proof.
  destruct (no_lost_wakeup L_ticks CH_ticks demo_middle ltac:(intros p; discriminate) demo_middle_reachable) as (_ & H & _).
  assert (t_state (table demo_middle (0, 0)%nat) = t_SLEEPING) as H1 by (vm_compute; reflexivity).
  assert (cond demo_middle = true) as H2 by (vm_compute; reflexivity).
  split; [exact H1|]. split; [exact H2|]. destruct (H (0, 0)%nat H1) as [_ H3]. exact (H3 H2).
Defined.

(** Run to the end, both threads finish and the condition has been consumed. *)
Example demo_finishes :
  match run_schedule L_ticks CH_ticks
    (replicate 7 (0, 0)%nat ++ replicate (4 + 10 * NPROC) (1, 0)%nat ++ replicate 8 (0, 0)%nat) demo_start with
  | Some m => cond m = false /\ ctl m (0, 0)%nat = (At_start, []) /\ ctl m (1, 0)%nat = (At_start, [])
  | None => False
  end.
Proof. vm_compute. done. Qed.
