(* ===== verification/Bio.v ===== *)
(** * Sleep locks and the buffer cache: kernel/sleeplock.c and kernel/bio.c

    The buffers are the entries of [bcache], with the list head as entry [NBUF]; the LRU
    list is the [b_next]/[b_prev] links, updated one assignment at a time as in the source.
    [virtio_disk_rw] is represented by its contract, a transfer of one block between the
    buffer and the disk; the history of the writes the disk received is kept, so that a
    crash can be placed between any two of them. *)

From stdpp Require Import base numbers list gmap strings.
From S2P Require Import Prelude Mem Types Kernel Sched.

(** ** Sleep locks *)

Definition get_sleeplock (k : slock) : K sleeplock := fun e s =>
  match k with
  | SL_buf i => match bcache s !! i with Some b => Ok (b_lock b) e s | None => UB "buf index" end
  | SL_inode i => match itable s !! i with Some ip => Ok (i_lock ip) e s | None => UB "inode index" end
  end.

Definition put_sleeplock (k : slock) (l : sleeplock) (s : kstate) : kstate :=
  match k with
  | SL_buf i => s <| bcache ::= alter (fun b => b <| b_lock := l |>) i |>
  | SL_inode i => s <| itable ::= alter (fun ip => ip <| i_lock := l |>) i |>
  end.
Definition set_sleeplock (k : slock) (l : sleeplock) : K unit := modifyK (put_sleeplock k l).

Definition initsleeplock (k : slock) : K unit :=
  initlock (L_sleep k) ;;;
  set_sleeplock k (Sleeplock false 0).

Definition acquiresleep (k : slock) : K unit :=
  acquire (L_sleep k) ;;;
  blockK (fun _ : unit =>
    l <- get_sleeplock k ;;
    if sl_locked l then sleep (CH_sleeplock k) (L_sleep k) ;;; retK (inl tt)
    else retK (inr tt)) tt ;;;
  p <- curproc ;;
  x <- get_proc p ;;
  set_sleeplock k (Sleeplock true (p_pid x)) ;;;
  release (L_sleep k).

Definition releasesleep (k : slock) : K unit :=
  acquire (L_sleep k) ;;;
  set_sleeplock k (Sleeplock false 0) ;;;
  wakeup (CH_sleeplock k) ;;;
  release (L_sleep k).

Definition holdingsleep (k : slock) : K bool :=
  acquire (L_sleep k) ;;;
  l <- get_sleeplock k ;;
  p <- curproc ;;
  x <- get_proc p ;;
  release (L_sleep k) ;;;
  retK (sl_locked l && (sl_pid l =? p_pid x)).

(** ** Buffers *)

Definition get_buf (b : nat) : K buf := fun e s =>
  match bcache s !! b with Some x => Ok x e s | None => UB "buf index" end.
Definition set_buf (b : nat) (f : buf -> buf) : K unit :=
  modifyK (fun s => s <| bcache ::= alter f b |>).

(** The contract of [virtio_disk_rw(b, write)]: the block is transferred when it returns. *)
Definition disk_block (s : kstate) (blockno : Z) : list Z :=
  default zero_block (dk_blocks (disk s) !! blockno).

Definition write_block (blockno : Z) (data : list Z) (d : diskstate) : diskstate :=
  d <| dk_blocks ::= <[blockno := data]> |> <| dk_writes ::= cons (blockno, data) |>.

Definition virtio_disk_rw (b : nat) (write : bool) : K unit :=
  x <- get_buf b ;;
  if write then modifyK (fun s => s <| disk ::= write_block (b_blockno x) (b_data x) |>)
  else modifyK (fun s => s <| bcache ::= alter (fun x => x <| b_data := disk_block s (b_blockno x) |>) b |>).

(** ** The LRU list *)

(** [b->next->prev = v], and the like: an assignment through a link. *)
Definition set_next (b v : nat) (bs : list buf) : list buf := alter (fun x => x <| b_next := v |>) b bs.
Definition set_prev (b v : nat) (bs : list buf) : list buf := alter (fun x => x <| b_prev := v |>) b bs.
Definition next_of (bs : list buf) (b : nat) : nat := b_next (bs !!! b).
Definition prev_of (bs : list buf) (b : nat) : nat := b_prev (bs !!! b).

(** The four assignments that link [b] in front of the list. *)
Definition link_front (b : nat) (bs : list buf) : list buf :=
  let bs := set_next b (next_of bs NBUF) bs in
  let bs := set_prev b NBUF bs in
  let bs := set_prev (next_of bs NBUF) b bs in
  set_next NBUF b bs.

(** The two assignments that take [b] out of the list. *)
Definition unlink (b : nat) (bs : list buf) : list buf :=
  let bs := set_prev (next_of bs b) (prev_of bs b) bs in
  set_next (prev_of bs b) (next_of bs b) bs.

Definition binit : K unit :=
  initlock L_bcache ;;;
  set_buf NBUF (fun x => x <| b_prev := NBUF |> <| b_next := NBUF |>) ;;;
  forK (seq 0 NBUF) (fun b =>
    initsleeplock (SL_buf b) ;;;
    modifyK (fun s => s <| bcache ::= link_front b |>)).

(** The scans of [bget]: from [b] along the next, respectively the prev links, up to the
    head; the fuel bounds the number of links followed. *)
Fixpoint find_cached (fuel : nat) (dev blockno : Z) (bs : list buf) (b : nat) : option (option nat) :=
  match fuel with
  | O => None
  | S k =>
      if (b =? NBUF)%nat then Some None
      else let x := bs !!! b in
           if (b_dev x =? dev) && (b_blockno x =? blockno) then Some (Some b)
           else find_cached k dev blockno bs (b_next x)
  end.

Fixpoint find_unused (fuel : nat) (bs : list buf) (b : nat) : option (option nat) :=
  match fuel with
  | O => None
  | S k =>
      if (b =? NBUF)%nat then Some None
      else let x := bs !!! b in
           if b_refcnt x =? 0 then Some (Some b) else find_unused k bs (b_prev x)
  end.

Definition bget (dev blockno : Z) : K nat :=
  acquire L_bcache ;;;
  c <- getsK (fun s => find_cached (S NBUF) dev blockno (bcache s) (next_of (bcache s) NBUF)) ;;
  match c with
  | None => fun _ _ => OutOfFuel
  | Some (Some b) =>
      set_buf b (fun x => x <| b_refcnt := u32 (b_refcnt x + 1) |>) ;;;
      release L_bcache ;;;
      acquiresleep (SL_buf b) ;;;
      retK b
  | Some None =>
      r <- getsK (fun s => find_unused (S NBUF) (bcache s) (prev_of (bcache s) NBUF)) ;;
      match r with
      | None => fun _ _ => OutOfFuel
      | Some None => panic "bget: no buffers"
      | Some (Some b) =>
          set_buf b (fun x => x <| b_dev := dev |> <| b_blockno := blockno |>
                                <| b_valid := false |> <| b_refcnt := 1 |>) ;;;
          release L_bcache ;;;
          acquiresleep (SL_buf b) ;;;
          retK b
      end
  end.

Definition bread (dev blockno : Z) : K nat :=
  b <- bget dev blockno ;;
  x <- get_buf b ;;
  if b_valid x then retK b
  else virtio_disk_rw b false ;;;
       set_buf b (fun x => x <| b_valid := true |>) ;;;
       retK b.

Definition bwrite (b : nat) : K unit :=
  h <- holdingsleep (SL_buf b) ;;
  if negb h then panic "bwrite" else virtio_disk_rw b true.

Definition brelse (b : nat) : K unit :=
  h <- holdingsleep (SL_buf b) ;;
  if negb h then panic "brelse" else
  releasesleep (SL_buf b) ;;;
  acquire L_bcache ;;;
  set_buf b (fun x => x <| b_refcnt := u32 (b_refcnt x - 1) |>) ;;;
  x <- get_buf b ;;
  (if b_refcnt x =? 0
   then modifyK (fun s => s <| bcache ::= (fun bs => link_front b (unlink b bs)) |>)
   else retK tt) ;;;
  release L_bcache.

Definition bpin (b : nat) : K unit :=
  acquire L_bcache ;;;
  set_buf b (fun x => x <| b_refcnt := u32 (b_refcnt x + 1) |>) ;;;
  release L_bcache.

Definition bunpin (b : nat) : K unit :=
  acquire L_bcache ;;;
  set_buf b (fun x => x <| b_refcnt := u32 (b_refcnt x - 1) |>) ;;;
  release L_bcache.

#[global] Arguments acquiresleep : simpl never.
#[global] Arguments releasesleep : simpl never.
#[global] Arguments holdingsleep : simpl never.
#[global] Arguments get_buf : simpl never.
#[global] Arguments set_buf : simpl never.
#[global] Arguments bget : simpl never.
#[global] Arguments bread : simpl never.
#[global] Arguments bwrite : simpl never.
#[global] Arguments brelse : simpl never.
#[global] Arguments bpin : simpl never.
#[global] Arguments bunpin : simpl never.
