(* ===== verification/BioFacts.v ===== *)
(** * The buffer cache: its list, its invariant and what its operations do

    The doubly linked list of kernel/bio.c is related to the list of the buffers in order of
    use; on top of it, the cache as a whole is related to an abstract map from block numbers
    to the buffers in use ([live]), a block that is not in use being what the disk has.  The
    operations are specified by what they do to that map, on which kernel/log.c relies. *)

From stdpp Require Import base numbers list gmap strings.
From S2P Require Import Prelude Mem Types Kernel Wp Sched SchedFacts Bio.

(** ** Links *)

Section Links.
Implicit Types (bs : list buf) (a b v i : nat).

Lemma length_set_next b v bs : length (set_next b v bs) = length bs.
Proof. apply length_alter. Qed.
Lemma length_set_prev b v bs : length (set_prev b v bs) = length bs.
Proof. apply length_alter. Qed.

Lemma total_alter_eq (h : buf -> buf) b bs : (b < length bs)%nat -> alter h b bs !!! b = h (bs !!! b).
Proof.
  intros H. destruct (lookup_lt_is_Some_2 bs b H) as [x Hx].
  rewrite !list_lookup_total_alt, list_lookup_alter_eq, Hx. done.
Qed.
Lemma total_alter_ne (h : buf -> buf) a b bs : a <> b -> alter h b bs !!! a = bs !!! a.
Proof. intros H. by rewrite !list_lookup_total_alt, list_lookup_alter_ne. Qed.

Lemma next_set_next_eq b v bs : (b < length bs)%nat -> next_of (set_next b v bs) b = v.
Proof. intros H. unfold next_of, set_next. by rewrite total_alter_eq. Qed.
Lemma next_set_next_ne a b v bs : a <> b -> next_of (set_next b v bs) a = next_of bs a.
Proof. intros H. unfold next_of, set_next. by rewrite total_alter_ne. Qed.
Lemma prev_set_prev_eq b v bs : (b < length bs)%nat -> prev_of (set_prev b v bs) b = v.
Proof. intros H. unfold prev_of, set_prev. by rewrite total_alter_eq. Qed.
Lemma prev_set_prev_ne a b v bs : a <> b -> prev_of (set_prev b v bs) a = prev_of bs a.
Proof. intros H. unfold prev_of, set_prev. by rewrite total_alter_ne. Qed.

Lemma alter_keeps {T} (g : buf -> T) h a b bs :
  (forall x, g (h x) = g x) -> g (alter h b bs !!! a) = g (bs !!! a).
Proof.
  intros H. destruct (decide (a = b)) as [->|]; [|by rewrite total_alter_ne].
  destruct (decide (b < length bs)%nat); [by rewrite total_alter_eq|].
  rewrite !list_lookup_total_alt, list_lookup_alter_eq. by rewrite (lookup_ge_None_2 bs b) by lia.
Qed.
Lemma prev_set_next a b v bs : prev_of (set_next b v bs) a = prev_of bs a.
Proof. unfold prev_of, set_next. by rewrite (alter_keeps b_prev). Qed.
Lemma next_set_prev a b v bs : next_of (set_prev b v bs) a = next_of bs a.
Proof. unfold next_of, set_prev. by rewrite (alter_keeps b_next). Qed.
End Links.

Create Rewrite HintDb links.
#[export] Hint Rewrite length_set_next length_set_prev prev_set_next next_set_prev : links.

#[local] Arguments set_next : simpl never.
#[local] Arguments set_prev : simpl never.
#[local] Arguments next_of : simpl never.
#[local] Arguments prev_of : simpl never.

(** ** Paths

    [seg bs a l c]: following the links from [a] one meets [l] and then [c], and the other way
    round. *)

Fixpoint seg (bs : list buf) (a : nat) (l : list nat) (c : nat) : Prop :=
  match l with
  | [] => next_of bs a = c /\ prev_of bs c = a
  | b :: l' => next_of bs a = b /\ prev_of bs b = a /\ seg bs b l' c
  end.

Section Seg.
Implicit Types (bs : list buf) (a b c : nat) (l : list nat).

Lemma seg_app bs a l1 b l2 c : seg bs a (l1 ++ b :: l2) c <-> seg bs a l1 b /\ seg bs b l2 c.
Proof. revert a. induction l1 as [|x l1 IH]; intros a; cbn; [|rewrite IH]; tauto. Qed.

(** Assignments to a [next] outside [a :: l] and to a [prev] outside [l ++ [c]]. *)
Lemma seg_set_next bs a l c b v : b ∉ a :: l -> seg bs a l c -> seg (set_next b v bs) a l c.
Proof.
  revert a. induction l as [|x l IH]; intros a Hb; cbn; autorewrite with links;
    rewrite next_set_next_ne by set_solver; [done|].
  intros (? & ? & ?). split; [done|]. split; [done|]. apply IH; [set_solver|done].
Qed.
Lemma seg_set_prev bs a l c b v : b ∉ l ++ [c] -> seg bs a l c -> seg (set_prev b v bs) a l c.
Proof.
  revert a. induction l as [|x l IH]; intros a Hb; cbn; autorewrite with links;
    rewrite prev_set_prev_ne by set_solver; [done|].
  intros (? & ? & ?). split; [done|]. split; [done|]. apply IH; [set_solver|done].
Qed.

(** The first and the last link of a path. *)
Lemma seg_next bs a l c : seg bs a l c -> next_of bs a = default c (head l).
Proof. destruct l; cbn [seg]; [by intros [-> _]|by intros (-> & _)]. Qed.
Lemma seg_prev bs a l c : seg bs a l c -> prev_of bs c = default a (last l).
Proof.
  revert a. induction l as [|x l IH]; intros a; cbn [seg]; [by intros [_ ->]|]. intros (_ & _ & H).
  rewrite (IH x H). destruct l as [|y l]; [done|]. rewrite (last_cons_cons x).
  destruct (last (y :: l)) eqn:E; [done|]. by apply last_None in E.
Qed.
End Seg.

(** The circular list through the head, with the buffers in [order]. *)
Definition lru (bs : list buf) (order : list nat) : Prop :=
  seg bs NBUF order NBUF /\ NoDup order /\ Forall (fun b => (b < NBUF)%nat) order /\ length bs = S NBUF.

Section Lru.
Implicit Types (bs : list buf) (b : nat) (order : list nat).

(** Changing the first node of a path: its [next] and the [prev] of what follows. *)
Lemma seg_retarget bs a a' l c :
  (a' < length bs)%nat -> (default c (head l) < length bs)%nat -> a' ∉ l -> NoDup (l ++ [c]) ->
  seg bs a l c -> seg (set_next a' (default c (head l)) (set_prev (default c (head l)) a' bs)) a' l c.
Proof.
  intros Ha Hc Hni Hnd. destruct l as [|b l]; cbn.
  - intros _. autorewrite with links. split; [apply next_set_next_eq; by autorewrite with links|].
    by apply prev_set_prev_eq.
  - cbn in Hnd. apply NoDup_cons in Hnd as [Hb Hnd]. intros (_ & _ & Hs). autorewrite with links.
    split; [apply next_set_next_eq; by autorewrite with links|].
    split; [by apply prev_set_prev_eq|]. apply seg_set_next; [set_solver|]. by apply seg_set_prev.
Qed.

Lemma link_front_lru b bs order :
  lru bs order -> (b < NBUF)%nat -> b ∉ order -> lru (link_front b bs) (b :: order).
Proof.
  intros (Hs & Hnd & Hlt & Hlen) Hb Hni. set (q := next_of bs NBUF).
  assert (q = default NBUF (head order)) as Hq by by apply (seg_next _ _ _ _ Hs).
  assert (q <> b /\ (q < S NBUF)%nat) as [Hqb Hqlt].
  { rewrite Hq. destruct order as [|x order]; cbn; [lia|]. inversion Hlt; subst. split; [set_solver|lia]. }
  assert ((b ∉ order ++ [NBUF]) /\ (NBUF ∉ order) /\ NoDup (order ++ [NBUF])) as (Hb1 & HN & Hnd1).
  { assert (NBUF ∉ order) by (intros HN; rewrite Forall_forall in Hlt; specialize (Hlt _ HN); lia).
    split; [apply not_elem_of_app; split; [done|apply not_elem_of_cons; set_solver by lia]|].
    split; [done|]. apply NoDup_app. split; [done|]. split; [set_solver|].
    apply NoDup_singleton. }
  split; [|split; [by constructor|split; [by constructor|]]].
  2: { unfold link_front. by autorewrite with links. }
  unfold link_front. autorewrite with links. rewrite next_set_next_ne by lia. fold q.
  cbn [seg]. autorewrite with links. rewrite next_set_next_eq by (autorewrite with links; lia).
  rewrite prev_set_prev_ne, prev_set_prev_eq by (autorewrite with links; lia).
  split; [done|]. split; [done|]. apply seg_set_next; [set_solver by lia|].
  destruct order as [|x order]; cbn [seg head default] in *; subst q; autorewrite with links.
  - rewrite next_set_next_eq, Hq, prev_set_prev_eq by (autorewrite with links; cbn; lia). done.
  - rewrite next_set_next_eq, Hq, prev_set_prev_eq by (autorewrite with links; cbn; lia). cbn.
    split; [done|]. split; [done|]. cbn in Hnd1, Hb1. apply NoDup_cons in Hnd1 as [Hx _].
    apply not_elem_of_cons in Hb1 as [_ Hb1].
    apply seg_set_prev; [done|]. apply seg_set_prev; [done|]. apply seg_set_next; [done|apply Hs].
Qed.

Lemma unlink_seg b bs l1 l2 :
  seg bs NBUF l1 b -> seg bs b l2 NBUF -> NoDup (l1 ++ b :: l2) -> NBUF ∉ l1 ++ b :: l2 ->
  (forall c, c ∈ l1 ++ b :: l2 -> (c < length bs)%nat) -> (NBUF < length bs)%nat ->
  seg (unlink b bs) NBUF (l1 ++ l2) NBUF.
Proof.
  intros Hs1 Hs2 Hnd HN Hlt Hlen. apply NoDup_app in Hnd as (Hnd1 & Hd & Hnd2).
  apply NoDup_cons in Hnd2 as [Hb2 Hnd2]. set (q := default NBUF (head l2)). set (p := default NBUF (last l1)).
  assert (q = NBUF \/ q ∈ l2) as Hq by (destruct l2; set_solver).
  assert (p = NBUF \/ p ∈ l1) as Hp.
  { unfold p. destruct (last l1) eqn:E; [|by left]. right. by apply last_Some_elem_of in E. }
  assert (unlink b bs = set_next p q (set_prev q p bs)) as ->.
  { unfold unlink. rewrite (seg_next _ _ _ _ Hs2), (seg_prev _ _ _ _ Hs1). fold p q.
    autorewrite with links. rewrite (seg_next _ _ _ _ Hs2), prev_set_prev_ne, (seg_prev _ _ _ _ Hs1); [done|].
    intros ->. set_solver. }
  assert (seg (set_next p q (set_prev q p bs)) p l2 NBUF) as Htail.
  { apply (seg_retarget bs b p l2 NBUF); [..|done]; fold q; clearbody p q.
    - destruct Hp as [->|]; [done|]. apply Hlt. set_solver.
    - destruct Hq as [->|]; [done|]. apply Hlt. set_solver.
    - destruct Hp as [->|]; set_solver.
    - apply NoDup_app. split; [done|]. split; [set_solver|apply NoDup_singleton]. }
  destruct l1 as [|c l1 _] using rev_ind; [exact Htail|].
  unfold p in *. rewrite last_snoc in *. cbn [default] in *. rewrite <- app_assoc. cbn [app].
  apply seg_app in Hs1 as [Hs1 _]. apply seg_app. split; [|done]. clearbody q.
  apply NoDup_app in Hnd1 as (_ & Hc & _).
  apply seg_set_next; [set_solver|]. apply seg_set_prev; [|done]. destruct Hq as [->|]; set_solver.
Qed.

Lemma unlink_lru b bs l1 l2 : lru bs (l1 ++ b :: l2) -> lru (unlink b bs) (l1 ++ l2).
Proof.
  intros (Hs & Hnd & Hlt & Hlen). apply seg_app in Hs as [Hs1 Hs2].
  assert (NBUF ∉ l1 ++ b :: l2) as HN.
  { intros HN. rewrite Forall_forall in Hlt. specialize (Hlt _ HN). lia. }
  split; [|split; [|split]].
  - apply unlink_seg; [done..| |lia]. intros c Hc. rewrite Forall_forall in Hlt. specialize (Hlt _ Hc). lia.
  - apply NoDup_app in Hnd as (? & ? & Hnd). apply NoDup_cons in Hnd as [? ?]. apply NoDup_app. set_solver.
  - apply Forall_app in Hlt as [? Hlt]. inversion Hlt; subst. by apply Forall_app.
  - unfold unlink. by autorewrite with links.
Qed.
End Lru.

(** ** Sleep locks without contention *)

(** Code of the process with pid [pid] runs, and holds no spinlock but perhaps the log's. *)
Record caller (pid : Z) (s : kstate) : Prop := {
  caller_proc : exists p x, c_proc s = Some p /\ procs s !! p = Some x /\ p_pid x = pid;
  caller_table : table_ok s;
  caller_held : forall l, l ∈ held s -> l = L_log }.

(** What [caller] does not depend on. *)
Lemma caller_ext pid s s' :
  c_proc s' = c_proc s -> procs s' = procs s -> held s' = held s -> caller pid s -> caller pid s'.
Proof.
  intros Hc Hp Hh [H1 H2 H3]. split; [by rewrite Hc, Hp|by eapply table_ok_procs|by rewrite Hh].
Qed.

Lemma caller_bcache pid s h : caller pid s -> caller pid (s <| bcache ::= h |>).
Proof. by apply caller_ext. Qed.

Lemma caller_wakeup pid s chan :
  caller pid s -> caller pid (s <| procs ::= fmap (map_threads (wake_thread chan)) |>).
Proof.
  intros [(p & x & Hc & Hp & Hx) [Ht1 Ht2] Hh]. split; [|split|done].
  - exists p, (map_threads (wake_thread chan) x). split; [done|]. split; [|done].
    cbn. by rewrite list_lookup_fmap, Hp.
  - cbn. by rewrite length_fmap.
  - cbn. apply Forall_fmap. eapply Forall_impl; [exact Ht2|]. intros y Hy. cbn. by rewrite length_fmap.
Qed.

(** Reading the lock of buffer [b] with its spinlock held. *)
Definition bh (l : lock) (s : kstate) : kstate := s <| held ::= cons l |>.

Lemma pid_run pid l e s :
  caller pid s ->
  exists p x, curproc e (bh l s) = Ok p e (bh l s) /\ get_proc p e (bh l s) = Ok x e (bh l s) /\ p_pid x = pid.
Proof.
  intros [(p & x & Hc & Hp & Hx) _ _]. exists p, x. split; [by apply curproc_run|].
  split; [|done]. unfold get_proc. cbn. by rewrite Hp.
Qed.

Lemma acquire_bh pid l e s : caller pid s -> l <> L_log -> acquire l e s = Ok tt e (bh l s).
Proof. intros H Hl. rewrite acquire_free; [done|]. intros Hin. by apply (caller_held _ _ H) in Hin. Qed.

Lemma release_bh pid l h e s : caller pid s -> release l e (bh l s <| bcache ::= h |>) = Ok tt e (s <| bcache ::= h |>).
Proof.
  intros H. rewrite (release_top _ _ _ (held s)); [|done]. f_equal.
Qed.

Lemma acquiresleep_buf pid b x e s :
  caller pid s -> bcache s !! b = Some x -> sl_locked (b_lock x) = false ->
  acquiresleep (SL_buf b) e s =
  Ok tt e (s <| bcache ::= alter (fun y => y <| b_lock := Sleeplock true pid |>) b |>).
Proof.
  intros Hc Hb Hl. unfold acquiresleep. kstep (acquire_bh pid (L_sleep (SL_buf b)) e s Hc ltac:(done)).
  destruct (pid_run pid (L_sleep (SL_buf b)) e s Hc) as (p & y & Hcur & Hget & Hpid).
  set (s1 := bh _ s) in *.
  assert (blockK (fun _ : unit => l <- get_sleeplock (SL_buf b) ;;
    if sl_locked l then sleep (CH_sleeplock (SL_buf b)) (L_sleep (SL_buf b)) ;;; retK (inl tt)
    else retK (inr tt)) tt e s1 = Ok tt e s1) as Hblock.
  { unfold blockK. cbn [whileK]. unfold bindK, get_sleeplock. change (bcache s1) with (bcache s).
    by rewrite Hb, Hl. }
  kstep Hblock. kstep Hcur. kstep Hget. rewrite Hpid. unfold set_sleeplock. kstep (modifyK_run (put_sleeplock (SL_buf b) (Sleeplock true pid)) e s1).
  by apply (release_bh pid).
Qed.

Lemma holdingsleep_buf pid b x e s :
  caller pid s -> bcache s !! b = Some x -> b_lock x = Sleeplock true pid ->
  holdingsleep (SL_buf b) e s = Ok true e s.
Proof.
  intros Hc Hb Hl. unfold holdingsleep. kstep (acquire_bh pid (L_sleep (SL_buf b)) e s Hc ltac:(done)).
  destruct (pid_run pid (L_sleep (SL_buf b)) e s Hc) as (p & y & Hcur & Hget & Hpid).
  set (s1 := bh _ s) in *.
  assert (get_sleeplock (SL_buf b) e s1 = Ok (Sleeplock true pid) e s1) as Hg.
  { unfold get_sleeplock. change (bcache s1) with (bcache s). by rewrite Hb, Hl. }
  kstep Hg. kstep Hcur. kstep Hget. rewrite Hpid. cbn [sl_locked sl_pid]. rewrite Z.eqb_refl.
  assert (release (L_sleep (SL_buf b)) e s1 = Ok tt e s) as Hr.
  { rewrite (release_top _ _ _ (held s)); [|done]. f_equal. }
  by kstep Hr.
Qed.

Lemma releasesleep_buf pid b e s :
  caller pid s ->
  releasesleep (SL_buf b) e s =
  Ok tt e (s <| bcache ::= alter (fun y => y <| b_lock := Sleeplock false 0 |>) b |>
             <| procs ::= fmap (map_threads (wake_thread (CH_sleeplock (SL_buf b)))) |>).
Proof.
  intros Hc. unfold releasesleep. kstep (acquire_bh pid (L_sleep (SL_buf b)) e s Hc ltac:(done)).
  set (s1 := bh _ s). unfold set_sleeplock. kstep (modifyK_run (put_sleeplock (SL_buf b) (Sleeplock false 0)) e s1).
  set (s2 := put_sleeplock _ _ s1).
  assert (wakeup (CH_sleeplock (SL_buf b)) e s2 =
    Ok tt e (s2 <| procs ::= fmap (map_threads (wake_thread (CH_sleeplock (SL_buf b)))) |>)) as Hw.
  { apply wakeup_run; [apply (table_ok_procs s); [done|apply Hc]|].
    intros q. change (held s2) with (L_sleep (SL_buf b) :: held s). intros [Hq|Hq]%elem_of_cons; [done|].
    by apply (caller_held _ _ Hc) in Hq. }
  kstep Hw. rewrite (release_top _ _ _ (held s)); [|done]. f_equal.
Qed.

(** ** The cache as a map of the blocks in use *)

(** A buffer in use: which one, its references, the pid that has it locked, its contents. *)
Record bent := Ent { en_at : nat; en_refs : Z; en_owner : option Z; en_data : list Z }.

Definition owner_of (l : sleeplock) : option Z := if sl_locked l then Some (sl_pid l) else None.
Definition ent_of (b : nat) (x : buf) : bent := Ent b (b_refcnt x) (owner_of (b_lock x)) (b_data x).
Definition dblock (d : diskstate) (n : Z) : list Z := default zero_block (dk_blocks d !! n).

(** The buffers of [bs] cache the blocks [live] of device [dev], and blocks that nobody uses: of
    these, what the disk has. *)
Record cache_ok (dev : Z) (live : gmap Z bent) (d : diskstate) (bs : list buf) : Prop := {
  co_idle : forall b x, (b < NBUF)%nat -> bs !! b = Some x -> b_refcnt x = 0 ->
    sl_locked (b_lock x) = false /\
    (b_dev x = dev -> b_valid x = true -> b_data x = dblock d (b_blockno x));
  co_live : forall b x, (b < NBUF)%nat -> bs !! b = Some x -> b_refcnt x <> 0 ->
    b_dev x = dev /\ b_valid x = true /\ 0 < b_refcnt x < 2 ^ 32 /\
    live !! b_blockno x = Some (ent_of b x);
  co_ent : forall n en, live !! n = Some en -> exists x, (en_at en < NBUF)%nat /\
    bs !! en_at en = Some x /\ b_dev x = dev /\ b_blockno x = n /\ b_refcnt x <> 0;
  co_uniq : forall b c x y, (b < NBUF)%nat -> (c < NBUF)%nat -> bs !! b = Some x -> bs !! c = Some y ->
    b_dev x = dev -> b_dev y = dev -> b_blockno x = b_blockno y -> b = c }.

Record brep (dev : Z) (live : gmap Z bent) (s : kstate) : Prop := {
  br_cache : cache_ok dev live (disk s) (bcache s);
  br_lru : exists order, lru (bcache s) order /\ order ≡ₚ seq 0 NBUF }.

Section Cache.
Context (dev : Z) (live : gmap Z bent) (d : diskstate) (bs : list buf).
Hypothesis Hok : cache_ok dev live d bs.

Lemma co_ent_full n en : live !! n = Some en -> exists x, (en_at en < NBUF)%nat /\
  bs !! en_at en = Some x /\ b_dev x = dev /\ b_blockno x = n /\ b_valid x = true /\ 0 < b_refcnt x < 2 ^ 32 /\
  en = ent_of (en_at en) x.
Proof.
  intros H. destruct (co_ent _ _ _ _ Hok n en H) as (x & Hlt & Hx & Hd & Hn & Hr). exists x.
  destruct (co_live _ _ _ _ Hok _ _ Hlt Hx Hr) as (_ & Hv & Hrr & Hl). rewrite Hn, H in Hl.
  by injection Hl as Hl.
Qed.

(** Buffer [b] is put to use, or stays in use, with the contents [y]. *)
Lemma cache_set_live b x y :
  (b < NBUF)%nat -> bs !! b = Some x -> b_dev y = dev -> b_valid y = true -> 0 < b_refcnt y < 2 ^ 32 ->
  (forall c z, (c < NBUF)%nat -> bs !! c = Some z -> b_dev z = dev -> b_blockno z = b_blockno y -> c = b) ->
  (b_refcnt x <> 0 -> b_blockno x = b_blockno y) ->
  cache_ok dev (<[b_blockno y := ent_of b y]> live) d (<[b := y]> bs).
Proof.
  intros Hb Hx Hdev Hv Hr Huniq Hsame.
  assert (forall c z, (<[b := y]> bs) !! c = Some z -> c <> b -> bs !! c = Some z) as Hne.
  { intros c z Hz Hc. by rewrite list_lookup_insert_ne in Hz. }
  assert ((<[b := y]> bs) !! b = Some y) as Hyb by (apply list_lookup_insert_eq; by eapply lookup_lt_Some).
  split.
  - intros c z Hc Hz Hz0. destruct (decide (c = b)) as [->|Hcb]; [rewrite Hyb in Hz; injection Hz as <-; lia|].
    eapply (co_idle _ _ _ _ Hok); eauto.
  - intros c z Hc Hz Hz0. destruct (decide (c = b)) as [->|Hcb].
    + rewrite Hyb in Hz. injection Hz as <-. by rewrite lookup_insert_eq.
    + destruct (co_live _ _ _ _ Hok c z Hc (Hne _ _ Hz Hcb) Hz0) as (? & ? & ? & ?).
      rewrite lookup_insert_ne; [done|]. intros Heq. apply Hcb. eapply Huniq; eauto.
  - intros n en Hn. destruct (decide (n = b_blockno y)) as [->|Hny].
    + rewrite lookup_insert_eq in Hn. injection Hn as <-. exists y. cbn. repeat split; [done..|lia].
    + rewrite lookup_insert_ne in Hn by done. destruct (co_ent _ _ _ _ Hok n en Hn) as (z & Hlt & Hz & Hd' & Hn' & Hr').
      exists z. destruct (decide (en_at en = b)) as [Heq|]; [|by rewrite list_lookup_insert_ne].
      exfalso. rewrite Heq, Hx in Hz. injection Hz as <-. apply Hny. rewrite <- Hn'. by apply Hsame.
  - intros c1 c2 z1 z2 H1 H2 Hz1 Hz2 Hd1 Hd2 Hbn.
    destruct (decide (c1 = b)) as [->|Hc1], (decide (c2 = b)) as [->|Hc2]; [done|..].
    + rewrite Hyb in Hz1. injection Hz1 as <-. symmetry. eapply Huniq; eauto.
    + rewrite Hyb in Hz2. injection Hz2 as <-. eapply Huniq; eauto.
    + eapply (co_uniq _ _ _ _ Hok); eauto.
Qed.

(** A buffer in use is given up; its contents are on the disk. *)
Lemma cache_set_idle b x y :
  (b < NBUF)%nat -> bs !! b = Some x -> b_refcnt x <> 0 -> b_refcnt y = 0 ->
  b_dev y = b_dev x -> b_blockno y = b_blockno x -> sl_locked (b_lock y) = false ->
  b_data y = dblock d (b_blockno x) ->
  cache_ok dev (delete (b_blockno x) live) d (<[b := y]> bs).
Proof.
  intros Hb Hx Hxr Hyr Hdev Hbn Hlk Hclean. destruct (co_live _ _ _ _ Hok b x Hb Hx Hxr) as (Hxd & _ & _ & Hxl).
  assert ((<[b := y]> bs) !! b = Some y) as Hyb by (apply list_lookup_insert_eq; by eapply lookup_lt_Some).
  assert (forall c z, (<[b := y]> bs) !! c = Some z -> c <> b -> bs !! c = Some z) as Hne.
  { intros c z Hz Hc. by rewrite list_lookup_insert_ne in Hz. }
  assert (forall c z, (c < NBUF)%nat -> bs !! c = Some z -> b_dev z = dev -> b_blockno z = b_blockno x -> c = b) as Huniq.
  { intros c z Hc Hz Hzd Hzn. eapply (co_uniq _ _ _ _ Hok); eauto. }
  split.
  - intros c z Hc Hz Hz0. destruct (decide (c = b)) as [->|Hcb]; [|eapply (co_idle _ _ _ _ Hok); eauto].
    rewrite Hyb in Hz. injection Hz as <-. rewrite Hbn. done.
  - intros c z Hc Hz Hz0. destruct (decide (c = b)) as [->|Hcb]; [rewrite Hyb in Hz; injection Hz as <-; done|].
    destruct (co_live _ _ _ _ Hok c z Hc (Hne _ _ Hz Hcb) Hz0) as (? & ? & ? & ?).
    rewrite lookup_delete_ne; [done|]. intros Heq. apply Hcb. eapply Huniq; eauto.
  - intros n en Hn. apply lookup_delete_Some in Hn as [Hnn Hn].
    destruct (co_ent _ _ _ _ Hok n en Hn) as (z & Hlt & Hz & Hd' & Hn' & Hr').
    exists z. rewrite list_lookup_insert_ne; [done|]. intros ->. rewrite Hx in Hz. by injection Hz as <-.
  - intros c1 c2 z1 z2 H1 H2 Hz1 Hz2 Hd1 Hd2 Hn12.
    destruct (decide (c1 = b)) as [->|Hc1], (decide (c2 = b)) as [->|Hc2]; [done|..].
    + rewrite Hyb in Hz1. injection Hz1 as <-. symmetry. eapply Huniq; eauto. congruence.
    + rewrite Hyb in Hz2. injection Hz2 as <-. eapply Huniq; eauto. congruence.
    + eapply (co_uniq _ _ _ _ Hok); eauto.
Qed.
End Cache.

(** What a buffer is, apart from its place in the list. *)
Definition payload (x : buf) : bool * Z * Z * sleeplock * Z * list Z :=
  (b_valid x, b_dev x, b_blockno x, b_lock x, b_refcnt x, b_data x).

Lemma payload_alter h b (bs : list buf) :
  (forall x, payload (h x) = payload x) -> payload <$> alter h b bs = payload <$> bs.
Proof.
  intros H. apply list_eq. intros i. rewrite !list_lookup_fmap. destruct (decide (i = b)) as [->|].
  - rewrite list_lookup_alter_eq. destruct (bs !! b); [|done]. cbn. by rewrite H.
  - by rewrite list_lookup_alter_ne.
Qed.
Lemma payload_relink b (bs : list buf) : payload <$> link_front b (unlink b bs) = payload <$> bs.
Proof. unfold link_front, unlink, set_next, set_prev. by rewrite !payload_alter. Qed.
Lemma payload_link_front b (bs : list buf) : payload <$> link_front b bs = payload <$> bs.
Proof. unfold link_front, set_next, set_prev. by rewrite !payload_alter. Qed.

Lemma cache_ok_payload dev live d bs bs' :
  payload <$> bs' = payload <$> bs -> cache_ok dev live d bs -> cache_ok dev live d bs'.
Proof.
  intros Hp Hok.
  assert (forall i y, bs' !! i = Some y -> exists x, bs !! i = Some x /\ payload y = payload x) as Hback.
  { intros i y Hy. assert ((payload <$> bs) !! i = Some (payload y)) as H.
    { rewrite <- Hp, list_lookup_fmap, Hy. done. }
    rewrite list_lookup_fmap in H. destruct (bs !! i) as [x|]; [|done].
    change (Some (payload x) = Some (payload y)) in H. exists x. split; [done|congruence]. }
  assert (forall i x, bs !! i = Some x -> exists y, bs' !! i = Some y /\ payload y = payload x) as Hfwd.
  { intros i x Hx. assert ((payload <$> bs') !! i = Some (payload x)) as H.
    { rewrite Hp, list_lookup_fmap, Hx. done. }
    rewrite list_lookup_fmap in H. destruct (bs' !! i) as [y|]; [|done].
    change (Some (payload y) = Some (payload x)) in H. exists y. split; [done|congruence]. }
  split.
  - intros b y Hb Hy Hr. destruct (Hback _ _ Hy) as (x & Hx & [= Hv Hd Hn Hl Hc Hdt]).
    rewrite Hv, Hd, Hn, Hl, Hdt. eapply (co_idle _ _ _ _ Hok); eauto. congruence.
  - intros b y Hb Hy Hr. destruct (Hback _ _ Hy) as (x & Hx & [= Hv Hd Hn Hl Hc Hdt]).
    unfold ent_of. rewrite Hv, Hd, Hn, Hl, Hc, Hdt. eapply (co_live _ _ _ _ Hok); eauto. congruence.
  - intros n en Hn. destruct (co_ent _ _ _ _ Hok n en Hn) as (x & Hlt & Hx & Hd' & Hn' & Hr').
    destruct (Hfwd _ _ Hx) as (y & Hy & [= Hv Hd Hbn Hl Hc Hdt]). exists y. rewrite Hd, Hbn, Hc. done.
  - intros b c y z Hb Hc Hy Hz. destruct (Hback _ _ Hy) as (x & Hx & [= _ -> -> _ _ _]).
    destruct (Hback _ _ Hz) as (w & Hw & [= _ -> -> _ _ _]). by apply (co_uniq _ _ _ _ Hok b c x w).
Qed.

(** What the list does not depend on: anything but the links. *)
Lemma seg_ext bs bs' a l c :
  (forall i, next_of bs' i = next_of bs i) -> (forall i, prev_of bs' i = prev_of bs i) ->
  seg bs a l c -> seg bs' a l c.
Proof. intros Hn Hp. revert a. induction l as [|b l IH]; intros a; cbn; rewrite Hn, Hp; naive_solver. Qed.

Lemma lru_insert bs order b x y :
  lru bs order -> bs !! b = Some x -> b_next y = b_next x -> b_prev y = b_prev x -> lru (<[b := y]> bs) order.
Proof.
  intros (Hs & Hnd & Hlt & Hlen) Hx Hn Hp. split; [|split; [done|split; [done|by rewrite length_insert]]].
  assert (forall i, (<[b := y]> bs) !!! i = if decide (i = b) then y else bs !!! i) as Hl.
  { intros i. case_decide as Hi; subst; rewrite ?list_lookup_total_insert_eq, ?list_lookup_total_insert_ne; try done.
    by eapply lookup_lt_Some. }
  apply (seg_ext bs); [..|done]; intros i; unfold next_of, prev_of; rewrite Hl; case_decide; subst; try done;
    rewrite list_lookup_total_alt, Hx; done.
Qed.

(** ** The scans of [bget] *)

Definition caches (dev n : Z) (x : buf) : bool := (b_dev x =? dev) && (b_blockno x =? n).

Lemma find_cached_spec dev n bs a l fuel :
  seg bs a l NBUF -> NBUF ∉ l -> (length l < fuel)%nat ->
  exists r, find_cached fuel dev n bs (next_of bs a) = Some r /\
    match r with
    | Some b => b ∈ l /\ caches dev n (bs !!! b) = true
    | None => forall b, b ∈ l -> caches dev n (bs !!! b) = false
    end.
Proof.
  revert a fuel. induction l as [|b l IH]; intros a [|fuel] Hs HN Hf; try (cbn in Hf; lia); cbn [seg] in Hs.
  - destruct Hs as [-> _]. exists None. cbn [find_cached]. rewrite Nat.eqb_refl. split; [done|]. set_solver.
  - destruct Hs as (-> & _ & Hs). cbn [find_cached]. destruct (Nat.eqb_spec b NBUF) as [->|]; [set_solver|].
    fold (caches dev n (bs !!! b)). destruct (caches dev n (bs !!! b)) eqn:Hc.
    + exists (Some b). split; [done|]. set_solver.
    + destruct (IH b fuel Hs) as (r & Hr & Hspec); [set_solver|cbn in Hf; lia|].
      exists r. split; [done|]. destruct r as [c|]; [set_solver|].
      intros c [->|Hc']%elem_of_cons; [done|by apply Hspec].
Qed.

Lemma find_unused_spec bs l c fuel :
  seg bs NBUF l c -> NBUF ∉ l -> (length l < fuel)%nat ->
  exists r, find_unused fuel bs (prev_of bs c) = Some r /\
    match r with
    | Some b => b ∈ l /\ b_refcnt (bs !!! b) = 0
    | None => forall b, b ∈ l -> b_refcnt (bs !!! b) <> 0
    end.
Proof.
  revert c fuel. induction l as [|b l IH] using rev_ind; intros c [|fuel] Hs HN Hf;
    rewrite ?length_app in Hf; try (cbn in Hf; lia).
  - destruct Hs as [_ ->]. exists None. cbn [find_unused]. rewrite Nat.eqb_refl. split; [done|]. set_solver.
  - apply seg_app in Hs as [Hs [_ ->]]. cbn [find_unused]. destruct (Nat.eqb_spec b NBUF) as [->|]; [set_solver|].
    destruct (Z.eqb_spec (b_refcnt (bs !!! b)) 0) as [Hc|Hc].
    + exists (Some b). split; [done|]. set_solver.
    + destruct (IH b fuel Hs) as (r & Hr & Hspec); [set_solver|cbn in Hf; lia|].
      exists r. split; [done|]. destruct r as [c'|]; [set_solver|].
      intros c' [Hc'| ->%list_elem_of_singleton]%elem_of_app; [by apply Hspec|done].
Qed.

(** ** [bget] and [bread] *)

Lemma alter_insert {X} (h : X -> X) i x (l : list X) : l !! i = Some x -> alter h i l = <[i := h x]> l.
Proof.
  intros H. apply list_eq. intros j. destruct (decide (j = i)) as [->|].
  - rewrite list_lookup_alter_eq, H, list_lookup_insert_eq; [done|by eapply lookup_lt_Some].
  - by rewrite list_lookup_alter_ne, list_lookup_insert_ne.
Qed.

(** Two assignments to the same buffer. *)
Lemma bcache_alter2 h g b x s :
  bcache s !! b = Some x ->
  s <| bcache ::= alter h b |> <| bcache ::= alter g b |> = s <| bcache ::= <[b := g (h x)]> |>.
Proof.
  intros H. cbv [upd]. cbn. f_equal.
  rewrite (alter_insert h _ _ _ H), (alter_insert g _ (h x)), list_insert_insert_eq; [done|].
  apply list_lookup_insert_eq. by eapply lookup_lt_Some.
Qed.

Lemma bcache_set h b x s : bcache s !! b = Some x -> s <| bcache ::= alter h b |> = s <| bcache ::= <[b := h x]> |>.
Proof. intros H. cbv [upd]. cbn. f_equal. by apply alter_insert. Qed.

(** The end of [bget]: the references of buffer [b] are set, and its sleep lock taken. *)
Lemma bget_take pid h b x e s :
  caller pid s -> bcache s !! b = Some x -> sl_locked (b_lock x) = false ->
  (forall z, b_lock (h z) = b_lock z) ->
  (set_buf b h ;;; release L_bcache ;;; acquiresleep (SL_buf b) ;;; retK b) e (bh L_bcache s) =
  Ok b e (s <| bcache ::= <[b := h x <| b_lock := Sleeplock true pid |>]> |>).
Proof.
  intros Hc Hb Hl Hh. unfold set_buf.
  kstep (modifyK_run (fun s => s <| bcache ::= alter h b |>) e (bh L_bcache s)).
  kstep (release_bh pid L_bcache (alter h b) e s Hc).
  assert (acquiresleep (SL_buf b) e (s <| bcache ::= alter h b |>) =
    Ok tt e (s <| bcache ::= <[b := h x <| b_lock := Sleeplock true pid |>]> |>)) as Ha.
  { rewrite (acquiresleep_buf pid b (h x)); [|by apply caller_bcache| |by rewrite Hh].
    - f_equal. by apply (bcache_alter2 h (fun y => y <| b_lock := Sleeplock true pid |>)).
    - cbn. by rewrite list_lookup_alter_eq, Hb. }
  by kstep Ha.
Qed.

Lemma elem_of_order order b : order ≡ₚ seq 0 NBUF -> b ∈ order <-> (b < NBUF)%nat.
Proof. intros ->. rewrite elem_of_seq. lia. Qed.

Lemma lru_lookup bs order b : lru bs order -> (b < NBUF)%nat -> bs !! b = Some (bs !!! b).
Proof.
  intros (_ & _ & _ & Hlen) Hb. destruct (lookup_lt_is_Some_2 bs b) as [x Hx]; [lia|].
  by rewrite list_lookup_total_alt, Hx.
Qed.

(** Some buffer is not in use when fewer blocks than buffers are. *)
Lemma cache_has_idle dev live d bs order :
  cache_ok dev live d bs -> lru bs order -> (size live < NBUF)%nat ->
  exists b, (b < NBUF)%nat /\ b_refcnt (bs !!! b) = 0.
Proof.
  intros Hok Hlru Hsz.
  destruct (decide (Exists (fun b => b_refcnt (bs !!! b) = 0) (seq 0 NBUF))) as [H|H].
  { apply Exists_exists in H as (b & Hb & Hr). apply elem_of_seq in Hb. exists b. split; [lia|done]. }
  exfalso. rewrite <- Forall_Exists_neg in H. rewrite Forall_forall in H.
  assert (forall b, b ∈ seq 0 NBUF -> live !! b_blockno (bs !!! b) = Some (ent_of b (bs !!! b))) as Hl.
  { intros b Hb. specialize (H b Hb). apply elem_of_seq in Hb.
    by apply (co_live _ _ _ _ Hok b (bs !!! b)); [lia|apply (lru_lookup _ order); [done|lia]|]. }
  set (f := fun b => b_blockno (bs !!! b)).
  assert (NoDup (f <$> seq 0 NBUF)) as Hnd.
  { apply NoDup_fmap_2_strong; [|apply NoDup_seq]. intros b c Hb Hc Heq. unfold f in Heq.
    pose proof (Hl b Hb) as H1. pose proof (Hl c Hc) as H2. rewrite Heq, H2 in H1. by injection H1. }
  assert (list_to_set (f <$> seq 0 NBUF) ⊆ dom live) as Hsub.
  { intros n Hn. apply elem_of_list_to_set, list_elem_of_fmap in Hn as (b & -> & Hb).
    exact (elem_of_dom_2 _ _ _ (Hl b Hb)). }
  apply subseteq_size in Hsub. rewrite size_list_to_set, length_fmap, length_seq, size_dom in Hsub by done. lia.
Qed.

(** What [bget] does, for a block that nobody has locked. *)
Lemma bget_run pid dev n live e s :
  caller pid s -> brep dev live s ->
  match live !! n with Some en => en_owner en = None | None => (size live < NBUF)%nat end ->
  exists b x y, bget dev n e s = Ok b e (s <| bcache ::= <[b := y]> |>) /\
    (b < NBUF)%nat /\ bcache s !! b = Some x /\
    b_dev y = dev /\ b_blockno y = n /\ b_lock y = Sleeplock true pid /\ b_next y = b_next x /\ b_prev y = b_prev x /\
    ((caches dev n x = true /\ b_refcnt y = u32 (b_refcnt x + 1) /\ b_valid y = b_valid x /\ b_data y = b_data x) \/
     (b_refcnt x = 0 /\ b_refcnt y = 1 /\ b_valid y = false /\ live !! n = None /\
      forall c z, (c < NBUF)%nat -> bcache s !! c = Some z -> caches dev n z = false)).
Proof.
  intros Hc [Hok (order & Hlru & Hperm)] Hn. pose proof Hlru as (Hseg & Hnd & Hlt & Hlen).
  assert (NBUF ∉ order) as HN by (rewrite (elem_of_order order); [lia|done]).
  assert (length order < S NBUF)%nat as Hfuel by (rewrite Hperm, length_seq; lia).
  assert (forall b, b ∈ order -> (b < NBUF)%nat /\ bcache s !! b = Some (bcache s !!! b)) as Hin.
  { intros b Hb. apply (elem_of_order order) in Hb; [|done]. split; [done|by apply (lru_lookup _ order)]. }
  unfold bget. kstep (acquire_bh pid L_bcache e s Hc ltac:(done)).
  kstep (getsK_run (fun s => find_cached (S NBUF) dev n (bcache s) (next_of (bcache s) NBUF)) e (bh L_bcache s)).
  change (bcache (bh L_bcache s)) with (bcache s).
  destruct (find_cached_spec dev n (bcache s) NBUF order (S NBUF) Hseg HN Hfuel) as (r & -> & Hr).
  destruct r as [b|].
  - destruct Hr as [Hb Hcache]. destruct (Hin b Hb) as [Hblt Hbx]. set (x := bcache s !!! b) in *.
    exists b, x. eexists. split; [|split; [done|split; [done|]]].
    + apply (bget_take pid); [done|done| |done].
      apply andb_true_iff in Hcache as [Hd%Z.eqb_eq Hbn%Z.eqb_eq].
      destruct (decide (b_refcnt x = 0)) as [Hz|Hz]; [by apply (co_idle _ _ _ _ Hok b x)|].
      destruct (co_live _ _ _ _ Hok b x Hblt Hbx Hz) as (_ & _ & _ & Hl).
      rewrite Hbn in Hl. rewrite Hl in Hn. cbn in Hn. unfold owner_of in Hn. by destruct (sl_locked (b_lock x)).
    + pose proof Hcache as Hcc. apply andb_true_iff in Hcache as [Hd%Z.eqb_eq Hbn%Z.eqb_eq]. cbn.
      repeat (split; [done|]). left. done.
  - kstep (getsK_run (fun s => find_unused (S NBUF) (bcache s) (prev_of (bcache s) NBUF)) e (bh L_bcache s)).
    change (bcache (bh L_bcache s)) with (bcache s).
    assert (forall c z, (c < NBUF)%nat -> bcache s !! c = Some z -> caches dev n z = false) as Hnone.
    { intros c z Hlc Hz. assert (c ∈ order) as Hco by by apply elem_of_order.
      specialize (Hr c Hco). rewrite list_lookup_total_alt, Hz in Hr. done. }
    assert (live !! n = None) as Hnl.
    { destruct (live !! n) as [en|] eqn:E; [|done]. destruct (co_ent _ _ _ _ Hok n en E) as (z & Hz1 & Hz2 & Hz3 & Hz4 & _).
      specialize (Hnone _ _ Hz1 Hz2). unfold caches in Hnone. rewrite Hz3, Hz4, !Z.eqb_refl in Hnone. done. }
    rewrite Hnl in Hn. destruct (cache_has_idle _ _ _ _ order Hok Hlru Hn) as (c & Hclt & Hcr).
    destruct (find_unused_spec (bcache s) order NBUF (S NBUF) Hseg HN Hfuel) as (r & -> & Hu).
    destruct r as [b|]; [|exfalso; apply (Hu c); [by apply elem_of_order|done]].
    destruct Hu as [Hb Hz]. destruct (Hin b Hb) as [Hblt Hbx]. set (x := bcache s !!! b) in *.
    exists b, x. eexists. split; [|split; [done|split; [done|]]].
    + apply (bget_take pid); [done|done| |done]. by apply (co_idle _ _ _ _ Hok b x).
    + cbn. repeat (split; [done|]). right. done.
Qed.

(** The contents of block [n]: what its buffer holds while it is in use, what the disk has
    otherwise. *)
Definition bview (live : gmap Z bent) (d : diskstate) (n : Z) : list Z :=
  match live !! n with Some en => en_data en | None => dblock d n end.
Definition brefs (live : gmap Z bent) (n : Z) : Z :=
  match live !! n with Some en => en_refs en | None => 0 end.

(** [bread] can give the block to the caller. *)
Definition can_bread (live : gmap Z bent) (n : Z) : Prop :=
  match live !! n with
  | Some en => en_owner en = None /\ en_refs en < 2 ^ 32 - 1
  | None => (size live < NBUF)%nat
  end.

(** The buffer [b] that [bget] found for block [n], before ([x]) and after ([y]). *)
Lemma bget_facts dev n live d bs b x y :
  cache_ok dev live d bs -> can_bread live n -> (b < NBUF)%nat -> bs !! b = Some x ->
  ((caches dev n x = true /\ b_refcnt y = u32 (b_refcnt x + 1) /\ b_valid y = b_valid x /\ b_data y = b_data x) \/
   (b_refcnt x = 0 /\ b_refcnt y = 1 /\ b_valid y = false /\ live !! n = None /\
    forall c z, (c < NBUF)%nat -> bs !! c = Some z -> caches dev n z = false)) ->
  b_refcnt y = brefs live n + 1 /\ (b_refcnt x <> 0 -> b_blockno x = n) /\
  (forall c z, (c < NBUF)%nat -> bs !! c = Some z -> b_dev z = dev -> b_blockno z = n -> c = b) /\
  (forall en, live !! n = Some en -> en_at en = b) /\
  (if b_valid y then b_data y = bview live d n else live !! n = None).
Proof.
  intros Hok Hn Hb Hx [(Hc & Hr & Hv & Hd)|(Hr & Hry & Hv & Hl & Hnone)].
  - apply andb_true_iff in Hc as [Hxd%Z.eqb_eq Hxn%Z.eqb_eq].
    assert (forall c z, (c < NBUF)%nat -> bs !! c = Some z -> b_dev z = dev -> b_blockno z = n -> c = b) as Huniq.
    { intros c z Hc Hz Hzd Hzn. eapply (co_uniq _ _ _ _ Hok); eauto. congruence. }
    assert (forall en, live !! n = Some en -> en_at en = b) as Hat.
    { intros en Hen. destruct (co_ent _ _ _ _ Hok n en Hen) as (z & ? & ? & ? & ? & _). eauto. }
    rewrite Hr, Hv, Hd. unfold brefs, bview, can_bread in *. destruct (decide (b_refcnt x = 0)) as [Hz|Hz].
    + assert (live !! n = None) as Hl.
      { destruct (live !! n) as [en|] eqn:Hen; [|done]. destruct (co_ent _ _ _ _ Hok n en Hen) as (z & _ & Hzz & _ & _ & Hne).
        rewrite (Hat en) in Hzz by done. congruence. }
      rewrite Hl, Hz in *. repeat (split; [done|]). destruct (b_valid x) eqn:Hvx; [|done].
      rewrite <- Hxn. by apply (co_idle _ _ _ _ Hok b x).
    + destruct (co_live _ _ _ _ Hok b x Hb Hx Hz) as (_ & Hvx & Hrange & Hl). rewrite Hxn in Hl.
      rewrite Hl in *. cbn in Hn. rewrite Hvx. cbn [en_refs en_data ent_of]. rewrite u32_small by lia. done.
  - rewrite Hry, Hv. unfold brefs. rewrite Hl. split; [done|]. split; [done|].
    split; [|split; [done|done]]. intros c z Hc Hz Hzd Hzn. specialize (Hnone c z Hc Hz).
    unfold caches in Hnone. rewrite Hzd, Hzn, !Z.eqb_refl in Hnone. done.
Qed.

(** What [bread] does: the buffer is read from the disk when it is not valid. *)
Lemma bread_run pid dev n live e s :
  caller pid s -> brep dev live s -> can_bread live n ->
  exists b x y, bread dev n e s = Ok b e (s <| bcache ::= <[b := y]> |>) /\
    (b < NBUF)%nat /\ bcache s !! b = Some x /\
    b_dev y = dev /\ b_blockno y = n /\ b_lock y = Sleeplock true pid /\ b_next y = b_next x /\ b_prev y = b_prev x /\
    b_valid y = true /\ b_data y = bview live (disk s) n /\ b_refcnt y = brefs live n + 1 /\
    (b_refcnt x <> 0 -> b_blockno x = n) /\
    (forall c z, (c < NBUF)%nat -> bcache s !! c = Some z -> b_dev z = dev -> b_blockno z = n -> c = b) /\
    (forall en, live !! n = Some en -> en_at en = b).
Proof.
  intros Hc Hrep Hn. pose proof (br_cache _ _ _ Hrep) as Hok.
  destruct (bget_run pid dev n live e s Hc Hrep) as
    (b & x & y & Hrun & Hb & Hx & Hyd & Hyn & Hyl & Hynx & Hypv & Hcases).
  { unfold can_bread in Hn. destruct (live !! n); [by destruct Hn|done]. }
  destruct (bget_facts dev n live (disk s) (bcache s) b x y Hok Hn Hb Hx Hcases) as (Hr & Hbn & Hun & Hat & Hv).
  unfold bread. kstep Hrun. set (s1 := s <| bcache ::= _ |>).
  assert (bcache s1 !! b = Some y) as Hy by (apply list_lookup_insert_eq; by eapply lookup_lt_Some).
  assert (get_buf b e s1 = Ok y e s1) as Hg by (unfold get_buf; by rewrite Hy).
  kstep Hg. exists b, x. destruct (b_valid y) eqn:Hvy.
  - exists y. by repeat (split; [done|]).
  - set (g := fun z : buf => z <| b_data := disk_block s1 (b_blockno z) |>).
    assert (virtio_disk_rw b false e s1 = Ok tt e (s1 <| bcache ::= alter g b |>)) as Hd.
    { unfold virtio_disk_rw. by kstep Hg. }
    kstep Hd. unfold set_buf.
    kstep (modifyK_run (fun s => s <| bcache ::= alter (fun z => z <| b_valid := true |>) b |>) e (s1 <| bcache ::= alter g b |>)).
    rewrite (bcache_alter2 g (fun z => z <| b_valid := true |>) b y s1 Hy). exists (g y <| b_valid := true |>).
    split; [unfold retK; f_equal; unfold s1; cbv [upd]; cbn; by rewrite list_insert_insert_eq|].
    repeat (split; [done|]). split; [|done]. unfold bview. rewrite Hv. unfold g. cbn. by rewrite Hyn.
Qed.

(** [bread] returns the block's contents in a buffer locked for the caller; no other block is
    affected. *)
Lemma bread_spec pid dev n live e s :
  caller pid s -> brep dev live s -> can_bread live n ->
  exists b bs', bread dev n e s = Ok b e (s <| bcache := bs' |>) /\
    brep dev (<[n := Ent b (brefs live n + 1) (Some pid) (bview live (disk s) n)]> live) (s <| bcache := bs' |>) /\
    (forall en, live !! n = Some en -> en_at en = b).
Proof.
  intros Hc Hrep Hn. destruct (bread_run pid dev n live e s Hc Hrep Hn) as
    (b & x & y & Hrun & Hb & Hx & Hyd & Hyn & Hyl & Hynx & Hypv & Hyv & Hydt & Hyr & Hbn & Hun & Hat).
  exists b, (<[b := y]> (bcache s)). split; [done|]. split; [|done].
  destruct Hrep as [Hok (order & Hlru & Hperm)]. split; [|exists order; split; [by apply (lru_insert _ _ b x y)|done]].
  cbn. rewrite <- Hydt, <- Hyr.
  replace (Ent b (b_refcnt y) (Some pid) (b_data y)) with (ent_of b y) by (unfold ent_of; by rewrite Hyl).
  rewrite <- Hyn. apply (cache_set_live _ _ _ _ Hok b x y); try done; [|by rewrite Hyn..].
  rewrite Hyr. unfold brefs. unfold can_bread in Hn. destruct (live !! n) as [en|] eqn:Hen; [|lia].
  destruct (co_ent_full _ _ _ _ Hok n en Hen) as (z & _ & _ & _ & _ & _ & Hz & Heq).
  apply (f_equal en_refs) in Heq. cbn in Heq. lia.
Qed.

(** ** Writing and releasing *)

(** The caller has block [n] in buffer [b]. *)
Definition has_block (pid : Z) (live : gmap Z bent) (b : nat) (n : Z) (r : Z) (data : list Z) : Prop :=
  live !! n = Some (Ent b r (Some pid) data).

Lemma has_block_buf pid dev live d bs b n r data :
  cache_ok dev live d bs -> has_block pid live b n r data ->
  exists x, (b < NBUF)%nat /\ bs !! b = Some x /\ b_dev x = dev /\ b_blockno x = n /\ b_valid x = true /\
    b_refcnt x = r /\ 0 < r < 2 ^ 32 /\ b_lock x = Sleeplock true pid /\ b_data x = data.
Proof.
  intros Hok H. destruct (co_ent_full _ _ _ _ Hok _ _ H) as (x & Hb & Hx & Hd & Hn & Hv & Hr & Heq).
  cbn [en_at] in *. exists x. unfold ent_of in Heq. injection Heq as Hrr Ho Hdt. unfold owner_of in Ho.
  destruct (b_lock x) as [[] p]; [|done]. injection Ho as <-. by rewrite <- Hrr in Hr.
Qed.

(** Assigning the contents of a buffer one has. *)
Lemma set_data_spec pid dev live b n r data g e s :
  brep dev live s -> has_block pid live b n r data ->
  exists bs', set_buf b (fun x => x <| b_data ::= g |>) e s = Ok tt e (s <| bcache := bs' |>) /\
    brep dev (<[n := Ent b r (Some pid) (g data)]> live) (s <| bcache := bs' |>).
Proof.
  intros [Hok (order & Hlru & Hperm)] H.
  destruct (has_block_buf _ _ _ _ _ _ _ _ _ Hok H) as (x & Hb & Hx & Hd & Hn & Hv & Hr & Hrr & Hl & Hdt).
  exists (<[b := x <| b_data ::= g |>]> (bcache s)). split.
  { unfold set_buf. rewrite modifyK_run. f_equal. by rewrite (bcache_set _ b x). }
  split; [|exists order; split; [by apply (lru_insert _ _ b x)|done]]. cbn.
  replace (Ent b r (Some pid) (g data)) with (ent_of b (x <| b_data ::= g |>)).
  2: { unfold ent_of. cbn. by rewrite Hl, Hr, Hdt. }
  assert (b_blockno (x <| b_data ::= g |>) = n) as Hn' by done. rewrite <- Hn'.
  apply (cache_set_live _ _ _ _ Hok b x (x <| b_data ::= g |>)); try done; [cbn; lia|].
  intros c z Hc Hz Hzd Hzn. eapply (co_uniq _ _ _ _ Hok); eauto.
Qed.

(** [bwrite] puts the contents on the disk. *)
Lemma bwrite_spec pid dev live b n r data e s :
  caller pid s -> brep dev live s -> has_block pid live b n r data ->
  bwrite b e s = Ok tt e (s <| disk ::= write_block n data |>) /\
  brep dev live (s <| disk ::= write_block n data |>).
Proof.
  intros Hc [Hok (order & Hlru & Hperm)] H.
  destruct (has_block_buf _ _ _ _ _ _ _ _ _ Hok H) as (x & Hb & Hx & Hd & Hn & Hv & Hr & Hrr & Hl & Hdt).
  split.
  - unfold bwrite. kstep (holdingsleep_buf pid b x e s Hc Hx Hl). cbn [negb]. unfold virtio_disk_rw.
    assert (get_buf b e s = Ok x e s) as Hg by (unfold get_buf; by rewrite Hx). kstep Hg. by rewrite Hn, Hdt.
  - split; [|by exists order]. destruct Hok as [H1 H2 H3 H4]. split; try done. cbn.
    intros c z Hlc Hz Hz0. destruct (H1 c z Hlc Hz Hz0) as [Hzl Hzc]. split; [done|]. intros Hzd Hzv.
    rewrite (Hzc Hzd Hzv). unfold dblock. cbn. rewrite lookup_insert_ne; [done|]. intros Heq.
    assert (b = c) as <- by (eapply H4; eauto; congruence). rewrite Hx in Hz. injection Hz as <-. lia.
Qed.

(** A process without the states of its threads, which wake-ups change. *)
Definition settled (x : proc) : proc := x <| p_threads := [] |>.

Lemma settled_map_threads f (ps : list proc) : settled <$> (map_threads f <$> ps) = settled <$> ps.
Proof. rewrite <- list_fmap_compose. by apply list_fmap_ext. Qed.

(** The buffers and the states of sleeping threads are all that changed. *)
Definition bframe (s s' : kstate) : Prop := exists bs ps,
  s' = s <| bcache := bs |> <| procs := ps |> /\ settled <$> ps = settled <$> procs s.
Lemma bframe_refl s : bframe s s.
Proof. exists (bcache s), (procs s). split; [rec_eq|done]. Qed.
Lemma bframe_trans s1 s2 s3 : bframe s1 s2 -> bframe s2 s3 -> bframe s1 s3.
Proof. intros (b1 & p1 & -> & H1) (b2 & p2 & -> & H2). exists b2, p2. split; [rec_eq|]. by rewrite H2. Qed.
Lemma bframe_bcache s bs : bframe s (s <| bcache := bs |>).
Proof. exists bs, (procs s). split; [rec_eq|done]. Qed.

(** The rest of the state: neither the cache, the disk or the log, nor the states of threads. *)
Definition rest (s : kstate) : kstate * list proc :=
  (KState (syms s) (held s) (mem s) (freelist s) [] (initproc s) (nextpid s) (nexttid s) (c_proc s) (c_thread s)
     (bsems s) (ticks s) (kernel_pagetable s) (forkret_first s) (csr s) [] log0 (sb s) (itable s) (ftable s)
     (pipes s) (cons_dev s) (uart_dev s) disk0,
   settled <$> procs s).

Lemma bframe_rest s s' : bframe s s' -> rest s' = rest s.
Proof. intros (bs & ps & -> & H). unfold rest. apply pair_eq. split; [reflexivity|exact H]. Qed.
#[export] Hint Resolve bframe_refl bframe_bcache : core.

(** Giving up a reference; the last one may go only when the disk has the contents. *)
Definition drop_ref (n : Z) (b : nat) (r : Z) (owner : option Z) (data : list Z) (live : gmap Z bent) : gmap Z bent :=
  if r =? 1 then delete n live else <[n := Ent b (r - 1) owner data]> live.

(** The two steps of [brelse] on the table: the lock is released, the count goes down. *)
Definition released (x : buf) : buf :=
  x <| b_lock := Sleeplock false 0 |> <| b_refcnt := u32 (b_refcnt x - 1) |>.

Lemma released_cache pid dev live d bs b n r data x :
  cache_ok dev live d bs -> has_block pid live b n r data -> (r = 1 -> data = dblock d n) -> bs !! b = Some x ->
  cache_ok dev (drop_ref n b r None data live) d (<[b := released x]> bs).
Proof.
  intros Hok H Hclean Hx. destruct (has_block_buf _ _ _ _ _ _ _ _ _ Hok H) as (x' & Hb & Hx' & Hd & Hn & Hv & Hr & Hrr & Hl & Hdt).
  rewrite Hx in Hx'. injection Hx' as <-. assert (b_blockno (released x) = n) as Hn' by done.
  assert (b_refcnt (released x) = r - 1) as Hr'.
  { unfold released. cbn. rewrite Hr. apply u32_small. lia. }
  unfold drop_ref. destruct (Z.eqb_spec r 1) as [Hr1|Hr1].
  - rewrite <- Hn. apply (cache_set_idle _ _ _ _ Hok b x); try done; [lia..|]. rewrite Hn, <- Hclean by done. done.
  - replace (Ent b (r - 1) None data) with (ent_of b (released x)) by (unfold ent_of; rewrite Hr', <- Hdt; done).
    rewrite <- Hn'. apply (cache_set_live _ _ _ _ Hok b x); try done; [rewrite Hr'; lia|].
    intros c z Hc Hz Hzd Hzn. eapply (co_uniq _ _ _ _ Hok); eauto.
Qed.

Lemma relink_lru b bs order : lru bs order -> order ≡ₚ seq 0 NBUF -> (b < NBUF)%nat ->
  exists order', lru (link_front b (unlink b bs)) order' /\ order' ≡ₚ seq 0 NBUF.
Proof.
  intros Hlru Hperm Hb. apply (elem_of_order order) in Hb as Hin; [|done].
  apply list_elem_of_split in Hin as (l1 & l2 & ->). exists (b :: l1 ++ l2). split.
  - pose proof Hlru as (_ & Hnd & _). apply link_front_lru; [by apply unlink_lru|done|].
    rewrite <- Permutation_middle in Hnd. by apply NoDup_cons in Hnd as [? _].
  - rewrite <- Hperm. apply Permutation_middle.
Qed.

(** The critical section of [brelse]. *)
Lemma brelse_section pid b x e s :
  caller pid s -> bcache s !! b = Some x ->
  let y := x <| b_refcnt := u32 (b_refcnt x - 1) |> in
  let bs := <[b := y]> (bcache s) in
  (acquire L_bcache ;;;
   set_buf b (fun x => x <| b_refcnt := u32 (b_refcnt x - 1) |>) ;;;
   x <- get_buf b ;;
   (if b_refcnt x =? 0
    then modifyK (fun s => s <| bcache ::= (fun bs => link_front b (unlink b bs)) |>)
    else retK tt) ;;;
   release L_bcache) e s =
  Ok tt e (s <| bcache := if b_refcnt y =? 0 then link_front b (unlink b bs) else bs |>).
Proof.
  intros Hc Hx y bs. kstep (acquire_bh pid L_bcache e s Hc ltac:(done)).
  assert (set_buf b (fun x => x <| b_refcnt := u32 (b_refcnt x - 1) |>) e (bh L_bcache s) =
    Ok tt e (bh L_bcache s <| bcache := bs |>)) as Hset.
  { unfold set_buf. rewrite modifyK_run. f_equal. by rewrite (bcache_set _ b x). }
  kstep Hset. assert (get_buf b e (bh L_bcache s <| bcache := bs |>) = Ok y e (bh L_bcache s <| bcache := bs |>)) as Hg.
  { unfold get_buf. cbn. unfold bs. rewrite list_lookup_insert_eq; [done|by eapply lookup_lt_Some]. }
  kstep Hg. clearbody y bs. destruct (b_refcnt y =? 0).
  - kstep (modifyK_run (fun s => s <| bcache ::= (fun bs => link_front b (unlink b bs)) |>) e
      (bh L_bcache s <| bcache := bs |>)).
    by rewrite (release_top _ _ _ (held s)).
  - rewrite bindK_ret. by rewrite (release_top _ _ _ (held s)).
Qed.

Lemma brelse_spec pid dev live b n r data e s :
  caller pid s -> brep dev live s -> has_block pid live b n r data -> (r = 1 -> data = dblock (disk s) n) ->
  exists s', brelse b e s = Ok tt e s' /\ caller pid s' /\ bframe s s' /\
    brep dev (drop_ref n b r None data live) s'.
Proof.
  intros Hc [Hok (order & Hlru & Hperm)] H Hclean.
  destruct (has_block_buf _ _ _ _ _ _ _ _ _ Hok H) as (x & Hb & Hx & Hd & Hn & Hv & Hr & Hrr & Hl & Hdt).
  pose proof (released_cache _ _ _ _ _ _ _ _ _ _ Hok H Hclean Hx) as Hcache.
  unfold brelse. kstep (holdingsleep_buf pid b x e s Hc Hx Hl). cbn [negb]. kstep (releasesleep_buf pid b e s Hc).
  set (s1 := s <| bcache ::= _ |> <| procs ::= _ |>).
  assert (caller pid s1) as Hc1 by (apply caller_wakeup; by apply caller_bcache).
  assert (bcache s1 !! b = Some (x <| b_lock := Sleeplock false 0 |>)) as Hx1.
  { cbn. by rewrite list_lookup_alter_eq, Hx. }
  rewrite (brelse_section pid b _ e s1 Hc1 Hx1). set (bs3 := if _ =? 0 then _ else _).
  eexists. split; [done|]. split; [by apply (caller_ext _ s1)|].
  split; [exists bs3, (procs s1); split; [unfold s1; rec_eq|apply settled_map_threads]|].
  set (bs2 := <[b := released x]> (bcache s)) in *.
  assert (bs3 = if b_refcnt (released x) =? 0 then link_front b (unlink b bs2) else bs2) as Hbs3.
  { unfold bs3, bs2, s1. cbn [bcache upd]. rewrite (alter_insert _ b x) by done. by rewrite list_insert_insert_eq. }
  assert (lru bs2 order) as Hlru2 by by apply (lru_insert _ _ b x).
  split; cbn; rewrite Hbs3; destruct (b_refcnt (released x) =? 0); [|done| |by exists order].
  - by apply (cache_ok_payload _ _ _ bs2); [apply payload_relink|].
  - by apply (relink_lru b bs2 order).
Qed.

(** [bpin] and [bunpin] move the count of a block in use. *)
Lemma bcount_spec pid dev live n en delta e s :
  caller pid s -> brep dev live s -> live !! n = Some en -> 0 < en_refs en + delta < 2 ^ 32 ->
  exists bs', (acquire L_bcache ;;;
     set_buf (en_at en) (fun x => x <| b_refcnt := u32 (b_refcnt x + delta) |>) ;;;
     release L_bcache) e s = Ok tt e (s <| bcache := bs' |>) /\
    brep dev (<[n := Ent (en_at en) (en_refs en + delta) (en_owner en) (en_data en)]> live) (s <| bcache := bs' |>).
Proof.
  intros Hc [Hok (order & Hlru & Hperm)] Hen Hr.
  destruct (co_ent_full _ _ _ _ Hok n en Hen) as (x & Hb & Hx & Hd & Hn & Hv & Hrr & Heq).
  set (b := en_at en) in *. set (y := x <| b_refcnt := u32 (b_refcnt x + delta) |>).
  exists (<[b := y]> (bcache s)). split.
  - kstep (acquire_bh pid L_bcache e s Hc ltac:(done)). unfold set_buf.
    kstep (modifyK_run (fun s => s <| bcache ::= alter (fun x => x <| b_refcnt := u32 (b_refcnt x + delta) |>) b |>) e (bh L_bcache s)).
    rewrite (release_bh pid L_bcache) by done. f_equal. by rewrite (bcache_set _ b x).
  - rewrite Heq in Hr. cbn in Hr. assert (b_refcnt y = b_refcnt x + delta) as Hy by (apply u32_small; lia).
    split; [|exists order; split; [by apply (lru_insert _ _ b x)|done]]. cbn.
    replace (Ent b _ _ _) with (ent_of b y).
    2: { rewrite Heq. unfold ent_of. cbn [en_refs en_owner en_data]. by rewrite Hy. }
    assert (b_blockno y = n) as Hn' by done. rewrite <- Hn'.
    apply (cache_set_live _ _ _ _ Hok b x y); try done; [rewrite Hy; lia|].
    intros c z Hlc Hz Hzd Hzn. eapply (co_uniq _ _ _ _ Hok); eauto.
Qed.

Lemma bunpin_spec pid dev live n en e s :
  caller pid s -> brep dev live s -> live !! n = Some en -> 1 < en_refs en ->
  exists bs', bunpin (en_at en) e s = Ok tt e (s <| bcache := bs' |>) /\
    brep dev (<[n := Ent (en_at en) (en_refs en - 1) (en_owner en) (en_data en)]> live) (s <| bcache := bs' |>).
Proof.
  intros Hc Hrep Hen Hr. destruct (co_ent_full _ _ _ _ (br_cache _ _ _ Hrep) n en Hen) as (x & _ & _ & _ & _ & _ & Hrr & Heq).
  apply (f_equal en_refs) in Heq. cbn in Heq. apply (bcount_spec pid dev live n en (-1)); try done. lia.
Qed.

Lemma bpin_spec pid dev live n en e s :
  caller pid s -> brep dev live s -> live !! n = Some en -> en_refs en < 2 ^ 32 - 1 ->
  exists bs', bpin (en_at en) e s = Ok tt e (s <| bcache := bs' |>) /\
    brep dev (<[n := Ent (en_at en) (en_refs en + 1) (en_owner en) (en_data en)]> live) (s <| bcache := bs' |>).
Proof.
  intros Hc Hrep Hen Hr. destruct (co_ent_full _ _ _ _ (br_cache _ _ _ Hrep) n en Hen) as (x & _ & _ & _ & _ & _ & Hrr & Heq).
  apply (f_equal en_refs) in Heq. cbn in Heq. apply (bcount_spec pid dev live n en 1); try done. lia.
Qed.

(** ** [binit] *)

(** The cache at boot: no buffer is in use or holds a block of [dev]. *)
Definition boot_cache (dev : Z) (bs : list buf) : Prop :=
  length bs = S NBUF /\ forall b x, bs !! b = Some x -> b_refcnt x = 0 /\ b_dev x <> dev /\ sl_locked (b_lock x) = false.

Lemma boot_cache_ok dev d bs : boot_cache dev bs -> cache_ok dev ∅ d bs.
Proof.
  intros [_ H]. split.
  - intros b x _ Hx _. destruct (H b x Hx) as (_ & Hd & Hl). done.
  - intros b x _ Hx Hr. by destruct (H b x Hx).
  - intros n en Hn. by rewrite lookup_empty in Hn.
  - intros b c x y _ _ Hx _ Hd. by destruct (H b x Hx) as (_ & ? & _).
Qed.

Lemma boot_cache_alter dev b h bs :
  (forall x, b_refcnt (h x) = b_refcnt x /\ b_dev (h x) = b_dev x) ->
  (forall x, sl_locked (b_lock x) = false -> sl_locked (b_lock (h x)) = false) ->
  boot_cache dev bs -> boot_cache dev (alter h b bs).
Proof.
  intros Hh Hl [Hlen H]. split; [by rewrite length_alter|]. intros c y Hy.
  destruct (decide (c = b)) as [->|]; [|rewrite list_lookup_alter_ne in Hy by done; by apply (H c)].
  rewrite list_lookup_alter_eq in Hy. destruct (bs !! b) as [x|] eqn:Hx; [|done]. injection Hy as <-.
  destruct (Hh x) as [-> ->]. destruct (H b x Hx) as (? & ? & ?). auto.
Qed.

Lemma boot_cache_link dev b bs : boot_cache dev bs -> boot_cache dev (link_front b bs).
Proof. intros H. unfold link_front, set_next, set_prev. do 4 (apply boot_cache_alter; [done|done|]). done. Qed.

Lemma lru_lock b l bs order : lru bs order -> lru (alter (fun x => x <| b_lock := l |>) b bs) order.
Proof.
  intros (Hs & Hnd & Hlt & Hlen). split; [|split; [done|split; [done|by rewrite length_alter]]].
  apply (seg_ext bs); [..|done]; intros i; [apply (alter_keeps b_next)|apply (alter_keeps b_prev)]; done.
Qed.

Lemma binit_spec dev e s :
  boot_cache dev (bcache s) -> held s = [] ->
  exists bs', binit e s = Ok tt e (s <| bcache := bs' |>) /\ brep dev ∅ (s <| bcache := bs' |>).
Proof.
  intros Hboot Hh.
  enough (wp binit (fun _ e' s' => e' = e /\ exists bs', s' = s <| bcache := bs' |> /\ boot_cache dev bs' /\
    lru bs' (reverse (seq 0 NBUF))) e s) as H.
  { apply wp_run in H as ([] & e' & s' & Hrun & -> & bs' & -> & Hb & Hl). exists bs'. split; [done|].
    split; [by apply boot_cache_ok|]. exists (reverse (seq 0 NBUF)). split; [done|apply reverse_Permutation]. }
  unfold binit, initlock, set_buf, initsleeplock, set_sleeplock. wp.
  apply (wp_forK (fun l1 e' s' => e' = e /\ exists bs', s' = s <| bcache := bs' |> /\ boot_cache dev bs' /\
    lru bs' (reverse l1))).
  - split; [done|]. exists (alter (fun x => x <| b_prev := NBUF |> <| b_next := NBUF |>) NBUF (bcache s)).
    split; [cbv [upd]; cbn; by rewrite Hh|]. split; [by apply boot_cache_alter|].
    destruct Hboot as [Hlen _]. assert (NBUF < length (bcache s))%nat by lia.
    split; [|split; [constructor|split; [constructor|by rewrite length_alter]]].
    cbn. unfold next_of, prev_of. by rewrite total_alter_eq.
  - intros l1 b l2 e1 s1 Hl [-> (bs & -> & Hb & Hlru)]. wp. split; [done|].
    eexists. split; [cbv [upd put_sleeplock]; cbn; rewrite Hh; reflexivity|]. split.
    + apply boot_cache_link. by apply boot_cache_alter.
    + rewrite reverse_app. cbn. apply link_front_lru; [by apply lru_lock| |].
      * assert (b ∈ seq 0 NBUF) as Hin by (rewrite Hl; set_solver). apply elem_of_seq in Hin. lia.
      * assert (NoDup (l1 ++ b :: l2)) as Hnd by (rewrite <- Hl; apply NoDup_seq).
        apply NoDup_app in Hnd as (_ & Hd & _). rewrite elem_of_reverse. intros Hin. by apply (Hd b); [|left].
  - by intros e1 s1 [-> H].
Qed.

(** ** The cache is transparent *)

(** What a client of the cache does with a block. *)
Inductive bop := BRead (n : Z) | BWrite (n : Z) (data : list Z).
Definition bop_block (o : bop) : Z := match o with BRead n => n | BWrite n _ => n end.

Definition run_bop (dev : Z) (o : bop) : K (list Z) :=
  match o with
  | BRead n => b <- bread dev n ;; x <- get_buf b ;; brelse b ;;; retK (b_data x)
  | BWrite n data =>
      b <- bread dev n ;; set_buf b (fun x => x <| b_data := data |>) ;;; bwrite b ;;; brelse b ;;; retK data
  end.
Fixpoint run_bops (dev : Z) (ops : list bop) : K (list (list Z)) :=
  match ops with
  | [] => retK []
  | o :: ops' => r <- run_bop dev o ;; rs <- run_bops dev ops' ;; retK (r :: rs)
  end.

(** The same on the disk alone. *)
Definition abs_bop (o : bop) (d : diskstate) : diskstate * list Z :=
  match o with
  | BRead n => (d, dblock d n)
  | BWrite n data => (write_block n data d, data)
  end.
Fixpoint abs_bops (ops : list bop) (d : diskstate) : diskstate * list (list Z) :=
  match ops with
  | [] => (d, [])
  | o :: ops' => let '(d1, r) := abs_bop o d in let '(d2, rs) := abs_bops ops' d1 in (d2, r :: rs)
  end.

Lemma get_buf_block pid dev live b n r data e s :
  brep dev live s -> has_block pid live b n r data -> exists x, get_buf b e s = Ok x e s /\ b_data x = data /\ b_blockno x = n.
Proof.
  intros [Hok _] H. destruct (has_block_buf _ _ _ _ _ _ _ _ _ Hok H) as (x & _ & Hx & _ & Hn & _ & _ & _ & _ & Hdt).
  exists x. split; [|done]. unfold get_buf. by rewrite Hx.
Qed.

(** A block nobody else uses comes and goes without a trace. *)
Lemma drop_inserted n b data live en :
  live !! n = None -> drop_ref n b 1 None data (<[n := en]> live) = live.
Proof. intros H. unfold drop_ref. cbn. by rewrite delete_insert_id. Qed.

Lemma run_bop_spec pid dev live o e s :
  caller pid s -> brep dev live s -> live !! bop_block o = None -> (size live < NBUF)%nat ->
  exists s', run_bop dev o e s = Ok (snd (abs_bop o (disk s))) e s' /\ caller pid s' /\ brep dev live s' /\
    disk s' = fst (abs_bop o (disk s)).
Proof.
  intros Hc Hrep Hl Hsz. set (n := bop_block o) in *.
  destruct (bread_spec pid dev n live e s Hc Hrep) as (b & bs & Hrun & Hrep1 & _).
  { unfold can_bread. by rewrite Hl. }
  unfold brefs, bview in Hrep1. rewrite Hl in Hrep1. set (s1 := s <| bcache := bs |>) in *.
  assert (caller pid s1) as Hc1 by by apply (caller_bcache pid s (fun _ => bs)).
  assert (has_block pid (<[n := Ent b (0 + 1) (Some pid) (dblock (disk s) n)]> live) b n 1 (dblock (disk s) n)) as Hhas
    by apply lookup_insert_eq.
  destruct o as [m|m data]; change m with n; cbn [run_bop abs_bop fst snd].
  - destruct (get_buf_block _ _ _ _ _ _ _ e s1 Hrep1 Hhas) as (x & Hg & Hx & _).
    destruct (brelse_spec pid dev _ b n 1 _ e s1 Hc1 Hrep1 Hhas) as (s2 & Hr2 & Hc2 & (bs2 & ps2 & -> & _) & Hrep2); [done|].
    rewrite drop_inserted in Hrep2 by done.
    eexists. split; [kstep Hrun; kstep Hg; kstep Hr2; unfold retK; by rewrite Hx|]. done.
  - destruct (set_data_spec pid dev _ b n 1 _ (fun _ => data) e s1 Hrep1 Hhas) as (bs2 & Hr2 & Hrep2).
    rewrite insert_insert_eq in Hrep2. set (s2 := s1 <| bcache := bs2 |>) in *.
    assert (caller pid s2) as Hc2 by by apply (caller_bcache pid s1 (fun _ => bs2)).
    assert (has_block pid (<[n := Ent b 1 (Some pid) data]> live) b n 1 data) as Hhas2 by apply lookup_insert_eq.
    destruct (bwrite_spec pid dev _ b n 1 data e s2 Hc2 Hrep2 Hhas2) as [Hr3 Hrep3].
    set (s3 := s2 <| disk ::= _ |>) in *. assert (caller pid s3) as Hc3 by by apply (caller_ext _ s2).
    destruct (brelse_spec pid dev _ b n 1 data e s3 Hc3 Hrep3 Hhas2) as (s4 & Hr4 & Hc4 & (bs4 & ps4 & -> & _) & Hrep4).
    { intros _. unfold dblock. cbn. by rewrite lookup_insert_eq. }
    rewrite drop_inserted in Hrep4 by done.
    eexists. split; [kstep Hrun; kstep Hr2; kstep Hr3; kstep Hr4; done|]. done.
Qed.

(** C4: The cache is transparent.  Whatever blocks are in use elsewhere, any sequence of reads
    and writes of other blocks through [bread], [bwrite] and [brelse], with the evictions that
    it causes, returns and writes what the same sequence does on the disk itself. *)
Theorem bcache_transparent pid dev live ops e s :
  caller pid s -> brep dev live s -> (size live < NBUF)%nat ->
  Forall (fun o => live !! bop_block o = None) ops ->
  exists s', run_bops dev ops e s = Ok (snd (abs_bops ops (disk s))) e s' /\
    brep dev live s' /\ disk s' = fst (abs_bops ops (disk s)).
Proof.
  intros Hc Hrep Hsz. revert s Hc Hrep. induction ops as [|o ops IH]; intros s Hc Hrep Hops; [by exists s|].
  inversion Hops as [|? ? Ho Hops']; subst. cbn [run_bops abs_bops].
  destruct (run_bop_spec pid dev live o e s Hc Hrep Ho Hsz) as (s1 & Hrun & Hc1 & Hrep1 & Hd1).
  destruct (abs_bop o (disk s)) as [d1 r]. cbn [fst snd] in *. subst d1.
  destruct (IH s1 Hc1 Hrep1 Hops') as (s2 & Hrun2 & Hrep2 & Hd2). destruct (abs_bops ops (disk s1)) as [d2 rs].
  exists s2. split; [kstep Hrun; by kstep Hrun2|]. done.
Qed.

(** The cache that [binit] makes, on the machine where process 0 runs. *)
Definition demo_idle : kstate := demo_running <| held := [] |>.
Definition demo_cached : kstate := final_state demo_idle (binit [] demo_idle).

Lemma demo_boot_cache dev : dev <> 0 -> boot_cache dev (bcache demo_idle).
Proof.
  intros Hd. split; [reflexivity|]. intros b x Hx. change (bcache demo_idle) with (replicate (S NBUF) buf0) in Hx.
  apply lookup_replicate in Hx as [-> _]. done.
Qed.

Lemma demo_cached_ok : caller 0 demo_cached /\ brep ROOTDEV ∅ demo_cached /\ disk demo_cached = disk0 /\
  log demo_cached = log0.
Proof.
  destruct (binit_spec ROOTDEV [] demo_idle) as (bs & Hrun & Hrep); [by apply demo_boot_cache|done|].
  unfold demo_cached. rewrite Hrun. clear Hrun. cbn [final_state]. split; [|split; [exact Hrep|split; reflexivity]].
  split; [|exact demo_table_ok|intros l Hin; by apply elem_of_nil in Hin]. exists 0%nat, proc0. split; [reflexivity|split; reflexivity].
Qed.

Lemma bcache_transparent_witness :
  exists s', run_bops ROOTDEV [BRead 7; BWrite 7 [1; 2; 3]; BRead 7] [] demo_cached =
      Ok (snd (abs_bops [BRead 7; BWrite 7 [1; 2; 3]; BRead 7] (disk demo_cached))) [] s' /\
    brep ROOTDEV ∅ s' /\ disk s' = fst (abs_bops [BRead 7; BWrite 7 [1; 2; 3]; BRead 7] (disk demo_cached)).
Proof.
  apply (bcache_transparent 0 ROOTDEV ∅ [BRead 7; BWrite 7 [1; 2; 3]; BRead 7] [] demo_cached).
  - apply demo_cached_ok.
  - apply demo_cached_ok.
  - rewrite map_size_empty. unfold NBUF. lia.
  - repeat constructor.
Defined.
