(* ===== verification/Virtio.v ===== *)
(** * The virtio disk driver: kernel/virtio_disk.c and kernel/virtio.h

    The driver and the device share the descriptor table, the two rings, the request headers,
    the status bytes and the buffers.  The code between two points where [virtio_disk_rw] may
    sleep runs under [vdisk_lock] and is one operation here: the entry of a caller
    ([rw_enter]), its resumption after a sleep ([rw_resume]), and the interrupt handler
    ([virtio_disk_intr]).  Any number of threads may be inside [virtio_disk_rw] at once.

    The device is not part of the source: it is a parameter of the theorems in VirtioFacts.v.
    What the virtio specification says about it is [dev_fetch], [dev_complete] and [dev_fail]. *)

From stdpp Require Import base numbers list gmap strings.
From S2P Require Import Prelude Mem Types.

(** ** virtio.h *)

Definition NUM : nat := 8.
Definition VRING_DESC_F_NEXT : Z := 1.
Definition VRING_DESC_F_WRITE : Z := 2.
Definition VIRTIO_BLK_T_IN : Z := 0.
Definition VIRTIO_BLK_T_OUT : Z := 1.

(** The addresses the driver puts into descriptors: a request header, the data of a buffer, a
    status byte. *)
Inductive dma := Dma_op (i : nat) | Dma_data (b : nat) | Dma_status (i : nat).

Record virtq_desc := Desc { d_addr : option dma; d_len : Z; d_flags : Z; d_next : nat }.
Record virtio_blk_req := Req { r_type : Z; r_reserved : Z; r_sector : Z }.

(** [struct disk], with the rings it points to. *)
Record vdisk := Vdisk {
  v_desc : list virtq_desc;
  v_avail : list nat; v_avail_idx : Z;
  v_used : list nat; v_used_dev : Z;    (* disk.used->ring[].id and disk.used->idx *)
  v_free : list bool;
  v_used_idx : Z;                       (* disk.used_idx *)
  v_info : list (option nat * Z);       (* the buffer and the status of a request *)
  v_ops : list virtio_blk_req }.

(** ** Callers

    A thread inside [virtio_disk_rw(b, write)] waits for three descriptors, or, once its
    request is with the device, for the end of the request.  The flag says that it is
    runnable; without it, it sleeps on [&disk.free[0]] or on [b]. *)
Inductive caller :=
| Out
| Wait_desc (b : nat) (write : bool) (awake : bool)
| Wait_done (b : nat) (write : bool) (i0 i1 i2 : nat) (awake : bool).

(** [v_taken] and [v_last] are the device's: the chains it works on and how far it has read
    the avail ring. *)
Record vstate := Vstate {
  v_dk : vdisk; v_bufs : list buf; v_disk : diskstate; v_threads : list caller;
  v_last : Z; v_taken : list nat }.

#[export] Instance eta_virtq_desc : Eta virtq_desc := fun x => Desc (d_addr x) (d_len x) (d_flags x) (d_next x).
#[export] Instance eta_vdisk : Eta vdisk := fun x =>
  Vdisk (v_desc x) (v_avail x) (v_avail_idx x) (v_used x) (v_used_dev x) (v_free x) (v_used_idx x) (v_info x) (v_ops x).
#[export] Instance eta_vstate : Eta vstate := fun x =>
  Vstate (v_dk x) (v_bufs x) (v_disk x) (v_threads x) (v_last x) (v_taken x).

(** ** The monad: state, panics and undefined behaviour *)

Inductive vres (A : Type) := VOk (a : A) (s : vstate) | VPanic (msg : string) | VUB | VFuel.
Arguments VOk {A} a s.
Arguments VPanic {A} msg.
Arguments VUB {A}.
Arguments VFuel {A}.
Definition V (A : Type) : Type := vstate -> vres A.

#[export] Instance V_ret : MRet V := fun A a s => VOk a s.
#[export] Instance V_bind : MBind V := fun A B k c s =>
  match c s with VOk a s' => k a s' | VPanic msg => VPanic msg | VUB => VUB | VFuel => VFuel end.

Definition vpanic {A} (msg : string) : V A := fun _ => VPanic msg.
Definition vget {A} (g : vstate -> A) : V A := fun s => VOk (g s) s.
Definition vmod (g : vstate -> vstate) : V unit := fun s => VOk tt (g s).
(** An array access: out of range it is undefined. *)
Definition vat {A} (g : vstate -> list A) (i : nat) : V A := fun s =>
  match g s !! i with Some x => VOk x s | None => VUB end.
Definition vdk (g : vdisk -> vdisk) : V unit := vmod (fun s => s <| v_dk ::= g |>).

(** [wakeup] makes the threads sleeping on a channel runnable. *)
Inductive vchan := Chan_free | Chan_buf (b : nat).
Definition wake (ch : vchan) (t : caller) : caller :=
  match ch, t with
  | Chan_free, Wait_desc b w _ => Wait_desc b w true
  | Chan_buf b', Wait_done b w i0 i1 i2 a => Wait_done b w i0 i1 i2 (a || (b =? b')%nat)
  | _, _ => t
  end.
Definition vwakeup (ch : vchan) : V unit := vmod (fun s => s <| v_threads ::= fmap (wake ch) |>).

(** ** Descriptors *)

(** The index of the first descriptor that is free. *)
Fixpoint first_free (fr : list bool) : option nat :=
  match fr with
  | [] => None
  | true :: _ => Some O
  | false :: fr' => S <$> first_free fr'
  end.

Definition alloc_desc : V (option nat) :=
  fr ← vget (fun s => v_free (v_dk s));
  match first_free fr with
  | Some i => vdk (fun d => d <| v_free ::= <[i := false]> |>);; mret (Some i)
  | None => mret None
  end.

Definition desc0 : virtq_desc := Desc None 0 0 0.

Definition free_desc (i : nat) : V unit :=
  if (NUM <=? i)%nat then vpanic "free_desc 1" else
  f ← vat (fun s => v_free (v_dk s)) i;
  if f : bool then vpanic "free_desc 2" else
  vdk (fun d => d <| v_desc ::= <[i := desc0]> |>);;
  vdk (fun d => d <| v_free ::= <[i := true]> |>);;
  vwakeup Chan_free.

(** The chain has at most [NUM] descriptors; the fuel bounds the links followed. *)
Fixpoint free_chain (fuel : nat) (i : nat) : V unit :=
  match fuel with
  | O => fun _ => VFuel
  | S k =>
      d ← vat (fun s => v_desc (v_dk s)) i;
      free_desc i;;
      if Z.land (d_flags d) VRING_DESC_F_NEXT =? 0 then mret tt else free_chain k (d_next d)
  end.

(** The failing iteration gives back what the earlier ones took. *)
Definition alloc3_desc : V (option (nat * nat * nat)) :=
  a ← alloc_desc;
  match a with
  | None => mret None
  | Some i0 =>
      b ← alloc_desc;
      match b with
      | None => free_desc i0;; mret None
      | Some i1 =>
          c ← alloc_desc;
          match c with
          | None => free_desc i0;; free_desc i1;; mret None
          | Some i2 => mret (Some (i0, i1, i2))
          end
      end
  end.

(** ** Requests *)

Definition upd_desc (i : nat) (d : virtq_desc) : V unit := vdk (fun k => k <| v_desc ::= <[i := d]> |>).
Definition set_disk (b : nat) (v : bool) : V unit :=
  vmod (fun s => s <| v_bufs ::= alter (fun x => x <| b_disk := v |>) b |>).
Definition set_caller (t : nat) (c : caller) : V unit := vmod (fun s => s <| v_threads ::= <[t := c]> |>).

(** [b->blockno * (BSIZE / 512)] is a 32-bit product. *)
Definition sector_of (blockno : Z) : Z := u32 (blockno * (BSIZE / 512)).

(** The three descriptors, the request header and the entry of the avail ring. *)
Definition rw_submit (b : nat) (write : bool) (sector : Z) (i0 i1 i2 : nat) : V unit :=
  vdk (fun d => d <| v_ops ::= <[i0 := Req (if write then VIRTIO_BLK_T_OUT else VIRTIO_BLK_T_IN) 0 sector]> |>);;
  upd_desc i0 (Desc (Some (Dma_op i0)) 16 VRING_DESC_F_NEXT i1);;
  upd_desc i1 (Desc (Some (Dma_data b)) BSIZE
    (Z.lor (if write then 0 else VRING_DESC_F_WRITE) VRING_DESC_F_NEXT) i2);;
  vdk (fun d => d <| v_info ::= alter (fun x => (fst x, 255)) i0 |>);;
  upd_desc i2 (Desc (Some (Dma_status i0)) 1 VRING_DESC_F_WRITE 0);;
  set_disk b true;;
  vdk (fun d => d <| v_info ::= alter (fun x => (Some b, snd x)) i0 |>);;
  vdk (fun d => d <| v_avail ::= <[Z.to_nat (v_avail_idx d mod Z.of_nat NUM) := i0]> |>);;
  vdk (fun d => d <| v_avail_idx := u16 (v_avail_idx d + 1) |>).

(** One round of the loop that allocates the descriptors: the thread either sleeps on
    [&disk.free[0]], or submits its request, finds [b->disk] set and sleeps on [b]. *)
Definition rw_try (t b : nat) (write : bool) : V unit :=
  x ← vat (fun s => v_bufs s) b;
  r ← alloc3_desc;
  match r with
  | None => set_caller t (Wait_desc b write false)
  | Some (i0, i1, i2) =>
      rw_submit b write (sector_of (b_blockno x)) i0 i1 i2;;
      set_caller t (Wait_done b write i0 i1 i2 false)
  end.

(** What follows the wait: the request is forgotten, its descriptors are freed. *)
Definition rw_finish (t i0 : nat) : V unit :=
  vdk (fun d => d <| v_info ::= alter (fun x => (None, snd x)) i0 |>);;
  free_chain (S NUM) i0;;
  set_caller t Out.

(** A thread comes back from [sleep]. *)
Definition rw_resume (t : nat) : V unit :=
  c ← vat (fun s => v_threads s) t;
  match c with
  | Wait_desc b w true => rw_try t b w
  | Wait_done b w i0 i1 i2 true =>
      x ← vat (fun s => v_bufs s) b;
      if b_disk x then set_caller t (Wait_done b w i0 i1 i2 false) else rw_finish t i0
  | _ => mret tt
  end.

(** ** The interrupt handler *)

(** One completion: the request at [used_idx] of the used ring. *)
Definition intr_one : V unit :=
  d ← vget (fun s => v_dk s);
  id ← vat (fun s => v_used (v_dk s)) (Z.to_nat (v_used_idx d mod Z.of_nat NUM));
  inf ← vat (fun s => v_info (v_dk s)) id;
  if negb (snd inf =? 0) then vpanic "virtio_disk_intr status" else
  match fst inf with
  | None => fun _ => VUB
  | Some b =>
      set_disk b false;;
      vwakeup (Chan_buf b);;
      vdk (fun d => d <| v_used_idx := u16 (v_used_idx d + 1) |>)
  end.

Fixpoint intr_loop (fuel : nat) : V unit :=
  match fuel with
  | O => fun _ => VFuel
  | S k =>
      d ← vget (fun s => v_dk s);
      if v_used_idx d =? v_used_dev d then mret tt else intr_one;; intr_loop k
  end.

(** The loop runs once for every entry the device has added. *)
Definition virtio_disk_intr : V unit :=
  d ← vget (fun s => v_dk s);
  intr_loop (S (Z.to_nat (u16 (v_used_dev d - v_used_idx d)))).

(** ** What happens to the driver *)

Definition uses (b : nat) (c : caller) : bool :=
  match c with
  | Out => false
  | Wait_desc b' _ _ | Wait_done b' _ _ _ _ _ => (b =? b')%nat
  end.

Inductive event :=
| Enter (t b : nat) (write : bool)   (* a thread calls virtio_disk_rw(b, write) *)
| Resume (t : nat)                   (* a runnable thread goes on *)
| Intr                               (* a completion interrupt *)
| Spurious (t : nat)                 (* kill makes a sleeping thread runnable *)
| Edit (b : nat) (blockno : Z) (data : list Z). (* the owner of an idle buffer uses it *)

Definition awaken (c : caller) : caller :=
  match c with
  | Out => Out
  | Wait_desc b w _ => Wait_desc b w true
  | Wait_done b w i0 i1 i2 _ => Wait_done b w i0 i1 i2 true
  end.

(** A buffer is passed to [virtio_disk_rw] by the thread that holds its sleep lock, so by one
    thread at a time, and its number is that of a block of the disk. *)
Definition may_enter (t b : nat) (s : vstate) : bool :=
  match v_threads s !! t with Some Out => true | _ => false end &&
  negb (existsb (uses b) (v_threads s)) &&
  match v_bufs s !! b with
  | Some x => (0 <=? b_blockno x) && (b_blockno x <? 2 ^ 31)
  | None => false
  end.

Definition driver_step (ev : event) : V unit := fun s =>
  match ev with
  | Enter t b write => if may_enter t b s then rw_try t b write s else VOk tt s
  | Resume t => if (t <? length (v_threads s))%nat then rw_resume t s else VOk tt s
  | Intr => virtio_disk_intr s
  | Spurious t => VOk tt (s <| v_threads ::= alter awaken t |>)
  | Edit b blockno data =>
      if existsb (uses b) (v_threads s) then VOk tt s
      else VOk tt (s <| v_bufs ::= alter (fun x => x <| b_blockno := blockno |> <| b_data := data |>) b |>)
  end.

(** ** What the virtio specification says of the device *)

Definition dev_block (d : diskstate) (n : Z) : list Z := default (replicate (Z.to_nat BSIZE) 0) (dk_blocks d !! n).

(** A request, as the device decodes it from a chain: the transfer of a whole block between a
    buffer and the disk, and where the status goes. *)
Record request := Request { rq_write : bool; rq_block : Z; rq_buf : nat; rq_status : nat }.

Definition decode (d : vdisk) (head : nat) : option request :=
  d0 ← v_desc d !! head;
  d1 ← v_desc d !! d_next d0;
  d2 ← v_desc d !! d_next d1;
  match d_addr d0, d_addr d1, d_addr d2 with
  | Some (Dma_op i), Some (Dma_data b), Some (Dma_status j) =>
      op ← v_ops d !! i;
      let out := r_type op =? VIRTIO_BLK_T_OUT in
      if (d_flags d0 =? VRING_DESC_F_NEXT) && (d_len d0 =? 16) &&
         (d_flags d1 =? if out then VRING_DESC_F_NEXT else VRING_DESC_F_NEXT + VRING_DESC_F_WRITE) &&
         (d_len d1 =? BSIZE) && (d_flags d2 =? VRING_DESC_F_WRITE) && (d_len d2 =? 1) &&
         (out || (r_type op =? VIRTIO_BLK_T_IN)) && (r_sector op mod 2 =? 0)
      then Some (Request out (r_sector op / 2) b j) else None
  | _, _, _ => None
  end.

(** The transfer of one block: what [virtio_disk_rw] is called for. *)
Definition transfer (write : bool) (n : Z) (b : nat) (bufs : list buf) (d : diskstate) : list buf * diskstate :=
  if write then
    match bufs !! b with
    | Some x => (bufs, d <| dk_blocks ::= <[n := b_data x]> |> <| dk_writes ::= cons (n, b_data x) |>)
    | None => (bufs, d)
    end
  else (alter (fun x => x <| b_data := dev_block d n |>) b bufs, d).

(** The device reads the next entry of the avail ring. *)
Definition dev_fetch (s : vstate) : option vstate :=
  if v_last s =? v_avail_idx (v_dk s) then None else
  h ← v_avail (v_dk s) !! Z.to_nat (v_last s mod Z.of_nat NUM);
  Some (s <| v_taken ::= fun l => l ++ [h] |> <| v_last := u16 (v_last s + 1) |>).

(** The device finishes one of the chains it works on, in any order: it transfers the data,
    writes the status and adds the chain to the used ring. *)
Definition dev_complete (k : nat) (s : vstate) : option vstate :=
  h ← v_taken s !! k;
  rq ← decode (v_dk s) h;
  let '(bufs, d) := transfer (rq_write rq) (rq_block rq) (rq_buf rq) (v_bufs s) (v_disk s) in
  Some (s <| v_taken ::= delete k |> <| v_bufs := bufs |> <| v_disk := d |>
    <| v_dk ::= fun x => x <| v_info ::= alter (fun y => (fst y, 0)) (rq_status rq) |>
         <| v_used ::= <[Z.to_nat (v_used_dev x mod Z.of_nat NUM) := h]> |>
         <| v_used_dev := u16 (v_used_dev x + 1) |> |>).

(** Or it finishes a chain with an error, a status other than 0 ([VIRTIO_BLK_S_IOERR] or
    [VIRTIO_BLK_S_UNSUPP]).  The target of the transfer, the buffer of a read or the block of a
    write, may then be left with anything in it: [rest]. *)
Definition spoil (write : bool) (n : Z) (b : nat) (rest : option (list Z)) (bufs : list buf) (d : diskstate)
    : list buf * diskstate :=
  match rest with
  | None => (bufs, d)
  | Some data =>
      if write then (bufs, d <| dk_blocks ::= <[n := data]> |> <| dk_writes ::= cons (n, data) |>)
      else (alter (fun x => x <| b_data := data |>) b bufs, d)
  end.

Definition dev_fail (k : nat) (st : Z) (rest : option (list Z)) (s : vstate) : option vstate :=
  h ← v_taken s !! k;
  rq ← decode (v_dk s) h;
  let '(bufs, d) := spoil (rq_write rq) (rq_block rq) (rq_buf rq) rest (v_bufs s) (v_disk s) in
  Some (s <| v_taken ::= delete k |> <| v_bufs := bufs |> <| v_disk := d |>
    <| v_dk ::= fun x => x <| v_info ::= alter (fun y => (fst y, st)) (rq_status rq) |>
         <| v_used ::= <[Z.to_nat (v_used_dev x mod Z.of_nat NUM) := h]> |>
         <| v_used_dev := u16 (v_used_dev x + 1) |> |>).

(** ** Initialisation

    [mmio r] is what the device answers when register [r] is read; the result is the driver's
    state and the writes to registers, in order. *)

Definition MMIO_MAGIC_VALUE : Z := 0.
Definition MMIO_VERSION : Z := 4.
Definition MMIO_DEVICE_ID : Z := 8.
Definition MMIO_VENDOR_ID : Z := 12.
Definition MMIO_DEVICE_FEATURES : Z := 16.
Definition MMIO_DRIVER_FEATURES : Z := 32.
Definition MMIO_GUEST_PAGE_SIZE : Z := 40.
Definition MMIO_QUEUE_SEL : Z := 48.
Definition MMIO_QUEUE_NUM_MAX : Z := 52.
Definition MMIO_QUEUE_NUM : Z := 56.
Definition MMIO_QUEUE_PFN : Z := 64.
Definition MMIO_STATUS : Z := 112.

(** The feature bits the driver refuses: RO, SCSI, CONFIG_WCE, MQ, ANY_LAYOUT, EVENT_IDX and
    INDIRECT_DESC. *)
Definition refused_features : list Z := [5; 7; 11; 12; 27; 29; 28].
Definition accept_features (features : Z) : Z :=
  foldl (fun acc bit => Z.land acc (u64 (Z.lnot (Z.shiftl 1 bit)))) features refused_features.

Definition vdisk0 : vdisk :=
  Vdisk (replicate NUM desc0) (replicate NUM O) 0 (replicate NUM O) 0 (replicate NUM true) 0
    (replicate NUM (None, 0)) (replicate NUM (Req 0 0 0)).

(** [pages] is the address of [disk.pages]. *)
Definition virtio_disk_init (mmio : Z -> Z) (pages : Z) : string + vdisk * list (Z * Z) :=
  if negb (mmio MMIO_MAGIC_VALUE =? 1953655158) || negb (mmio MMIO_VERSION =? 1) ||
     negb (mmio MMIO_DEVICE_ID =? 2) || negb (mmio MMIO_VENDOR_ID =? 1431127377)
  then inl "could not find virtio disk"%string else
  let max := u32 (mmio MMIO_QUEUE_NUM_MAX) in
  if max =? 0 then inl "virtio disk has no queue 0"%string else
  if max <? Z.of_nat NUM then inl "virtio disk max queue too short"%string else
  inr (vdisk0,
    [(MMIO_STATUS, 1); (MMIO_STATUS, 3);
     (MMIO_DRIVER_FEATURES, u32 (accept_features (mmio MMIO_DEVICE_FEATURES)));
     (MMIO_STATUS, 11); (MMIO_STATUS, 15); (MMIO_GUEST_PAGE_SIZE, PGSIZE); (MMIO_QUEUE_SEL, 0);
     (MMIO_QUEUE_NUM, Z.of_nat NUM); (MMIO_QUEUE_PFN, u32 (Z.shiftr pages PGSHIFT))]).

(** [n] threads that may use the disk, none of them in the driver. *)
Definition vboot (n : nat) (bufs : list buf) (d : diskstate) : vstate :=
  Vstate vdisk0 bufs d (replicate n Out) 0 [].
