(* ===== verification/VirtioFacts.v ===== *)
(** * The virtio driver implements an atomic disk

    For any device that follows the virtio specification, any number of callers and any
    interleaving of callers, device and interrupts: the driver panics only in the handler, and
    exactly when the device has reported an error; a call of [virtio_disk_rw] that returns has
    transferred its block exactly once between its call and its return (the contract that
    Bio.v relies on); and with a device that reports no errors the driver does not deadlock. *)

From stdpp Require Import base numbers list gmap strings.
From S2P Require Import Prelude Ring Mem Types Kernel Sched Bio Virtio.

(** ** The rings of the virtqueue: [NUM] entries and 16-bit counters *)

Definition queue_of (ring : list nat) (lo hi : Z) : list nat := ring_queue NUM (2 ^ 16) ring lo hi.

Lemma queue_of_nil ring lo : queue_of ring lo lo = [].
Proof. apply ring_queue_nil. Qed.

Lemma queue_of_push ring lo hi x :
  length ring = NUM -> (length (queue_of ring lo hi) < NUM)%nat ->
  queue_of (<[Z.to_nat (hi mod Z.of_nat NUM) := x]> ring) lo (u16 (hi + 1)) = queue_of ring lo hi ++ [x].
Proof. apply ring_push; [unfold NUM; lia|by exists (2 ^ 13)|done]. Qed.

Lemma queue_of_pop ring lo hi :
  0 <= lo < 2 ^ 16 -> 0 <= hi < 2 ^ 16 -> lo <> hi ->
  queue_of ring lo hi = ring !!! Z.to_nat (lo mod Z.of_nat NUM) :: queue_of ring (u16 (lo + 1)) hi.
Proof. apply ring_pop; [unfold NUM; lia|by exists (2 ^ 13)|done]. Qed.

(** ** The invariant *)

Definition idxs (c : caller) : list nat :=
  match c with Wait_done _ _ i0 i1 i2 _ => [i0; i1; i2] | _ => [] end.
Definition buf_of (c : caller) : list nat :=
  match c with Out => [] | Wait_desc b _ _ | Wait_done b _ _ _ _ _ => [b] end.

(** The descriptors of the requests in flight, and the buffers of the threads in the driver. *)
Definition owned (ths : list caller) : list nat := ths ≫= idxs.
Definition busy_bufs (ths : list caller) : list nat := ths ≫= buf_of.

(** Requests the device has not seen, and those it has completed and the handler has not seen. *)
Definition avail_q (s : vstate) : list nat := queue_of (v_avail (v_dk s)) (v_last s) (v_avail_idx (v_dk s)).
Definition used_q (s : vstate) : list nat := queue_of (v_used (v_dk s)) (v_used_idx (v_dk s)) (v_used_dev (v_dk s)).
Definition queue (s : vstate) : list nat := avail_q s ++ v_taken s ++ used_q s.

(** The descriptors describe the request [b, write] for block [n]. *)
Record formatted (d : vdisk) (b : nat) (w : bool) (n : Z) (i0 i1 i2 : nat) : Prop := {
  fm_op : v_ops d !! i0 = Some (Req (if w then VIRTIO_BLK_T_OUT else VIRTIO_BLK_T_IN) 0 (sector_of n));
  fm_d0 : v_desc d !! i0 = Some (Desc (Some (Dma_op i0)) 16 VRING_DESC_F_NEXT i1);
  fm_d1 : v_desc d !! i1 = Some (Desc (Some (Dma_data b)) BSIZE
    (Z.lor (if w then 0 else VRING_DESC_F_WRITE) VRING_DESC_F_NEXT) i2);
  fm_d2 : v_desc d !! i2 = Some (Desc (Some (Dma_status i0)) 1 VRING_DESC_F_WRITE 0) }.

Definition on_disk (x : buf) : Prop := 0 <= b_blockno x < 2 ^ 31.

Definition caller_ok (d : vdisk) (bufs : list buf) (q : list nat) (busy : Prop) (c : caller) : Prop :=
  match c with
  | Out => True
  | Wait_desc b w a => (exists x, bufs !! b = Some x /\ on_disk x) /\ (a = false -> busy)
  | Wait_done b w i0 i1 i2 a =>
      exists x st, bufs !! b = Some x /\ on_disk x /\ formatted d b w (b_blockno x) i0 i1 i2 /\
        v_info d !! i0 = Some (Some b, st) /\ (b_disk x = true <-> i0 ∈ q) /\
        (a = false -> b_disk x = true)
  end.

Definition u16_ok (x : Z) : Prop := 0 <= x < 2 ^ 16.

Record sizes_ok (d : vdisk) : Prop := {
  sz_desc : length (v_desc d) = NUM; sz_avail : length (v_avail d) = NUM; sz_used : length (v_used d) = NUM;
  sz_free : length (v_free d) = NUM; sz_info : length (v_info d) = NUM; sz_ops : length (v_ops d) = NUM;
  sz_avail_idx : u16_ok (v_avail_idx d); sz_used_idx : u16_ok (v_used_idx d); sz_used_dev : u16_ok (v_used_dev d) }.

Record inv (s : vstate) : Prop := {
  in_sizes : sizes_ok (v_dk s);
  in_last : u16_ok (v_last s);
  in_owned : NoDup (owned (v_threads s));
  in_free : forall i, v_free (v_dk s) !! i = Some false <-> i ∈ owned (v_threads s);
  in_bufs : NoDup (busy_bufs (v_threads s));
  in_queue : NoDup (queue s);
  in_heads : forall h, h ∈ queue s -> exists b w i1 i2 a, Wait_done b w h i1 i2 a ∈ v_threads s;
  in_callers : forall c, c ∈ v_threads s ->
    caller_ok (v_dk s) (v_bufs s) (queue s) (owned (v_threads s) <> []) c }.

(** What a step leaves of the facts about a caller it does not concern. *)
Lemma caller_ok_ext d d' bufs bufs' q q' (busy busy' : Prop) c :
  caller_ok d bufs q busy c ->
  (forall i, i ∈ idxs c -> v_desc d' !! i = v_desc d !! i /\ v_ops d' !! i = v_ops d !! i /\ v_info d' !! i = v_info d !! i) ->
  (forall b, b ∈ buf_of c -> bufs' !! b = bufs !! b) ->
  (forall i, i ∈ idxs c -> i ∈ q' <-> i ∈ q) -> (busy -> busy') ->
  caller_ok d' bufs' q' busy' c.
Proof.
  intros H Hd Hb Hq Hbusy. destruct c as [|b w a|b w i0 i1 i2 a]; [done| |].
  - destruct H as [(x & Hx & Hon) Ha]. split; [|tauto]. exists x. rewrite Hb by (cbn; set_solver). done.
  - destruct H as (x & st & Hx & Hon & [F1 F2 F3 F4] & Hi & Hdk & Ha).
    destruct (Hd i0) as (D0 & O0 & I0); [cbn; set_solver|]. destruct (Hd i1) as (D1 & _ & _); [cbn; set_solver|].
    destruct (Hd i2) as (D2 & _ & _); [cbn; set_solver|]. pose proof (Hq i0 ltac:(cbn; set_solver)) as Q0.
    exists x, st. rewrite Hb by (cbn; set_solver). rewrite I0, Q0. split_and!; try done.
    split; congruence.
Qed.

(** ** Replacing one thread *)

Lemma delete_insert_same {A} (l : list A) t c : delete t (<[t := c]> l) = delete t l.
Proof. revert t. induction l as [|x l IH]; intros [|t]; cbn; [done..|]. by f_equal. Qed.

Lemma in_insert {A} (l : list A) t c0 c c' : l !! t = Some c0 -> c' ∈ <[t := c]> l <-> c' = c \/ c' ∈ delete t l.
Proof.
  intros Ht. assert (<[t := c]> l !! t = Some c) as Hc by (apply list_lookup_insert_eq; by eapply lookup_lt_Some).
  rewrite (delete_Permutation _ _ _ Hc), delete_insert_same. by rewrite elem_of_cons.
Qed.

Lemma in_delete {A} (l : list A) t c0 c' : l !! t = Some c0 -> c' ∈ l <-> c' = c0 \/ c' ∈ delete t l.
Proof. intros Ht. rewrite (delete_Permutation _ _ _ Ht) at 1. by rewrite elem_of_cons. Qed.

Section Replace.
Context {B : Type} (g : caller -> list B).

Lemma bind_delete ths t c0 : ths !! t = Some c0 -> ths ≫= g ≡ₚ g c0 ++ (delete t ths ≫= g).
Proof. intros Ht. by rewrite (delete_Permutation _ _ _ Ht) at 1. Qed.

Lemma bind_insert ths t c0 c : ths !! t = Some c0 -> <[t := c]> ths ≫= g ≡ₚ g c ++ (delete t ths ≫= g).
Proof.
  intros Ht. rewrite (bind_delete _ t c) by (apply list_lookup_insert_eq; by eapply lookup_lt_Some).
  by rewrite delete_insert_same.
Qed.

Lemma bind_same ths t c0 c : ths !! t = Some c0 -> g c = g c0 -> <[t := c]> ths ≫= g ≡ₚ ths ≫= g.
Proof. intros Ht Hg. by rewrite (bind_insert _ _ _ _ Ht), (bind_delete _ _ _ Ht), Hg. Qed.
End Replace.

(** ** The specification: a disk whose transfers are atomic

    A call is between its call and its transfer ([A_in]) or between its transfer and its return
    ([A_done]); or its transfer has failed ([A_failed]), and then it never returns.  [b_disk]
    belongs to the driver and is not part of the specification. *)

Inductive acaller := A_out | A_in (b : nat) (w : bool) | A_done (b : nat) (w : bool) | A_failed (b : nat) (w : bool).
Record astate := AState { a_bufs : list buf; a_disk : diskstate; a_threads : list acaller }.

Definition a_uses (b : nat) (c : acaller) : Prop := 
  match c with A_out => False | A_in b' _ | A_done b' _ | A_failed b' _ => b' = b end.

Inductive astep : astate -> astate -> Prop :=
| a_call bufs d ths t b w :
    ths !! t = Some A_out -> (b < length bufs)%nat ->
    astep (AState bufs d ths) (AState bufs d (<[t := A_in b w]> ths))
| a_transfer bufs d ths t b w x bufs' d' :
    ths !! t = Some (A_in b w) -> bufs !! b = Some x -> transfer w (b_blockno x) b bufs d = (bufs', d') ->
    astep (AState bufs d ths) (AState bufs' d' (<[t := A_done b w]> ths))
| a_fail bufs d ths t b w x rest bufs' d' :
    ths !! t = Some (A_in b w) -> bufs !! b = Some x -> spoil w (b_blockno x) b rest bufs d = (bufs', d') ->
    astep (AState bufs d ths) (AState bufs' d' (<[t := A_failed b w]> ths))
| a_return bufs d ths t b w :
    ths !! t = Some (A_done b w) -> astep (AState bufs d ths) (AState bufs d (<[t := A_out]> ths))
| a_edit bufs d ths b n data :
    Forall (fun c => ~ a_uses b c) ths ->
    astep (AState bufs d ths)
      (AState (alter (fun x => x <| b_blockno := n |> <| b_data := data |>) b bufs) d ths).

Definition erase (x : buf) : buf := x <| b_disk := false |>.

Definition abs_caller (waiting failed : list nat) (c : caller) : acaller :=
  match c with
  | Out => A_out
  | Wait_desc b w _ => A_in b w
  | Wait_done b w i0 _ _ _ =>
      if bool_decide (i0 ∈ waiting) then A_in b w else if bool_decide (i0 ∈ failed) then A_failed b w else A_done b w
  end.

Definition waiting (s : vstate) : list nat := avail_q s ++ v_taken s.

(** The requests the device has given up and the handler has not seen. *)
Definition error_status (d : vdisk) (h : nat) : bool :=
  match v_info d !! h with Some inf => negb (snd inf =? 0) | None => false end.
Definition failed (s : vstate) : list nat := List.filter (error_status (v_dk s)) (used_q s).

Definition abs (s : vstate) : astate :=
  AState (erase <$> v_bufs s) (v_disk s) (abs_caller (waiting s) (failed s) <$> v_threads s).

Lemma elem_failed s h : h ∈ failed s <-> h ∈ used_q s /\ error_status (v_dk s) h = true.
Proof. unfold failed. rewrite !list_elem_of_In. apply filter_In. Qed.

(** Only the statuses of completed requests count. *)
Lemma failed_ext s s' :
  used_q s' = used_q s -> (forall h, h ∈ used_q s -> error_status (v_dk s') h = error_status (v_dk s) h) ->
  failed s' = failed s.
Proof. unfold failed. intros -> H. apply filter_ext_in. intros h Hh. by apply H, list_elem_of_In. Qed.

(** A step of the driver keeps the invariant and the failed requests, and is either a step of
    the specification or invisible to it. *)
Definition good_step (s s' : vstate) : Prop :=
  inv s' /\ failed s' = failed s /\ (abs s' = abs s \/ astep (abs s) (abs s')).

(** ** Steps that change little *)

(** Descriptors of no request may be written. *)
Lemma inv_desc s ds :
  inv s -> length ds = NUM -> (forall i, i ∈ owned (v_threads s) -> ds !! i = v_desc (v_dk s) !! i) ->
  inv (s <| v_dk ::= fun d => d <| v_desc := ds |> |>).
Proof.
  intros [[] H2 H3 H4 H5 H6 H7 H8] Hl Hds. split; try done.
  intros c Hc. eapply caller_ok_ext; [by apply H8| | |done|done].
  - intros i Hi. split_and!; [|done..]. apply Hds. unfold owned. apply list_elem_of_bind. eauto.
  - done.
Qed.

(** Threads may be made runnable. *)
Definition woken (c c' : caller) : Prop := c' = c \/ c' = awaken c.

Lemma woken_facts c c' : woken c c' ->
  idxs c' = idxs c /\ buf_of c' = buf_of c /\ (forall w f, abs_caller w f c' = abs_caller w f c) /\
  forall d bufs q busy, caller_ok d bufs q busy c -> caller_ok d bufs q busy c'.
Proof.
  intros [->| ->]; [done|]. destruct c; split_and!; try done; cbn; naive_solver.
Qed.

Lemma woken_bind {B} (g : caller -> list B) ths ths' :
  (forall c c', woken c c' -> g c' = g c) -> Forall2 woken ths ths' -> ths' ≫= g = ths ≫= g.
Proof. intros Hg. induction 1 as [|c c' ths ths' Hc _ IH]; [done|]. cbn. by rewrite (Hg _ _ Hc), IH. Qed.

Lemma woken_owned ths ths' : Forall2 woken ths ths' -> owned ths' = owned ths.
Proof. apply woken_bind. intros c c' H. by apply woken_facts in H as (? & _). Qed.

Lemma inv_woken s ths :
  inv s -> Forall2 woken (v_threads s) ths ->
  inv (s <| v_threads := ths |>) /\ abs (s <| v_threads := ths |>) = abs s.
Proof.
  intros [H1 H2 H3 H4 H5 H6 H7 H8] Hw. pose proof (woken_owned _ _ Hw) as Ho.
  assert (busy_bufs ths = busy_bufs (v_threads s)) as Hb.
  { apply woken_bind; [|done]. intros c c' H. by apply woken_facts in H as (_ & ? & _). }
  split; [split; cbn [v_threads upd eta_vstate]; rewrite ?Ho, ?Hb; try done|].
  - intros h Hh. destruct (H7 h Hh) as (b & w & i1 & i2 & a & Hc). apply list_elem_of_lookup in Hc as [t Ht].
    destruct (Forall2_lookup_l _ _ _ _ _ Hw Ht) as (c' & Ht' & [->| ->]); apply list_elem_of_lookup_2 in Ht'; eauto 10.
  - intros c' Hc'. apply list_elem_of_lookup in Hc' as [t Ht].
    destruct (Forall2_lookup_r _ _ _ _ _ Hw Ht) as (c & Ht' & Hcc). apply woken_facts in Hcc as (_ & _ & _ & Hcc).
    by apply Hcc, H8, list_elem_of_lookup_2 with t.
  - unfold abs. f_equal. cbn [v_threads upd eta_vstate]. clear -Hw.
    change (waiting (s <| v_threads := ths |>)) with (waiting s). change (failed (s <| v_threads := ths |>)) with (failed s).
    induction Hw as [|c c' l l' Hc _ IH]; [done|]. apply woken_facts in Hc as (_ & _ & Ha & _). cbn. by rewrite Ha, IH.
Qed.

(** One thread changes without taking or giving back descriptors. *)
Lemma inv_thread s t c0 c :
  inv s -> v_threads s !! t = Some c0 -> idxs c = idxs c0 ->
  (buf_of c = buf_of c0 \/ forall b, b ∈ buf_of c -> b ∉ busy_bufs (v_threads s)) ->
  caller_ok (v_dk s) (v_bufs s) (queue s) (owned (v_threads s) <> []) c ->
  inv (s <| v_threads ::= <[t := c]> |>).
Proof.
  intros [H1 H2 H3 H4 H5 H6 H7 H8] Ht Hi Hb Hc. pose proof (bind_same idxs _ _ _ _ Ht Hi) as Ho.
  assert (forall i, i ∈ owned (<[t := c]> (v_threads s)) <-> i ∈ owned (v_threads s)) as Hin
    by (intros i; unfold owned; by rewrite Ho).
  split; cbn [v_threads upd eta_vstate]; try done.
  - unfold owned. by rewrite Ho.
  - intros i. by rewrite Hin.
  - unfold busy_bufs in *. destruct Hb as [Hb|Hb]; [by rewrite (bind_same buf_of _ _ _ _ Ht Hb)|].
    rewrite (bind_insert buf_of _ _ _ _ Ht). pose proof (bind_delete buf_of _ _ _ Ht) as Hd.
    assert (NoDup (delete t (v_threads s) ≫= buf_of)) as Hnd by (rewrite Hd in H5; by apply NoDup_app in H5 as (_ & _ & ?)).
    apply NoDup_app. split_and!; [by destruct c; repeat constructor; set_solver| |done].
    intros b Hbc Hbd. apply (Hb b Hbc). rewrite Hd. set_solver.
  - intros h Hh. destruct (H7 h Hh) as (b & w & i1 & i2 & a & Hx).
    apply (in_delete _ _ _ _ Ht) in Hx as [<-|Hx].
    + destruct c as [| |b' w' j0 j1 j2 a']; try done. cbn in Hi. simplify_eq.
      exists b', w', i1, i2, a'. apply (in_insert _ _ _ _ _ Ht). by left.
    + exists b, w, i1, i2, a. apply (in_insert _ _ _ _ _ Ht). by right.
  - intros c' Hc'. assert (owned (v_threads s) <> [] -> owned (<[t := c]> (v_threads s)) <> []) as Hne.
    { intros H E. apply H. unfold owned in *. rewrite E in Ho. by apply Permutation_nil_l in Ho. }
    apply (in_insert _ _ _ _ _ Ht) in Hc' as [->|Hc'].
    + eapply caller_ok_ext; done.
    + eapply caller_ok_ext; [apply H8, (in_delete _ _ _ _ Ht); by right|done..].
Qed.

(** ** Allocation of descriptors *)

Lemma first_free_some fr i : first_free fr = Some i -> fr !! i = Some true.
Proof.
  revert i. induction fr as [|[] fr IH]; intros i H; cbn in H; simplify_eq; [done|].
  destruct (first_free fr) as [j|]; [|done]. cbn in H. simplify_eq. by apply IH.
Qed.

Lemma first_free_none fr i b : first_free fr = None -> fr !! i = Some b -> b = false.
Proof.
  revert i. induction fr as [|[] fr IH]; intros i H Hi; cbn in H; simplify_eq.
  destruct (first_free fr) as [j|]; [done|]. destruct i; cbn in Hi; simplify_eq; [done|]. by eapply IH.
Qed.

Definition take_desc (i : nat) (s : vstate) : vstate := s <| v_dk ::= fun d => d <| v_free ::= <[i := false]> |> |>.
Definition give_desc (i : nat) (s : vstate) : vstate :=
  s <| v_dk ::= fun d => d <| v_desc ::= <[i := desc0]> |> <| v_free ::= <[i := true]> |> |>
    <| v_threads ::= fmap (wake Chan_free) |>.

Lemma alloc_desc_run s :
  alloc_desc s = match first_free (v_free (v_dk s)) with
                 | Some i => VOk (Some i) (take_desc i s)
                 | None => VOk None s
                 end.
Proof. unfold alloc_desc, mbind, V_bind, vget. by destruct (first_free _). Qed.

Lemma free_desc_run s i : (i < NUM)%nat -> v_free (v_dk s) !! i = Some false -> free_desc i s = VOk tt (give_desc i s).
Proof.
  intros Hi Hf. unfold free_desc. rewrite (proj2 (Nat.leb_gt _ _)) by done.
  unfold mbind, V_bind, vat. by rewrite Hf.
Qed.

Lemma V_bind_ok {A B} (c : V A) (k : A -> V B) s a s' : c s = VOk a s' -> (c ≫= k) s = k a s'.
Proof. intros H. unfold mbind, V_bind. by rewrite H. Qed.

Ltac vstep H := rewrite (V_bind_ok _ _ _ _ _ H); cbn beta iota.

Lemma wake_woken ch c : woken c (wake ch c).
Proof.
  destruct ch as [|b'], c as [|b w a|b w i0 i1 i2 a]; cbn; try (by left); try (by right).
  destruct a, (b =? b')%nat; cbn; try (by left); by right.
Qed.

Lemma wakes_woken ch ths : Forall2 woken ths (wake ch <$> ths).
Proof. apply Forall2_fmap_r, Forall_Forall2_diag, Forall_true. apply wake_woken. Qed.

Lemma woken_trans c1 c2 c3 : woken c1 c2 -> woken c2 c3 -> woken c1 c3.
Proof. intros [->| ->] [->| ->]; [by left|by right|by right|right]. by destruct c1. Qed.

(** The failing [alloc3_desc] restores [free]; it has scribbled over unused descriptors and
    woken the threads that wait for descriptors. *)
Definition scribbled (s s' : vstate) : Prop :=
  exists ds ths, s' = s <| v_dk ::= fun d => d <| v_desc := ds |> |> <| v_threads := ths |> /\
    length ds = length (v_desc (v_dk s)) /\ (forall i, v_free (v_dk s) !! i = Some false -> ds !! i = v_desc (v_dk s) !! i) /\
    Forall2 woken (v_threads s) ths.

Lemma scribbled_refl s : scribbled s s.
Proof.
  exists (v_desc (v_dk s)), (v_threads s). split_and!; [|done..|]; [by destruct s as [[]]|].
  apply Forall_Forall2_diag, Forall_true. by left.
Qed.

Lemma scribbled_trans s1 s2 s3 : scribbled s1 s2 -> scribbled s2 s3 -> scribbled s1 s3.
Proof.
  intros (ds & ths & -> & Hl & Hd & Hw) (ds' & ths' & -> & Hl' & Hd' & Hw'). cbn in Hl', Hd', Hw'.
  exists ds', ths'. split_and!; [done|congruence| |].
  - intros i Hi. by rewrite Hd', Hd.
  - eapply Forall2_trans; [apply woken_trans|done..].
Qed.

Lemma scribbled_inv s s' : inv s -> scribbled s s' -> inv s' /\ failed s' = failed s /\ abs s' = abs s.
Proof.
  intros Hi (ds & ths & -> & Hl & Hd & Hw). destruct Hi as [H1 H2 H3 H4 H5 H6 H7 H8].
  assert (inv (s <| v_dk ::= fun d => d <| v_desc := ds |> |>)) as Hi'.
  { apply inv_desc; [done|by rewrite Hl; apply sz_desc|]. intros i Hx. by apply Hd, H4. }
  destruct (inv_woken _ ths Hi' Hw) as [H Ha]. done.
Qed.

Lemma give_take i s : v_free (v_dk s) !! i = Some true -> scribbled s (give_desc i (take_desc i s)).
Proof.
  intros Hf. exists (<[i := desc0]> (v_desc (v_dk s))), (wake Chan_free <$> v_threads s). split_and!.
  - unfold give_desc, take_desc. destruct s as [[ds av ai us ud fr ui inf ops] bufs dk ths la tk]. cbv [upd]. cbn in *.
    by rewrite list_insert_insert_eq, (list_insert_id fr).
  - by rewrite length_insert.
  - intros j Hj. rewrite list_lookup_insert_ne; [done|]. intros ->. congruence.
  - apply wakes_woken.
Qed.

Lemma give_take_comm i j s : i <> j -> give_desc i (take_desc j (take_desc i s)) = take_desc j (give_desc i (take_desc i s)).
Proof.
  intros Hne. unfold give_desc, take_desc. destruct s as [[ds av ai us ud fr ui inf ops] bufs dk ths la tk].
  cbv [upd]. cbn. by rewrite (list_insert_insert_ne _ i j).
Qed.

Lemma take_free i j s b : i <> j -> v_free (v_dk (take_desc i s)) !! j = Some b <-> v_free (v_dk s) !! j = Some b.
Proof. intros Hne. cbn. by rewrite list_lookup_insert_ne. Qed.

(** With at most two descriptors free, one is in use. *)
Lemma some_taken (fr : list bool) (l : list nat) :
  length fr = NUM -> (length l <= 2)%nat -> (forall j b, j ∉ l -> fr !! j = Some b -> b = false) ->
  exists j, fr !! j = Some false.
Proof.
  intros Hl Hn H. assert (exists j, j ∈ seq 0 3 /\ j ∉ l) as (j & Hj & Hjl).
  { destruct (decide (Exists (fun j => j ∉ l) (seq 0 3))) as [He|He]; [by apply Exists_exists in He|exfalso].
    assert (seq 0 3 ⊆+ l) as Hs%submseteq_length; [|rewrite length_seq in Hs; lia].
    apply NoDup_submseteq; [apply NoDup_seq|]. intros j Hj. apply not_Exists_Forall in He; [|apply _].
    rewrite Forall_forall in He. specialize (He j Hj). by apply dec_stable in He. }
  apply elem_of_seq in Hj. destruct (lookup_lt_is_Some_2 fr j) as [b Hb]; [unfold NUM in Hl; lia|].
  exists j. by rewrite Hb, (H j b).
Qed.

Lemma alloc3_spec s :
  length (v_free (v_dk s)) = NUM ->
  (exists i0 i1 i2, alloc3_desc s = VOk (Some (i0, i1, i2)) (take_desc i2 (take_desc i1 (take_desc i0 s))) /\
     NoDup [i0; i1; i2] /\ forall i, i ∈ [i0; i1; i2] -> v_free (v_dk s) !! i = Some true) \/
  (exists s', alloc3_desc s = VOk None s' /\ scribbled s s' /\ exists i, v_free (v_dk s) !! i = Some false).
Proof.
  intros Hlen. unfold alloc3_desc. pose proof (alloc_desc_run s) as A0.
  destruct (first_free (v_free (v_dk s))) as [i0|] eqn:E0.
  2:{ right. exists s. split_and!; [by vstep A0|apply scribbled_refl|]. apply (some_taken _ []); [done|cbn; lia|].
      intros j b _. by apply first_free_none. }
  pose proof (first_free_some _ _ E0) as F0. assert (i0 < NUM)%nat as L0 by (rewrite <- Hlen; by eapply lookup_lt_Some).
  pose proof (alloc_desc_run (take_desc i0 s)) as A1.
  destruct (first_free (v_free (v_dk (take_desc i0 s)))) as [i1|] eqn:E1.
  2:{ right. exists (give_desc i0 (take_desc i0 s)). split_and!; [|by apply give_take|].
      - vstep A0. vstep A1. vstep (free_desc_run (take_desc i0 s) i0 L0 ltac:(cbn; apply list_lookup_insert_eq; by rewrite Hlen)). done.
      - apply (some_taken _ [i0]); [done|cbn; lia|]. intros j b Hj Hb. apply (first_free_none _ j b E1), take_free; [set_solver|done]. }
  pose proof (first_free_some _ _ E1) as F1.
  assert (i0 <> i1) as N01. { intros <-. cbn in F1. rewrite list_lookup_insert_eq in F1; [done|by rewrite Hlen]. }
  apply take_free in F1; [|done]. assert (i1 < NUM)%nat as L1 by (rewrite <- Hlen; by eapply lookup_lt_Some).
  pose proof (alloc_desc_run (take_desc i1 (take_desc i0 s))) as A2.
  destruct (first_free (v_free (v_dk (take_desc i1 (take_desc i0 s))))) as [i2|] eqn:E2.
  - left. exists i0, i1, i2. split; [vstep A0; vstep A1; by vstep A2|]. pose proof (first_free_some _ _ E2) as F2.
    assert (i1 <> i2) as N12. { intros <-. cbn in F2. rewrite list_lookup_insert_eq in F2; [done|by rewrite length_insert, Hlen]. }
    apply take_free in F2; [|done].
    assert (i0 <> i2) as N02. { intros <-. cbn in F2. rewrite list_lookup_insert_eq in F2; [done|by rewrite Hlen]. }
    apply take_free in F2; [|done]. split; [repeat constructor; set_solver|set_solver].
  - right. exists (give_desc i1 (take_desc i1 (give_desc i0 (take_desc i0 s)))). split_and!.
    + vstep A0. vstep A1. vstep A2. vstep (free_desc_run (take_desc i1 (take_desc i0 s)) i0 L0 ltac:(apply take_free; [done|cbn; apply list_lookup_insert_eq; by rewrite Hlen])).
      rewrite (give_take_comm i0 i1) by done.
      vstep (free_desc_run (take_desc i1 (give_desc i0 (take_desc i0 s))) i1 L1 ltac:(cbn; apply list_lookup_insert_eq; by rewrite !length_insert, Hlen)).
      done.
    + apply (scribbled_trans _ (give_desc i0 (take_desc i0 s))); [by apply give_take|]. apply give_take. cbn. by rewrite !list_lookup_insert_ne.
    + apply (some_taken _ [i0; i1]); [done|cbn; lia|]. intros j b Hj Hb.
      apply (first_free_none _ j b E2). rewrite !take_free by set_solver. done.
Qed.

(** ** Consequences of the invariant *)

Section Facts.
Context (s : vstate) (Hs : inv s).

Lemma owned_lt i : i ∈ owned (v_threads s) -> (i < NUM)%nat.
Proof.
  intros Hi. apply (in_free s Hs) in Hi. rewrite <- (sz_free _ (in_sizes s Hs)). by eapply lookup_lt_Some.
Qed.

Lemma owned_by c i : c ∈ v_threads s -> i ∈ idxs c -> i ∈ owned (v_threads s).
Proof. intros Hc Hi. unfold owned. apply list_elem_of_bind. eauto. Qed.

Lemma queue_owned h : h ∈ queue s -> h ∈ owned (v_threads s).
Proof.
  intros Hh. destruct (in_heads s Hs h Hh) as (b & w & i1 & i2 & a & Hc). apply (owned_by _ h Hc). cbn. set_solver.
Qed.

Lemma queue_length : (length (queue s) <= NUM)%nat.
Proof.
  rewrite <- (length_seq NUM 0). apply submseteq_length, NoDup_submseteq; [apply (in_queue s Hs)|].
  intros h Hh. apply elem_of_seq. pose proof (owned_lt h (queue_owned h Hh)). lia.
Qed.

Lemma queue_short i : (i < NUM)%nat -> i ∉ owned (v_threads s) -> (length (queue s) < NUM)%nat.
Proof.
  intros Hi Hno. change (length (i :: queue s) <= NUM)%nat. rewrite <- (length_seq NUM 0).
  apply submseteq_length, NoDup_submseteq.
  - constructor; [|apply (in_queue s Hs)]. intros Hq. by apply Hno, queue_owned.
  - intros h Hh. apply elem_of_seq. apply elem_of_cons in Hh as [->|Hh]; [lia|]. pose proof (owned_lt h (queue_owned h Hh)). lia.
Qed.

Lemma free_not_owned i : v_free (v_dk s) !! i = Some true -> (i < NUM)%nat /\ i ∉ owned (v_threads s).
Proof.
  intros Hf. split; [rewrite <- (sz_free _ (in_sizes s Hs)); by eapply lookup_lt_Some|].
  intros Ho. apply (in_free s Hs) in Ho. congruence.
Qed.

(** The indices of one thread are distinct, and no other thread has them. *)
Lemma thread_split t c : v_threads s !! t = Some c ->
  NoDup (idxs c) /\ forall c' i, c' ∈ delete t (v_threads s) -> i ∈ idxs c -> i ∉ idxs c'.
Proof.
  intros Ht. pose proof (in_owned s Hs) as Hnd. unfold owned in Hnd. rewrite (bind_delete idxs _ _ _ Ht) in Hnd.
  apply NoDup_app in Hnd as (H1 & H2 & _). split; [done|]. intros c' i Hc' Hi Hi'. apply (H2 i Hi). apply list_elem_of_bind. eauto.
Qed.

Lemma buf_split t c : v_threads s !! t = Some c -> forall c' b, c' ∈ delete t (v_threads s) -> b ∈ buf_of c -> b ∉ buf_of c'.
Proof.
  intros Ht. pose proof (in_bufs s Hs) as Hnd. unfold busy_bufs in Hnd. rewrite (bind_delete buf_of _ _ _ Ht) in Hnd.
  apply NoDup_app in Hnd as (_ & H2 & _). intros c' b Hc' Hb Hb'. apply (H2 b Hb). apply list_elem_of_bind. eauto.
Qed.
End Facts.

Lemma erase_alter (g : buf -> buf) (b : nat) (bufs : list buf) : (forall x, erase (g x) = erase x) -> erase <$> alter g b bufs = erase <$> bufs.
Proof.
  intros Hg. apply list_eq. intros i. rewrite !list_lookup_fmap. destruct (decide (i = b)) as [->|Hne].
  - rewrite list_lookup_alter_eq. destruct (bufs !! b); cbn; [by rewrite Hg|done].
  - by rewrite list_lookup_alter_ne.
Qed.

Lemma abs_callers_ext w w' f f' (ths : list caller) :
  (forall c i, c ∈ ths -> i ∈ idxs c -> i ∈ w' <-> i ∈ w) -> f' = f -> abs_caller w' f' <$> ths = abs_caller w f <$> ths.
Proof.
  intros H ->. apply list_fmap_ext. intros t c Ht. apply list_elem_of_lookup_2 in Ht.
  destruct c as [| |b x i0 i1 i2 a]; try done. cbn.
  by rewrite (bool_decide_ext (i0 ∈ w') (i0 ∈ w)) by (apply (H _ i0 Ht); cbn; set_solver).
Qed.

(** ** Submission of a request *)

(** The driver's structures after [rw_submit] of three descriptors that were free. *)
Definition submitted (b : nat) (w : bool) (n : Z) (i0 i1 i2 : nat) (d : vdisk) : vdisk :=
  Vdisk
    (<[i2 := Desc (Some (Dma_status i0)) 1 VRING_DESC_F_WRITE 0]>
      (<[i1 := Desc (Some (Dma_data b)) BSIZE (Z.lor (if w then 0 else VRING_DESC_F_WRITE) VRING_DESC_F_NEXT) i2]>
        (<[i0 := Desc (Some (Dma_op i0)) 16 VRING_DESC_F_NEXT i1]> (v_desc d))))
    (<[Z.to_nat (v_avail_idx d mod Z.of_nat NUM) := i0]> (v_avail d)) (u16 (v_avail_idx d + 1))
    (v_used d) (v_used_dev d)
    (<[i2 := false]> (<[i1 := false]> (<[i0 := false]> (v_free d))))
    (v_used_idx d)
    (alter (fun x => (Some b, snd x)) i0 (alter (fun x => (fst x, 255)) i0 (v_info d)))
    (<[i0 := Req (if w then VIRTIO_BLK_T_OUT else VIRTIO_BLK_T_IN) 0 (sector_of n)]> (v_ops d)).

Definition submit (t b : nat) (w : bool) (n : Z) (i0 i1 i2 : nat) (s : vstate) : vstate :=
  s <| v_dk ::= submitted b w n i0 i1 i2 |>
    <| v_bufs ::= alter (fun x => x <| b_disk := true |>) b |>
    <| v_threads ::= <[t := Wait_done b w i0 i1 i2 false]> |>.

Lemma rw_try_submits t b w s x i0 i1 i2 :
  v_bufs s !! b = Some x ->
  alloc3_desc s = VOk (Some (i0, i1, i2)) (take_desc i2 (take_desc i1 (take_desc i0 s))) ->
  rw_try t b w s = VOk tt (submit t b w (b_blockno x) i0 i1 i2 s).
Proof.
  intros Hx Ha. unfold rw_try. unfold mbind at 1, V_bind at 1, vat. rewrite Hx.
  vstep Ha. destruct s as [[] ]. reflexivity.
Qed.

Lemma take_false (fr : list bool) i j :
  (j < length fr)%nat -> <[j := false]> fr !! i = Some false <-> i = j \/ fr !! i = Some false.
Proof.
  intros Hj. destruct (decide (i = j)) as [->|Hne]; [rewrite list_lookup_insert_eq by done; tauto|].
  rewrite list_lookup_insert_ne by done. tauto.
Qed.

Section Submit.
Context (s : vstate) (t b : nat) (w : bool) (c0 : caller) (x : buf) (i0 i1 i2 : nat).
Context (Hs : inv s) (Ht : v_threads s !! t = Some c0) (Hc0 : idxs c0 = []).
Context (Hb : buf_of c0 = [b] \/ b ∉ busy_bufs (v_threads s)) (Hx : v_bufs s !! b = Some x) (Hon : on_disk x).
Context (Hnd : NoDup [i0; i1; i2]) (Hfree : forall i, i ∈ [i0; i1; i2] -> v_free (v_dk s) !! i = Some true).

Let s' := submit t b w (b_blockno x) i0 i1 i2 s.

Lemma submit_avail_q : avail_q s' = avail_q s ++ [i0].
Proof.
  destruct (free_not_owned s Hs i0) as [Hlt Hno]; [apply Hfree; set_solver|].
  apply queue_of_push; [apply sz_avail, in_sizes, Hs|].
  pose proof (queue_short s Hs i0 Hlt Hno) as Hq. unfold queue in Hq. rewrite !length_app in Hq. change (length (avail_q s) < NUM)%nat. lia.
Qed.

Lemma submit_queue i : i ∈ queue s' <-> i = i0 \/ i ∈ queue s.
Proof.
  unfold queue. rewrite submit_avail_q. change (v_taken s') with (v_taken s). change (used_q s') with (used_q s).
  set_solver.
Qed.

Lemma submit_fresh c i : c ∈ v_threads s -> i ∈ idxs c -> i ∉ [i0; i1; i2].
Proof.
  intros Hc Hi Hin. destruct (free_not_owned s Hs i (Hfree i Hin)) as [_ Hno]. by apply Hno, (owned_by s c).
Qed.

Lemma submit_rest : delete t (v_threads s) ≫= idxs ≡ₚ owned (v_threads s).
Proof. unfold owned. by rewrite (bind_delete idxs _ _ _ Ht), Hc0. Qed.

Lemma submit_owned : owned (v_threads s') ≡ₚ [i0; i1; i2] ++ owned (v_threads s).
Proof. rewrite <- submit_rest. by apply (bind_insert idxs _ _ _ (Wait_done b w i0 i1 i2 false) Ht). Qed.

Lemma submit_caller :
  caller_ok (v_dk s') (v_bufs s') (queue s') (owned (v_threads s') <> []) (Wait_done b w i0 i1 i2 false).
Proof.
  destruct (in_sizes s Hs) as [S1 _ _ _ S5 S6 _ _ _].
  assert (forall i, i ∈ [i0; i1; i2] -> (i < NUM)%nat) as Hlt by (intros i Hi; by apply (free_not_owned s Hs), Hfree).
  assert (i0 < NUM /\ i1 < NUM /\ i2 < NUM)%nat as (L0 & L1 & L2) by (split_and!; apply Hlt; set_solver).
  assert (i0 <> i1 /\ i0 <> i2 /\ i1 <> i2) as (N01 & N02 & N12) by (apply NoDup_cons in Hnd as [? [? _]%NoDup_cons]; set_solver).
  destruct (lookup_lt_is_Some_2 (v_info (v_dk s)) i0) as [[p st] Hi]; [by rewrite S5|].
  exists (x <| b_disk := true |>), 255. cbn [v_bufs s' submit upd eta_vstate v_dk]. split_and!.
  - by rewrite list_lookup_alter_eq, Hx.
  - done.
  - split; cbn.
    + by rewrite list_lookup_insert_eq by by rewrite S6.
    + by rewrite !list_lookup_insert_ne, list_lookup_insert_eq by by rewrite ?S1.
    + by rewrite list_lookup_insert_ne, list_lookup_insert_eq by by rewrite ?length_insert, ?S1.
    + by rewrite list_lookup_insert_eq by by rewrite !length_insert, S1.
  - cbn. by rewrite !list_lookup_alter_eq, Hi.
  - split; [|done]. intros _. apply submit_queue. by left.
  - done.
Qed.

Lemma submit_failed : failed s' = failed s.
Proof.
  apply failed_ext; [done|]. intros h Hh. unfold error_status. cbn.
  destruct (free_not_owned s Hs i0) as [_ Hno]; [apply Hfree; set_solver|].
  rewrite !list_lookup_alter_ne; [done|intros <-..]; apply Hno, (queue_owned s Hs); unfold queue; set_solver.
Qed.

Lemma submit_inv : inv s'.
Proof.
  pose proof (free_not_owned s Hs i0 (Hfree i0 ltac:(set_solver))) as [Hlt Hno].
  destruct (in_sizes s Hs) as [S1 S2 S3 S4 S5 S6 S7 S8 S9]. split.
  - split; cbn; rewrite ?length_insert, ?length_alter; try done. apply u16_range.
  - apply (in_last s Hs).
  - rewrite submit_owned. apply NoDup_app. split_and!; [done| |apply (in_owned s Hs)].
    intros i Hi. by apply (free_not_owned s Hs i (Hfree i Hi)).
  - intros i. rewrite submit_owned, elem_of_app, <- (in_free s Hs). cbn.
    assert (forall j, j ∈ [i0; i1; i2] -> (j < NUM)%nat) as Hl by (intros j Hj; by apply (free_not_owned s Hs), Hfree).
    rewrite !take_false by (rewrite ?length_insert, S4; apply Hl; rewrite !elem_of_cons; tauto).
    rewrite !elem_of_cons, elem_of_nil. tauto.
  - unfold busy_bufs. cbn. destruct Hb as [Hb'|Hb'].
    + rewrite (bind_same buf_of _ _ _ _ Ht) by done. apply (in_bufs s Hs).
    + rewrite (bind_insert buf_of _ _ _ _ Ht). pose proof (bind_delete buf_of _ _ _ Ht) as Hd.
      pose proof (in_bufs s Hs) as Hn. unfold busy_bufs in *. rewrite Hd in Hn. apply NoDup_app in Hn as (_ & _ & Hn).
      constructor; [|done]. intros Hin. apply Hb'. rewrite Hd. set_solver.
  - unfold queue. rewrite submit_avail_q. change (v_taken s') with (v_taken s). change (used_q s') with (used_q s).
    rewrite <- app_assoc. cbn [app]. rewrite <- Permutation_middle. constructor; [|apply (in_queue s Hs)].
    intros Hq. by apply Hno, (queue_owned s Hs).
  - intros h Hh. apply submit_queue in Hh as [->|Hh].
    + exists b, w, i1, i2, false. apply (in_insert _ _ _ _ _ Ht). by left.
    + destruct (in_heads s Hs h Hh) as (b' & w' & j1 & j2 & a & Hc). exists b', w', j1, j2, a.
      apply (in_insert _ _ _ _ _ Ht). right. apply (in_delete _ _ _ _ Ht) in Hc as [<-|Hc]; done.
  - intros c Hc. apply (in_insert _ _ _ _ _ Ht) in Hc as [->|Hc]; [apply submit_caller|].
    assert (c ∈ v_threads s) as Hc' by (apply (in_delete _ _ _ _ Ht); by right).
    eapply caller_ok_ext; [by apply (in_callers s Hs)| | | |].
    + intros i Hi. pose proof (submit_fresh c i Hc' Hi) as Hf. cbn.
      rewrite !list_lookup_insert_ne, !list_lookup_alter_ne by set_solver. done.
    + intros b' Hb''. cbn. rewrite list_lookup_alter_ne; [done|]. intros <-. destruct Hb as [Hbc|Hbc].
      * apply (buf_split s Hs t c0 Ht c b Hc); [rewrite Hbc; set_solver|done].
      * apply Hbc. unfold busy_bufs. apply list_elem_of_bind. eauto.
    + intros i Hi. rewrite submit_queue. pose proof (submit_fresh c i Hc' Hi). set_solver.
    + intros _ E. pose proof submit_owned as Ho. rewrite E in Ho. by apply Permutation_nil_l in Ho.
Qed.

(** The specification sees the call and nothing else. *)
Lemma submit_abs : abs s' = AState (a_bufs (abs s)) (a_disk (abs s)) (<[t := A_in b w]> (a_threads (abs s))).
Proof.
  unfold abs. f_equal.
  - cbn. by apply erase_alter.
  - change (v_threads s') with (<[t := Wait_done b w i0 i1 i2 false]> (v_threads s)).
    assert (waiting s' ≡ₚ i0 :: waiting s) as Hw.
    { unfold waiting. rewrite submit_avail_q. change (v_taken s') with (v_taken s).
      rewrite <- app_assoc. cbn [app]. by rewrite <- Permutation_middle. }
    rewrite list_fmap_insert. cbn [a_threads]. f_equal.
    + cbn. rewrite bool_decide_eq_true_2; [done|]. rewrite Hw. by left.
    + apply abs_callers_ext; [|apply submit_failed]. intros c i Hc Hi. rewrite Hw. pose proof (submit_fresh c i Hc Hi). set_solver.
Qed.
End Submit.

Lemma abs_lookup s t c : v_threads s !! t = Some c -> a_threads (abs s) !! t = Some (abs_caller (waiting s) (failed s) c).
Proof. intros Ht. cbn. by rewrite list_lookup_fmap, Ht. Qed.

(** One round of the allocation loop, for a thread that enters or that was woken. *)
Lemma rw_try_good s t b w c0 x :
  inv s -> v_threads s !! t = Some c0 -> (c0 = Out /\ b ∉ busy_bufs (v_threads s)) \/ c0 = Wait_desc b w true ->
  v_bufs s !! b = Some x -> on_disk x -> exists s', rw_try t b w s = VOk tt s' /\ good_step s s'.
Proof.
  intros Hs Ht Hc0 Hx Hon. assert (idxs c0 = []) as Hi by by destruct Hc0 as [[-> _]| ->].
  assert (buf_of c0 = [b] \/ b ∉ busy_bufs (v_threads s)) as Hb by (destruct Hc0 as [[-> ?]| ->]; auto).
  assert (forall a, a_bufs a = a_bufs (abs s) -> a_disk a = a_disk (abs s) ->
    a_threads a = <[t := A_in b w]> (a_threads (abs s)) -> a = abs s \/ astep (abs s) a) as Habs.
  { intros [ab ad at'] E1 E2 E3. cbn [a_bufs a_disk a_threads] in *. subst. pose proof (abs_lookup s t c0 Ht) as Hl.
    destruct Hc0 as [[-> _]| ->]; [right|left].
    - apply a_call; [done|]. cbn. rewrite length_fmap. by eapply lookup_lt_Some.
    - rewrite list_insert_id by done. done. }
  destruct (alloc3_spec s) as [(i0 & i1 & i2 & Ha & Hnd & Hf)|(s1 & Ha & Hsc & Hbusy)]; [apply sz_free, in_sizes, Hs| |].
  - exists (submit t b w (b_blockno x) i0 i1 i2 s). split; [by apply rw_try_submits|]. split_and!.
    + by apply (submit_inv s t b w c0 x).
    + by apply (submit_failed s t b w c0 x).
    + by rewrite (submit_abs s t b w c0 x i0 i1 i2); [apply Habs|..].
  - exists (s1 <| v_threads ::= <[t := Wait_desc b w false]> |>). split.
    { unfold rw_try. unfold mbind at 1, V_bind at 1, vat. rewrite Hx. by vstep Ha. }
    destruct (scribbled_inv s s1 Hs Hsc) as (Hs1 & Hf1 & Habs1). destruct Hsc as (ds & ths & -> & _ & _ & Hw).
    destruct (Forall2_lookup_l _ _ _ _ _ Hw Ht) as (c1 & Ht1 & Hc1).
    pose proof (woken_facts _ _ Hc1) as (Hi1 & Hb1 & Ha1 & _). pose proof (woken_owned _ _ Hw) as Ho.
    set (s1 := s <| v_dk ::= _ |> <| v_threads := ths |>) in *. split_and!.
    + apply (inv_thread s1 t c1); [done|done|by rewrite Hi1| |].
      * rewrite Hb1. destruct Hb as [->|Hb]; [by left|right]. cbn. intros b' Hb'.
        apply list_elem_of_singleton in Hb' as ->. unfold busy_bufs.
        rewrite (woken_bind buf_of (v_threads s) ths); [done| |done]. intros c c' H. by apply woken_facts in H as (_ & ? & _).
      * split; [by exists x|]. intros _. change (owned ths <> []). rewrite Ho. destruct Hbusy as [i Hbusy%(in_free s Hs)].
        intros E. rewrite E in Hbusy. by apply not_elem_of_nil in Hbusy.
    + exact Hf1.
    + rewrite <- Habs1 in *. apply Habs; [done..|]. cbn. rewrite list_fmap_insert. done.
Qed.

(** ** The end of a request *)

Definition finished (i0 i1 i2 : nat) (d : vdisk) : vdisk :=
  d <| v_desc ::= fun l => <[i2 := desc0]> (<[i1 := desc0]> (<[i0 := desc0]> l)) |>
    <| v_free ::= fun l => <[i2 := true]> (<[i1 := true]> (<[i0 := true]> l)) |>
    <| v_info ::= alter (fun x => (None, snd x)) i0 |>.

Lemma give_false (fr : list bool) i j : <[j := true]> fr !! i = Some false <-> i <> j /\ fr !! i = Some false.
Proof.
  destruct (decide (i = j)) as [->|Hne]; [|rewrite list_lookup_insert_ne by done; tauto].
  split; [|tauto]. intros H. destruct (decide (j < length fr)%nat).
  - by rewrite list_lookup_insert_eq in H.
  - rewrite list_insert_ge in H by lia. apply lookup_lt_Some in H. lia.
Qed.

Section Finish.
Context (s : vstate) (t b : nat) (w : bool) (i0 i1 i2 : nat) (a : bool) (x : buf).
Context (Hs : inv s) (Ht : v_threads s !! t = Some (Wait_done b w i0 i1 i2 a)).
Context (Hx : v_bufs s !! b = Some x) (Hdone : b_disk x = false).
Context (Hup : forall b' w' a', Wait_desc b' w' a' ∈ v_threads s -> a' = true).

Let s' := s <| v_dk ::= finished i0 i1 i2 |> <| v_threads ::= <[t := Out]> |>.

Lemma finish_not_queued : i0 ∉ queue s.
Proof.
  destruct (in_callers s Hs _ (list_elem_of_lookup_2 _ _ _ Ht)) as (y & st & Hy & _ & _ & _ & Hq & _).
  rewrite <- Hq. congruence.
Qed.

Lemma finish_inv : inv s'.
Proof.
  destruct (thread_split s Hs t _ Ht) as [Hnd Hdisj]. pose proof (bind_delete idxs _ _ _ Ht) as Hold.
  pose proof (bind_insert idxs _ _ _ Out Ht) as Hnew. cbn [idxs app] in Hold, Hnew, Hdisj.
  pose proof (in_owned s Hs) as Hno. unfold owned in Hno. rewrite Hold in Hno.
  destruct (in_sizes s Hs) as [S1 S2 S3 S4 S5 S6 S7 S8 S9]. split.
  - split; cbn; rewrite ?length_insert, ?length_alter; done.
  - apply (in_last s Hs).
  - unfold owned. cbn. rewrite Hnew. by do 3 apply NoDup_cons in Hno as [_ Hno].
  - intros i. unfold owned. cbn. rewrite Hnew, !give_false, (in_free s Hs). unfold owned. rewrite Hold.
    rewrite !elem_of_cons. do 3 (let H := fresh in apply NoDup_cons in Hno as [H Hno]; rewrite ?elem_of_cons in H).
    split; [tauto|]. intros Hi. split_and!; [intros ->; tauto..|tauto].
  - unfold busy_bufs. cbn. rewrite (bind_insert buf_of _ _ _ _ Ht). pose proof (in_bufs s Hs) as Hn.
    unfold busy_bufs in Hn. rewrite (bind_delete buf_of _ _ _ Ht) in Hn. by apply NoDup_app in Hn as (_ & _ & Hn).
  - apply (in_queue s Hs).
  - intros h Hh. destruct (in_heads s Hs h Hh) as (b' & w' & j1 & j2 & a' & Hc). exists b', w', j1, j2, a'.
    apply (in_insert _ _ _ _ _ Ht). right. apply (in_delete _ _ _ _ Ht) in Hc as [Hc|Hc]; [|done].
    simplify_eq. by apply finish_not_queued in Hh.
  - intros c Hc. apply (in_insert _ _ _ _ _ Ht) in Hc as [->|Hc]; [done|].
    assert (c ∈ v_threads s) as Hc' by (apply (in_delete _ _ _ _ Ht); by right).
    pose proof (in_callers s Hs c Hc') as Hok. destruct c as [|b' w' a'|b' w' j0 j1 j2 a']; [done| |].
    + destruct Hok as [Hok _]. split; [done|]. intros ->. by apply Hup in Hc'.
    + apply (caller_ok_ext _ (v_dk s') _ (v_bufs s) _ (queue s) _ True) in Hok; [exact Hok| |done|done|done].
      intros i Hi. assert (i <> i0 /\ i <> i1 /\ i <> i2) as (N0 & N1 & N2)
        by (split_and!; intros ->; eapply Hdisj; [exact Hc| |exact Hi| exact Hc| |exact Hi|exact Hc| |exact Hi]; rewrite !elem_of_cons; tauto).
      cbn. by rewrite !list_lookup_insert_ne, list_lookup_alter_ne.
Qed.

Lemma finish_failed : failed s' = failed s.
Proof.
  apply failed_ext; [done|]. intros h _. unfold error_status. cbn. destruct (decide (h = i0)) as [->|Hne].
  - rewrite list_lookup_alter_eq. by destruct (v_info (v_dk s) !! i0).
  - by rewrite list_lookup_alter_ne.
Qed.

Lemma finish_abs : astep (abs s) (abs s').
Proof.
  pose proof (abs_lookup s t _ Ht) as Hl. cbn [abs_caller] in Hl. rewrite !bool_decide_eq_false_2 in Hl.
  2:{ rewrite elem_failed. intros [Hi _]. apply finish_not_queued. unfold queue in *. set_solver. }
  2:{ intros Hi. apply finish_not_queued. unfold queue, waiting in *. set_solver. }
  replace (abs s') with (AState (a_bufs (abs s)) (a_disk (abs s)) (<[t := A_out]> (a_threads (abs s)))).
  - by apply (a_return _ _ _ _ _ _ Hl).
  - unfold abs. rewrite finish_failed. cbn. by rewrite list_fmap_insert.
Qed.
End Finish.

Lemma wake_free_idem (c : caller) : wake Chan_free (wake Chan_free c) = wake Chan_free c.
Proof. by destruct c. Qed.
Lemma wakes_free_idem (ths : list caller) : wake Chan_free <$> (wake Chan_free <$> ths) = wake Chan_free <$> ths.
Proof. rewrite <- list_fmap_compose. apply list_fmap_ext. intros. apply wake_free_idem. Qed.

Lemma give_desc_eq i ds av ai us ud fr ui inf ops bufs dk (ths : list caller) la tk :
  give_desc i (Vstate (Vdisk ds av ai us ud fr ui inf ops) bufs dk ths la tk) =
  Vstate (Vdisk (<[i := desc0]> ds) av ai us ud (<[i := true]> fr) ui inf ops) bufs dk (wake Chan_free <$> ths) la tk.
Proof. reflexivity. Qed.

Lemma set_info_eq g ds av ai us ud fr ui inf ops bufs dk (ths : list caller) la tk :
  Vstate (Vdisk ds av ai us ud fr ui inf ops) bufs dk ths la tk <| v_dk ::= fun d => d <| v_info ::= g |> |> =
  Vstate (Vdisk ds av ai us ud fr ui (g inf) ops) bufs dk ths la tk.
Proof. reflexivity. Qed.

(** One step of [free_chain]; it goes on exactly when the descriptor has a successor. *)
Lemma free_chain_step k i d s :
  v_desc (v_dk s) !! i = Some d -> (i < NUM)%nat -> v_free (v_dk s) !! i = Some false ->
  free_chain (S k) i s =
  (if Z.land (d_flags d) VRING_DESC_F_NEXT =? 0 then mret tt else free_chain k (d_next d)) (give_desc i s).
Proof.
  intros Hd Hl Hfr. cbn [free_chain]. unfold mbind at 1, V_bind at 1, vat. rewrite Hd.
  by vstep (free_desc_run s i Hl Hfr).
Qed.

Lemma give_desc_other i j s : i <> j ->
  v_desc (v_dk (give_desc i s)) !! j = v_desc (v_dk s) !! j /\ v_free (v_dk (give_desc i s)) !! j = v_free (v_dk s) !! j.
Proof. intros H. cbn. by rewrite !list_lookup_insert_ne. Qed.

(** [free_chain] on a formatted chain frees its three descriptors. *)
Lemma free_chain_run k s b w n i0 i1 i2 :
  formatted (v_dk s) b w n i0 i1 i2 -> i0 <> i1 -> i0 <> i2 -> i1 <> i2 ->
  (forall i, i ∈ [i0; i1; i2] -> (i < NUM)%nat /\ v_free (v_dk s) !! i = Some false) ->
  free_chain (S (S (S k))) i0 s = VOk tt (give_desc i2 (give_desc i1 (give_desc i0 s))).
Proof.
  intros [_ D0 D1 D2] N01 N02 N12 Hf.
  destruct (Hf i0) as [L0 F0]; [set_solver|]. destruct (Hf i1) as [L1 F1]; [set_solver|]. destruct (Hf i2) as [L2 F2]; [set_solver|].
  rewrite (free_chain_step _ i0 _ s D0 L0 F0). cbn [d_flags d_next].
  replace (Z.land VRING_DESC_F_NEXT VRING_DESC_F_NEXT =? 0) with false by done.
  destruct (give_desc_other i0 i1 s N01) as [D1' F1']. destruct (give_desc_other i0 i2 s N02) as [D2' F2'].
  rewrite (free_chain_step _ i1 _ (give_desc i0 s) (eq_trans D1' D1) L1 (eq_trans F1' F1)). cbn [d_flags d_next].
  replace (Z.land (Z.lor (if w then 0 else VRING_DESC_F_WRITE) VRING_DESC_F_NEXT) VRING_DESC_F_NEXT =? 0) with false by by destruct w.
  destruct (give_desc_other i1 i2 (give_desc i0 s) N12) as [D2'' F2''].
  rewrite (free_chain_step _ i2 _ (give_desc i1 (give_desc i0 s)) (eq_trans D2'' (eq_trans D2' D2)) L2 (eq_trans F2'' (eq_trans F2' F2))).
  reflexivity.
Qed.

Lemma rw_finish_run s t b w n i0 i1 i2 :
  formatted (v_dk s) b w n i0 i1 i2 -> NoDup [i0; i1; i2] ->
  (forall i, i ∈ [i0; i1; i2] -> (i < NUM)%nat /\ v_free (v_dk s) !! i = Some false) ->
  rw_finish t i0 s = VOk tt (s <| v_dk ::= finished i0 i1 i2 |> <| v_threads ::= fun l => <[t := Out]> (wake Chan_free <$> l) |>).
Proof.
  intros Hfm Hnd Hf.
  assert (i0 <> i1 /\ i0 <> i2 /\ i1 <> i2) as (N01 & N02 & N12) by (apply NoDup_cons in Hnd as [? [? _]%NoDup_cons]; set_solver).
  unfold rw_finish. unfold mbind at 1, V_bind at 1, vdk, vmod at 1.
  set (s1 := s <| v_dk ::= fun d => d <| v_info ::= alter (fun x => (None, snd x)) i0 |> |>).
  assert (formatted (v_dk s1) b w n i0 i1 i2) as Hfm1 by by destruct Hfm.
  unfold NUM. vstep (free_chain_run 6 s1 b w n i0 i1 i2 Hfm1 N01 N02 N12 Hf).
  unfold set_caller, vmod. f_equal. subst s1. clear. destruct s as [[] ].
  rewrite set_info_eq, !give_desc_eq, !wakes_free_idem. reflexivity.
Qed.

Lemma good_after s s1 s' : failed s1 = failed s -> abs s1 = abs s -> good_step s1 s' -> good_step s s'.
Proof. intros Ef E (H1 & H2 & H3). split; [done|]. rewrite <- Ef, <- E. done. Qed.

Lemma rw_finish_good s t b w i0 i1 i2 x :
  inv s -> v_threads s !! t = Some (Wait_done b w i0 i1 i2 true) -> v_bufs s !! b = Some x -> b_disk x = false ->
  exists s', rw_finish t i0 s = VOk tt s' /\ good_step s s'.
Proof.
  intros Hs Ht Hx Hd. pose proof (list_elem_of_lookup_2 _ _ _ Ht) as Hin.
  destruct (in_callers s Hs _ Hin) as (y & st & Hy & _ & Hfm & _). destruct (thread_split s Hs t _ Ht) as [Hnd _].
  eexists. split.
  { eapply rw_finish_run; [done|done|]. intros i Hi. pose proof (owned_by s _ i Hin Hi) as Ho. split; [by apply (owned_lt s Hs)|].
    by apply (in_free s Hs). }
  set (s1 := s <| v_threads := wake Chan_free <$> v_threads s |>). pose proof (inv_woken s _ Hs (wakes_woken Chan_free _)) as Hw.
  apply (good_after s s1); [done|apply Hw|].
  assert (v_threads s1 !! t = Some (Wait_done b w i0 i1 i2 true)) as Ht1 by (cbn; by rewrite list_lookup_fmap, Ht).
  assert (forall b' w' a', Wait_desc b' w' a' ∈ v_threads s1 -> a' = true) as Hup.
  { intros b' w' a' Hc. cbn in Hc. apply list_elem_of_fmap in Hc as (c & Hc & _). destruct c; cbn in Hc; by simplify_eq. }
  split; [by apply (finish_inv s1 t b w i0 i1 i2 true x (proj1 Hw) Ht1 Hx Hd Hup)|].
  split; [apply (finish_failed s1 t i0 i1 i2)|]. right. by apply (finish_abs s1 t b w i0 i1 i2 true x (proj1 Hw) Ht1 Hx Hd).
Qed.

Lemma rw_resume_good s t : inv s -> (t < length (v_threads s))%nat -> exists s', rw_resume t s = VOk tt s' /\ good_step s s'.
Proof.
  intros Hs Hlt. destruct (lookup_lt_is_Some_2 _ _ Hlt) as [c Ht]. unfold rw_resume.
  unfold mbind at 1, V_bind at 1, vat. rewrite Ht.
  assert (good_step s s) as Hid by by split_and!; [..|left].
  pose proof (in_callers s Hs c (list_elem_of_lookup_2 _ _ _ Ht)) as Hok.
  destruct c as [|b w []|b w i0 i1 i2 []]; try (by exists s).
  - destruct Hok as [(x & Hx & Hon) _]. eapply rw_try_good; eauto.
  - destruct Hok as (x & st & Hx & Hrest). unfold mbind at 1, V_bind at 1. rewrite Hx.
    destruct (b_disk x) eqn:Hd; [|by eapply rw_finish_good].
    eexists. split; [reflexivity|]. split_and!.
    + eapply inv_thread; [done|done|done|by left|]. exists x, st. split; [done|]. rewrite Hd in *. naive_solver.
    + done.
    + left. unfold abs. f_equal. cbn. rewrite list_fmap_insert. apply list_insert_id. by rewrite list_lookup_fmap, Ht.
Qed.

(** ** The interrupt handler *)

Section Handled.
Context (s : vstate) (t b h : nat) (w : bool) (i1 i2 : nat) (x : buf).
Context (Hs : inv s) (Ht : v_threads s !! t = Some (Wait_done b w h i1 i2 true)) (Hx : v_bufs s !! b = Some x).
Context (Hne : v_used_idx (v_dk s) <> v_used_dev (v_dk s)) (Hh : h = v_used (v_dk s) !!! Z.to_nat (v_used_idx (v_dk s) mod Z.of_nat NUM)).

Let s' := s <| v_bufs ::= alter (fun x => x <| b_disk := false |>) b |>
            <| v_dk ::= fun d => d <| v_used_idx := u16 (v_used_idx d + 1) |> |>.

Lemma handled_used : used_q s = h :: used_q s'.
Proof.
  destruct (in_sizes s Hs) as [_ _ _ _ _ _ _ H1 H2]. unfold used_q. rewrite queue_of_pop, <- Hh; done.
Qed.

Lemma handled_queue : NoDup (queue s') /\ h ∉ queue s' /\ forall i, i ∈ queue s <-> i = h \/ i ∈ queue s'.
Proof.
  pose proof (in_queue s Hs) as Hn.
  assert (queue s ≡ₚ h :: queue s') as Hp.
  { unfold queue. rewrite handled_used. change (avail_q s') with (avail_q s). change (v_taken s') with (v_taken s).
    by rewrite !app_assoc, Permutation_middle. }
  rewrite Hp in Hn. apply NoDup_cons in Hn as [Hno Hn]. split_and!; [done..|]. intros i. rewrite Hp. apply elem_of_cons.
Qed.

Lemma handled_inv : inv s'.
Proof.
  destruct handled_queue as (Hnd & Hno & Hq). destruct (thread_split s Hs t _ Ht) as [_ Hdisj].
  destruct (in_sizes s Hs) as [S1 S2 S3 S4 S5 S6 S7 S8 S9]. split.
  - split; try done. apply u16_range.
  - apply (in_last s Hs).
  - apply (in_owned s Hs).
  - apply (in_free s Hs).
  - apply (in_bufs s Hs).
  - done.
  - intros i Hi. apply (in_heads s Hs), Hq. by right.
  - intros c Hc. change (c ∈ v_threads s) in Hc. pose proof (in_callers s Hs c Hc) as Hok.
    apply (in_delete _ _ _ _ Ht) in Hc as [->|Hc].
    + destruct Hok as (y & st & Hy & Hon & Hfm & Hi & _). exists (y <| b_disk := false |>), st. split_and!; try done.
      * cbn. by rewrite list_lookup_alter_eq, Hy.
      * by destruct Hfm.
    + apply (caller_ok_ext _ (v_dk s') _ (v_bufs s') _ (queue s') _ (owned (v_threads s) <> [])) in Hok; [exact Hok|done| | |done].
      * intros b' Hb'. cbn. rewrite list_lookup_alter_ne; [done|]. intros <-. by eapply (buf_split s Hs t _ Ht c b Hc); [left|].
      * intros i Hi. assert (i <> h) as Hih by (intros ->; eapply Hdisj; [exact Hc|by left|exact Hi]).
        rewrite Hq. tauto.
Qed.

Lemma handled_failed : error_status (v_dk s) h = false -> failed s' = failed s.
Proof. intros He. unfold failed at 2. rewrite handled_used. cbn. by rewrite He. Qed.
End Handled.

(** A head in the queue belongs to a thread, whose request it is. *)
Lemma queue_thread s h : inv s -> h ∈ queue s ->
  exists t b w i1 i2 a x st, v_threads s !! t = Some (Wait_done b w h i1 i2 a) /\ v_bufs s !! b = Some x /\ on_disk x /\
    formatted (v_dk s) b w (b_blockno x) h i1 i2 /\ v_info (v_dk s) !! h = Some (Some b, st).
Proof.
  intros Hs Hh. destruct (in_heads s Hs h Hh) as (b & w & i1 & i2 & a & Hc).
  destruct (in_callers s Hs _ Hc) as (x & st & Hx & Hon & Hfm & Hi & _).
  apply list_elem_of_lookup in Hc as [t Ht]. exists t, b, w, i1, i2, a, x, st. done.
Qed.

(** The handler looks at the oldest completed request: it panics when that has failed. *)
Lemma intr_one_good s : inv s -> v_used_idx (v_dk s) <> v_used_dev (v_dk s) ->
  (intr_one s = VPanic "virtio_disk_intr status" /\ failed s <> []) \/
  exists s', intr_one s = VOk tt s' /\ inv s' /\ failed s' = failed s /\ abs s' = abs s /\ v_used_dev (v_dk s') = v_used_dev (v_dk s) /\
    v_used_idx (v_dk s') = u16 (v_used_idx (v_dk s) + 1) /\ waiting s' = waiting s /\ Forall2 woken (v_threads s) (v_threads s').
Proof.
  intros Hs Hne. destruct (in_sizes s Hs) as [_ _ S3 _ _ _ _ S8 S9].
  set (j := Z.to_nat (v_used_idx (v_dk s) mod Z.of_nat NUM)). set (h := v_used (v_dk s) !!! j).
  assert (h ∈ used_q s) as Hu by (unfold used_q; rewrite queue_of_pop by done; by left).
  destruct (queue_thread s h Hs ltac:(unfold queue; set_solver)) as (t & b & w & i1 & i2 & a & x & st & Ht & Hx & _ & _ & Hinf).
  assert (v_used (v_dk s) !! j = Some h) as Hj.
  { apply list_lookup_lookup_total_lt. rewrite S3. subst j. unfold NUM. pose proof (Z.mod_pos_bound (v_used_idx (v_dk s)) 8). lia. }
  assert (error_status (v_dk s) h = negb (st =? 0)) as He by (unfold error_status; by rewrite Hinf).
  set (s1 := s <| v_threads := wake (Chan_buf b) <$> v_threads s |>).
  assert (intr_one s = if st =? 0
    then VOk tt (s1 <| v_bufs ::= alter (fun x => x <| b_disk := false |>) b |>
                    <| v_dk ::= fun d => d <| v_used_idx := u16 (v_used_idx d + 1) |> |>)
    else VPanic "virtio_disk_intr status") as Erun.
  { unfold intr_one. unfold mbind at 1, V_bind at 1, vget. fold j. unfold mbind at 1, V_bind at 1, vat at 1. rewrite Hj.
    unfold mbind at 1, V_bind at 1, vat at 1. rewrite Hinf. cbn [snd fst]. by destruct (st =? 0). }
  rewrite Erun. destruct (st =? 0) eqn:Est; cbn [negb] in *; [right|left; split; [done|]].
  2:{ intros Ef. assert (h ∈ failed s) as Hin by by apply elem_failed. rewrite Ef in Hin. by apply not_elem_of_nil in Hin. }
  pose proof (inv_woken s _ Hs (wakes_woken (Chan_buf b) _)) as [Hs1 Ha1]. change (inv s1) in Hs1. change (abs s1 = abs s) in Ha1.
  assert (v_threads s1 !! t = Some (Wait_done b w h i1 i2 true)) as Ht1.
  { cbn. rewrite list_lookup_fmap, Ht. cbn. by rewrite Nat.eqb_refl, orb_true_r. }
  pose proof (handled_failed s1 b h Hs1 Hne eq_refl He) as Hf1.
  eexists. split; [reflexivity|]. split; [exact (handled_inv s1 t b h w i1 i2 Hs1 Ht1 Hne eq_refl)|].
  split_and!; [exact Hf1| |done..|apply wakes_woken]. rewrite <- Ha1. unfold abs. f_equal; [by apply erase_alter|].
  by rewrite Hf1.
Qed.

Lemma intr_loop_good n s : inv s -> pending (2 ^ 16) (v_used_idx (v_dk s)) (v_used_dev (v_dk s)) = n ->
  (intr_loop (S n) s = VPanic "virtio_disk_intr status" /\ failed s <> []) \/
  exists s', intr_loop (S n) s = VOk tt s' /\ inv s' /\ failed s' = failed s /\ abs s' = abs s /\ used_q s' = [] /\ waiting s' = waiting s /\
    Forall2 woken (v_threads s) (v_threads s').
Proof.
  revert s. induction n as [|n IH]; intros s Hs Hn; destruct (in_sizes s Hs) as [_ _ _ _ _ _ _ S8 S9].
  - apply pending_same in Hn; [|done..]. right. exists s. split_and!; [|done..| |done|].
    + cbn [intr_loop]. unfold mbind, V_bind, vget. by rewrite Hn, Z.eqb_refl.
    + unfold used_q. rewrite Hn. apply queue_of_nil.
    + apply Forall_Forall2_diag, Forall_true. by left.
  - assert (v_used_idx (v_dk s) <> v_used_dev (v_dk s)) as Hne by (intros E; apply (pending_same (2 ^ 16)) in E; [lia|done..]).
    assert (intr_loop (S (S n)) s = (intr_one;; intr_loop (S n)) s) as El.
    { cbn [intr_loop]. unfold mbind at 1, V_bind at 1, vget. by rewrite (proj2 (Z.eqb_neq _ _) Hne). }
    rewrite El. destruct (intr_one_good s Hs Hne) as [[E1 Hf]|(s1 & E1 & Hs1 & Hf1 & Ha1 & Hd1 & Hi1 & Hw1 & Hwk1)].
    { left. split; [|done]. unfold mbind, V_bind. by rewrite E1. }
    destruct (IH s1 Hs1) as [[E2 Hf]|(s2 & E2 & Hs2 & Hf2 & Ha2 & Hq2 & Hw2 & Hwk2)]; [rewrite Hd1, Hi1; by apply (pending_pop NUM)|..].
    + left. split; [by vstep E1|congruence].
    + right. exists s2. split_and!; [by vstep E1|done|congruence|congruence|done|congruence|].
      by eapply Forall2_trans; [apply woken_trans|..].
Qed.

(** [failed s] is empty exactly when the handler returns. *)
Lemma virtio_disk_intr_good s : inv s ->
  (virtio_disk_intr s = VPanic "virtio_disk_intr status" /\ failed s <> []) \/
  exists s', virtio_disk_intr s = VOk tt s' /\ inv s' /\ failed s = [] /\ failed s' = [] /\ abs s' = abs s /\ used_q s' = [] /\
    waiting s' = waiting s /\ Forall2 woken (v_threads s) (v_threads s').
Proof.
  intros Hs. destruct (intr_loop_good _ s Hs eq_refl) as [H|(s' & E & Hs' & Hf & Ha & Hq & Hw)]; [by left|right].
  assert (failed s' = []) as Hf' by (unfold failed; by rewrite Hq).
  exists s'. split_and!; try done; [congruence|apply Hw..].
Qed.

(** ** The driver's steps *)

Lemma not_busy b ths : existsb (uses b) ths = false -> b ∉ busy_bufs ths.
Proof.
  intros H Hin. unfold busy_bufs in Hin. apply list_elem_of_bind in Hin as (c & Hc & Hb).
  assert (existsb (uses b) ths = true); [|congruence]. apply existsb_exists. exists c. split; [by apply list_elem_of_In|].
  destruct c; cbn in *; [set_solver|..]; apply list_elem_of_singleton in Hc as ->; apply Nat.eqb_refl.
Qed.

Lemma edit_good s b n data : inv s -> existsb (uses b) (v_threads s) = false ->
  good_step s (s <| v_bufs ::= alter (fun x => x <| b_blockno := n |> <| b_data := data |>) b |>).
Proof.
  intros Hs Hb. apply not_busy in Hb. split; [|split; [done|]].
  - destruct Hs as [H1 H2 H3 H4 H5 H6 H7 H8]. split; try done. intros c Hc.
    eapply caller_ok_ext; [by apply H8|done| |done|done]. intros b' Hb'. cbn. rewrite list_lookup_alter_ne; [done|].
    intros <-. apply Hb. unfold busy_bufs. apply list_elem_of_bind. eauto.
  - right. set (s' := s <| v_bufs ::= _ |>). replace (abs s') with
      (AState (alter (fun x => x <| b_blockno := n |> <| b_data := data |>) b (a_bufs (abs s))) (a_disk (abs s)) (a_threads (abs s))).
    + apply (a_edit _ _ _ b n data). apply Forall_forall. intros c Hc Hu. cbn in Hc.
      apply list_elem_of_fmap in Hc as (c' & -> & Hc'). apply Hb. unfold busy_bufs. apply list_elem_of_bind. exists c'. split; [|done].
      destruct c' as [| |b' w i0 i1 i2 a]; cbn in *; [done|by subst; left|]. 
      repeat case_bool_decide; cbn in Hu; subst; by left.
    + unfold abs. f_equal. cbn. apply list_eq. intros i. destruct (decide (i = b)) as [->|Hne].
      * rewrite list_lookup_alter_eq, !list_lookup_fmap, list_lookup_alter_eq. by destruct (v_bufs s !! b).
      * by rewrite list_lookup_alter_ne, !list_lookup_fmap, list_lookup_alter_ne.
Qed.

Lemma driver_good s ev : inv s ->
  (ev = Intr /\ driver_step ev s = VPanic "virtio_disk_intr status" /\ failed s <> []) \/
  exists s', driver_step ev s = VOk tt s' /\ good_step s s'.
Proof.
  intros Hs. assert (good_step s s) as Hid by by split_and!; [..|left].
  assert (ev <> Intr -> (exists s', driver_step ev s = VOk tt s' /\ good_step s s') ->
    (ev = Intr /\ driver_step ev s = VPanic "virtio_disk_intr status" /\ failed s <> []) \/
    exists s', driver_step ev s = VOk tt s' /\ good_step s s') as Hok by auto.
  destruct ev as [t b w|t| |t|b n data]; cbn [driver_step] in *.
  - apply Hok; [done|]. destruct (may_enter t b s) eqn:Hm; [|by exists s]. unfold may_enter in Hm.
    apply andb_true_iff in Hm as [[Ht Hb]%andb_true_iff Hx].
    destruct (v_threads s !! t) as [[]|] eqn:Ht'; try done. apply negb_true_iff in Hb.
    destruct (v_bufs s !! b) as [x|] eqn:Hx'; [|done]. apply andb_true_iff in Hx as [? ?].
    eapply rw_try_good; [done|done| |done|unfold on_disk; lia]. left. split; [done|by apply not_busy].
  - apply Hok; [done|]. destruct (Nat.ltb_spec t (length (v_threads s))); [by apply rw_resume_good|by exists s].
  - destruct (virtio_disk_intr_good s Hs) as [H|(s' & E & Hs' & Hf & Hf' & Ha & _)]; [left; tauto|right].
    exists s'. split; [done|]. split_and!; [done|congruence|by left].
  - apply Hok; [done|]. eexists. split; [done|].
    destruct (inv_woken s (alter awaken t (v_threads s)) Hs) as [H1 H2]; [|by split_and!; [..|left]].
    apply Forall2_same_length_lookup_2; [by rewrite length_alter|]. intros i c c' Hi Hi'.
    destruct (decide (i = t)) as [->|Hne].
    + rewrite list_lookup_alter_eq, Hi in Hi'. cbn in Hi'. simplify_eq. by right.
    + rewrite list_lookup_alter_ne, Hi in Hi' by done. simplify_eq. by left.
  - apply Hok; [done|]. destruct (existsb (uses b) (v_threads s)) eqn:Hb; [by exists s|]. eexists. split; [done|]. by apply edit_good.
Qed.

(** ** The device's steps *)

Lemma fetch_good s s' : inv s -> dev_fetch s = Some s' -> inv s' /\ failed s' = failed s /\ abs s' = abs s /\ waiting s' ≡ₚ waiting s.
Proof.
  intros Hs H. destruct (in_sizes s Hs) as [S1 S2 S3 S4 S5 S6 S7 S8 S9]. unfold dev_fetch in H.
  destruct (v_last s =? v_avail_idx (v_dk s)) eqn:E; [done|]. apply Z.eqb_neq in E.
  destruct (v_avail (v_dk s) !! _) as [h|] eqn:Hh; cbn in H; [|done]. simplify_eq. set (s' := s <| v_taken ::= _ |> <| v_last := _ |>).
  assert (avail_q s = h :: avail_q s') as Ha.
  { unfold avail_q. rewrite queue_of_pop by (done || apply (in_last s Hs)). by rewrite (list_lookup_total_correct _ _ _ Hh). }
  assert (waiting s' ≡ₚ waiting s) as Hw.
  { unfold waiting. rewrite Ha. change (v_taken s') with (v_taken s ++ [h]).
    by rewrite <- Permutation_cons_append, <- Permutation_middle. }
  assert (queue s' ≡ₚ queue s) as Hq by (unfold queue, waiting in *; by rewrite !app_assoc, Hw).
  split_and!; [|done| |done].
  - destruct Hs as [H1 H2 H3 H4 H5 H6 H7 H8]. split; try done.
    + apply u16_range.
    + by rewrite Hq.
    + intros i Hi. rewrite Hq in Hi. by apply H7.
    + intros c Hc. eapply caller_ok_ext; [by apply H8|done|done| |done]. intros i _. by rewrite Hq.
  - unfold abs. f_equal. apply abs_callers_ext; [|done]. intros c i _ _. by rewrite Hw.
Qed.

Lemma decode_formatted d b w n h i1 i2 :
  formatted d b w n h i1 i2 -> 0 <= n < 2 ^ 31 -> decode d h = Some (Request w n b h).
Proof.
  intros [F0 F1 F2 F3] Hn. unfold decode. rewrite F1. cbn [mbind option_bind d_next]. rewrite F2. cbn [mbind option_bind d_next].
  rewrite F3. cbn [mbind option_bind d_addr]. rewrite F0. cbn [mbind option_bind].
  assert (sector_of n = 2 * n) as Hsec by (unfold sector_of; change (BSIZE / 512) with 2; rewrite u32_small; lia).
  cbn [r_type r_sector d_flags d_len]. rewrite Hsec, (Z.mul_comm 2 n), Z.mod_mul, Z.div_mul by lia. by destruct w.
Qed.

Lemma transfer_erase w n b bufs d : transfer w n b (erase <$> bufs) d = (erase <$> fst (transfer w n b bufs d), snd (transfer w n b bufs d)).
Proof.
  unfold transfer. destruct w.
  - rewrite list_lookup_fmap. by destruct (bufs !! b).
  - cbn. f_equal. apply list_eq. intros i. destruct (decide (i = b)) as [->|Hne].
    + rewrite list_lookup_alter_eq, !list_lookup_fmap, list_lookup_alter_eq. by destruct (bufs !! b).
    + by rewrite list_lookup_alter_ne, !list_lookup_fmap, list_lookup_alter_ne.
Qed.

Lemma spoil_erase w n b rest bufs d : spoil w n b rest (erase <$> bufs) d = (erase <$> fst (spoil w n b rest bufs d), snd (spoil w n b rest bufs d)).
Proof.
  unfold spoil. destruct rest as [data|]; [|done]. destruct w; [done|]. cbn. f_equal. apply list_eq. intros i. destruct (decide (i = b)) as [->|Hne].
  - rewrite list_lookup_alter_eq, !list_lookup_fmap, list_lookup_alter_eq. by destruct (bufs !! b).
  - by rewrite list_lookup_alter_ne, !list_lookup_fmap, list_lookup_alter_ne.
Qed.

(** A transfer, and one that fails, change at most the data of its buffer. *)
Definition data_only (b : nat) (x : buf) (bufs bufs' : list buf) : Prop :=
  (exists x', bufs' !! b = Some x' /\ b_disk x' = b_disk x /\ b_blockno x' = b_blockno x) /\
  forall b', b' <> b -> bufs' !! b' = bufs !! b'.

Lemma data_only_alter b x bufs data : bufs !! b = Some x -> data_only b x bufs (alter (fun x => x <| b_data := data |>) b bufs).
Proof.
  intros Hx. split; [rewrite list_lookup_alter_eq, Hx; cbn; eauto|]. intros b' Hb'. by rewrite list_lookup_alter_ne.
Qed.

Lemma transfer_bufs w n b bufs d x : bufs !! b = Some x -> data_only b x bufs (fst (transfer w n b bufs d)).
Proof.
  intros Hx. unfold transfer. destruct w; [rewrite Hx; split; cbn; eauto|]. by apply data_only_alter.
Qed.
Lemma spoil_bufs w n b rest bufs d x : bufs !! b = Some x -> data_only b x bufs (fst (spoil w n b rest bufs d)).
Proof.
  intros Hx. unfold spoil. destruct rest as [data|]; [|split; cbn; eauto]. destruct w; [split; cbn; eauto|]. by apply data_only_alter.
Qed.

(** Two threads have no descriptor in common. *)
Lemma in_threads_ne s : inv s -> forall t t' c c', v_threads s !! t = Some c -> v_threads s !! t' = Some c' -> t <> t' ->
  forall i, i ∈ idxs c -> i ∈ idxs c' -> False.
Proof.
  intros Hs t t' c c' Ht Ht' Hne i Hi Hi'. destruct (thread_split s Hs t c Ht) as [_ Hd]. eapply Hd; [|exact Hi|exact Hi'].
  apply list_elem_of_lookup. destruct (decide (t' < t)%nat).
  - exists t'. by rewrite list_lookup_delete_lt.
  - exists (pred t'). rewrite list_lookup_delete_ge by lia. by replace (S (pred t')) with t' by lia.
Qed.

(** The device finishes chain [h], with status [st'] and new contents of buffers and disk. *)
Section Complete.
Context (s : vstate) (k h t b : nat) (w : bool) (i1 i2 : nat) (a : bool) (x : buf) (st : Z).
Context (Hs : inv s) (Hk : v_taken s !! k = Some h) (Ht : v_threads s !! t = Some (Wait_done b w h i1 i2 a)).
Context (Hx : v_bufs s !! b = Some x) (Hon : on_disk x).
Context (Hfm : formatted (v_dk s) b w (b_blockno x) h i1 i2) (Hinf : v_info (v_dk s) !! h = Some (Some b, st)).
Context (bufs' : list buf) (d' : diskstate) (st' : Z) (Hdata : data_only b x (v_bufs s) bufs').

Let s' := s <| v_taken ::= delete k |> <| v_bufs := bufs' |> <| v_disk := d' |>
    <| v_dk ::= fun d => d <| v_info ::= alter (fun y => (fst y, st')) h |>
         <| v_used ::= <[Z.to_nat (v_used_dev d mod Z.of_nat NUM) := h]> |>
         <| v_used_dev := u16 (v_used_dev d + 1) |> |>.

Lemma complete_taken : v_taken s ≡ₚ h :: v_taken s'.
Proof. by apply delete_Permutation. Qed.

Lemma complete_used : used_q s' = used_q s ++ [h].
Proof.
  apply queue_of_push; [exact (sz_used _ (in_sizes s Hs))|]. pose proof (queue_length s Hs) as Hl.
  unfold queue in Hl. rewrite !length_app, complete_taken in Hl. cbn in Hl. change (length (used_q s) < NUM)%nat. lia.
Qed.

Lemma complete_queue : queue s' ≡ₚ queue s.
Proof.
  unfold queue. rewrite complete_used, complete_taken. change (avail_q s') with (avail_q s). f_equiv.
  cbn. rewrite app_assoc. symmetry. by rewrite Permutation_app_comm, <- Permutation_cons_append.
Qed.

Lemma complete_fresh : h ∉ used_q s /\ h ∉ waiting s'.
Proof.
  pose proof (in_queue s Hs) as Hnd. rewrite <- complete_queue in Hnd. unfold queue in Hnd. rewrite complete_used in Hnd.
  rewrite app_assoc in Hnd. apply NoDup_app in Hnd as (_ & Hd & Hu). split.
  - apply NoDup_app in Hu as (_ & Hu & _). intros Hin. apply (Hu h Hin). by left.
  - intros Hin. apply (Hd h Hin). set_solver.
Qed.

Lemma complete_failed : failed s' = failed s ++ (if st' =? 0 then [] else [h]).
Proof.
  unfold failed. rewrite complete_used, List.filter_app. f_equal.
  - apply filter_ext_in. intros i Hi%list_elem_of_In. unfold error_status. cbn. rewrite list_lookup_alter_ne; [done|].
    intros <-. by destruct complete_fresh as [Hno _].
  - cbn. unfold error_status. cbn. rewrite list_lookup_alter_eq, Hinf. cbn. by destruct (st' =? 0).
Qed.

Lemma complete_inv : inv s'.
Proof.
  destruct (thread_split s Hs t _ Ht) as [_ Hdisj]. destruct (in_sizes s Hs) as [S1 S2 S3 S4 S5 S6 S7 S8 S9].
  destruct Hdata as [(x' & Hx' & Hd' & Hn') Hoth]. pose proof complete_queue as Hq. split.
  - split; cbn; rewrite ?length_insert, ?length_alter; try done. apply u16_range.
  - apply (in_last s Hs).
  - apply (in_owned s Hs).
  - apply (in_free s Hs).
  - apply (in_bufs s Hs).
  - rewrite Hq. apply (in_queue s Hs).
  - intros i Hi. rewrite Hq in Hi. by apply (in_heads s Hs).
  - intros c Hc. change (c ∈ v_threads s) in Hc. pose proof (in_callers s Hs c Hc) as Hok.
    apply (in_delete _ _ _ _ Ht) in Hc as [->|Hc].
    + destruct Hok as (y & st1 & Hy & _ & _ & _ & Hdk & Ha). rewrite Hx in Hy. simplify_eq. exists x', st'. split_and!; try done.
      * unfold on_disk in *. by rewrite Hn'.
      * rewrite Hn'. by destruct Hfm.
      * cbn. by rewrite list_lookup_alter_eq, Hinf.
      * by rewrite Hq, Hd'.
      * by rewrite Hd'.
    + apply (caller_ok_ext _ (v_dk s') _ (v_bufs s') _ (queue s') _ (owned (v_threads s) <> [])) in Hok; [exact Hok| | | |done].
      * intros i Hi. assert (i <> h) as Hih by (intros ->; eapply Hdisj; [exact Hc|by left|exact Hi]).
        cbn. by rewrite list_lookup_alter_ne.
      * intros b' Hb'. apply Hoth. intros ->. by eapply (buf_split s Hs t _ Ht c b Hc); [left|].
      * intros i Hi. by rewrite Hq.
Qed.

(** For the specification, the call goes from [A_in] to [A_done] or to [A_failed]. *)
Lemma complete_abs :
  a_threads (abs s) !! t = Some (A_in b w) /\
  abs s' = AState (erase <$> bufs') d' (<[t := if st' =? 0 then A_done b w else A_failed b w]> (a_threads (abs s))).
Proof.
  destruct complete_fresh as [Hnu Hno].
  assert (waiting s ≡ₚ h :: waiting s') as Hw by (unfold waiting; rewrite complete_taken, <- Permutation_middle; done).
  split.
  { rewrite (abs_lookup s t _ Ht). cbn [abs_caller]. rewrite bool_decide_eq_true_2; [done|]. rewrite Hw. by left. }
  unfold abs. f_equal. change (v_threads s') with (v_threads s). cbn [a_threads]. apply list_eq. intros j.
  destruct (decide (j = t)) as [->|Hne].
  - rewrite list_lookup_insert_eq by (rewrite length_fmap; by eapply lookup_lt_Some). rewrite list_lookup_fmap, Ht. cbn.
    rewrite bool_decide_eq_false_2 by done. rewrite complete_failed. destruct (st' =? 0).
    + rewrite app_nil_r, bool_decide_eq_false_2; [done|]. rewrite elem_failed. tauto.
    + rewrite bool_decide_eq_true_2; [done|]. set_solver.
  - rewrite list_lookup_insert_ne, !list_lookup_fmap by done. destruct (v_threads s !! j) as [c|] eqn:Hj; [|done]. cbn. f_equal.
    destruct c as [| |b' w' j0 j1 j2 a']; try done. cbn.
    assert (j0 <> h) as Hjh by (intros ->; destruct (in_threads_ne s Hs j t _ _ Hj Ht Hne h); cbn; set_solver).
    rewrite (bool_decide_ext (j0 ∈ waiting s) (j0 ∈ waiting s')) by (rewrite Hw, elem_of_cons; tauto).
    rewrite (bool_decide_ext (j0 ∈ failed s') (j0 ∈ failed s)); [done|]. rewrite complete_failed. destruct (st' =? 0); set_solver.
Qed.
End Complete.

(** A chain that the device has taken is the request of a thread. *)
Lemma taken_thread s k h : inv s -> v_taken s !! k = Some h ->
  exists t b w i1 i2 a x st, v_threads s !! t = Some (Wait_done b w h i1 i2 a) /\ v_bufs s !! b = Some x /\ on_disk x /\
    formatted (v_dk s) b w (b_blockno x) h i1 i2 /\ v_info (v_dk s) !! h = Some (Some b, st) /\
    decode (v_dk s) h = Some (Request w (b_blockno x) b h).
Proof.
  intros Hs Hk. assert (h ∈ queue s) as Hq by (unfold queue; apply list_elem_of_lookup_2 in Hk; set_solver).
  destruct (queue_thread s h Hs Hq) as (t & b & w & i1 & i2 & a & x & st & Ht & Hx & Hon & Hfm & Hinf).
  exists t, b, w, i1, i2, a, x, st. split_and!; try done. by apply (decode_formatted _ _ _ _ _ _ _ Hfm Hon).
Qed.

Lemma complete_good s k s' : inv s -> dev_complete k s = Some s' ->
  good_step s s' /\ v_threads s' = v_threads s /\ used_q s' <> [].
Proof.
  intros Hs H. unfold dev_complete in H. destruct (v_taken s !! k) as [h|] eqn:Hk; [|done]. cbn [mbind option_bind] in H.
  destruct (taken_thread s k h Hs Hk) as (t & b & w & i1 & i2 & a & x & st & Ht & Hx & Hon & Hfm & Hinf & Hd).
  rewrite Hd in H. cbn [mbind option_bind rq_write rq_block rq_buf rq_status] in H.
  pose proof (transfer_bufs w (b_blockno x) b _ (v_disk s) x Hx) as Hdata.
  pose proof (transfer_erase w (b_blockno x) b (v_bufs s) (v_disk s)) as Her.
  destruct (transfer w (b_blockno x) b (v_bufs s) (v_disk s)) as [bufs' d'] eqn:Etr. injection H as <-. cbn [fst snd] in *.
  destruct (complete_abs s k h t b w i1 i2 a x st Hs Hk Ht Hx Hon Hfm Hinf bufs' d' 0 Hdata) as [Hl Ha]. cbn [Z.eqb] in Ha. split_and!.
  - split_and!; [by eapply complete_inv| |].
    { rewrite (complete_failed s k h t b w i1 i2 a x st Hs Hk Ht Hx Hon Hfm Hinf bufs' d' 0 Hdata). apply app_nil_r. }
    right. rewrite Ha.
    apply (a_transfer _ _ _ t b w (erase x)); [done|by rewrite list_lookup_fmap, Hx|exact Her].
  - done.
  - erewrite complete_used by done. by destruct (used_q s).
Qed.

Lemma fail_good s k e rest s' : inv s -> e <> 0 -> dev_fail k e rest s = Some s' -> inv s' /\ astep (abs s) (abs s').
Proof.
  intros Hs He H. unfold dev_fail in H. destruct (v_taken s !! k) as [h|] eqn:Hk; [|done]. cbn [mbind option_bind] in H.
  destruct (taken_thread s k h Hs Hk) as (t & b & w & i1 & i2 & a & x & st & Ht & Hx & Hon & Hfm & Hinf & Hd).
  rewrite Hd in H. cbn [mbind option_bind rq_write rq_block rq_buf rq_status] in H.
  pose proof (spoil_bufs w (b_blockno x) b rest _ (v_disk s) x Hx) as Hdata.
  pose proof (spoil_erase w (b_blockno x) b rest (v_bufs s) (v_disk s)) as Her.
  destruct (spoil w (b_blockno x) b rest (v_bufs s) (v_disk s)) as [bufs' d'] eqn:Etr. injection H as <-. cbn [fst snd] in *.
  destruct (complete_abs s k h t b w i1 i2 a x st Hs Hk Ht Hx Hon Hfm Hinf bufs' d' e Hdata) as [Hl Ha].
  apply Z.eqb_neq in He. rewrite He in Ha. split; [by eapply complete_inv|]. rewrite Ha.
  apply (a_fail _ _ _ t b w (erase x) rest); [done|by rewrite list_lookup_fmap, Hx|exact Her].
Qed.

Lemma boot_inv n bufs d : inv (vboot n bufs d).
Proof.
  assert (forall B (g : caller -> list B), g Out = [] -> replicate n Out ≫= g = []) as Hnil.
  { intros B g Hg. induction n as [|n IH]; [done|]. cbn. by rewrite Hg, IH. }
  assert (queue (vboot n bufs d) = []) as Hq by done.
  split; rewrite ?Hq; unfold owned, busy_bufs; cbn [v_threads vboot]; rewrite ?Hnil by done.
  - done.
  - done.
  - constructor.
  - intros i. split; intros H; [exfalso|by apply not_elem_of_nil in H]. by do 8 (destruct i as [|i]; [done|]).
  - constructor.
  - constructor.
  - intros h Hh. by apply not_elem_of_nil in Hh.
  - intros c Hc. apply elem_of_replicate in Hc as [-> _]. done.
Qed.

(** ** The whole system *)

(** What the virtio specification allows the device: to read the next entry of the avail ring,
    to complete a chain it has read, or to finish one with an error status.  If it has read a
    chain that is no valid request, it may do anything. *)
Class VirtioBlk (device : vstate -> vstate -> Prop) : Prop :=
  blk_moves s s' : device s s' -> dev_fetch s = Some s' \/ (exists k, dev_complete k s = Some s') \/
    (exists k e rest, e <> 0 /\ dev_fail k e rest s = Some s') \/
    exists h, h ∈ v_taken s /\ decode (v_dk s) h = None.

(** A device that reports no errors, and that does something while there is something for it
    to do. *)
Class VirtioDevice (device : vstate -> vstate -> Prop) : Prop := {
  device_moves s s' : device s s' -> dev_fetch s = Some s' \/ (exists k, dev_complete k s = Some s') \/
    exists h, h ∈ v_taken s /\ decode (v_dk s) h = None;
  device_live s : is_Some (dev_fetch s) \/ v_taken s <> [] -> exists s', device s s' }.

#[export] Instance device_blk device : VirtioDevice device -> VirtioBlk device.
Proof. intros Hd s s' H. destruct (device_moves s s' H) as [?|[?|?]]; auto. Qed.

Lemma taken_decodes s h : inv s -> h ∈ v_taken s -> decode (v_dk s) h <> None.
Proof.
  intros Hs Hh. apply list_elem_of_lookup in Hh as [k Hk].
  destruct (taken_thread s k h Hs Hk) as (t & b & w & i1 & i2 & a & x & st & _ & _ & _ & _ & _ & Hd). congruence.
Qed.

Section System.
Context (device : vstate -> vstate -> Prop).

(** The threads, the interrupts and the device take turns in any order. *)
Inductive system : vstate -> vstate -> Prop :=
| sys_driver ev s s' : driver_step ev s = VOk tt s' -> system s s'
| sys_device s s' : device s s' -> system s s'.

Lemma driver_steps_good ev s s' : inv s -> driver_step ev s = VOk tt s' -> good_step s s'.
Proof.
  intros Hs H. destruct (driver_good s ev Hs) as [(_ & E & _)|(s'' & E & Hg)]; rewrite E in H; [done|]. by injection H as <-.
Qed.

Lemma system_good `{!VirtioBlk device} s s' : inv s -> system s s' -> inv s' /\ (abs s' = abs s \/ astep (abs s) (abs s')).
Proof.
  intros Hs H. destruct H as [ev s s' H|s s' H].
  - destruct (driver_steps_good ev s s' Hs H) as (? & _ & ?). done.
  - destruct (blk_moves s s' H) as [Hf|[[k Hc]|[(k & e & rest & He & Hf)|(h & Hh & Hn)]]].
    + destruct (fetch_good s s' Hs Hf) as (? & _ & ? & _). auto.
    + destruct (complete_good s k s' Hs Hc) as ((? & _ & ?) & _). done.
    + destruct (fail_good s k e rest s' Hs He Hf). auto.
    + by apply taken_decodes in Hn.
Qed.

Lemma reach_inv `{!VirtioBlk device} n bufs d s : rtc system (vboot n bufs d) s -> inv s.
Proof.
  intros H. pose proof (boot_inv n bufs d) as Hi. induction H as [|s1 s2 s3 H1 _ IH]; [done|]. apply IH.
  by apply (system_good s1).
Qed.

(** C5: for any device that follows the virtio specification, which may fail requests, and any
    number of threads that use the disk at the same time, in every state that the driver can
    reach: whatever the driver does next succeeds, except that the interrupt handler panics
    when the device has given a request an error status; and every step, of the driver or of
    the device, is a step of the atomic disk or invisible to it.  So a call of
    [virtio_disk_rw] returns only after its block was transferred, exactly once, since the
    call, and a call whose request failed never returns; and the transfer is the contract the
    buffer cache uses. *)
Theorem virtio_implements_atomic_disk `{!VirtioBlk device} n bufs d s :
  rtc system (vboot n bufs d) s ->
  (forall ev, (exists s', driver_step ev s = VOk tt s') \/
     (ev = Intr /\ failed s <> [] /\ driver_step ev s = VPanic "virtio_disk_intr status")) /\
  (forall s', system s s' -> abs s' = abs s \/ astep (abs s) (abs s')) /\
  forall b w e k x, bcache k !! b = Some x ->
    virtio_disk_rw b w e k =
    Ok tt e (k <| bcache := fst (transfer w (b_blockno x) b (bcache k) (disk k)) |>
               <| disk := snd (transfer w (b_blockno x) b (bcache k) (disk k)) |>).
Proof.
  intros Hr. pose proof (reach_inv n bufs d s Hr) as Hs. split_and!.
  - intros ev. destruct (driver_good s ev Hs) as [(? & ? & ?)|(s' & E & _)]; eauto.
  - intros s' H. by apply (system_good s s' Hs).
  - intros b w e k x Hx. unfold virtio_disk_rw, bindK, get_buf. rewrite Hx. unfold transfer. rewrite Hx.
    destruct w; [by destruct k|]. unfold modifyK. f_equal. destruct k. cbv [upd]. cbn. cbn in Hx. f_equal.
    apply list_alter_ext; [|done]. intros y Hy. by simplify_eq.
Qed.

(** ** Progress *)

Context `{Hdev : VirtioDevice device}.

Lemma device_good s s' : inv s -> device s s' ->
  good_step s s' /\ v_threads s' = v_threads s /\
  (used_q s' <> [] \/ waiting s' ≡ₚ waiting s /\
     (2 * length (avail_q s') + length (v_taken s') < 2 * length (avail_q s) + length (v_taken s))%nat).
Proof.
  intros Hs Hd. destruct (device_moves s s' Hd) as [Hf|[[k Hc]|(h & Hh & Hn)]].
  - destruct (fetch_good s s' Hs Hf) as (Hs' & Hfl & Ha & Hw). split; [by split_and!; [..|left]|].
    unfold dev_fetch in Hf. destruct (v_last s =? v_avail_idx (v_dk s)) eqn:E; [done|]. apply Z.eqb_neq in E.
    destruct (v_avail (v_dk s) !! _) as [h|] eqn:Hh; cbn in Hf; [|done]. simplify_eq. split; [done|right]. split; [done|].
    destruct (in_sizes s Hs). unfold avail_q at 2. rewrite queue_of_pop by (done || apply (in_last s Hs)).
    cbn [length v_taken upd eta_vstate]. rewrite length_app. cbn [length]. unfold avail_q. cbn. lia.
  - destruct (complete_good s k s' Hs Hc) as (Hg & Ht & Hu). auto.
  - by apply taken_decodes in Hn.
Qed.

(** Without errors of the device no request has failed. *)
Definition clean (s : vstate) : Prop := inv s /\ failed s = [].

Lemma reach_clean n bufs d s : rtc system (vboot n bufs d) s -> clean s.
Proof.
  intros H. assert (clean (vboot n bufs d)) as Hi by (split; [apply boot_inv|done]).
  induction H as [|s1 s2 s3 H1 _ IH]; [done|]. apply IH. destruct Hi as [Hs Hf].
  assert (good_step s1 s2) as (H2 & H3 & _); [|split; [done|congruence]].
  destruct H1 as [ev s1 s2 H1|s1 s2 H1]; [by apply (driver_steps_good ev)|by apply device_good].
Qed.

(** Some thread that is inside [virtio_disk_rw] can return. *)
Definition can_return (s : vstate) : Prop :=
  exists s' t c, rtc system s s' /\ v_threads s !! t = Some c /\ c <> Out /\ v_threads s' !! t = Some Out.

(** Threads in the driver stay there until they return. *)
Definition same_inside (s s' : vstate) : Prop :=
  forall t c', v_threads s' !! t = Some c' -> c' <> Out -> exists c, v_threads s !! t = Some c /\ c <> Out.

Lemma can_return_before s s1 : rtc system s s1 -> same_inside s s1 -> can_return s1 -> can_return s.
Proof.
  intros Hr Hin (s' & t & c & Hr' & Ht & Hc & Ho). destruct (Hin t c Ht Hc) as (c0 & Ht0 & Hc0).
  exists s', t, c0. split_and!; [by etrans|done..].
Qed.

Lemma woken_inside s s' : Forall2 woken (v_threads s) (v_threads s') -> same_inside s s'.
Proof.
  intros Hw t c' Ht Hc. destruct (Forall2_lookup_r _ _ _ _ _ Hw Ht) as (c & Ht' & [->| ->]); [by exists c|].
  exists c. split; [done|]. by intros ->.
Qed.

(** A request that is done returns when its thread runs; its thread is runnable. *)
Lemma done_returns s t b w i0 i1 i2 a :
  inv s -> v_threads s !! t = Some (Wait_done b w i0 i1 i2 a) -> i0 ∉ queue s -> can_return s.
Proof.
  intros Hs Ht Hq. destruct (in_callers s Hs _ (list_elem_of_lookup_2 _ _ _ Ht)) as (x & st & Hx & _ & Hfm & _ & Hd & Ha).
  assert (b_disk x = false) as Hdisk by (destruct (b_disk x); [exfalso; by apply Hq, Hd|done]).
  destruct a; [|by rewrite Ha in Hdisk]. destruct (rw_finish_good s t b w i0 i1 i2 x Hs Ht Hx Hdisk) as (s' & E & _).
  pose proof (lookup_lt_Some _ _ _ Ht) as Hlt. exists s', t, (Wait_done b w i0 i1 i2 true). split_and!; [|done..|].
  - apply rtc_once, (sys_driver (Resume t)). cbn [driver_step]. rewrite (proj2 (Nat.ltb_lt _ _) Hlt).
    unfold rw_resume. unfold mbind at 1, V_bind at 1, vat at 1. rewrite Ht. unfold mbind at 1, V_bind at 1, vat. by rewrite Hx, Hdisk.
  - destruct (thread_split s Hs t _ Ht) as [Hnd _]. pose proof (list_elem_of_lookup_2 _ _ _ Ht) as Hin.
    rewrite (rw_finish_run s t b w _ i0 i1 i2 Hfm Hnd) in E.
    + injection E as <-. cbn. apply list_lookup_insert_eq. by rewrite length_fmap.
    + intros i Hi. pose proof (owned_by s _ i Hin Hi). split; [by apply (owned_lt s Hs)|by apply (in_free s Hs)].
Qed.

(** A completed request returns after the interrupt. *)
Lemma used_returns s : clean s -> used_q s <> [] -> can_return s.
Proof.
  intros [Hs Hf] Hu. destruct (used_q s) as [|h uq] eqn:Eu; [done|].
  assert (h ∈ queue s) as Hq by (unfold queue; rewrite Eu; set_solver).
  assert (h ∉ waiting s) as Hno.
  { pose proof (in_queue s Hs) as Hnd. unfold queue in Hnd. rewrite app_assoc in Hnd. apply NoDup_app in Hnd as (_ & Hd & _).
    intros Hw. apply (Hd h Hw). rewrite Eu. by left. }
  destruct (virtio_disk_intr_good s Hs) as [[_ ?]|(s1 & E1 & Hs1 & _ & _ & _ & Hu1 & Hw1 & Hf1)]; [done|].
  apply (can_return_before s s1); [by apply rtc_once, (sys_driver Intr)|by apply woken_inside|].
  destruct (queue_thread s h Hs Hq) as (t & b & w & i1 & i2 & a & x & st & Ht & _).
  destruct (Forall2_lookup_l _ _ _ _ _ Hf1 Ht) as (c1 & Ht1 & Hc1).
  assert (exists a1, c1 = Wait_done b w h i1 i2 a1) as [a1 ->] by (destruct Hc1 as [->| ->]; cbn; eauto).
  apply (done_returns s1 t b w h i1 i2 a1 Hs1 Ht1). unfold queue. rewrite Hu1, app_nil_r. change (h ∉ waiting s1). by rewrite Hw1.
Qed.

Lemma fetch_enabled s : inv s -> v_last s <> v_avail_idx (v_dk s) -> is_Some (dev_fetch s).
Proof.
  intros Hs Hne. destruct (in_sizes s Hs) as [_ S2 _ _ _ _ _ _ _]. unfold dev_fetch. rewrite (proj2 (Z.eqb_neq _ _) Hne).
  destruct (lookup_lt_is_Some_2 (v_avail (v_dk s)) (Z.to_nat (v_last s mod Z.of_nat NUM))) as [h ->]; [|done].
  rewrite S2. unfold NUM. pose proof (Z.mod_pos_bound (v_last s) 8). lia.
Qed.

(** While the device has requests, it goes on until it has completed one. *)
Lemma waiting_returns m s : clean s -> (2 * length (avail_q s) + length (v_taken s) <= m)%nat -> waiting s <> [] -> can_return s.
Proof.
  revert s. induction m as [|m IH]; intros s [Hs Hf] Hm Hw.
  { exfalso. apply Hw. unfold waiting. destruct (avail_q s), (v_taken s); cbn in Hm; done || lia. }
  destruct (device_live s) as [s1 Hd].
  { destruct (v_taken s) eqn:E; [left|by right]. apply fetch_enabled; [done|]. intros El. apply Hw. unfold waiting, avail_q.
    by rewrite E, <- El, queue_of_nil. }
  destruct (device_good s s1 Hs Hd) as ((Hs1 & Hf1 & _) & Ht & Hcase). assert (clean s1) as Hc1 by (split; [done|congruence]).
  apply (can_return_before s s1); [by apply rtc_once, sys_device|intros t c; rewrite Ht; eauto|].
  destruct (decide (used_q s1 = [])) as [Hu|Hu]; [|by apply used_returns].
  destruct Hcase as [|[Hp Hlt]]; [done|]. apply IH; [done|lia|]. intros Hw1. apply Hw.
  rewrite Hw1 in Hp. by apply Permutation_nil_l in Hp.
Qed.

Lemma in_flight_returns s t b w i0 i1 i2 a : clean s -> v_threads s !! t = Some (Wait_done b w i0 i1 i2 a) -> can_return s.
Proof.
  intros Hs Ht. destruct (decide (i0 ∈ queue s)) as [Hq|Hq]; [|by eapply done_returns; [apply Hs|..]].
  destruct (decide (used_q s = [])) as [Hu|Hu]; [|by apply used_returns].
  eapply waiting_returns; [done|reflexivity|]. intros Hw. unfold queue, waiting in *. rewrite app_assoc, Hw, Hu in Hq.
  by apply not_elem_of_nil in Hq.
Qed.

(** C23: with a device that reports no errors and does not stop, the driver does not deadlock:
    in every reachable state in which some thread is inside [virtio_disk_rw], waiting for
    descriptors or for its request, there is a continuation in which a thread returns from
    it. *)
Theorem virtio_progress n bufs d s t c :
  rtc system (vboot n bufs d) s -> v_threads s !! t = Some c -> c <> Out -> can_return s.
Proof.
  intros Hr%reach_clean Ht Hc. pose proof Hr as [Hs Hf0]. destruct c as [|b w a|b w i0 i1 i2 a]; [done| |by eapply in_flight_returns].
  destruct (in_callers s Hs _ (list_elem_of_lookup_2 _ _ _ Ht)) as [(x & Hx & Hon) Ha].
  destruct (decide (owned (v_threads s) = [])) as [Ho|Ho].
  - destruct a; [|by specialize (Ha eq_refl)]. pose proof (lookup_lt_Some _ _ _ Ht) as Hlt.
    destruct (alloc3_spec s) as [(i0 & i1 & i2 & Hal & Hnd & Hf)|(s1 & _ & _ & i & Hi)]; [apply sz_free, in_sizes, Hs| |].
    + set (s1 := submit t b w (b_blockno x) i0 i1 i2 s).
      assert (clean s1) as Hs1.
      { split; [by apply (submit_inv s t b w (Wait_desc b w true) x); auto|]. rewrite <- Hf0. apply (submit_failed s t b w (Wait_desc b w true) x); auto. }
      apply (can_return_before s s1).
      * apply rtc_once, (sys_driver (Resume t)). cbn [driver_step]. rewrite (proj2 (Nat.ltb_lt _ _) Hlt).
        unfold rw_resume. unfold mbind at 1, V_bind at 1, vat at 1. rewrite Ht. by apply rw_try_submits.
      * intros j c' Hj Hc'. cbn in Hj. destruct (decide (j = t)) as [->|Hne]; [by exists (Wait_desc b w true)|].
        rewrite list_lookup_insert_ne in Hj by done. eauto.
      * eapply (in_flight_returns s1 t); [done|]. by apply list_lookup_insert_eq.
    + apply (in_free s Hs) in Hi. rewrite Ho in Hi. by apply not_elem_of_nil in Hi.
  - destruct (owned (v_threads s)) as [|i l] eqn:E; [done|]. assert (i ∈ owned (v_threads s)) as Hi by (rewrite E; by left).
    unfold owned in Hi. apply list_elem_of_bind in Hi as (c & Hi & Hc'). apply list_elem_of_lookup in Hc' as [t' Ht'].
    destruct c as [| |b' w' i0 i1 i2 a']; [by apply not_elem_of_nil in Hi..|]. by eapply in_flight_returns.
Qed.
End System.

(** ** A device, and a run *)

(** The device that does all that the specification allows. *)
Definition any_device (s s' : vstate) : Prop :=
  dev_fetch s = Some s' \/ (exists k, dev_complete k s = Some s') \/
  (s' = s /\ exists h, h ∈ v_taken s /\ decode (v_dk s) h = None).

#[export] Instance any_device_virtio : VirtioDevice any_device.
Proof.
  split; [by intros s s' [|[|[_ H]]]; auto|].
  intros s [[s' H]|H]; [exists s'; by left|]. destruct (v_taken s) as [|h l] eqn:E; [done|].
  destruct (decode (v_dk s) h) as [rq|] eqn:Ed.
  - assert (is_Some (dev_complete 0 s)) as [s' Hc]; [|exists s'; right; left; by exists O].
    unfold dev_complete. rewrite E. cbn. rewrite Ed. cbn. destruct (transfer _ _ _ _ _). eauto.
  - exists s. right. right. split; [done|]. exists h. rewrite E. split; [by left|done].
Qed.

(** Two threads write blocks 3 and 4 at once. *)
Definition vdemo_bufs : list buf :=
  [buf0 <| b_blockno := 3 |> <| b_data := [1] |>; buf0 <| b_blockno := 4 |> <| b_data := [2] |>].
Definition vdemo_boot : vstate := vboot 2 vdemo_bufs disk0.

(** The state after an event, and after a step of the device. *)
Definition after (ev : event) (s : vstate) : vstate := match driver_step ev s with VOk _ s' => s' | _ => s end.
Definition after_dev (o : option vstate) (s : vstate) : vstate := default s o.

Definition vdemo_1 : vstate := after (Enter 1 1 true) (after (Enter 0 0 true) vdemo_boot).
Definition vdemo_2 : vstate := after_dev (dev_fetch vdemo_1) vdemo_1.
Definition vdemo_3 : vstate := after_dev (dev_complete 0 vdemo_2) vdemo_2.

Lemma vdemo_reached : rtc (system any_device) vdemo_boot vdemo_3.
Proof.
  apply (rtc_l _ _ (after (Enter 0 0 true) vdemo_boot)); [apply (sys_driver any_device (Enter 0 0 true)); by vm_compute|].
  apply (rtc_l _ _ vdemo_1); [apply (sys_driver any_device (Enter 1 1 true)); by vm_compute|].
  apply (rtc_l _ _ vdemo_2); [apply sys_device; left; by vm_compute|].
  apply rtc_once, sys_device. right. left. exists O. by vm_compute.
Qed.

(** The device that may also report an I/O error; here it does, for the second request. *)
Definition failing_device (s s' : vstate) : Prop :=
  any_device s s' \/ exists k e rest, e <> 0 /\ dev_fail k e rest s = Some s'.
#[export] Instance failing_device_blk : VirtioBlk failing_device.
Proof. intros s s' [H|H]; [|by auto]. destruct (blk_moves s s' H) as [?|[?|[?|?]]]; auto. Qed.

Definition vdemo_4 : vstate := after_dev (dev_fetch vdemo_3) vdemo_3.
Definition vdemo_5 : vstate := after_dev (dev_fail 0 1 None vdemo_4) vdemo_4.

Lemma vdemo_failed : rtc (system failing_device) vdemo_boot vdemo_5.
Proof.
  assert (forall s s', rtc (system any_device) s s' -> rtc (system failing_device) s s') as Hsub.
  { induction 1 as [|s1 s2 s3 H1 _ IH]; [constructor|]. econstructor; [|exact IH].
    destruct H1 as [ev s1 s2 H1|s1 s2 H1]; [by apply (sys_driver _ ev)|apply sys_device; by left]. }
  transitivity vdemo_3.
  - apply Hsub, vdemo_reached.
  - apply (rtc_l _ _ vdemo_4); [apply sys_device; left; left; by vm_compute|].
    apply rtc_once, sys_device. right. exists O, 1, None. split; [done|by vm_compute].
Qed.

(** Block 3 was written; the handler then finds the error of the other request. *)
Lemma virtio_implements_atomic_disk_witness :
  dk_writes (v_disk vdemo_5) = [(3, [1])] /\ failed vdemo_5 = [3%nat] /\
  driver_step Intr vdemo_5 = VPanic "virtio_disk_intr status" /\ exists s', driver_step (Resume 0) vdemo_5 = VOk tt s'.
Proof.
  split; [vm_compute; reflexivity|]. split; [vm_compute; reflexivity|].
  destruct (virtio_implements_atomic_disk failing_device 2 vdemo_bufs disk0 vdemo_5 vdemo_failed) as [H _]. split.
  - vm_compute. reflexivity.
  - destruct (H (Resume 0)) as [Hok|(E & _)]; [exact Hok|discriminate E].
Defined.

Lemma virtio_progress_witness : can_return any_device vdemo_3.
Proof.
  refine (virtio_progress any_device 2 vdemo_bufs disk0 vdemo_3 1 (Wait_done 1 true 3 4 5 false) vdemo_reached _ _);
    [vm_compute; reflexivity|discriminate].
Defined.
