(* ===== verification/Log.v ===== *)
(** * The write-ahead log: kernel/log.c *)

From stdpp Require Import base numbers list gmap strings.
From S2P Require Import Prelude Mem Types Kernel Sched Bio.

(** ** The header block: an [int n] followed by [int block[LOGSIZE]] *)

Definition hdr_n (data : list Z) : Z := i32 (lget 4 data 0).
Definition hdr_block (data : list Z) (i : nat) : Z := i32 (lget 4 data (4 + 4 * i)).
Definition put_hdr_n (v : Z) (data : list Z) : list Z := lput 4 0 (u32 v) data.
Definition put_hdr_block (i : nat) (v : Z) (data : list Z) : list Z := lput 4 (4 + 4 * i) (u32 v) data.

Definition get_log : K logstate := getsK (fun s => log s).
Definition set_log (f : logstate -> logstate) : K unit := modifyK (fun s => s <| log ::= f |>).

(** [log.lh.block[i]], read and assigned. *)
Definition lh_get (i : nat) : K Z :=
  l <- get_log ;;
  match lh_block l !! i with Some b => retK b | None => ub "log.lh.block out of bounds" end.
Definition lh_set (i : nat) (v : Z) : K unit :=
  l <- get_log ;;
  if (i <? length (lh_block l))%nat then set_log (fun l => l <| lh_block ::= <[i := v]> |>)
  else ub "log.lh.block out of bounds".

Definition copy_buf (from to : nat) : K unit :=
  x <- get_buf from ;;
  set_buf to (fun y => y <| b_data := b_data x |>).

Definition log_blockno (l : logstate) (tail : nat) : Z := u32 (lg_start l + Z.of_nat tail + 1).

(** ** Installing and writing *)

Definition install_trans (recovering : bool) : K unit :=
  l <- get_log ;;
  forK (seq 0 (Z.to_nat (lh_n l))) (fun tail =>
    lbuf <- bread (u32 (lg_dev l)) (log_blockno l tail) ;;
    blk <- lh_get tail ;;
    dbuf <- bread (u32 (lg_dev l)) (u32 blk) ;;
    copy_buf lbuf dbuf ;;;
    bwrite dbuf ;;;
    (if recovering then retK tt else bunpin dbuf) ;;;
    brelse lbuf ;;;
    brelse dbuf).

Definition read_head : K unit :=
  l <- get_log ;;
  b <- bread (u32 (lg_dev l)) (u32 (lg_start l)) ;;
  x <- get_buf b ;;
  set_log (fun l => l <| lh_n := hdr_n (b_data x) |>) ;;;
  forK (seq 0 (Z.to_nat (hdr_n (b_data x)))) (fun i => lh_set i (hdr_block (b_data x) i)) ;;;
  brelse b.

Definition write_head : K unit :=
  l <- get_log ;;
  b <- bread (u32 (lg_dev l)) (u32 (lg_start l)) ;;
  set_buf b (fun x => x <| b_data ::= put_hdr_n (lh_n l) |>) ;;;
  forK (seq 0 (Z.to_nat (lh_n l))) (fun i =>
    blk <- lh_get i ;;
    set_buf b (fun x => x <| b_data ::= put_hdr_block i blk |>)) ;;;
  bwrite b ;;;
  brelse b.

Definition write_log : K unit :=
  l <- get_log ;;
  forK (seq 0 (Z.to_nat (lh_n l))) (fun tail =>
    to <- bread (u32 (lg_dev l)) (log_blockno l tail) ;;
    blk <- lh_get tail ;;
    from <- bread (u32 (lg_dev l)) (u32 blk) ;;
    copy_buf from to ;;;
    bwrite to ;;;
    brelse from ;;;
    brelse to).

Definition commit : K unit :=
  l <- get_log ;;
  if 0 <? lh_n l then
    write_log ;;;
    write_head ;;;
    install_trans false ;;;
    set_log (fun l => l <| lh_n := 0 |>) ;;;
    write_head
  else retK tt.

Definition recover_from_log : K unit :=
  read_head ;;;
  install_trans true ;;;
  set_log (fun l => l <| lh_n := 0 |>) ;;;
  write_head.

(** [sizeof(struct logheader)]: the count and [LOGSIZE] block numbers, four bytes each. *)
Definition sizeof_logheader : Z := 4 + 4 * LOGSIZE.

Definition initlog (dev : Z) (sb : superblock) : K unit :=
  if BSIZE <=? sizeof_logheader then panic "initlog: too big logheader" else
  initlock L_log ;;;
  set_log (fun l => l <| lg_start := i32 (sb_logstart sb) |> <| lg_size := i32 (sb_nlog sb) |>
                      <| lg_dev := dev |>) ;;;
  recover_from_log.

(** ** Transactions *)

Definition begin_op : K unit :=
  acquire L_log ;;;
  blockK (fun _ : unit =>
    l <- get_log ;;
    if lg_committing l then sleep CH_log L_log ;;; retK (inl tt)
    else if LOGSIZE <? lh_n l + (lg_outstanding l + 1) * MAXOPBLOCKS
    then sleep CH_log L_log ;;; retK (inl tt)
    else
      set_log (fun l => l <| lg_outstanding := lg_outstanding l + 1 |>) ;;;
      release L_log ;;;
      retK (inr tt)) tt.

Definition end_op : K unit :=
  acquire L_log ;;;
  set_log (fun l => l <| lg_outstanding := lg_outstanding l - 1 |>) ;;;
  l <- get_log ;;
  if lg_committing l then panic "log.committing" else
  (if lg_outstanding l =? 0 then set_log (fun l => l <| lg_committing := true |>)
   else wakeup CH_log) ;;;
  release L_log ;;;
  if lg_outstanding l =? 0 then
    commit ;;;
    acquire L_log ;;;
    set_log (fun l => l <| lg_committing := false |>) ;;;
    wakeup CH_log ;;;
    release L_log
  else retK tt.

(** The index of [blockno] among the first [n] logged blocks, or [n]. *)
Fixpoint absorb_index (n : nat) (blocks : list Z) (blockno : Z) : nat :=
  match n, blocks with
  | S k, b :: blocks' => if u32 b =? blockno then O else S (absorb_index k blocks' blockno)
  | _, _ => O
  end.

Definition log_write (b : nat) : K unit :=
  x <- get_buf b ;;
  acquire L_log ;;;
  l <- get_log ;;
  if (LOGSIZE <=? lh_n l) || (lg_size l - 1 <=? lh_n l) then panic "too big a transaction" else
  if lg_outstanding l <? 1 then panic "log_write outside of trans" else
  let i := absorb_index (Z.to_nat (lh_n l)) (lh_block l) (b_blockno x) in
  lh_set i (i32 (b_blockno x)) ;;;
  (if Z.of_nat i =? lh_n l then
     bpin b ;;;
     set_log (fun l => l <| lh_n := lh_n l + 1 |>)
   else retK tt) ;;;
  release L_log.

#[global] Arguments begin_op : simpl never.
#[global] Arguments end_op : simpl never.
#[global] Arguments log_write : simpl never.
