(* ===== verification/LogFacts.v ===== *)
(** * The write-ahead log: commit, crash and recovery

    [commit] is shown to send to the disk, in order, the contents of the transaction into the
    log area, the header that names its blocks, the blocks themselves, and the empty header.
    A crash may come between any two of these writes (each block write is atomic): run on what
    is then on the disk, [recover_from_log] leaves either every block as it was before the
    transaction or every block as the transaction has it. *)

From stdpp Require Import base numbers list gmap strings.
From S2P Require Import Prelude Mem Types Kernel Wp Sched SchedFacts Bio BioFacts Log.

(** ** The operations on buffers, as rules

    [at_fs R pid dev live d l s]: process [pid] runs, the cache has the blocks [live] in use, the
    disk is [d] and the log is [l]; the rest of the state is [R]. *)

Record at_fs (R : kstate * list proc) (pid dev : Z) (live : gmap Z bent) (d : diskstate) (l : logstate) (s : kstate) : Prop := {
  at_caller : caller pid s;
  at_rep : brep dev live s;
  at_disk : disk s = d;
  at_log : log s = l;
  at_rest : rest s = R }.
Arguments at_caller {R}.
Arguments at_rep {R}.
Arguments at_disk {R}.
Arguments at_log {R}.
Arguments at_rest {R}.

Section Rules.
Context {R : kstate * list proc} (pid dev : Z).
Local Abbreviation at_fs := (at_fs R).
Implicit Types (live : gmap Z bent) (d : diskstate) (l : logstate) (n : Z) (b : nat).

Lemma at_bcache live live' d l bs s :
  at_fs pid dev live d l s -> brep dev live' (s <| bcache := bs |>) -> at_fs pid dev live' d l (s <| bcache := bs |>).
Proof.
  intros [Hc _ Hd Hl Hr] H. split; [|done|done|done|done]. by apply (caller_bcache pid s (fun _ => bs)).
Qed.

Lemma wp_bread live d l n (Q : nat -> interference -> kstate -> Prop) e s :
  at_fs pid dev live d l s -> can_bread live n ->
  (forall b s', (forall en, live !! n = Some en -> en_at en = b) ->
     at_fs pid dev (<[n := Ent b (brefs live n + 1) (Some pid) (bview live d n)]> live) d l s' -> Q b e s') ->
  wp (bread dev n) Q e s.
Proof.
  intros Hat Hn HQ. destruct (bread_spec pid dev n live e s) as (b & bs & Hrun & Hrep & Hb); [apply Hat|apply Hat|done|].
  wprun Hrun. apply HQ; [done|]. eapply at_bcache; [done|]. by rewrite (at_disk _ _ _ _ _ _ Hat) in Hrep.
Qed.

Lemma wp_set_data live d l b n r data g (Q : unit -> interference -> kstate -> Prop) e s :
  at_fs pid dev live d l s -> live !! n = Some (Ent b r (Some pid) data) ->
  (forall s', at_fs pid dev (<[n := Ent b r (Some pid) (g data)]> live) d l s' -> Q tt e s') ->
  wp (set_buf b (fun x => x <| b_data ::= g |>)) Q e s.
Proof.
  intros Hat Hn HQ. destruct (set_data_spec pid dev live b n r data g e s) as (bs & Hrun & Hrep); [apply Hat|done|].
  wprun Hrun. apply HQ. by eapply at_bcache.
Qed.

Lemma wp_get_buf live d l b n r data (Q : buf -> interference -> kstate -> Prop) e s :
  at_fs pid dev live d l s -> live !! n = Some (Ent b r (Some pid) data) ->
  (forall x, b_data x = data -> Q x e s) -> wp (get_buf b) Q e s.
Proof.
  intros Hat Hn HQ. destruct (get_buf_block pid dev live b n r data e s) as (x & Hrun & Hx & _); [apply Hat|done|].
  wprun Hrun. by apply HQ.
Qed.

Lemma wp_bwrite live d l b n r data (Q : unit -> interference -> kstate -> Prop) e s :
  at_fs pid dev live d l s -> live !! n = Some (Ent b r (Some pid) data) ->
  (forall s', at_fs pid dev live (write_block n data d) l s' -> Q tt e s') ->
  wp (bwrite b) Q e s.
Proof.
  intros [Hc Hrep Hd Hl Hr] Hn HQ. destruct (bwrite_spec pid dev live b n r data e s) as (Hrun & Hrep'); [done..|].
  wprun Hrun. apply HQ. split; [by apply (caller_ext _ s)|done|cbn; by rewrite Hd|done|done].
Qed.

Lemma wp_brelse live d l b n r data (Q : unit -> interference -> kstate -> Prop) e s :
  at_fs pid dev live d l s -> live !! n = Some (Ent b r (Some pid) data) -> (r = 1 -> data = dblock d n) ->
  (forall s', at_fs pid dev (drop_ref n b r None data live) d l s' -> Q tt e s') ->
  wp (brelse b) Q e s.
Proof.
  intros [Hc Hrep Hd Hl Hr] Hn Hclean HQ.
  destruct (brelse_spec pid dev live b n r data e s) as (s' & Hrun & Hc' & Hf & Hrep'); [done..|by rewrite Hd|].
  wprun Hrun. pose proof (bframe_rest _ _ Hf) as Hrs. destruct Hf as (bs & ps & -> & _).
  apply HQ. split; try done. by rewrite Hrs.
Qed.

Lemma wp_bunpin live d l b n r o data (Q : unit -> interference -> kstate -> Prop) e s :
  at_fs pid dev live d l s -> live !! n = Some (Ent b r o data) -> 1 < r ->
  (forall s', at_fs pid dev (<[n := Ent b (r - 1) o data]> live) d l s' -> Q tt e s') ->
  wp (bunpin b) Q e s.
Proof.
  intros Hat Hn Hr HQ. destruct (bunpin_spec pid dev live n _ e s (at_caller _ _ _ _ _ _ Hat) (at_rep _ _ _ _ _ _ Hat) Hn Hr)
    as (bs & Hrun & Hrep).
  cbn in Hrun, Hrep. wprun Hrun. apply HQ. by eapply at_bcache.
Qed.

Lemma wp_bpin live d l b n r o data (Q : unit -> interference -> kstate -> Prop) e s :
  at_fs pid dev live d l s -> live !! n = Some (Ent b r o data) -> r < 2 ^ 32 - 1 ->
  (forall s', at_fs pid dev (<[n := Ent b (r + 1) o data]> live) d l s' -> Q tt e s') ->
  wp (bpin b) Q e s.
Proof.
  intros Hat Hn Hr HQ. destruct (bpin_spec pid dev live n _ e s (at_caller _ _ _ _ _ _ Hat) (at_rep _ _ _ _ _ _ Hat) Hn Hr)
    as (bs & Hrun & Hrep).
  cbn in Hrun, Hrep. wprun Hrun. apply HQ. by eapply at_bcache.
Qed.

Lemma wp_get_log live d l (Q : logstate -> interference -> kstate -> Prop) e s :
  at_fs pid dev live d l s -> Q l e s -> wp get_log Q e s.
Proof. intros Hat HQ. unfold get_log. wp. by rewrite (at_log _ _ _ _ _ _ Hat). Qed.

Lemma wp_set_log live d l h (Q : unit -> interference -> kstate -> Prop) e s :
  at_fs pid dev live d l s -> (forall s', at_fs pid dev live d (h l) s' -> Q tt e s') -> wp (set_log h) Q e s.
Proof.
  intros [Hc [Hk Hr] Hd Hl Hrs] HQ. unfold set_log. wp. apply HQ.
  split; [by apply (caller_ext _ s)|by split|done|cbn; by rewrite Hl|done].
Qed.

Lemma wp_lh_get live d l i blk (Q : Z -> interference -> kstate -> Prop) e s :
  at_fs pid dev live d l s -> lh_block l !! i = Some blk -> Q blk e s -> wp (lh_get i) Q e s.
Proof. intros Hat Hi HQ. unfold lh_get. wp. eapply wp_get_log; [done|]. rewrite Hi. by wp. Qed.

Lemma wp_lh_set live d l i v (Q : unit -> interference -> kstate -> Prop) e s :
  at_fs pid dev live d l s -> (i < length (lh_block l))%nat ->
  (forall s', at_fs pid dev live d (l <| lh_block ::= <[i := v]> |>) s' -> Q tt e s') -> wp (lh_set i v) Q e s.
Proof.
  intros Hat Hi HQ. unfold lh_set. wp. eapply wp_get_log; [done|]. apply Nat.ltb_lt in Hi. rewrite Hi.
  by eapply wp_set_log.
Qed.

Lemma wp_copy_buf live d l b n r data b' n' r' data' (Q : unit -> interference -> kstate -> Prop) e s :
  at_fs pid dev live d l s -> live !! n = Some (Ent b r (Some pid) data) ->
  live !! n' = Some (Ent b' r' (Some pid) data') ->
  (forall s', at_fs pid dev (<[n' := Ent b' r' (Some pid) data]> live) d l s' -> Q tt e s') ->
  wp (copy_buf b b') Q e s.
Proof.
  intros Hat Hn Hn' HQ. unfold copy_buf. wp. eapply wp_get_buf; [done..|]. intros x Hx. rewrite Hx.
  by apply (wp_set_data live d l b' n' r' data' (fun _ => data)).
Qed.
End Rules.

(** ** Header blocks *)

Fixpoint put_hdr_blocks (i : nat) (blocks : list Z) (data : list Z) : list Z :=
  match blocks with
  | [] => data
  | b :: blocks' => put_hdr_blocks (S i) blocks' (put_hdr_block i b data)
  end.

(** The header that names [blocks], written over the old one. *)
Definition mk_hdr (blocks : list Z) (data : list Z) : list Z :=
  put_hdr_blocks 0 blocks (put_hdr_n (Z.of_nat (length blocks)) data).

Definition nlog : nat := Z.to_nat LOGSIZE.
Definition blockno_ok (b : Z) : Prop := 0 <= b < 2 ^ 31.

Lemma u32_i32 v : 0 <= v < 2 ^ 31 -> i32 (u32 v mod 256 ^ Z.of_nat 4) = v.
Proof.
  intros H. change (256 ^ Z.of_nat 4) with (2 ^ 32). rewrite u32_small, Z.mod_small, i32_small by lia. done.
Qed.

Lemma put_hdr_blocks_length i blocks data : length (put_hdr_blocks i blocks data) = length data.
Proof.
  revert i data. induction blocks as [|b blocks IH]; intros i data; [done|]. cbn [put_hdr_blocks]. rewrite IH. apply lput_length.
Qed.

Lemma mk_hdr_length blocks data : length (mk_hdr blocks data) = length data.
Proof. unfold mk_hdr. rewrite put_hdr_blocks_length. apply lput_length. Qed.

Lemma put_hdr_blocks_n i blocks data : hdr_n (put_hdr_blocks i blocks data) = hdr_n data.
Proof.
  revert i data. induction blocks as [|b blocks IH]; intros i data; [done|]. cbn [put_hdr_blocks]. rewrite IH.
  unfold hdr_n, put_hdr_block. by rewrite lget_lput_ne by lia.
Qed.

Lemma put_hdr_blocks_before i j blocks data :
  (j < i)%nat -> hdr_block (put_hdr_blocks i blocks data) j = hdr_block data j.
Proof.
  revert i data. induction blocks as [|b blocks IH]; intros i data Hj; [done|]. cbn [put_hdr_blocks]. rewrite IH by lia.
  unfold hdr_block, put_hdr_block. by rewrite lget_lput_ne by lia.
Qed.

Lemma put_hdr_blocks_at i j blocks b data :
  (4 + 4 * (i + length blocks) <= length data)%nat -> blocks !! j = Some b -> blockno_ok b ->
  hdr_block (put_hdr_blocks i blocks data) (i + j) = b.
Proof.
  revert i j data. induction blocks as [|c blocks IH]; intros i j data Hlen Hj Hb; [done|]. cbn [put_hdr_blocks length] in Hlen |- *.
  destruct j as [|j].
  - injection Hj as <-. rewrite put_hdr_blocks_before by lia. unfold hdr_block, put_hdr_block.
    replace (i + 0)%nat with i by lia. rewrite lget_lput by lia. by apply u32_i32.
  - replace (i + S j)%nat with (S i + j)%nat by lia. apply IH; [|done|done].
    unfold put_hdr_block. rewrite lput_length. lia.
Qed.

Lemma put_hdr_blocks_snoc i blocks b data :
  put_hdr_blocks i (blocks ++ [b]) data = put_hdr_block (i + length blocks) b (put_hdr_blocks i blocks data).
Proof.
  revert i data. induction blocks as [|c blocks IH]; intros i data; cbn [put_hdr_blocks app length].
  - by rewrite Nat.add_0_r.
  - rewrite IH. f_equal. lia.
Qed.

Lemma mk_hdr_n blocks data :
  (4 + 4 * length blocks <= length data)%nat -> Z.of_nat (length blocks) < 2 ^ 31 ->
  hdr_n (mk_hdr blocks data) = Z.of_nat (length blocks).
Proof.
  intros Hl Hb. unfold mk_hdr. rewrite put_hdr_blocks_n. unfold hdr_n, put_hdr_n.
  rewrite lget_lput by lia. apply u32_i32. lia.
Qed.

Lemma mk_hdr_block blocks j b data :
  (4 + 4 * length blocks <= length data)%nat -> blocks !! j = Some b -> blockno_ok b ->
  hdr_block (mk_hdr blocks data) j = b.
Proof.
  intros Hl Hj Hb. apply (put_hdr_blocks_at 0 j); [|done|done]. unfold put_hdr_n. rewrite lput_length. lia.
Qed.

(** ** Writing and reading the header *)

(** The writes [ws], oldest first. *)
Definition apply_writes (ws : list (Z * list Z)) (d : diskstate) : diskstate :=
  foldl (fun d w => write_block (fst w) (snd w) d) d ws.

Lemma dblock_write n data d m : dblock (write_block n data d) m = if decide (m = n) then data else dblock d m.
Proof.
  unfold dblock. cbn. case_decide as H; [by subst; rewrite lookup_insert_eq|by rewrite lookup_insert_ne].
Qed.

Lemma apply_writes_take k w ws d :
  ws !! k = Some w -> apply_writes (take (S k) ws) d = write_block (fst w) (snd w) (apply_writes (take k ws) d).
Proof. intros H. rewrite (take_S_r _ _ w) by done. unfold apply_writes. by rewrite foldl_app. Qed.

Lemma apply_writes_app ws1 ws2 d : apply_writes (ws1 ++ ws2) d = apply_writes ws2 (apply_writes ws1 d).
Proof. apply foldl_app. Qed.

(** What is read back after writes. *)
Lemma dblock_not_written ws d n : n ∉ fst <$> ws -> dblock (apply_writes ws d) n = dblock d n.
Proof.
  revert d. induction ws as [|[b data] ws IH]; intros d Hn; [done|].
  change (apply_writes ((b, data) :: ws) d) with (apply_writes ws (write_block b data d)).
  rewrite IH by set_solver. rewrite dblock_write, decide_False; [done|]. set_solver.
Qed.

Lemma dblock_written ws k b data d :
  NoDup (fst <$> ws) -> ws !! k = Some (b, data) -> dblock (apply_writes ws d) b = data.
Proof.
  intros Hnd Hk. rewrite <- (take_drop_middle ws k (b, data)) in Hnd |- * by done.
  rewrite fmap_app, fmap_cons in Hnd. apply NoDup_app in Hnd as (_ & _ & Hnd). apply NoDup_cons in Hnd as [Hb _].
  rewrite apply_writes_app. change (apply_writes ((b, data) :: ?ws) ?d) with (apply_writes ws (write_block b data d)).
  rewrite dblock_not_written by done. by rewrite dblock_write, decide_True.
Qed.

Lemma insert_twice {X} (m : gmap Z X) i j x x' y :
  <[i := x']> (<[j := y]> (<[i := x]> m)) = <[i := x']> (<[j := y]> m).
Proof.
  apply map_eq. intros k. destruct (decide (k = i)) as [->|]; [by rewrite !lookup_insert_eq|].
  rewrite !(lookup_insert_ne _ i) by done. destruct (decide (k = j)) as [->|]; [by rewrite !lookup_insert_eq|].
  by rewrite !lookup_insert_ne.
Qed.

Section Wal.
(** The log has its header at block [start] and room for [cap] blocks after it. *)
Context {R : kstate * list proc} (pid dev start cap : Z).
Local Abbreviation at_fs := (at_fs R).
Context (Hdev : 0 <= dev < 2 ^ 32) (Hstart : 0 <= start) (Hend : start + cap < 2 ^ 31) (Hcap : 0 <= cap <= LOGSIZE).
Implicit Types (live : gmap Z bent) (d : diskstate) (l : logstate) (blocks : list Z).

(** The log structure describes the log at [start], with the blocks [blocks]. *)
Record log_at (blocks : list Z) (l : logstate) : Prop := {
  la_dev : lg_dev l = dev;
  la_start : lg_start l = start;
  la_n : lh_n l = Z.of_nat (length blocks);
  la_blocks : exists rest, lh_block l = blocks ++ rest;
  la_len : length (lh_block l) = nlog;
  la_size : lg_size l = cap + 1;
  la_cap : Z.of_nat (length blocks) <= cap }.

Lemma log_at_lookup blocks l i b : log_at blocks l -> blocks !! i = Some b -> lh_block l !! i = Some b.
Proof. intros [_ _ _ [rest ->] _ _ _] H. by apply lookup_app_l_Some. Qed.

Lemma write_head_spec blocks live d l (Q : unit -> interference -> kstate -> Prop) e s :
  at_fs pid dev live d l s -> log_at blocks l -> live !! start = None -> (size live < NBUF)%nat ->
  (forall s', at_fs pid dev live (write_block start (mk_hdr blocks (dblock d start)) d) l s' -> Q tt e s') ->
  wp write_head Q e s.
Proof.
  intros Hat Hl Hn Hsz HQ. unfold write_head. wp. eapply wp_get_log; [done|].
  rewrite (la_dev _ _ Hl), (la_start _ _ Hl), (la_n _ _ Hl), Nat2Z.id, (u32_small dev), (u32_small start) by (unfold LOGSIZE, MAXOPBLOCKS in *; lia).
  wp. eapply wp_bread; [done|by unfold can_bread; rewrite Hn|]. intros b s1 _ Hat1.
  unfold brefs, bview in Hat1. rewrite Hn in Hat1. cbn in Hat1.
  wp. eapply (wp_set_data pid dev _ d l b start 1); [done|apply lookup_insert_eq|]. intros s2 Hat2. rewrite insert_insert_eq in Hat2.
  wp. set (h := fun k => put_hdr_blocks 0 (take k blocks) (put_hdr_n (Z.of_nat (length blocks)) (dblock d start))).
  apply (wp_for_seq (fun k e' s' => e' = e /\
    at_fs pid dev (<[start := Ent b 1 (Some pid) (h k)]> live) d l s')); [done| |].
  - intros k e3 s3 Hk [-> Hat3]. destruct (lookup_lt_is_Some_2 blocks k Hk) as [c Hc].
    wp. eapply wp_lh_get; [done|by eapply log_at_lookup|]. wp.
    eapply (wp_set_data pid dev _ d l b start 1); [done|apply lookup_insert_eq|]. intros s4 Hat4.
    rewrite insert_insert_eq in Hat4. split; [done|]. replace (h (S k)) with (put_hdr_block k c (h k)); [done|].
    unfold h. rewrite (take_S_r _ _ c) by done. rewrite put_hdr_blocks_snoc, length_take. f_equal. lia.
  - intros e3 s3 [-> Hat3]. unfold h in Hat3. rewrite take_ge in Hat3 by lia. fold (mk_hdr blocks (dblock d start)) in Hat3.
    wp. eapply wp_bwrite; [done|apply lookup_insert_eq|]. intros s4 Hat4.
    eapply wp_brelse; [done|apply lookup_insert_eq| |].
    + intros _. unfold dblock. cbn. by rewrite lookup_insert_eq.
    + intros s5 Hat5. apply HQ. by rewrite drop_inserted in Hat5.
Qed.

(** ** The transaction: block numbers with the contents they are to have *)

(** A block outside the log area. *)
Definition home (b : Z) : Prop := blockno_ok b /\ (b < start \/ start + cap < b).

(** The blocks of the transaction are in the cache, and no one has them locked. *)
Definition pinned (tx : list (Z * list Z)) live : Prop :=
  forall b data, (b, data) ∈ tx -> exists c r, live !! b = Some (Ent c r None data) /\ 1 <= r < 2 ^ 32 - 1.

(** Nobody uses the blocks of the log area. *)
Definition log_free live : Prop := forall k, 0 <= k <= cap -> live !! (start + k) = None.

Definition log_writes (tx : list (Z * list Z)) : list (Z * list Z) :=
  imap (fun i w => (start + Z.of_nat i + 1, snd w)) tx.

Lemma log_blockno_at blocks l k :
  log_at blocks l -> Z.of_nat k < cap -> log_blockno l k = start + Z.of_nat k + 1.
Proof.
  intros Hl Hk. unfold log_blockno. rewrite (la_start _ _ Hl). apply u32_small.
  unfold nlog, LOGSIZE, MAXOPBLOCKS in *. lia.
Qed.

(** One block of the transaction, copied into the log area. *)
Lemma write_log_step live d l k n1 b data c r e s (Q : unit -> interference -> kstate -> Prop) :
  at_fs pid dev live d l s -> live !! n1 = None -> (size live < NBUF)%nat ->
  lh_block l !! k = Some b -> blockno_ok b -> live !! b = Some (Ent c r None data) -> 1 <= r < 2 ^ 32 - 1 ->
  (forall s', at_fs pid dev live (write_block n1 data d) l s' -> Q tt e s') ->
  wp (to <- bread dev n1 ;; blk <- lh_get k ;; from <- bread dev (u32 blk) ;;
      copy_buf from to ;;; bwrite to ;;; brelse from ;;; brelse to) Q e s.
Proof.
  intros Hat Hn1 Hsz Hk Hbok Hb Hr HQ. assert (b <> n1) as Hne by congruence. unfold blockno_ok in Hbok.
  wp. eapply wp_bread; [done|by unfold can_bread; rewrite Hn1|]. intros to s1 _ H1.
  unfold brefs, bview in H1. rewrite Hn1 in H1. wp. eapply wp_lh_get; [done..|]. rewrite (u32_small b) by lia. wp.
  assert ((<[n1 := Ent to (0 + 1) (Some pid) (dblock d n1)]> live) !! b = Some (Ent c r None data)) as Hb1
    by by rewrite lookup_insert_ne.
  eapply wp_bread; [done|unfold can_bread; rewrite Hb1; split; [done|cbn [en_refs]; lia]|]. intros from s2 Hfrom H2.
  specialize (Hfrom _ Hb1). cbn in Hfrom. subst from. unfold brefs, bview in H2. rewrite Hb1 in H2. cbn [en_refs en_data] in H2. wp.
  eapply wp_copy_buf; [done|apply lookup_insert_eq|by rewrite lookup_insert_ne, lookup_insert_eq|]. intros s3 H3.
  rewrite insert_twice in H3. wp. eapply wp_bwrite; [done|apply lookup_insert_eq|]. intros s4 H4. wp.
  eapply wp_brelse; [done|by rewrite lookup_insert_ne, lookup_insert_eq|intros; lia|]. intros s5 H5.
  unfold drop_ref in H5. destruct (Z.eqb_spec (r + 1) 1) as [|_]; [lia|].
  replace (r + 1 - 1) with r in H5 by lia. rewrite insert_twice in H5.
  eapply wp_brelse; [done|by rewrite lookup_insert_ne, lookup_insert_eq|by rewrite dblock_write, decide_True|]. intros s6 H6.
  apply HQ. unfold drop_ref in H6. cbn in H6. rewrite delete_insert_ne, delete_insert_id in H6 by done.
  by rewrite insert_id in H6.
Qed.

Lemma write_log_spec tx live d l e s (Q : unit -> interference -> kstate -> Prop) :
  at_fs pid dev live d l s -> log_at (fst <$> tx) l -> pinned tx live -> log_free live -> (size live < NBUF)%nat ->
  Forall home (fst <$> tx) ->
  (forall s', at_fs pid dev live (apply_writes (log_writes tx) d) l s' -> Q tt e s') ->
  wp write_log Q e s.
Proof.
  intros Hat Hl Hpin Hfree Hsz Hhome HQ. unfold write_log. wp. eapply wp_get_log; [done|].
  rewrite (la_n _ _ Hl), Nat2Z.id, length_fmap, (la_dev _ _ Hl), (u32_small dev) by lia. pose proof (la_cap _ _ Hl) as Hle. rewrite length_fmap in Hle.
  apply (wp_for_seq (fun k e' s' => e' = e /\ at_fs pid dev live (apply_writes (take k (log_writes tx)) d) l s')); [done| |].
  - intros k e1 s1 Hk [-> H1]. destruct (lookup_lt_is_Some_2 tx k Hk) as [[b data] Htx].
    assert ((fst <$> tx) !! k = Some b) as Hb by by rewrite list_lookup_fmap, Htx.
    destruct (Hpin b data) as (c & r & Hen & Hr); [by eapply list_elem_of_lookup_2|].
    pose proof (Forall_lookup_1 _ _ _ _ Hhome Hb) as [Hbok _]. unfold blockno_ok in Hbok.
    rewrite (log_blockno_at _ _ _ Hl) by lia.
    assert (live !! (start + Z.of_nat k + 1) = None) as Hn1.
    { replace (start + Z.of_nat k + 1) with (start + (Z.of_nat k + 1)) by lia. apply Hfree.
      unfold nlog, LOGSIZE, MAXOPBLOCKS in *. lia. }
    eapply write_log_step; [done..|by eapply log_at_lookup|done|done|done|]. intros s2 H2. split; [done|].
    rewrite (take_S_r _ _ (start + Z.of_nat k + 1, data)); [|by unfold log_writes; rewrite list_lookup_imap, Htx].
    unfold apply_writes in *. by rewrite foldl_app.
  - intros e1 s1 [-> H1]. apply HQ. rewrite take_ge in H1; [done|]. unfold log_writes. by rewrite length_imap.
Qed.

(** ** Installing: the home blocks get the contents of the log area *)

(** One reference less to a block in use. *)
Definition unpin (b : Z) live : gmap Z bent :=
  match live !! b with
  | Some en => drop_ref b (en_at en) (en_refs en) None (en_data en) live
  | None => live
  end.

Definition install_body (recovering : bool) (n1 : Z) (k : nat) : K unit :=
  lbuf <- bread dev n1 ;;
  blk <- lh_get k ;;
  dbuf <- bread dev (u32 blk) ;;
  copy_buf lbuf dbuf ;;;
  bwrite dbuf ;;;
  (if recovering then retK tt else bunpin dbuf) ;;;
  brelse lbuf ;;;
  brelse dbuf.

(** After a commit: the block is pinned. *)
Lemma install_step live d l k n1 b data c r e s (Q : unit -> interference -> kstate -> Prop) :
  at_fs pid dev live d l s -> live !! n1 = None -> (size live < NBUF)%nat ->
  lh_block l !! k = Some b -> blockno_ok b -> live !! b = Some (Ent c r None data) -> 1 <= r < 2 ^ 32 - 1 ->
  dblock d n1 = data ->
  (forall s', at_fs pid dev (unpin b live) (write_block b data d) l s' -> Q tt e s') ->
  wp (install_body false n1 k) Q e s.
Proof.
  intros Hat Hn1 Hsz Hk Hbok Hb Hr Hdata HQ. assert (b <> n1) as Hne by congruence. unfold blockno_ok in Hbok.
  unfold install_body. wp. eapply wp_bread; [done|by unfold can_bread; rewrite Hn1|]. intros lb s1 _ H1.
  unfold brefs, bview in H1. rewrite Hn1, Hdata in H1. change (0 + 1) with 1 in H1. wp. eapply wp_lh_get; [done..|]. rewrite (u32_small b) by lia. wp.
  assert ((<[n1 := Ent lb 1 (Some pid) data]> live) !! b = Some (Ent c r None data)) as Hb1
    by by rewrite lookup_insert_ne.
  eapply wp_bread; [done|unfold can_bread; rewrite Hb1; split; [done|cbn [en_refs]; lia]|]. intros db s2 Hdb H2.
  specialize (Hdb _ Hb1). cbn in Hdb. subst db. unfold brefs, bview in H2. rewrite Hb1 in H2. cbn [en_refs en_data] in H2. wp.
  eapply wp_copy_buf; [done|by rewrite lookup_insert_ne, lookup_insert_eq|apply lookup_insert_eq|]. intros s3 H3.
  rewrite insert_insert_eq in H3. wp. eapply wp_bwrite; [done|apply lookup_insert_eq|]. intros s4 H4. wp.
  eapply wp_bunpin; [done|apply lookup_insert_eq|lia|]. intros s5 H5. rewrite insert_insert_eq in H5.
  replace (r + 1 - 1) with r in H5 by lia. wp.
  eapply wp_brelse; [done|by rewrite lookup_insert_ne, lookup_insert_eq|by rewrite dblock_write, decide_False|]. intros s6 H6.
  unfold drop_ref in H6. cbn in H6. rewrite delete_insert_ne, delete_insert_id in H6 by done.
  eapply wp_brelse; [done|apply lookup_insert_eq|by rewrite dblock_write, decide_True|]. intros s7 H7.
  apply HQ. unfold unpin. rewrite Hb. unfold drop_ref in *. cbn [en_at en_refs en_data].
  revert H7. destruct (r =? 1); [by rewrite delete_insert_eq|by rewrite insert_insert_eq].
Qed.

(** At boot: nothing is in use. *)
Lemma install_step_recover live d l k n1 b e s (Q : unit -> interference -> kstate -> Prop) :
  at_fs pid dev live d l s -> live !! n1 = None -> live !! b = None -> b <> n1 -> (S (size live) < NBUF)%nat ->
  lh_block l !! k = Some b -> blockno_ok b ->
  (forall s', at_fs pid dev live (write_block b (dblock d n1) d) l s' -> Q tt e s') ->
  wp (install_body true n1 k) Q e s.
Proof.
  intros Hat Hn1 Hb Hne Hsz Hk Hbok HQ. unfold blockno_ok in Hbok.
  unfold install_body. wp. eapply wp_bread; [done|unfold can_bread; rewrite Hn1; lia|]. intros lb s1 _ H1.
  unfold brefs, bview in H1. rewrite Hn1 in H1. change (0 + 1) with 1 in H1. wp. eapply wp_lh_get; [done..|]. rewrite (u32_small b) by lia. wp.
  assert ((<[n1 := Ent lb 1 (Some pid) (dblock d n1)]> live) !! b = None) as Hb1 by by rewrite lookup_insert_ne.
  eapply wp_bread; [done|unfold can_bread; rewrite Hb1, map_size_insert_None by done; lia|]. intros db s2 _ H2.
  unfold brefs, bview in H2. rewrite Hb1 in H2. change (0 + 1) with 1 in H2. wp.
  eapply wp_copy_buf; [done|by rewrite lookup_insert_ne, lookup_insert_eq|apply lookup_insert_eq|]. intros s3 H3.
  rewrite insert_insert_eq in H3. wp. eapply wp_bwrite; [done|apply lookup_insert_eq|]. intros s4 H4. wp.
  eapply wp_brelse; [done|by rewrite lookup_insert_ne, lookup_insert_eq|by rewrite dblock_write, decide_False|]. intros s6 H6.
  unfold drop_ref in H6. cbn in H6. rewrite delete_insert_ne, delete_insert_id in H6 by done.
  eapply wp_brelse; [done|apply lookup_insert_eq|by rewrite dblock_write, decide_True|]. intros s7 H7.
  apply HQ. by rewrite drop_inserted in H7.
Qed.

Lemma lookup_unpin b n live : n <> b -> unpin b live !! n = live !! n.
Proof.
  intros Hn. unfold unpin, drop_ref. destruct (live !! b) as [[c r o data]|]; [|done]. cbn.
  destruct (r =? 1); [by rewrite lookup_delete_ne|by rewrite lookup_insert_ne].
Qed.

Lemma size_unpin b live : (size (unpin b live) <= size live)%nat.
Proof.
  unfold unpin, drop_ref. destruct (live !! b) as [[c r o data]|] eqn:Hb; [|done]. cbn.
  destruct (r =? 1); [rewrite map_size_delete, Hb; cbn; lia|by rewrite map_size_insert_Some].
Qed.

(** The pins of the first transactions' blocks are gone. *)
Definition unpin_all (blocks : list Z) live : gmap Z bent := foldl (fun lv b => unpin b lv) live blocks.

Lemma lookup_unpin_all blocks n live : n ∉ blocks -> unpin_all blocks live !! n = live !! n.
Proof.
  unfold unpin_all. revert live. induction blocks as [|b blocks IH]; intros live Hn; [done|]. cbn.
  rewrite IH by set_solver. apply lookup_unpin. set_solver.
Qed.

Lemma size_unpin_all blocks live : (size (unpin_all blocks live) <= size live)%nat.
Proof.
  unfold unpin_all. revert live. induction blocks as [|b blocks IH]; intros live; [done|]. cbn.
  etrans; [apply IH|apply size_unpin].
Qed.

(** The contents of the log area survive the writes to home blocks. *)
Lemma dblock_home ws d n :
  Forall home (fst <$> ws) -> start <= n <= start + cap -> dblock (apply_writes ws d) n = dblock d n.
Proof.
  intros Hh Hn. revert d. induction ws as [|[b data] ws IH]; intros d; [done|].
  inversion Hh as [|? ? [Hb Hb'] Hh']; subst. cbn in Hb'.
  change (apply_writes ((b, data) :: ws) d) with (apply_writes ws (write_block b data d)). rewrite (IH Hh').
  rewrite dblock_write, decide_False; [done|]. lia.
Qed.

Lemma log_area_not_home blocks k :
  Forall home blocks -> Z.of_nat k < cap -> start + Z.of_nat k + 1 ∉ blocks.
Proof.
  intros Hh Hk Hin. rewrite Forall_forall in Hh. destruct (Hh _ Hin) as [_ H].
  unfold nlog, LOGSIZE, MAXOPBLOCKS in *. lia.
Qed.

(** The log area holds the contents of [tx]. *)
Definition logged (tx : list (Z * list Z)) d : Prop :=
  forall k b data, tx !! k = Some (b, data) -> dblock d (start + Z.of_nat k + 1) = data.

Lemma logged_home tx k d : Forall home (fst <$> tx) -> Z.of_nat (length tx) <= cap -> logged tx d ->
  logged tx (apply_writes (take k tx) d).
Proof.
  intros Hh Hle Hlog j b data Hj. rewrite dblock_home; [by eapply Hlog| |].
  - rewrite fmap_take. by apply Forall_take.
  - apply lookup_lt_Some in Hj. unfold nlog, LOGSIZE, MAXOPBLOCKS in *. lia.
Qed.

Lemma install_trans_spec tx live d l e s (Q : unit -> interference -> kstate -> Prop) :
  at_fs pid dev live d l s -> log_at (fst <$> tx) l -> NoDup (fst <$> tx) -> Forall home (fst <$> tx) ->
  pinned tx live -> log_free live -> (size live < NBUF)%nat -> logged tx d ->
  (forall s', at_fs pid dev (unpin_all (fst <$> tx) live) (apply_writes tx d) l s' -> Q tt e s') ->
  wp (install_trans false) Q e s.
Proof.
  intros Hat Hl Hnd Hhome Hpin Hfree Hsz Hlog HQ. unfold install_trans. wp. eapply wp_get_log; [done|].
  pose proof (la_cap _ _ Hl) as Hle. rewrite length_fmap in Hle.
  rewrite (la_n _ _ Hl), Nat2Z.id, length_fmap, (la_dev _ _ Hl), (u32_small dev) by lia.
  apply (wp_for_seq (fun k e' s' => e' = e /\
    at_fs pid dev (unpin_all (take k (fst <$> tx)) live) (apply_writes (take k tx) d) l s')); [done| |].
  - intros k e1 s1 Hk [-> H1]. destruct (lookup_lt_is_Some_2 tx k Hk) as [[b data] Htx].
    assert ((fst <$> tx) !! k = Some b) as Hb by by rewrite list_lookup_fmap, Htx.
    destruct (Hpin b data) as (c & r & Hen & Hr); [by eapply list_elem_of_lookup_2|].
    pose proof (Forall_lookup_1 _ _ _ _ Hhome Hb) as [Hbok _].
    rewrite (log_blockno_at _ _ _ Hl) by lia.
    eapply (install_step _ _ l k _ b data c r); [done| | |by eapply log_at_lookup|done| |done| |].
    + rewrite lookup_unpin_all; [|apply log_area_not_home; [by apply Forall_take|lia]].
      replace (start + Z.of_nat k + 1) with (start + (Z.of_nat k + 1)) by lia. apply Hfree.
      unfold nlog, LOGSIZE, MAXOPBLOCKS in *. lia.
    + eapply Nat.le_lt_trans; [apply size_unpin_all|done].
    + rewrite lookup_unpin_all; [done|]. intros (j & Hj)%list_elem_of_lookup_1.
      apply lookup_take_Some in Hj as [Hj Hjk]. pose proof (NoDup_lookup _ _ _ _ Hnd Hb Hj). lia.
    + by apply (logged_home tx k d Hhome Hle Hlog k b data).
    + intros s2 H2. split; [done|]. rewrite (take_S_r _ _ b) by done. unfold unpin_all in *.
      rewrite foldl_app. rewrite (apply_writes_take k (b, data)) by done. done.
  - intros e1 s1 [-> H1]. apply HQ. rewrite !take_ge in H1; [done|lia|by rewrite length_fmap].
Qed.

(** ** [commit] *)

(** The writes of a commit, in order. *)
Definition commit_writes (tx : list (Z * list Z)) (hdr : list Z) : list (Z * list Z) :=
  log_writes tx ++ [(start, mk_hdr (fst <$> tx) hdr)] ++ tx ++ [(start, mk_hdr [] (mk_hdr (fst <$> tx) hdr))].

Lemma log_writes_blocks tx n : n ∈ fst <$> log_writes tx -> start < n <= start + Z.of_nat (length tx).
Proof.
  intros (w & -> & (k & Hk)%list_elem_of_lookup_1)%list_elem_of_fmap. unfold log_writes in Hk.
  rewrite list_lookup_imap in Hk. destruct (tx !! k) eqn:Htx; [|done]. injection Hk as <-.
  apply lookup_lt_Some in Htx. cbn. lia.
Qed.

Lemma log_writes_nodup tx : NoDup (fst <$> log_writes tx).
Proof.
  apply NoDup_alt. intros i j n Hi Hj. unfold log_writes in *. rewrite list_lookup_fmap, list_lookup_imap in Hi, Hj.
  destruct (tx !! i), (tx !! j); try done. injection Hi as <-. injection Hj as Hj. lia.
Qed.

Lemma log_writes_logged tx d : logged tx (apply_writes (log_writes tx) d).
Proof.
  intros k b data Hk. apply (dblock_written _ k); [apply log_writes_nodup|].
  unfold log_writes. by rewrite list_lookup_imap, Hk.
Qed.

Lemma start_not_home blocks : Forall home blocks -> start ∉ blocks.
Proof. intros Hh Hin. rewrite Forall_forall in Hh. destruct (Hh _ Hin) as [_ H]. unfold LOGSIZE, MAXOPBLOCKS in *. lia. Qed.

Lemma log_at_empty blocks l : log_at blocks l -> log_at [] (l <| lh_n := 0 |>).
Proof. intros [H1 H2 H3 H4 H5 H6 H7]. split; [done|done|done|by exists (lh_block l)|done|done|cbn; lia]. Qed.

Lemma commit_spec tx live d l e s (Q : unit -> interference -> kstate -> Prop) :
  at_fs pid dev live d l s -> log_at (fst <$> tx) l -> tx <> [] -> NoDup (fst <$> tx) -> Forall home (fst <$> tx) ->
  pinned tx live -> log_free live -> (size live < NBUF)%nat ->
  (forall s', at_fs pid dev (unpin_all (fst <$> tx) live) (apply_writes (commit_writes tx (dblock d start)) d)
     (l <| lh_n := 0 |>) s' -> Q tt e s') ->
  wp commit Q e s.
Proof.
  intros Hat Hl Hne Hnd Hhome Hpin Hfree Hsz HQ. unfold commit. wp. eapply wp_get_log; [done|].
  rewrite (la_n _ _ Hl), length_fmap. destruct (Z.ltb_spec 0 (Z.of_nat (length tx))); [|destruct tx; [done|cbn in *; lia]].
  assert (live !! start = None) as Hs.
  { replace start with (start + 0) by lia. apply Hfree. unfold LOGSIZE, MAXOPBLOCKS. lia. }
  wp. eapply write_log_spec; [done..|]. intros s1 H1. wp.
  eapply write_head_spec; [done..|]. intros s2 H2. rewrite dblock_not_written in H2.
  2: { intros Hin%log_writes_blocks. lia. }
  set (h := mk_hdr _ _) in *. wp.
  eapply install_trans_spec; [done..| |].
  { intros k b data Hk. rewrite dblock_write, decide_False by lia. by apply (log_writes_logged tx d k b). }
  intros s3 H3. wp. eapply wp_set_log; [done|]. intros s4 H4.
  eapply write_head_spec; [done|by eapply log_at_empty| | |].
  { rewrite lookup_unpin_all; [done|by apply start_not_home]. }
  { eapply Nat.le_lt_trans; [apply size_unpin_all|done]. }
  intros s5 H5. apply HQ. unfold commit_writes. fold h. rewrite !apply_writes_app.
  rewrite dblock_not_written, dblock_write, decide_True in H5 by (done || by apply start_not_home). done.
Qed.

(** ** Recovery *)

Definition hdr_blocks (h : list Z) : list Z := hdr_block h <$> seq 0 (Z.to_nat (hdr_n h)).

(** A header that [read_head] can read: its blocks fit the table. *)
Definition hdr_ok (h : list Z) : Prop := 0 <= hdr_n h <= cap.

(** The log structure of a machine that boots. *)
Definition boot_log (l : logstate) : Prop :=
  lg_dev l = dev /\ lg_start l = start /\ length (lh_block l) = nlog /\ lg_size l = cap + 1.

Lemma read_head_spec live d l e s (Q : unit -> interference -> kstate -> Prop) :
  at_fs pid dev live d l s -> boot_log l -> live !! start = None -> (size live < NBUF)%nat ->
  hdr_ok (dblock d start) ->
  (forall l' s', at_fs pid dev live d l' s' -> log_at (hdr_blocks (dblock d start)) l' -> Q tt e s') ->
  wp read_head Q e s.
Proof.
  intros Hat (Hl1 & Hl2 & Hl3 & Hl4) Hn Hsz Hh HQ. set (h := dblock d start) in *.
  unfold read_head. wp. eapply wp_get_log; [done|].
  rewrite Hl1, Hl2, (u32_small dev), (u32_small start) by (unfold LOGSIZE, MAXOPBLOCKS in *; lia).
  wp. eapply wp_bread; [done|by unfold can_bread; rewrite Hn|]. intros b s1 _ H1.
  unfold brefs, bview in H1. rewrite Hn in H1. change (0 + 1) with 1 in H1. fold h in H1.
  wp. eapply wp_get_buf; [done|apply lookup_insert_eq|]. intros x ->. wp. eapply wp_set_log; [done|]. intros s2 H2. wp.
  set (k0 := Z.to_nat (hdr_n h)) in *.
  apply (wp_for_seq (fun k e' s' => e' = e /\ exists l', lg_dev l' = dev /\ lg_start l' = start /\
    lh_n l' = hdr_n h /\ length (lh_block l') = nlog /\ lg_size l' = cap + 1 /\
    take k (lh_block l') = hdr_block h <$> seq 0 k /\
    at_fs pid dev (<[start := Ent b 1 (Some pid) h]> live) d l' s')).
  - split; [done|]. exists (l <| lh_n := hdr_n h |>). done.
  - intros k e3 s3 Hk [-> (l3 & Hd3 & Hs3 & Hn3 & Hlen & Hz3 & Htake & H3)].
    assert (k < length (lh_block l3))%nat as Hklt by (unfold hdr_ok, nlog, LOGSIZE, MAXOPBLOCKS in *; lia).
    eapply wp_lh_set; [done|done|]. intros s4 H4. split; [done|]. eexists. repeat (split; [|]); [..|exact H4]; [done..| |done|]; cbn [lh_block upd].
    + by rewrite length_insert.
    + rewrite (take_S_r _ _ (hdr_block h k)); [|by apply list_lookup_insert_eq]. rewrite take_insert, decide_False by lia.
      by rewrite Htake, seq_S, fmap_app.
  - intros e3 s3 [-> (l3 & Hd3 & Hs3 & Hn3 & Hlen & Hz3 & Htake & H3)]. eapply wp_brelse; [done|apply lookup_insert_eq|done|].
    intros s4 H4. rewrite drop_inserted in H4 by done. apply (HQ l3); [done|].
    assert (hdr_n h = Z.of_nat (length (hdr_blocks h))) as Hk.
    { unfold hdr_blocks. rewrite length_fmap, length_seq. unfold hdr_ok in Hh. lia. }
    split; [done|done|by rewrite Hn3| |done|done|unfold hdr_ok in Hh; lia]. exists (drop k0 (lh_block l3)). unfold hdr_blocks. fold k0.
    by rewrite <- Htake, take_drop.
Qed.

(** What recovery installs: the blocks the header names, with the contents of the log area. *)
Definition replay d : list (Z * list Z) :=
  imap (fun k b => (b, dblock d (start + Z.of_nat k + 1))) (hdr_blocks (dblock d start)).

Lemma replay_blocks d : fst <$> replay d = hdr_blocks (dblock d start).
Proof.
  unfold replay. apply list_eq. intros k. rewrite list_lookup_fmap, list_lookup_imap.
  by destruct (hdr_blocks (dblock d start) !! k).
Qed.

Lemma install_trans_recover live d l e s (Q : unit -> interference -> kstate -> Prop) :
  at_fs pid dev live d l s -> log_at (hdr_blocks (dblock d start)) l -> Forall home (hdr_blocks (dblock d start)) ->
  (forall b, b ∈ hdr_blocks (dblock d start) -> live !! b = None) -> log_free live -> (S (size live) < NBUF)%nat ->
  (forall s', at_fs pid dev live (apply_writes (replay d) d) l s' -> Q tt e s') ->
  wp (install_trans true) Q e s.
Proof.
  intros Hat Hl Hhome Hnone Hfree Hsz HQ. unfold install_trans. wp. eapply wp_get_log; [done|].
  pose proof (la_cap _ _ Hl) as Hle. pose proof (replay_blocks d) as Hrb. set (blocks := hdr_blocks _) in *.
  rewrite (la_n _ _ Hl), Nat2Z.id, (la_dev _ _ Hl), (u32_small dev) by lia.
  assert (length (replay d) = length blocks) as Hlen by (rewrite <- Hrb; by rewrite length_fmap).
  apply (wp_for_seq (fun k e' s' => e' = e /\ at_fs pid dev live (apply_writes (take k (replay d)) d) l s')); [done| |].
  - intros k e1 s1 Hk [-> H1]. destruct (lookup_lt_is_Some_2 blocks k Hk) as [b Hb].
    assert (replay d !! k = Some (b, dblock d (start + Z.of_nat k + 1))) as Hr.
    { unfold replay. fold blocks. by rewrite list_lookup_imap, Hb. }
    pose proof (Forall_lookup_1 _ _ _ _ Hhome Hb) as Hbh.
    assert (b <> start + Z.of_nat k + 1) as Hne.
    { destruct Hbh as [_ Hbh]. unfold nlog, LOGSIZE, MAXOPBLOCKS in *. lia. }
    rewrite (log_blockno_at _ _ _ Hl) by lia.
    eapply (install_step_recover _ _ l k _ b); [done| | |done|done|by eapply log_at_lookup|apply Hbh|].
    + replace (start + Z.of_nat k + 1) with (start + (Z.of_nat k + 1)) by lia. apply Hfree.
      unfold nlog, LOGSIZE, MAXOPBLOCKS in *. lia.
    + apply Hnone. by eapply list_elem_of_lookup_2.
    + intros s2 H2. split; [done|]. rewrite (apply_writes_take k _ _ _ Hr). cbn [fst snd].
      rewrite dblock_home in H2; [done| |unfold nlog, LOGSIZE, MAXOPBLOCKS in *; lia].
      rewrite fmap_take, Hrb. by apply Forall_take.
  - intros e1 s1 [-> H1]. apply HQ. rewrite take_ge in H1; [done|lia].
Qed.

Lemma recover_spec live d l e s (Q : unit -> interference -> kstate -> Prop) :
  at_fs pid dev live d l s -> boot_log l -> hdr_ok (dblock d start) -> Forall home (hdr_blocks (dblock d start)) ->
  (forall b, b ∈ hdr_blocks (dblock d start) -> live !! b = None) -> log_free live -> (S (size live) < NBUF)%nat ->
  (forall l' s', at_fs pid dev live (apply_writes (replay d ++ [(start, mk_hdr [] (dblock d start))]) d) l' s' ->
     log_at [] l' -> Q tt e s') ->
  wp recover_from_log Q e s.
Proof.
  intros Hat Hl Hh Hhome Hnone Hfree Hsz HQ. unfold recover_from_log. wp.
  assert (live !! start = None) as Hs.
  { replace start with (start + 0) by lia. apply Hfree. unfold LOGSIZE, MAXOPBLOCKS. lia. }
  eapply read_head_spec; [done..|lia|done|]. intros l1 s1 H1 Hl1. wp.
  eapply install_trans_recover; [done..|]. intros s2 H2. wp. eapply wp_set_log; [done|]. intros s3 H3.
  eapply write_head_spec; [done|by eapply log_at_empty|done|lia|]. intros s4 H4.
  eapply HQ; [|by eapply log_at_empty]. rewrite apply_writes_app.
  rewrite dblock_not_written in H4; [done|]. rewrite replay_blocks. by apply start_not_home.
Qed.
End Wal.

(** ** Crash safety *)

Lemma hdr_n_empty data : (4 <= length data)%nat -> hdr_n (mk_hdr [] data) = 0.
Proof. intros H. by rewrite mk_hdr_n by (cbn; lia). Qed.

Lemma hdr_blocks_zero h : hdr_n h = 0 -> hdr_blocks h = [].
Proof. intros H. unfold hdr_blocks. by rewrite H. Qed.

Section Crash.
Context (dev start cap : Z) (tx : list (Z * list Z)) (d : diskstate).
Context (Hstart : 0 <= start) (Hhome : Forall (home start cap) (fst <$> tx)).
Context (Hlen : Z.of_nat (length tx) <= cap) (Hcap : 0 <= cap <= LOGSIZE).
Context (Hnd : NoDup (fst <$> tx)).
Context (Hblk : length (dblock d start) = Z.to_nat BSIZE) (Hzero : hdr_n (dblock d start) = 0).

Notation hdr := (mk_hdr (fst <$> tx) (dblock d start)).

Lemma hdr_room : (4 + 4 * length (fst <$> tx) <= length (dblock d start))%nat.
Proof. rewrite Hblk, length_fmap. unfold nlog, LOGSIZE, MAXOPBLOCKS, BSIZE in *. lia. Qed.

Lemma hdr_n_full : hdr_n hdr = Z.of_nat (length tx).
Proof. rewrite mk_hdr_n; [by rewrite length_fmap|apply hdr_room|]. rewrite length_fmap. unfold nlog, LOGSIZE, MAXOPBLOCKS in *. lia. Qed.

Lemma hdr_blocks_full : hdr_blocks hdr = fst <$> tx.
Proof.
  unfold hdr_blocks. rewrite hdr_n_full, Nat2Z.id. apply list_eq. intros k.
  rewrite list_lookup_fmap. destruct (decide (k < length tx)%nat) as [Hk|Hk].
  - rewrite lookup_seq_lt by done. destruct (lookup_lt_is_Some_2 (fst <$> tx) k) as [b Hb]; [by rewrite length_fmap|].
    rewrite Hb. cbn. f_equal. apply mk_hdr_block; [apply hdr_room|done|].
    by destruct (Forall_lookup_1 _ _ _ _ Hhome Hb).
  - rewrite lookup_seq_ge by lia. cbn. symmetry. apply lookup_ge_None_2. rewrite length_fmap. lia.
Qed.

(** The three stages of a commit. *)
Lemma commit_prefix ws1 ws2 :
  commit_writes start tx (dblock d start) = ws1 ++ ws2 ->
  (exists k, ws1 = take k (log_writes start tx) /\ (length ws1 <= length tx)%nat) \/
  (exists k, ws1 = log_writes start tx ++ [(start, hdr)] ++ take k tx /\ (length tx < length ws1)%nat) \/
  (ws1 = commit_writes start tx (dblock d start) /\ (length tx < length ws1)%nat).
Proof.
  intros H. assert (length (log_writes start tx) = length tx) as Hll by apply length_imap.
  assert (ws1 = take (length ws1) (commit_writes start tx (dblock d start))) as Hw by by rewrite H, take_app_length.
  assert (length ws1 <= 2 * length tx + 2)%nat as Hlw.
  { apply (f_equal length) in H. unfold commit_writes in H. rewrite !length_app in H. cbn in H. lia. }
  unfold commit_writes in Hw. set (j := length ws1) in *. destruct (decide (j <= length tx)%nat) as [Hj|Hj].
  - left. exists j. split; [|done]. rewrite Hw, take_app_le by lia. done.
  - right. rewrite take_app_ge in Hw by lia. rewrite Hll in Hw. destruct (decide (j <= 2 * length tx + 1)%nat) as [Hj2|Hj2].
    + left. exists (j - length tx - 1)%nat. split; [|lia]. rewrite Hw. f_equal.
      rewrite take_app_ge by (cbn; lia). f_equal. cbn [length]. rewrite take_app_le by lia. done.
    + right. split; [|lia]. rewrite Hw. unfold commit_writes. f_equal. rewrite take_ge; [done|].
      rewrite !length_app. cbn. lia.
Qed.

Lemma log_writes_not_home k b : home start cap b -> b ∉ fst <$> take k (log_writes start tx).
Proof.
  intros [_ Hb] Hin. rewrite fmap_take in Hin. apply elem_of_take in Hin as (i & Hi & _).
  apply list_elem_of_lookup_2, log_writes_blocks in Hi. unfold nlog, LOGSIZE, MAXOPBLOCKS in *. lia.
Qed.

Lemma start_not_log k : start ∉ fst <$> take k (log_writes start tx).
Proof.
  intros Hin. rewrite fmap_take in Hin. apply elem_of_take in Hin as (i & Hi & _).
  apply list_elem_of_lookup_2, log_writes_blocks in Hi. lia.
Qed.

(** What a block has after the transaction depends on what was there before only if the
    transaction does not write it. *)
Lemma dblock_tx b d' : (b ∉ fst <$> tx -> dblock d' b = dblock d b) ->
  dblock (apply_writes tx d') b = dblock (apply_writes tx d) b.
Proof.
  intros H. destruct (decide (b ∈ fst <$> tx)) as [Hin|Hin].
  - apply list_elem_of_fmap in Hin as ([c data] & -> & (k & Hk)%list_elem_of_lookup_1).
    by rewrite !(dblock_written tx k c data).
  - by rewrite !dblock_not_written, H.
Qed.

Lemma dblock_before_tx k b :
  home start cap b -> b ∉ fst <$> tx ->
  dblock (apply_writes (log_writes start tx ++ [(start, hdr)] ++ take k tx) d) b = dblock d b.
Proof.
  intros Hb Hin. rewrite dblock_not_written; [done|]. rewrite !fmap_app. intros [H|[H|H]%elem_of_app]%elem_of_app.
  - rewrite <- (take_ge (log_writes start tx) (length (log_writes start tx))) in H by lia. by apply log_writes_not_home in H.
  - apply list_elem_of_singleton in H as ->. destruct Hb as [_ Hb]. cbn in Hb. unfold LOGSIZE, MAXOPBLOCKS in *. lia.
  - rewrite fmap_take in H. apply elem_of_take in H as (i & Hi & _). by apply list_elem_of_lookup_2 in Hi.
Qed.

(** The disk after recovery from [d1]. *)
Definition recovered (d1 : diskstate) : diskstate :=
  apply_writes (replay start d1 ++ [(start, mk_hdr [] (dblock d1 start))]) d1.

Lemma recovered_idle d1 b : hdr_n (dblock d1 start) = 0 -> home start cap b -> dblock (recovered d1) b = dblock d1 b.
Proof.
  intros Hz [_ Hb]. unfold recovered, replay. rewrite hdr_blocks_zero by done. cbn.
  rewrite dblock_write, decide_False; [done|]. unfold LOGSIZE, MAXOPBLOCKS in *. lia.
Qed.

(** Recovery can run on [d1], and makes it [want] outside the log area. *)
Definition recovers (d1 : diskstate) (want : Z -> list Z) : Prop :=
  hdr_ok cap (dblock d1 start) /\ Forall (home start cap) (hdr_blocks (dblock d1 start)) /\
  length (dblock d1 start) = Z.to_nat BSIZE /\ forall b, home start cap b -> dblock (recovered d1) b = want b.

Lemma recovers_idle d1 want :
  hdr_n (dblock d1 start) = 0 -> length (dblock d1 start) = Z.to_nat BSIZE ->
  (forall b, home start cap b -> dblock d1 b = want b) -> recovers d1 want.
Proof.
  intros Hz Hl Hw. split; [unfold hdr_ok; rewrite Hz; lia|]. rewrite hdr_blocks_zero by done. split; [constructor|].
  split; [done|]. intros b Hb. rewrite recovered_idle by done. by apply Hw.
Qed.

Lemma recovers_before k : recovers (apply_writes (take k (log_writes start tx)) d) (dblock d).
Proof.
  assert (dblock (apply_writes (take k (log_writes start tx)) d) start = dblock d start) as H
    by (apply dblock_not_written, start_not_log).
  apply recovers_idle; [by rewrite H..|]. intros b Hb. by apply dblock_not_written, log_writes_not_home.
Qed.

Lemma recovers_during k :
  recovers (apply_writes (log_writes start tx ++ [(start, hdr)] ++ take k tx) d) (dblock (apply_writes tx d)).
Proof.
  set (d2 := apply_writes (log_writes start tx ++ [(start, hdr)]) d).
  assert (apply_writes (log_writes start tx ++ [(start, hdr)] ++ take k tx) d = apply_writes (take k tx) d2) as Hd1.
  { unfold d2. by rewrite <- apply_writes_app, <- app_assoc. }
  set (d1 := apply_writes (take k tx) d2) in *.
  assert (dblock d1 start = hdr) as Hh.
  { unfold d1, d2. rewrite dblock_not_written, apply_writes_app; [cbn; by rewrite dblock_write, decide_True|].
    rewrite fmap_take. apply (start_not_home start cap); [done|]. by apply Forall_take. }
  assert (logged start tx d1) as Hlog.
  { apply (logged_home start cap); [done..|]. intros j b data Hj. unfold d2. rewrite apply_writes_app. cbn.
    rewrite dblock_write, decide_False by lia. by apply (log_writes_logged start tx d j b). }
  assert (replay start d1 = tx) as Hreplay.
  { unfold replay. rewrite Hh, hdr_blocks_full. apply list_eq. intros j. rewrite list_lookup_imap, list_lookup_fmap.
    destruct (tx !! j) as [[b data]|] eqn:Hj; [|done]. cbn. by rewrite (Hlog j b data). }
  rewrite Hd1. split; [|split; [|split]].
  - unfold hdr_ok. rewrite Hh, hdr_n_full. unfold nlog, LOGSIZE, MAXOPBLOCKS in *. lia.
  - by rewrite Hh, hdr_blocks_full.
  - by rewrite Hh, mk_hdr_length.
  - intros b Hb. unfold recovered. rewrite Hreplay, apply_writes_app. cbn. rewrite dblock_write, decide_False.
    + apply dblock_tx. intros Hin. rewrite <- Hd1. by apply dblock_before_tx.
    + destruct Hb as [_ Hb]. unfold LOGSIZE, MAXOPBLOCKS in *. lia.
Qed.

Lemma commit_writes_snoc :
  commit_writes start tx (dblock d start) =
  (log_writes start tx ++ [(start, hdr)] ++ tx) ++ [(start, mk_hdr [] hdr)].
Proof. unfold commit_writes. by rewrite <- !app_assoc. Qed.

(** After the whole commit, every block is as the transaction has it. *)
Lemma dblock_after b :
  home start cap b ->
  dblock (apply_writes (commit_writes start tx (dblock d start)) d) b = dblock (apply_writes tx d) b.
Proof.
  intros Hb. rewrite commit_writes_snoc, apply_writes_app.
  change (apply_writes [(start, ?x)] ?y) with (write_block start x y).
  rewrite dblock_write, decide_False by (destruct Hb as [_ Hb]; unfold LOGSIZE, MAXOPBLOCKS in *; lia).
  rewrite app_assoc, apply_writes_app. apply dblock_tx. intros Hin.
  pose proof (dblock_before_tx 0 b Hb Hin) as H. by rewrite take_0, app_nil_r in H.
Qed.

Lemma recovers_after : recovers (apply_writes (commit_writes start tx (dblock d start)) d) (dblock (apply_writes tx d)).
Proof.
  assert (dblock (apply_writes (commit_writes start tx (dblock d start)) d) start = mk_hdr [] hdr) as H.
  { rewrite commit_writes_snoc, apply_writes_app.
    change (apply_writes [(start, ?x)] ?y) with (write_block start x y). by rewrite dblock_write, decide_True. }
  apply recovers_idle; rewrite ?H; [|by rewrite !mk_hdr_length|exact dblock_after].
  apply hdr_n_empty. rewrite mk_hdr_length, Hblk. unfold BSIZE. lia.
Qed.
End Crash.

(** The machine is about to commit the transaction [tx]: its blocks are logged in memory, pinned
    in the cache and unlocked, there is a spare buffer, and the header on the disk is empty. *)
Record committing (pid dev start cap : Z) (tx : list (Z * list Z)) (live : gmap Z bent) (s : kstate) : Prop := {
  cm_caller : caller pid s;
  cm_rep : brep dev live s;
  cm_log : log_at dev start cap (fst <$> tx) (log s);
  cm_dev : 0 <= dev < 2 ^ 32;
  cm_start : 0 <= start /\ start + cap < 2 ^ 31;
  cm_cap : 0 <= cap <= LOGSIZE;
  cm_some : tx <> [];
  cm_nodup : NoDup (fst <$> tx);
  cm_home : Forall (home start cap) (fst <$> tx);
  cm_pinned : pinned tx live;
  cm_free : log_free start cap live;
  cm_spare : (size live < NBUF)%nat;
  cm_block : length (dblock (disk s) start) = Z.to_nat BSIZE;
  cm_empty : hdr_n (dblock (disk s) start) = 0 }.

(** The machine boots again: an empty cache, and the disk [d]. *)
Record rebooted (pid dev start cap : Z) (d : diskstate) (s : kstate) : Prop := {
  rb_caller : caller pid s;
  rb_rep : brep dev ∅ s;
  rb_log : boot_log dev start cap (log s);
  rb_disk : disk s = d }.

Lemma recover_crashed pid dev start cap d want e s :
  rebooted pid dev start cap d s -> 0 <= dev < 2 ^ 32 -> 0 <= start /\ start + cap < 2 ^ 31 ->
  0 <= cap <= LOGSIZE ->
  recovers start cap d want ->
  exists s', recover_from_log e s = Ok tt e s' /\ hdr_n (dblock (disk s') start) = 0 /\
    forall b, home start cap b -> dblock (disk s') b = want b.
Proof.
  intros [Hc Hr Hl Hd] Hdev [Hs0 Hs1] Hcap (Hok & Hhome & Hlen & Hwant).
  enough (wp recover_from_log (fun _ e' s' => e' = e /\ disk s' = recovered start d) e s) as H.
  { apply wp_run in H as ([] & e' & s' & Hrun & -> & Hd'). exists s'. split; [done|]. rewrite Hd'.
    split; [|done]. unfold recovered. rewrite apply_writes_app.
    change (apply_writes [(start, ?x)] ?y) with (write_block start x y). rewrite dblock_write, decide_True by done.
    apply hdr_n_empty. rewrite Hlen. unfold BSIZE. lia. }
  eapply (recover_spec pid dev start cap Hdev Hs0 Hs1 Hcap ∅ d (log s)); try done.
  - rewrite map_size_empty. unfold NBUF. lia.
  - intros l' s' [_ _ Hd' _] _. done.
Qed.

Lemma commit_atomic pid dev start cap tx live e s :
  committing pid dev start cap tx live s ->
  exists ws s', commit e s = Ok tt e s' /\ disk s' = apply_writes ws (disk s) /\
    (forall b, home start cap b -> dblock (disk s') b = dblock (apply_writes tx (disk s)) b) /\
    forall ws1 ws2 pid1 e1 s1, ws = ws1 ++ ws2 -> rebooted pid1 dev start cap (apply_writes ws1 (disk s)) s1 ->
      exists s2, recover_from_log e1 s1 = Ok tt e1 s2 /\ hdr_n (dblock (disk s2) start) = 0 /\
        forall b, home start cap b -> dblock (disk s2) b =
          if decide (length ws1 <= length tx)%nat then dblock (disk s) b
          else dblock (apply_writes tx (disk s)) b.
Proof.
  intros [Hc Hr Hl Hdev Hst Hcap Hne Hnd Hh Hp Hf Hsp Hb Hz]. pose proof (la_cap _ _ _ _ _ Hl) as Hlen.
  rewrite length_fmap in Hlen. destruct Hst as [Hs0 Hs1]. set (d := disk s) in *.
  enough (wp commit (fun _ e' s' => e' = e /\ disk s' = apply_writes (commit_writes start tx (dblock d start)) d) e s) as H.
  2: { eapply (commit_spec pid dev start cap Hdev Hs0 Hs1 Hcap tx live d (log s)); try done.
       intros s' [_ _ Hd' _]. done. }
  apply wp_run in H as ([] & e' & s' & Hrun & -> & Hd'). exists (commit_writes start tx (dblock d start)), s'.
  split; [done|]. split; [done|]. split.
  - intros b Hbh. rewrite Hd'. by apply (dblock_after start cap).
  - intros ws1 ws2 pid1 e1 s1 Hws Hboot.
    assert (recovers start cap (apply_writes ws1 d)
      (if decide (length ws1 <= length tx)%nat then dblock d else dblock (apply_writes tx d))) as Hrec.
    { destruct (commit_prefix start tx d Hb ws1 ws2 Hws) as [(k & Hw & Hk)|[(k & Hw & Hk)|[Hw Hk]]];
        [rewrite decide_True by done|rewrite decide_False by lia..]; rewrite Hw;
        [by apply (recovers_before start cap)|by apply (recovers_during start cap)|by apply (recovers_after start cap)]. }
    destruct (recover_crashed pid1 dev start cap _ _ e1 s1 Hboot Hdev (conj Hs0 Hs1) Hcap Hrec) as (s2 & Hr2 & Hn2 & Hw2).
    exists s2. split; [done|]. split; [done|]. intros b Hbh. rewrite (Hw2 b Hbh). by case_decide.
Qed.

(** The log makes transactions atomic.  [commit] returns, with every block as the transaction
    has it.  If the machine crashes after any number of the block writes that [commit] sends to
    the disk, then [recover_from_log], run after the reboot, returns with an empty log: with all
    blocks as before the transaction when the header of the log was not written yet, and with
    all blocks as the transaction has them when it was. *)
Theorem log_crash_safe pid dev start cap tx live e s :
  committing pid dev start cap tx live s ->
  exists ws s', commit e s = Ok tt e s' /\ disk s' = apply_writes ws (disk s) /\
    (forall b, home start cap b -> dblock (disk s') b = dblock (apply_writes tx (disk s)) b) /\
    forall ws1 ws2 pid1 e1 s1, ws = ws1 ++ ws2 -> rebooted pid1 dev start cap (apply_writes ws1 (disk s)) s1 ->
      exists s2, recover_from_log e1 s1 = Ok tt e1 s2 /\ hdr_n (dblock (disk s2) start) = 0 /\
        forall b, home start cap b -> dblock (disk s2) b =
          if decide (length ws1 <= length tx)%nat then dblock (disk s) b
          else dblock (apply_writes tx (disk s)) b.
Proof. apply commit_atomic. Qed.

(** ** [log_write] *)

(** The blocks of the transaction after [log_write] of block [n]. *)
Definition log_add (n : Z) (blocks : list Z) : list Z := if decide (n ∈ blocks) then blocks else blocks ++ [n].

Lemma absorb_index_spec n blocks rest :
  Forall blockno_ok blocks ->
  let i := absorb_index (length blocks) (blocks ++ rest) n in
  if decide (n ∈ blocks) then blocks !! i = Some n else i = length blocks.
Proof.
  induction 1 as [|b blocks Hb Hbs IH]; cbn zeta; [by case_decide; [set_solver|destruct rest]|].
  cbn [length app absorb_index]. unfold blockno_ok in Hb. rewrite (u32_small b) by lia. destruct (Z.eqb_spec b n) as [->|Hbn].
  - by rewrite decide_True by set_solver.
  - cbn zeta in IH. case_decide as Hin; case_decide as Hin'; [done|set_solver|set_solver|by rewrite IH].
Qed.

Lemma brep_ext dev live s s' : bcache s' = bcache s -> disk s' = disk s -> brep dev live s -> brep dev live s'.
Proof. intros Hb Hd [H1 H2]. split; [by rewrite Hd, Hb|by rewrite Hb]. Qed.

Lemma log_at_add dev start cap blocks n i l :
  log_at dev start cap blocks l -> Z.of_nat (length blocks) < cap -> cap <= LOGSIZE ->
  (if decide (n ∈ blocks) then blocks !! i = Some n else i = length blocks) ->
  log_at dev start cap (log_add n blocks)
    (l <| lh_block ::= <[i := n]> |> <| lh_n := if decide (n ∈ blocks) then lh_n l else lh_n l + 1 |>).
Proof.
  intros [H1 H2 H3 [rest H4] H5 H6 H7] Hlen Hcap Hi. unfold log_add. case_decide as Hin.
  - split; cbn; [done..| |by rewrite length_insert|done|done]. exists rest. rewrite H4. apply list_insert_id.
    by apply lookup_app_l_Some.
  - subst i. split; cbn; [done|done|rewrite H3, length_app; cbn; lia| |by rewrite length_insert|done|rewrite length_app; cbn; lia].
    rewrite H4. exists (drop 1 rest). destruct rest as [|x rest].
    + rewrite H4, app_nil_r in H5. unfold nlog in H5. lia.
    + cbn. rewrite insert_app_r_alt, Nat.sub_diag by done. cbn. by rewrite <- app_assoc.
Qed.

Lemma log_write_spec pid dev start cap blocks live b n r data e s :
  caller pid s -> held s = [] -> brep dev live s -> log_at dev start cap blocks (log s) -> Forall blockno_ok blocks ->
  Z.of_nat (length blocks) < cap -> cap <= LOGSIZE -> 1 <= lg_outstanding (log s) ->
  live !! n = Some (Ent b r (Some pid) data) -> r < 2 ^ 32 - 1 -> blockno_ok n ->
  exists s', log_write b e s = Ok tt e s' /\ caller pid s' /\ held s' = [] /\ disk s' = disk s /\
    log_at dev start cap (log_add n blocks) (log s') /\
    lg_outstanding (log s') = lg_outstanding (log s) /\
    brep dev (if decide (n ∈ blocks) then live else <[n := Ent b (r + 1) (Some pid) data]> live) s'.
Proof.
  intros Hc Hh Hrep Hl Hbs Hlen Hcap Hout Hn Hr Hnok.
  destruct (get_buf_block pid dev live b n r data e s Hrep Hn) as (x & Hg & _ & Hxn).
  unfold log_write. kstep Hg. kstep (acquire_free L_log e s ltac:(rewrite Hh; set_solver)).
  set (s1 := s <| held ::= cons L_log |>). unfold get_log at 1.
  kstep (getsK_run (fun s => log s) e s1). change (log s1) with (log s).
  pose proof (la_n _ _ _ _ _ Hl) as Hnn. pose proof (la_size _ _ _ _ _ Hl) as Hsize.
  destruct (Z.leb_spec LOGSIZE (lh_n (log s))); [lia|].
  destruct (Z.leb_spec (lg_size (log s) - 1) (lh_n (log s))); [lia|]. cbn [orb].
  destruct (Z.ltb_spec (lg_outstanding (log s)) 1); [lia|].
  destruct (la_blocks _ _ _ _ _ Hl) as [rest Hlb]. unfold blockno_ok in Hnok.
  rewrite Hxn, Hlb, Hnn, Nat2Z.id, i32_small by lia.
  pose proof (absorb_index_spec n blocks rest Hbs) as Hi. cbn zeta in Hi. set (i := absorb_index _ _ _) in *.
  assert (i < length (lh_block (log s)))%nat as Hilt.
  { rewrite (la_len _ _ _ _ _ Hl). unfold nlog. revert Hi. case_decide; intros Hi; [|lia].
    apply lookup_lt_Some in Hi. lia. }
  set (s2 := s1 <| log ::= (fun l => l <| lh_block ::= <[i := n]> |>) |>).
  assert (lh_set i n e s1 = Ok tt e s2) as Hset.
  { unfold lh_set, get_log, set_log. kstep (getsK_run (fun s => log s) e s1). change (log s1) with (log s).
    apply Nat.ltb_lt in Hilt. by rewrite Hilt. }
  kstep Hset. assert (caller pid s2) as Hc2.
  { destruct Hc as [Hp Ht _]. split; [done|done|]. cbn. rewrite Hh. set_solver. }
  pose proof (log_at_add dev start cap blocks n i (log s) Hl Hlen Hcap Hi) as Hadd.
  revert Hi Hadd. case_decide as Hin; intros Hi Hadd.
  - apply lookup_lt_Some in Hi. destruct (Z.eqb_spec (Z.of_nat i) (Z.of_nat (length blocks))); [lia|]. rewrite bindK_ret.
    eexists. split; [apply (release_top _ _ _ []); cbn; by rewrite Hh|].
    split; [apply (caller_ext _ s); [done|done|by rewrite Hh|done]|]. repeat (split; [done|]).
    by apply (brep_ext dev live s).
  - subst i. rewrite Hi, Z.eqb_refl. assert (brep dev live s2) as Hrep2 by by apply (brep_ext dev live s).
    destruct (bpin_spec pid dev live n _ e s2 Hc2 Hrep2 Hn Hr) as (bs & Hpin & Hrep3). cbn [en_at en_refs en_owner en_data] in *.
    assert ((bpin b ;;; set_log (fun l => l <| lh_n := lh_n l + 1 |>)) e s2 =
      Ok tt e (s2 <| bcache := bs |> <| log ::= (fun l => l <| lh_n := lh_n l + 1 |>) |>)) as Hrun by by kstep Hpin.
    kstep Hrun. eexists. split; [apply (release_top _ _ _ []); cbn; by rewrite Hh|].
    split; [apply (caller_ext _ s); [done|done|by rewrite Hh|done]|]. repeat (split; [done|]).
    by apply (brep_ext dev _ (s2 <| bcache := bs |>)).
Qed.

(** ** A transaction, from its first write to the commit *)

(** The transaction after block [n] was given the contents [data]. *)
Definition tx_set (n : Z) (data : list Z) (tx : list (Z * list Z)) : list (Z * list Z) :=
  if decide (n ∈ fst <$> tx) then (fun w => if decide (fst w = n) then (n, data) else w) <$> tx
  else tx ++ [(n, data)].

(** The transaction [tx] is under way: its blocks are logged in memory and pinned. *)
Record open_tx (pid dev start cap : Z) (tx : list (Z * list Z)) (live : gmap Z bent) (s : kstate) : Prop := {
  ot_caller : caller pid s;
  ot_held : held s = [];
  ot_rep : brep dev live s;
  ot_log : log_at dev start cap (fst <$> tx) (log s);
  ot_out : 1 <= lg_outstanding (log s);
  ot_nodup : NoDup (fst <$> tx);
  ot_home : Forall (home start cap) (fst <$> tx);
  ot_pinned : pinned tx live;
  ot_free : log_free start cap live }.

(** An update of a block inside a transaction, as kernel/fs.c makes them. *)
Definition log_op (dev n : Z) (g : list Z -> list Z) : K unit :=
  b <- bread dev n ;;
  set_buf b (fun x => x <| b_data ::= g |>) ;;;
  log_write b ;;;
  brelse b.

Lemma tx_set_blocks n data tx : fst <$> tx_set n data tx = log_add n (fst <$> tx).
Proof.
  unfold tx_set, log_add. case_decide; [|by rewrite fmap_app]. rewrite <- list_fmap_compose.
  apply list_fmap_ext. intros i [b c] _. cbn. by case_decide.
Qed.

Lemma log_add_nodup n blocks : NoDup blocks -> NoDup (log_add n blocks).
Proof.
  intros H. unfold log_add. case_decide as Hin; [done|]. apply NoDup_app. split; [done|]. split; [set_solver|apply NoDup_singleton].
Qed.

Lemma elem_of_log_add n b blocks : b ∈ log_add n blocks <-> b = n \/ b ∈ blocks.
Proof. unfold log_add. case_decide; set_solver. Qed.

Lemma elem_of_tx_set n data b c tx :
  (b, c) ∈ tx_set n data tx -> (b = n /\ c = data) \/ (b <> n /\ (b, c) ∈ tx).
Proof.
  unfold tx_set. case_decide as Hin.
  - intros ([b' c'] & Heq & Hb)%list_elem_of_fmap. cbn in Heq. case_decide; injection Heq as -> ->; [by left|by right].
  - intros [Hb|Hb]%elem_of_app; [right|left].
    + split; [|done]. intros ->. apply Hin. apply list_elem_of_fmap. by exists (n, c).
    + apply list_elem_of_singleton in Hb. by injection Hb as -> ->.
Qed.

(** The map after the four steps of [log_op]. *)
Definition live_op (n : Z) (b : nat) (data : list Z) (logged : bool) (live : gmap Z bent) : gmap Z bent :=
  <[n := Ent b (if logged then brefs live n else brefs live n + 1) None data]> live.

Lemma brefs_nonneg dev live d bs n : cache_ok dev live d bs -> 0 <= brefs live n.
Proof.
  intros Hok. unfold brefs. destruct (live !! n) as [en|] eqn:Hen; [|done].
  destruct (co_ent_full _ _ _ _ Hok n en Hen) as (x & _ & _ & _ & _ & _ & Hr & Heq).
  apply (f_equal en_refs) in Heq. cbn in Heq. lia.
Qed.

Lemma pinned_refs tx live n : pinned tx live -> n ∈ fst <$> tx -> 1 <= brefs live n < 2 ^ 32 - 1.
Proof.
  intros Hpin ([b data] & -> & Hin)%list_elem_of_fmap. destruct (Hpin b data Hin) as (c & r & Hen & Hr).
  cbn. unfold brefs. by rewrite Hen.
Qed.

Lemma open_tx_step pid dev start cap tx live n b data s s' :
  open_tx pid dev start cap tx live s -> home start cap n -> brefs live n < 2 ^ 32 - 2 ->
  0 <= brefs live n -> caller pid s' -> held s' = [] -> 1 <= lg_outstanding (log s') ->
  log_at dev start cap (log_add n (fst <$> tx)) (log s') ->
  brep dev (live_op n b data (bool_decide (n ∈ fst <$> tx)) live) s' ->
  open_tx pid dev start cap (tx_set n data tx) (live_op n b data (bool_decide (n ∈ fst <$> tx)) live) s'.
Proof.
  intros [_ _ _ _ _ Hnd Hhome Hpin Hfree] Hn Hr Hr0 Hc Hh Ho Hl Hrep. split; rewrite ?tx_set_blocks; try done.
  - by apply log_add_nodup.
  - apply Forall_forall. intros c [->|Hc']%elem_of_log_add; [done|]. rewrite Forall_forall in Hhome. auto.
  - intros c dt [[-> ->]|[Hcn Hin]]%elem_of_tx_set; unfold live_op.
    + rewrite lookup_insert_eq. eexists _, _. split; [done|]. case_bool_decide as Hin; [|lia]. by apply (pinned_refs tx).
    + rewrite lookup_insert_ne by done. by apply Hpin.
  - intros k Hk. unfold live_op. rewrite lookup_insert_ne; [by apply Hfree|]. intros ->. destruct Hn as [_ Hn]. lia.
Qed.

Lemma log_op_spec pid dev start cap tx live n g e s :
  open_tx pid dev start cap tx live s -> home start cap n -> can_bread live n -> brefs live n < 2 ^ 32 - 2 ->
  Z.of_nat (length tx) < cap -> cap <= LOGSIZE ->
  exists b s', log_op dev n g e s = Ok tt e s' /\ disk s' = disk s /\
    open_tx pid dev start cap (tx_set n (g (bview live (disk s) n)) tx)
      (live_op n b (g (bview live (disk s) n)) (bool_decide (n ∈ fst <$> tx)) live) s'.
Proof.
  intros Hopen Hn Hcan Hrefs Hlen Hsize. pose proof Hopen as [Hc Hh Hrep Hl Ho Hnd Hhome Hpin Hfree].
  pose proof (brefs_nonneg _ _ _ _ n (br_cache _ _ _ Hrep)) as Hr0.
  destruct (bread_spec pid dev n live e s Hc Hrep Hcan) as (b & bs & Hr1 & Hrep1 & Hat).
  set (r := brefs live n) in *. set (v := bview live (disk s) n) in *. set (s1 := s <| bcache := bs |>) in *.
  destruct (set_data_spec pid dev _ b n (r + 1) v g e s1 Hrep1 ltac:(apply lookup_insert_eq)) as (bs2 & Hr2 & Hrep2).
  rewrite insert_insert_eq in Hrep2. set (s2 := s1 <| bcache := bs2 |>) in *.
  assert (caller pid s2) as Hc2 by by apply (caller_ext _ s).
  assert (Forall blockno_ok (fst <$> tx)) as Hbs by (eapply Forall_impl; [exact Hhome|]; by intros ? []).
  destruct (log_write_spec pid dev start cap (fst <$> tx) _ b n (r + 1) (g v) e s2 Hc2 Hh Hrep2 Hl Hbs)
    as (s3 & Hr3 & Hc3 & Hh3 & Hd3 & Hl3 & Ho3 & Hrep3); [by rewrite length_fmap|done|done|apply lookup_insert_eq|lia|apply Hn|].
  set (r3 := if bool_decide (n ∈ fst <$> tx) then r + 1 else r + 2).
  assert (brep dev (<[n := Ent b r3 (Some pid) (g v)]> live) s3 /\ 1 < r3) as [Hrep4 Hr3'].
  { revert Hrep3. unfold r3. case_decide as Hin; [rewrite bool_decide_true by done|rewrite bool_decide_false by done; rewrite insert_insert_eq].
    - pose proof (pinned_refs tx live n Hpin Hin). fold r in H. intros ?. split; [done|lia].
    - replace (r + 1 + 1) with (r + 2) by lia. intros ?. split; [done|lia]. }
  destruct (brelse_spec pid dev _ b n r3 (g v) e s3 Hc3 Hrep4 ltac:(apply lookup_insert_eq)) as (s4 & Hr4 & Hc4 & (bs4 & ps4 & Hs4 & _) & Hrep5); [lia|].
  exists b, s4. split; [unfold log_op; kstep Hr1; kstep Hr2; kstep Hr3; done|].
  rewrite Hs4 at 1. split; [done|].
  apply (open_tx_step pid dev start cap tx live n b (g v) s); try done; try (by rewrite Hs4).
  - rewrite Hs4. change (1 <= lg_outstanding (log s3)). rewrite Ho3. done.
  - revert Hrep5. unfold drop_ref. destruct (Z.eqb_spec r3 1); [lia|]. rewrite insert_insert_eq. unfold live_op, r3.
    case_bool_decide; [by replace (r + 1 - 1) with r by lia|by replace (r + 2 - 1) with (r + 1) by lia].
Qed.

Fixpoint run_log_ops (dev : Z) (ops : list (Z * (list Z -> list Z))) : K unit :=
  match ops with
  | [] => retK tt
  | (n, g) :: ops' => log_op dev n g ;;; run_log_ops dev ops'
  end.

(** The same updates, made directly. *)
Definition update (n : Z) (g : list Z -> list Z) (v : Z -> list Z) : Z -> list Z :=
  fun b => if decide (b = n) then g (v n) else v b.
Definition updates (ops : list (Z * (list Z -> list Z))) (v : Z -> list Z) : Z -> list Z :=
  foldl (fun v o => update (fst o) (snd o) v) v ops.

(** Only the transaction's blocks are in use, once each, and the cache shows the contents [v]. *)
Record only_tx (d : diskstate) (tx : list (Z * list Z)) (live : gmap Z bent) (v : Z -> list Z) : Prop := {
  only_live : forall n en, live !! n = Some en -> n ∈ fst <$> tx /\ en_owner en = None /\ en_refs en = 1;
  only_size : (size live <= length tx)%nat;
  only_view : forall b, bview live d b = v b }.

Lemma length_tx_set n data tx :
  length (tx_set n data tx) = if decide (n ∈ fst <$> tx) then length tx else S (length tx).
Proof. unfold tx_set. case_decide; [by rewrite length_fmap|]. rewrite length_app. cbn. lia. Qed.

Lemma only_tx_step d tx live v n b g :
  only_tx d tx live v -> pinned tx live ->
  only_tx d (tx_set n (g (bview live d n)) tx)
    (live_op n b (g (bview live d n)) (bool_decide (n ∈ fst <$> tx)) live) (update n g v).
Proof.
  intros [Hlive Hsize Hview] Hpin.
  assert (forall en, live !! n = Some en -> n ∈ fst <$> tx /\ en_refs en = 1) as Hn by naive_solver.
  split; unfold live_op.
  - intros m en. rewrite tx_set_blocks, elem_of_log_add. destruct (decide (m = n)) as [->|Hm].
    + rewrite lookup_insert_eq. intros [= <-]. split; [by left|]. split; [done|]. cbn. unfold brefs.
      case_bool_decide as Hin.
      * apply list_elem_of_fmap in Hin as ([c dt] & -> & Hin). destruct (Hpin _ _ Hin) as (k & r & Hen & _). cbn.
        rewrite Hen. by destruct (Hlive _ _ Hen) as (_ & _ & ?).
      * destruct (live !! n) as [en|] eqn:Hen; [|done]. by destruct (Hn en eq_refl).
    + rewrite lookup_insert_ne by done. intros Hen. destruct (Hlive m en Hen) as (? & ? & ?). auto.
  - rewrite length_tx_set, map_size_insert. case_decide as Hin.
    + destruct (live !! n) eqn:Hen; [done|]. exfalso. apply list_elem_of_fmap in Hin as ([c dt] & -> & Hin).
      destruct (Hpin _ _ Hin) as (k & r & Hen' & _). cbn in Hen. congruence.
    + destruct (live !! n); cbn; lia.
  - intros m. unfold bview, update. destruct (decide (m = n)) as [->|Hm].
    + rewrite lookup_insert_eq. cbn. fold (bview live d n). by rewrite Hview.
    + rewrite lookup_insert_ne by done. apply Hview.
Qed.

Lemma only_tx_apply d tx live v b :
  only_tx d tx live v -> pinned tx live -> NoDup (fst <$> tx) -> dblock (apply_writes tx d) b = v b.
Proof.
  intros [Hlive _ Hview] Hpin Hnd. rewrite <- Hview. unfold bview. destruct (live !! b) as [en|] eqn:Hen.
  - destruct (Hlive b en Hen) as (([c data] & -> & Hin)%list_elem_of_fmap & _). pose proof Hin as (k & Hk)%list_elem_of_lookup_1.
    destruct (Hpin c data Hin) as (at_ & r & Hen' & _). cbn in *. rewrite Hen in Hen'. injection Hen' as ->.
    by apply (dblock_written tx k).
  - apply dblock_not_written. intros ([c data] & -> & Hin)%list_elem_of_fmap.
    destruct (Hpin c data Hin) as (at_ & r & Hen' & _). cbn in Hen. congruence.
Qed.

Lemma run_log_ops_spec pid dev start cap ops tx live v e s :
  open_tx pid dev start cap tx live s -> only_tx (disk s) tx live v -> Forall (home start cap) (fst <$> ops) ->
  Z.of_nat (length tx + length ops) <= cap -> cap <= LOGSIZE ->
  (length tx + length ops < NBUF)%nat ->
  exists tx' live' s', run_log_ops dev ops e s = Ok tt e s' /\ disk s' = disk s /\
    open_tx pid dev start cap tx' live' s' /\ only_tx (disk s) tx' live' (updates ops v) /\ (size live' < NBUF)%nat /\
    (length tx <= length tx')%nat /\ (ops <> [] -> tx' <> []).
Proof.
  revert tx live v s. induction ops as [|[n g] ops IH]; intros tx live v s Hopen Honly Hhome Hn Hs Hb.
  - exists tx, live, s. destruct Honly as [? Hsz ?]. cbn in Hb. repeat (split; [done || lia|]). done.
  - inversion Hhome as [|? ? Hnh Hhome']; subst. cbn in Hnh. cbn [length] in Hn, Hs, Hb.
    destruct (log_op_spec pid dev start cap tx live n g e s) as (b & s1 & Hrun & Hd & Hopen1); [done|done| | |lia|lia|].
    { unfold can_bread. destruct (live !! n) as [en|] eqn:Hen.
      - destruct (only_live _ _ _ _ Honly n en Hen) as (_ & ? & ->). split; [done|lia].
      - pose proof (only_size _ _ _ _ Honly). lia. }
    { unfold brefs. destruct (live !! n) as [en|] eqn:Hen; [|lia].
      destruct (only_live _ _ _ _ Honly n en Hen) as (_ & _ & ->). lia. }
    pose proof (only_tx_step _ _ _ _ n b g Honly (ot_pinned _ _ _ _ _ _ _ Hopen)) as Honly1.
    rewrite <- Hd in Honly1 at 1. set (tx1 := tx_set n _ tx) in *.
    assert (length tx <= length tx1 <= S (length tx))%nat as Hlen1 .
    { unfold tx1. rewrite length_tx_set. destruct (decide (n ∈ fst <$> tx)); lia. }
    destruct (IH tx1 _ _ s1 Hopen1 Honly1 Hhome') as (tx2 & live2 & s2 & Hrun2 & Hd2 & Hopen2 & Honly2 & Hsz2 & Hlen2 & _);
      [lia..|].
    exists tx2, live2, s2. rewrite Hd in Hd2, Honly2. cbn [run_log_ops]. split; [by kstep Hrun|].
    do 5 (split; [done || lia|]). intros _ ->.
    assert (tx1 <> []) as Hne; [|destruct tx1; [done|cbn in Hlen2; lia]].
    unfold tx1, tx_set. case_decide as Hin; [|by destruct tx]. destruct tx; [set_solver|done].
Qed.

(** C2: A transaction as a whole.  Any updates of blocks made with [bread], [log_write] and
    [brelse] (fewer than the log and the cache have room for), followed by [commit], leave the
    disk with these updates; and whenever the machine crashes on the way, recovery leaves it
    with all of them or with none. *)
Theorem transaction_atomic pid dev start cap ops e s :
  open_tx pid dev start cap [] ∅ s -> Forall (home start cap) (fst <$> ops) -> ops <> [] ->
  (length ops < NBUF)%nat -> Z.of_nat (length ops) <= cap -> cap <= LOGSIZE ->
  0 <= dev < 2 ^ 32 -> 0 <= start -> start + cap < 2 ^ 31 ->
  length (dblock (disk s) start) = Z.to_nat BSIZE -> hdr_n (dblock (disk s) start) = 0 ->
  exists ws s', (run_log_ops dev ops ;;; commit) e s = Ok tt e s' /\ disk s' = apply_writes ws (disk s) /\
    (forall b, home start cap b -> dblock (disk s') b = updates ops (dblock (disk s)) b) /\
    forall ws1 ws2 pid1 e1 s1, ws = ws1 ++ ws2 -> rebooted pid1 dev start cap (apply_writes ws1 (disk s)) s1 ->
      exists s2, recover_from_log e1 s1 = Ok tt e1 s2 /\ hdr_n (dblock (disk s2) start) = 0 /\
        ((forall b, home start cap b -> dblock (disk s2) b = dblock (disk s) b) \/
         (forall b, home start cap b -> dblock (disk s2) b = updates ops (dblock (disk s)) b)).
Proof.
  intros Hopen Hhome Hne Hnb Hsz Hcap Hdev Hs0 Hs1 Hblk Hz.
  destruct (run_log_ops_spec pid dev start cap ops [] ∅ (dblock (disk s)) e s) as
    (tx & live & s1 & Hrun & Hd & Hopen1 & Honly & Hsize & _ & Htx); try done.
  assert (committing pid dev start cap tx live s1) as Hcm.
  { destruct Hopen1. split; try done; [lia|by apply Htx|by rewrite Hd..]. }
  destruct (commit_atomic pid dev start cap tx live e s1 Hcm) as (ws & s' & Hc & Hdisk & Hall & Hcrash).
  assert (forall b, dblock (apply_writes tx (disk s)) b = updates ops (dblock (disk s)) b) as Hupd.
  { intros b. apply (only_tx_apply _ _ live); [done|apply Hopen1..]. }
  rewrite Hd in *. exists ws, s'. split; [by kstep Hrun|]. split; [done|].
  split; [intros b Hb; rewrite <- Hupd; by apply Hall|].
  intros ws1 ws2 pid1 e1 s2 Hws Hboot. destruct (Hcrash ws1 ws2 pid1 e1 s2 Hws Hboot) as (s3 & Hr & Hn & Hw).
  exists s3. split; [done|]. split; [done|]. revert Hw. case_decide; intros Hw; [by left|right].
  intros b Hb. rewrite <- Hupd. by apply Hw.
Qed.

(** A transaction is open on the machine of [demo_cached]; its log is at block 2. *)
Definition demo_logging : kstate := demo_cached <| log := Log 2 30 1 false ROOTDEV 0 (replicate 30 0) |>.
Definition demo_ops : list (Z * (list Z -> list Z)) := [(50, fun _ => [1; 2]); (51, fun _ => [3]); (50, fun bs => 0 :: bs)].

(** An idle machine with an empty cache can start a transaction. *)
Lemma open_empty pid dev start cap l s :
  caller pid s -> held s = [] -> brep dev ∅ s -> log_at dev start cap [] l -> 1 <= lg_outstanding l ->
  open_tx pid dev start cap [] ∅ (s <| log := l |>).
Proof.
  intros Hc Hh Hrep Hl Ho. split; try done.
  - by apply (caller_ext pid s).
  - by apply (brep_ext dev ∅ s).
  - constructor.
  - intros b data Hin. by apply elem_of_nil in Hin.
Qed.

Lemma demo_logging_open : open_tx 0 ROOTDEV 2 29 [] ∅ demo_logging /\ disk demo_logging = disk0 /\
  log demo_logging = Log 2 30 1 false ROOTDEV 0 (replicate 30 0).
Proof.
  destruct demo_cached_ok as (Hc & Hrep & Hd & _).
  assert (held demo_cached = []) as Hh.
  { destruct (binit_spec ROOTDEV [] demo_idle) as (bs & Hrun & _); [by apply demo_boot_cache|reflexivity|].
    unfold demo_cached. rewrite Hrun. reflexivity. }
  unfold demo_logging. revert Hc Hrep Hd Hh. generalize demo_cached as s. intros s Hc Hrep Hd Hh.
  split; [|by split]. apply open_empty; [done..| |done]. split; try done. by exists (replicate 30 0).
Qed.

Lemma demo_home : Forall (home 2 29) (fst <$> demo_ops).
Proof. repeat constructor; cbn; unfold LOGSIZE, MAXOPBLOCKS; lia. Qed.

Lemma transaction_atomic_witness :
  exists ws s', (run_log_ops ROOTDEV demo_ops ;;; commit) [] demo_logging = Ok tt [] s' /\
    disk s' = apply_writes ws (disk demo_logging) /\
    (forall b, home 2 29 b -> dblock (disk s') b = updates demo_ops (dblock (disk demo_logging)) b) /\
    forall ws1 ws2 pid1 e1 s1, ws = ws1 ++ ws2 -> rebooted pid1 ROOTDEV 2 29 (apply_writes ws1 (disk demo_logging)) s1 ->
      exists s2, recover_from_log e1 s1 = Ok tt e1 s2 /\ hdr_n (dblock (disk s2) 2) = 0 /\
        ((forall b, home 2 29 b -> dblock (disk s2) b = dblock (disk demo_logging) b) \/
         (forall b, home 2 29 b -> dblock (disk s2) b = updates demo_ops (dblock (disk demo_logging)) b)).
Proof.
  destruct demo_logging_open as (Hopen & Hd & Hl).
  apply (transaction_atomic 0 ROOTDEV 2 29 demo_ops [] demo_logging); rewrite ?Hl, ?Hd.
  - exact Hopen.
  - exact demo_home.
  - discriminate.
  - unfold NBUF. cbn. lia.
  - cbn. lia.
  - unfold LOGSIZE, MAXOPBLOCKS. lia.
  - unfold ROOTDEV. lia.
  - lia.
  - lia.
  - reflexivity.
  - reflexivity.
Defined.

Lemma demo_committing : exists tx live s, committing 0 ROOTDEV 2 29 tx live s.
Proof.
  destruct demo_logging_open as (Hopen & Hd & Hl).
  destruct (run_log_ops_spec 0 ROOTDEV 2 29 demo_ops [] ∅ (dblock disk0) [] demo_logging) as
    (tx & live & s1 & _ & Hd1 & Hopen1 & _ & Hsize & _ & Htx).
  - exact Hopen.
  - rewrite Hd. split; [done|by rewrite map_size_empty|done].
  - exact demo_home.
  - cbn. lia.
  - unfold LOGSIZE, MAXOPBLOCKS. lia.
  - unfold NBUF. cbn. lia.
  - exists tx, live, s1. rewrite Hd in Hd1. destruct Hopen1. split; try done; try (unfold LOGSIZE, MAXOPBLOCKS, ROOTDEV; lia); [by apply Htx|by rewrite Hd1..].
Qed.

Lemma log_crash_safe_witness :
  exists tx live s, committing 0 ROOTDEV 2 29 tx live s /\
  exists ws s', commit [] s = Ok tt [] s' /\ disk s' = apply_writes ws (disk s) /\
    (forall b, home 2 29 b -> dblock (disk s') b = dblock (apply_writes tx (disk s)) b) /\
    forall ws1 ws2 pid1 e1 s1, ws = ws1 ++ ws2 -> rebooted pid1 ROOTDEV 2 29 (apply_writes ws1 (disk s)) s1 ->
      exists s2, recover_from_log e1 s1 = Ok tt e1 s2 /\ hdr_n (dblock (disk s2) 2) = 0 /\
        forall b, home 2 29 b -> dblock (disk s2) b =
          if decide (length ws1 <= length tx)%nat then dblock (disk s) b
          else dblock (apply_writes tx (disk s)) b.
Proof.
  destruct demo_committing as (tx & live & s & H). exists tx, live, s. split; [exact H|].
  exact (log_crash_safe 0 ROOTDEV 2 29 tx live [] s H).
Defined.

(** ** The reservations of [begin_op] and the size of the log *)

Lemma begin_op_run e s :
  L_log ∉ held s -> lg_committing (log s) = false ->
  lh_n (log s) + (lg_outstanding (log s) + 1) * MAXOPBLOCKS <= LOGSIZE ->
  begin_op e s = Ok tt e (s <| log ::= (fun l => l <| lg_outstanding := lg_outstanding l + 1 |>) |>).
Proof.
  intros Hh Hc Hroom. unfold begin_op. kstep (acquire_free L_log e s Hh). set (s1 := s <| held ::= cons L_log |>).
  unfold blockK. cbn [whileK]. unfold bindK at 1. unfold get_log, set_log.
  kstep (getsK_run (fun s => log s) e s1). change (log s1) with (log s). rewrite Hc.
  destruct (Z.ltb_spec LOGSIZE (lh_n (log s) + (lg_outstanding (log s) + 1) * MAXOPBLOCKS)); [lia|].
  kstep (modifyK_run (fun s => s <| log ::= (fun l => l <| lg_outstanding := lg_outstanding l + 1 |>) |>) e s1).
  unfold bindK. by rewrite (release_top _ _ _ (held s)).
Qed.

(** C40: Three operations are let in by [begin_op], each with the right to write [MAXOPBLOCKS]
    blocks; on a log of the size mkfs gives it, [log_write] panics on the last of these blocks,
    because the header takes one of the [LOGSIZE] blocks of the log. *)
Theorem third_op_overflows_log e s :
  held s = [] -> lg_committing (log s) = false -> lg_outstanding (log s) = 0 -> lh_n (log s) = 0 ->
  lg_size (log s) = LOGSIZE ->
  exists s', (begin_op ;;; begin_op ;;; begin_op) e s = Ok tt e s' /\ held s' = [] /\
    forall s2 b x, held s2 = [] -> log s2 = log s' <| lh_n := 3 * MAXOPBLOCKS - 1 |> -> bcache s2 !! b = Some x ->
      log_write b e s2 = Panic "too big a transaction".
Proof.
  intros Hh Hc Ho Hn Hsz.
  set (bump := fun s => s <| log ::= (fun l => l <| lg_outstanding := lg_outstanding l + 1 |>) |>).
  exists (bump (bump (bump s))). split; [|split; [done|]].
  - assert (begin_op e s = Ok tt e (bump s)) as H1.
    { apply begin_op_run; [rewrite Hh; set_solver|done|]. rewrite Hn, Ho. done. }
    assert (begin_op e (bump s) = Ok tt e (bump (bump s))) as H2.
    { apply begin_op_run; [cbn; rewrite Hh; set_solver|done|]. cbn. rewrite Hn, Ho. done. }
    kstep H1. kstep H2. apply begin_op_run; [cbn; rewrite Hh; set_solver|done|]. cbn. rewrite Hn, Ho. done.
  - intros s2 b x Hh2 Hl2 Hb. unfold log_write.
    assert (get_buf b e s2 = Ok x e s2) as Hg by (unfold get_buf; by rewrite Hb). kstep Hg.
    kstep (acquire_free L_log e s2 ltac:(rewrite Hh2; set_solver)). set (s3 := s2 <| held ::= cons L_log |>).
    unfold get_log at 1. kstep (getsK_run (fun s => log s) e s3). change (log s3) with (log s2). rewrite Hl2. cbn.
    rewrite Hsz. done.
Qed.

Lemma third_op_overflows_log_witness :
  exists s', (begin_op ;;; begin_op ;;; begin_op) [] (demo_running <| held := [] |> <| log := Log 2 30 0 false 1 0 (replicate 30 0) |>) =
      Ok tt [] s' /\ held s' = [] /\
    forall s2 b x, held s2 = [] -> log s2 = log s' <| lh_n := 3 * MAXOPBLOCKS - 1 |> -> bcache s2 !! b = Some x ->
      log_write b [] s2 = Panic "too big a transaction".
Proof.
  apply (third_op_overflows_log [] (demo_running <| held := [] |> <| log := Log 2 30 0 false 1 0 (replicate 30 0) |>));
    reflexivity.
Defined.
