(* ===== verification/Fs.v ===== *)
(** * The file system: kernel/fs.c

    Blocks, inodes, file contents, directories and path names.  An inode is named by its
    index in [itable.inode]; a disk inode is read and written at its place in a block; a
    path is the list of its characters. *)

From stdpp Require Import base numbers list gmap strings.
From S2P Require Import Prelude Mem Types Kernel Sched Bio Log.

(** ** The super block *)

Definition decode_sb (data : list Z) : superblock :=
  Superblock (lget 4 data 0) (lget 4 data 4) (lget 4 data 8) (lget 4 data 12)
    (lget 4 data 16) (lget 4 data 20) (lget 4 data 24) (lget 4 data 28).

Definition readsb (dev : Z) : K unit :=
  bp <- bread (u32 dev) 1 ;;
  x <- get_buf bp ;;
  modifyK (fun s => s <| sb := decode_sb (b_data x) |>) ;;;
  brelse bp.

Definition fsinit (dev : Z) : K unit :=
  readsb dev ;;;
  sb <- getsK (fun s => sb s) ;;
  if negb (sb_magic sb =? FSMAGIC) then panic "invalid file system" else initlog dev sb.

Definition IBLOCK (i : Z) (sb : superblock) : Z := u32 (i / IPB + sb_inodestart sb).
Definition BBLOCK (b : Z) (sb : superblock) : Z := u32 (b / BPB + sb_bmapstart sb).

(** ** Blocks *)

Definition bzero (dev bno : Z) : K unit :=
  bp <- bread (u32 dev) (u32 bno) ;;
  set_buf bp (fun x => x <| b_data := zero_block |>) ;;;
  log_write bp ;;;
  brelse bp.

Definition bit_set (data : list Z) (bi : nat) : bool :=
  negb (Z.land (at_l data (bi / 8)) (Z.shiftl 1 (Z.of_nat (bi mod 8))) =? 0).
Definition set_bit (bi : nat) (data : list Z) : list Z :=
  <[(bi / 8)%nat := u8 (Z.lor (at_l data (bi / 8)) (Z.shiftl 1 (Z.of_nat (bi mod 8))))]> data.
Definition clear_bit (bi : nat) (data : list Z) : list Z :=
  <[(bi / 8)%nat :=
    u8 (Z.land (at_l data (bi / 8)) (Z.lnot (Z.shiftl 1 (Z.of_nat (bi mod 8)))))]> data.

(** The first clear bit among [bi, bi + n). *)
Fixpoint find_clear (n : nat) (data : list Z) (bi : nat) : option nat :=
  match n with
  | O => None
  | S k => if bit_set data bi then find_clear k data (S bi) else Some bi
  end.

Definition balloc (dev : Z) : K Z :=
  sb <- getsK (fun s => sb s) ;;
  r <- searchK (seq 0 (Z.to_nat ((sb_size sb + BPB - 1) / BPB))) (fun g =>
    let b := Z.of_nat g * BPB in
    bp <- bread dev (BBLOCK b sb) ;;
    x <- get_buf bp ;;
    match find_clear (Z.to_nat (Z.min BPB (sb_size sb - b))) (b_data x) 0 with
    | Some bi =>
        set_buf bp (fun x => x <| b_data ::= set_bit bi |>) ;;;
        log_write bp ;;;
        brelse bp ;;;
        bzero dev (b + Z.of_nat bi) ;;;
        retK (Some (b + Z.of_nat bi))
    | None => brelse bp ;;; retK None
    end) ;;
  match r with Some b => retK b | None => panic "balloc: out of blocks" end.

Definition bfree (dev b : Z) : K unit :=
  sb <- getsK (fun s => sb s) ;;
  bp <- bread (u32 dev) (BBLOCK b sb) ;;
  let bi := Z.to_nat (b mod BPB) in
  x <- get_buf bp ;;
  if negb (bit_set (b_data x) bi) then panic "freeing free block" else
  set_buf bp (fun x => x <| b_data ::= clear_bit bi |>) ;;;
  log_write bp ;;;
  brelse bp.

(** ** Inodes *)

Definition get_inode (ip : nat) : K inode := fun e s =>
  match itable s !! ip with Some x => Ok x e s | None => UB "inode index" end.
Definition set_inode (ip : nat) (f : inode -> inode) : K unit :=
  modifyK (fun s => s <| itable ::= alter f ip |>).

Definition iinit : K unit :=
  initlock L_itable ;;;
  forK (seq 0 NINODE) (fun i => initsleeplock (SL_inode i)).

Definition iget (dev inum : Z) : K nat :=
  acquire L_itable ;;;
  r <- searchK (seq 0 NINODE) (fun i =>
    ip <- get_inode i ;;
    if (0 <? i_ref ip) && (i_dev ip =? dev) && (i_inum ip =? inum) then
      set_inode i (fun ip => ip <| i_ref := i_ref ip + 1 |>) ;;;
      release L_itable ;;;
      retK (Some i)
    else retK None) ;;
  match r with
  | Some i => retK i
  | None =>
      empty <- searchK (seq 0 NINODE) (fun i =>
        ip <- get_inode i ;;
        retK (if i_ref ip =? 0 then Some i else None)) ;;
      match empty with
      | None => panic "iget: no inodes"
      | Some i =>
          set_inode i (fun ip => ip <| i_dev := dev |> <| i_inum := inum |>
                                    <| i_ref := 1 |> <| i_valid := false |>) ;;;
          release L_itable ;;;
          retK i
      end
  end.

Definition idup (ip : nat) : K nat :=
  acquire L_itable ;;;
  set_inode ip (fun x => x <| i_ref := i_ref x + 1 |>) ;;;
  release L_itable ;;;
  retK ip.

(** The disk inode of [inum] lies at this offset of its block. *)
Definition dinode_off (inum : Z) : nat := Z.to_nat (64 * (inum mod IPB)).

Fixpoint lget_words (n : nat) (data : list Z) (off : nat) : list Z :=
  match n with O => [] | S k => lget 4 data off :: lget_words k data (off + 4) end.
Fixpoint lput_words (ws : list Z) (off : nat) (data : list Z) : list Z :=
  match ws with [] => data | w :: ws' => lput_words ws' (off + 4) (lput 4 off w data) end.

Definition read_dinode (data : list Z) (inum : Z) (ip : inode) : inode :=
  let o := dinode_off inum in
  ip <| i_type := i16 (lget 2 data o) |> <| i_major := i16 (lget 2 data (o + 2)) |>
     <| i_minor := i16 (lget 2 data (o + 4)) |> <| i_nlink := i16 (lget 2 data (o + 6)) |>
     <| i_size := lget 4 data (o + 8) |> <| i_addrs := lget_words 13 data (o + 12) |>.

Definition write_dinode (ip : inode) (data : list Z) : list Z :=
  let o := dinode_off (i_inum ip) in
  let data := lput 2 o (u16 (i_type ip)) data in
  let data := lput 2 (o + 2) (u16 (i_major ip)) data in
  let data := lput 2 (o + 4) (u16 (i_minor ip)) data in
  let data := lput 2 (o + 6) (u16 (i_nlink ip)) data in
  let data := lput 4 (o + 8) (i_size ip) data in
  lput_words (i_addrs ip) (o + 12) data.

Definition ialloc (dev type : Z) : K nat :=
  sb <- getsK (fun s => sb s) ;;
  r <- searchK (seq 1 (Z.to_nat (sb_ninodes sb - 1))) (fun n =>
    let inum := Z.of_nat n in
    bp <- bread dev (IBLOCK inum sb) ;;
    x <- get_buf bp ;;
    if lget 2 (b_data x) (dinode_off inum) =? 0 then
      set_buf bp (fun x => x <| b_data ::= (fun d =>
        lput 2 (dinode_off inum) (u16 type) (splice (dinode_off inum) (replicate 64 0) d)) |>) ;;;
      log_write bp ;;;
      brelse bp ;;;
      ip <- iget dev inum ;;
      retK (Some ip)
    else brelse bp ;;; retK None) ;;
  match r with Some ip => retK ip | None => panic "ialloc: no inodes" end.

Definition iupdate (ip : nat) : K unit :=
  sb <- getsK (fun s => sb s) ;;
  x <- get_inode ip ;;
  bp <- bread (i_dev x) (IBLOCK (i_inum x) sb) ;;
  set_buf bp (fun b => b <| b_data ::= write_dinode x |>) ;;;
  log_write bp ;;;
  brelse bp.

Definition ilock (ip : option nat) : K unit :=
  match ip with
  | None => panic "ilock"
  | Some ip =>
      x <- get_inode ip ;;
      if i_ref x <? 1 then panic "ilock" else
      acquiresleep (SL_inode ip) ;;;
      x <- get_inode ip ;;
      if i_valid x then retK tt else
      sb <- getsK (fun s => sb s) ;;
      bp <- bread (i_dev x) (IBLOCK (i_inum x) sb) ;;
      b <- get_buf bp ;;
      set_inode ip (read_dinode (b_data b) (i_inum x)) ;;;
      brelse bp ;;;
      set_inode ip (fun x => x <| i_valid := true |>) ;;;
      x <- get_inode ip ;;
      if i_type x =? 0 then panic "ilock: no type" else retK tt
  end.

Definition iunlock (ip : option nat) : K unit :=
  match ip with
  | None => panic "iunlock"
  | Some ip =>
      h <- holdingsleep (SL_inode ip) ;;
      x <- get_inode ip ;;
      if negb h || (i_ref x <? 1) then panic "iunlock" else
      releasesleep (SL_inode ip)
  end.

Definition itrunc (ip : nat) : K unit :=
  forK (seq 0 (Z.to_nat NDIRECT)) (fun i =>
    x <- get_inode ip ;;
    let a := i_addrs x !!! i in
    if a =? 0 then retK tt else
    bfree (i_dev x) a ;;;
    set_inode ip (fun x => x <| i_addrs ::= <[i := 0]> |>)) ;;;
  x <- get_inode ip ;;
  let ind := i_addrs x !!! Z.to_nat NDIRECT in
  (if ind =? 0 then retK tt else
   bp <- bread (i_dev x) ind ;;
   b <- get_buf bp ;;
   forK (seq 0 (Z.to_nat NINDIRECT)) (fun j =>
     let a := lget 4 (b_data b) (4 * j) in
     if a =? 0 then retK tt else bfree (i_dev x) a) ;;;
   brelse bp ;;;
   bfree (i_dev x) ind ;;;
   set_inode ip (fun x => x <| i_addrs ::= <[Z.to_nat NDIRECT := 0]> |>)) ;;;
  set_inode ip (fun x => x <| i_size := 0 |>) ;;;
  iupdate ip.

Definition iput (ip : nat) : K unit :=
  acquire L_itable ;;;
  x <- get_inode ip ;;
  (if (i_ref x =? 1) && i_valid x && (i_nlink x =? 0) then
     acquiresleep (SL_inode ip) ;;;
     release L_itable ;;;
     itrunc ip ;;;
     set_inode ip (fun x => x <| i_type := 0 |>) ;;;
     iupdate ip ;;;
     set_inode ip (fun x => x <| i_valid := false |>) ;;;
     releasesleep (SL_inode ip) ;;;
     acquire L_itable
   else retK tt) ;;;
  set_inode ip (fun x => x <| i_ref := i_ref x - 1 |>) ;;;
  release L_itable.

Definition iunlockput (ip : nat) : K unit :=
  iunlock (Some ip) ;;;
  iput ip.

(** ** File contents *)

Definition bmap (ip : nat) (bn : Z) : K Z :=
  x <- get_inode ip ;;
  if bn <? NDIRECT then
    let addr := i_addrs x !!! Z.to_nat bn in
    if addr =? 0 then
      addr <- balloc (i_dev x) ;;
      set_inode ip (fun x => x <| i_addrs ::= <[Z.to_nat bn := addr]> |>) ;;;
      retK addr
    else retK addr
  else
  let bn := bn - NDIRECT in
  if bn <? NINDIRECT then
    let addr := i_addrs x !!! Z.to_nat NDIRECT in
    addr <- (if addr =? 0 then
               addr <- balloc (i_dev x) ;;
               set_inode ip (fun x => x <| i_addrs ::= <[Z.to_nat NDIRECT := addr]> |>) ;;;
               retK addr
             else retK addr) ;;
    bp <- bread (i_dev x) addr ;;
    b <- get_buf bp ;;
    let off := (4 * Z.to_nat bn)%nat in
    addr <- (if lget 4 (b_data b) off =? 0 then
               addr <- balloc (i_dev x) ;;
               set_buf bp (fun b => b <| b_data ::= lput 4 off addr |>) ;;;
               log_write bp ;;;
               retK addr
             else retK (lget 4 (b_data b) off)) ;;
    brelse bp ;;;
    retK addr
  else panic "bmap: out of range".

(** [struct stat] as [stati] fills it. *)
Record stat := Stat { st_dev : Z; st_ino : Z; st_type : Z; st_nlink : Z; st_size : Z }.

Definition stati (ip : nat) : K stat :=
  x <- get_inode ip ;;
  retK (Stat (i32 (i_dev x)) (i_inum x) (i_type x) (i_nlink x) (i_size x)).

(** The loop of [readi]: bytes done, offset and destination. *)
Definition readi_body (ip : nat) (n : Z) (st : Z * Z * ioaddr) : K (Z * Z * ioaddr + Z * ioaddr) :=
  let '(tot, off, dst) := st in
  if negb (tot <? n) then retK (inr (i32 tot, dst)) else
  x <- get_inode ip ;;
  addr <- bmap ip (off / BSIZE) ;;
  bp <- bread (i_dev x) addr ;;
  let m := Z.min (n - tot) (BSIZE - off mod BSIZE) in
  b <- get_buf bp ;;
  let bytes := slice (Z.to_nat (off mod BSIZE)) (Z.to_nat m) (b_data b) in
  r <- either_copyout dst bytes ;;
  if r =? -1 then brelse bp ;;; retK (inr (-1, dst))
  else brelse bp ;;; retK (inl (tot + m, off + m, dst_advance dst bytes)).

Definition readi (ip : nat) (dst : ioaddr) (off n : Z) : K (Z * ioaddr) :=
  x <- get_inode ip ;;
  if (i_size x <? off) || (u32 (off + n) <? off) then retK (0, dst) else
  let n := if i_size x <? u32 (off + n) then i_size x - off else n in
  whileK (S (Z.to_nat n)) (readi_body ip n) (0, off, dst).

(** The loop of [writei]; it ends with the bytes done and the offset reached. *)
Definition writei_body (ip : nat) (n : Z) (st : Z * Z * ioaddr) : K (Z * Z * ioaddr + Z * Z) :=
  let '(tot, off, src) := st in
  if negb (tot <? n) then retK (inr (tot, off)) else
  x <- get_inode ip ;;
  addr <- bmap ip (off / BSIZE) ;;
  bp <- bread (i_dev x) addr ;;
  let m := Z.min (n - tot) (BSIZE - off mod BSIZE) in
  r <- either_copyin src (Z.to_nat m) ;;
  set_buf bp (fun b => b <| b_data ::= splice (Z.to_nat (off mod BSIZE)) (snd r) |>) ;;;
  if fst r =? -1 then brelse bp ;;; retK (inr (tot, off))
  else log_write bp ;;;
       brelse bp ;;;
       retK (inl (tot + m, off + m, src_advance src (Z.to_nat m))).

Definition writei (ip : nat) (src : ioaddr) (off n : Z) : K Z :=
  x <- get_inode ip ;;
  if (i_size x <? off) || (u32 (off + n) <? off) then retK (-1) else
  if MAXFILE * BSIZE <? u32 (off + n) then retK (-1) else
  r <- whileK (S (Z.to_nat n)) (writei_body ip n) (0, off, src) ;;
  set_inode ip (fun x => if i_size x <? snd r then x <| i_size := snd r |> else x) ;;;
  iupdate ip ;;;
  retK (i32 (fst r)).

(** ** Directories: entries of a 16-bit inode number and a name of 14 bytes *)

Definition sizeof_dirent : Z := 16.
Definition de_inum (de : list Z) : Z := lget 2 de 0.
Definition de_name (de : list Z) : list Z := slice 2 DIRSIZ de.
Definition mk_dirent (name : list Z) (inum : Z) : list Z :=
  bytes_of 2 (u16 inum) ++ strncpy_l name DIRSIZ.

Definition namecmp (s t : list Z) : Z := strncmp_l s t DIRSIZ.

Definition read_dirent (dp : nat) (off : Z) (msg : string) : K (list Z) :=
  r <- readi dp (Kern []) off sizeof_dirent ;;
  if negb (fst r =? sizeof_dirent) then panic msg else retK (io_bytes (snd r)).

(** The result is the inode found and the offset of its entry. *)
Definition dirlookup_body (dp : nat) (name : list Z) (off : Z) : K (Z + option (nat * Z)) :=
  d <- get_inode dp ;;
  if negb (off <? i_size d) then retK (inr None) else
  de <- read_dirent dp off "dirlookup read" ;;
  if de_inum de =? 0 then retK (inl (off + sizeof_dirent)) else
  if namecmp name (de_name de) =? 0 then
    ip <- iget (i_dev d) (de_inum de) ;;
    retK (inr (Some (ip, off)))
  else retK (inl (off + sizeof_dirent)).

Definition dirlookup (dp : nat) (name : list Z) : K (option (nat * Z)) :=
  d <- get_inode dp ;;
  if negb (i_type d =? T_DIR) then panic "dirlookup not DIR" else
  whileK (S (S (Z.to_nat (i_size d / sizeof_dirent)))) (dirlookup_body dp name) 0.

Definition dirlink_body (dp : nat) (off : Z) : K (Z + Z) :=
  d <- get_inode dp ;;
  if negb (off <? i_size d) then retK (inr off) else
  de <- read_dirent dp off "dirlink read" ;;
  if de_inum de =? 0 then retK (inr off) else retK (inl (off + sizeof_dirent)).

Definition dirlink (dp : nat) (name : list Z) (inum : Z) : K Z :=
  r <- dirlookup dp name ;;
  match r with
  | Some (ip, _) => iput ip ;;; retK (-1)
  | None =>
      d <- get_inode dp ;;
      off <- whileK (S (S (Z.to_nat (i_size d / sizeof_dirent)))) (dirlink_body dp) 0 ;;
      w <- writei dp (Kern (mk_dirent name inum)) off sizeof_dirent ;;
      if negb (w =? sizeof_dirent) then panic "dirlink" else retK 0
  end.

(** ** Paths *)

Definition slash : Z := 47.

Fixpoint skip_slashes (path : list Z) : list Z :=
  match path with
  | c :: path' => if c =? slash then skip_slashes path' else path
  | [] => []
  end.

(** The characters up to the next slash or the end, and what follows them. *)
Fixpoint path_elem (path : list Z) : list Z * list Z :=
  match path with
  | c :: path' =>
      if (c =? slash) || (c =? 0) then ([], path)
      else let '(a, r) := path_elem path' in (c :: a, r)
  | [] => ([], [])
  end.

(** [skipelem(path, name)]: the rest of the path and the new contents of [name], or
    nothing when there is no element left. *)
Definition skipelem (path name : list Z) : option (list Z * list Z) :=
  let path := skip_slashes path in
  if at_l path 0 =? 0 then None else
  let '(s, path) := path_elem path in
  let name := if (DIRSIZ <=? length s)%nat then take DIRSIZ s
              else splice 0 (s ++ [0]) name in
  Some (skip_slashes path, name).

Definition namex_body (parent : bool) (st : list Z * list Z * nat)
    : K (list Z * list Z * nat + option nat * list Z) :=
  let '(path, name, ip) := st in
  match skipelem path name with
  | None =>
      if parent then iput ip ;;; retK (inr (None, name))
      else retK (inr (Some ip, name))
  | Some (path, name) =>
      ilock (Some ip) ;;;
      x <- get_inode ip ;;
      if negb (i_type x =? T_DIR) then iunlockput ip ;;; retK (inr (None, name)) else
      if parent && (at_l path 0 =? 0) then iunlock (Some ip) ;;; retK (inr (Some ip, name)) else
      next <- dirlookup ip name ;;
      match next with
      | None => iunlockput ip ;;; retK (inr (None, name))
      | Some (next, _) => iunlockput ip ;;; retK (inl (path, name, next))
      end
  end.

(** The inode found, and the contents of [name]. *)
Definition namex (path : list Z) (parent : bool) (name : list Z) : K (option nat * list Z) :=
  ip <- (if at_l path 0 =? slash then iget ROOTDEV ROOTINO
         else p <- curproc ;;
              x <- get_proc p ;;
              match p_cwd x with Some cwd => idup cwd | None => ub "idup(0)" end) ;;
  whileK (S (length path)) (namex_body parent) (path, name, ip).

Definition namei (path : list Z) : K (option nat) :=
  r <- namex path false (replicate DIRSIZ 0) ;;
  retK (fst r).

Definition nameiparent (path name : list Z) : K (option nat * list Z) := namex path true name.

#[global] Arguments iget : simpl never.
#[global] Arguments idup : simpl never.
#[global] Arguments ilock : simpl never.
#[global] Arguments iunlock : simpl never.
#[global] Arguments iput : simpl never.
#[global] Arguments iupdate : simpl never.
#[global] Arguments bmap : simpl never.
#[global] Arguments balloc : simpl never.
#[global] Arguments bfree : simpl never.
#[global] Arguments readi : simpl never.
#[global] Arguments writei : simpl never.
#[global] Arguments get_inode : simpl never.
#[global] Arguments set_inode : simpl never.
