(* ===== verification/FsFacts.v ===== *)
(** * Reading files and directories

    What [bmap], [readi], [ilock] and [dirlookup] return, in terms of the contents of the blocks
    as the buffer cache presents them. *)

From stdpp Require Import base numbers list gmap sets strings.
From S2P Require Import Prelude Mem Types Kernel Wp Sched SchedFacts Bio BioFacts Log Fs.

(** ** Files in terms of blocks

    [V n] is the contents of block [n]. *)

Definition nblk (len : nat) : nat := Z.to_nat ((Z.of_nat len + BSIZE - 1) / BSIZE).

(** The block that [bmap] finds when there is one. *)
Definition bmap_at (V : Z -> list Z) (ip : inode) (bn : nat) : Z :=
  if decide (bn < Z.to_nat NDIRECT)%nat then i_addrs ip !!! bn
  else lget 4 (V (i_addrs ip !!! Z.to_nat NDIRECT)) (4 * (bn - Z.to_nat NDIRECT)).

(** There is one. *)
Definition mapped (V : Z -> list Z) (ip : inode) (bn : nat) : Prop :=
  (bn < Z.to_nat MAXFILE)%nat /\ bmap_at V ip bn <> 0 /\
  ((Z.to_nat NDIRECT <= bn)%nat -> i_addrs ip !!! Z.to_nat NDIRECT <> 0).

(** The first [n] blocks of a file, and the file. *)
Definition file_blocks (V : Z -> list Z) (ip : inode) (n : nat) : list Z :=
  concat ((fun bn => V (bmap_at V ip bn)) <$> seq 0 n).
Definition file_bytes (V : Z -> list Z) (ip : inode) : list Z :=
  take (Z.to_nat (i_size ip)) (file_blocks V ip (nblk (Z.to_nat (i_size ip)))).

(** The blocks that [itrunc] frees. *)
Definition inode_blocks (V : Z -> list Z) (ip : inode) : list Z :=
  let ind := i_addrs ip !!! Z.to_nat NDIRECT in
  filter (fun b => b <> 0)
    (i_addrs ip ++ if ind =? 0 then [] else lget_words (Z.to_nat NINDIRECT) (V ind) 0).

Lemma slice_concat (B : nat) (bl : list (list Z)) q b r m :
  Forall (fun x => length x = B) bl -> bl !! q = Some b -> (r + m <= B)%nat ->
  slice (B * q + r) m (concat bl) = slice r m b.
Proof.
  revert q. induction bl as [|c bl IH]; intros q Hall Hq Hr; [done|].
  apply Forall_cons in Hall as [Hc Hall]. unfold slice in *. destruct q as [|q]; cbn [concat] in *.
  - injection Hq as ->. rewrite Nat.mul_0_r, drop_app_le by (cbn; lia). cbn.
    apply take_app_le. rewrite length_drop. lia.
  - rewrite drop_app_ge by lia. rewrite <- (IH q) by done. do 2 f_equal. lia.
Qed.

Lemma slice_add o a b (l : list Z) : slice o a l ++ slice (o + a) b l = slice o (a + b) l.
Proof. unfold slice. by rewrite <- drop_drop, take_take_drop. Qed.

(** ** The bits of a block of the free map *)

Lemma bit_set_testbit data j : bit_set data j = Z.testbit (at_l data (j / 8)) (Z.of_nat (j mod 8)).
Proof.
  unfold bit_set. rewrite Z.shiftl_mul_pow2, Z.mul_1_l, land_pow2_zero by lia.
  destruct (Z.testbit _ _); [|done]. apply negb_true_iff, Z.eqb_neq.
  pose proof (Z.pow_pos_nonneg 2 (Z.of_nat (j mod 8))). lia.
Qed.

Lemma bit_set_set_bit data i j :
  (i < 8 * length data)%nat -> bit_set (set_bit i data) j = (j =? i)%nat || bit_set data j.
Proof.
  intros Hi. rewrite !bit_set_testbit. unfold set_bit, at_l at 1.
  pose proof (Nat.div_mod_eq i 8). pose proof (Nat.div_mod_eq j 8).
  pose proof (Nat.mod_upper_bound i 8). pose proof (Nat.mod_upper_bound j 8).
  destruct (decide (j / 8 = i / 8)%nat) as [E|E].
  - rewrite E, list_lookup_insert_eq by lia. cbn [default from_option id].
    unfold u8. rewrite !Z.mod_pow2_bits_low, Z.lor_spec by lia.
    rewrite Z.shiftl_mul_pow2, Z.mul_1_l, Z.pow2_bits_eqb by lia. rewrite orb_comm. f_equal.
    destruct (Nat.eqb_spec j i) as [->|Hne]; [apply Z.eqb_refl|]. apply Z.eqb_neq. lia.
  - rewrite list_lookup_insert_ne by done. unfold at_l.
    destruct (Nat.eqb_spec j i) as [->|]; done.
Qed.

Lemma bit_set_clear_bit data i j :
  (i < 8 * length data)%nat -> bit_set (clear_bit i data) j = negb (j =? i)%nat && bit_set data j.
Proof.
  intros Hi. rewrite !bit_set_testbit. unfold clear_bit, at_l at 1.
  pose proof (Nat.div_mod_eq i 8). pose proof (Nat.div_mod_eq j 8).
  pose proof (Nat.mod_upper_bound i 8). pose proof (Nat.mod_upper_bound j 8).
  destruct (decide (j / 8 = i / 8)%nat) as [E|E].
  - rewrite E, list_lookup_insert_eq by lia. cbn [default from_option id].
    unfold u8. rewrite !Z.mod_pow2_bits_low, Z.land_spec, Z.lnot_spec by lia.
    rewrite Z.shiftl_mul_pow2, Z.mul_1_l, Z.pow2_bits_eqb by lia. rewrite andb_comm. do 2 f_equal.
    destruct (Nat.eqb_spec j i) as [->|Hne]; [apply Z.eqb_refl|]. apply Z.eqb_neq. lia.
  - rewrite list_lookup_insert_ne by done. unfold at_l.
    destruct (Nat.eqb_spec j i) as [->|]; done.
Qed.

Lemma length_set_bit i data : length (set_bit i data) = length data.
Proof. apply length_insert. Qed.
Lemma length_clear_bit i data : length (clear_bit i data) = length data.
Proof. apply length_insert. Qed.

Lemma find_clear_spec n data bi :
  match find_clear n data bi with
  | Some j => (bi <= j < bi + n)%nat /\ bit_set data j = false /\ forall i, (bi <= i < j)%nat -> bit_set data i = true
  | None => forall i, (bi <= i < bi + n)%nat -> bit_set data i = true
  end.
Proof.
  revert bi. induction n as [|n IH]; intros bi; cbn [find_clear]; [lia|]. destruct (bit_set data bi) eqn:Hb.
  - specialize (IH (S bi)). destruct (find_clear n data (S bi)) as [j|].
    + destruct IH as (Hj & Hc & Hs). split; [lia|]. split; [done|]. intros i Hi.
      destruct (decide (i = bi)) as [->|]; [done|]. apply Hs. lia.
    + intros i Hi. destruct (decide (i = bi)) as [->|]; [done|]. apply IH. lia.
  - split; [lia|]. split; [done|]. lia.
Qed.

(** ** Disk inodes *)

Lemma dinode_off_range inum : (dinode_off inum + 64 <= 1024)%nat.
Proof.
  unfold dinode_off. change IPB with 16.
  pose proof (Z.mod_pos_bound inum 16 ltac:(lia)). lia.
Qed.

Lemma lookup_lget_words n data off i :
  (i < n)%nat -> lget_words n data off !! i = Some (lget 4 data (off + 4 * i)).
Proof.
  revert off i. induction n as [|n IH]; intros off i Hi; [lia|]. cbn [lget_words].
  destruct i as [|i]; [by rewrite Nat.mul_0_r, Nat.add_0_r|]. rewrite lookup_cons_ne_0 by done. cbn [Nat.pred]. rewrite IH by lia.
  f_equal. f_equal. lia.
Qed.

Lemma length_lget_words n data off : length (lget_words n data off) = n.
Proof. revert off. induction n as [|n IH]; intros off; cbn; [done|]. by rewrite IH. Qed.

Lemma length_lput_words ws off data : length (lput_words ws off data) = length data.
Proof. revert off data. induction ws as [|w ws IH]; intros off data; cbn [lput_words]; [done|]. by rewrite IH, lput_length. Qed.

Lemma lget_lput_words_ne k ws off off' data :
  (off' + k <= off \/ off + 4 * length ws <= off')%nat -> lget k (lput_words ws off data) off' = lget k data off'.
Proof.
  revert off data. induction ws as [|w ws IH]; intros off data H; cbn [lput_words length] in *; [done|].
  rewrite IH by lia. apply lget_lput_ne. lia.
Qed.

Lemma lget_words_lput_words ws off data :
  (off + 4 * length ws <= length data)%nat -> Forall (fun w => 0 <= w < 2 ^ 32) ws ->
  lget_words (length ws) (lput_words ws off data) off = ws.
Proof.
  revert off data. induction ws as [|w ws IH]; intros off data Hl Hws; cbn [lget_words lput_words length] in *; [done|].
  apply Forall_cons in Hws as [Hw Hws]. rewrite IH by (done || (rewrite lput_length; lia)).
  rewrite lget_lput_words_ne by lia. rewrite lget_lput by lia. f_equal. by apply Z.mod_small.
Qed.

Lemma lget_words_ext n data data' off off' :
  (forall i, (i < n)%nat -> lget 4 data' (off' + 4 * i) = lget 4 data (off + 4 * i)) ->
  lget_words n data' off' = lget_words n data off.
Proof.
  intros H. apply list_eq. intros i. destruct (decide (i < n)%nat).
  - rewrite !lookup_lget_words by done. by rewrite H.
  - by rewrite !lookup_ge_None_2 by (rewrite length_lget_words; lia).
Qed.

(** ** Buffers that are read and given back *)

Section Reading.
Context (pid dev : Z) (live : gmap Z bent) (d : diskstate) (s0 : kstate).
Hypothesis Hfree : forall n, can_bread live n.
Local Abbreviation V := (bview live d).

(** From [s0] on only buffers and the states of threads have changed; the blocks [lv] are in use. *)
Record reading (lv : gmap Z bent) (s : kstate) : Prop := {
  rd_caller : caller pid s;
  rd_rep : brep dev lv s;
  rd_disk : disk s = d;
  rd_frame : bframe s0 s }.

Definition taken (b : nat) (n : Z) : gmap Z bent :=
  <[n := Ent b (brefs live n + 1) (Some pid) (V n)]> live.
Definition took (b : nat) (n : Z) : Prop :=
  forall en, live !! n = Some en -> en_at en = b /\ 0 < en_refs en /\ en_owner en = None.

Lemma wp_take n (Q : nat -> interference -> kstate -> Prop) e s :
  reading live s -> (forall b s', took b n -> reading (taken b n) s' -> Q b e s') -> wp (bread dev n) Q e s.
Proof using Hfree.
  intros [Hc Hr Hd Hf] HQ. destruct (bread_spec pid dev n live e s) as (b & bs & Hrun & Hrep & Hb); [done|done|done|].
  wprun Hrun. apply HQ.
  - intros en Hen. split; [auto|].
    destruct (co_ent_full _ _ _ _ (br_cache _ _ _ Hr) n en Hen) as (z & _ & Hz & _ & _ & _ & Hzr & Heq).
    pose proof (Hfree n) as Hn. unfold can_bread in Hn. rewrite Hen in Hn. destruct Hn as [Ho _].
    apply (f_equal en_refs) in Heq. cbn in Heq. split; [lia|done].
  - split; [by apply (caller_bcache pid s (fun _ => bs))|by rewrite Hd in Hrep|done|].
    eapply bframe_trans; [exact Hf|apply bframe_bcache].
Qed.

Lemma wp_peek b n (Q : buf -> interference -> kstate -> Prop) e s :
  reading (taken b n) s -> (forall x, b_data x = V n -> Q x e s) -> wp (get_buf b) Q e s.
Proof.
  intros [_ Hr _ _] HQ.
  destruct (get_buf_block pid dev (taken b n) b n (brefs live n + 1) (V n) e s) as (x & Hrun & Hx & _);
    [done|apply lookup_insert_eq|]. wprun Hrun. by apply HQ.
Qed.

Lemma drop_taken b n : took b n -> drop_ref n b (brefs live n + 1) None (V n) (taken b n) = live.
Proof.
  intros Ht. unfold drop_ref, taken, brefs, bview. destruct (live !! n) as [en|] eqn:Hen.
  - destruct (Ht en Hen) as (Hat & Hrf & Ho). rewrite (proj2 (Z.eqb_neq _ _)) by lia.
    rewrite insert_insert_eq. apply insert_id. rewrite Hen. f_equal.
    destruct en as [a r o dt]. cbn in *. subst. f_equal. lia.
  - cbn. by rewrite delete_insert_id.
Qed.

Lemma wp_give b n (Q : unit -> interference -> kstate -> Prop) e s :
  reading (taken b n) s -> took b n -> (forall s', reading live s' -> Q tt e s') -> wp (brelse b) Q e s.
Proof.
  intros [Hc Hr Hd Hf] Ht HQ.
  destruct (brelse_spec pid dev (taken b n) b n (brefs live n + 1) (V n) e s) as (s' & Hrun & Hc' & Hf' & Hr').
  - done.
  - done.
  - apply lookup_insert_eq.
  - rewrite Hd. unfold brefs, bview. destruct (live !! n) as [en|] eqn:Hen; [|done].
    destruct (Ht en Hen) as (_ & Hrf & _). lia.
  - wprun Hrun. apply HQ. rewrite drop_taken in Hr' by done. split; [done|done| |by eapply bframe_trans].
    destruct Hf' as (bs & ps & -> & _). done.
Qed.

Lemma wp_inode lv ip x (Q : inode -> interference -> kstate -> Prop) e s :
  reading lv s -> itable s0 !! ip = Some x -> Q x e s -> wp (get_inode ip) Q e s.
Proof.
  intros [_ _ _ (bs & ps & -> & _)] Hx HQ. unfold wp, get_inode. cbn. by rewrite Hx.
Qed.

(** ** [bmap] and [readi] *)

Lemma wp_bmap ip x bn (Q : Z -> interference -> kstate -> Prop) e s :
  reading live s -> itable s0 !! ip = Some x -> i_dev x = dev -> mapped V x bn ->
  (forall s', reading live s' -> Q (bmap_at V x bn) e s') -> wp (bmap ip (Z.of_nat bn)) Q e s.
Proof using Hfree.
  intros Hs Hx Hdev (Hmax & Hnz & Hind) HQ. unfold bmap. wp. eapply wp_inode; [done..|].
  unfold bmap_at in *. case_decide as Hd.
  - rewrite (proj2 (Z.ltb_lt _ _)) by lia. rewrite Nat2Z.id, (proj2 (Z.eqb_neq _ _) Hnz). wp. by apply HQ.
  - rewrite (proj2 (Z.ltb_ge _ _)) by lia.
    change MAXFILE with 268 in *. change NDIRECT with 12 in *. change NINDIRECT with 256 in *.
    rewrite (proj2 (Z.ltb_lt _ _)) by lia.
    rewrite (proj2 (Z.eqb_neq _ _)) by (apply Hind; lia). wp. rewrite Hdev.
    eapply wp_take; [done|]. intros b s1 Ht H1. wp. eapply wp_peek; [done|]. intros y Hy. wp.
    replace (4 * Z.to_nat (Z.of_nat bn - 12))%nat with (4 * (bn - Z.to_nat 12))%nat by lia.
    rewrite Hy, (proj2 (Z.eqb_neq _ _) Hnz). wp. eapply wp_give; [done|done|]. intros s2 H2. wp. by apply HQ.
Qed.

Section File.
Context (ip : nat) (x : inode) (len : nat).
Hypothesis Hx : itable s0 !! ip = Some x.
Hypothesis Hdev : i_dev x = dev.
Hypothesis Hlen : i_size x = Z.of_nat len.
Hypothesis Hmax : Z.of_nat len <= MAXFILE * BSIZE.
Hypothesis Hmap : forall bn, (bn < nblk len)%nat -> mapped V x bn.
Hypothesis Hblk : forall bn, (bn < nblk len)%nat -> length (V (bmap_at V x bn)) = Z.to_nat BSIZE.
Local Abbreviation F := (file_blocks V x (nblk len)).

(** A part of one block is a part of the file. *)
Lemma file_slice q r m : (q < nblk len)%nat -> (r + m <= Z.to_nat BSIZE)%nat ->
  slice r m (V (bmap_at V x q)) = slice (Z.to_nat BSIZE * q + r) m F.
Proof using Hblk.
  intros Hq Hr. symmetry. apply slice_concat; [|by rewrite list_lookup_fmap, lookup_seq_lt|done].
  apply Forall_fmap, Forall_forall. intros bn Hbn. apply elem_of_seq in Hbn. apply Hblk. lia.
Qed.

Section Loop.
Context (acc : list Z) (off n : Z).
Hypothesis Hoff : 0 <= off.
Hypothesis Hn : 0 <= n.
Hypothesis Hend : off + n <= Z.of_nat len.
Local Abbreviation part tot := (Kern (acc ++ slice (Z.to_nat off) (Z.to_nat tot) F)).

Lemma readi_round tot e s (Q : Z * Z * ioaddr + Z * ioaddr -> interference -> kstate -> Prop) :
  reading live s -> 0 <= tot < n ->
  (forall m s', 0 < m <= n - tot -> reading live s' -> Q (inl (tot + m, off + (tot + m), part (tot + m))) e s') ->
  wp (readi_body ip n (tot, off + tot, part tot)) Q e s.
Proof using All.
  intros Hs Ht HQ. unfold readi_body. rewrite (proj2 (Z.ltb_lt _ _)) by lia. cbn [negb].
  change MAXFILE with 268 in *. change BSIZE with 1024 in *.
  wp. eapply wp_inode; [done..|]. set (q := Z.to_nat ((off + tot) / 1024)).
  assert (Z.of_nat q = (off + tot) / 1024) as Hq by (unfold q; Z.div_mod_to_equations; lia).
  assert (q < nblk len)%nat as Hql by (unfold nblk; change BSIZE with 1024; Z.div_mod_to_equations; lia).
  wp. rewrite <- Hq. eapply wp_bmap; [done..|auto|]. intros s1 H1. wp. rewrite Hdev.
  eapply wp_take; [done|]. intros b s2 Htk H2. wp. eapply wp_peek; [done|]. intros y Hy. wp.
  set (m := Z.min (n - tot) (1024 - (off + tot) mod 1024)).
  assert (0 < m <= n - tot /\ 0 <= (off + tot) mod 1024 /\ (off + tot) mod 1024 + m <= 1024) as Hm
    by (unfold m; Z.div_mod_to_equations; lia).
  unfold either_copyout. destruct (caller_proc _ _ (rd_caller _ _ H2)) as (p & z & Hp & _).
  wp. wprun (curproc_run p e s2 Hp). wp. change (0 =? -1) with false. cbv iota. wp.
  eapply wp_give; [done|done|]. intros s3 H3. wp.
  rewrite Hy. cbn [dst_advance]. rewrite (file_slice q) by (change BSIZE with 1024 in *; lia).
  replace (Z.to_nat BSIZE * q + Z.to_nat ((off + tot) mod 1024))%nat with (Z.to_nat off + Z.to_nat tot)%nat
    by (change BSIZE with 1024; Z.div_mod_to_equations; lia).
  rewrite <- app_assoc, slice_add, <- Z2Nat.inj_add by lia.
  replace (off + tot + m) with (off + (tot + m)) by lia. by apply HQ; [lia|].
Qed.

Lemma readi_loop fuel tot e s :
  reading live s -> 0 <= tot <= n -> n - tot < Z.of_nat fuel ->
  wp (whileK fuel (readi_body ip n) (tot, off + tot, part tot))
    (fun r e' s' => e' = e /\ reading live s' /\ r = (n, part n)) e s.
Proof using All.
  revert tot s. induction fuel as [|fuel IH]; intros tot s Hs Ht Hf; [lia|].
  apply wp_whileK. destruct (decide (tot < n)) as [Hlt|Hge].
  - apply readi_round; [done|lia|]. intros m s' Hm Hs'. apply IH; [done|lia|lia].
  - unfold readi_body. rewrite (proj2 (Z.ltb_ge _ _)) by lia. cbn [negb]. wp.
    change (MAXFILE * BSIZE) with 274432 in *. replace tot with n by lia. by rewrite i32_small by lia.
Qed.
End Loop.

Lemma readi_spec acc off n e s :
  reading live s -> 0 <= off <= Z.of_nat len -> 0 <= n -> off + n < 2 ^ 32 ->
  wp (readi ip (Kern acc) off n) (fun r e' s' => e' = e /\ reading live s' /\
    let m := Z.min n (Z.of_nat len - off) in
    r = (m, Kern (acc ++ slice (Z.to_nat off) (Z.to_nat m) F))) e s.
Proof using All.
  intros Hs Hoff Hn Hw. unfold readi. wp. eapply wp_inode; [done..|]. rewrite Hlen, u32_small by lia.
  rewrite (proj2 (Z.ltb_ge (Z.of_nat len) off)), (proj2 (Z.ltb_ge (off + n) off)) by lia. cbn [orb]. cbv zeta.
  set (m := if Z.of_nat len <? off + n then _ else _).
  assert (m = Z.min n (Z.of_nat len - off)) as -> by (unfold m; destruct (Z.ltb_spec (Z.of_nat len) (off + n)); lia).
  replace (0, off, Kern acc) with (0, off + 0, Kern (acc ++ slice (Z.to_nat off) (Z.to_nat 0) F))
    by (by rewrite Z.add_0_r; cbn; rewrite app_nil_r).
  eapply wp_mono; [apply readi_loop; (done || lia)|]. done.
Qed.
(** ** Directories *)

Lemma wp_read_dirent off msg (Q : list Z -> interference -> kstate -> Prop) e s :
  reading live s -> 0 <= off -> off + 16 <= Z.of_nat len ->
  (forall s', reading live s' -> Q (slice (Z.to_nat off) 16 F) e s') -> wp (read_dirent ip off msg) Q e s.
Proof using All.
  intros Hs Hoff Hend HQ. change (MAXFILE * BSIZE) with 274432 in *. unfold read_dirent. apply wp_bind.
  eapply wp_mono; [apply readi_spec; unfold sizeof_dirent; (done || lia)|].
  intros r e' s' (-> & Hs' & ->). unfold sizeof_dirent. rewrite Z.min_l by lia. cbn [fst snd io_bytes app].
  rewrite Z.eqb_refl. cbn [negb]. wp. by apply HQ.
Qed.

Section Lookup.
Context (name : list Z).

(** The first of [n] entries from the [k]th on that is in use and has the name. *)
Fixpoint dir_find (D : list Z) (k n : nat) : option (nat * Z) :=
  match n with
  | O => None
  | S n =>
      let de := slice (16 * k) 16 D in
      if de_inum de =? 0 then dir_find D (S k) n
      else if namecmp name (de_name de) =? 0 then Some (k, de_inum de)
      else dir_find D (S k) n
  end.

Lemma wp_dirlookup_loop fuel k n (Q : option (nat * Z) -> interference -> kstate -> Prop) e s :
  reading live s -> (16 * (k + n))%nat = len -> (n < fuel)%nat ->
  (forall s', reading live s' ->
     match dir_find F k n with
     | None => Q None e s'
     | Some (j, inum) => wp (iget dev inum) (fun i => Q (Some (i, 16 * Z.of_nat j))) e s'
     end) ->
  wp (whileK fuel (dirlookup_body ip name) (16 * Z.of_nat k)) Q e s.
Proof using All.
  revert k n s. induction fuel as [|fuel IH]; intros k n s Hs Hn Hf HQ; [lia|].
  apply wp_whileK. unfold dirlookup_body. apply wp_bind. eapply wp_inode; [done..|]. rewrite Hlen.
  destruct n as [|n].
  - rewrite (proj2 (Z.ltb_ge _ _)) by lia. cbn [negb]. wp. by apply HQ.
  - rewrite (proj2 (Z.ltb_lt _ _)) by lia. cbn [negb]. wp.
    apply wp_read_dirent; [done|lia|lia|]. intros s1 H1.
    replace (Z.to_nat (16 * Z.of_nat k)) with (16 * k)%nat by lia. cbn [dir_find] in HQ.
    assert (16 * Z.of_nat k + sizeof_dirent = 16 * Z.of_nat (S k)) as Hk by (unfold sizeof_dirent; lia).
    destruct (de_inum _ =? 0).
    { wp. rewrite Hk. apply (IH (S k) n); [done|lia|lia|done]. }
    destruct (namecmp _ _ =? 0).
    + rewrite Hdev. wp. eapply wp_mono; [by apply HQ|]. intros i e2 s2 H2. by wp.
    + wp. rewrite Hk. apply (IH (S k) n); [done|lia|lia|done].
Qed.

Lemma wp_dirlookup (Q : option (nat * Z) -> interference -> kstate -> Prop) e s n :
  reading live s -> i_type x = T_DIR -> len = (16 * n)%nat ->
  (forall s', reading live s' ->
     match dir_find F 0 n with
     | None => Q None e s'
     | Some (j, inum) => wp (iget dev inum) (fun i => Q (Some (i, 16 * Z.of_nat j))) e s'
     end) ->
  wp (dirlookup ip name) Q e s.
Proof using All.
  intros Hs Ht Hl HQ. unfold dirlookup. apply wp_bind. eapply wp_inode; [done..|].
  rewrite Ht. change (T_DIR =? T_DIR) with true. cbn [negb].
  apply (wp_dirlookup_loop _ 0 n); [done|lia| |done].
  rewrite Hlen. unfold sizeof_dirent. Z.div_mod_to_equations. lia.
Qed.
End Lookup.
End File.
End Reading.

(** ** The inode table *)

(** A search: the elements that are passed over keep an invariant. *)
Lemma wp_search_inv {X R} (I : kstate -> Prop) (f : X -> bool) (l : list X) (body : X -> K (option R))
    (Q : option R -> interference -> kstate -> Prop) e s :
  I s ->
  (forall a s, a ∈ l -> f a = false -> I s -> wp (body a) (fun r e' s' => r = None /\ e' = e /\ I s') e s) ->
  (forall l1 a l2 s, l = l1 ++ a :: l2 -> Forall (fun a => f a = false) l1 -> f a = true -> I s ->
     wp (body a) (fun r e' s' => exists v, r = Some v /\ Q r e' s') e s) ->
  (forall s, I s -> Forall (fun a => f a = false) l -> Q None e s) -> wp (searchK l body) Q e s.
Proof.
  intros H0 Hf Ht HQ.
  assert (forall l1 l2 s, l = l1 ++ l2 -> I s -> Forall (fun a => f a = false) l1 -> wp (searchK l2 body) Q e s) as Hg;
    [|by apply (Hg [] l)].
  intros l1 l2. revert l1. induction l2 as [|a l2 IH]; intros l1 s1 Hl HI Hl1; cbn [searchK].
  - rewrite app_nil_r in Hl. subst l1. apply wp_ret. auto.
  - apply wp_bind. destruct (f a) eqn:Hfa.
    + eapply wp_mono; [by apply (Ht l1 a l2)|]. intros r e' s' (v & -> & H). by apply wp_ret.
    + eapply wp_mono; [apply Hf; [rewrite Hl; set_solver|done|done]|]. intros r e' s' (-> & -> & HI'). cbn.
      apply (IH (l1 ++ [a])); [by rewrite <- app_assoc|done|]. apply Forall_app. split; [done|]. by constructor.
Qed.

(** A search that changes nothing until it finds something. *)
Lemma wp_searchK {X R} (f : X -> bool) (l : list X) (body : X -> K (option R))
    (Q : option R -> interference -> kstate -> Prop) e s :
  (forall a, a ∈ l -> f a = false -> body a e s = Ok None e s) ->
  (forall a, a ∈ l -> f a = true -> wp (body a) (fun r e' s' => exists v, r = Some v /\ Q r e' s') e s) ->
  (Forall (fun a => f a = false) l -> Q None e s) -> wp (searchK l body) Q e s.
Proof.
  intros Hf Ht HQ. apply (wp_search_inv (eq s) f); [done| | |by intros ? <-].
  - intros a ? Ha Hfa <-. eapply wp_ok; [by apply Hf|]. done.
  - intros l1 a l2 ? -> _ Hfa <-. apply Ht; [set_solver|done].
Qed.

Definition iget_match (dev inum : Z) (x : inode) : bool :=
  (0 <? i_ref x) && (i_dev x =? dev) && (i_inum x =? inum).

Definition itab (s : kstate) (t : list inode) : kstate := s <| itable := t |>.

Lemma wp_get_inode ip x (Q : inode -> interference -> kstate -> Prop) e s :
  itable s !! ip = Some x -> Q x e s -> wp (get_inode ip) Q e s.
Proof. intros Hx HQ. unfold wp, get_inode. by rewrite Hx. Qed.

Lemma wp_set_inode ip x h (Q : unit -> interference -> kstate -> Prop) e s :
  itable s !! ip = Some x -> Q tt e (itab s (<[ip := h x]> (itable s))) -> wp (set_inode ip h) Q e s.
Proof.
  intros Hx HQ. unfold set_inode. wp.
  replace (s <| itable ::= alter h ip |>) with (itab s (<[ip := h x]> (itable s))); [done|].
  unfold itab. cbv [upd]. cbn. f_equal. symmetry. by apply alter_insert.
Qed.

(** An inode that is in the table is shared; otherwise a free entry is taken. *)
Lemma wp_iget pid dev inum (Q : nat -> interference -> kstate -> Prop) e s :
  caller pid s -> length (itable s) = NINODE ->
  (exists x, x ∈ itable s /\ (iget_match dev inum x = true \/ i_ref x = 0)) ->
  (forall i x, itable s !! i = Some x -> iget_match dev inum x = true ->
     Q i e (itab s (<[i := x <| i_ref := i_ref x + 1 |>]> (itable s)))) ->
  (forall i x, itable s !! i = Some x -> i_ref x = 0 ->
     (forall y, y ∈ itable s -> iget_match dev inum y = false) ->
     Q i e (itab s (<[i := x <| i_dev := dev |> <| i_inum := inum |> <| i_ref := 1 |> <| i_valid := false |>]>
       (itable s)))) ->
  wp (iget dev inum) Q e s.
Proof.
  intros Hc Hlen Hex HQ1 HQ2. unfold iget. apply wp_bind.
  wprun (acquire_bh pid L_itable e s Hc ltac:(done)). set (s1 := bh L_itable s).
  assert (forall i, i ∈ seq 0 NINODE -> exists x, itable s1 !! i = Some x) as Hin.
  { intros i Hi. apply elem_of_seq in Hi. apply lookup_lt_is_Some_2. change (itable s1) with (itable s). lia. }
  apply wp_bind.
  apply (wp_searchK (fun i => match itable s !! i with Some x => iget_match dev inum x | None => false end)).
  - intros i Hi Hf. destruct (Hin i Hi) as [x Hx]. change (itable s1) with (itable s) in Hx.
    rewrite Hx in Hf. unfold bindK, get_inode. change (itable s1) with (itable s). rewrite Hx.
    unfold iget_match in Hf. by rewrite Hf.
  - intros i Hi Hf. destruct (Hin i Hi) as [x Hx]. change (itable s1) with (itable s) in Hx.
    rewrite Hx in Hf. apply wp_bind. eapply wp_get_inode; [exact Hx|]. pose proof Hf as Hm.
    unfold iget_match in Hm. rewrite Hm. apply wp_bind. eapply wp_set_inode; [exact Hx|].
    apply wp_bind. eapply (wp_release _ (held s)); [done|]. apply wp_ret. exists i. split; [done|].
    apply wp_ret. by apply HQ1.
  - intros Hnone. apply wp_bind.
    assert (forall y, y ∈ itable s -> iget_match dev inum y = false) as Hno.
    { intros y Hy. apply list_elem_of_lookup in Hy as [i Hi]. pose proof (lookup_lt_Some _ _ _ Hi).
      rewrite Forall_forall in Hnone. specialize (Hnone i ltac:(apply elem_of_seq; lia)). by rewrite Hi in Hnone. }
    apply (wp_searchK (fun i => match itable s !! i with Some x => i_ref x =? 0 | None => false end)).
    + intros i Hi Hf. destruct (Hin i Hi) as [x Hx]. change (itable s1) with (itable s) in Hx.
      rewrite Hx in Hf. unfold bindK, get_inode. change (itable s1) with (itable s). by rewrite Hx, Hf.
    + intros i Hi Hf. destruct (Hin i Hi) as [x Hx]. change (itable s1) with (itable s) in Hx.
      rewrite Hx in Hf. apply wp_bind. eapply wp_get_inode; [exact Hx|]. rewrite Hf. apply wp_ret. exists i.
      split; [done|]. apply wp_bind. eapply wp_set_inode; [exact Hx|]. apply wp_bind.
      eapply (wp_release _ (held s)); [done|]. apply wp_ret. apply HQ2; [done|by apply Z.eqb_eq|done].
    + intros Hfull. exfalso. destruct Hex as (x & Hx & [Hm|Hz]); [by rewrite Hno in Hm|].
      apply list_elem_of_lookup in Hx as [i Hi]. pose proof (lookup_lt_Some _ _ _ Hi).
      rewrite Forall_forall in Hfull. specialize (Hfull i ltac:(apply elem_of_seq; lia)). by rewrite Hi, Hz in Hfull.
Qed.

(** ** Loading an inode *)

Lemma reading_itable pid dev d s0 lv s t :
  reading pid dev d s0 lv s -> reading pid dev d (itab s0 t) lv (itab s t).
Proof.
  intros [Hc [Hk Hl] Hd (bs & ps & -> & Hps)]. split; [by eapply caller_ext; [..|exact Hc]|by split|done|].
  exists bs, ps. split; [unfold itab; rec_eq|done].
Qed.

Lemma reading_start pid dev live s : caller pid s -> brep dev live s -> reading pid dev (disk s) s live s.
Proof. intros. split; try done. Qed.

Lemma reading_inode pid dev d s0 lv s : reading pid dev d s0 lv s -> itable s = itable s0 /\ sb s = sb s0.
Proof. by intros [_ _ _ (bs & ps & -> & _)]. Qed.

Lemma wp_acquiresleep_inode pid ip x (Q : unit -> interference -> kstate -> Prop) e s :
  caller pid s -> itable s !! ip = Some x -> sl_locked (i_lock x) = false ->
  Q tt e (itab s (<[ip := x <| i_lock := Sleeplock true pid |>]> (itable s))) -> wp (acquiresleep (SL_inode ip)) Q e s.
Proof.
  intros Hc Hx Hl HQ. unfold acquiresleep. apply wp_bind.
  wprun (acquire_bh pid (L_sleep (SL_inode ip)) e s Hc ltac:(done)).
  destruct (pid_run pid (L_sleep (SL_inode ip)) e s Hc) as (p & y & Hcur & Hget & Hpid).
  set (s1 := bh _ s) in *. apply wp_bind. eapply (wp_ok _ _ _ _ tt e s1).
  { unfold blockK. cbn [whileK]. unfold bindK, get_sleeplock. change (itable s1) with (itable s). by rewrite Hx, Hl. }
  apply wp_bind. wprun Hcur. apply wp_bind. wprun Hget. rewrite Hpid. apply wp_bind, wp_modify.
  eapply (wp_release _ (held s)); [done|].
  assert (put_sleeplock (SL_inode ip) (Sleeplock true pid) s1 <| held := held s |> =
    itab s (<[ip := x <| i_lock := Sleeplock true pid |>]> (itable s))) as ->; [|done].
  unfold put_sleeplock, itab, s1, bh. cbv [upd]. cbn. f_equal. exact (alter_insert (fun y => y <| i_lock := Sleeplock true pid |>) ip x (itable s) Hx).
Qed.

(** [ilock] of an inode that is not in memory loads it from its block. *)
Lemma wp_ilock pid dev live d s0 ip x (Q : unit -> interference -> kstate -> Prop) e s :
  (forall n, can_bread live n) -> reading pid dev d s0 live s -> itable s0 !! ip = Some x ->
  i_dev x = dev -> 1 <= i_ref x -> i_valid x = false -> sl_locked (i_lock x) = false ->
  let y := read_dinode (bview live d (IBLOCK (i_inum x) (sb s0))) (i_inum x)
             (x <| i_lock := Sleeplock true pid |>) in
  i_type y <> 0 ->
  (forall s', reading pid dev d (itab s0 (<[ip := y <| i_valid := true |>]> (itable s0))) live s' -> Q tt e s') ->
  wp (ilock (Some ip)) Q e s.
Proof.
  intros Hfree Hs Hx Hdev Href Hval Hlk y Hty HQ. destruct (reading_inode _ _ _ _ _ _ Hs) as [Hit Hsb].
  set (x1 := x <| i_lock := Sleeplock true pid |>) in *.
  pose proof (lookup_lt_Some _ _ _ Hx) as Hlt.
  unfold ilock. apply wp_bind. eapply wp_get_inode; [by rewrite Hit|].
  rewrite (proj2 (Z.ltb_ge _ _)) by lia. apply wp_bind.
  eapply wp_acquiresleep_inode; [apply Hs|by rewrite Hit|done|]. rewrite Hit. fold x1.
  apply (reading_itable _ _ _ _ _ _ (<[ip := x1]> (itable s0))) in Hs.
  set (s1 := itab s _) in *. set (t1 := <[ip := x1]> (itable s0)) in *.
  assert (t1 !! ip = Some x1) as Hx1 by by apply list_lookup_insert_eq.
  apply wp_bind. eapply wp_get_inode; [exact Hx1|]. change (i_valid x1) with (i_valid x). rewrite Hval.
  apply wp_bind, wp_gets. change (sb s1) with (sb s). rewrite Hsb. change (i_dev x1) with (i_dev x).
  change (i_inum x1) with (i_inum x). rewrite Hdev.
  apply wp_bind. eapply wp_take; [done|exact Hs|]. intros b s2 Ht H2. apply wp_bind.
  eapply wp_peek; [exact H2|]. intros z Hz. rewrite Hz. apply wp_bind.
  destruct (reading_inode _ _ _ _ _ _ H2) as [Hit2 _]. change (itable (itab s0 t1)) with t1 in Hit2.
  eapply wp_set_inode; [rewrite Hit2; exact Hx1|]. fold y.
  apply (reading_itable _ _ _ _ _ _ (<[ip := y]> t1)) in H2. rewrite Hit2.
  change (itab (itab s0 t1) (<[ip := y]> t1)) with (itab s0 (<[ip := y]> t1)) in H2.
  apply wp_bind. eapply wp_give; [exact H2|exact Ht|]. intros s3 H3.
  destruct (reading_inode _ _ _ _ _ _ H3) as [Hit3 _]. change (itable (itab s0 ?t)) with t in Hit3.
  assert (<[ip := y]> t1 = <[ip := y]> (itable s0)) as Ht1 by apply list_insert_insert_eq.
  rewrite Ht1 in H3, Hit3. assert (<[ip := y]> (itable s0) !! ip = Some y) as Hy by by apply list_lookup_insert_eq.
  apply wp_bind. eapply wp_set_inode; [rewrite Hit3; exact Hy|]. rewrite Hit3, list_insert_insert_eq.
  apply wp_bind. eapply wp_get_inode; [by apply list_lookup_insert_eq|].
  change (i_type (y <| i_valid := true |>)) with (i_type y). rewrite (proj2 (Z.eqb_neq _ _) Hty).
  apply wp_ret, HQ. by apply (reading_itable _ _ _ _ _ _ (<[ip := y <| i_valid := true |>]> (itable s0))) in H3.
Qed.
