(* ===== verification/FsTx.v ===== *)
(** * Inside a transaction

    The rules for the code of kernel/fs.c that runs between [begin_op] and [end_op].  The
    predicate [txs] describes such a moment: the blocks logged so far, the buffers the caller has
    locked, and the contents [v] the cache presents of every block.  Each of [bread],
    [log_write] and [brelse] has a rule in terms of [txs]; at the end the transaction is what
    [commit] expects. *)

From stdpp Require Import base numbers list gmap sets strings.
From S2P Require Import Prelude Mem Types Kernel Wp Frame Sched SchedFacts Bio BioFacts Log LogFacts Fs FsFacts.

(** ** What the operations leave alone *)

(** The state [s] with these locks, processes, buffers and log. *)
Definition fs_state (s : kstate) (h : list lock) (ps : list proc) (bs : list buf) (l : logstate) : kstate :=
  KState (syms s) h (mem s) (freelist s) ps (initproc s) (nextpid s) (nexttid s) (c_proc s) (c_thread s)
    (bsems s) (ticks s) (kernel_pagetable s) (forkret_first s) (csr s) bs l (sb s) (itable s) (ftable s)
    (pipes s) (cons_dev s) (uart_dev s) (disk s).

Lemma fs_state_id s : s = fs_state s (held s) (procs s) (bcache s) (log s).
Proof. reflexivity. Qed.
Lemma fs_state_twice s h ps bs l h' ps' bs' l' :
  fs_state (fs_state s h ps bs l) h' ps' bs' l' = fs_state s h' ps' bs' l'.
Proof. reflexivity. Qed.

(** From [s0] on only the buffers, the log and the states of threads have changed; the count of
    operations in progress has not. *)
Definition tframe (s0 s : kstate) : Prop := exists ps bs l,
  s = fs_state s0 (held s0) ps bs l /\ settled <$> ps = settled <$> procs s0 /\
  lg_outstanding l = lg_outstanding (log s0) /\ lg_committing l = lg_committing (log s0).

Lemma tframe_refl s : tframe s s.
Proof. exists (procs s), (bcache s), (log s). split; [apply fs_state_id|done]. Qed.

Lemma tframe_trans s1 s2 s3 : tframe s1 s2 -> tframe s2 s3 -> tframe s1 s3.
Proof.
  intros (p1 & b1 & l1 & -> & Hp1 & Ho1 & Hc1) (p2 & b2 & l2 & -> & Hp2 & Ho2 & Hc2).
  exists p2, b2, l2. rewrite fs_state_twice. cbn in *. split; [done|]. by rewrite Hp2, Ho2, Hc2.
Qed.

Lemma tframe_bcache s bs : tframe s (s <| bcache := bs |>).
Proof. exists (procs s), bs, (log s). split; [reflexivity|done]. Qed.

Lemma tframe_itable s0 s t : tframe s0 s -> tframe (itab s0 t) (itab s t).
Proof. intros (ps & bs & l & -> & H). exists ps, bs, l. split; [reflexivity|done]. Qed.

(** The parts that [tframe] says are kept; the locks are followed separately. *)
Definition tkept (s : kstate) : kstate * (list proc * (Z * bool)) :=
  (fs_state s [] [] [] (Log 0 0 0 false 0 0 []),
   (settled <$> procs s, (lg_outstanding (log s), lg_committing (log s)))).

Lemma tkept_tframe s s' : tkept s' = tkept s -> held s' = held s -> tframe s s'.
Proof.
  intros H Hh. pose proof (f_equal fst H) as Hs. pose proof (f_equal (fun p => fst (snd p)) H) as Hp.
  pose proof (f_equal (fun p => snd (snd p)) H) as Hl. exists (procs s'), (bcache s'), (log s').
  split; [|split; [exact Hp|]; split; [exact (f_equal fst Hl)|exact (f_equal snd Hl)]].
  rewrite <- Hh. exact (f_equal (fun r => fs_state r (held s') (procs s') (bcache s') (log s')) Hs).
Qed.

Lemma settled_threads (f : list thread -> list thread) (p : nat) (ps : list proc) :
  settled <$> alter (fun x => x <| p_threads ::= f |>) p ps = settled <$> ps.
Proof.
  apply list_eq. intros i. rewrite !list_lookup_fmap. destruct (decide (i = p)) as [->|].
  - rewrite list_lookup_alter_eq. by destruct (ps !! p).
  - by rewrite list_lookup_alter_ne.
Qed.

(** None of the functions below gives up the CPU. *)
Section Kept.
Lemma tkept_get_buf b : keeps tkept (get_buf b).
Proof. intros e s x e' s' H. unfold get_buf in H. destruct (bcache s !! b); [|done]. by injection H as <- <- <-. Qed.
Lemma tkept_get_proc p : keeps tkept (get_proc p).
Proof. intros e s x e' s' H. unfold get_proc in H. destruct (procs s !! p); [|done]. by injection H as <- <- <-. Qed.
Lemma tkept_curproc : keeps tkept curproc.
Proof. unfold curproc, myproc. keeps. Qed.
Lemma tkept_get_sleeplock b : keeps tkept (get_sleeplock (SL_buf b)).
Proof. intros e s x e' s' H. cbn in H. destruct (bcache s !! b); [|done]. by injection H as <- <- <-. Qed.
Lemma tkept_set_thread t f : keeps tkept (set_thread t f).
Proof.
  apply keeps_modify. intros s. unfold tkept. apply pair_eq. split; [reflexivity|].
  apply pair_eq. split; [|reflexivity]. exact (settled_threads (alter f (snd t)) (fst t) (procs s)).
Qed.
#[local] Hint Resolve tkept_get_buf tkept_get_proc tkept_curproc tkept_get_sleeplock tkept_set_thread : keeps.

Lemma tkept_wakeup chan : keeps tkept (wakeup chan).
Proof. unfold wakeup. apply keeps_forK. intros p. cbn. keeps. Qed.
#[local] Hint Resolve tkept_wakeup : keeps.
Lemma tkept_holdingsleep b : keeps tkept (holdingsleep (SL_buf b)).
Proof. unfold holdingsleep. keeps. Qed.
Lemma tkept_releasesleep b : keeps tkept (releasesleep (SL_buf b)).
Proof. unfold releasesleep, set_sleeplock, put_sleeplock. keeps. Qed.
Lemma tkept_bpin b : keeps tkept (bpin b).
Proof. unfold bpin, set_buf. keeps. Qed.
Lemma tkept_lh_set i x : keeps tkept (lh_set i x).
Proof. unfold lh_set, set_log, get_log. keeps. Qed.
#[local] Hint Resolve tkept_holdingsleep tkept_releasesleep tkept_bpin tkept_lh_set : keeps.
Lemma tkept_brelse b : keeps tkept (brelse b).
Proof. unfold brelse, set_buf. keeps. Qed.
Lemma tkept_log_write b : keeps tkept (log_write b).
Proof. unfold log_write, set_log, get_log. keeps. Qed.
End Kept.

(** ** The state of a transaction *)

Lemma size_list_to_set_le (l : list Z) : (size (list_to_set l : gset Z) <= length l)%nat.
Proof.
  induction l as [|n l IH]; [by rewrite list_to_set_nil, size_empty|].
  rewrite list_to_set_cons, size_union_alt, size_singleton. cbn [length].
  pose proof (subseteq_size (list_to_set l ∖ {[n]}) (list_to_set l : gset Z) ltac:(set_solver)). lia.
Qed.

(** A list without repetitions is no longer than a set it is part of. *)
Lemma length_subset (l : list Z) (X : gset Z) : NoDup l -> (forall n, n ∈ l -> n ∈ X) -> (length l <= size X)%nat.
Proof.
  intros Hnd Hl. rewrite <- (size_list_to_set (C := gset Z) l Hnd). apply subseteq_size.
  intros n Hn%elem_of_list_to_set. auto.
Qed.

Section Tx.
Context (pid dev start cap : Z) (s0 : kstate).
Implicit Types (blocks : list Z) (hold : gmap Z nat) (v : Z -> list Z) (live : gmap Z bent).

(** The buffers in use: a block of the transaction is pinned, one the caller works on is locked,
    and of the others the cache presents what the disk has. *)
Definition in_cache blocks hold v live : Prop := forall n,
  match hold !! n with
  | Some b => live !! n = Some (Ent b (if decide (n ∈ blocks) then 2 else 1) (Some pid) (v n))
  | None =>
      if decide (n ∈ blocks) then exists b, live !! n = Some (Ent b 1 None (v n))
      else live !! n = None /\ v n = dblock (disk s0) n
  end.

Record txs blocks hold v (s : kstate) : Prop := {
  tx_caller : caller pid s;
  tx_held : held s = [];
  tx_frame : tframe s0 s;
  tx_log : log_at dev start cap blocks (log s);
  tx_out : 1 <= lg_outstanding (log s);
  tx_nodup : NoDup blocks;
  tx_home : Forall (home start cap) blocks;
  tx_hold : map_Forall (fun n _ => home start cap n) hold;
  tx_rep : exists live, brep dev live s /\ in_cache blocks hold v live }.

Lemma in_cache_size blocks hold v live :
  in_cache blocks hold v live -> (size live <= length blocks + size hold)%nat.
Proof.
  intros H. rewrite <- (size_dom live), <- (size_dom hold).
  assert (dom live ⊆ list_to_set blocks ∪ dom hold) as Hsub.
  { intros n Hn%elem_of_dom. specialize (H n). destruct (hold !! n) as [b|] eqn:Hb.
    - apply elem_of_union_r, elem_of_dom. by rewrite Hb.
    - case_decide; [apply elem_of_union_l; by apply elem_of_list_to_set|]. destruct H as [H _].
      rewrite H in Hn. by destruct Hn. }
  apply subseteq_size in Hsub. etrans; [exact Hsub|]. rewrite size_union_alt.
  pose proof (size_list_to_set_le blocks). pose proof (subseteq_size (dom hold ∖ list_to_set blocks) (dom hold) ltac:(set_solver)). lia.
Qed.

Lemma brefs_in blocks v live n : in_cache blocks ∅ v live ->
  brefs live n = if decide (n ∈ blocks) then 1 else 0.
Proof.
  intros H. specialize (H n). rewrite lookup_empty in H. unfold brefs. case_decide.
  - by destruct H as [b ->].
  - by destruct H as [-> _].
Qed.

(** *** Taking a buffer *)

Lemma in_cache_take blocks hold v live n b :
  in_cache blocks hold v live -> hold !! n = None ->
  in_cache blocks (<[n := b]> hold) v
    (<[n := Ent b (brefs live n + 1) (Some pid) (bview live (disk s0) n)]> live).
Proof.
  intros H Hn m. specialize (H m) as Hm. specialize (H n). rewrite Hn in H. destruct (decide (m = n)) as [->|].
  - rewrite !lookup_insert_eq. unfold brefs, bview. case_decide.
    + by destruct H as [c ->].
    + by destruct H as [-> ->].
  - by rewrite !lookup_insert_ne by done.
Qed.

Lemma txs_bcache blocks hold hold' v v' live s bs :
  txs blocks hold v s -> brep dev live (s <| bcache := bs |>) -> in_cache blocks hold' v' live ->
  map_Forall (fun n _ => home start cap n) hold' -> txs blocks hold' v' (s <| bcache := bs |>).
Proof.
  intros [Hc Hh Hf Hl Ho Hnd Hhome _ _] Hrep Hin Hhold. split; try done.
  - by apply (caller_bcache pid s (fun _ => bs)).
  - eapply tframe_trans; [exact Hf|apply tframe_bcache].
  - by exists live.
Qed.

Lemma txs_disk blocks hold v s : txs blocks hold v s -> disk s = disk s0.
Proof. intros Ht. by destruct (tx_frame _ _ _ _ Ht) as (ps & bs & l & -> & _). Qed.
Lemma txs_sb blocks hold v s : txs blocks hold v s -> sb s = sb s0.
Proof. intros Ht. by destruct (tx_frame _ _ _ _ Ht) as (ps & bs & l & -> & _). Qed.
Lemma txs_itable blocks hold v s : txs blocks hold v s -> itable s = itable s0.
Proof. intros Ht. by destruct (tx_frame _ _ _ _ Ht) as (ps & bs & l & -> & _). Qed.

Lemma tx_bread blocks hold v n (Q : nat -> interference -> kstate -> Prop) e s :
  txs blocks hold v s -> hold !! n = None -> home start cap n -> (length blocks + size hold < NBUF)%nat ->
  (forall b s', txs blocks (<[n := b]> hold) v s' -> Q b e s') -> wp (bread dev n) Q e s.
Proof.
  intros Ht Hn Hhome Hsz HQ. destruct (tx_rep _ _ _ _ Ht) as (live & Hrep & Hin).
  destruct (bread_spec pid dev n live e s (tx_caller _ _ _ _ Ht) Hrep) as (b & bs & Hrun & Hrep' & _).
  { pose proof (Hin n) as H. rewrite Hn in H. unfold can_bread. case_decide.
    - destruct H as [c ->]. cbn. split; [done|lia].
    - destruct H as [-> _]. pose proof (in_cache_size _ _ _ _ Hin). lia. }
  wprun Hrun. apply HQ. rewrite (txs_disk _ _ _ _ Ht) in Hrep'.
  eapply txs_bcache; [exact Ht|exact Hrep'|by apply in_cache_take|].
  apply map_Forall_insert_2; [done|apply Ht].
Qed.

Lemma in_cache_held blocks hold v live n b : in_cache blocks hold v live -> hold !! n = Some b ->
  live !! n = Some (Ent b (if decide (n ∈ blocks) then 2 else 1) (Some pid) (v n)).
Proof. intros H Hb. specialize (H n). by rewrite Hb in H. Qed.

Lemma tx_get_buf blocks hold v n b (Q : buf -> interference -> kstate -> Prop) e s :
  txs blocks hold v s -> hold !! n = Some b -> (forall x, b_data x = v n -> Q x e s) -> wp (get_buf b) Q e s.
Proof.
  intros Ht Hb HQ. destruct (tx_rep _ _ _ _ Ht) as (live & Hrep & Hin).
  pose proof (in_cache_held _ _ _ _ _ _ Hin Hb) as Hl.
  destruct (get_buf_block pid dev live b n _ _ e s Hrep Hl) as (x & Hrun & Hx & _). wprun Hrun. by apply HQ.
Qed.

(** *** Changing its contents *)

Lemma in_cache_set blocks hold v live n b g :
  in_cache blocks hold v live -> hold !! n = Some b ->
  in_cache blocks hold (update n g v)
    (<[n := Ent b (if decide (n ∈ blocks) then 2 else 1) (Some pid) (g (v n))]> live).
Proof.
  intros H Hb m. specialize (H m). unfold update. destruct (decide (m = n)) as [->|].
  - by rewrite Hb, lookup_insert_eq.
  - by rewrite lookup_insert_ne by done.
Qed.

Lemma tx_set_data blocks hold v n b g (Q : unit -> interference -> kstate -> Prop) e s :
  txs blocks hold v s -> hold !! n = Some b -> (forall s', txs blocks hold (update n g v) s' -> Q tt e s') ->
  wp (set_buf b (fun x => x <| b_data ::= g |>)) Q e s.
Proof.
  intros Ht Hb HQ. destruct (tx_rep _ _ _ _ Ht) as (live & Hrep & Hin).
  pose proof (in_cache_held _ _ _ _ _ _ Hin Hb) as Hl.
  destruct (set_data_spec pid dev live b n _ _ g e s Hrep Hl) as (bs & Hrun & Hrep'). wprun Hrun. apply HQ.
  eapply txs_bcache; [exact Ht|exact Hrep'|by apply in_cache_set|apply Ht].
Qed.

(** *** [log_write] and [brelse] *)

Lemma in_cache_log blocks hold v live n b :
  in_cache blocks hold v live -> hold !! n = Some b ->
  in_cache (log_add n blocks) hold v
    (if decide (n ∈ blocks) then live
     else <[n := Ent b ((if decide (n ∈ blocks) then 2 else 1) + 1) (Some pid) (v n)]> live).
Proof.
  intros H Hb m. specialize (H m). unfold log_add. destruct (decide (n ∈ blocks)) as [Hin|Hin]; [done|].
  destruct (decide (m = n)) as [->|Hmn].
  - rewrite Hb, lookup_insert_eq, decide_True by set_solver. done.
  - rewrite lookup_insert_ne by done. destruct (hold !! m).
    + rewrite H. by rewrite (decide_ext (m ∈ blocks ++ [n]) (m ∈ blocks)) by set_solver.
    + by rewrite (decide_ext (m ∈ blocks ++ [n]) (m ∈ blocks)) by set_solver.
Qed.

Lemma tx_log_write blocks hold v n b (Q : unit -> interference -> kstate -> Prop) e s :
  txs blocks hold v s -> hold !! n = Some b -> Z.of_nat (length blocks) < cap -> cap <= LOGSIZE ->
  (forall s', txs (log_add n blocks) hold v s' -> Q tt e s') -> wp (log_write b) Q e s.
Proof.
  intros Ht Hb Hlen Hcap HQ. destruct (tx_rep _ _ _ _ Ht) as (live & Hrep & Hin).
  pose proof (in_cache_held _ _ _ _ _ _ Hin Hb) as Hl.
  destruct (tx_hold _ _ _ _ Ht n b Hb) as [Hn Hn']. pose proof Ht as [Hc Hh Hf Hlog Ho Hnd Hhome Hhold _].
  destruct (log_write_spec pid dev start cap blocks live b n (if decide (n ∈ blocks) then 2 else 1) (v n) e s Hc Hh Hrep Hlog) as
    (s' & Hrun & Hc' & Hh' & Hd' & Hlog' & Ho' & Hrep'); try done.
  { eapply Forall_impl; [exact Hhome|]. by intros ? []. }
  { case_decide; lia. }
  wprun Hrun. apply HQ. split; try done.
  - eapply tframe_trans; [exact Hf|]. apply tkept_tframe; [exact (tkept_log_write b e s _ _ _ Hrun)|by rewrite Hh].
  - by rewrite Ho'.
  - by apply log_add_nodup.
  - apply Forall_forall. intros m [->|Hm]%elem_of_log_add; [done|]. rewrite Forall_forall in Hhome. auto.
  - eexists. split; [exact Hrep'|]. by apply in_cache_log.
Qed.

Lemma in_cache_drop blocks hold v live n b r :
  in_cache blocks hold v live -> hold !! n = Some b -> (n ∈ blocks \/ v n = dblock (disk s0) n) ->
  r = (if decide (n ∈ blocks) then 2 else 1) ->
  in_cache blocks (delete n hold) v (drop_ref n b r None (v n) live).
Proof.
  intros H Hb Hn -> m. specialize (H m). unfold drop_ref. destruct (decide (m = n)) as [->|Hmn].
  - rewrite lookup_delete_eq. destruct (decide (n ∈ blocks)) as [Hin|Hin].
    + change (2 =? 1) with false. cbv iota. rewrite lookup_insert_eq. by exists b.
    + change (1 =? 1) with true. cbv iota. rewrite lookup_delete_eq. split; [done|]. by destruct Hn.
  - rewrite lookup_delete_ne by done.
    destruct (decide (n ∈ blocks)); cbn; by rewrite ?lookup_insert_ne, ?lookup_delete_ne by done.
Qed.

Lemma tx_brelse blocks hold v n b (Q : unit -> interference -> kstate -> Prop) e s :
  txs blocks hold v s -> hold !! n = Some b -> (n ∈ blocks \/ v n = dblock (disk s0) n) ->
  (forall s', txs blocks (delete n hold) v s' -> Q tt e s') -> wp (brelse b) Q e s.
Proof.
  intros Ht Hb Hn HQ. destruct (tx_rep _ _ _ _ Ht) as (live & Hrep & Hin).
  pose proof (in_cache_held _ _ _ _ _ _ Hin Hb) as Hl. pose proof Ht as [Hc Hh Hf Hlog Ho Hnd Hhome Hhold _].
  destruct (brelse_spec pid dev live b n _ _ e s Hc Hrep Hl) as (s' & Hrun & Hc' & Hf' & Hrep').
  { rewrite (txs_disk _ _ _ _ Ht). destruct Hn; [|done]. rewrite decide_True by done. lia. }
  wprun Hrun. apply HQ. pose proof (tkept_brelse b e s _ _ _ Hrun) as Hk.
  destruct Hf' as (bs & ps & -> & _). split; try done.
  - eapply tframe_trans; [exact Hf|]. by apply tkept_tframe.
  - by apply map_Forall_delete.
  - eexists. split; [exact Hrep'|]. by apply in_cache_drop.
Qed.

Lemma txs_ext blocks hold v v' s : (forall n, v' n = v n) -> txs blocks hold v s -> txs blocks hold v' s.
Proof.
  intros Hv [? ? ? ? ? ? ? ? (live & Hrep & Hin)]. split; try done. exists live. split; [done|].
  intros n. rewrite Hv. apply Hin.
Qed.

(** *** The two ways fs.c uses a buffer *)

(** It is read, and given back unchanged. *)
Lemma tx_peek {A} blocks v n hold (k : nat -> buf -> K A) (Q : A -> interference -> kstate -> Prop) e s :
  txs blocks hold v s -> hold !! n = None -> home start cap n -> (length blocks + size hold < NBUF)%nat ->
  (forall b x s', b_data x = v n -> txs blocks (<[n := b]> hold) v s' -> wp (k b x) Q e s') ->
  wp (b <- bread dev n ;; x <- get_buf b ;; k b x) Q e s.
Proof.
  intros Ht Hn Hhome Hsz HQ. wp. eapply tx_bread; [done..|]. intros b s1 H1. wp.
  eapply tx_get_buf; [done|apply lookup_insert_eq|]. intros x Hx. by apply HQ.
Qed.

Lemma tx_give blocks v n b hold (Q : unit -> interference -> kstate -> Prop) e s :
  txs blocks (<[n := b]> hold) v s -> hold !! n = None -> (n ∈ blocks \/ v n = dblock (disk s0) n) ->
  (forall s', txs blocks hold v s' -> Q tt e s') -> wp (brelse b) Q e s.
Proof.
  intros Ht Hn Hc HQ. eapply tx_brelse; [done|apply lookup_insert_eq|done|]. intros s' H'.
  apply HQ. by rewrite delete_insert_id in H'.
Qed.

(** A block that is neither logged nor locked is as on the disk. *)
Lemma txs_clean blocks hold v n s : txs blocks hold v s -> hold !! n = None -> n ∈ blocks \/ v n = dblock (disk s0) n.
Proof.
  intros Ht Hn. destruct (tx_rep _ _ _ _ Ht) as (live & _ & Hin). specialize (Hin n). rewrite Hn in Hin.
  case_decide; [by left|right]. by destruct Hin.
Qed.

(** It is changed, logged and given back. *)
Lemma tx_modify blocks v n hold g b (Q : unit -> interference -> kstate -> Prop) e s :
  txs blocks (<[n := b]> hold) v s -> hold !! n = None -> Z.of_nat (length blocks) < cap -> cap <= LOGSIZE ->
  (forall s', txs (log_add n blocks) hold (update n g v) s' -> Q tt e s') ->
  wp (set_buf b (fun x => x <| b_data ::= g |>) ;;; log_write b ;;; brelse b) Q e s.
Proof.
  intros Ht Hn Hlen Hcap HQ. wp. eapply tx_set_data; [done|apply lookup_insert_eq|]. intros s1 H1.
  wp. eapply tx_log_write; [done|apply lookup_insert_eq|done|done|]. intros s2 H2.
  eapply tx_give; [done|done| |done]. left. apply elem_of_log_add. by left.
Qed.

Lemma tx_update blocks v n hold g (Q : unit -> interference -> kstate -> Prop) e s :
  txs blocks hold v s -> hold !! n = None -> home start cap n -> (length blocks + size hold < NBUF)%nat ->
  Z.of_nat (length blocks) < cap -> cap <= LOGSIZE ->
  (forall s', txs (log_add n blocks) hold (update n g v) s' -> Q tt e s') ->
  wp (b <- bread dev n ;; set_buf b (fun x => x <| b_data ::= g |>) ;;; log_write b ;;; brelse b) Q e s.
Proof.
  intros Ht Hn Hhome Hsz Hlen Hcap HQ. wp. eapply tx_bread; [done..|]. intros b s1 H1. by eapply tx_modify.
Qed.

(** ** The beginning and the end *)

(** The transaction as [commit] will find it. *)
Definition tx_of blocks v : list (Z * list Z) := (fun n => (n, v n)) <$> blocks.

Lemma tx_of_blocks blocks v : fst <$> tx_of blocks v = blocks.
Proof. unfold tx_of. rewrite <- list_fmap_compose. apply list_fmap_id. Qed.

Lemma txs_open blocks v s : txs blocks ∅ v s -> (0 <= cap) ->
  exists live, open_tx pid dev start cap (tx_of blocks v) live s /\ only_tx (disk s0) (tx_of blocks v) live v.
Proof.
  intros [Hc Hh Hf Hl Ho Hnd Hhome _ (live & Hrep & Hin)] Hcap. exists live. split.
  - split; rewrite ?tx_of_blocks; try done.
    + intros n data (m & [= -> ->] & Hm)%list_elem_of_fmap. specialize (Hin m).
      rewrite lookup_empty, decide_True in Hin by done. destruct Hin as [b ->]. exists b, 1. split; [done|lia].
    + intros k Hk. specialize (Hin (start + k)). rewrite lookup_empty in Hin. case_decide as Hb; [|by destruct Hin].
      rewrite Forall_forall in Hhome. destruct (Hhome _ Hb) as [_ ?]. lia.
  - split.
    + intros n en Hen. rewrite tx_of_blocks. specialize (Hin n). rewrite lookup_empty in Hin. case_decide.
      * destruct Hin as [b Hb]. rewrite Hb in Hen. by injection Hen as <-.
      * destruct Hin. congruence.
    + unfold tx_of. rewrite length_fmap. pose proof (in_cache_size _ _ _ _ Hin). rewrite map_size_empty in H. lia.
    + intros n. specialize (Hin n). rewrite lookup_empty in Hin. unfold bview. case_decide.
      * by destruct Hin as [b ->].
      * by destruct Hin as [-> ->].
Qed.
End Tx.

Lemma txs_start pid dev start cap v s :
  open_tx pid dev start cap [] ∅ s -> (forall n, v n = dblock (disk s) n) -> txs pid dev start cap s [] ∅ v s.
Proof.
  intros [Hc Hh Hrep Hl Ho _ _ _ _] Hv. split; try done.
  - apply tframe_refl.
  - constructor.
  - exists ∅. split; [done|]. intros n. rewrite !lookup_empty. rewrite decide_False by set_solver. done.
Qed.

(** An inode is changed in the table. *)
Lemma txs_itab pid dev start cap s0 blocks hold v s t :
  txs pid dev start cap s0 blocks hold v s -> txs pid dev start cap (itab s0 t) blocks hold v (itab s t).
Proof.
  intros [Hc Hh Hf Hl Ho Hnd Hhome Hhold (live & Hrep & Hin)]. split; try done.
  - by eapply caller_ext; [..|exact Hc].
  - by apply tframe_itable.
  - exists live. split; [by apply (brep_ext dev live s)|done].
Qed.

Lemma tx_set_inode pid dev start cap s0 blocks hold v ip x h (Q : unit -> interference -> kstate -> Prop) e s :
  txs pid dev start cap s0 blocks hold v s -> itable s0 !! ip = Some x ->
  (forall s', txs pid dev start cap (itab s0 (<[ip := h x]> (itable s0))) blocks hold v s' -> Q tt e s') ->
  wp (set_inode ip h) Q e s.
Proof.
  intros Ht Hx HQ. pose proof (txs_itable _ _ _ _ _ _ _ _ _ Ht) as Hit.
  eapply wp_set_inode; [by rewrite Hit|]. rewrite Hit. apply HQ. by apply txs_itab.
Qed.

Lemma tx_get_inode pid dev start cap s0 blocks hold v ip x (Q : inode -> interference -> kstate -> Prop) e s :
  txs pid dev start cap s0 blocks hold v s -> itable s0 !! ip = Some x -> Q x e s -> wp (get_inode ip) Q e s.
Proof. intros Ht Hx HQ. eapply wp_get_inode; [|done]. by rewrite (txs_itable _ _ _ _ _ _ _ _ _ Ht). Qed.

Lemma tx_get_sb {A} pid dev start cap s0 blocks hold v (k : superblock -> K A) (Q : A -> interference -> kstate -> Prop) e s :
  txs pid dev start cap s0 blocks hold v s -> wp (k (sb s0)) Q e s -> wp (sb <- getsK (fun s => sb s) ;; k sb) Q e s.
Proof. intros Ht HQ. wp. by rewrite (txs_sb _ _ _ _ _ _ _ _ _ Ht). Qed.
