(* ===== verification/FsAlloc.v ===== *)
(** * Allocating and freeing disk blocks

    The free map as a set of blocks, and what [balloc] and [bfree] do to it inside a transaction:
    [balloc] returns the first free block, marks it and fills it with zeros; [bfree] clears the
    mark.  Nothing else changes. *)

From stdpp Require Import base numbers list gmap sets strings.
From S2P Require Import Prelude Mem Types Kernel Wp Sched SchedFacts Bio BioFacts Log LogFacts Fs FsFacts FsTx.

(** ** The layout of the disk: the log, the inodes, the free map, and from block [ds] on the data *)

Record layout (start cap : Z) (G : superblock) (ds : Z) : Prop := {
  ly_log : 0 <= start /\ 0 <= cap <= LOGSIZE /\ start + cap < sb_inodestart G;
  ly_inodes : 0 < sb_ninodes G /\ sb_inodestart G + sb_ninodes G / IPB < sb_bmapstart G;
  ly_bmap : sb_bmapstart G + sb_size G / BPB < ds;
  ly_size : ds <= sb_size G < 2 ^ 31 }.

(** Block [b] is marked as used. *)
Definition allocated (G : superblock) (v : Z -> list Z) (b : Z) : bool :=
  bit_set (v (BBLOCK b G)) (Z.to_nat (b mod BPB)).

(** The blocks before the data are used, and blocks have their size. *)
Record map_ok (G : superblock) (ds : Z) (v : Z -> list Z) : Prop := {
  mo_meta : forall b, 0 <= b < ds -> allocated G v b = true;
  mo_len : forall n, length (v n) = Z.to_nat BSIZE }.

Definition balloc_view (G : superblock) (b : Z) (v : Z -> list Z) : Z -> list Z :=
  update b (fun _ => zero_block) (update (BBLOCK b G) (set_bit (Z.to_nat (b mod BPB))) v).
Definition bfree_view (G : superblock) (b : Z) (v : Z -> list Z) : Z -> list Z :=
  update (BBLOCK b G) (clear_bit (Z.to_nat (b mod BPB))) v.

Lemma update_eq n g v : update n g v n = g (v n).
Proof. unfold update. by rewrite decide_True. Qed.
Lemma update_ne n g v m : m <> n -> update n g v m = v m.
Proof. intros H. unfold update. by rewrite decide_False. Qed.

Lemma balloc_zero G b v : balloc_view G b v b = zero_block.
Proof. apply update_eq. Qed.

Section Layout.
Context (start cap : Z) (G : superblock) (ds : Z).
Hypothesis Hly : layout start cap G ds.
Implicit Types (v : Z -> list Z) (b n : Z).

Lemma layout_end : start + cap < 2 ^ 31.
Proof using Hly.
  destruct Hly as [(? & ? & ?) (? & ?) ? ?]. change IPB with 16 in *. change BPB with 8192 in *.
  Z.div_mod_to_equations; lia.
Qed.

Lemma BBLOCK_at b : 0 <= b < sb_size G -> BBLOCK b G = b / BPB + sb_bmapstart G /\
  sb_bmapstart G <= BBLOCK b G < ds.
Proof using Hly.
  intros Hb. destruct Hly as [(? & ? & ?) (? & ?) ? ?]. unfold BBLOCK. change IPB with 16 in *. change BPB with 8192 in *.
  rewrite u32_small by (Z.div_mod_to_equations; lia). Z.div_mod_to_equations; lia.
Qed.

Lemma IBLOCK_at i : 0 <= i < sb_ninodes G -> IBLOCK i G = i / IPB + sb_inodestart G /\
  sb_inodestart G <= IBLOCK i G < sb_bmapstart G.
Proof using Hly.
  intros Hi. destruct Hly as [(? & ? & ?) (? & ?) ? ?]. unfold IBLOCK. change IPB with 16 in *. change BPB with 8192 in *.
  rewrite u32_small by (Z.div_mod_to_equations; lia). Z.div_mod_to_equations; lia.
Qed.

(** Inode blocks, the free map and the data lie outside the log. *)
Lemma home_at n : sb_inodestart G <= n < sb_size G -> home start cap n.
Proof using Hly.
  intros Hn. destruct Hly as [(? & ? & ?) (? & ?) ? ?]. split; [unfold blockno_ok; lia|]. right. lia.
Qed.

Lemma home_bitmap b : 0 <= b < sb_size G -> home start cap (BBLOCK b G).
Proof using Hly.
  intros Hb. apply home_at. destruct (BBLOCK_at b Hb) as [_ ?]. destruct Hly as [? (? & ?) ? ?].
  change IPB with 16 in *. Z.div_mod_to_equations; lia.
Qed.

Lemma home_data n : ds <= n < sb_size G -> home start cap n.
Proof using Hly.
  intros Hn. apply home_at. destruct Hly as [? (? & ?) ? ?]. change IPB with 16 in *. change BPB with 8192 in *.
  Z.div_mod_to_equations; lia.
Qed.

Lemma ds_pos : 0 < ds.
Proof using Hly.
  destruct Hly as [(? & ? & ?) (? & ?) ? ?]. change IPB with 16 in *. change BPB with 8192 in *.
  Z.div_mod_to_equations; lia.
Qed.

(** ** The free map after an allocation and after a release *)

Lemma map_bit v b g : 0 <= b < sb_size G ->
  forall b', 0 <= b' < sb_size G ->
  allocated G (update (BBLOCK b G) g v) b' =
    if decide (b' / BPB = b / BPB) then bit_set (g (v (BBLOCK b G))) (Z.to_nat (b' mod BPB)) else allocated G v b'.
Proof using Hly.
  intros Hb b' Hb'. unfold allocated. destruct (BBLOCK_at b Hb) as [E _], (BBLOCK_at b' Hb') as [E' _].
  case_decide as Hd.
  - replace (BBLOCK b' G) with (BBLOCK b G) by (rewrite E, E', Hd; done). by rewrite update_eq.
  - rewrite update_ne; [done|]. rewrite E, E'. lia.
Qed.

Lemma same_bit b b' : 0 <= b -> 0 <= b' -> b' / BPB = b / BPB ->
  (Z.to_nat (b' mod BPB) =? Z.to_nat (b mod BPB))%nat = (b' =? b).
Proof using.
  intros ? ? Hd. change BPB with 8192 in *.
  destruct (Nat.eqb_spec (Z.to_nat (b' mod 8192)) (Z.to_nat (b mod 8192))), (Z.eqb_spec b' b); try done;
    Z.div_mod_to_equations; lia.
Qed.

Lemma bit_in_block v b : length (v (BBLOCK b G)) = Z.to_nat BSIZE ->
  (Z.to_nat (b mod BPB) < 8 * length (v (BBLOCK b G)))%nat.
Proof using. intros ->. change BSIZE with 1024. change BPB with 8192. Z.div_mod_to_equations; lia. Qed.

Lemma allocated_data v b g b' : ds <= b -> 0 <= b' < sb_size G -> allocated G (update b g v) b' = allocated G v b'.
Proof using Hly. intros Hb Hb'. unfold allocated. rewrite update_ne; [done|]. destruct (BBLOCK_at b' Hb'). lia. Qed.

Lemma allocated_balloc v b b' :
  map_ok G ds v -> ds <= b < sb_size G -> 0 <= b' < sb_size G ->
  allocated G (balloc_view G b v) b' = (b' =? b) || allocated G v b'.
Proof using Hly.
  intros Hv Hb Hb'. pose proof ds_pos. unfold balloc_view. rewrite allocated_data by lia.
  rewrite map_bit by lia. case_decide as Hd.
  - rewrite bit_set_set_bit by (apply bit_in_block, Hv). rewrite same_bit by lia. f_equal. unfold allocated.
    destruct (BBLOCK_at b ltac:(lia)) as [E _], (BBLOCK_at b' Hb') as [E' _].
    replace (BBLOCK b' G) with (BBLOCK b G) by (rewrite E, E', Hd; done). done.
  - destruct (Z.eqb_spec b' b); [by subst|done].
Qed.

Lemma allocated_bfree v b b' :
  map_ok G ds v -> 0 <= b < sb_size G -> 0 <= b' < sb_size G ->
  allocated G (bfree_view G b v) b' = negb (b' =? b) && allocated G v b'.
Proof using Hly.
  intros Hv Hb Hb'. unfold bfree_view. rewrite map_bit by lia. case_decide as Hd.
  - rewrite bit_set_clear_bit by (apply bit_in_block, Hv). rewrite same_bit by lia. f_equal. unfold allocated.
    destruct (BBLOCK_at b ltac:(lia)) as [E _], (BBLOCK_at b' Hb') as [E' _].
    replace (BBLOCK b' G) with (BBLOCK b G) by (rewrite E, E', Hd; done). done.
  - destruct (Z.eqb_spec b' b); [by subst|done].
Qed.

Lemma map_ok_balloc v b : map_ok G ds v -> ds <= b < sb_size G -> map_ok G ds (balloc_view G b v).
Proof using Hly.
  intros Hv Hb. pose proof (ly_size _ _ _ _ Hly). split.
  - intros b' Hb'. rewrite allocated_balloc by (done || lia). rewrite (mo_meta _ _ _ Hv) by done. apply orb_true_r.
  - intros n. unfold balloc_view, update. repeat case_decide; rewrite ?length_set_bit; try apply Hv. apply length_replicate.
Qed.

Lemma map_ok_bfree v b : map_ok G ds v -> ds <= b < sb_size G -> map_ok G ds (bfree_view G b v).
Proof using Hly.
  intros Hv Hb. pose proof (ly_size _ _ _ _ Hly). pose proof ds_pos. split.
  - intros b' Hb'. rewrite allocated_bfree by (done || lia). rewrite (mo_meta _ _ _ Hv) by done.
    destruct (Z.eqb_spec b' b); [lia|done].
  - intros n. unfold bfree_view, update. case_decide; rewrite ?length_clear_bit; apply Hv.
Qed.

(** ** The search of [balloc] *)

Definition lowest_free v b : Prop :=
  0 <= b < sb_size G /\ allocated G v b = false /\ forall b', 0 <= b' < b -> allocated G v b' = true.

(** The first free block among those of the [g]th block of the map. *)
Definition group_free v (g : nat) : option nat :=
  find_clear (Z.to_nat (Z.min BPB (sb_size G - Z.of_nat g * BPB))) (v (BBLOCK (Z.of_nat g * BPB) G)) 0.
Definition group_full v (g : nat) : Prop :=
  forall b, Z.of_nat g * BPB <= b < Z.of_nat (S g) * BPB -> b < sb_size G -> allocated G v b = true.

Lemma group_bit v g i : Z.of_nat g * BPB + Z.of_nat i < sb_size G -> (i < Z.to_nat BPB)%nat ->
  bit_set (v (BBLOCK (Z.of_nat g * BPB) G)) i = allocated G v (Z.of_nat g * BPB + Z.of_nat i).
Proof using Hly.
  intros Hi Hb. unfold allocated. change BPB with 8192 in *.
  destruct (BBLOCK_at (Z.of_nat g * 8192) ltac:(lia)) as [E _], (BBLOCK_at (Z.of_nat g * 8192 + Z.of_nat i) ltac:(lia)) as [E' _].
  change BPB with 8192 in *.
  replace (BBLOCK (Z.of_nat g * 8192 + Z.of_nat i) G) with (BBLOCK (Z.of_nat g * 8192) G)
    by (rewrite E, E'; f_equal; Z.div_mod_to_equations; lia).
  f_equal. Z.div_mod_to_equations; lia.
Qed.

Lemma group_free_spec v g : Z.of_nat g * BPB < sb_size G ->
  match group_free v g with
  | Some i => let b := Z.of_nat g * BPB + Z.of_nat i in
      (i < Z.to_nat BPB)%nat /\ b < sb_size G /\ allocated G v b = false /\
      forall b', Z.of_nat g * BPB <= b' < b -> allocated G v b' = true
  | None => group_full v g
  end.
Proof using Hly.
  intros Hg. pose proof (find_clear_spec (Z.to_nat (Z.min BPB (sb_size G - Z.of_nat g * BPB)))
    (v (BBLOCK (Z.of_nat g * BPB) G)) 0) as H. unfold group_free. change BPB with 8192 in *.
  destruct (find_clear _ _ _) as [i|].
  - destruct H as (Hi & Hc & Hs). cbn zeta. split; [lia|]. split; [lia|]. split.
    + rewrite <- group_bit by (change BPB with 8192; lia). done.
    + intros b' Hb'. replace b' with (Z.of_nat g * 8192 + Z.of_nat (Z.to_nat (b' - Z.of_nat g * 8192))) by lia.
      rewrite <- group_bit by (change BPB with 8192; lia). apply Hs. lia.
  - intros b Hb Hsz. change BPB with 8192 in *.
    replace b with (Z.of_nat g * 8192 + Z.of_nat (Z.to_nat (b - Z.of_nat g * 8192))) by lia.
    rewrite <- group_bit by (change BPB with 8192; lia). apply H. lia.
Qed.

Definition ngroups : nat := Z.to_nat ((sb_size G + BPB - 1) / BPB).

Lemma group_in g : (g < ngroups)%nat -> 0 <= Z.of_nat g * BPB < sb_size G.
Proof using. intros Hg. unfold ngroups in Hg. change BPB with 8192 in *. Z.div_mod_to_equations; lia. Qed.

Lemma group_passed v g : (g < ngroups)%nat -> bool_decide (is_Some (group_free v g)) = false -> group_full v g.
Proof using Hly.
  intros Hg Hf%bool_decide_eq_false. pose proof (group_free_spec v g ltac:(by apply group_in)) as Hs.
  destruct (group_free v g); [by destruct Hf|done].
Qed.

(** The elements of [seq] before one of them. *)
Lemma seq_split (n : nat) l1 g l2 : seq 0 n = l1 ++ g :: l2 -> (g < n)%nat /\ l1 = seq 0 g.
Proof using.
  intros Hl. assert (seq 0 n !! length l1 = Some g) as Hk by by rewrite Hl, list_lookup_middle.
  apply lookup_seq in Hk as [-> Hlt]. split; [lia|]. rewrite Nat.add_0_l.
  assert (take (length l1) (seq 0 n) = l1) as H by (rewrite Hl; apply take_app_length).
  rewrite take_seq, Nat.min_l in H by lia. done.
Qed.

Lemma groups_full v g : (g <= ngroups)%nat -> (forall g', (g' < g)%nat -> group_full v g') ->
  forall b, 0 <= b < Z.of_nat g * BPB -> b < sb_size G -> allocated G v b = true.
Proof using.
  intros Hg H b Hb Hs. change BPB with 8192 in *. apply (H (Z.to_nat (b / 8192))); [|change BPB with 8192|done];
    Z.div_mod_to_equations; lia.
Qed.

Lemma group_first v g i : (g < ngroups)%nat -> (forall g', (g' < g)%nat -> group_full v g') -> group_free v g = Some i ->
  let b := Z.of_nat g * BPB + Z.of_nat i in
  lowest_free v b /\ BBLOCK b G = BBLOCK (Z.of_nat g * BPB) G /\ Z.to_nat (b mod BPB) = i.
Proof using Hly.
  intros Hg Hfull Hi b. assert (Z.of_nat g * BPB < sb_size G) as Hlt.
  { unfold ngroups in Hg. change BPB with 8192 in *. Z.div_mod_to_equations; lia. }
  pose proof (group_free_spec v g Hlt) as H. rewrite Hi in H. destruct H as (Hib & Hsz & Hc & Hs). fold b in Hsz, Hc, Hs.
  change BPB with 8192 in *. assert (0 <= b) by lia. repeat split; try done.
  - intros b' Hb'. destruct (decide (b' < Z.of_nat g * 8192)); [|apply Hs; lia].
    apply (groups_full v g); [lia|done| |]; change BPB with 8192; lia.
  - destruct (BBLOCK_at (Z.of_nat g * 8192) ltac:(lia)) as [-> _], (BBLOCK_at b ltac:(lia)) as [-> _].
    f_equal. change BPB with 8192. unfold b. Z.div_mod_to_equations; lia.
  - unfold b. Z.div_mod_to_equations; lia.
Qed.
End Layout.

(** ** [balloc] and [bfree] inside a transaction *)

Section Blocks.
Context (pid dev start cap : Z) (s0 : kstate) (ds : Z).
Local Abbreviation G := (sb s0).
Hypothesis Hly : layout start cap G ds.
Hypothesis Hdev : 0 <= dev < 2 ^ 32.
Implicit Types (v : Z -> list Z) (blocks : list Z) (hold : gmap Z nat).
Local Abbreviation txs := (txs pid dev start cap s0).

(** The caller may have data blocks locked that are in use. *)
Definition hold_ok v hold : Prop := map_Forall (fun n _ => ds <= n < sb_size G /\ allocated G v n = true) hold.

Lemma hold_bitmap v hold b : hold_ok v hold -> 0 <= b < sb_size G -> hold !! BBLOCK b G = None.
Proof using Hly.
  intros H Hb. destruct (hold !! BBLOCK b G) as [c|] eqn:E; [|done]. destruct (H _ _ E) as [? _].
  destruct (BBLOCK_at start cap G ds Hly b Hb). lia.
Qed.

Lemma hold_fresh v hold b : hold_ok v hold -> allocated G v b = false -> hold !! b = None.
Proof using. intros H Hb. destruct (hold !! b) as [c|] eqn:E; [|done]. destruct (H _ _ E). congruence. Qed.

Lemma length_log_add n blocks : (length (log_add n blocks) <= S (length blocks))%nat.
Proof using. unfold log_add. case_decide; [lia|]. rewrite length_app. cbn. lia. Qed.

(** Room for [k] more blocks, with [j] buffers locked. *)
Definition room (k : nat) blocks hold : Prop :=
  (Z.of_nat (length blocks + k) <= cap) /\ (length blocks + size hold + k <= NBUF)%nat.

Lemma wp_bzero b blocks hold v (Q : unit -> interference -> kstate -> Prop) e s :
  txs blocks hold v s -> hold !! b = None -> ds <= b < sb_size G -> room 1 blocks hold ->
  (forall s', txs (log_add b blocks) hold (update b (fun _ => zero_block) v) s' -> Q tt e s') ->
  wp (bzero dev b) Q e s.
Proof using Hly Hdev.
  intros Ht Hh Hb (Hr1 & Hr2) HQ. unfold bzero. pose proof (ds_pos _ _ _ _ Hly). pose proof (ly_size _ _ _ _ Hly).
  pose proof (proj1 (proj2 (ly_log _ _ _ _ Hly))). rewrite !u32_small by lia.
  apply (tx_update pid dev start cap s0 blocks v b hold (fun _ => zero_block)); try done; [|lia|lia|lia].
  by apply (home_data start cap G ds Hly).
Qed.

(** The end of [balloc]: the bit is set and the block zeroed. *)
Lemma wp_take_block bp n i b blocks hold v (Q : option Z -> interference -> kstate -> Prop) e s :
  txs blocks (<[n := bp]> hold) v s -> hold !! n = None -> hold !! b = None -> ds <= b < sb_size G -> room 2 blocks hold ->
  (forall s', txs (log_add b (log_add n blocks)) hold (update b (fun _ => zero_block) (update n (set_bit i) v)) s' ->
     Q (Some b) e s') ->
  wp (set_buf bp (fun x => x <| b_data ::= set_bit i |>) ;;; log_write bp ;;; brelse bp ;;; bzero dev b ;;; retK (Some b)) Q e s.
Proof using Hly Hdev.
  intros Ht Hn Hb Hds (Hr1 & Hr2) HQ. pose proof (proj1 (proj2 (ly_log _ _ _ _ Hly))).
  wp. eapply tx_set_data; [done|apply lookup_insert_eq|]. intros s3 H3. wp.
  eapply tx_log_write; [done|apply lookup_insert_eq|lia|lia|]. intros s4 H4. wp.
  eapply tx_give; [done|done|left; apply elem_of_log_add; by left|]. intros s5 H5. wp.
  pose proof (length_log_add n blocks). eapply wp_bzero; [done|done|lia|split; lia|].
  intros s6 H6. wp. by apply HQ.
Qed.

Lemma wp_balloc blocks hold v (Q : Z -> interference -> kstate -> Prop) e s :
  txs blocks hold v s -> map_ok G ds v -> hold_ok v hold -> room 2 blocks hold ->
  (exists b, 0 <= b < sb_size G /\ allocated G v b = false) ->
  (forall b s', lowest_free G v b -> ds <= b -> txs (log_add b (log_add (BBLOCK b G) blocks)) hold (balloc_view G b v) s' -> Q b e s') ->
  wp (balloc dev) Q e s.
Proof using Hly Hdev.
  intros Ht Hv Hhold Hroom (b0 & Hb0 & Hfree) HQ. unfold balloc. eapply tx_get_sb; [done|]. wp. fold (ngroups G).
  assert (forall g, (g < ngroups G)%nat -> hold !! BBLOCK (Z.of_nat g * BPB) G = None) as Hbm.
  { intros g Hg. eapply hold_bitmap; [done|by apply group_in]. }
  assert (forall g, (g < ngroups G)%nat -> home start cap (BBLOCK (Z.of_nat g * BPB) G)) as Hhm.
  { intros g Hg. apply (home_bitmap _ _ _ _ Hly). by apply group_in. }
  apply (wp_search_inv (txs blocks hold v) (fun g => bool_decide (is_Some (group_free G v g)))); [done| | |].
  - intros g s1 Hg%elem_of_seq Hf%bool_decide_eq_false H1. destruct Hroom as [Hr1 Hr2].
    eapply tx_peek; [done|apply Hbm; lia|apply Hhm; lia|lia|].
    intros bp x s2 Hx H2. rewrite Hx. fold (group_free G v g). destruct (group_free G v g); [by destruct Hf|].
    wp. eapply tx_give; [done|apply Hbm; lia|eapply txs_clean; [exact H1|apply Hbm; lia]|]. intros s3 H3. by wp.
  - intros l1 g l2 s1 Hl Hl1 [i Hi]%bool_decide_eq_true H1. apply seq_split in Hl as [Hg ->].
    destruct (group_first start cap G ds Hly v g i Hg) as (Hff & Hbb & Hbi); [|done|].
    { intros g' Hg'. apply (group_passed _ _ _ _ Hly); [lia|]. rewrite Forall_forall in Hl1. apply Hl1, elem_of_seq. lia. }
    set (b := Z.of_nat g * BPB + Z.of_nat i) in *. pose proof Hff as (Hbr & Hbf & _).
    assert (ds <= b) as Hds.
    { destruct (decide (b < ds)); [|lia]. rewrite (mo_meta _ _ _ Hv) in Hbf by lia. done. }
    eapply tx_peek; [done|by apply Hbm|by apply Hhm|destruct Hroom; lia|].
    intros bp x s2 Hx H2. rewrite Hx. fold (group_free G v g). rewrite Hi. fold b.
    eapply wp_take_block; [done|by apply Hbm|by eapply hold_fresh|lia|done|]. intros s6 H6.
    exists b. split; [done|]. wp. apply HQ; [done|done|]. unfold balloc_view. by rewrite Hbb, Hbi.
  - intros s1 H1 Hall. exfalso. rewrite (groups_full G v (ngroups G)) in Hfree; [done|done| | |lia].
    + intros g Hg. apply (group_passed _ _ _ _ Hly); [done|]. rewrite Forall_forall in Hall. apply Hall, elem_of_seq. lia.
    + unfold ngroups. change BPB with 8192. Z.div_mod_to_equations; lia.
Qed.

Lemma wp_bfree b blocks hold v (Q : unit -> interference -> kstate -> Prop) e s :
  txs blocks hold v s -> hold_ok v hold -> 0 <= b < sb_size G -> allocated G v b = true -> room 1 blocks hold ->
  (forall s', txs (log_add (BBLOCK b G) blocks) hold (bfree_view G b v) s' -> Q tt e s') ->
  wp (bfree dev b) Q e s.
Proof using Hly Hdev.
  intros Ht Hhold Hb Ha (Hr1 & Hr2) HQ. unfold bfree. eapply tx_get_sb; [done|]. rewrite u32_small by lia.
  pose proof (proj1 (proj2 (ly_log _ _ _ _ Hly))).
  eapply tx_peek; [done|by eapply hold_bitmap|by apply (home_bitmap _ _ _ _ Hly)|lia|].
  intros bp x s2 Hx H2. rewrite Hx. fold (allocated G v b). rewrite Ha. cbn [negb].
  eapply tx_modify; [done|by eapply hold_bitmap|lia|lia|done].
Qed.
End Blocks.
