(* ===== verification/FsExtend.v ===== *)
(** * Files that grow

    [bmap] inside a transaction: the block of the file it returns exists afterwards.  What
    allocating blocks for one file leaves alone is the relation [ext], which composes: the other
    blocks of the file, the blocks of all other files, the inodes, and the blocks that stay
    free. *)

From stdpp Require Import base numbers list gmap sets strings.
From S2P Require Import Prelude Mem Types Kernel Wp Sched SchedFacts Bio BioFacts Log LogFacts Fs FsFacts FsTx FsAlloc.

(** ** The blocks of a file *)

Definition ind (x : inode) : Z := i_addrs x !!! Z.to_nat NDIRECT.

(** The address of block [bn] of the file, 0 when there is none. *)
Definition faddr (v : Z -> list Z) (x : inode) (bn : nat) : Z :=
  if decide (bn < Z.to_nat NDIRECT)%nat then i_addrs x !!! bn
  else if decide (ind x = 0) then 0 else lget 4 (v (ind x)) (4 * (bn - Z.to_nat NDIRECT)).

Definition is_file_block (bn : nat) : Prop := (bn < Z.to_nat MAXFILE)%nat.

Lemma faddr_ext v v' x x' bn :
  i_addrs x' = i_addrs x -> (ind x <> 0 -> v' (ind x) = v (ind x)) -> faddr v' x' bn = faddr v x bn.
Proof. intros Ha Hv. unfold faddr, ind in *. rewrite Ha. repeat case_decide; try done. by rewrite Hv. Qed.

Lemma lget_zero_block n off : lget n zero_block off = 0.
Proof.
  revert off. induction n as [|n IH]; intros off; [done|]. cbn [lget]. rewrite IH. unfold zero_block.
  destruct (decide (off < Z.to_nat BSIZE)%nat).
  - by rewrite lookup_replicate_2.
  - rewrite lookup_ge_None_2; [done|]. rewrite length_replicate. lia.
Qed.

Section Files.
Context (start cap : Z) (G : superblock) (ds : Z).
Hypothesis Hly : layout start cap G ds.
Implicit Types (v : Z -> list Z) (b n : Z) (x : inode) (T : nat -> Prop) (B : list Z).

(** A data block that is in use. *)
Definition used v b : Prop := ds <= b < sb_size G /\ allocated G v b = true.

(** The free map is sound, and the blocks of the file are used by nothing else in the file. *)
Record file_ok v x : Prop := {
  fo_map : map_ok G ds v;
  fo_addrs : length (i_addrs x) = 13%nat;
  fo_ind : ind x <> 0 -> used v (ind x);
  fo_used : forall bn, is_file_block bn -> faddr v x bn <> 0 -> used v (faddr v x bn) /\ faddr v x bn <> ind x;
  fo_inj : forall bn bn', is_file_block bn -> is_file_block bn' -> faddr v x bn = faddr v x bn' ->
    faddr v x bn <> 0 -> bn = bn' }.

(** At least [k] blocks are free. *)
Definition avail (k : nat) v : Prop := exists l, NoDup l /\ length l = k /\
  Forall (fun b => 0 <= b < sb_size G /\ allocated G v b = false) l.

Lemma avail_free k v : avail (S k) v -> exists b, 0 <= b < sb_size G /\ allocated G v b = false.
Proof. intros ([|b l] & _ & Hl & Hall); [done|]. inversion Hall. by exists b. Qed.

Lemma avail_same k v v' :
  (forall b, 0 <= b < sb_size G -> allocated G v' b = allocated G v b) -> avail k v -> avail k v'.
Proof.
  intros H (l & Hnd & Hl & Hall). exists l. split; [done|]. split; [done|]. eapply Forall_impl; [exact Hall|].
  intros b [Hb Ha]. by rewrite H.
Qed.

Lemma avail_le j k v : (j <= k)%nat -> avail k v -> avail j v.
Proof.
  intros Hj (l & Hnd & Hl & Hall). exists (take j l). split; [by eapply sublist_NoDup; [exact Hnd|apply sublist_take]|].
  split; [rewrite length_take; lia|by apply Forall_take].
Qed.

Lemma avail_balloc k v b :
  map_ok G ds v -> ds <= b < sb_size G -> avail (S k) v -> avail k (balloc_view G b v).
Proof using Hly.
  intros Hv Hb (l & Hnd & Hl & Hall).
  set (l' := filter (fun c => c <> b) l). assert (k <= length l')%nat as Hk.
  { assert (length l <= S (length l'))%nat; [|lia]. rewrite <- (length_cons b l').
    apply submseteq_length, NoDup_submseteq; [done|]. intros c Hc. apply elem_of_cons.
    destruct (decide (c = b)); [by left|right]. by apply list_elem_of_filter. }
  eapply avail_le; [exact Hk|]. exists l'. split; [by apply NoDup_filter|]. split; [done|].
  apply Forall_forall. intros c [Hcb Hc]%list_elem_of_filter. rewrite Forall_forall in Hall.
  destruct (Hall c Hc) as [Hcr Hca]. split; [done|].
  rewrite (allocated_balloc start cap G ds Hly) by done. rewrite Hca. by destruct (Z.eqb_spec c b).
Qed.

(** ** What a growing file leaves alone *)

Definition is_map_block n : Prop := sb_bmapstart G <= n < ds.
(** The blocks the file has at the places [T], and its block of addresses. *)
Definition own T v x n : Prop := n <> 0 /\ (n = ind x \/ exists bn, T bn /\ is_file_block bn /\ n = faddr v x bn).

(** From [x], [v] and the log [B] to [x'], [v'] and [B'], blocks were given to the file at the
    places [T], and blocks at these places were written. *)
Record ext T x v B x' v' B' : Prop := {
  ex_ok : file_ok v' x';
  ex_inode : x' = x <| i_addrs := i_addrs x' |>;
  ex_stay : forall bn, is_file_block bn -> faddr v x bn <> 0 -> faddr v' x' bn = faddr v x bn;
  ex_other : forall bn, is_file_block bn -> ~ T bn -> faddr v' x' bn = faddr v x bn;
  ex_ind : ind x <> 0 -> ind x' = ind x;
  ex_meta : forall n, n < sb_bmapstart G -> v' n = v n;
  ex_keep : forall n, used v n -> ~ own T v x n -> v' n = v n;
  ex_mono : forall n, used v n -> used v' n;
  ex_new : forall n, used v' n -> used v n \/ own T v' x' n;
  ex_fresh : forall bn, is_file_block bn -> faddr v x bn = 0 -> faddr v' x' bn <> 0 -> ~ used v (faddr v' x' bn);
  ex_fresh_ind : ind x = 0 -> ind x' <> 0 -> ~ used v (ind x');
  ex_log : forall n, n ∈ B' -> n ∈ B \/ is_map_block n \/ own T v' x' n }.

Lemma ext_refl T x v B : file_ok v x -> ext T x v B x v B.
Proof. intros Hok. split; try done; auto. Qed.

Lemma own_mono (T1 T2 : nat -> Prop) v x n : (forall bn, T1 bn -> T2 bn) -> own T1 v x n -> own T2 v x n.
Proof. intros HT (Hn & [?|(bn & Hbn & ?)]); (split; [done|]); [by left|right]. exists bn. auto. Qed.

Lemma ext_weaken (T1 T2 : nat -> Prop) x v B x' v' B' :
  (forall bn, T1 bn -> T2 bn) -> ext T1 x v B x' v' B' -> ext T2 x v B x' v' B'.
Proof.
  intros HT [H1 H2 H3 H4 H5 H6 H7 H8 H9 H10 H11 H12]. split; try done.
  - intros bn Hbn Hn. apply H4; [done|]. auto.
  - intros n Hu Ho. apply H7; [done|]. intros Ho1. apply Ho. by eapply own_mono.
  - intros n Hu. destruct (H9 n Hu); [by left|]. right. by eapply own_mono.
  - intros n Hu. destruct (H12 n Hu) as [?|[?|?]]; [by left|by right; left|]. right. right. by eapply own_mono.
Qed.

Lemma own_later T x v B x' v' B' n : ext T x v B x' v' B' -> own T v x n -> own T v' x' n.
Proof.
  intros He (Hn & [-> |(bn & HT & Hbn & ->)]); (split; [done|]).
  - left. symmetry. by apply He.
  - right. exists bn. split; [done|]. split; [done|]. symmetry. by apply He.
Qed.

(** A used block that the file has later at [T], it has now. *)
Lemma own_earlier T x v B x' v' B' n : ext T x v B x' v' B' -> used v n -> own T v' x' n -> own T v x n.
Proof.
  intros He Hu (Hn & [-> |(bn & HT & Hbn & ->)]); (split; [done|]).
  - left. destruct (decide (ind x = 0)) as [E|E]; [|by rewrite (ex_ind _ _ _ _ _ _ _ He E)].
    by destruct (ex_fresh_ind _ _ _ _ _ _ _ He E Hn).
  - right. exists bn. split; [done|]. split; [done|].
    destruct (decide (faddr v x bn = 0)) as [E|E]; [|by rewrite (ex_stay _ _ _ _ _ _ _ He bn Hbn E)].
    by destruct (ex_fresh _ _ _ _ _ _ _ He bn Hbn E Hn).
Qed.

Lemma ext_trans T x v B x1 v1 B1 x2 v2 B2 :
  ext T x v B x1 v1 B1 -> ext T x1 v1 B1 x2 v2 B2 -> ext T x v B x2 v2 B2.
Proof.
  intros H1 H2. split.
  - apply H2.
  - rewrite (ex_inode _ _ _ _ _ _ _ H2), (ex_inode _ _ _ _ _ _ _ H1). rec_eq.
  - intros bn Hbn Hz. rewrite (ex_stay _ _ _ _ _ _ _ H2), (ex_stay _ _ _ _ _ _ _ H1); try done.
    by rewrite (ex_stay _ _ _ _ _ _ _ H1).
  - intros bn Hbn HT. by rewrite (ex_other _ _ _ _ _ _ _ H2), (ex_other _ _ _ _ _ _ _ H1).
  - intros Hz. rewrite (ex_ind _ _ _ _ _ _ _ H2), (ex_ind _ _ _ _ _ _ _ H1); try done. by rewrite (ex_ind _ _ _ _ _ _ _ H1).
  - intros n Hn. by rewrite (ex_meta _ _ _ _ _ _ _ H2), (ex_meta _ _ _ _ _ _ _ H1).
  - intros n Hu Ho. rewrite (ex_keep _ _ _ _ _ _ _ H2), (ex_keep _ _ _ _ _ _ _ H1); try done; [by apply H1|].
    intros Ho1. apply Ho. by eapply own_earlier.
  - intros n Hu. by apply H2, H1.
  - intros n Hu. destruct (ex_new _ _ _ _ _ _ _ H2 n Hu) as [Hu1|?]; [|by right].
    destruct (ex_new _ _ _ _ _ _ _ H1 n Hu1) as [?|?]; [by left|]. right. by eapply own_later.
  - intros bn Hbn Hz Hnz Hu. destruct (decide (faddr v1 x1 bn = 0)) as [E|E].
    + by apply (ex_fresh _ _ _ _ _ _ _ H2 bn Hbn E Hnz), H1.
    + rewrite (ex_stay _ _ _ _ _ _ _ H2 bn Hbn E) in Hu. by apply (ex_fresh _ _ _ _ _ _ _ H1 bn Hbn Hz E).
  - intros Hz Hnz Hu. destruct (decide (ind x1 = 0)) as [E|E].
    + by apply (ex_fresh_ind _ _ _ _ _ _ _ H2 E Hnz), H1.
    + rewrite (ex_ind _ _ _ _ _ _ _ H2 E) in Hu. by apply (ex_fresh_ind _ _ _ _ _ _ _ H1 Hz E).
  - intros n Hn. destruct (ex_log _ _ _ _ _ _ _ H2 n Hn) as [Hn1|?]; [|by right].
    destruct (ex_log _ _ _ _ _ _ _ H1 n Hn1) as [?|[?|?]]; [by left|by right; left|]. right. right. by eapply own_later.
Qed.

(** ** A free block is given to the file *)

(** At the place [p], or as the block of addresses. *)
Inductive attached T x v b x' v' : Prop :=
| at_place p : T p -> is_file_block p -> faddr v x p = 0 -> faddr v' x' p = b -> ind x' = ind x ->
    (forall bn, is_file_block bn -> bn <> p -> faddr v' x' bn = faddr v x bn) -> attached T x v b x' v'
| at_ind : ind x = 0 -> ind x' = b -> (forall bn, is_file_block bn -> faddr v' x' bn = faddr v x bn) ->
    attached T x v b x' v'.

Section Attach.
Context T x v B b x' v' B'.
Hypothesis Hok : file_ok v x.
Hypothesis Hb : ds <= b < sb_size G.
Hypothesis Hfree : allocated G v b = false.
Hypothesis Hatt : attached T x v b x' v'.
Hypothesis Haddrs : length (i_addrs x') = 13%nat.
Hypothesis Hx : x' = x <| i_addrs := i_addrs x' |>.
Hypothesis Hv : forall n, (ind x <> 0 -> n <> ind x) -> v' n = balloc_view G b v n.
Hypothesis Hlen : forall n, length (v' n) = Z.to_nat BSIZE.
Hypothesis HB : forall n, n ∈ B' -> n ∈ B \/ n = b \/ n = BBLOCK b G \/ (ind x <> 0 /\ n = ind x).

Lemma attach_not_used : ~ used v b.
Proof using All. intros [_ ?]. congruence. Qed.

Lemma attach_below n : n < ds -> v' n = balloc_view G b v n.
Proof using All. intros Hn. apply Hv. intros Hi. destruct (fo_ind _ _ Hok Hi) as [? _]. lia. Qed.

Lemma attach_allocated n : 0 <= n < sb_size G -> allocated G v' n = (n =? b) || allocated G v n.
Proof using All.
  intros Hn. rewrite <- (allocated_balloc start cap G ds Hly) by (done || apply Hok). unfold allocated.
  rewrite attach_below; [done|]. by apply (BBLOCK_at start cap G ds Hly).
Qed.

Lemma attach_used n : used v' n <-> used v n \/ n = b.
Proof using All.
  pose proof (ds_pos _ _ _ _ Hly). unfold used. split.
  - intros [Hn Ha]. rewrite attach_allocated in Ha by lia. destruct (Z.eqb_spec n b); [by right|by left].
  - intros [[Hn Ha]| ->]; (split; [done|]); rewrite attach_allocated by lia; [|by rewrite Z.eqb_refl].
    rewrite Ha. apply orb_true_r.
Qed.

Lemma attach_keep n : n < sb_bmapstart G \/ used v n -> (ind x <> 0 -> n <> ind x) -> v' n = v n.
Proof using All.
  intros Hn Hi. rewrite Hv by done. pose proof (ds_pos _ _ _ _ Hly). pose proof (ly_bmap _ _ _ _ Hly).
  pose proof (ly_size _ _ _ _ Hly). destruct (BBLOCK_at start cap G ds Hly b ltac:(lia)) as [_ Hbb]. unfold balloc_view.
  rewrite !update_ne; [done| |].
  - destruct Hn as [?|[? _]]; lia.
  - destruct Hn as [?|?]; [|by intros ->; apply attach_not_used]. change BPB with 8192 in *. Z.div_mod_to_equations; lia.
Qed.

Lemma attach_other bn : is_file_block bn -> faddr v x bn <> b.
Proof using All.
  intros Hbn E. apply attach_not_used. rewrite <- E. pose proof (ds_pos _ _ _ _ Hly). apply Hok; [done|lia].
Qed.

(** An address of the file is the new block, at one place, or it was there before. *)
Lemma attach_cases bn : is_file_block bn -> faddr v' x' bn <> 0 ->
  (faddr v' x' bn = b /\ ind x' = ind x /\ forall bn', is_file_block bn' -> faddr v' x' bn' = b -> bn' = bn) \/
  (faddr v' x' bn = faddr v x bn /\ faddr v x bn <> 0).
Proof using All.
  intros Hbn Hz. destruct Hatt as [p Hp Hpf Hp0 Hpb Hpi Hpo|? ? Ho]; [|right; rewrite Ho in * by done; done].
  destruct (decide (bn = p)) as [->|Hne]; [left|right; rewrite Hpo in * by done; done].
  split; [done|]. split; [done|]. intros bn' Hbn' E. destruct (decide (bn' = p)) as [|Hne]; [done|].
  rewrite Hpo in E by done. by apply attach_other in E.
Qed.

Lemma attach_file_ok : file_ok v' x'.
Proof using All.
  pose proof (ds_pos _ _ _ _ Hly). pose proof (ly_size _ _ _ _ Hly). pose proof attach_not_used as Hnu. split.
  - split; [|done]. intros n Hn. rewrite attach_allocated by lia. rewrite (mo_meta _ _ _ (fo_map _ _ Hok)) by done.
    apply orb_true_r.
  - done.
  - intros Hi. apply attach_used. destruct Hatt as [? ? ? ? ? E|? E]; rewrite E in *; [|by right]. left. by apply Hok.
  - intros bn Hbn Hz. rewrite attach_used. destruct (attach_cases bn Hbn Hz) as [(-> & Hi & _)|[E Hz0]].
    + split; [by right|]. rewrite Hi. intros E. destruct (decide (ind x = 0)); [lia|]. rewrite E in Hnu. by apply Hnu, Hok.
    + rewrite E. destruct (fo_used _ _ Hok bn Hbn Hz0) as [Hu Hni]. split; [by left|].
      destruct Hatt as [? ? ? ? ? Hi|? Hi ?]; rewrite Hi; [done|]. by apply attach_other.
  - intros bn bn' Hbn Hbn' E Hz. assert (faddr v' x' bn' <> 0) as Hz' by congruence.
    destruct (attach_cases bn Hbn Hz) as [(E1 & _ & Ho)|[E1 Hz1]]; [symmetry; apply Ho; [done|congruence]|].
    destruct (attach_cases bn' Hbn' Hz') as [(E2 & _ & Ho)|[E2 Hz2]]; [apply Ho; [done|congruence]|].
    apply (fo_inj _ _ Hok); [done..|congruence|done].
Qed.

Lemma ext_attach : ext T x v B x' v' B'.
Proof using All.
  pose proof (ds_pos _ _ _ _ Hly). pose proof attach_not_used as Hnu.
  assert (b <> 0) as Hb0 by lia.
  assert (own T v' x' b) as Hown.
  { split; [done|]. destruct Hatt as [p Hp Hpf ? Hpb ? ?|? Hi ?]; [right; exists p; auto|by left]. }
  split.
  - apply attach_file_ok.
  - done.
  - intros bn Hbn Hz. destruct Hatt as [p ? ? Hp0 ? ? Hpo|? ? Ho]; [|by apply Ho].
    apply Hpo; [done|]. intros ->. by rewrite Hp0 in Hz.
  - intros bn Hbn HT. destruct Hatt as [p Hp ? ? ? ? Hpo|? ? Ho]; [|by apply Ho].
    apply Hpo; [done|]. by intros ->.
  - intros Hi. destruct Hatt; [done|congruence].
  - intros n Hn. apply attach_keep; [by left|]. intros Hi ->. destruct (fo_ind _ _ Hok Hi) as [? _].
    pose proof (ly_bmap _ _ _ _ Hly). pose proof (ly_size _ _ _ _ Hly). change BPB with 8192 in *. Z.div_mod_to_equations; lia.
  - intros n Hu Ho. apply attach_keep; [by right|]. intros Hi ->. apply Ho. split; [done|by left].
  - intros n Hu. apply attach_used. by left.
  - intros n [Hu|E]%attach_used; [by left|right]. by rewrite E.
  - intros bn Hbn Hz Hnz Hu. destruct Hatt as [p ? ? ? Hpb ? Hpo|? ? Ho]; [|by rewrite Ho in Hnz].
    destruct (decide (bn = p)) as [E|]; [|by rewrite Hpo in Hnz]. rewrite E, Hpb in Hu. done.
  - intros Hz Hnz Hu. destruct Hatt as [? ? ? ? ? E|? E]; rewrite E in *; done.
  - intros n Hn. destruct (HB n Hn) as [?|[E|[E|[Hi E]]]]; [by left| | |]; right.
    + right. by rewrite E.
    + left. rewrite E. apply (BBLOCK_at start cap G ds Hly). lia.
    + right. rewrite E. split; [done|]. left. destruct Hatt; [done|congruence].
Qed.
End Attach.

(** The three ways [bmap] does it. *)
Section Ways.
Context (x : inode) (v : Z -> list Z) (B : list Z) (b : Z).
Hypothesis Hok : file_ok v x.
Hypothesis Hb : ds <= b < sb_size G.
Hypothesis Hfree : allocated G v b = false.
Local Abbreviation v1 := (balloc_view G b v).
Local Abbreviation B1 := (log_add b (log_add (BBLOCK b G) B)).

Lemma balloc_keep n : used v n -> v1 n = v n.
Proof using All.
  intros [Hn Ha]. pose proof (ds_pos _ _ _ _ Hly). destruct (BBLOCK_at start cap G ds Hly b ltac:(lia)) as [_ Hbb].
  unfold balloc_view. rewrite !update_ne; [done|lia|]. intros ->. congruence.
Qed.

Lemma elem_of_B1 n : n ∈ B1 -> n ∈ B \/ n = b \/ n = BBLOCK b G \/ (ind x <> 0 /\ n = ind x).
Proof using All. rewrite !elem_of_log_add. tauto. Qed.

Lemma length_v1 n : length (v1 n) = Z.to_nat BSIZE.
Proof using All. by apply (map_ok_balloc start cap G ds Hly v b (fo_map _ _ Hok) Hb). Qed.

Lemma ext_direct bn : (bn < Z.to_nat NDIRECT)%nat -> faddr v x bn = 0 ->
  ext (eq bn) x v B (x <| i_addrs ::= <[bn := b]> |>) v1 B1 /\
  faddr v1 (x <| i_addrs ::= <[bn := b]> |>) bn = b.
Proof using All.
  intros Hbn Hz. set (x' := x <| i_addrs ::= <[bn := b]> |>). pose proof (fo_addrs _ _ Hok) as Hl.
  change NDIRECT with 12 in *.
  assert (ind x' = ind x) as Hi by (unfold ind, x'; cbn; rewrite list_lookup_total_insert_ne by (change NDIRECT with 12; lia); done).
  assert (faddr v1 x' bn = b) as Hbn'.
  { unfold faddr. change NDIRECT with 12. rewrite decide_True by done. cbn. by rewrite list_lookup_total_insert_eq by lia. }
  split; [|done]. apply (ext_attach _ _ _ _ b); try done.
  - apply (at_place _ _ _ _ _ _ bn); try done; [unfold is_file_block; change MAXFILE with 268; lia|].
    intros bn' _ Hne. unfold faddr. rewrite Hi. case_decide.
    + cbn. by rewrite list_lookup_total_insert_ne.
    + case_decide; [done|]. rewrite balloc_keep; [done|by apply Hok].
  - cbn. by rewrite length_insert.
  - apply length_v1.
  - apply elem_of_B1.
Qed.

Lemma ext_ind T : ind x = 0 ->
  ext T x v B (x <| i_addrs ::= <[Z.to_nat NDIRECT := b]> |>) v1 B1 /\
  ind (x <| i_addrs ::= <[Z.to_nat NDIRECT := b]> |>) = b /\
  forall bn, is_file_block bn -> faddr v1 (x <| i_addrs ::= <[Z.to_nat NDIRECT := b]> |>) bn = faddr v x bn.
Proof using All.
  intros Hz. set (x' := x <| i_addrs ::= _ |>). pose proof (fo_addrs _ _ Hok) as Hl. change NDIRECT with 12 in *.
  assert (ind x' = b) as Hi by (unfold ind, x'; cbn; apply list_lookup_total_insert_eq; lia).
  assert (forall bn, is_file_block bn -> faddr v1 x' bn = faddr v x bn) as Ha.
  { intros bn Hbn. unfold faddr. change NDIRECT with 12. case_decide.
    - cbn. by rewrite list_lookup_total_insert_ne by lia.
    - rewrite Hi, (decide_True _ _ Hz). case_decide; [done|]. rewrite balloc_zero. apply lget_zero_block. }
  split; [|done]. apply (ext_attach _ _ _ _ b); try done.
  - by apply at_ind.
  - cbn. by rewrite length_insert.
  - apply length_v1.
  - apply elem_of_B1.
Qed.

Lemma ext_entry bn : ind x <> 0 -> is_file_block bn -> (Z.to_nat NDIRECT <= bn)%nat -> faddr v x bn = 0 ->
  let v2 := update (ind x) (lput 4 (4 * (bn - Z.to_nat NDIRECT)) b) v1 in
  ext (eq bn) x v B x v2 (log_add (ind x) B1) /\ faddr v2 x bn = b.
Proof using All.
  intros Hi Hbn Hge Hz v2. destruct (fo_ind _ _ Hok Hi) as [Hir Hia] eqn:E. clear E.
  pose proof (ds_pos _ _ _ _ Hly). pose proof (ly_size _ _ _ _ Hly).
  unfold is_file_block in Hbn. change MAXFILE with 268 in *. change NDIRECT with 12 in *.
  assert (forall k, v2 (ind x) = lput 4 (4 * (bn - Z.to_nat 12)) b (v (ind x)) /\ (k < 268 -> Z.to_nat 12 <= k -> faddr v2 x k =
      lget 4 (lput 4 (4 * (bn - Z.to_nat 12)) b (v (ind x))) (4 * (k - Z.to_nat 12))))%nat as Hv2.
  { intros k. assert (v2 (ind x) = lput 4 (4 * (bn - Z.to_nat 12)) b (v (ind x))) as Hvi.
    { unfold v2. by rewrite update_eq, balloc_keep. }
    split; [done|]. intros Hk Hk'. unfold faddr. change NDIRECT with 12. rewrite decide_False, decide_False by (done || lia).
    by rewrite Hvi. }
  assert (length (v (ind x)) = 1024%nat) as Hvl by apply (fo_map _ _ Hok).
  assert (faddr v2 x bn = b) as Hfb.
  { rewrite (proj2 (Hv2 bn)) by lia. rewrite lget_lput by lia.
    change (256 ^ Z.of_nat 4) with (2 ^ 32). apply Z.mod_small. lia. }
  split; [|done]. apply (ext_attach _ _ _ _ b); try done.
  - apply (at_place _ _ _ _ _ _ bn); try done. intros k Hk Hne. unfold is_file_block in Hk. change MAXFILE with 268 in *.
    destruct (decide (k < Z.to_nat 12)%nat) as [Hlt|Hlt].
    + unfold faddr. change NDIRECT with 12. by rewrite !decide_True.
    + rewrite (proj2 (Hv2 k)) by lia. rewrite lget_lput_ne by lia. unfold faddr. change NDIRECT with 12.
      by rewrite decide_False, decide_False by (done || lia).
  - apply Hok.
  - intros n Hn. unfold v2. rewrite update_ne; [done|]. auto.
  - intros n. unfold v2, update. case_decide; [rewrite lput_length|]; apply length_v1.
  - intros n [->|Hn]%elem_of_log_add; [by auto|]. by apply elem_of_B1.
Qed.
End Ways.
End Files.

(** ** [bmap] *)

Definition with_inode (s : kstate) (ip : nat) (x : inode) : kstate := itab s (<[ip := x]> (itable s)).

Lemma with_inode_lookup s ip x : (ip < length (itable s))%nat -> itable (with_inode s ip x) !! ip = Some x.
Proof. intros H. by apply list_lookup_insert_eq. Qed.
Lemma with_inode_set s ip x y : itab (with_inode s ip x) (<[ip := y]> (itable (with_inode s ip x))) = with_inode s ip y.
Proof.
  unfold with_inode. change (itable (itab s ?t)) with t. rewrite list_insert_insert_eq. reflexivity.
Qed.

Section Bmap.
Context (pid dev start cap : Z) (s0 : kstate) (ip : nat) (ds : Z).
Local Abbreviation G := (sb s0).
Hypothesis Hly : layout start cap G ds.
Hypothesis Hdev : 0 <= dev < 2 ^ 32.
Hypothesis Hip : (ip < length (itable s0))%nat.
Implicit Types (v : Z -> list Z) (x : inode) (B : list Z).
Local Abbreviation txw x := (txs pid dev start cap (with_inode s0 ip x)).
Local Abbreviation ext := (ext G ds).
Local Abbreviation file_ok := (file_ok G ds).
Local Abbreviation avail := (avail G).

(** One block more for the addresses, and one for the block itself. *)
Definition need x : nat := if decide (ind x = 0) then 1 else 0.
Definition hole v x (bn : nat) : nat := if decide (faddr v x bn = 0) then 1 else 0.

Lemma wp_set_inode_w x f B hold v (Q : unit -> interference -> kstate -> Prop) e s :
  txw x B hold v s -> (forall s', txw (f x) B hold v s' -> Q tt e s') -> wp (set_inode ip f) Q e s.
Proof using All.
  intros Ht HQ. eapply tx_set_inode; [done|by apply with_inode_lookup|]. intros s'. rewrite with_inode_set. apply HQ.
Qed.

Lemma wp_get_inode_w x B hold v (Q : inode -> interference -> kstate -> Prop) e s :
  txw x B hold v s -> Q x e s -> wp (get_inode ip) Q e s.
Proof using All. intros Ht HQ. eapply tx_get_inode; [done|by apply with_inode_lookup|done]. Qed.

Lemma wp_balloc_w k x B hold v (Q : Z -> interference -> kstate -> Prop) e s :
  txw x B hold v s -> file_ok v x -> hold_ok s0 ds v hold -> room cap 2 B hold -> avail (S k) v ->
  (forall b s', ds <= b < sb_size G -> allocated G v b = false -> avail k (balloc_view G b v) ->
     txw x (log_add b (log_add (BBLOCK b G) B)) hold (balloc_view G b v) s' -> Q b e s') ->
  wp (balloc dev) Q e s.
Proof using All.
  intros Ht Hok Hhold Hroom Hav HQ.
  apply (wp_balloc pid dev start cap (with_inode s0 ip x) ds Hly Hdev B hold v); try done; [apply Hok|by eapply avail_free|].
  intros b s' (Hb & Hf & _) Hds H'. change (sb (with_inode s0 ip x)) with (sb s0) in *.
  assert (ds <= b < sb_size G) as Hb' by lia. apply HQ; try done.
  apply (avail_balloc start cap _ ds Hly); [apply Hok|done|done].
Qed.

Lemma room_log n B hold k : room cap (S k) B hold -> room cap k (log_add n B) hold.
Proof using All. intros [H1 H2]. pose proof (length_log_add n B). split; lia. Qed.

Definition grown (k m bn : nat) x v B x' v' B' : Prop :=
  ext (eq bn) x v B x' v' B' /\ faddr v' x' bn <> 0 /\
  (faddr v x bn = 0 -> v' (faddr v' x' bn) = zero_block) /\
  (length B' <= length B + k)%nat /\ avail (m + need x') v' /\
  forall n, used G ds v n -> n <> ind x -> v' n = v n.

Lemma bmap_direct m B v x bn (Q : Z -> interference -> kstate -> Prop) e s :
  txw x B ∅ v s -> i_dev x = dev -> file_ok v x -> (bn < Z.to_nat NDIRECT)%nat -> room cap 2 B ∅ ->
  avail (m + hole v x bn + need x) v ->
  (forall x' v' B' s', txw x' B' ∅ v' s' -> grown 2 m bn x v B x' v' B' -> Q (faddr v' x' bn) e s') ->
  wp (bmap ip (Z.of_nat bn)) Q e s.
Proof using All.
  intros Ht Hd Hok Hbn Hroom Hav HQ. unfold bmap. wp. eapply wp_get_inode_w; [done|].
  rewrite (proj2 (Z.ltb_lt _ _)), Nat2Z.id by lia.
  assert (faddr v x bn = i_addrs x !!! bn) as Ha by (unfold faddr; by rewrite decide_True).
  rewrite <- Ha. unfold hole in Hav. destruct (Z.eqb_spec (faddr v x bn) 0) as [Hz|Hz].
  - rewrite decide_True in Hav by done. wp. rewrite Hd. apply (wp_balloc_w (m + need x) x B ∅ v); try done; [by replace (S (m + need x)) with (m + 1 + need x)%nat by lia|].
    intros b s1 Hb Hf Hav1 H1. wp. eapply wp_set_inode_w; [done|]. intros s2 H2. wp.
    destruct (ext_direct start cap G ds Hly x v B b Hok Hb Hf bn Hbn Hz) as [He Hfb].
    pose proof (ds_pos _ _ _ _ Hly) as Hpos. rewrite <- Hfb.
    apply (HQ _ _ _ _ H2). split; [done|]. rewrite Hfb. split; [clear - Hb Hpos; lia|]. split; [intros _; apply balloc_zero|].
    assert (need (x <| i_addrs ::= <[bn := b]> |>) = need x) as ->.
    { unfold need, ind. cbn. rewrite list_lookup_total_insert_ne by (clear - Hbn; lia). done. }
    split; [|split; [done|]; intros n Hn _; by eapply balloc_keep].
    pose proof (length_log_add b (log_add (BBLOCK b G) B)). pose proof (length_log_add (BBLOCK b G) B). clear Ha. lia.
  - wp. apply (HQ _ _ _ _ Ht). split; [by apply ext_refl|]. split; [done|]. split; [done|]. split; [lia|].
    split; [|done]. eapply avail_le; [|done]. clear; lia.
Qed.

(** The block of addresses is there, or made. *)
Lemma bmap_ind m B v x (Q : Z -> interference -> kstate -> Prop) e s :
  txw x B ∅ v s -> i_dev x = dev -> file_ok v x -> room cap 2 B ∅ -> avail (m + need x) v ->
  (forall x' v' B' s', txw x' B' ∅ v' s' -> (forall T, ext T x v B x' v' B') -> ind x' <> 0 ->
     (forall bn, is_file_block bn -> faddr v' x' bn = faddr v x bn) -> (length B' <= length B + 2)%nat -> avail m v' ->
     (forall n, used G ds v n -> v' n = v n) -> Q (ind x') e s') ->
  wp (if ind x =? 0 then
        addr <- balloc (i_dev x) ;;
        set_inode ip (fun x => x <| i_addrs ::= <[Z.to_nat NDIRECT := addr]> |>) ;;;
        retK addr
      else retK (ind x)) Q e s.
Proof using All.
  intros Ht Hd Hok Hroom Hav HQ. unfold need in Hav. destruct (Z.eqb_spec (ind x) 0) as [Hz|Hz].
  - rewrite decide_True in Hav by done. wp. rewrite Hd.
    apply (wp_balloc_w m x B ∅ v); try done; [by replace (S m) with (m + 1)%nat by lia|].
    intros b s1 Hb Hf Hav1 H1. wp. eapply wp_set_inode_w; [done|]. intros s2 H2. wp.
    pose proof (fun T => ext_ind start cap G ds Hly x v B b Hok Hb Hf T Hz) as He.
    destruct (He (fun _ => True)) as (_ & Hi & Ha). set (x' := x <| i_addrs ::= _ |>) in *.
    pose proof (ds_pos _ _ _ _ Hly) as Hpos. rewrite <- Hi.
    apply (HQ _ _ _ _ H2); try done; [intros T; apply (He T)|rewrite Hi; clear - Hb Hpos; lia| |intros n Hn; by eapply balloc_keep].
    pose proof (length_log_add b (log_add (BBLOCK b G) B)). pose proof (length_log_add (BBLOCK b G) B).
    clear - H H0. lia.
  - rewrite decide_False in Hav by done. wp. apply (HQ _ _ _ _ Ht); try done; [intros T; by apply ext_refl|clear; lia|].
    eapply avail_le; [|done]. clear; lia.
Qed.

(** The entry of the block of addresses is there, or made. *)
Lemma bmap_entry m B v x bn (Q : Z -> interference -> kstate -> Prop) e s :
  txw x B ∅ v s -> file_ok v x -> ind x <> 0 -> is_file_block bn -> (Z.to_nat NDIRECT <= bn)%nat ->
  room cap 4 B ∅ -> avail (m + hole v x bn) v ->
  (forall v' B' s', txw x B' ∅ v' s' -> grown 3 m bn x v B x v' B' -> Q (faddr v' x bn) e s') ->
  let off := (4 * (bn - Z.to_nat NDIRECT))%nat in
  wp (bp <- bread dev (ind x) ;; b <- get_buf bp ;;
      addr <- (if lget 4 (b_data b) off =? 0 then
                 addr <- balloc dev ;;
                 set_buf bp (fun b => b <| b_data ::= lput 4 off addr |>) ;;;
                 log_write bp ;;;
                 retK addr
               else retK (lget 4 (b_data b) off)) ;;
      brelse bp ;;; retK addr) Q e s.
Proof using All.
  intros Ht Hok Hi Hbn Hge Hroom Hav HQ off. pose proof (fo_ind _ _ _ _ Hok Hi) as Hu.
  assert (faddr v x bn = lget 4 (v (ind x)) off) as Ha.
  { unfold faddr. by rewrite decide_False, decide_False by (done || (clear - Hge; lia)). }
  assert (need x = 0%nat) as Hneed by (unfold need; by rewrite decide_False).
  eapply tx_peek; [done|apply lookup_empty|apply (home_data _ _ _ _ Hly); apply Hu|
    rewrite map_size_empty; destruct Hroom as [_ Hr]; rewrite map_size_empty in Hr; clear - Hr; lia|].
  intros bp y s1 Hy H1. rewrite Hy, <- Ha. unfold hole in Hav. destruct (Z.eqb_spec (faddr v x bn) 0) as [Hz|Hz].
  - rewrite decide_True in Hav by done. wp. apply (wp_balloc_w m x B {[ind x := bp]} v); try done.
    { by apply map_Forall_singleton. }
    { destruct Hroom as [Hr1 Hr2]. rewrite map_size_empty in Hr2. split; [clear - Hr1; lia|]. rewrite map_size_singleton. clear - Hr2; lia. }
    { by replace (S m) with (m + 1)%nat by (clear; lia). }
    intros b s2 Hb Hf Hav1 H2. wp. eapply tx_set_data; [done|apply lookup_singleton_eq|]. intros s3 H3.
    destruct Hroom as [Hr1 Hr2]. pose proof (proj1 (proj2 (ly_log _ _ _ _ Hly))) as Hcap.
    set (B1 := log_add b _) in *. assert (length B1 <= length B + 2)%nat as HB1.
    { unfold B1. pose proof (length_log_add b (log_add (BBLOCK b G) B)). pose proof (length_log_add (BBLOCK b G) B).
      clear - H H0. lia. }
    wp. eapply tx_log_write; [done|apply lookup_singleton_eq|clear - Hr1 HB1; lia|clear - Hcap; lia|]. intros s4 H4.
    wp. eapply tx_brelse; [done|apply lookup_singleton_eq|left; apply elem_of_log_add; by left|]. intros s5 H5.
    rewrite delete_singleton_eq in H5. wp.
    destruct (ext_entry start cap G ds Hly x v B b Hok Hb Hf bn Hi Hbn Hge Hz) as [He Hfb]. fold off in He, Hfb.
    set (v2 := update (ind x) _ _) in *. rewrite <- Hfb. apply (HQ _ _ _ H5).
    pose proof (ds_pos _ _ _ _ Hly) as Hpos. split; [done|]. rewrite Hfb. split; [clear - Hb Hpos; lia|].
    assert (b <> ind x) as Hbi by (intros ->; destruct Hu; congruence).
    split; [intros _; unfold v2; rewrite update_ne by done; apply balloc_zero|].
    split; [pose proof (length_log_add (ind x) B1) as HB2; clear - HB1 HB2; lia|].
    rewrite Hneed, Nat.add_0_r. split.
    + eapply avail_same; [|exact Hav1]. intros c Hc. unfold v2. apply (allocated_data start cap G ds Hly); [apply Hu|done].
    + intros n Hn Hni. unfold v2. rewrite update_ne by done. by eapply balloc_keep.
  - wp. eapply tx_brelse; [done|apply lookup_insert_eq|eapply txs_clean; [exact Ht|apply lookup_empty]|]. intros s2 H2.
    rewrite insert_empty, delete_singleton_eq in H2. wp. apply (HQ _ _ _ H2). split; [by apply ext_refl|]. split; [done|].
    split; [done|]. split; [clear; lia|]. split; [|done]. rewrite Hneed, Nat.add_0_r. eapply avail_le; [|done]. clear; lia.
Qed.

Lemma wp_bmap_grow m B v x bn (Q : Z -> interference -> kstate -> Prop) e s :
  txw x B ∅ v s -> i_dev x = dev -> file_ok v x -> is_file_block bn -> room cap 6 B ∅ -> avail (m + hole v x bn + need x) v ->
  (forall x' v' B' s', txw x' B' ∅ v' s' -> grown 5 m bn x v B x' v' B' -> Q (faddr v' x' bn) e s') ->
  wp (bmap ip (Z.of_nat bn)) Q e s.
Proof using All.
  intros Ht Hd Hok Hbn Hroom Hav HQ.
  destruct (decide (bn < Z.to_nat NDIRECT)%nat) as [Hlt|Hge].
  - apply (bmap_direct m B v x bn); try done; [destruct Hroom; split; lia|]. intros x' v' B' s' H' (? & ? & ? & ? & ?).
    apply (HQ _ _ _ _ H'). do 3 (split; [done|]). split; [lia|done].
  - unfold bmap. apply wp_bind. eapply wp_get_inode_w; [done|]. pose proof Hbn as Hmax. unfold is_file_block in Hmax.
    change MAXFILE with 268 in *. rewrite (proj2 (Z.ltb_ge _ _)) by lia. cbv zeta.
    change NINDIRECT with 256. change NDIRECT with 12 in *. rewrite (proj2 (Z.ltb_lt _ _)) by lia.
    change (i_addrs x !!! Z.to_nat 12) with (ind x). apply wp_bind.
    apply (bmap_ind (m + hole v x bn) B v x); try done; [destruct Hroom; split; lia|].
    intros x1 v1 B1 s1 H1 He1 Hi Ha1 HB1 Hav1 Hk1. rewrite Hd.
    replace (4 * Z.to_nat (Z.of_nat bn - 12))%nat with (4 * (bn - Z.to_nat NDIRECT))%nat by (change NDIRECT with 12; lia).
    apply (bmap_entry m B1 v1 x1 bn); try done; [apply (He1 (eq bn))|change NDIRECT with 12; lia|destruct Hroom; split; lia|unfold hole; by rewrite Ha1|].
    intros v2 B2 s2 H2 (He2 & Hnz & Hzero & HB2 & Hav2 & Hk2). apply (HQ _ _ _ _ H2).
    split; [eapply ext_trans; [apply He1|done]|]. split; [done|]. rewrite Ha1 in Hzero by done. split; [done|]. split; [lia|].
    split; [done|]. intros n Hn Hni. rewrite Hk2, Hk1; try done; [by apply (He1 (eq bn))|]. intros ->.
    destruct (decide (ind x = 0)) as [E|E]; [by apply (ex_fresh_ind _ _ _ _ _ _ _ _ _ (He1 (eq bn)))|].
    by rewrite (ex_ind _ _ _ _ _ _ _ _ _ (He1 (eq bn)) E) in Hni.
Qed.
End Bmap.
