(* ===== verification/FsWrite.v ===== *)
(** * Writing a file

    [writei] inside a transaction: the bytes of the file are the old ones with the new ones laid
    over them, the inode on the disk is brought up to date, and nothing else changes but the free
    map.  What was written is what [readi] reads.  When the transaction is committed, a crash
    leaves the file with all the new bytes or with none. *)

From stdpp Require Import base numbers list gmap sets strings.
From S2P Require Import Prelude Mem Types Kernel Wp Sched SchedFacts Bio BioFacts Log LogFacts Fs FsFacts FsTx FsAlloc FsExtend.

(** Byte [k] of the file. *)
Definition fbyte (v : Z -> list Z) (x : inode) (k : nat) : option Z :=
  v (faddr v x (k / 1024)) !! (k mod 1024)%nat.

Lemma src_advance_add src a b : src_advance (src_advance src a) b = src_advance src (a + b).
Proof.
  destruct src; cbn; [|by rewrite drop_drop]. f_equal. unfold u64. rewrite Zplus_mod_idemp_l. f_equal. lia.
Qed.

Section Contents.
Context (start cap : Z) (G : superblock) (ds : Z).
Hypothesis Hly : layout start cap G ds.
Implicit Types (v : Z -> list Z) (x : inode) (B : list Z).
Local Abbreviation ext := (ext G ds).
Local Abbreviation file_ok := (file_ok G ds).

(** A block of the file is written. *)
Section Block.
Context x v B (bn : nat) (g : list Z -> list Z).
Hypothesis Hok : file_ok v x.
Hypothesis Hbn : is_file_block bn.
Hypothesis Hnz : faddr v x bn <> 0.
Hypothesis Hg : length (g (v (faddr v x bn))) = Z.to_nat BSIZE.
Local Abbreviation v' := (update (faddr v x bn) g v).

Lemma write_faddr k : faddr v' x k = faddr v x k.
Proof using All. apply faddr_ext; [done|]. intros _. apply update_ne. apply not_eq_sym. by apply Hok. Qed.

Lemma write_ind : v' (ind x) = v (ind x).
Proof using All. apply update_ne. apply not_eq_sym. by apply Hok. Qed.

Lemma write_allocated n : 0 <= n < sb_size G -> allocated G v' n = allocated G v n.
Proof using All.
  intros Hn. apply (allocated_data start cap G ds Hly); [|done]. destruct (fo_used _ _ _ _ Hok bn Hbn Hnz) as [[? _] _]. lia.
Qed.

Lemma write_used n : used G ds v' n <-> used G ds v n.
Proof using All.
  pose proof (ds_pos _ _ _ _ Hly). unfold used. split; intros [Hn Ha]; (split; [done|]);
    by rewrite write_allocated in * by lia.
Qed.

Lemma ext_write : ext (eq bn) x v B x v' (log_add (faddr v x bn) B).
Proof using All.
  destruct (fo_used _ _ _ _ Hok bn Hbn Hnz) as [[Hr Ha] Hni].
  pose proof (ds_pos _ _ _ _ Hly). pose proof (ly_bmap _ _ _ _ Hly). pose proof (ly_size _ _ _ _ Hly).
  assert (own (eq bn) v' x (faddr v x bn)) as Hown.
  { split; [done|]. right. exists bn. by rewrite write_faddr. }
  split.
  - destruct Hok as [[Hm Hl] Hb Hi Hu Hj]. split.
    + split; [intros b ?; rewrite write_allocated by lia; auto|]. intros n. unfold update. case_decide; auto.
    + done.
    + intros Hz. apply write_used. auto.
    + intros k Hk Hz. rewrite write_faddr in *. rewrite write_used. auto.
    + intros k k' Hk Hk'. rewrite !write_faddr. auto.
  - reflexivity.
  - intros. apply write_faddr.
  - intros. apply write_faddr.
  - done.
  - intros n Hn. apply update_ne. change BPB with 8192 in *. Z.div_mod_to_equations; lia.
  - intros n Hu Ho. apply update_ne. intros ->. apply Ho. split; [done|]. right. by exists bn.
  - intros n Hu. by apply write_used.
  - intros n Hu. left. by apply write_used.
  - intros k Hk Hz Hz'. by rewrite write_faddr in Hz'.
  - congruence.
  - intros n [->|Hn]%elem_of_log_add; [|by left]. by right; right.
Qed.
End Block.

(** *** How much is logged *)

Definition nmap : nat := Z.to_nat (ds - sb_bmapstart G).

Lemma log_bound q c x v B x' v' B' :
  ext (fun bn => q <= bn < q + c)%nat x v B x' v' B' -> NoDup B' ->
  (length B' <= length B + nmap + 1 + c)%nat.
Proof using.
  intros He Hnd. set (l := B ++ seqZ (sb_bmapstart G) (ds - sb_bmapstart G) ++ [ind x'] ++ (faddr v' x' <$> seq q c)).
  assert (length B' <= size (list_to_set l : gset Z))%nat as Hle.
  { apply length_subset; [done|]. intros n Hn. apply elem_of_list_to_set. unfold l. rewrite !elem_of_app.
    destruct (ex_log _ _ _ _ _ _ _ _ _ He n Hn) as [?|[Hm|(_ & [->|(bn & Hbn & _ & ->)])]]; [by left|right; left|right; right; left|].
    - apply elem_of_seqZ. unfold is_map_block in Hm. lia.
    - by constructor.
    - right. right. right. apply list_elem_of_fmap. exists bn. split; [done|]. apply elem_of_seq. lia. }
  pose proof (size_list_to_set_le l) as Hs. unfold l in Hs at 2.
  rewrite !length_app, length_seqZ, length_fmap, length_seq in Hs. cbn [length] in Hs. unfold nmap. lia.
Qed.
End Contents.

(** ** The loop of [writei] *)

Section Touched.
Context (off : nat).
(** The blocks of the file touched by the first [tot] bytes. *)
Definition ntouched (tot : nat) : nat := (off + tot + 1023) / 1024 - off / 1024.
Definition touched (tot bn : nat) : Prop := (off / 1024 <= bn < off / 1024 + ntouched tot)%nat.

Lemma touched_file tot bn :
  (off + tot <= Z.to_nat (MAXFILE * BSIZE))%nat -> touched tot bn -> is_file_block bn.
Proof using.
  intros Ht Hb. unfold touched, ntouched, is_file_block in *. change (MAXFILE * BSIZE) with 274432 in *. change MAXFILE with 268.
  pose proof (Nat.div_mod_eq (off + tot + 1023) 1024). pose proof (Nat.mod_upper_bound (off + tot + 1023) 1024). lia.
Qed.

Lemma touched_in tot k : (off <= k < off + tot)%nat -> touched tot (k / 1024).
Proof using.
  intros Hk. unfold touched, ntouched.
  pose proof (Nat.div_mod_eq (off + tot + 1023) 1024). pose proof (Nat.mod_upper_bound (off + tot + 1023) 1024).
  pose proof (Nat.div_mod_eq off 1024). pose proof (Nat.mod_upper_bound off 1024).
  pose proof (Nat.div_mod_eq k 1024). pose proof (Nat.mod_upper_bound k 1024). lia.
Qed.

Lemma ntouched_mono tot n : (tot <= n)%nat -> (ntouched tot <= ntouched n)%nat.
Proof using. intros Ht. unfold ntouched. pose proof (Nat.Div0.div_le_mono (off + tot + 1023) (off + n + 1023) 1024 ltac:(lia)). lia. Qed.

End Touched.

Lemma missing_same (range : list nat) v x v' x' : (forall bn, bn ∈ range -> faddr v' x' bn = faddr v x bn) ->
  filter (fun bn => faddr v' x' bn = 0) range = filter (fun bn => faddr v x bn = 0) range.
Proof.
  induction range as [|a range IH]; intros H; [done|]. rewrite !filter_cons, H by set_solver.
  rewrite IH by (intros; apply H; set_solver). done.
Qed.

(** A block that was missing, and one that is there now. *)
Lemma missing_step (range : list nat) v x v' x' q :
  NoDup range -> q ∈ range -> faddr v' x' q <> 0 ->
  (forall bn, bn ∈ range -> bn <> q -> faddr v' x' bn = faddr v x bn) ->
  (length (filter (fun bn => faddr v' x' bn = 0%Z) range) + hole v x q =
   length (filter (fun bn => faddr v x bn = 0%Z) range))%nat.
Proof.
  intros Hnd Hq Hz Ho. induction Hnd as [|a range Ha Hnd IH]; [by apply elem_of_nil in Hq|].
  destruct (decide (a = q)) as [->|Hne].
  - rewrite filter_cons_False by done.
    assert (filter (fun bn => faddr v' x' bn = 0) range = filter (fun bn => faddr v x bn = 0) range) as ->.
    { apply missing_same. intros bn Hbn. apply Ho; [set_solver|]. intros ->. done. }
    unfold hole. destruct (decide (faddr v x q = 0)); [rewrite filter_cons_True by done|rewrite filter_cons_False by done]; cbn; lia.
  - assert (q ∈ range) as Hq' by set_solver. specialize (IH Hq' ltac:(intros; apply Ho; set_solver)).
    rewrite !filter_cons, Ho by set_solver. case_decide; cbn [length]; lia.
Qed.

Section Writei.
Context (pid dev start cap : Z) (s0 : kstate) (ip : nat) (ds : Z).
Local Abbreviation G := (sb s0).
Hypothesis Hly : layout start cap G ds.
Hypothesis Hdev : 0 <= dev < 2 ^ 32.
Hypothesis Hip : (ip < length (itable s0))%nat.
Local Abbreviation txw x := (txs pid dev start cap (with_inode s0 ip x)).
Local Abbreviation ext := (ext G ds).
Local Abbreviation file_ok := (file_ok G ds).
Local Abbreviation avail := (avail G).

(** The source of the bytes: user memory or a buffer of the kernel. *)
Definition feeds (src : ioaddr) (bytes : list Z) : Prop :=
  src_advance src 0 = src /\
  forall x B hold v tot m e s, txw x B hold v s -> (tot + m <= length bytes)%nat ->
    either_copyin (src_advance src tot) m e s = Ok (0, slice tot m bytes) e s.

Lemma kern_feeds bytes : feeds (Kern bytes) bytes.
Proof using.
  split; [done|]. intros x B hold v tot m e s Ht _. destruct (caller_proc _ _ (tx_caller _ _ _ _ _ _ _ _ _ Ht)) as (p & z & Hp & _).
  unfold either_copyin. rewrite (bindK_Ok _ _ _ _ _ _ _ (curproc_run p e s Hp)). done.
Qed.

(** The write: [bytes] from [src], at the offset [off] of the file [x0]. *)
Context (x0 : inode) (v0 : Z -> list Z) (B0 : list Z) (src : ioaddr) (bytes : list Z) (off : nat).
Local Abbreviation N := (length bytes).
Local Abbreviation ntouched := (ntouched off).
Local Abbreviation touched := (touched off).
Hypothesis Hsrc : feeds src bytes.
Hypothesis Hend : (off + N <= Z.to_nat (MAXFILE * BSIZE))%nat.
Hypothesis Hidev : i_dev x0 = dev.

(** Among the blocks [range], which include those to be written, these are to be allocated. *)
Context (range : list nat).
Definition missing (v : Z -> list Z) (x : inode) : nat := length (filter (fun bn => faddr v x bn = 0) range).
Hypothesis Hrange : forall bn, touched N bn -> bn ∈ range.
Hypothesis Hrange_ok : Forall is_file_block range.
Hypothesis Hrange_nd : NoDup range.

Hypothesis Hroom : room cap (nmap G ds + 1 + ntouched N + 7) B0 (∅ : gmap Z nat).

Record wrote (tot : nat) (x : inode) (v : Z -> list Z) (B : list Z) : Prop := {
  wr_ext : ext (touched tot) x0 v0 B0 x v B;
  wr_mapped : forall bn, touched tot bn -> faddr v x bn <> 0;
  wr_data : forall k, is_file_block (k / 1024) ->
    (faddr v0 x0 (k / 1024) <> 0 \/ (off <= k < off + tot)%nat) ->
    fbyte v x k = if decide (off <= k < off + tot)%nat then bytes !! (k - off)%nat else fbyte v0 x0 k;
  wr_avail : avail (missing v x + need x) v }.

(** One round: [m] bytes into the block [q]. *)
Section Round.
Context (tot q r m : nat).
Hypothesis Htot : (tot < N)%nat.
Hypothesis Hq : (off + tot = 1024 * q + r)%nat.
Hypothesis Hr : (r < 1024)%nat.
Hypothesis Hm : m = Nat.min (N - tot) (1024 - r).

Lemma round_arith : (off + tot = 1024 * q + r /\ r < 1024 /\ 0 < m /\ r + m <= 1024 /\ tot + m <= N)%nat.
Proof using All. lia. Qed.

Lemma touched_step bn : touched (tot + m) bn <-> touched tot bn \/ bn = q.
Proof using All.
  destruct round_arith as (? & ? & ? & ? & ?). unfold touched, ntouched.
  pose proof (Nat.div_mod_eq (off + tot + 1023) 1024). pose proof (Nat.mod_upper_bound (off + tot + 1023) 1024).
  pose proof (Nat.div_mod_eq (off + (tot + m) + 1023) 1024). pose proof (Nat.mod_upper_bound (off + (tot + m) + 1023) 1024).
  pose proof (Nat.div_mod_eq off 1024). pose proof (Nat.mod_upper_bound off 1024). split; lia.
Qed.

Lemma q_touched : touched (tot + m) q.
Proof using All. apply touched_step. by right. Qed.

Lemma q_in_range : q ∈ range.
Proof using All.
  apply Hrange. pose proof q_touched as Hqt. destruct round_arith as (_ & _ & _ & _ & HN).
  pose proof (ntouched_mono off (tot + m) N HN). unfold FsWrite.touched in *. lia.
Qed.

Lemma q_file : is_file_block q.
Proof using All. apply (touched_file off (tot + m)); [|apply q_touched]. destruct round_arith as (_ & _ & _ & _ & ?). lia. Qed.

Context (x : inode) (v : Z -> list Z) (B : list Z) (x1 : inode) (v1 : Z -> list Z) (B1 : list Z).
Hypothesis Hw : wrote tot x v B.
Context (free : nat).
Hypothesis Hfree : (missing v x = free + hole v x q)%nat.
Hypothesis Hgrown : grown s0 ds 5 free q x v B x1 v1 B1.
Local Abbreviation a := (faddr v1 x1 q).
Local Abbreviation v2 := (update a (splice r (slice tot m bytes)) v1).

Lemma round_chunk : length (slice tot m bytes) = m.
Proof using All. apply length_slice. apply round_arith. Qed.

Lemma round_ok : file_ok v1 x1 /\ faddr v1 x1 q <> 0 /\ length (v1 a) = 1024%nat /\
  length (splice r (slice tot m bytes) (v1 a)) = Z.to_nat BSIZE.
Proof using All.
  destruct Hgrown as (He & Hnz & _). pose proof (ex_ok _ _ _ _ _ _ _ _ _ He) as Hok.
  assert (length (v1 a) = 1024%nat) as Hl by apply (fo_map _ _ _ _ Hok). do 3 (split; [done|]).
  rewrite length_splice; [done|]. rewrite round_chunk, Hl. apply round_arith.
Qed.

Lemma round_faddr bn : faddr v2 x1 bn = faddr v1 x1 bn.
Proof using All.
  destruct round_ok as (Hok & Hnz & _ & Hl). apply (write_faddr start cap G ds Hly); try done. by apply q_file.
Qed.

(** In the block that was written. *)
Lemma round_same k : (k / 1024)%nat = q -> (faddr v0 x0 q <> 0 \/ (off <= k < off + (tot + m))%nat) ->
  fbyte v2 x1 k = if decide (off <= k < off + (tot + m))%nat then bytes !! (k - off)%nat else fbyte v0 x0 k.
Proof using All.
  intros Hk Hc. destruct round_ok as (Hok & Hnz & Hl & _). destruct round_arith as (_ & _ & Hm0 & Hrm & HN).
  pose proof (Nat.div_mod_eq k 1024) as Hdk. pose proof (Nat.mod_upper_bound k 1024 ltac:(done)) as Hmk. rewrite Hk in Hdk.
  unfold fbyte at 1. rewrite Hk, round_faddr, update_eq. set (j := (k mod 1024)%nat) in *.
  pose proof round_chunk as Hch. unfold splice.
  assert (length (take r (v1 a)) = r) as Htk by (rewrite length_take; lia).
  destruct (decide (r <= j < r + m)%nat) as [Hj|Hj].
  - rewrite decide_True by lia. rewrite lookup_app_r, lookup_app_l by lia. rewrite Htk. unfold slice.
    rewrite lookup_take_lt, lookup_drop by lia. f_equal. lia.
  - assert (v1 a !! j = (if decide (off <= k < off + (tot + m))%nat then bytes !! (k - off)%nat else fbyte v0 x0 k)) as Hold.
    { assert (faddr v x q <> 0) as Hz.
      { destruct (decide (off <= k < off + tot)%nat) as [Hin|Hin].
        - apply (wr_mapped _ _ _ _ Hw). rewrite <- Hk. by apply touched_in.
        - destruct Hc as [Hc|Hc]; [|lia]. rewrite (ex_stay _ _ _ _ _ _ _ _ _ (wr_ext _ _ _ _ Hw)); [done|by apply q_file|done]. }
      destruct Hgrown as (He & _ & _ & _ & _ & Hkeep).
      rewrite (ex_stay _ _ _ _ _ _ _ _ _ He) by (done || by apply q_file).
      pose proof (ex_ok _ _ _ _ _ _ _ _ _ (wr_ext _ _ _ _ Hw)) as Hok0.
      destruct (fo_used _ _ _ _ Hok0 q ltac:(by apply q_file) Hz) as [Hu Hni]. rewrite Hkeep by done.
      pose proof (wr_data _ _ _ _ Hw k) as Hd. unfold fbyte in Hd. rewrite Hk in Hd. fold j in Hd. rewrite Hd.
      + unfold fbyte. rewrite Hk. fold j. do 2 case_decide; (done || lia).
      + by apply q_file.
      + destruct Hc; [by left|right; lia]. }
    rewrite <- Hold. destruct (decide (j < r)%nat).
    + rewrite lookup_app_l, lookup_take_lt by lia. done.
    + rewrite !lookup_app_r, lookup_drop by lia. f_equal. lia.
Qed.

(** In another block. *)
Lemma round_other k : (k / 1024)%nat <> q -> is_file_block (k / 1024) ->
  (faddr v0 x0 (k / 1024) <> 0 \/ (off <= k < off + (tot + m))%nat) ->
  fbyte v2 x1 k = if decide (off <= k < off + (tot + m))%nat then bytes !! (k - off)%nat else fbyte v0 x0 k.
Proof using All.
  intros Hk Hfk Hc. destruct round_ok as (Hok & Hnz & Hl & _). destruct round_arith as (_ & _ & Hm0 & Hrm & HN).
  pose proof (Nat.div_mod_eq k 1024) as Hdk. pose proof (Nat.mod_upper_bound k 1024 ltac:(done)) as Hmk.
  assert (~ (off + tot <= k < off + (tot + m))%nat) as Hout by lia.
  destruct Hgrown as (He & _ & _ & _ & _ & Hkeep). pose proof (ex_ok _ _ _ _ _ _ _ _ _ (wr_ext _ _ _ _ Hw)) as Hok0.
  assert (faddr v x (k / 1024) <> 0) as Hz.
  { destruct (decide (off <= k < off + tot)%nat) as [Hin|Hin]; [by apply (wr_mapped _ _ _ _ Hw), touched_in|].
    destruct Hc as [Hc|Hc]; [|lia]. by rewrite (ex_stay _ _ _ _ _ _ _ _ _ (wr_ext _ _ _ _ Hw)). }
  pose proof (ex_stay _ _ _ _ _ _ _ _ _ He _ Hfk Hz) as Hst.
  destruct (fo_used _ _ _ _ Hok0 _ Hfk Hz) as [Hu Hni]. unfold fbyte at 1. rewrite round_faddr, update_ne.
  - rewrite Hst, Hkeep by done. transitivity (fbyte v x k); [done|].
    rewrite (wr_data _ _ _ _ Hw k); [|done|destruct Hc; [by left|right; lia]]. do 2 case_decide; (done || lia).
  - intros E. apply Hk, (fo_inj _ _ _ _ Hok); [done|by apply q_file|done|by rewrite Hst].
Qed.

Lemma wrote_step : wrote (tot + m) x1 v2 (log_add a B1).
Proof using All.
  destruct round_ok as (Hok & Hnz & Hl & Hspl). pose proof q_file as Hqf.
  pose proof (ext_write start cap G ds Hly x1 v1 B1 q _ Hok Hqf Hnz Hspl) as Hew.
  destruct Hgrown as (He & _ & _ & _ & Hav & _). split.
  - eapply ext_trans; [eapply ext_weaken; [|apply Hw]; intros bn Hbn; apply touched_step; by left|].
    eapply ext_weaken; [|eapply ext_trans; [exact He|exact Hew]]. intros bn <-. by apply q_touched.
  - intros bn Hbn. rewrite round_faddr. apply touched_step in Hbn as [Hbn| ->]; [|done].
    rewrite (ex_stay _ _ _ _ _ _ _ _ _ He); [by apply (wr_mapped _ _ _ _ Hw)| |by apply (wr_mapped _ _ _ _ Hw)].
    apply (touched_file off tot); [lia|done].
  - intros k Hk Hc. destruct (decide (k / 1024 = q)%nat) as [E|E]; [rewrite E in Hc; by apply round_same|by apply round_other].
  - replace (missing v2 x1) with free.
    + eapply avail_same; [|exact Hav]. intros b Hb. by apply (write_allocated start cap G ds Hly).
    + pose proof (missing_step range v x v2 x1 q Hrange_nd q_in_range) as Hms. rewrite round_faddr in Hms.
      specialize (Hms Hnz). unfold missing in *. rewrite <- Hms in Hfree; [lia|]. intros bn Hbn Hne. rewrite round_faddr.
      apply (ex_other _ _ _ _ _ _ _ _ _ He); [|by apply not_eq_sym]. rewrite Forall_forall in Hrange_ok. auto.
Qed.
End Round.

Lemma wrote_dev tot x v B : wrote tot x v B -> i_dev x = dev.
Proof using Hidev. intros Hw. by rewrite (ex_inode _ _ _ _ _ _ _ _ _ (wr_ext _ _ _ _ Hw)). Qed.

Lemma wrote_room tot x v B s : (tot <= N)%nat -> wrote tot x v B -> txw x B ∅ v s -> room cap 7 B (∅ : gmap Z nat).
Proof using All.
  intros Ht Hw Htx. pose proof (log_bound G ds _ _ _ _ _ _ _ _ (wr_ext _ _ _ _ Hw) (tx_nodup _ _ _ _ _ _ _ _ _ Htx)).
  pose proof (ntouched_mono off tot N Ht). destruct Hroom as [H1 H2]. split; lia.
Qed.

Lemma writei_round tot x v B e s (Q : Z * Z * ioaddr + Z * Z -> interference -> kstate -> Prop) :
  txw x B ∅ v s -> wrote tot x v B -> (tot < N)%nat ->
  (forall m x1 v1 B1 s', (0 < m)%nat -> (tot + m <= N)%nat -> txw x1 B1 ∅ v1 s' -> wrote (tot + m) x1 v1 B1 ->
     Q (inl (Z.of_nat (tot + m), Z.of_nat (off + (tot + m)), src_advance src (tot + m))) e s') ->
  wp (writei_body ip (Z.of_nat N) (Z.of_nat tot, Z.of_nat (off + tot), src_advance src tot)) Q e s.
Proof using All.
  intros Ht Hw Htot HQ. unfold writei_body. rewrite (proj2 (Z.ltb_lt _ _)) by lia. cbn [negb].
  pose proof (wrote_room tot x v B s ltac:(lia) Hw Ht) as Hrm. pose proof (wrote_dev _ _ _ _ Hw) as Hxd.
  set (q := ((off + tot) / 1024)%nat). set (r := ((off + tot) mod 1024)%nat). set (m := Nat.min (N - tot) (1024 - r)).
  assert (off + tot = 1024 * q + r /\ r < 1024)%nat as [Hq Hr].
  { split; [apply Nat.div_mod_eq|by apply Nat.mod_upper_bound]. }
  change BSIZE with 1024 in *. replace (Z.of_nat (off + tot) / 1024) with (Z.of_nat q) by (Z.div_mod_to_equations; lia).
  replace (Z.of_nat (off + tot) mod 1024) with (Z.of_nat r) by (Z.div_mod_to_equations; lia).
  replace (Z.min (Z.of_nat N - Z.of_nat tot) (1024 - Z.of_nat r)) with (Z.of_nat m) by lia. rewrite !Nat2Z.id.
  clearbody q r. pose proof (eq_refl m : m = Nat.min (N - tot) (1024 - r)) as Hm. clearbody m.
  destruct (round_arith tot q r m Htot Hq Hr Hm) as (_ & _ & Hm0 & Hrm1 & HmN).
  wp. eapply wp_get_inode_w; [exact Hly|exact Hdev|exact Hip|exact Ht|]. wp. rewrite Hxd.
  assert (exists free, missing v x = free + hole v x q)%nat as [free Hfree].
  { exists (missing v x - hole v x q)%nat. pose proof (q_in_range tot q r m Htot Hq Hr Hm) as Hin.
    assert (hole v x q <= missing v x)%nat; [|lia]. unfold hole, missing. case_decide as Hz; [|lia].
    assert (q ∈ filter (fun bn => faddr v x bn = 0) range) as Hf by by apply list_elem_of_filter.
    apply list_elem_of_split in Hf as (l1 & l2 & ->). rewrite length_app. cbn. lia. }
  apply (wp_bmap_grow pid dev start cap s0 ip ds Hly Hdev Hip free B v x); try done.
  { apply Hw. }
  { by apply (q_file tot q r m). }
  { destruct Hrm; split; lia. }
  { rewrite <- Hfree. apply Hw. }
  intros x1 v1 B1 s1 H1 Hgr. pose proof (wrote_step tot q r m Htot Hq Hr Hm x v B x1 v1 B1 Hw free Hfree Hgr) as Hw'.
  destruct (round_ok tot q r m Htot Hq Hr Hm x v B x1 v1 B1 Hw free Hfree Hgr) as (Hok1 & Hnz & _).
  destruct (fo_used _ _ _ _ Hok1 q ltac:(by apply (q_file tot q r m)) Hnz) as [Hu _].
  destruct Hgr as (_ & _ & _ & HB1 & _). destruct Hrm as [Hrm2 Hrm3]. rewrite map_size_empty in Hrm3.
  pose proof (proj1 (proj2 (ly_log _ _ _ _ Hly))) as Hcap.
  wp. eapply tx_bread; [done|apply lookup_empty|apply (home_data _ _ _ _ Hly), Hu|rewrite map_size_empty; lia|].
  intros bp s2 H2. wp. wprun (proj2 Hsrc _ _ _ _ tot m e s2 H2 HmN). cbn [fst snd]. change (0 =? -1) with false. cbv iota.
  wp. eapply tx_set_data; [done|apply lookup_insert_eq|]. intros s3 H3. wp.
  eapply tx_log_write; [done|apply lookup_insert_eq|lia|lia|]. intros s4 H4. wp.
  eapply tx_give; [done|apply lookup_empty|left; apply elem_of_log_add; by left|]. intros s5 H5. wp.
  rewrite src_advance_add. rewrite <- !Nat2Z.inj_add, <- Nat.add_assoc. by eapply HQ.
Qed.

Lemma writei_loop fuel tot x v B e s :
  txw x B ∅ v s -> wrote tot x v B -> (tot <= N)%nat -> (N - tot < fuel)%nat ->
  wp (whileK fuel (writei_body ip (Z.of_nat N)) (Z.of_nat tot, Z.of_nat (off + tot), src_advance src tot))
    (fun r e' s' => e' = e /\ r = (Z.of_nat N, Z.of_nat (off + N)) /\ exists x' v' B', txw x' B' ∅ v' s' /\ wrote N x' v' B') e s.
Proof using All.
  revert tot x v B s. induction fuel as [|fuel IH]; intros tot x v B s Ht Hw Hle Hf; [lia|].
  apply wp_whileK. destruct (decide (tot < N)%nat) as [Hlt|Hge].
  - apply (writei_round tot x v B); try done. intros m x1 v1 B1 s' Hm HmN H' Hw'. apply (IH _ x1 v1 B1); [done|done|lia|lia].
  - unfold writei_body. rewrite (proj2 (Z.ltb_ge _ _)) by lia. cbn [negb]. wp. assert (tot = N) as -> by lia.
    split; [done|]. split; [done|]. by exists x, v, B.
Qed.

(** The inode with its new size, and the disk inodes brought up to date. *)
Definition resized (x : inode) : inode :=
  if i_size x <? Z.of_nat (off + N) then x <| i_size := Z.of_nat (off + N) |> else x.
Definition iblock : Z := IBLOCK (i_inum x0) G.
Definition updated (x : inode) (v : Z -> list Z) : Z -> list Z := update iblock (write_dinode (resized x)) v.

Hypothesis Hinum : 0 <= i_inum x0 < sb_ninodes G.
Hypothesis Hok0 : file_ok v0 x0.
Hypothesis Hsize : Z.of_nat off <= i_size x0.
Hypothesis Hmapped : forall bn, (bn < nblk (Z.to_nat (i_size x0)))%nat -> faddr v0 x0 bn <> 0.
Hypothesis Havail : avail (missing v0 x0 + need x0) v0.

Lemma wrote_start : wrote 0 x0 v0 B0.
Proof using All.
  split; [by apply ext_refl| |intros k _ _; case_decide; [lia|done]|done].
  intros bn Hbn. apply Hmapped. unfold touched, ntouched, nblk in *. change BSIZE with 1024.
  pose proof (Nat.div_mod_eq (off + 0 + 1023) 1024). pose proof (Nat.mod_upper_bound (off + 0 + 1023) 1024).
  Z.div_mod_to_equations; lia.
Qed.

Lemma resized_fields x : i_dev (resized x) = i_dev x /\ i_inum (resized x) = i_inum x /\ i_addrs (resized x) = i_addrs x.
Proof using. unfold resized. by destruct (_ <? _). Qed.

Lemma wp_iupdate x B v (Q : unit -> interference -> kstate -> Prop) e s :
  txw x B ∅ v s -> i_dev x = dev -> i_inum x = i_inum x0 -> room cap 1 B (∅ : gmap Z nat) ->
  (forall s', txw x (log_add iblock B) ∅ (update iblock (write_dinode x) v) s' -> Q tt e s') -> wp (iupdate ip) Q e s.
Proof using All.
  intros Ht Hd Hi [Hr1 Hr2] HQ. rewrite map_size_empty in Hr2. pose proof (proj1 (proj2 (ly_log _ _ _ _ Hly))).
  unfold iupdate. eapply tx_get_sb; [done|]. apply wp_bind.
  eapply wp_get_inode_w; [exact Hly|exact Hdev|exact Hip|exact Ht|]. rewrite Hd, Hi.
  change (IBLOCK (i_inum x0) (sb (with_inode s0 ip x))) with iblock.
  apply (tx_update pid dev start cap (with_inode s0 ip x) B v iblock ∅ (write_dinode x)); try done; [|rewrite map_size_empty; lia|lia|lia].
  apply (home_at _ _ _ _ Hly). destruct (IBLOCK_at _ _ _ _ Hly _ Hinum) as [_ Hib]. unfold iblock.
  pose proof (ds_pos _ _ _ _ Hly). pose proof (ly_bmap _ _ _ _ Hly). pose proof (ly_size _ _ _ _ Hly). change BPB with 8192 in *. Z.div_mod_to_equations; lia.
Qed.

Lemma writei_spec e s : txw x0 B0 ∅ v0 s ->
  wp (writei ip src (Z.of_nat off) (Z.of_nat N)) (fun r e' s' => e' = e /\ r = Z.of_nat N /\
    exists x v B, wrote N x v B /\ txw (resized x) (log_add iblock B) ∅ (updated x v) s' /\ i_inum x = i_inum x0) e s.
Proof using All.
  intros Ht. unfold writei. apply wp_bind. eapply wp_get_inode_w; [exact Hly|exact Hdev|exact Hip|exact Ht|].
  change (MAXFILE * BSIZE) with 274432 in *. rewrite <- Nat2Z.inj_add, u32_small by lia.
  rewrite (proj2 (Z.ltb_ge (i_size x0) _)), (proj2 (Z.ltb_ge _ (Z.of_nat off))), (proj2 (Z.ltb_ge _ (Z.of_nat (off + N)))) by lia.
  cbn [orb]. apply wp_bind. rewrite Nat2Z.id.
  replace (0, Z.of_nat off, src) with (Z.of_nat 0, Z.of_nat (off + 0), src_advance src 0).
  2: { rewrite Nat.add_0_r, (proj1 Hsrc). done. }
  eapply wp_mono; [apply (writei_loop (S N) 0 x0 v0 B0); [done|apply wrote_start|lia|lia]|].
  intros r e' s' (-> & -> & x & v & B & H' & Hw). cbn [fst snd]. apply wp_bind.
  pose proof (wrote_room N x v B s' ltac:(done) Hw H') as [Hr1 Hr2].
  assert (i_inum x = i_inum x0) as Hi by by rewrite (ex_inode _ _ _ _ _ _ _ _ _ (wr_ext _ _ _ _ Hw)).
  destruct (resized_fields x) as (Hrd & Hri & _).
  eapply wp_set_inode_w; [exact Hly|exact Hdev|exact Hip|exact H'|]. intros s2 H2. fold (resized x) in H2. apply wp_bind.
  apply (wp_iupdate (resized x) B v); [done| | |split; lia|].
  - rewrite Hrd. by eapply wrote_dev.
  - by rewrite Hri.
  - intros s3 H3. wp. split; [done|]. split; [rewrite i32_small by lia; done|]. exists x, v, B. done.
Qed.
End Writei.

(** What a write logs: the blocks of the file, the free map, the block of addresses and the inode. *)
Lemma wrote_log_bound s0 ds x0 v0 B0 bytes off range tot x v B n :
  wrote s0 ds x0 v0 B0 bytes off range tot x v B -> NoDup (log_add n B) ->
  (length (log_add n B) <= length B0 + nmap (sb s0) ds + 2 + ntouched off tot)%nat.
Proof.
  intros Hw Hnd. assert (NoDup B) as HndB.
  { unfold log_add in Hnd. case_decide; [done|]. by apply NoDup_app in Hnd as (? & _). }
  pose proof (log_bound _ _ _ _ _ _ _ _ _ _ (wr_ext _ _ _ _ _ _ _ _ _ _ _ _ Hw) HndB).
  pose proof (length_log_add n B). lia.
Qed.
