(* ===== verification/FsDisk.v ===== *)
(** * The file system as a set of files

    [fs_ok]: every inode in use has its blocks to itself, they are marked in the free map, and
    none is missing.  [writei] keeps this invariant, changes the contents of one file as it should
    and those of no other, on the disk as well as in memory. *)

From stdpp Require Import base numbers list gmap sets strings.
From S2P Require Import Prelude Mem Types Kernel Wp Sched SchedFacts Bio BioFacts Log LogFacts Fs FsFacts FsTx FsAlloc FsExtend FsWrite.

(** ** Inodes on the disk *)

(** The fields fit the disk inode. *)
Record dinode_fits (x : inode) : Prop := {
  df_type : - 2 ^ 15 <= i_type x < 2 ^ 15;
  df_major : - 2 ^ 15 <= i_major x < 2 ^ 15;
  df_minor : - 2 ^ 15 <= i_minor x < 2 ^ 15;
  df_nlink : - 2 ^ 15 <= i_nlink x < 2 ^ 15;
  df_size : 0 <= i_size x < 2 ^ 32;
  df_len : length (i_addrs x) = 13%nat;
  df_addrs : Forall (fun a => 0 <= a < 2 ^ 32) (i_addrs x) }.

(** What a disk inode says of an inode in memory. *)
Definition set_dinode (y x : inode) : inode :=
  Inode (i_dev y) (i_inum y) (i_ref y) (i_lock y) (i_valid y) (i_type x) (i_major x) (i_minor x) (i_nlink x)
    (i_size x) (i_addrs x).

Lemma i16_u16 z : - 2 ^ 15 <= z < 2 ^ 15 -> i16 (u16 z mod 256 ^ Z.of_nat 2) = z.
Proof.
  intros H. change (256 ^ Z.of_nat 2) with (2 ^ 16). unfold i16, u16. rewrite Z.mod_mod by lia.
  rewrite Zplus_mod_idemp_l, Z.mod_small by lia. lia.
Qed.

Lemma i16_range z : - 2 ^ 15 <= i16 z < 2 ^ 15.
Proof. unfold i16. pose proof (Z.mod_pos_bound (z + 2 ^ 15) (2 ^ 16)). lia. Qed.

Lemma length_write_dinode x data : length (write_dinode x data) = length data.
Proof. unfold write_dinode. by rewrite length_lput_words, !lput_length. Qed.

Lemma read_write_dinode x y data : dinode_fits x -> length data = 1024%nat ->
  read_dinode (write_dinode x data) (i_inum x) y = set_dinode y x.
Proof.
  intros [H1 H2 H3 H4 H5 H6 H7] Hl. unfold read_dinode, write_dinode. pose proof (dinode_off_range (i_inum x)) as Hr.
  set (o := dinode_off (i_inum x)) in *. clearbody o. unfold set_dinode. cbv zeta.
  replace (lget_words 13) with (lget_words (length (i_addrs x))) by (by rewrite H6). rewrite lget_words_lput_words by (rewrite ?lput_length, ?H6; (done || lia)).
  rewrite !lget_lput_words_ne by lia. repeat ((rewrite lget_lput_ne by lia) || (rewrite lget_lput by (rewrite ?lput_length; lia))).
  rewrite !i16_u16 by done. rewrite Z.mod_small by done. done.
Qed.

(** The other inodes of the block stay. *)
Lemma read_write_dinode_ne x y i data :
  (dinode_off i + 64 <= dinode_off (i_inum x) \/ dinode_off (i_inum x) + 64 <= dinode_off i)%nat -> length (i_addrs x) = 13%nat ->
  read_dinode (write_dinode x data) i y = read_dinode data i y.
Proof.
  intros Hd Ha. unfold read_dinode, write_dinode. set (o := dinode_off (i_inum x)) in *. set (p := dinode_off i) in *.
  clearbody o p. cbv zeta. rewrite (lget_words_ext 13 data _ (p + 12)).
  - rewrite !lget_lput_words_ne by lia. by rewrite !lget_lput_ne by lia.
  - intros j Hj. rewrite lget_lput_words_ne by lia. by rewrite !lget_lput_ne by lia.
Qed.

(** ** The contents of a file, byte by byte *)

Lemma lookup_concat_blocks (bl : list (list Z)) k :
  Forall (fun b => length b = 1024%nat) bl ->
  concat bl !! k = (bl !! (k / 1024)%nat) ≫= (fun b => b !! (k mod 1024)%nat).
Proof.
  revert k. induction bl as [|c bl IH]; intros k Hall; [by rewrite lookup_nil|].
  apply Forall_cons in Hall as [Hc Hall]. cbn [concat].
  pose proof (Nat.div_mod_eq k 1024) as Hd. pose proof (Nat.mod_upper_bound k 1024 ltac:(done)) as Hu.
  destruct (decide (k < 1024)%nat) as [Hk|Hk].
  - rewrite lookup_app_l by lia. by rewrite Nat.div_small, Nat.mod_small by done.
  - rewrite lookup_app_r, IH by (done || lia). rewrite Hc.
    pose proof (Nat.div_mod_eq (k - 1024) 1024). pose proof (Nat.mod_upper_bound (k - 1024) 1024 ltac:(done)).
    replace (k / 1024)%nat with (S ((k - 1024) / 1024)) by lia.
    by replace (k mod 1024)%nat with ((k - 1024) mod 1024)%nat by lia.
Qed.

Lemma bmap_faddr v x bn : faddr v x bn <> 0 -> bmap_at v x bn = faddr v x bn.
Proof. unfold bmap_at, faddr. case_decide; [done|]. by case_decide. Qed.

(** A file whose blocks are all there. *)
Record good_file (G : superblock) (ds : Z) (V : Z -> list Z) (x : inode) : Prop := {
  gf_ok : file_ok G ds V x;
  gf_size : 0 <= i_size x <= MAXFILE * BSIZE;
  gf_mapped : forall bn, (bn < nblk (Z.to_nat (i_size x)))%nat -> faddr V x bn <> 0 }.

Definition isize (x : inode) : nat := Z.to_nat (i_size x).

Lemma nblk_lt len k : (k < len)%nat -> (k / 1024 < nblk len)%nat.
Proof.
  intros H. unfold nblk. change BSIZE with 1024.
  pose proof (Nat.div_mod_eq k 1024). pose proof (Nat.mod_upper_bound k 1024 ltac:(done)). Z.div_mod_to_equations; lia.
Qed.

Lemma nblk_le len c : (len <= 1024 * c)%nat -> (nblk len <= c)%nat.
Proof. intros H. unfold nblk. change BSIZE with 1024. Z.div_mod_to_equations; lia. Qed.

Lemma good_block G ds V x bn : good_file G ds V x -> (bn < nblk (isize x))%nat -> is_file_block bn.
Proof.
  intros [_ Hs _] Hb. unfold is_file_block, isize in *. change (MAXFILE * BSIZE) with 274432 in *. change MAXFILE with 268.
  pose proof (nblk_le (Z.to_nat (i_size x)) 268 ltac:(lia)). lia.
Qed.

Section Bytes.
Context (G : superblock) (ds : Z) (V : Z -> list Z) (x : inode).
Hypothesis Hgood : good_file G ds V x.

Lemma blocks_sized n : (n <= nblk (isize x))%nat ->
  Forall (fun b => length b = 1024%nat) ((fun bn => V (bmap_at V x bn)) <$> seq 0 n).
Proof using Hgood.
  intros Hn. apply Forall_fmap, Forall_forall. intros bn Hbn. apply (fo_map _ _ _ _ (gf_ok _ _ _ _ Hgood)).
Qed.

Lemma lookup_file_bytes k : file_bytes V x !! k = if decide (k < isize x)%nat then fbyte V x k else None.
Proof using Hgood.
  unfold file_bytes. fold (isize x). case_decide as Hk; [|by apply lookup_take_ge; lia].
  rewrite lookup_take_lt by done. unfold file_blocks. rewrite lookup_concat_blocks by by apply blocks_sized.
  pose proof (nblk_lt _ _ Hk) as Hb. rewrite list_lookup_fmap, lookup_seq_lt by done. cbn.
  unfold fbyte. rewrite bmap_faddr; [done|]. by apply Hgood.
Qed.

Lemma fbyte_some k : (k < isize x)%nat -> is_Some (fbyte V x k).
Proof using Hgood.
  intros Hk. apply lookup_lt_is_Some_2. rewrite (mo_len _ _ _ (fo_map _ _ _ _ (gf_ok _ _ _ _ Hgood))).
  change (Z.to_nat BSIZE) with 1024%nat. by apply Nat.mod_upper_bound.
Qed.

Lemma length_file_bytes : length (file_bytes V x) = isize x.
Proof using Hgood.
  apply Nat.le_antisymm.
  - apply lookup_ge_None_1. rewrite lookup_file_bytes. by rewrite decide_False by lia.
  - destruct (isize x) as [|n] eqn:E; [lia|]. apply lookup_lt_is_Some_1. rewrite lookup_file_bytes, decide_True by lia.
    apply fbyte_some. lia.
Qed.
End Bytes.

(** ** All files *)

Section FileSystem.
Context (G : superblock) (ds : Z).
Implicit Types (V : Z -> list Z) (i j : Z).

(** Inode [i] of the disk, and the contents of its file. *)
Definition disk_ino V i : inode := read_dinode (V (IBLOCK i G)) i inode0.
Definition disk_bytes V i : list Z := file_bytes V (disk_ino V i).
Definition in_use V i : Prop := 0 <= i < sb_ninodes G /\ i_type (disk_ino V i) <> 0.
(** All the blocks of a file. *)
Definition owns V (x : inode) (n : Z) : Prop := own (fun _ => True) V x n.

Record fs_ok V : Prop := {
  fk_map : map_ok G ds V;
  fk_file : forall i, in_use V i -> good_file G ds V (disk_ino V i);
  fk_disj : forall i j n, in_use V i -> in_use V j -> i <> j ->
    owns V (disk_ino V i) n -> owns V (disk_ino V j) n -> False }.

(** An inode in memory that agrees with the disk. *)
Definition synced V (x : inode) : Prop := set_dinode x (disk_ino V (i_inum x)) = x.

Lemma synced_fields V x : synced V x -> i_addrs (disk_ino V (i_inum x)) = i_addrs x /\
  i_size (disk_ino V (i_inum x)) = i_size x /\ i_type (disk_ino V (i_inum x)) = i_type x.
Proof. intros H. set (y := disk_ino V (i_inum x)) in *. unfold synced in H. fold y in H. rewrite <- H. done. Qed.

Lemma file_bytes_same V V' x x' : i_addrs x' = i_addrs x -> i_size x' = i_size x ->
  (forall n, owns V x n -> V' n = V n) -> good_file G ds V x -> file_bytes V' x' = file_bytes V x.
Proof.
  intros Ha Hs Hv Hg. unfold file_bytes, file_blocks. rewrite Hs. f_equal. f_equal. apply list_fmap_ext.
  intros k bn Hk. apply lookup_seq in Hk as [-> Hk]. set (bn := (0 + k)%nat) in *.
  assert (forall b, faddr V' x' b = faddr V x b) as Hf.
  { intros b. apply faddr_ext; [done|]. intros Hi. apply Hv. split; [done|by left]. }
  pose proof (gf_mapped _ _ _ _ Hg bn Hk) as Hz. rewrite !bmap_faddr; rewrite ?Hf; try done.
  apply Hv. split; [done|]. right. exists bn. split; [done|]. split; [by eapply good_block|done].
Qed.

Lemma owns_used V x n : file_ok G ds V x -> owns V x n -> used G ds V n.
Proof. intros Hok (Hn & [->|(bn & _ & Hbn & ->)]); [by apply Hok|]. by apply Hok. Qed.

(** A file that another view shows unchanged. *)
Lemma good_file_same V V' x : good_file G ds V x -> map_ok G ds V' ->
  (forall n, owns V x n -> V' n = V n) -> (forall n, used G ds V n -> used G ds V' n) -> good_file G ds V' x.
Proof.
  intros [Hok Hs Hm] Hmap Hv Hu.
  assert (forall b, faddr V' x b = faddr V x b) as Hf.
  { intros b. apply faddr_ext; [done|]. intros Hi. apply Hv. split; [done|by left]. }
  destruct Hok as [H1 H2 H3 H4 H5]. split; [split|done|intros bn; rewrite Hf; auto]; try done.
  - auto.
  - intros bn Hbn. rewrite Hf. intros Hz. destruct (H4 bn Hbn Hz). auto.
  - intros bn bn'. rewrite !Hf. auto.
Qed.

Lemma good_file_addrs V x x' : i_addrs x' = i_addrs x -> i_size x' = i_size x -> good_file G ds V x -> good_file G ds V x'.
Proof.
  intros Ha Hs [[H1 H2 H3 H4 H5] H6 H7]. assert (ind x' = ind x) as Hi by (unfold ind; by rewrite Ha).
  assert (forall bn, faddr V x' bn = faddr V x bn) as Hf by (intros; by apply faddr_ext).
  split; [split|by rewrite Hs|intros bn; rewrite Hs, Hf; auto]; rewrite ?Hi, ?Ha; try done.
  - intros bn. rewrite Hf. auto.
  - intros bn bn'. rewrite !Hf. auto.
Qed.

Lemma owns_addrs V x x' n : i_addrs x' = i_addrs x -> owns V x' n -> owns V x n.
Proof.
  intros Ha (Hn & H). split; [done|]. assert (ind x' = ind x) as <- by (unfold ind; by rewrite Ha).
  destruct H as [?|(bn & ? & ? & ->)]; [by left|right]. exists bn. split; [done|]. split; [done|].
  by apply faddr_ext.
Qed.
End FileSystem.

(** ** The file system after a write *)

Section Written.
Context (start cap : Z) (s0 : kstate) (ds : Z).
Local Abbreviation G := (sb s0).
Hypothesis Hly : layout start cap G ds.
Context (x0 : inode) (v0 : Z -> list Z) (B0 : list Z) (bytes : list Z) (off : nat).
Local Abbreviation N := (length bytes).
Hypothesis Hend : (off + N <= Z.to_nat (MAXFILE * BSIZE))%nat.
Hypothesis Hfs : fs_ok G ds v0.
Hypothesis Hsync : synced G v0 x0.
Hypothesis Huse : in_use G v0 (i_inum x0).
Hypothesis Hoff : Z.of_nat off <= i_size x0.
Context (x : inode) (v : Z -> list Z) (B : list Z).
Context (range : list nat).
Hypothesis Hw : wrote s0 ds x0 v0 B0 bytes off range N x v B.
Local Abbreviation xf := (resized bytes off x).
Local Abbreviation v3 := (updated s0 x0 bytes off x v).
Local Abbreviation ib := (iblock s0 x0).

Lemma w_ext : ext G ds (fun _ => True) x0 v0 B0 x v B.
Proof using All. eapply ext_weaken; [|apply Hw]. done. Qed.

Lemma w_good0 : good_file G ds v0 x0.
Proof using All.
  destruct (synced_fields _ _ _ Hsync) as (Ha & Hs & _). eapply (good_file_addrs G ds v0); [symmetry; exact Ha|by symmetry|].
  by apply Hfs.
Qed.

Lemma w_iblock i : 0 <= i < sb_ninodes G -> IBLOCK i G < sb_bmapstart G /\ IBLOCK i G < ds.
Proof using All.
  intros Hi. destruct (IBLOCK_at _ _ _ _ Hly i Hi) as [_ ?]. pose proof (ly_bmap _ _ _ _ Hly). pose proof (ly_size _ _ _ _ Hly).
  pose proof (ds_pos _ _ _ _ Hly). change BPB with 8192 in *. split; [lia|]. Z.div_mod_to_equations; lia.
Qed.

Lemma w_view n : n <> ib -> v3 n = v n.
Proof using All. intros Hn. by apply update_ne. Qed.

Lemma w_view_high n : sb_bmapstart G <= n -> v3 n = v n.
Proof using All. intros Hn. apply w_view. destruct (w_iblock _ (proj1 Huse)). unfold iblock. lia. Qed.

Lemma w_allocated n : 0 <= n < sb_size G -> allocated G v3 n = allocated G v n.
Proof using All.
  intros Hn. unfold allocated. rewrite w_view_high; [done|]. by apply (BBLOCK_at _ _ _ _ Hly n Hn).
Qed.

Lemma w_used n : used G ds v3 n <-> used G ds v n.
Proof using All.
  pose proof (ds_pos _ _ _ _ Hly). unfold used. split; intros [Hn Ha]; (split; [done|]); by rewrite w_allocated in * by lia.
Qed.

Lemma w_used_high n : used G ds v n -> sb_bmapstart G <= n.
Proof using All.
  intros [Hn _]. pose proof (ds_pos _ _ _ _ Hly). pose proof (ly_bmap _ _ _ _ Hly). pose proof (ly_size _ _ _ _ Hly).
  change BPB with 8192 in *. Z.div_mod_to_equations; lia.
Qed.

Lemma w_map : map_ok G ds v3.
Proof using All.
  pose proof (ex_ok _ _ _ _ _ _ _ _ _ w_ext) as [[Hm Hl] _ _ _ _]. pose proof (ly_size _ _ _ _ Hly). split.
  - intros b Hb. rewrite w_allocated by lia. auto.
  - intros n. unfold updated, update. case_decide; [by rewrite length_write_dinode|done].
Qed.

Lemma w_fields : i_addrs xf = i_addrs x /\ i_inum xf = i_inum x0 /\ i_type xf = i_type x0 /\ i_major xf = i_major x0 /\
  i_minor xf = i_minor x0 /\ i_nlink xf = i_nlink x0 /\ i_size xf = Z.max (i_size x0) (Z.of_nat (off + N)).
Proof using All.
  pose proof (ex_inode _ _ _ _ _ _ _ _ _ w_ext) as Hx. unfold resized. rewrite Hx. cbn.
  destruct (Z.ltb_spec (i_size x0) (Z.of_nat (off + N))); cbn; repeat split; try done; lia.
Qed.

Lemma w_isize : isize xf = Nat.max (isize x0) (off + N).
Proof using All. unfold isize. destruct w_fields as (_ & _ & _ & _ & _ & _ & ->). lia. Qed.

Lemma w_mapped bn : (bn < nblk (isize xf))%nat -> faddr v x bn <> 0.
Proof using All.
  intros Hbn. rewrite w_isize in Hbn. pose proof w_good0 as Hg0. destruct (decide (bn < nblk (isize x0))%nat) as [Hb|Hb].
  - rewrite (ex_stay _ _ _ _ _ _ _ _ _ w_ext); [by apply Hg0|by eapply good_block|by apply Hg0].
  - apply (wr_mapped _ _ _ _ _ _ _ _ _ _ _ _ Hw). unfold touched, ntouched.
    destruct (Nat.max_spec (isize x0) (off + N)) as [[_ E]|[_ E]]; rewrite E in Hbn; [|lia].
    unfold nblk, isize in *. change BSIZE with 1024 in *.
    pose proof (Nat.div_mod_eq (off + N + 1023) 1024). pose proof (Nat.mod_upper_bound (off + N + 1023) 1024 ltac:(done)).
    pose proof (Nat.div_mod_eq off 1024). pose proof (Nat.mod_upper_bound off 1024 ltac:(done)).
    Z.div_mod_to_equations; lia.
Qed.

(** The file that was written. *)
Lemma w_good : good_file G ds v xf.
Proof using All.
  destruct w_fields as (Ha & _ & _ & _ & _ & _ & Hs). pose proof w_good0 as [_ Hs0 _]. split.
  - pose proof (ex_ok _ _ _ _ _ _ _ _ _ w_ext) as [H1 H2 H3 H4 H5].
    assert (ind xf = ind x) as Hi by (unfold ind; by rewrite Ha).
    assert (forall bn, faddr v xf bn = faddr v x bn) as Hf by (intros; by apply faddr_ext).
    split; rewrite ?Hi, ?Ha; try done; [intros bn|intros bn bn']; rewrite !Hf; auto.
  - rewrite Hs. change (MAXFILE * BSIZE) with 274432 in *. lia.
  - intros bn Hbn. rewrite (faddr_ext v v x xf bn Ha) by done. by apply w_mapped.
Qed.

Lemma w_good3 : good_file G ds v3 xf.
Proof using All.
  eapply good_file_same; [apply w_good|apply w_map| |].
  - intros n Hn. apply w_view_high, w_used_high. eapply owns_used; [apply w_good|done].
  - intros n Hn. by apply w_used.
Qed.

Lemma w_fits : dinode_fits xf.
Proof using All.
  destruct w_fields as (Ha & _ & Ht & Hmj & Hmn & Hnl & Hs). pose proof w_good as Hg.
  assert (i_type x0 = i16 (lget 2 (v0 ib) (dinode_off (i_inum x0))) /\
    i_major x0 = i16 (lget 2 (v0 ib) (dinode_off (i_inum x0) + 2)) /\
    i_minor x0 = i16 (lget 2 (v0 ib) (dinode_off (i_inum x0) + 4)) /\
    i_nlink x0 = i16 (lget 2 (v0 ib) (dinode_off (i_inum x0) + 6))) as (E1 & E2 & E3 & E4).
  { unfold synced in Hsync. repeat split; rewrite <- Hsync at 1; done. }
  split; rewrite ?Ht, ?Hmj, ?Hmn, ?Hnl, ?E1, ?E2, ?E3, ?E4; try apply i16_range.
  - destruct (gf_size _ _ _ _ Hg) as [H1 H2]. change (MAXFILE * BSIZE) with 274432 in *. lia.
  - apply Hg.
  - pose proof (fo_addrs _ _ _ _ (gf_ok _ _ _ _ Hg)) as Hl. pose proof (ly_size _ _ _ _ Hly). pose proof (ds_pos _ _ _ _ Hly).
    apply Forall_lookup. intros k a Hk. pose proof (lookup_lt_Some _ _ _ Hk) as Hlt. apply list_lookup_total_correct in Hk.
    destruct (decide (a = 0)) as [->|Hz]; [lia|]. destruct (decide (k < 12)%nat) as [Hk12|Hk12].
    + assert (faddr v xf k = a) as Hf by (unfold faddr; change NDIRECT with 12; by rewrite decide_True).
      destruct (fo_used _ _ _ _ (gf_ok _ _ _ _ Hg) k) as [[Hr _] _]; [unfold is_file_block; change MAXFILE with 268; lia|congruence|].
      rewrite Hf in Hr. lia.
    + assert (k = 12)%nat as -> by lia. assert (ind xf = a) as Hi by done.
      destruct (fo_ind _ _ _ _ (gf_ok _ _ _ _ Hg)) as [Hr _]; [congruence|]. rewrite Hi in Hr. lia.
Qed.

Lemma w_disk_ino : disk_ino G v3 (i_inum x0) = set_dinode inode0 xf.
Proof using All.
  destruct w_fields as (_ & Hi & _). unfold disk_ino. change (IBLOCK (i_inum x0) G) with ib. unfold updated.
  rewrite update_eq. rewrite <- Hi. apply read_write_dinode; [apply w_fits|].
  apply (fo_map _ _ _ _ (ex_ok _ _ _ _ _ _ _ _ _ w_ext)).
Qed.

Lemma w_disk_other j : 0 <= j < sb_ninodes G -> j <> i_inum x0 -> disk_ino G v3 j = disk_ino G v0 j.
Proof using All.
  intros Hj Hne. destruct (w_iblock j Hj) as [Hjb _]. unfold disk_ino. destruct (decide (IBLOCK j G = ib)) as [E|E].
  - rewrite E. unfold updated. rewrite update_eq. rewrite read_write_dinode_ne; [|..].
    + rewrite (ex_meta _ _ _ _ _ _ _ _ _ w_ext); [done|]. by rewrite <- E.
    + destruct w_fields as (_ & -> & _). destruct (IBLOCK_at _ _ _ _ Hly j Hj) as [E1 _], (IBLOCK_at _ _ _ _ Hly _ (proj1 Huse)) as [E2 _].
      unfold iblock in E. rewrite E1, E2 in E. unfold dinode_off. change IPB with 16 in *. Z.div_mod_to_equations; lia.
    + apply w_fits.
  - rewrite w_view by done. by rewrite (ex_meta _ _ _ _ _ _ _ _ _ w_ext).
Qed.

Lemma w_fbyte k : (k < isize xf)%nat ->
  fbyte v3 xf k = if decide (off <= k < off + N)%nat then bytes !! (k - off)%nat else fbyte v0 x0 k.
Proof using All.
  intros Hk. pose proof (nblk_lt _ _ Hk) as Hb. pose proof (good_block _ _ _ _ _ w_good Hb) as Hfb.
  pose proof (w_mapped _ Hb) as Hz. pose proof w_good as Hg. destruct w_fields as (Ha & _).
  assert (faddr v3 xf (k / 1024) = faddr v x (k / 1024)) as Hf.
  { apply faddr_ext; [done|]. intros Hi. apply w_view_high, w_used_high.
    by apply (fo_ind _ _ _ _ (ex_ok _ _ _ _ _ _ _ _ _ w_ext)). }
  rewrite <- (wr_data _ _ _ _ _ _ _ _ _ _ _ _ Hw k Hfb).
  - unfold fbyte. rewrite Hf, w_view_high; [done|]. apply w_used_high.
    by apply (fo_used _ _ _ _ (ex_ok _ _ _ _ _ _ _ _ _ w_ext)).
  - rewrite w_isize in Hk. destruct (decide (k < isize x0)%nat) as [Hlt|Hge].
    + left. apply w_good0. by apply nblk_lt.
    + right. unfold isize in *. lia.
Qed.

Lemma w_file_bytes : file_bytes v3 xf = splice off bytes (file_bytes v0 x0).
Proof using All.
  pose proof w_good0 as Hg0. pose proof w_good3 as Hg3. pose proof (length_file_bytes _ _ _ _ Hg0) as Hl0.
  assert (off <= isize x0)%nat as Hle by (unfold isize; lia).
  apply list_eq. intros k. rewrite (lookup_file_bytes _ _ _ _ Hg3). unfold splice.
  assert (length (take off (file_bytes v0 x0)) = off) as Ht by (rewrite length_take; lia).
  case_decide as Hk.
  - rewrite w_fbyte by done. rewrite w_isize in Hk. case_decide as Hin.
    + rewrite lookup_app_r, lookup_app_l by lia. by rewrite Ht.
    + destruct (decide (k < off)%nat).
      * rewrite lookup_app_l, lookup_take_lt, (lookup_file_bytes _ _ _ _ Hg0) by lia. by rewrite decide_True by lia.
      * rewrite !lookup_app_r, lookup_drop by lia. rewrite Ht.
        replace (off + N + (k - off - N))%nat with k by lia. rewrite (lookup_file_bytes _ _ _ _ Hg0). by rewrite decide_True by lia.
  - rewrite w_isize in Hk. symmetry. apply lookup_ge_None_2. rewrite !length_app, Ht, length_drop. lia.
Qed.

Lemma w_disk_bytes : disk_bytes G v3 (i_inum x0) = splice off bytes (disk_bytes G v0 (i_inum x0)).
Proof using All.
  destruct (synced_fields _ _ _ Hsync) as (Ha & Hs & _). unfold disk_bytes. rewrite w_disk_ino.
  transitivity (file_bytes v3 xf); [eapply file_bytes_same; [done..|apply w_good3]|]. rewrite w_file_bytes. f_equal.
  symmetry. eapply file_bytes_same; [done..|apply w_good0].
Qed.

(** The blocks of the other files. *)
Lemma w_keep j n : in_use G v0 j -> j <> i_inum x0 -> owns v0 (disk_ino G v0 j) n -> v3 n = v0 n.
Proof using All.
  intros Hj Hne Hn. pose proof (owns_used _ _ _ _ _ (gf_ok _ _ _ _ (fk_file _ _ _ Hfs j Hj)) Hn) as Hu.
  destruct (synced_fields _ _ _ Hsync) as (Ha & _).
  rewrite w_view_high by by apply w_used_high, (ex_mono _ _ _ _ _ _ _ _ _ w_ext).
  apply (ex_keep _ _ _ _ _ _ _ _ _ w_ext); [done|]. intros Ho. apply (fk_disj _ _ _ Hfs j (i_inum x0) n); try done.
  by eapply owns_addrs.
Qed.

Lemma w_in_use j : in_use G v3 j <-> in_use G v0 j.
Proof using All.
  unfold in_use. split; intros [Hj Ht]; (split; [done|]); destruct (decide (j = i_inum x0)) as [->|Hne].
  - apply Huse.
  - by rewrite w_disk_other in Ht.
  - rewrite w_disk_ino. change (i_type xf <> 0). destruct w_fields as (_ & _ & -> & _).
    destruct (synced_fields _ _ _ Hsync) as (_ & _ & <-). apply Huse.
  - by rewrite w_disk_other.
Qed.

Lemma w_other_bytes j : in_use G v0 j -> j <> i_inum x0 -> disk_bytes G v3 j = disk_bytes G v0 j.
Proof using All.
  intros Hj Hne. unfold disk_bytes. rewrite w_disk_other by (done || apply Hj).
  eapply file_bytes_same; [done|done| |by apply Hfs]. intros n. by apply w_keep.
Qed.

Lemma w_owns_back j n : in_use G v0 j -> j <> i_inum x0 -> owns v3 (disk_ino G v0 j) n -> owns v0 (disk_ino G v0 j) n.
Proof using All.
  intros Hj Hne (Hz & [->|(bn & _ & Hbn & ->)]); (split; [done|]); [by left|right]. exists bn. split; [done|]. split; [done|].
  apply faddr_ext; [done|]. intros Hi. apply (w_keep j); [done|done|]. split; [done|by left].
Qed.

(** A block of the file that another file has was not given to it. *)
Lemma w_disjoint j n : in_use G v0 j -> j <> i_inum x0 -> owns v3 (disk_ino G v0 j) n -> owns v3 xf n -> False.
Proof using All.
  intros Hj Hne Hn Hf. destruct (synced_fields _ _ _ Hsync) as (Ha & _).
  pose proof (fk_file _ _ _ Hfs j Hj) as Hgj. destruct w_fields as (Hax & _).
  pose proof (w_owns_back j n Hj Hne Hn) as Hn0.
  pose proof (owns_used _ _ _ _ _ (gf_ok _ _ _ _ Hgj) Hn0) as Hu.
  assert (own (fun _ => True) v x n) as Hx.
  { destruct Hf as (Hz & Hf). assert (ind xf = ind x) as Hi by (unfold ind; by rewrite Hax). rewrite Hi in Hf.
    split; [done|]. destruct Hf as [->|(bn & _ & Hbn & ->)]; [by left|right]. exists bn. split; [done|]. split; [done|].
    apply faddr_ext; [done|]. intros Hz'. apply w_view_high, w_used_high.
    by apply (fo_ind _ _ _ _ (ex_ok _ _ _ _ _ _ _ _ _ w_ext)). }
  pose proof (own_earlier _ _ _ _ _ _ _ _ _ _ w_ext Hu Hx) as Hx0.
  apply (fk_disj _ _ _ Hfs j (i_inum x0) n); try done. by eapply owns_addrs.
Qed.

Lemma w_fs_ok : fs_ok G ds v3.
Proof using All.
  assert (forall j, in_use G v0 j -> j <> i_inum x0 -> good_file G ds v3 (disk_ino G v3 j)) as Hother.
  { intros j Hj Hne. rewrite w_disk_other by (done || apply Hj).
    apply (good_file_same G ds v0); [by apply Hfs|apply w_map|intros n; by apply w_keep|].
    intros n Hn. by apply w_used, (ex_mono _ _ _ _ _ _ _ _ _ w_ext). }
  assert (forall n, owns v3 (disk_ino G v3 (i_inum x0)) n -> owns v3 xf n) as Hown.
  { intros n. rewrite w_disk_ino. by apply owns_addrs. }
  split.
  - apply w_map.
  - intros j Hj%w_in_use. destruct (decide (j = i_inum x0)) as [->|Hne]; [|by apply Hother].
    rewrite w_disk_ino. by eapply good_file_addrs; [..|apply w_good3].
  - intros i j n Hi%w_in_use Hj%w_in_use Hij Hni Hnj.
    destruct (decide (i = i_inum x0)) as [->|Hi0]; [|destruct (decide (j = i_inum x0)) as [->|Hj0]].
    + rewrite w_disk_other in Hnj by (apply Hj || done). apply (w_disjoint j n); auto.
    + rewrite w_disk_other in Hni by (apply Hi || done). apply (w_disjoint i n); auto.
    + rewrite w_disk_other in Hni, Hnj by (done || apply Hi || apply Hj).
      apply (fk_disj _ _ _ Hfs i j n); auto using w_owns_back.
Qed.

(** The inode in memory agrees with the disk. *)
Lemma w_synced : synced G v3 xf.
Proof using All.
  unfold synced. destruct w_fields as (_ & -> & _). rewrite w_disk_ino. reflexivity.
Qed.

Lemma w_avail : avail G (missing range v3 xf + need xf) v3.
Proof using All.
  destruct w_fields as (Ha & _).
  assert (forall bn, faddr v3 xf bn = faddr v x bn) as Hf.
  { intros bn. apply faddr_ext; [done|]. intros Hi. apply w_view_high, w_used_high.
    by apply (fo_ind _ _ _ _ (ex_ok _ _ _ _ _ _ _ _ _ w_ext)). }
  unfold missing. rewrite (missing_same range v x v3 xf) by done.
  replace (need xf) with (need x) by (unfold need, ind; by rewrite Ha).
  eapply avail_same; [apply w_allocated|]. apply Hw.
Qed.
End Written.

(** ** Two views that agree outside the log show the same file system *)

Section Agree.
Context (start cap : Z) (G : superblock) (ds : Z) (V V' : Z -> list Z).
Hypothesis Hly : layout start cap G ds.
Hypothesis Hagree : forall b, home start cap b -> V' b = V b.

Lemma agree_ino i : 0 <= i < sb_ninodes G -> disk_ino G V' i = disk_ino G V i.
Proof using All.
  intros Hi. unfold disk_ino. rewrite Hagree; [done|]. apply (home_at _ _ _ _ Hly).
  destruct (IBLOCK_at _ _ _ _ Hly i Hi) as [_ ?]. pose proof (ds_pos _ _ _ _ Hly). pose proof (ly_bmap _ _ _ _ Hly).
  pose proof (ly_size _ _ _ _ Hly). change BPB with 8192 in *. Z.div_mod_to_equations; lia.
Qed.

Lemma agree_allocated n : 0 <= n < sb_size G -> allocated G V' n = allocated G V n.
Proof using All. intros Hn. unfold allocated. rewrite Hagree; [done|]. by apply (home_bitmap _ _ _ _ Hly). Qed.

Lemma agree_used n : used G ds V' n <-> used G ds V n.
Proof using All.
  pose proof (ds_pos _ _ _ _ Hly). unfold used. split; intros [Hn Ha]; (split; [done|]); by rewrite agree_allocated in * by lia.
Qed.

Lemma agree_owned x n : file_ok G ds V x -> owns V x n -> V' n = V n.
Proof using All. intros Hok Hn. apply Hagree, (home_data _ _ _ _ Hly). by eapply owns_used. Qed.

Lemma agree_faddr x bn : file_ok G ds V x -> faddr V' x bn = faddr V x bn.
Proof using All. intros Hok. apply faddr_ext; [done|]. intros Hi. apply (agree_owned x); [done|]. split; [done|by left]. Qed.

Lemma agree_in_use i : in_use G V' i <-> in_use G V i.
Proof using All. unfold in_use. split; intros [Hi Ht]; (split; [done|]); by rewrite agree_ino in *. Qed.

Hypothesis Hfs : fs_ok G ds V.

Lemma agree_bytes i : in_use G V i -> disk_bytes G V' i = disk_bytes G V i.
Proof using All.
  intros Hi. unfold disk_bytes. rewrite agree_ino by apply Hi. pose proof (fk_file _ _ _ Hfs i Hi) as Hg.
  eapply file_bytes_same; [done|done| |exact Hg]. intros n. apply agree_owned, Hg.
Qed.

Lemma agree_fs_ok : (forall n, length (V' n) = Z.to_nat BSIZE) -> fs_ok G ds V'.
Proof using All.
  intros Hlen. assert (map_ok G ds V') as Hmap.
  { pose proof (ly_size _ _ _ _ Hly). split; [|done]. intros b Hb. rewrite agree_allocated by lia. by apply Hfs. }
  split; [done| |].
  - intros i Hi%agree_in_use. rewrite agree_ino by apply Hi. pose proof (fk_file _ _ _ Hfs i Hi) as Hg.
    apply (good_file_same G ds V); [done|done|intros n; apply agree_owned, Hg|intros n; by apply agree_used].
  - intros i j n Hi%agree_in_use Hj%agree_in_use Hij. rewrite !agree_ino by (apply Hi || apply Hj).
    assert (forall k, in_use G V k -> owns V' (disk_ino G V k) n -> owns V (disk_ino G V k) n) as Hback.
    { intros k Hk (Hz & [->|(bn & _ & Hbn & ->)]); (split; [done|]); [by left|right]. exists bn. split; [done|]. split; [done|].
      apply agree_faddr. by apply Hfs. }
    intros Hni Hnj. by apply (fk_disj _ _ _ Hfs i j n); auto.
Qed.

Lemma agree_avail range x : file_ok G ds V x -> avail G (missing range V x + need x) V -> avail G (missing range V' x + need x) V'.
Proof using All.
  intros Hok Hav. unfold missing. rewrite (missing_same range V x V' x) by (intros; by apply agree_faddr).
  eapply avail_same; [apply agree_allocated|exact Hav].
Qed.

Lemma agree_synced x : 0 <= i_inum x < sb_ninodes G -> synced G V x -> synced G V' x.
Proof using All. intros Hi Hs. unfold synced. by rewrite agree_ino. Qed.
End Agree.
