(* ===== verification/FsOp.v ===== *)
(** * Operations of the file system, from [begin_op] to [end_op]

    Between two operations the machine is [fs_idle]: nothing is logged and no buffer is in use.
    [begin_op] opens a transaction; [end_op] commits it and leaves the machine idle again, with
    the blocks as the transaction had them.  A crash on the way leaves either these or the blocks
    as they were at [begin_op]. *)

From stdpp Require Import base numbers list gmap sets strings.
From S2P Require Import Prelude Mem Types Kernel Wp Frame Sched SchedFacts Bio BioFacts Log LogFacts Fs FsFacts FsTx.

(** Every block has its size. *)
Definition sized_disk (d : diskstate) : Prop := forall n, length (dblock d n) = Z.to_nat BSIZE.

Lemma sized_writes ws d :
  (forall b data, (b, data) ∈ ws -> length data = Z.to_nat BSIZE) -> sized_disk d -> sized_disk (apply_writes ws d).
Proof.
  revert d. induction ws as [|[b data] ws IH]; intros d Hws Hd; [done|].
  change (apply_writes ((b, data) :: ws) d) with (apply_writes ws (write_block b data d)).
  apply IH; [intros; eapply Hws; by right|]. intros n. rewrite dblock_write. case_decide; [eapply Hws; by left|apply Hd].
Qed.

Record fs_idle (pid dev start cap : Z) (s : kstate) : Prop := {
  id_caller : caller pid s;
  id_held : held s = [];
  id_rep : brep dev ∅ s;
  id_log : log_at dev start cap [] (log s);
  id_out : lg_outstanding (log s) = 0;
  id_committing : lg_committing (log s) = false;
  id_sized : sized_disk (disk s);
  id_empty : hdr_n (dblock (disk s) start) = 0 }.

Section Op.
Context (pid dev start cap : Z).
Local Abbreviation idle := (fs_idle pid dev start cap).

(** ** [begin_op] *)

Definition begun (s : kstate) : kstate := s <| log ::= (fun l => l <| lg_outstanding := lg_outstanding l + 1 |>) |>.

Lemma begin_op_idle e s : idle s ->
  begin_op e s = Ok tt e (begun s) /\ txs pid dev start cap (begun s) [] ∅ (dblock (disk s)) (begun s).
Proof using.
  intros [Hc Hh Hrep Hl Ho Hcm _ _]. split.
  - apply begin_op_run; [rewrite Hh; set_solver|done|]. rewrite (la_n _ _ _ _ _ Hl), Ho. done.
  - apply txs_start; [|done]. unfold begun. apply open_empty; [done..| |cbn; lia].
    destruct Hl as [H1 H2 H3 H4 H5 H6 H7]. by split.
Qed.

(** ** [end_op] *)

Lemma unpin_all_empty blocks live :
  (forall n en, live !! n = Some en -> n ∈ blocks /\ en_refs en = 1) -> unpin_all blocks live = ∅.
Proof using.
  unfold unpin_all. revert live. induction blocks as [|b blocks IH]; intros live H; cbn [foldl].
  - apply map_eq. intros n. rewrite lookup_empty. destruct (live !! n) as [en|] eqn:E; [|done].
    destruct (H n en E) as [Hn _]. by apply elem_of_nil in Hn.
  - apply IH. intros n en. unfold unpin. destruct (live !! b) as [eb|] eqn:Eb.
    + destruct (H b eb Eb) as [_ ->]. unfold drop_ref. change (1 =? 1) with true. cbv iota.
      rewrite lookup_delete_Some. intros [Hne Hn]. destruct (H n en Hn) as [Hin ?]. split; [|done].
      apply elem_of_cons in Hin as [?|?]; [congruence|done].
    + intros Hn. destruct (H n en Hn) as [Hin ?]. split; [|done].
      apply elem_of_cons in Hin as [->|?]; [congruence|done].
Qed.

(** [commit] when nothing but the transaction uses the cache: what it leaves in memory. *)
Lemma commit_idle tx live e s :
  committing pid dev start cap tx live s -> (forall n en, live !! n = Some en -> n ∈ fst <$> tx /\ en_refs en = 1) ->
  exists s', commit e s = Ok tt e s' /\ caller pid s' /\ brep dev ∅ s' /\ log s' = log s <| lh_n := 0 |> /\
    rest s' = rest s /\ hdr_n (dblock (disk s') start) = 0 /\
    (Forall (fun w => length (snd w) = Z.to_nat BSIZE) tx -> sized_disk (disk s) -> sized_disk (disk s')).
Proof using.
  intros [Hc Hr Hl Hd [Hs0 Hs1] Hcp Hne Hnd Hh Hp Hf Hsp Hb Hz] Hlive.
  enough (wp commit (fun _ e' s' => e' = e /\ caller pid s' /\ brep dev ∅ s' /\ log s' = log s <| lh_n := 0 |> /\
    rest s' = rest s /\ hdr_n (dblock (disk s') start) = 0 /\
    (Forall (fun w => length (snd w) = Z.to_nat BSIZE) tx -> sized_disk (disk s) -> sized_disk (disk s'))) e s) as H.
  { apply wp_run in H as ([] & e' & s' & Hrun & -> & H). by exists s'. }
  eapply (commit_spec (R := rest s) pid dev start cap Hd Hs0 Hs1 Hcp tx live (disk s) (log s)); try done.
  intros s' [Hc' Hr' Hd' Hl' Hrs]. rewrite unpin_all_empty in Hr' by done. do 5 (split; [done|]).
  set (h := mk_hdr (fst <$> tx) (dblock (disk s) start)) in *.
  assert (dblock (disk s') start = mk_hdr [] h) as ->.
  { rewrite Hd'. unfold commit_writes. fold h. rewrite !app_assoc, apply_writes_app.
    change (apply_writes [(start, ?x)] ?y) with (write_block start x y). by rewrite dblock_write, decide_True. }
  split; [apply hdr_n_empty; unfold h; rewrite mk_hdr_length, Hb; change BSIZE with 1024; lia|].
  intros Htx Hs. rewrite Hd'. apply sized_writes; [|done]. rewrite Forall_forall in Htx. intros b data. unfold commit_writes.
  rewrite !elem_of_app, !list_elem_of_singleton. intros [Hw|[Hw|[Hw|Hw]]].
  - unfold log_writes in Hw. apply elem_of_lookup_imap in Hw as (i & w & [= _ ->] & Hi).
    apply Htx. by eapply list_elem_of_lookup_2.
  - injection Hw as _ ->. by rewrite mk_hdr_length.
  - exact (Htx _ Hw).
  - injection Hw as _ ->. by rewrite !mk_hdr_length.
Qed.

(** ** The whole of [end_op] *)

(** The log as [end_op] leaves it to [commit], and as it leaves it in the end. *)
Definition last_op (l : logstate) : logstate := l <| lg_outstanding := lg_outstanding l - 1 |> <| lg_committing := true |>.
Definition op_ended (l : logstate) : logstate := last_op l <| lh_n := 0 |> <| lg_committing := false |>.

Lemma end_op_run e s s1 :
  held s = [] -> lg_outstanding (log s) = 1 -> lg_committing (log s) = false ->
  commit e (s <| log ::= last_op |>) = Ok tt e s1 -> caller pid s1 -> held s1 = [] ->
  end_op e s = Ok tt e (s1 <| log ::= (fun l => l <| lg_committing := false |>) |>
                           <| procs ::= fmap (map_threads (wake_thread CH_log)) |>).
Proof using.
  intros Hh Ho Hcm Hrun Hc Hh1. unfold end_op.
  kstep (acquire_free L_log e s ltac:(rewrite Hh; set_solver)). set (s2 := s <| held ::= cons L_log |>).
  unfold set_log, get_log.
  kstep (modifyK_run (fun s => s <| log ::= (fun l => l <| lg_outstanding := lg_outstanding l - 1 |>) |>) e s2).
  set (s3 := s2 <| log ::= _ |>). kstep (getsK_run (fun s => log s) e s3).
  assert (lg_committing (log s3) = false) as -> by done. assert (lg_outstanding (log s3) =? 0 = true) as -> by (cbn; by rewrite Ho).
  kstep (modifyK_run (fun s => s <| log ::= (fun l => l <| lg_committing := true |>) |>) e s3).
  set (s4 := s3 <| log ::= _ |>). assert (held s4 = L_log :: []) as Hh4 by (cbn; by rewrite Hh).
  kstep (release_top L_log e s4 [] Hh4).
  assert (s4 <| held := [] |> = s <| log ::= last_op |>) as ->.
  { change (s4 <| held := [] |>) with (s <| log ::= last_op |> <| held := [] |>). rewrite <- Hh. reflexivity. }
  kstep Hrun. kstep (acquire_free L_log e s1 ltac:(rewrite Hh1; set_solver)). set (s5 := s1 <| held ::= cons L_log |>).
  kstep (modifyK_run (fun s => s <| log ::= (fun l => l <| lg_committing := false |>) |>) e s5).
  set (s6 := s5 <| log ::= _ |>).
  assert (wakeup CH_log e s6 = Ok tt e (s6 <| procs ::= fmap (map_threads (wake_thread CH_log)) |>)) as Hwk.
  { apply wakeup_run; [by apply (table_ok_procs s1); [|apply Hc]|]. intros p. cbn. rewrite Hh1. set_solver. }
  kstep Hwk. rewrite (release_top _ _ _ []); [|cbn; by rewrite Hh1]. f_equal. rewrite <- Hh1. reflexivity.
Qed.
Hypothesis Hdev : 0 <= dev < 2 ^ 32.
Hypothesis Hstart : 0 <= start.
Hypothesis Hend : start + cap < 2 ^ 31.
Hypothesis Hcap : 0 <= cap <= LOGSIZE.

(** Run after a crash that came when only [ws1] had reached the disk [d], recovery leaves one of
    the two views. *)
Definition recovers_to (d : diskstate) (ws1 : list (Z * list Z)) (old new : Z -> list Z) : Prop :=
  forall pid1 e1 s1, rebooted pid1 dev start cap (apply_writes ws1 d) s1 ->
    exists s2, recover_from_log e1 s1 = Ok tt e1 s2 /\ hdr_n (dblock (disk s2) start) = 0 /\
      ((forall b, home start cap b -> dblock (disk s2) b = old b) \/
       (forall b, home start cap b -> dblock (disk s2) b = new b)).

Lemma tframe_rest s0 s : tframe s0 s -> rest s = rest s0.
Proof using. intros (ps & bs & l & -> & Hp & _). unfold rest. apply pair_eq. split; [reflexivity|exact Hp]. Qed.

Lemma end_op_spec s0 B v e s :
  txs pid dev start cap s0 B ∅ v s -> B <> [] -> (length B < NBUF)%nat ->
  lg_outstanding (log s) = 1 -> lg_committing (log s) = false ->
  sized_disk (disk s) -> (forall n, length (v n) = Z.to_nat BSIZE) -> hdr_n (dblock (disk s) start) = 0 ->
  exists ws s', end_op e s = Ok tt e s' /\ idle s' /\ rest s' = rest s /\ disk s' = apply_writes ws (disk s) /\
    (forall b, home start cap b -> dblock (disk s') b = v b) /\
    forall ws1 ws2, ws = ws1 ++ ws2 -> recovers_to (disk s) ws1 (dblock (disk s)) v.
Proof using All.
  intros Ht HB HN Ho Hcm Hsz Hvl Hz. destruct (txs_open _ _ _ _ _ _ _ _ Ht ltac:(lia)) as (live & Hopen & Honly).
  pose proof (txs_disk _ _ _ _ _ _ _ _ _ Ht) as Hd. rewrite <- Hd in Honly.
  pose proof Hopen as [Hc Hh Hrep Hl _ Hnd Hhome Hpin Hfree]. set (tx := tx_of B v) in *.
  set (sc := s <| log ::= last_op |>).
  assert (committing pid dev start cap tx live sc) as Hcom.
  { split; try done; [by apply (caller_ext pid s)|by apply (brep_ext dev live s)| | |].
    - destruct Hl. by split.
    - unfold tx, tx_of. by destruct B.
    - destruct Honly as [_ Hs _]. unfold tx, tx_of in Hs. rewrite length_fmap in Hs. lia. }
  destruct (commit_idle tx live e sc Hcom) as (s1 & Hrun & Hc1 & Hrep1 & Hl1 & Hr1 & Hz1 & Hs1).
  { intros n en Hn. destruct (only_live _ _ _ _ Honly n en Hn) as (? & _ & ?). done. }
  destruct (commit_atomic pid dev start cap tx live e sc Hcom) as (ws & s1' & Hrun' & Hdisk & Hall & Hcrash).
  rewrite Hrun in Hrun'. injection Hrun' as <-. change (disk sc) with (disk s) in *.
  assert (held s1 = []) as Hh1 by exact (eq_trans (f_equal (fun r => held (fst r)) Hr1) Hh).
  pose proof (end_op_run e s s1 Hh Ho Hcm Hrun Hc1 Hh1) as Hend_op.
  assert (forall b, dblock (apply_writes tx (disk s)) b = v b) as Hv by (intros b; by apply (only_tx_apply _ _ live)).
  exists ws. eexists. split; [exact Hend_op|]. split; [|split; [|split; [exact Hdisk|split]]].
  - split; try done.
    + apply caller_wakeup. by apply (caller_ext pid s1).
    + by apply (brep_ext dev ∅ s1).
    + change (log_at dev start cap [] ((log s1) <| lg_committing := false |>)). rewrite Hl1.
      destruct Hl as [H1 H2 H3 H4 H5 H6 H7]. split; try done; [by exists (lh_block (log s))|cbn; lia].
    + change (lg_outstanding (log s1) = 0). rewrite Hl1. cbn. lia.
    + apply Hs1; [|done]. apply Forall_fmap, Forall_forall. intros n _. apply Hvl.
  - transitivity (rest s1); [|exact Hr1]. unfold rest. apply pair_eq. split; [reflexivity|]. apply settled_map_threads.
  - intros b Hb. rewrite <- Hv. by apply Hall.
  - intros ws1 ws2 Hws pid1 e1 s2 Hboot. destruct (Hcrash ws1 ws2 pid1 e1 s2 Hws Hboot) as (s3 & Hr & Hn & Hw).
    exists s3. split; [done|]. split; [done|]. case_decide; [by left|right]. intros b Hb. rewrite <- Hv. by apply Hw.
Qed.
End Op.
