(* ===== verification/Console.v ===== *)
(** * The console and its UART: kernel/uart.c and kernel/console.c

    The device is the part of the state named [uart_dev]: a read of its line status
    register takes the next answer of [ut_idle], a write to its transmit register appends to
    [ut_out], a read of the receive register takes the next byte of [ut_rx]. *)

From stdpp Require Import base numbers list gmap strings.
From S2P Require Import Prelude Mem Printf Types Kernel Sched.

Definition get_uart : K uart := getsK (fun s => uart_dev s).
Definition set_uart (f : uart -> uart) : K unit := modifyK (fun s => s <| uart_dev ::= f |>).

(** [WriteReg(THR, c)] *)
Definition write_thr (c : Z) : K unit := set_uart (fun u => u <| ut_out ::= cons (u8 c) |>).

(** [ReadReg(LSR) & LSR_TX_IDLE]: a transmitter that has no more to say is busy. *)
Definition read_lsr_idle : K bool :=
  u <- get_uart ;;
  match ut_idle u with
  | [] => retK false
  | b :: rest => set_uart (fun u => u <| ut_idle := rest |>) ;;; retK b
  end.

(** It spins until the transmit register is empty, so the byte is sent when it returns. *)
Definition uartputc_sync (c : Z) : K unit := write_thr c.

Definition uartstart_body (_ : unit) : K (unit + unit) :=
  u <- get_uart ;;
  if ut_w u =? ut_r u then retK (inr tt) else
  idle <- read_lsr_idle ;;
  if negb idle then retK (inr tt) else
  let c := at_l (ut_buf u) (Z.to_nat (ut_r u mod UART_TX_BUF_SIZE)) in
  set_uart (fun u => u <| ut_r := u64 (ut_r u + 1) |>) ;;;
  wakeup CH_uart ;;;
  write_thr c ;;;
  retK (inl tt).

Definition uartstart : K unit :=
  n <- getsK (fun s => length (ut_idle (uart_dev s))) ;;
  whileK (S n) uartstart_body tt.

Definition uartputc (c : Z) : K unit :=
  acquire L_uart ;;;
  blockK (fun _ : unit =>
    u <- get_uart ;;
    if ut_w u =? u64 (ut_r u + UART_TX_BUF_SIZE) then
      sleep CH_uart L_uart ;;; retK (inl tt)
    else
      set_uart (fun u => u <| ut_buf ::= <[Z.to_nat (ut_w u mod UART_TX_BUF_SIZE) := u8 c]> |>) ;;;
      set_uart (fun u => u <| ut_w := u64 (ut_w u + 1) |>) ;;;
      uartstart ;;;
      release L_uart ;;;
      retK (inr tt)) tt.

Definition uartgetc : K Z :=
  u <- get_uart ;;
  match ut_rx u with
  | [] => retK (-1)
  | c :: rest => set_uart (fun u => u <| ut_rx := rest |>) ;;; retK (u8 c)
  end.

(** ** The console *)

Definition BACKSPACE : Z := 256.
(** [C(x)]: the control character of a letter. *)
Definition ctrl (x : Z) : Z := x - 64.

Definition consputc (c : Z) : K unit :=
  if c =? BACKSPACE then uartputc_sync 8 ;;; uartputc_sync 32 ;;; uartputc_sync 8
  else uartputc_sync c.

Definition printf (fmt : list Z) (args : list varg) : K unit :=
  acquire L_pr ;;;
  match format fmt args with
  | Some out => forK out consputc
  | None => ub "printf: missing argument"
  end ;;;
  release L_pr.

Definition get_cons : K console := getsK (fun s => cons_dev s).
Definition set_cons (f : console -> console) : K unit := modifyK (fun s => s <| cons_dev ::= f |>).

Definition consolewrite_body (n : Z) (st : Z * ioaddr) : K (Z * ioaddr + Z) :=
  let '(i, src) := st in
  if negb (i <? n) then retK (inr i) else
  r <- either_copyin src 1 ;;
  if fst r =? -1 then retK (inr i) else
  uartputc (at_l (snd r) 0) ;;;
  retK (inl (i + 1, src_advance src 1)).

Definition consolewrite (src : ioaddr) (n : Z) : K Z :=
  whileK (S (Z.to_nat n)) (consolewrite_body n) (0, src).

(** The loop of [consoleread] on the bytes still wanted and the destination; [Some r] when
    the function has returned [r] from inside it. *)
Definition consoleread_body (target : Z) (st : Z * ioaddr) : K (Z * ioaddr + option Z * Z * ioaddr) :=
  let '(n, dst) := st in
  if negb (0 <? n) then retK (inr (None, n, dst)) else
  c <- get_cons ;;
  if cn_r c =? cn_w c then
    p <- curproc ;;
    x <- get_proc p ;;
    if negb (p_killed x =? 0) then release L_cons ;;; retK (inr (Some (-1), n, dst))
    else sleep CH_cons L_cons ;;; retK (inl (n, dst))
  else
  let ch := at_l (cn_buf c) (Z.to_nat (cn_r c mod INPUT_BUF)) in
  set_cons (fun c => c <| cn_r := u32 (cn_r c + 1) |>) ;;;
  if ch =? ctrl 68 then
    (if n <? target then set_cons (fun c => c <| cn_r := u32 (cn_r c - 1) |>) else retK tt) ;;;
    retK (inr (None, n, dst))
  else
  r <- either_copyout dst [ch] ;;
  if r =? -1 then retK (inr (None, n, dst)) else
  let dst := dst_advance dst [ch] in
  let n := n - 1 in
  if ch =? 10 then retK (inr (None, n, dst)) else retK (inl (n, dst)).

Definition consoleread (dst : ioaddr) (n : Z) : K (Z * ioaddr) :=
  acquire L_cons ;;;
  r <- blockN (Z.to_nat n) (consoleread_body n) (n, dst) ;;
  let '(ret, rest, dst) := r in
  match ret with
  | Some v => retK (v, dst)
  | None => release L_cons ;;; retK (n - rest, dst)
  end.

(** kernel/proc.c's [procdump]. *)
Definition procdump : K unit :=
  printf [10] [] ;;;
  forK (seq 0 NPROC) (fun i =>
    p <- get_proc i ;;
    match p_state p with
    | UNUSED => retK tt
    | st =>
        let state := if decide (st = ZOMBIE) then str "zombie" else str "???" in
        printf (str "%d %s %s")
          [AInt (p_pid p); AStr (Some state); AStr (Some (until_nul (p_name p)))] ;;;
        printf [10] []
    end).

(** The [^U] loop: erase back to the previous newline or to the committed input. *)
Definition kill_line_body (_ : unit) : K (unit + unit) :=
  c <- get_cons ;;
  if negb (cn_e c =? cn_w c) &&
     negb (at_l (cn_buf c) (Z.to_nat (u32 (cn_e c - 1) mod INPUT_BUF)) =? 10)
  then set_cons (fun c => c <| cn_e := u32 (cn_e c - 1) |>) ;;;
       consputc BACKSPACE ;;;
       retK (inl tt)
  else retK (inr tt).

Definition consoleintr (c : Z) : K unit :=
  acquire L_cons ;;;
  (if c =? ctrl 80 then procdump
   else if c =? ctrl 85 then whileK (S (Z.to_nat INPUT_BUF)) kill_line_body tt
   else if (c =? ctrl 72) || (c =? 127) then
     k <- get_cons ;;
     if negb (cn_e k =? cn_w k) then
       set_cons (fun k => k <| cn_e := u32 (cn_e k - 1) |>) ;;; consputc BACKSPACE
     else retK tt
   else
     k <- get_cons ;;
     if negb (c =? 0) && (u32 (cn_e k - cn_r k) <? INPUT_BUF) then
       let c := if c =? 13 then 10 else c in
       consputc c ;;;
       set_cons (fun k => k <| cn_buf ::= <[Z.to_nat (cn_e k mod INPUT_BUF) := u8 c]> |>
                            <| cn_e := u32 (cn_e k + 1) |>) ;;;
       k <- get_cons ;;
       if (c =? 10) || (c =? ctrl 68) || (cn_e k =? u32 (cn_r k + INPUT_BUF)) then
         set_cons (fun k => k <| cn_w := cn_e k |>) ;;;
         wakeup CH_cons
       else retK tt
     else retK tt) ;;;
  release L_cons.

Definition uartintr_body (_ : unit) : K (unit + unit) :=
  c <- uartgetc ;;
  if c =? -1 then retK (inr tt) else consoleintr c ;;; retK (inl tt).

Definition uartintr : K unit :=
  n <- getsK (fun s => length (ut_rx (uart_dev s))) ;;
  whileK (S n) uartintr_body tt ;;;
  acquire L_uart ;;;
  uartstart ;;;
  release L_uart.

#[global] Arguments printf : simpl never.
#[global] Arguments uartputc : simpl never.
#[global] Arguments uartstart : simpl never.
