(* ===== verification/ConsoleFacts.v ===== *)
(** * The console is a line editor

    The ring of the console holds, from [cn_r] on, the input that readers may take ([ready]), up
    to [cn_w], and then the line that is being typed ([line]), up to [cn_e].  Whatever the UART
    delivers, [uartintr] does to the two what [edit] says. *)

From stdpp Require Import base numbers list gmap strings.
From S2P Require Import Prelude Ring Mem Printf Types Kernel Wp Kalloc Sched SchedFacts Console.

(** ** The abstract editor *)

Definition capacity : nat := Z.to_nat INPUT_BUF.

Definition edit (st : list Z * list Z) (c : Z) : list Z * list Z :=
  let '(ready, line) := st in
  if c =? ctrl 80 then st
  else if c =? ctrl 85 then (ready, [])
  else if (c =? ctrl 72) || (c =? 127) then (ready, removelast line)
  else if (c =? 0) || (capacity <=? length (ready ++ line))%nat then st
  else
    let c := if c =? 13 then 10 else c in
    let line := line ++ [c] in
    if (c =? 10) || (c =? ctrl 68) || (length (ready ++ line) =? capacity)%nat then (ready ++ line, [])
    else (ready, line).

(** ** The ring *)

Record cons_rep (c : console) (ready line : list Z) : Prop := {
  cr_buf : length (cn_buf c) = capacity;
  cr_r : 0 <= cn_r c < 2 ^ 32;
  cr_w : cn_w c = u32 (cn_r c + Z.of_nat (length ready));
  cr_e : cn_e c = u32 (cn_r c + Z.of_nat (length (ready ++ line)));
  cr_queue : ring_from capacity (u8 <$> cn_buf c) (cn_r c) (length (ready ++ line)) = ready ++ line;
  cr_cap : (length (ready ++ line) <= capacity)%nat;
  cr_line : 10 ∉ line }.

Lemma capacity_pos : (0 < capacity)%nat.
Proof. vm_compute. lia. Qed.
Lemma capacity_divides : (Z.of_nat capacity | 2 ^ 32).
Proof. exists (2 ^ 25). reflexivity. Qed.
Lemma capacity_small : Z.of_nat capacity = 128.
Proof. reflexivity. Qed.
Local Hint Resolve capacity_pos capacity_divides : core.

Lemma u32_add_eq r a b : 0 <= a <= 128 -> 0 <= b <= 128 -> u32 (r + a) = u32 (r + b) <-> a = b.
Proof.
  intros Ha Hb. split; [|by intros ->]. intros E.
  assert (u32 (u32 (r + a) - r) = u32 (u32 (r + b) - r)) as H by by rewrite E.
  unfold u32 in H. rewrite !Zminus_mod_idemp_l in H. replace (r + a - r) with a in H by lia. replace (r + b - r) with b in H by lia.
  by rewrite !Z.mod_small in H by lia.
Qed.

Section Rep.
Context (c : console) (ready line : list Z) (H : cons_rep c ready line).

Lemma rep_lengths : length (ready ++ line) = (length ready + length line)%nat /\ Z.of_nat (length ready + length line) <= 128.
Proof using H. pose proof (cr_cap _ _ _ H) as Hc. pose proof capacity_small. rewrite length_app in *. lia. Qed.

Lemma rep_line_empty : (cn_e c =? cn_w c) = true <-> line = [].
Proof using H.
  destruct rep_lengths as [Hl Hc]. rewrite Z.eqb_eq, (cr_e _ _ _ H), (cr_w _ _ _ H), u32_add_eq, Hl by lia.
  rewrite <- length_zero_iff_nil. lia.
Qed.

Lemma rep_size : u32 (cn_e c - cn_r c) = Z.of_nat (length (ready ++ line)).
Proof using H.
  destruct rep_lengths as [Hl Hc]. rewrite (cr_e _ _ _ H). unfold u32. rewrite Zminus_mod_idemp_l, Z.add_simpl_l.
  apply Z.mod_small. lia.
Qed.

(** Erasing the last character. *)
Lemma rep_erase l x : line = l ++ [x] -> cons_rep (c <| cn_e := u32 (cn_e c - 1) |>) ready l /\
  at_l (cn_buf c) (Z.to_nat (u32 (cn_e c - 1) mod INPUT_BUF)) = x /\ x <> 10.
Proof using H.
  intros El. destruct H as [H1 H2 H3 H4 H5 H6 H7]. rewrite El, app_assoc, length_app in *. cbn [length] in *.
  set (n := length (ready ++ l)) in *.
  assert (u32 (cn_e c - 1) = u32 (cn_r c + Z.of_nat n)) as Ee.
  { rewrite H4. unfold u32. rewrite Zminus_mod_idemp_l. f_equal. lia. }
  rewrite Nat.add_1_r, ring_from_snoc in H5. apply app_inj_tail in H5 as [H5 Hx]. split_and!.
  - split; try done; [lia|]. intros Hin. apply H7, elem_of_app. by left.
  - rewrite Ee. rewrite <- Hx. unfold u32. change INPUT_BUF with (Z.of_nat capacity). rewrite Z.mod_mod_divide by done.
    fold (slot capacity (cn_r c + Z.of_nat n)). pose proof (slot_lt capacity capacity_pos (cn_r c + Z.of_nat n)) as Hlt.
    destruct (lookup_lt_is_Some_2 (cn_buf c) (slot capacity (cn_r c + Z.of_nat n))) as [v Hv]; [lia|].
    unfold at_l. rewrite Hv. symmetry. apply list_lookup_total_correct. by rewrite list_lookup_fmap, Hv.
  - intros ->. apply H7, elem_of_app. right. constructor.
Qed.

(** The character is added to the line. *)
Definition store_char (x : Z) (k : console) : console :=
  k <| cn_buf ::= <[Z.to_nat (cn_e k mod INPUT_BUF) := u8 x]> |> <| cn_e := u32 (cn_e k + 1) |>.

Lemma rep_store x : (length (ready ++ line) < capacity)%nat -> u8 x = x ->
  let k := store_char x c in
  length (cn_buf k) = capacity /\ cn_r k = cn_r c /\ cn_w k = cn_w c /\ cn_e k = u32 (cn_r c + Z.of_nat (length (ready ++ line ++ [x]))) /\
  ring_from capacity (u8 <$> cn_buf k) (cn_r c) (length (ready ++ line ++ [x])) = ready ++ line ++ [x] /\
  (length (ready ++ line ++ [x]) <= capacity)%nat.
Proof using H.
  intros Hn Hx. destruct H as [H1 H2 H3 H4 H5 H6 _]. rewrite app_assoc, length_app. cbn [length].
  set (n := length (ready ++ line)) in *. unfold store_char. cbv [upd]. cbn [cn_buf cn_e cn_r cn_w].
  split_and!; [by rewrite length_insert|done|done| | |lia].
  - rewrite H4. unfold u32. rewrite Zplus_mod_idemp_l. f_equal. lia.
  - rewrite Nat.add_1_r, ring_from_snoc, H4. unfold u32. change INPUT_BUF with (Z.of_nat capacity). rewrite Z.mod_mod_divide by done.
    fold (slot capacity (cn_r c + Z.of_nat n)). rewrite list_fmap_insert, list_lookup_total_insert_eq.
    + rewrite !Hx. f_equal. rewrite ring_from_insert_ne; [done|]. intros k Hk. apply (slot_ne capacity); [done|lia|lia].
    + rewrite length_fmap, H1. apply slot_lt. done.
Qed.
End Rep.

(** ** The interrupt handlers *)

(** The state of the console and the input that the UART still has. *)
Record at_cons (s : kstate) (st : list Z * list Z) (rx : list Z) : Prop := {
  ac_rep : cons_rep (cons_dev s) st.1 st.2;
  ac_rx : ut_rx (uart_dev s) = rx;
  ac_table : table_ok s }.

Lemma wp_consputc x s st rx (Q : unit -> interference -> kstate -> Prop) e h :
  at_cons s st rx -> held s = h -> (forall s', at_cons s' st rx -> held s' = h -> Q tt e s') -> wp (consputc x) Q e s.
Proof.
  intros [H1 H2 H3] Hh HQ. unfold consputc. destruct (x =? BACKSPACE); unfold uartputc_sync, write_thr, set_uart; wp;
    (apply HQ; [by split|done]).
Qed.

Lemma wp_set_cons g s st st' rx (Q : unit -> interference -> kstate -> Prop) e h :
  at_cons s st rx -> held s = h -> cons_rep (g (cons_dev s)) st'.1 st'.2 ->
  (forall s', at_cons s' st' rx -> held s' = h -> cons_dev s' = g (cons_dev s) -> Q tt e s') -> wp (set_cons g) Q e s.
Proof. intros [H1 H2 H3] Hh Hg HQ. unfold set_cons. wp. apply HQ; [by split|done|done]. Qed.

Lemma wp_console_wakeup chan s st rx (Q : unit -> interference -> kstate -> Prop) e l :
  at_cons s st rx -> held s = [l] -> (forall p, l <> L_proc p) ->
  (forall s', at_cons s' st rx -> held s' = [l] -> uart_dev s' = uart_dev s -> Q tt e s') -> wp (wakeup chan) Q e s.
Proof.
  intros [H1 H2 H3] Hh Hl HQ. wprun wakeup_run; [done|rewrite Hh; intros p; apply not_elem_of_cons; split; [done|apply not_elem_of_nil]|].
  apply HQ; [|done|done]. split; [done|done|by apply table_ok_threads].
Qed.

Lemma wp_printf fmt args out s st rx (Q : unit -> interference -> kstate -> Prop) e h :
  format fmt args = Some out -> at_cons s st rx -> held s = h -> L_pr ∉ h ->
  (forall s', at_cons s' st rx -> held s' = h -> Q tt e s') -> wp (printf fmt args) Q e s.
Proof.
  intros Hf H Hh Hpr HQ. unfold printf. rewrite Hf. apply wp_bind, wp_acquire; [by rewrite Hh|]. apply wp_bind.
  apply (wp_forK_inv (fun s' => at_cons s' st rx /\ held s' = L_pr :: h)).
  - split; [by destruct H|]. cbn. by rewrite Hh.
  - intros x s1 _ [H1 Hh1]. apply (wp_consputc x s1 st rx _ e _ H1 Hh1). auto.
  - intros s1 [H1 Hh1]. eapply wp_release; [exact Hh1|]. apply HQ; [by destruct H1|done].
Qed.

Lemma wp_procdump s st rx (Q : unit -> interference -> kstate -> Prop) e h :
  at_cons s st rx -> held s = h -> L_pr ∉ h ->
  (forall s', at_cons s' st rx -> held s' = h -> Q tt e s') -> wp procdump Q e s.
Proof.
  intros H Hh Hpr HQ. unfold procdump. apply wp_bind, (wp_printf _ _ [10] s st rx _ e h); [done..|]. intros s1 H1 Hh1.
  apply (wp_forK_inv (fun s' => at_cons s' st rx /\ held s' = h)); [done| |by intros s2 [? ?]; auto].
  intros i s2 Hi [H2 Hh2]. apply elem_of_seq in Hi. destruct (ac_table _ _ _ H2) as [Hlen _].
  destruct (lookup_lt_is_Some_2 (procs s2) i) as [p Hp]; [lia|].
  apply wp_bind. eapply (wp_ok _ _ _ _ p); [unfold get_proc; by rewrite Hp|].
  destruct (p_state p); [by wp|..]; (eapply wp_bind, wp_printf; [cbn; reflexivity|exact H2|exact Hh2|exact Hpr|]);
    intros s3 H3 Hh3; (eapply wp_printf; [reflexivity|exact H3|exact Hh3|exact Hpr|]); auto.
Qed.

Definition in_cons (s : kstate) (st : list Z * list Z) (rx : list Z) : Prop := at_cons s st rx /\ held s = [L_cons].

(** [^U] erases the whole line. *)
Lemma kill_line_loop fuel ready line rx s e : in_cons s (ready, line) rx -> (length line < fuel)%nat ->
  wp (whileK fuel kill_line_body tt) (fun _ e' s' => e' = e /\ in_cons s' (ready, []) rx) e s.
Proof.
  revert line s. induction fuel as [|fuel IH]; intros line s [H Hh] Hf; [lia|]. apply wp_whileK. unfold kill_line_body, get_cons. wp.
  pose proof (ac_rep _ _ _ H) as Hr. cbn [fst snd] in Hr. destruct line as [|x l _] using rev_ind.
  - rewrite (proj2 (rep_line_empty _ _ _ Hr) eq_refl). cbn [negb andb]. by wp.
  - destruct (cn_e (cons_dev s) =? cn_w (cons_dev s)) eqn:E; [by apply (rep_line_empty _ _ _ Hr) in E; destruct l|].
    destruct (rep_erase _ _ _ Hr l x eq_refl) as (Hr' & -> & Hx). apply Z.eqb_neq in Hx. rewrite Hx. cbn [negb andb].
    apply wp_bind, (wp_set_cons _ s (ready, l ++ [x]) (ready, l) rx _ e [L_cons]); [done..|]. intros s1 H1 Hh1 _.
    apply wp_bind, (wp_consputc _ s1 (ready, l) rx _ e [L_cons]); [done..|]. intros s2 H2 Hh2. wp.
    apply (IH l); [done|]. rewrite length_app in Hf. cbn in Hf. lia.
Qed.

(** Backspace and delete. *)
Lemma wp_backspace ready line rx s e : in_cons s (ready, line) rx ->
  wp (k <- get_cons ;;
      if negb (cn_e k =? cn_w k) then
        set_cons (fun k => k <| cn_e := u32 (cn_e k - 1) |>) ;;; consputc BACKSPACE
      else retK tt) (fun _ e' s' => e' = e /\ in_cons s' (ready, removelast line) rx) e s.
Proof.
  intros [H Hh]. unfold get_cons. wp. pose proof (ac_rep _ _ _ H) as Hr. cbn [fst snd] in Hr.
  destruct line as [|x l _] using rev_ind.
  - rewrite (proj2 (rep_line_empty _ _ _ Hr) eq_refl). by wp.
  - destruct (cn_e (cons_dev s) =? cn_w (cons_dev s)) eqn:E; [by apply (rep_line_empty _ _ _ Hr) in E; destruct l|]. cbn [negb].
    destruct (rep_erase _ _ _ Hr l x eq_refl) as (Hr' & _). rewrite removelast_last.
    apply wp_bind, (wp_set_cons _ s (ready, l ++ [x]) (ready, l) rx _ e [L_cons]); [done..|]. intros s1 H1 Hh1 _.
    apply (wp_consputc _ s1 (ready, l) rx _ e [L_cons]); [done..|]. done.
Qed.

(** An ordinary character, once it is known to fit. *)
Lemma wp_store x ready line rx s e : in_cons s (ready, line) rx -> (length (ready ++ line) < capacity)%nat -> u8 x = x ->
  wp (set_cons (store_char x) ;;;
      k <- get_cons ;;
      if (x =? 10) || (x =? ctrl 68) || (cn_e k =? u32 (cn_r k + INPUT_BUF)) then
        set_cons (fun k => k <| cn_w := cn_e k |>) ;;; wakeup CH_cons
      else retK tt)
    (fun _ e' s' => e' = e /\
       in_cons s' (if (x =? 10) || (x =? ctrl 68) || (length (ready ++ line ++ [x]) =? capacity)%nat
                   then (ready ++ line ++ [x], []) else (ready, line ++ [x])) rx) e s.
Proof.
  intros [H Hh] Hn Hx. pose proof (ac_rep _ _ _ H) as Hr. cbn [fst snd] in Hr.
  destruct (rep_store _ _ _ Hr x Hn Hx) as (K1 & K2 & K3 & K4 & K5 & K6). set (k := store_char x (cons_dev s)) in *.
  unfold set_cons, get_cons. wp. change (cons_dev (s <| cons_dev ::= store_char x |>)) with k.
  assert ((cn_e k =? u32 (cn_r k + INPUT_BUF)) = (length (ready ++ line ++ [x]) =? capacity)%nat) as ->.
  { apply eq_true_iff_eq. rewrite Z.eqb_eq, Nat.eqb_eq, K4, K2. change INPUT_BUF with (Z.of_nat capacity).
    pose proof capacity_small. rewrite u32_add_eq by lia. lia. }
  pose proof (cr_r _ _ _ Hr) as R2.
  destruct ((x =? 10) || (x =? ctrl 68) || _) eqn:E.
  - wp. set (s1 := s <| cons_dev ::= store_char x |> <| cons_dev ::= _ |>).
    apply (wp_console_wakeup _ s1 (ready ++ line ++ [x], []) rx _ e L_cons); [|done|done|by intros s2 H2 Hh2 _].
    split; [|apply H|apply H]. cbn [fst snd s1]. change (cons_dev s1) with (k <| cn_w := cn_e k |>). clearbody k.
    split; cbn; rewrite ?app_nil_r, ?K2; try done. apply not_elem_of_nil.
  - wp. split; [done|]. split; [|done]. split; [|apply H|apply H]. change (cons_dev (s <| cons_dev ::= store_char x |>)) with k. clearbody k.
    cbn [fst snd]. split; rewrite ?K2; try done; [by rewrite K3; apply Hr|].
    intros [Hin|Hin%list_elem_of_singleton]%elem_of_app; [by apply (cr_line _ _ _ Hr)|]. subst x. done.
Qed.

(** One character. *)
Lemma consoleintr_edits c st rx s e : at_cons s st rx -> held s = [] -> 0 <= c < 256 ->
  wp (consoleintr c) (fun _ e' s' => e' = e /\ at_cons s' (edit st c) rx /\ held s' = []) e s.
Proof.
  intros H Hh Hc. unfold consoleintr. apply wp_bind, wp_acquire; [rewrite Hh; apply not_elem_of_nil|].
  set (s1 := s <| held ::= cons L_cons |>). destruct st as [ready line].
  assert (in_cons s1 (ready, line) rx) as Hin by (split; [by destruct H|cbn; by rewrite Hh]). clearbody s1. clear s H Hh.
  apply wp_bind. eapply (wp_mono _ (fun _ e' s' => e' = e /\ in_cons s' (edit (ready, line) c) rx)).
  2: { intros [] e2 s2 [-> [H2 Hh2]]. eapply wp_release; [exact Hh2|]. split_and!; [done|by destruct H2|done]. }
  pose proof (ac_rep _ _ _ (proj1 Hin)) as Hr. cbn [fst snd] in Hr. unfold edit.
  destruct (c =? ctrl 80).
  { destruct Hin as [H1 Hh1]. apply (wp_procdump s1 (ready, line) rx _ e [L_cons]); [done|done|set_solver|]. done. }
  destruct (c =? ctrl 85).
  { apply (kill_line_loop _ ready line); [done|]. destruct (rep_lengths _ _ _ Hr) as [_ ?]. unfold INPUT_BUF. lia. }
  destruct ((c =? ctrl 72) || (c =? 127)); [by apply wp_backspace|].
  unfold get_cons at 1. apply wp_bind, wp_gets. rewrite (rep_size _ _ _ Hr).
  replace (Z.of_nat (length (ready ++ line)) <? INPUT_BUF) with (negb (capacity <=? length (ready ++ line))%nat); cycle 1.
  { pose proof capacity_small. change INPUT_BUF with (Z.of_nat capacity).
    destruct (Nat.leb_spec capacity (length (ready ++ line))), (Z.ltb_spec (Z.of_nat (length (ready ++ line))) (Z.of_nat capacity)); done || lia. }
  destruct (c =? 0); [by wp|]. cbn [negb andb orb]. destruct (Nat.leb_spec capacity (length (ready ++ line))) as [|Hlt]; [by wp|]. cbn [negb].
  set (x := if c =? 13 then 10 else c). assert (u8 x = x) as Hx by (apply u8_small; unfold x; destruct (c =? 13); lia). clearbody x.
  destruct Hin as [H1 Hh1]. apply wp_bind, (wp_consputc x s1 (ready, line) rx _ e [L_cons]); [done..|]. intros s2 H2 Hh2.
  by apply wp_store.
Qed.

Lemma uartstart_loop st rx n s e : at_cons s st rx -> held s = [L_uart] -> (length (ut_idle (uart_dev s)) < n)%nat ->
  wp (whileK n uartstart_body tt) (fun _ e' s' => e' = e /\ at_cons s' st rx /\ held s' = [L_uart]) e s.
Proof.
  revert s. induction n as [|n IH]; intros s H Hh Hn; [lia|]. apply wp_whileK. unfold uartstart_body, get_uart. wp.
  destruct (_ =? _); [by wp|]. unfold read_lsr_idle, get_uart. wp. destruct (ut_idle (uart_dev s)) as [|b idle] eqn:Ei; [by wp|].
  unfold set_uart. wp. destruct b; [|wp; split_and!; [done|by destruct H|done]]. cbn [negb]. wp.
  set (s1 := s <| uart_dev ::= _ |> <| uart_dev ::= _ |>).
  apply (wp_console_wakeup _ s1 st rx _ e L_uart); [by destruct H|done|done|]. intros s2 H2 Hh2 Hu2.
  unfold write_thr, set_uart. wp. apply IH; [by destruct H2|done|]. cbn. rewrite Hu2. cbn in Hn |- *. lia.
Qed.

Lemma uartintr_loop n rx st s e : at_cons s st rx -> held s = [] -> (length rx < n)%nat ->
  wp (whileK n uartintr_body tt) (fun _ e' s' => e' = e /\ at_cons s' (foldl edit st (u8 <$> rx)) [] /\ held s' = []) e s.
Proof.
  revert rx st s. induction n as [|n IH]; intros rx st s H Hh Hn; [lia|]. apply wp_whileK.
  unfold uartintr_body, uartgetc, get_uart. wp. rewrite (ac_rx _ _ _ H). destruct rx as [|c rx]; [by wp|].
  unfold set_uart. wp. destruct (Z.eqb_spec (u8 c) (-1)) as [E|_]; [pose proof (u8_range c); lia|]. apply wp_bind.
  set (s1 := s <| uart_dev ::= _ |>). wpapply (consoleintr_edits (u8 c) st rx s1 e); [by destruct H|done|apply u8_range|].
  intros [] e2 s2 (-> & H2 & Hh2). wp. cbn [fmap list_fmap foldl]. apply IH; [done|done|]. cbn in Hn. lia.
Qed.

(** C21: The console is a line editor of bounded size.  Whatever the UART has received, in any
    number and with any control characters, [uartintr] takes all of it and leaves the input ring
    as the abstract editor says: printable characters are added to the line while the ring has
    room for them and dropped otherwise, so that unread input is never overwritten; a newline, a
    [^D] or a full ring hands the line to the readers; [^U] and backspace erase, and never beyond
    the line being typed.  The indices wrap at 32 bits. *)
Theorem uartintr_edits st s e : cons_rep (cons_dev s) st.1 st.2 -> table_ok s -> held s = [] ->
  wp uartintr (fun _ e' s' => e' = e /\ held s' = [] /\ ut_rx (uart_dev s') = [] /\
    let st' := foldl edit st (u8 <$> ut_rx (uart_dev s)) in cons_rep (cons_dev s') st'.1 st'.2) e s.
Proof.
  intros Hr Ht Hh. assert (at_cons s st (ut_rx (uart_dev s))) as H by done. unfold uartintr. apply wp_bind, wp_gets.
  apply wp_bind. wpapply (uartintr_loop _ _ st s e H Hh); [lia|]. intros [] e2 s2 (-> & H2 & Hh2).
  apply wp_bind, wp_acquire; [rewrite Hh2; apply not_elem_of_nil|]. set (s3 := s2 <| held ::= cons L_uart |>).
  apply wp_bind. unfold uartstart. wp. wpapply (uartstart_loop _ [] _ s3 e); [by destruct H2|cbn; by rewrite Hh2|lia|].
  intros [] e4 s4 (-> & H4 & Hh4). eapply wp_release; [exact Hh4|]. split_and!; [done|done|apply H4|apply H4].
Qed.

Definition demo_input : kstate := kstate0 demo_syms <| uart_dev := uart0 <| ut_rx := [104; 105; 127; 111; 13; 120] |> |>.

Lemma demo_input_ok : cons_rep (cons_dev demo_input) [] [] /\ table_ok demo_input.
Proof.
  split; [|exact demo_table_ok].
  split; try reflexivity; [vm_compute; split; [discriminate|reflexivity]|vm_compute; lia|apply not_elem_of_nil].
Qed.

(** The line "ho", from "hi", delete, "o" and return, and the first character of the next one. *)
Lemma uartintr_edits_witness :
  wp uartintr (fun _ e' s' => e' = [] /\ held s' = [] /\ ut_rx (uart_dev s') = [] /\
    cons_rep (cons_dev s') [104; 111; 10] [120]) [] demo_input.
Proof.
  destruct demo_input_ok as [H1 H2].
  eapply wp_mono; [exact (uartintr_edits ([], []) demo_input [] H1 H2 eq_refl)|].
  intros [] e' s' H. exact H.
Defined.
