(* ===== verification/File.v ===== *)
(** * Pipes and open files: kernel/pipe.c and kernel/file.c

    A pipe is named by the address of its page, a file by its index in [ftable.file].  The
    only entry of [devsw] is the console. *)

From stdpp Require Import base numbers list gmap strings.
From S2P Require Import Prelude Mem Types Kernel Kalloc Vm Sched Bio Log Fs Console.

Definition get_file (f : nat) : K file := fun e s =>
  match ftable s !! f with Some x => Ok x e s | None => UB "file index" end.
Definition set_file (f : nat) (g : file -> file) : K unit :=
  modifyK (fun s => s <| ftable ::= alter g f |>).

Definition get_pipe (pi : Z) : K pipe := fun e s =>
  match pipes s !! pi with Some x => Ok x e s | None => UB "pipe pointer" end.
Definition set_pipe (pi : Z) (g : pipe -> pipe) : K unit :=
  modifyK (fun s => s <| pipes ::= alter g pi |>).

(** ** Pipes *)

Definition pipeclose (pi : Z) (writable : bool) : K unit :=
  acquire (L_pipe pi) ;;;
  (if writable then
     set_pipe pi (fun p => p <| pi_writeopen := false |>) ;;; wakeup (CH_nread pi)
   else
     set_pipe pi (fun p => p <| pi_readopen := false |>) ;;; wakeup (CH_nwrite pi)) ;;;
  p <- get_pipe pi ;;
  if negb (pi_readopen p) && negb (pi_writeopen p) then
    release (L_pipe pi) ;;;
    modifyK (fun s => s <| pipes ::= delete pi |>) ;;;
    kfree pi
  else release (L_pipe pi).

(** The loop of [pipewrite]: [Some r] when the function has returned from inside it. *)
Definition pipewrite_body (pi addr n : Z) (pr : nat) (i : Z) : K (Z + option Z * Z) :=
  if negb (i <? n) then retK (inr (None, i)) else
  p <- get_pipe pi ;;
  x <- get_proc pr ;;
  if negb (pi_readopen p) || negb (p_killed x =? 0) then
    release (L_pipe pi) ;;; retK (inr (Some (-1), i))
  else if pi_nwrite p =? u32 (pi_nread p + PIPESIZE) then
    wakeup (CH_nread pi) ;;;
    sleep (CH_nwrite pi) (L_pipe pi) ;;;
    retK (inl i)
  else
    r <- copyin (p_pagetable x) (u64 (addr + i)) 1 ;;
    if fst r =? -1 then retK (inr (None, i)) else
    set_pipe pi (fun p =>
      p <| pi_data ::= <[Z.to_nat (pi_nwrite p mod PIPESIZE) := at_l (snd r) 0]> |>
        <| pi_nwrite := u32 (pi_nwrite p + 1) |>) ;;;
    retK (inl (i + 1)).

Definition pipewrite (pi addr n : Z) : K Z :=
  pr <- curproc ;;
  acquire (L_pipe pi) ;;;
  r <- blockN (Z.to_nat n) (pipewrite_body pi addr n pr) 0 ;;
  match fst r with
  | Some v => retK v
  | None =>
      wakeup (CH_nread pi) ;;;
      release (L_pipe pi) ;;;
      retK (snd r)
  end.

(** Waiting for data: [Some r] when the function returns [r] without it. *)
Definition piperead_wait (pi : Z) (pr : nat) (_ : unit) : K (unit + option Z) :=
  p <- get_pipe pi ;;
  if (pi_nread p =? pi_nwrite p) && pi_writeopen p then
    x <- get_proc pr ;;
    if negb (p_killed x =? 0) then release (L_pipe pi) ;;; retK (inr (Some (-1)))
    else sleep (CH_nread pi) (L_pipe pi) ;;; retK (inl tt)
  else retK (inr None).

Definition piperead_body (pi addr n : Z) (pr : nat) (i : Z) : K (Z + Z) :=
  if negb (i <? n) then retK (inr i) else
  p <- get_pipe pi ;;
  if pi_nread p =? pi_nwrite p then retK (inr i) else
  let ch := at_l (pi_data p) (Z.to_nat (pi_nread p mod PIPESIZE)) in
  set_pipe pi (fun p => p <| pi_nread := u32 (pi_nread p + 1) |>) ;;;
  x <- get_proc pr ;;
  r <- copyout (p_pagetable x) (u64 (addr + i)) [ch] ;;
  if r =? -1 then retK (inr i) else retK (inl (i + 1)).

Definition piperead (pi addr n : Z) : K Z :=
  pr <- curproc ;;
  acquire (L_pipe pi) ;;;
  w <- blockK (piperead_wait pi pr) tt ;;
  match w with
  | Some v => retK v
  | None =>
      i <- whileK (S (Z.to_nat n)) (piperead_body pi addr n pr) 0 ;;
      wakeup (CH_nwrite pi) ;;;
      release (L_pipe pi) ;;;
      retK i
  end.

(** ** Files *)

Definition fileinit : K unit := initlock L_ftable.

Definition filealloc : K (option nat) :=
  acquire L_ftable ;;;
  r <- searchK (seq 0 NFILE) (fun f =>
    x <- get_file f ;;
    if f_ref x =? 0 then
      set_file f (fun x => x <| f_ref := 1 |>) ;;;
      release L_ftable ;;;
      retK (Some f)
    else retK None) ;;
  match r with
  | Some f => retK (Some f)
  | None => release L_ftable ;;; retK None
  end.

Definition filedup (f : nat) : K nat :=
  acquire L_ftable ;;;
  x <- get_file f ;;
  if f_ref x <? 1 then panic "filedup" else
  set_file f (fun x => x <| f_ref := f_ref x + 1 |>) ;;;
  release L_ftable ;;;
  retK f.

Definition fileclose (f : nat) : K unit :=
  acquire L_ftable ;;;
  x <- get_file f ;;
  if f_ref x <? 1 then panic "fileclose" else
  set_file f (fun x => x <| f_ref := f_ref x - 1 |>) ;;;
  ff <- get_file f ;;
  if 0 <? f_ref ff then release L_ftable else
  set_file f (fun x => x <| f_ref := 0 |> <| f_type := FD_NONE |>) ;;;
  release L_ftable ;;;
  match f_type ff with
  | FD_PIPE => pipeclose (f_pipe ff) (f_writable ff)
  | FD_INODE | FD_DEVICE =>
      begin_op ;;;
      match f_ip ff with Some ip => iput ip | None => ub "iput(0)" end ;;;
      end_op
  | FD_NONE => retK tt
  end.

Definition pipealloc : K (Z * option nat * option nat) :=
  f0 <- filealloc ;;
  f1 <- (match f0 with Some _ => filealloc | None => retK None end) ;;
  pi <- (match f1 with Some _ => kalloc | None => retK 0 end) ;;
  match f0, f1 with
  | Some a, Some b =>
      if pi =? 0 then fileclose a ;;; fileclose b ;;; retK (-1, f0, f1) else
      modifyK (fun s => s <| pipes ::=
        <[pi := Pipe (replicate (Z.to_nat PIPESIZE) 5) 0 0 true true]> |>) ;;;
      initlock (L_pipe pi) ;;;
      set_file a (fun x => x <| f_type := FD_PIPE |> <| f_readable := true |>
                            <| f_writable := false |> <| f_pipe := pi |>) ;;;
      set_file b (fun x => x <| f_type := FD_PIPE |> <| f_readable := false |>
                            <| f_writable := true |> <| f_pipe := pi |>) ;;;
      retK (0, f0, f1)
  | Some a, None => fileclose a ;;; retK (-1, f0, f1)
  | None, _ => retK (-1, f0, f1)
  end.

(** [struct stat] in memory; the four bytes of padding before [size] are unspecified. *)
Definition stat_bytes (st : stat) : list Z :=
  bytes_of 4 (u32 (st_dev st)) ++ bytes_of 4 (st_ino st) ++ bytes_of 2 (u16 (st_type st)) ++
  bytes_of 2 (u16 (st_nlink st)) ++ [0; 0; 0; 0] ++ bytes_of 8 (st_size st).

Definition filestat (f : nat) (addr : Z) : K Z :=
  p <- curproc ;;
  x <- get_file f ;;
  match f_type x with
  | FD_INODE | FD_DEVICE =>
      ilock (f_ip x) ;;;
      st <- (match f_ip x with Some ip => stati ip | None => ub "stati(0)" end) ;;
      iunlock (f_ip x) ;;;
      y <- get_proc p ;;
      r <- copyout (p_pagetable y) addr (stat_bytes st) ;;
      retK (if r <? 0 then -1 else 0)
  | _ => retK (-1)
  end.

Definition fileread (f : nat) (addr n : Z) : K Z :=
  x <- get_file f ;;
  if negb (f_readable x) then retK (-1) else
  match f_type x with
  | FD_PIPE => piperead (f_pipe x) addr n
  | FD_DEVICE =>
      if (f_major x <? 0) || (NDEV <=? f_major x) || negb (f_major x =? CONSOLE) then retK (-1)
      else r <- consoleread (User addr) n ;; retK (fst r)
  | FD_INODE =>
      ilock (f_ip x) ;;;
      x <- get_file f ;;
      r <- (match f_ip x with
            | Some ip => readi ip (User addr) (f_off x) (u32 n)
            | None => ub "readi(0)" end) ;;
      (if 0 <? fst r then set_file f (fun x => x <| f_off := u32 (f_off x + fst r) |>)
       else retK tt) ;;;
      iunlock (f_ip x) ;;;
      retK (fst r)
  | FD_NONE => panic "fileread"
  end.

(** At most three blocks per transaction. *)
Definition filewrite_max : Z := ((MAXOPBLOCKS - 1 - 1 - 2) / 2) * BSIZE.

Definition filewrite_body (f : nat) (addr n : Z) (i : Z) : K (Z + Z) :=
  if negb (i <? n) then retK (inr i) else
  let n1 := Z.min (n - i) filewrite_max in
  x <- get_file f ;;
  match f_ip x with
  | None => ub "writei(0)"
  | Some ip =>
      begin_op ;;;
      ilock (Some ip) ;;;
      x <- get_file f ;;
      r <- writei ip (User (u64 (addr + i))) (f_off x) n1 ;;
      (if 0 <? r then set_file f (fun x => x <| f_off := u32 (f_off x + r) |>) else retK tt) ;;;
      iunlock (Some ip) ;;;
      end_op ;;;
      if negb (r =? n1) then retK (inr i) else retK (inl (i + r))
  end.

Definition filewrite (f : nat) (addr n : Z) : K Z :=
  x <- get_file f ;;
  if negb (f_writable x) then retK (-1) else
  match f_type x with
  | FD_PIPE => pipewrite (f_pipe x) addr n
  | FD_DEVICE =>
      if (f_major x <? 0) || (NDEV <=? f_major x) || negb (f_major x =? CONSOLE) then retK (-1)
      else consolewrite (User addr) n
  | FD_INODE =>
      i <- whileK (S (Z.to_nat n)) (filewrite_body f addr n) 0 ;;
      retK (if i =? n then n else -1)
  | FD_NONE => panic "filewrite"
  end.

#[global] Arguments fileclose : simpl never.
#[global] Arguments filedup : simpl never.
#[global] Arguments filealloc : simpl never.
#[global] Arguments pipewrite : simpl never.
#[global] Arguments piperead : simpl never.
#[global] Arguments pipeclose : simpl never.
