(* ===== verification/PipeFacts.v ===== *)
(** * Pipes deliver the bytes written to them, once and in order

    The buffer of a pipe is a ring whose content is [pipe_queue].  [pipewrite] appends to the
    queue and [piperead] takes from its front; each of them sleeps when it has to, and what
    the other threads do meanwhile is known only by what the other end of a pipe does: a
    reader takes some of the oldest bytes ([reads_some]), a writer supplies bytes or closes its
    end ([supplies]). *)

From stdpp Require Import base numbers list gmap strings.
From S2P Require Import Prelude Ring Mem Types Kernel Wp Riscv Kalloc Vm VmFacts Copy Sched SchedFacts Bio Log Fs Console File.

(** ** The ring *)

Definition pipe_queue (x : pipe) : list Z :=
  ring_queue (Z.to_nat PIPESIZE) (2 ^ 32) (u8 <$> pi_data x) (pi_nread x) (pi_nwrite x).

Record pipe_ok (x : pipe) : Prop := {
  po_data : length (pi_data x) = Z.to_nat PIPESIZE;
  po_nread : 0 <= pi_nread x < 2 ^ 32;
  po_nwrite : 0 <= pi_nwrite x < 2 ^ 32;
  po_len : (length (pipe_queue x) <= Z.to_nat PIPESIZE)%nat }.

Definition pipe_put (b : Z) (x : pipe) : pipe :=
  x <| pi_data ::= <[Z.to_nat (pi_nwrite x mod PIPESIZE) := b]> |> <| pi_nwrite := u32 (pi_nwrite x + 1) |>.
Definition pipe_get (x : pipe) : pipe := x <| pi_nread := u32 (pi_nread x + 1) |>.

Lemma pipesize_pos : (0 < Z.to_nat PIPESIZE)%nat.
Proof. unfold PIPESIZE. lia. Qed.
Lemma pipesize_divides : (Z.of_nat (Z.to_nat PIPESIZE) | 2 ^ 32).
Proof. exists (2 ^ 23). reflexivity. Qed.
Lemma pipesize_small : Z.of_nat (Z.to_nat PIPESIZE) < 2 ^ 32.
Proof. reflexivity. Qed.
Local Hint Resolve pipesize_pos pipesize_divides pipesize_small : core.

(** The test of [pipewrite] for a full buffer, and that of [piperead] for an empty one. *)
Lemma pipe_full x : pipe_ok x ->
  (pi_nwrite x =? u32 (pi_nread x + PIPESIZE)) = true <-> length (pipe_queue x) = Z.to_nat PIPESIZE.
Proof.
  intros [_ Hr Hw Hl]. rewrite Z.eqb_eq. unfold pipe_queue, u32 in *. rewrite length_ring_queue in *.
  unfold pending in *. unfold PIPESIZE in *. pose proof (Z.mod_pos_bound (pi_nwrite x - pi_nread x) (2 ^ 32)). split.
  - intros ->. rewrite Zminus_mod_idemp_l. replace (pi_nread x + 512 - pi_nread x) with 512 by lia. reflexivity.
  - intros H1. assert ((pi_nwrite x - pi_nread x) mod 2 ^ 32 = 512) as H2 by lia.
    rewrite <- H2, Zplus_mod_idemp_r. replace (pi_nread x + _) with (pi_nwrite x) by lia. by rewrite Z.mod_small.
Qed.

Lemma pipe_empty x : pipe_ok x -> (pi_nread x =? pi_nwrite x) = true <-> pipe_queue x = [].
Proof.
  intros [_ Hr Hw _]. rewrite Z.eqb_eq. rewrite <- length_zero_iff_nil. unfold pipe_queue.
  rewrite length_ring_queue. symmetry. by apply pending_same.
Qed.

Lemma pipe_put_queue b x : pipe_ok x -> length (pipe_queue x) <> Z.to_nat PIPESIZE ->
  pipe_ok (pipe_put b x) /\ pipe_queue (pipe_put b x) = pipe_queue x ++ [u8 b].
Proof.
  intros [Hd Hr Hw Hl] Hn.
  assert (pipe_queue (pipe_put b x) = pipe_queue x ++ [u8 b]) as Hq.
  { unfold pipe_queue, pipe_put in *. cbv [upd]. cbn -[ring_queue Z.pow PIPESIZE]. rewrite list_fmap_insert.
    apply (ring_push (Z.to_nat PIPESIZE) (2 ^ 32)); auto; [by rewrite length_fmap|].
    cbn -[ring_queue Z.pow PIPESIZE]. lia. }
  split; [|done]. split; [|done|apply u32_range|].
  - cbv [upd]. cbn. by rewrite length_insert.
  - rewrite Hq, length_app. cbn -[PIPESIZE]. lia.
Qed.

Lemma pipe_get_queue x b q : pipe_ok x -> pipe_queue x = b :: q ->
  at_l (pi_data x) (Z.to_nat (pi_nread x mod PIPESIZE)) = b /\ pipe_ok (pipe_get x) /\ pipe_queue (pipe_get x) = q.
Proof.
  intros Hok Hq. destruct Hok as [Hd Hr Hw Hl] eqn:E. clear E.
  assert (pi_nread x <> pi_nwrite x) as Hne.
  { intros H. apply Z.eqb_eq, pipe_empty in H; [|done]. congruence. }
  unfold pipe_queue in Hq. rewrite ring_pop in Hq by auto. injection Hq as <- <-.
  assert (Z.to_nat (pi_nread x mod PIPESIZE) < length (pi_data x))%nat as Hlt.
  { rewrite Hd. apply (slot_lt (Z.to_nat PIPESIZE)). auto. }
  split; [|split; [|done]].
  - destruct (lookup_lt_is_Some_2 _ _ Hlt) as [v Hv]. unfold at_l. rewrite Hv. symmetry.
    apply list_lookup_total_correct. unfold slot.
    change (Z.of_nat (Z.to_nat PIPESIZE)) with PIPESIZE. by rewrite list_lookup_fmap, Hv.
  - split; [done|apply u32_range|done|]. unfold pipe_queue in Hl. rewrite ring_pop in Hl by auto.
    apply (le_S_n _ _ (le_S _ _ Hl)).
Qed.

(** ** One end of a pipe *)

Section Endpoint.
Context (pi : Z) (i j : nat) (pt addr : Z) (n : nat).
Implicit Types (s : kstate) (x : pipe).

(** Thread [j] of process [i], which was not killed, has [n] bytes at [addr]; the pipe [pi] is [x]. *)
Definition caller (ps : list proc) : Prop :=
  exists p, ps !! i = Some p /\ p_killed p = 0 /\ p_pagetable p = pt /\ is_Some (p_threads p !! j).

Record endpoint (s : kstate) (x : pipe) : Prop := {
  ep_caller : caller (procs s);
  ep_table : table_ok s;
  ep_end : 0 < sym_end (syms s);
  ep_pt : exists l, pt_wf s pt l;
  ep_mapped : mapped (mem s) pt addr n;
  ep_pipe : pipes s !! pi = Some x;
  ep_ok : pipe_ok x }.

(** The caller holds the lock of the pipe. *)
Record inside (s : kstate) : Prop := {
  in_held : held s = [L_pipe pi];
  in_proc : c_proc s = Some i;
  in_thread : c_thread s = Some (i, j) }.

Lemma endpoint_frame s s' x :
  endpoint s x -> mem s' = mem s -> syms s' = syms s -> pipes s' = pipes s -> table_ok s' -> caller (procs s') ->
  endpoint s' x.
Proof.
  intros [H1 H2 H3 [l H4] H5 H6 H7] Hm Hs Hp Ht Hc. split; rewrite ?Hm, ?Hs, ?Hp; try done.
  exists l. by eapply pt_wf_ext.
Qed.

Lemma caller_threads k g ps : caller ps -> caller (alter (alter_thread k g) i ps).
Proof.
  intros (p & Hp & Hk & Hpt & Hj). exists (alter_thread k g p). rewrite list_lookup_alter_eq, Hp.
  do 3 (split; [done|]). cbn. destruct (decide (k = j)) as [->|].
  - rewrite list_lookup_alter_eq. by apply fmap_is_Some.
  - by rewrite list_lookup_alter_ne.
Qed.

Lemma caller_map g ps : caller ps -> caller (map_threads g <$> ps).
Proof.
  intros (p & Hp & Hk & Hpt & Hj). exists (map_threads g p). rewrite list_lookup_fmap, Hp.
  do 3 (split; [done|]). cbn. rewrite list_lookup_fmap. by apply fmap_is_Some.
Qed.

Lemma endpoint_thread s x k g : endpoint s x -> endpoint (s <| procs ::= alter (alter_thread k g) i |>) x.
Proof.
  intros H. eapply endpoint_frame; [exact H|done|done|done| |].
  - apply table_ok_alter, H.
  - cbn. apply caller_threads, H.
Qed.

Lemma endpoint_held s x h : endpoint s x -> endpoint (s <| held := h |>) x.
Proof. intros H. eapply endpoint_frame; [exact H|done|done|done|apply H|apply H]. Qed.

Lemma endpoint_set s x g : endpoint s x -> pipe_ok (g x) -> endpoint (s <| pipes ::= alter g pi |>) (g x).
Proof.
  intros [H1 H2 H3 [l H4] H5 H6 H7] Hg. split; try done; [exists l; by apply (pt_wf_ext s)|]. cbn. by rewrite lookup_alter_eq, H6.
Qed.

Lemma wp_wakeup_end chan s x (Q : unit -> interference -> kstate -> Prop) e :
  endpoint s x -> inside s -> (forall s', endpoint s' x -> inside s' -> mem s' = mem s -> Q tt e s') -> wp (wakeup chan) Q e s.
Proof.
  intros H Hin HQ. wprun wakeup_run; [apply H|rewrite (in_held _ Hin); set_solver|].
  apply HQ; [|by destruct Hin|done]. eapply endpoint_frame; [exact H|done|done|done|apply table_ok_threads, H|].
  cbn. apply caller_map, H.
Qed.

Lemma wp_get_pipe s x (Q : pipe -> interference -> kstate -> Prop) e : endpoint s x -> Q x e s -> wp (get_pipe pi) Q e s.
Proof. intros H HQ. unfold wp, get_pipe. by rewrite (ep_pipe _ _ H). Qed.

Lemma wp_get_caller s x (Q : proc -> interference -> kstate -> Prop) e :
  endpoint s x -> (forall p, p_killed p = 0 -> p_pagetable p = pt -> Q p e s) -> wp (get_proc i) Q e s.
Proof. intros H HQ. destruct (ep_caller _ _ H) as (p & Hp & Hk & Hpt & _). unfold wp, get_proc. rewrite Hp. by apply HQ. Qed.

(** [sleep] on one of the channels of the pipe: the next turn [g] of the others happens, and
    the lock is held again. *)
Lemma wp_sleep_end chan s x (R : gmap Z Z -> pipe -> Prop) (Q : unit -> interference -> kstate -> Prop) g e :
  endpoint s x -> inside s ->
  (forall s', endpoint s' x -> mem s' = mem s -> exists y, endpoint (g s') y /\ R (mem (g s')) y) ->
  (forall s' y, endpoint s' y -> R (mem s') y -> inside s' -> Q tt e s') -> wp (sleep chan (L_pipe pi)) Q (g :: e) s.
Proof.
  intros H Hin Hg HQ. destruct (ep_caller _ _ H) as (p & Hp & _ & _ & [t Ht]).
  assert (running s i j p t) as Hr by (destruct Hin; by split).
  unfold wp. rewrite (sleep_run chan (L_pipe pi) i j p t) by (done || apply Hin).
  destruct (Hg (sleeping chan i j s)) as (y & Hy & HR); [|done|].
  { apply (endpoint_thread (s <| held := [L_proc i] |>)). by apply endpoint_held. }
  apply (HQ _ y); [|done|done]. apply endpoint_thread. unfold resume. apply endpoint_thread.
  eapply endpoint_frame; [exact Hy|done..|apply Hy|apply Hy].
Qed.

(** ** [pipewrite] *)

(** What the other threads do while the writer sleeps on a full pipe: readers have taken the
    [k] oldest bytes, the reading end is open, the writer's memory is unchanged. *)
Definition reads_exactly (k : nat) (g : kstate -> kstate) : Prop :=
  (0 < k <= Z.to_nat PIPESIZE)%nat /\
  forall s x, endpoint s x -> pi_readopen x = true -> length (pipe_queue x) = Z.to_nat PIPESIZE ->
  exists y, endpoint (g s) y /\ pi_readopen y = true /\ ubytes (mem (g s)) pt addr n = ubytes (mem s) pt addr n /\
    pipe_queue y = drop k (pipe_queue x).

(** Since the queue was [q], [k] bytes were written and the readers have taken [d]. *)
Definition wrote (q data : list Z) (k d : nat) (m : gmap Z Z) (y : pipe) : Prop :=
  pi_readopen y = true /\ ubytes m pt addr n = data /\ (d <= length (q ++ take k data))%nat /\
  pipe_queue y = drop d (q ++ take k data).

Lemma mapped_at m k : 0 <= addr -> (k < n)%nat -> mapped m pt addr n ->
  mapped m pt (addr + Z.of_nat k) 1 /\ u64 (addr + Z.of_nat k) = addr + Z.of_nat k.
Proof.
  intros Ha Hk Hm. split.
  - intros d Hd. rewrite <- Z.add_assoc. apply Hm. lia.
  - destruct (Hm (Z.of_nat k) ltac:(lia)) as [a E]. apply u64_small. destruct (decide (addr + Z.of_nat k < MAXVA)).
    + change MAXVA with (2 ^ 38) in *. lia.
    + rewrite upa_ge_MAXVA in E; [done|lia].
Qed.

Lemma ubytes_at m k : (k < n)%nat -> exists b, ubytes m pt addr n !! k = Some b /\
  u8 b = b /\ ubytes m pt (addr + Z.of_nat k) 1 = [b].
Proof.
  intros Hk. exists (ubyte m pt (addr + Z.of_nat k)). split; [|split; [|done]].
  - replace n with (k + S (n - S k))%nat by lia. rewrite ubytes_app, lookup_app_r; rewrite ubytes_length; [|done].
    by rewrite Nat.sub_diag.
  - unfold ubyte. destruct (upa _ _ _); [|done]. apply u8_small, rd_range.
Qed.

Lemma wp_copyin_byte s x k (Q : Z * list Z -> interference -> kstate -> Prop) e :
  0 <= addr -> (k < n)%nat -> endpoint s x ->
  (forall b, ubytes (mem s) pt addr n !! k = Some b -> u8 b = b -> Q (0, [b]) e s) ->
  wp (copyin pt (u64 (addr + Z.of_nat k)) 1) Q e s.
Proof.
  intros Ha Hk H HQ. destruct (mapped_at (mem s) k Ha Hk (ep_mapped _ _ H)) as [Hm ->].
  destruct (ubytes_at (mem s) k Hk) as (b & Hb & Hu & E). destruct (ep_pt _ _ H) as [l Hl].
  destruct (copyin_loop 2 1 (addr + Z.of_nat k) [] pt l e s) as (r & bs & Hr & Hc); [lia|lia|apply H|done|].
  destruct Hc as [(-> & -> & _)|[_ []]]; [|done]. wprun Hr. rewrite E. by apply HQ.
Qed.

(** An iteration that finds room stores the next byte. *)
Lemma wp_write_byte s x e q data k d :
  0 <= addr -> (k < n)%nat -> endpoint s x -> inside s -> length (pipe_queue x) <> Z.to_nat PIPESIZE ->
  wrote q data k d (mem s) x ->
  wp (pipewrite_body pi addr (Z.of_nat n) i (Z.of_nat k))
    (fun r e' s' => r = inl (Z.of_nat (S k)) /\ e' = e /\ inside s' /\
       exists y, endpoint s' y /\ wrote q data (S k) d (mem s') y) e s.
Proof.
  intros Ha Hk H Hin Hn (Ho & Hd & Hl & Hq). unfold pipewrite_body. rewrite (proj2 (Z.ltb_lt _ _)) by lia. cbn [negb].
  apply wp_bind, (wp_get_pipe s x); [done|]. apply wp_bind, (wp_get_caller s x); [done|]. intros p Hp Hpt.
  rewrite Ho, Hp. cbn [negb orb Z.eqb]. destruct (_ =? _) eqn:E; [by apply pipe_full in E; [|apply H]|].
  apply wp_bind. rewrite Hpt. apply (wp_copyin_byte s x); [done..|]. intros b Hb Hu. cbn [fst snd Z.eqb].
  destruct (pipe_put_queue b x (ep_ok _ _ H) Hn) as [Hok Hput]. wp.
  split; [f_equal; lia|]. split; [done|]. split; [by destruct Hin|]. exists (pipe_put b x).
  replace (at_l [b] 0) with b by (unfold at_l; cbn; done).
  split; [by apply (endpoint_set s x (pipe_put b))|]. split; [done|]. split; [done|].
  rewrite (take_S_r _ _ b) by (by rewrite <- Hd). rewrite app_assoc, length_app, Hput, Hq, Hu. cbn [length].
  split; [lia|]. by rewrite (drop_app_le (q ++ take k data)).
Qed.

(** An iteration that finds the pipe full wakes up the readers and sleeps until they have
    taken [c] bytes. *)
Lemma wp_write_wait s x g e q data k d c :
  (k < n)%nat -> endpoint s x -> inside s -> length (pipe_queue x) = Z.to_nat PIPESIZE -> reads_exactly c g ->
  wrote q data k d (mem s) x ->
  wp (pipewrite_body pi addr (Z.of_nat n) i (Z.of_nat k))
    (fun r e' s' => r = inl (Z.of_nat k) /\ e' = e /\ inside s' /\
       exists y, endpoint s' y /\ wrote q data k (d + c) (mem s') y /\ length (pipe_queue y) <> Z.to_nat PIPESIZE) (g :: e) s.
Proof.
  intros Hk H Hin Hf [Hc Hg] (Ho & Hd & Hl & Hq). unfold pipewrite_body. rewrite (proj2 (Z.ltb_lt _ _)) by lia. cbn [negb].
  apply wp_bind, (wp_get_pipe s x); [done|]. apply wp_bind, (wp_get_caller s x); [done|]. intros p Hp Hpt.
  rewrite Ho, Hp. cbn [negb orb Z.eqb]. rewrite (proj2 (pipe_full x (ep_ok _ _ H)) Hf).
  apply wp_bind, (wp_wakeup_end _ s x); [done..|]. intros s1 H1 Hin1 Hm1.
  apply wp_bind, (wp_sleep_end _ s1 x (fun m y => wrote q data k (d + c) m y /\ length (pipe_queue y) <> Z.to_nat PIPESIZE)); [done..| |].
  - intros s2 H2 Hm2. destruct (Hg s2 x H2 Ho Hf) as (y & Hy & Hyo & Hyd & Hyq). exists y. split; [done|].
    rewrite Hq, length_drop in Hf. split; [|rewrite Hyq, Hq, !length_drop, Hf; lia]. split; [done|].
    split; [by rewrite Hyd, Hm2, Hm1|]. split; [lia|]. by rewrite Hyq, Hq, drop_drop.
  - intros s3 y Hy [Hw Hl3] Hin3. wp. eauto 10.
Qed.

(** The writer sleeps at most once per byte. *)
Definition turns_needed (x : pipe) (k : nat) : nat :=
  (n - k - if decide (length (pipe_queue x) = Z.to_nat PIPESIZE) then 0 else 1)%nat.

(** After [u] of the turns [e], in which the readers take [cs] bytes each. *)
Lemma write_loop fuel k d e cs s x q data :
  (n - k + length e < fuel)%nat -> (k <= n)%nat -> (turns_needed x k <= length e)%nat -> Forall2 reads_exactly cs e ->
  0 <= addr -> endpoint s x -> inside s -> wrote q data k d (mem s) x ->
  wp (whileK fuel (pipewrite_body pi addr (Z.of_nat n) i) (Z.of_nat k))
    (fun r e' s' => r = (None, Z.of_nat n) /\ inside s' /\ exists u y, e' = drop u e /\ (u <= length e)%nat /\
       endpoint s' y /\ wrote q data n (d + sum_list (take u cs)) (mem s') y) e s.
Proof.
  revert k d e cs s x. induction fuel as [|fuel IH]; intros k d e cs s x Hf Hk He HF Ha H Hin Hw; [lia|]. apply wp_whileK.
  destruct (decide (k = n)) as [->|Hne].
  { unfold pipewrite_body. rewrite Z.ltb_irrefl. wp. split; [done|]. split; [done|]. exists 0%nat, x. cbn.
    rewrite Nat.add_0_r. split; [done|]. split; [lia|done]. }
  unfold turns_needed in He. destruct (decide (length (pipe_queue x) = _)) as [E|E].
  - destruct e as [|g e]; cbn [length] in *; [lia|]. inversion HF as [|c ? cs' ? Hg HF']; subst.
    wpapply (wp_write_wait s x g e q data k d c); [lia|done..|]. intros r e1 s1 (-> & -> & Hin1 & y & Hy & Hwy & Hly).
    eapply wp_mono; [eapply (IH k (d + c)%nat e cs' s1 y); try done; [lia|unfold turns_needed; rewrite decide_False by done; lia]|].
    intros r e2 s2 (-> & Hin2 & u & z & -> & Hu & Hz & Hwz). split; [done|]. split; [done|]. exists (S u), z. cbn.
    rewrite Nat.add_assoc. split; [done|]. split; [lia|done].
  - wpapply (wp_write_byte s x e q data k d); [lia|lia|done..|]. intros r e1 s1 (-> & -> & Hin1 & y & Hy & Hwy).
    eapply IH; try done; [lia|lia|]. unfold turns_needed. destruct (decide _); lia.
Qed.

Definition enters (s : kstate) : Prop := held s = [] /\ c_proc s = Some i /\ c_thread s = Some (i, j).

Lemma wp_enter s x (Q : unit -> interference -> kstate -> Prop) e :
  endpoint s x -> enters s -> (forall s', endpoint s' x -> inside s' -> mem s' = mem s -> Q tt e s') ->
  wp (acquire (L_pipe pi)) Q e s.
Proof.
  intros H (Hh & Hp & Ht) HQ. apply wp_acquire; [rewrite Hh; set_solver|]. apply HQ; [|split; [|done..]|done].
  - replace (s <| held ::= cons (L_pipe pi) |>) with (s <| held := [L_pipe pi] |>) by (cbv [upd]; by rewrite Hh).
    by apply endpoint_held.
  - cbn. by rewrite Hh.
Qed.

Lemma wp_leave s x (Q : unit -> interference -> kstate -> Prop) e :
  endpoint s x -> inside s -> (forall s', endpoint s' x -> enters s' -> mem s' = mem s -> Q tt e s') ->
  wp (release (L_pipe pi)) Q e s.
Proof.
  intros H [Hh Hp Ht] HQ. eapply wp_release; [done|]. apply HQ; [by apply endpoint_held|done|done].
Qed.

(** C19: [pipewrite] delivers all its bytes, once and in order.  However long the data and
    however full the pipe, when readers take bytes from the front while the writer sleeps
    (the numbers [cs], one for each time), the call returns [n].  The pipe then holds its old
    content followed by the [n] bytes of the writer's memory, less exactly as many bytes from
    the front as the readers took while the call slept: no byte is dropped, overwritten or
    reordered, also when the 32-bit counters wrap. *)
Theorem pipewrite_delivers e cs s x :
  0 <= addr -> endpoint s x -> pi_readopen x = true -> enters s -> Forall2 reads_exactly cs e -> (n <= length e)%nat ->
  wp (pipewrite pi addr (Z.of_nat n))
    (fun r e' s' => r = Z.of_nat n /\ enters s' /\ exists u y, e' = drop u e /\ (u <= length e)%nat /\ endpoint s' y /\
       pipe_queue y = drop (sum_list (take u cs)) (pipe_queue x ++ ubytes (mem s) pt addr n) /\
       (sum_list (take u cs) <= length (pipe_queue x) + n)%nat) e s.
Proof.
  intros Ha H Ho Hen HF Hn. unfold pipewrite. apply wp_bind. wprun curproc_run; [apply Hen|].
  apply wp_bind, (wp_enter s x); [done..|]. intros s1 H1 Hin1 Hm1. apply wp_bind. rewrite Nat2Z.id. unfold blockN.
  wpapply (write_loop _ 0 0 e cs s1 x (pipe_queue x) (ubytes (mem s) pt addr n)); try done; [lia|lia|unfold turns_needed; lia| |].
  { split; [done|]. split; [by rewrite Hm1|]. rewrite take_0, app_nil_r. split; [lia|done]. }
  intros r e2 s2 (-> & Hin2 & u & y & -> & Hu & Hy & _ & _ & Hl & Hd). cbn [fst snd].
  apply wp_bind, (wp_wakeup_end _ s2 y); [done..|]. intros s3 H3 Hin3 _.
  apply wp_bind, (wp_leave s3 y); [done..|]. intros s4 H4 Hen4 _. wp. split; [done|]. split; [done|].
  rewrite (firstn_all2 (ubytes _ _ _ _)) in Hl, Hd by (rewrite ubytes_length; lia).
  rewrite length_app, ubytes_length in Hl. exists u, y. done.
Qed.

(** ** [piperead] *)

(** There is something to read, or there will be nothing more. *)
Definition ready (x : pipe) : Prop := pipe_queue x <> [] \/ pi_writeopen x = false.

(** What the other threads do while the reader sleeps on an empty pipe. *)
Definition supplies (g : kstate -> kstate) : Prop :=
  forall s x, endpoint s x -> user_sep (mem s) pt -> pipe_queue x = [] ->
  exists y, endpoint (g s) y /\ user_sep (mem (g s)) pt /\ ready y.

Lemma endpoint_written s x m' va src :
  endpoint s x -> user_sep (mem s) pt -> written (mem s) m' pt va src ->
  endpoint (s <| mem := m' |>) x /\ user_sep m' pt.
Proof.
  intros [H1 H2 H3 [l H4] H5 H6 H7] Hs Hw. pose proof (written_same_pt _ _ _ _ _ Hs Hw) as Hpt.
  split; [split; try done|by eapply user_sep_same_pt].
  - exists l. by apply pt_wf_same_pt.
  - intros d Hd. cbn. rewrite (upa_same_pt (mem s)) by done. by apply H5.
Qed.

Lemma wp_copyout_byte s x k b (Q : Z -> interference -> kstate -> Prop) e :
  0 <= addr -> (k < n)%nat -> endpoint s x -> user_sep (mem s) pt ->
  (forall m', written (mem s) m' pt (addr + Z.of_nat k) [b] -> Q 0 e (s <| mem := m' |>)) ->
  wp (copyout pt (u64 (addr + Z.of_nat k)) [b]) Q e s.
Proof.
  intros Ha Hk H Hs HQ. destruct (mapped_at (mem s) k Ha Hk (ep_mapped _ _ H)) as [Hm ->].
  destruct (ep_pt _ _ H) as [l Hl].
  destruct (copyout_loop 2 [b] (addr + Z.of_nat k) pt l e s) as (m' & Hr & Hw); [cbn; lia|lia|apply H|done..|].
  wprun Hr. by apply HQ.
Qed.

(** The first [k] bytes of the queue [q] are in the reader's memory, which was [m]. *)
Record got (m : gmap Z Z) (q : list Z) (k : nat) (s : kstate) (x : pipe) : Prop := {
  got_end : endpoint s x;
  got_in : inside s;
  got_sep : user_sep (mem s) pt;
  got_bytes : written m (mem s) pt addr (take k q);
  got_rest : pipe_queue x = drop k q }.

Lemma wp_read_byte m q k b s x e :
  0 <= addr -> user_sep m pt -> (k < n)%nat -> q !! k = Some b -> got m q k s x ->
  wp (piperead_body pi addr (Z.of_nat n) i (Z.of_nat k))
    (fun r e' s' => r = inl (Z.of_nat (S k)) /\ e' = e /\ exists y, got m q (S k) s' y) e s.
Proof.
  intros Ha Hsep Hk Hb [H Hin Hs Hw Hq]. unfold piperead_body. rewrite (proj2 (Z.ltb_lt _ _)) by lia. cbn [negb].
  apply wp_bind, (wp_get_pipe s x); [done|]. rewrite (drop_S _ _ _ Hb) in Hq.
  destruct (pipe_get_queue x b _ (ep_ok _ _ H) Hq) as (Hat & Hok & Hq'). rewrite Hat.
  destruct (_ =? _) eqn:E; [apply pipe_empty in E; [congruence|apply H]|]. apply wp_bind, wp_modify.
  pose proof (endpoint_set s x pipe_get H Hok) as H1. set (s1 := s <| pipes ::= alter _ pi |>) in *.
  apply wp_bind, (wp_get_caller s1 (pipe_get x)); [done|]. intros p _ ->. apply wp_bind.
  apply (wp_copyout_byte s1 (pipe_get x)); [done..|]. intros m' Hw'. cbn [Z.eqb]. wp.
  destruct (endpoint_written s1 _ m' _ _ H1 Hs Hw') as [H2 Hs2].
  split; [f_equal; lia|]. split; [done|]. exists (pipe_get x). split; [done|by destruct Hin|done| |done].
  cbn. rewrite (take_S_r _ _ _ Hb). eapply written_app; [done|exact Hw|].
  rewrite length_take_le by (apply lookup_lt_Some in Hb; lia). exact Hw'.
Qed.

Lemma read_loop fuel m q k s x e :
  (n - k < fuel)%nat -> (k <= n)%nat -> (k <= length q)%nat -> 0 <= addr -> user_sep m pt -> got m q k s x ->
  wp (whileK fuel (piperead_body pi addr (Z.of_nat n) i) (Z.of_nat k))
    (fun r e' s' => r = Z.of_nat (Nat.min n (length q)) /\ e' = e /\
       exists y, got m q (Nat.min n (length q)) s' y) e s.
Proof.
  revert k s x. induction fuel as [|fuel IH]; intros k s x Hf Hk Hkq Ha Hsep H; [lia|]. apply wp_whileK.
  destruct (decide (k = Nat.min n (length q))) as [Hend|Hne].
  - unfold piperead_body. destruct (Z.ltb_spec (Z.of_nat k) (Z.of_nat n)); cbn [negb].
    + apply wp_bind, (wp_get_pipe s x); [apply H|].
      rewrite (proj2 (pipe_empty x (ep_ok _ _ (got_end _ _ _ _ _ H)))); [|rewrite (got_rest _ _ _ _ _ H), drop_ge by lia; done].
      wp. rewrite <- Hend. eauto.
    + wp. rewrite <- Hend. eauto.
  - destruct (lookup_lt_is_Some_2 q k ltac:(lia)) as [b Hb].
    wpapply (wp_read_byte m q k b s x e); [done|done|lia|done..|]. intros r e1 s1 (-> & -> & y & Hy).
    by eapply IH; [lia..| | |].
Qed.

(** The test of the waiting loop fails exactly when the pipe is ready. *)
Lemma ready_test x : pipe_ok x -> (pi_nread x =? pi_nwrite x) && pi_writeopen x = false <-> ready x.
Proof.
  intros H. rewrite andb_false_iff, <- not_true_iff_false, (pipe_empty x H). unfold ready. done.
Qed.

Lemma wp_ready s x e (Q : option Z -> interference -> kstate -> Prop) fuel :
  endpoint s x -> ready x -> Q None e s -> wp (whileK (S fuel) (piperead_wait pi i) tt) Q e s.
Proof.
  intros H Hr HQ. apply wp_whileK. unfold piperead_wait. apply wp_bind, (wp_get_pipe s x); [done|].
  apply ready_test in Hr; [|apply H]. rewrite Hr. by wp.
Qed.

(** Waiting ends as soon as the pipe is ready, and the reader then holds the lock. *)
Lemma wp_wait s x e :
  endpoint s x -> inside s -> user_sep (mem s) pt -> (ready x \/ exists g e', e = g :: e' /\ supplies g) ->
  wp (blockK (piperead_wait pi i) tt)
    (fun r _ s1 => r = None /\ inside s1 /\ user_sep (mem s1) pt /\
       exists x1, endpoint s1 x1 /\ ready x1 /\ (ready x -> mem s1 = mem s /\ x1 = x)) e s.
Proof.
  intros H Hin Hs Hor. apply wp_blockK.
  destruct ((pi_nread x =? pi_nwrite x) && pi_writeopen x) eqn:E; cycle 1.
  { apply ready_test in E; [|apply H]. apply (wp_ready s x); [done|done|]. eauto 10. }
  assert (~ ready x) as Hnr by (intros Hr; apply ready_test in Hr; [congruence|apply H]).
  destruct Hor as [|(g & e' & -> & Hg)]; [done|].
  assert (pipe_queue x = []) as Hq by (apply andb_true_iff in E as [E _]; apply pipe_empty in E; [done|apply H]).
  cbn [length]. apply wp_whileK. unfold piperead_wait at 1. apply wp_bind, (wp_get_pipe s x); [done|]. rewrite E.
  apply wp_bind, (wp_get_caller s x); [done|]. intros p Hp _. rewrite Hp. cbn [negb Z.eqb].
  apply wp_bind, (wp_sleep_end _ s x (fun m y => user_sep m pt /\ ready y)); [done..| |].
  - intros s1 H1 Hm1. apply (Hg s1 x); [done|by rewrite Hm1|done].
  - intros s1 y Hy [Hsy Hr] Hin1. wp. apply (wp_ready s1 y); [done..|]. do 3 (split; [done|]). exists y. done.
Qed.

Lemma pipe_queue_u8 x : map u8 (pipe_queue x) = pipe_queue x.
Proof.
  unfold pipe_queue, ring_queue. generalize (pending (2 ^ 32) (pi_nread x) (pi_nwrite x)) as k.
  intros k. generalize (pi_nread x) as lo. induction k as [|k IH]; intros lo; [done|]. cbn [ring_from map].
  f_equal; [|apply IH]. rewrite list_lookup_total_alt, list_lookup_fmap. destruct (pi_data x !! _); [|done]. cbn.
  apply u8_small, u8_range.
Qed.

(** C20: [piperead] takes the oldest bytes.  It waits until the pipe has data or its writing
    end is closed; it then returns the smaller of [n] and the number of bytes in the pipe (0
    at the end of the stream), that many of the oldest bytes are in the reader's memory at
    [addr], the rest of the pipe is what it was, and no other byte of memory changes. *)
Theorem piperead_takes e s x :
  0 <= addr -> endpoint s x -> user_sep (mem s) pt -> enters s ->
  (ready x \/ exists g e', e = g :: e' /\ supplies g) ->
  wp (piperead pi addr (Z.of_nat n))
    (fun r _ s' => exists m1 x1, (ready x -> m1 = mem s /\ x1 = x) /\ ready x1 /\
       r = Z.of_nat (Nat.min n (length (pipe_queue x1))) /\ enters s' /\
       ubytes (mem s') pt addr (Z.to_nat r) = take n (pipe_queue x1) /\
       written m1 (mem s') pt addr (take n (pipe_queue x1)) /\
       exists y, endpoint s' y /\ pipe_queue y = drop n (pipe_queue x1)) e s.
Proof.
  intros Ha H Hs Hen Hor. unfold piperead. apply wp_bind. wprun curproc_run; [apply Hen|].
  apply wp_bind, (wp_enter s x); [done..|]. intros s1 H1 Hin1 Hm1. apply wp_bind.
  wpapply (wp_wait s1 x e); [done|done|by rewrite Hm1|done|]. intros r e2 s2 (-> & Hin2 & Hs2 & x1 & H2 & Hr & Hx).
  apply wp_bind. rewrite Nat2Z.id.
  wpapply (read_loop (S n) (mem s2) (pipe_queue x1) 0 s2 x1 e2); [lia..|done|done| |].
  { by split. }
  intros r e3 s3 (-> & -> & y & [H3 Hin3 Hs3 Hw Hq]).
  apply wp_bind, (wp_wakeup_end _ s3 y); [done..|]. intros s4 H4 Hin4 Hm4.
  apply wp_bind, (wp_leave s4 y); [done..|]. intros s5 H5 Hen5 Hm5. wp.
  rewrite Hm5, Hm4, Nat2Z.id. exists (mem s2), x1. split; [by rewrite <- Hm1|]. do 3 (split; [done|]).
  assert (take (Nat.min n (length (pipe_queue x1))) (pipe_queue x1) = take n (pipe_queue x1)) as Et
    by (rewrite <- take_take, firstn_all; done).
  rewrite Et in Hw. split; [|split; [done|]].
  - rewrite <- length_take. erewrite written_ubytes; [|exact Hs2| |exact Hw].
    + by rewrite <- firstn_map, pipe_queue_u8.
    + intros d Hd. apply (ep_mapped _ _ H2). rewrite length_take in Hd. lia.
  - exists y. split; [done|]. rewrite Hq. destruct (Nat.min_spec n (length (pipe_queue x1))) as [[? ->]|[? ->]]; [done|].
    by rewrite !drop_ge by lia.
Qed.
End Endpoint.

(** ** A process whose memory has one page, and one pipe *)

Definition demo_procs : list proc := replicate NPROC (proc0 <| p_pagetable := demo_pt |>).
Definition demo_pipe (x : pipe) : kstate :=
  demo_space <| pipes := {[ 8192 := x ]} |> <| procs := demo_procs |> <| c_proc := Some O |> <| c_thread := Some (O, O) |>.

Lemma demo_pipe_endpoint x k : pipe_ok x -> (k <= 4096)%nat -> endpoint 8192 0 0 demo_pt 0 k (demo_pipe x) x.
Proof.
  intros Hx Hk. destruct demo_space_ok as ([l Hwf] & _ & Hm). split; [| | | | |apply lookup_singleton_eq|done].
  - exists (proc0 <| p_pagetable := demo_pt |>). split; [by apply lookup_replicate_2; unfold NPROC; lia|]. vm_compute. eauto.
  - split; [apply length_replicate|]. by apply Forall_replicate.
  - exact demo_space_end.
  - exists l. by apply (pt_wf_ext demo_space).
  - by apply Hm.
Qed.

Lemma demo_pipe_enters x : enters 0 0 (demo_pipe x).
Proof. split; [apply demo_space_frame|done]. Qed.

(** A full buffer whose counters are about to wrap. *)
Definition demo_full : pipe := Pipe (replicate 512 65) (2 ^ 32 - 2) 510 true true.
Definition demo_empty : pipe := Pipe (replicate 512 0) 5 5 true true.

Lemma demo_full_ok : pipe_ok demo_full.
Proof. split; vm_compute; intuition (discriminate || lia). Qed.
Lemma demo_empty_ok : pipe_ok demo_empty.
Proof. split; vm_compute; intuition (discriminate || lia). Qed.

(** A reader that empties the full pipe. *)
Definition drain (s : kstate) : kstate := s <| pipes ::= alter (fun x => x <| pi_nread := pi_nwrite x |>) 8192 |>.

Lemma drain_reads k : reads_exactly 8192 0 0 demo_pt 0 k 512 drain.
Proof.
  split; [unfold PIPESIZE; lia|]. intros s x H Ho Hf.
  assert (pipe_queue (x <| pi_nread := pi_nwrite x |>) = []) as Hq by apply ring_queue_nil.
  eexists. split; [apply (endpoint_set 8192 0 0 demo_pt 0 k s x); [done|]|].
  - destruct H as [_ _ _ _ _ _ [H1 H2 H3 H4]]. split; [done..|]. rewrite Hq. cbn. lia.
  - split; [done|]. split; [done|]. rewrite drop_ge by (rewrite Hf; unfold PIPESIZE; lia). done.
Qed.

Lemma pipewrite_delivers_witness :
  wp (pipewrite 8192 0 3) (fun r e' s' => r = 3 /\ enters 0 0 s' /\ exists u y, e' = drop u [drain; drain; drain] /\
       (u <= 3)%nat /\ endpoint 8192 0 0 demo_pt 0 3 s' y /\
       pipe_queue y = drop (sum_list (take u [512; 512; 512]%nat)) (pipe_queue demo_full ++ ubytes (mem (demo_pipe demo_full)) demo_pt 0 3) /\
       (sum_list (take u [512; 512; 512]%nat) <= length (pipe_queue demo_full) + 3)%nat)
    [drain; drain; drain] (demo_pipe demo_full).
Proof.
  apply (pipewrite_delivers 8192 0 0 demo_pt 0 3 [drain; drain; drain] [512; 512; 512]%nat (demo_pipe demo_full) demo_full).
  - done.
  - apply demo_pipe_endpoint; [exact demo_full_ok|lia].
  - reflexivity.
  - apply demo_pipe_enters.
  - repeat constructor; apply drain_reads.
  - cbn. lia.
Defined.

(** A writer that puts one byte into the pipe. *)
Definition put_one (s : kstate) : kstate := s <| pipes ::= alter (pipe_put 66) 8192 |>.

Lemma put_one_supplies k : supplies 8192 0 0 demo_pt 0 k put_one.
Proof.
  intros s x H Hs Hq. destruct (pipe_put_queue 66 x (ep_ok _ _ _ _ _ _ _ _ H)) as [Hok Hput]; [by rewrite Hq|].
  exists (pipe_put 66 x). split; [by apply endpoint_set|]. split; [done|]. left. rewrite Hput, Hq. done.
Qed.

Lemma piperead_takes_witness :
  wp (piperead 8192 0 10) (fun r _ s' => exists m1 x1,
       (ready demo_empty -> m1 = mem (demo_pipe demo_empty) /\ x1 = demo_empty) /\ ready x1 /\
       r = Z.of_nat (Nat.min 10 (length (pipe_queue x1))) /\ enters 0 0 s' /\
       ubytes (mem s') demo_pt 0 (Z.to_nat r) = take 10 (pipe_queue x1) /\
       written m1 (mem s') demo_pt 0 (take 10 (pipe_queue x1)) /\
       exists y, endpoint 8192 0 0 demo_pt 0 10 s' y /\ pipe_queue y = drop 10 (pipe_queue x1))
    [put_one] (demo_pipe demo_empty).
Proof.
  apply (piperead_takes 8192 0 0 demo_pt 0 10 [put_one] (demo_pipe demo_empty) demo_empty).
  - done.
  - apply demo_pipe_endpoint; [exact demo_empty_ok|lia].
  - apply demo_space_ok.
  - apply demo_pipe_enters.
  - right. exists put_one, []. split; [done|]. apply put_one_supplies.
Defined.
