(* ===== verification/FileWrite.v ===== *)
(** * Writing a file through a descriptor

    [filewrite] of kernel/file.c on an inode, with the bytes in user memory: it splits the write
    into transactions of at most three blocks, and when it returns the file on the disk has the
    new bytes.  A crash leaves the bytes of the first transactions. *)

From stdpp Require Import base numbers list gmap sets strings.
From S2P Require Import PipeFacts Prelude Mem Types Kernel Wp Frame Riscv Vm VmFacts Copy Sched SchedFacts Bio BioFacts Log LogFacts Fs FsFacts FsTx FsAlloc FsExtend FsWrite FsDisk FsOp Console File.

(** ** Rules for the inode lock and the file table inside a transaction *)

Definition ftab (s : kstate) (t : list file) : kstate := s <| ftable := t |>.

Section Rules.
Context (pid dev start cap : Z).
Implicit Types (B : list Z) (v : Z -> list Z).
Local Abbreviation txs := (txs pid dev start cap).

Lemma txs_ftab s0 B hold v s t : txs s0 B hold v s -> txs (ftab s0 t) B hold v (ftab s t).
Proof.
  intros [Hc Hh (ps & bs & l & -> & Hf) Hl Ho Hnd Hhome Hhold (live & Hrep & Hin)]. split; try done.
  - by eapply caller_ext; [..|exact Hc].
  - exists ps, bs, l. split; [reflexivity|done].
  - exists live. split; [eapply brep_ext; [..|exact Hrep]; reflexivity|done].
Qed.

Lemma tx_set_file s0 B hold v f fl g (Q : unit -> interference -> kstate -> Prop) e s :
  txs s0 B hold v s -> ftable s0 !! f = Some fl ->
  (forall s', txs (ftab s0 (<[f := g fl]> (ftable s0))) B hold v s' -> Q tt e s') -> wp (set_file f g) Q e s.
Proof.
  intros Ht Hf HQ. assert (ftable s = ftable s0) as E by by destruct (tx_frame _ _ _ _ _ _ _ _ _ Ht) as (ps & bs & l & -> & _).
  unfold set_file. wp. replace (s <| ftable ::= alter g f |>) with (ftab s (<[f := g fl]> (ftable s0))).
  - apply HQ. by apply txs_ftab.
  - unfold ftab. cbv [upd]. cbn. f_equal. rewrite E. symmetry. by apply alter_insert.
Qed.

Lemma tx_get_file s0 B hold v f fl (Q : file -> interference -> kstate -> Prop) e s :
  txs s0 B hold v s -> ftable s0 !! f = Some fl -> Q fl e s -> wp (get_file f) Q e s.
Proof.
  intros Ht Hf HQ. assert (ftable s = ftable s0) as E by by destruct (tx_frame _ _ _ _ _ _ _ _ _ Ht) as (ps & bs & l & -> & _).
  unfold wp, get_file. by rewrite E, Hf.
Qed.

(** [ilock] of an inode that is in memory and not locked. *)
Lemma tx_ilock s0 B v ip x (Q : unit -> interference -> kstate -> Prop) e s :
  txs s0 B ∅ v s -> itable s0 !! ip = Some x -> 1 <= i_ref x -> i_valid x = true -> sl_locked (i_lock x) = false ->
  (forall s', txs (with_inode s0 ip (x <| i_lock := Sleeplock true pid |>)) B ∅ v s' -> Q tt e s') -> wp (ilock (Some ip)) Q e s.
Proof.
  intros Ht Hx Hr Hv Hl HQ. pose proof (txs_itable _ _ _ _ _ _ _ _ _ Ht) as E. pose proof (lookup_lt_Some _ _ _ Hx) as Hlt.
  unfold ilock. apply wp_bind. eapply tx_get_inode; [done..|]. rewrite (proj2 (Z.ltb_ge _ _)) by lia. apply wp_bind.
  eapply wp_acquiresleep_inode; [apply Ht|by rewrite E|done|]. rewrite E.
  apply (txs_itab _ _ _ _ _ _ _ _ _ (<[ip := x <| i_lock := Sleeplock true pid |>]> (itable s0))) in Ht.
  apply wp_bind. eapply wp_get_inode; [by apply list_lookup_insert_eq|]. change (i_valid (x <| i_lock := _ |>)) with (i_valid x).
  rewrite Hv. apply wp_ret. by apply HQ.
Qed.

Lemma wp_holdingsleep_inode ip x (Q : bool -> interference -> kstate -> Prop) e s :
  caller pid s -> itable s !! ip = Some x -> i_lock x = Sleeplock true pid -> Q true e s -> wp (holdingsleep (SL_inode ip)) Q e s.
Proof.
  intros Hc Hx Hl HQ. unfold holdingsleep. apply wp_bind. wprun (acquire_bh pid (L_sleep (SL_inode ip)) e s Hc ltac:(done)).
  destruct (pid_run pid (L_sleep (SL_inode ip)) e s Hc) as (p & y & Hcur & Hget & Hpid).
  set (s1 := bh _ s) in *. apply wp_bind. eapply (wp_ok _ _ _ _ (i_lock x) e s1).
  { unfold get_sleeplock. change (itable s1) with (itable s). by rewrite Hx. }
  apply wp_bind. wprun Hcur. apply wp_bind. wprun Hget. rewrite Hl, Hpid. cbn [sl_locked sl_pid]. rewrite Z.eqb_refl.
  apply wp_bind. eapply (wp_release _ (held s)); [done|]. apply wp_ret. exact HQ.
Qed.

(** [iunlock] of an inode the caller has locked. *)
Lemma tx_iunlock s0 B v ip x (Q : unit -> interference -> kstate -> Prop) e s :
  txs s0 B ∅ v s -> itable s0 !! ip = Some x -> 1 <= i_ref x -> i_lock x = Sleeplock true pid ->
  (forall s', txs (with_inode s0 ip (x <| i_lock := Sleeplock false 0 |>)) B ∅ v s' -> Q tt e s') -> wp (iunlock (Some ip)) Q e s.
Proof.
  intros Ht Hx Hr Hl HQ. pose proof (txs_itable _ _ _ _ _ _ _ _ _ Ht) as E. pose proof (tx_caller _ _ _ _ _ _ _ _ _ Ht) as Hc.
  unfold iunlock. apply wp_bind. eapply wp_holdingsleep_inode; [done|by rewrite E|done|]. apply wp_bind.
  eapply tx_get_inode; [done..|]. rewrite (proj2 (Z.ltb_ge _ _)) by lia. cbn [negb orb].
  unfold releasesleep. apply wp_bind. wprun (acquire_bh pid (L_sleep (SL_inode ip)) e s Hc ltac:(done)).
  set (s1 := bh _ s). apply wp_bind, wp_modify. set (s2 := put_sleeplock _ _ s1). apply wp_bind.
  assert (wakeup (CH_sleeplock (SL_inode ip)) e s2 =
    Ok tt e (s2 <| procs ::= fmap (map_threads (wake_thread (CH_sleeplock (SL_inode ip)))) |>)) as Hw.
  { apply wakeup_run; [apply (table_ok_procs s); [done|apply Hc]|].
    intros q. change (held s2) with (L_sleep (SL_inode ip) :: held s). rewrite (tx_held _ _ _ _ _ _ _ _ _ Ht). set_solver. }
  wprun Hw. eapply (wp_release _ (held s)); [done|]. apply HQ.
  apply (txs_itab _ _ _ _ _ _ _ _ _ (<[ip := x <| i_lock := Sleeplock false 0 |>]> (itable s0))) in Ht.
  fold (with_inode s0 ip (x <| i_lock := Sleeplock false 0 |>)) in Ht. set (t := <[ip := _]> (itable s0)) in *.
  set (g := fmap (map_threads (wake_thread (CH_sleeplock (SL_inode ip))))).
  assert (s2 <| procs ::= g |> <| held := held s |> = itab s t <| procs ::= g |>) as ->.
  { change (s2 <| procs ::= g |> <| held := held s |>) with (itab s (itable s2) <| procs ::= g |>). do 2 f_equal.
    unfold s2, t. cbn. rewrite E. by apply alter_insert. }
  destruct Ht as [Hc' Hh Hf Hlg Ho Hnd Hhome Hhold (live & Hrep & Hin)]. split; try done.
  - by apply caller_wakeup.
  - eapply tframe_trans; [exact Hf|]. exists (g (procs (itab s t))), (bcache s), (log s). split; [reflexivity|].
    split; [apply settled_map_threads|done].
  - exists live. split; [by apply (brep_ext dev live (itab s t))|done].
Qed.
End Rules.

(** ** The bytes in user memory *)

(** The calling process has [bytes] at the address [va]. *)
Definition user_bytes (s : kstate) (va : Z) (bytes : list Z) : Prop := exists p x l,
  c_proc s = Some p /\ procs s !! p = Some x /\ pt_wf s (p_pagetable x) l /\ 0 < sym_end (syms s) /\
  0 <= va /\ va + Z.of_nat (length bytes) < 2 ^ 64 /\
  Copy.mapped (mem s) (p_pagetable x) va (length bytes) /\ bytes = ubytes (mem s) (p_pagetable x) va (length bytes).

Lemma ubytes_slice m pt va n a k : (a + k <= n)%nat ->
  slice a k (ubytes m pt va n) = ubytes m pt (va + Z.of_nat a) k.
Proof.
  intros H. replace n with (a + (k + (n - a - k)))%nat by lia. rewrite !ubytes_app. unfold slice.
  rewrite drop_app_length' by (by rewrite ubytes_length). by rewrite take_app_length' by (by rewrite ubytes_length).
Qed.

Lemma user_bytes_slice s va bytes a k : (a + k <= length bytes)%nat ->
  user_bytes s va bytes -> user_bytes s (va + Z.of_nat a) (slice a k bytes).
Proof.
  intros Ha (p & x & l & Hp & Hx & Hwf & He & Hva & Hlt & Hm & Hb). exists p, x, l.
  rewrite length_slice by done. do 4 (split; [done|]). split; [lia|]. split; [lia|]. split.
  - intros i Hi. rewrite <- Z.add_assoc. apply Hm. lia.
  - rewrite Hb at 1. by apply ubytes_slice.
Qed.

(** What it depends on. *)
Definition user_view (s : kstate) : gmap Z Z * symbols * option nat * list proc :=
  (mem s, syms s, c_proc s, settled <$> procs s).

Lemma rest_user_view s s' : rest s' = rest s -> user_view s' = user_view s.
Proof.
  intros Hr. unfold user_view. repeat (apply pair_eq; split).
  - exact (f_equal (fun r => mem (fst r)) Hr).
  - exact (f_equal (fun r => syms (fst r)) Hr).
  - exact (f_equal (fun r => c_proc (fst r)) Hr).
  - exact (f_equal snd Hr).
Qed.

Lemma user_bytes_view s s' va bytes : user_view s' = user_view s -> user_bytes s va bytes -> user_bytes s' va bytes.
Proof.
  intros Hv (p & x & l & Hp & Hx & Hwf & He & Hva & Hlt & Hm & Hb). injection Hv as Em Es Ec Ep.
  assert ((settled <$> procs s') !! p = Some (settled x)) as Hx' by by rewrite Ep, list_lookup_fmap, Hx.
  rewrite list_lookup_fmap in Hx'. destruct (procs s' !! p) as [y|] eqn:Hy; [|done]. apply (inj Some) in Hx'.
  assert (p_pagetable y = p_pagetable x) as Ept by exact (f_equal p_pagetable Hx').
  exists p, y, l. rewrite Em, Es, Ec, Ept. split; [done|]. split; [done|]. split; [by eapply pt_wf_ext|done].
Qed.

Lemma user_feeds pid dev start cap s0 ip va bytes :
  user_bytes s0 va bytes -> feeds pid dev start cap s0 ip (User va) bytes.
Proof.
  intros Hu. split.
  - cbn. f_equal. destruct Hu as (? & ? & ? & _ & _ & _ & _ & ? & ? & _). rewrite Z.add_0_r. apply u64_small. lia.
  - intros x B hold v tot m e s Ht Hm.
    assert (user_bytes s va bytes) as Hu'.
    { eapply user_bytes_view; [|exact Hu].
      exact (rest_user_view _ _ (tframe_rest _ _ (tx_frame _ _ _ _ _ _ _ _ _ Ht))). }
    apply (user_bytes_slice _ _ _ tot m Hm) in Hu' as (p & y & l & Hp & Hy & Hwf & He & Hva & Hlt & Hmp & Hb).
    rewrite length_slice in * by done. unfold either_copyin, src_advance.
    rewrite (bindK_Ok _ _ _ _ _ _ _ (curproc_run p e s Hp)).
    assert (get_proc p e s = Ok y e s) as Hg by (unfold get_proc; by rewrite Hy). rewrite (bindK_Ok _ _ _ _ _ _ _ Hg).
    rewrite u64_small by lia. unfold copyin.
    destruct (copyin_loop (S m) m (va + Z.of_nat tot) [] (p_pagetable y) l e s) as (r & bs & Hrun & [(-> & -> & _)|[_ Hn]]);
      [lia|done|done|done| |done]. rewrite Hrun. cbn. by rewrite <- Hb.
Qed.

(** ** One transaction of [filewrite] *)

Lemma splice_splice off (a b old : list Z) : (off <= length old)%nat ->
  splice (off + length a) b (splice off a old) = splice off (a ++ b) old.
Proof.
  intros H. unfold splice. rewrite length_app.
  rewrite (app_assoc (take off old) a). rewrite take_app_length' by (rewrite length_app, length_take; lia).
  rewrite <- !app_assoc. do 3 f_equal. rewrite app_assoc, drop_app_ge by (rewrite length_app, length_take; lia).
  rewrite drop_drop. f_equal. rewrite length_app, length_take. lia.
Qed.

(** A state with other tables of inodes and files. *)
Definition retab (s : kstate) (it : list inode) (ft : list file) : kstate :=
  KState (syms s) (held s) (mem s) (freelist s) (procs s) (initproc s) (nextpid s) (nexttid s) (c_proc s) (c_thread s)
    (bsems s) (ticks s) (kernel_pagetable s) (forkret_first s) (csr s) (bcache s) (log s) (sb s) it ft
    (pipes s) (cons_dev s) (uart_dev s) (disk s).

Lemma rest_retab s it ft : rest (retab s it ft) = (retab (fst (rest s)) it ft, snd (rest s)).
Proof. reflexivity. Qed.

Section FileWrite.
Context (pid dev start cap ds : Z) (s0 : kstate) (fd ip : nat) (fl : file) (x0 : inode) (addr : Z) (bytes : list Z) (off : nat).
Local Abbreviation G := (sb s0).
Local Abbreviation N := (length bytes).
Local Abbreviation inum := (i_inum x0).
Local Abbreviation range := (seq (off / 1024) (ntouched off N)).
Local Abbreviation old := (disk_bytes G (dblock (disk s0)) inum).

(** What [filewrite] is called with: the machine is idle, the file system is sound, the descriptor
    [fd] is of the inode [ip], which is in memory, not locked and not longer than [off] and
    agrees with the disk, there is room in the log for one transaction and on the disk for the
    blocks that are missing, and the caller has the bytes. *)
Record can_write : Prop := {
  cw_idle : fs_idle pid dev start cap s0;
  cw_layout : layout start cap G ds;
  cw_dev : 0 <= dev < 2 ^ 32;
  cw_fs : fs_ok G ds (dblock (disk s0));
  cw_file : ftable s0 !! fd = Some fl;
  cw_type : f_type fl = FD_INODE;
  cw_writable : f_writable fl = true;
  cw_ip : f_ip fl = Some ip;
  cw_off : f_off fl = Z.of_nat off;
  cw_inode : itable s0 !! ip = Some x0;
  cw_idev : i_dev x0 = dev;
  cw_ref : 1 <= i_ref x0;
  cw_valid : i_valid x0 = true;
  cw_unlocked : sl_locked (i_lock x0) = false;
  cw_synced : synced G (dblock (disk s0)) x0;
  cw_in_use : in_use G (dblock (disk s0)) inum;
  cw_start : Z.of_nat off <= i_size x0;
  cw_end : (off + N <= Z.to_nat (MAXFILE * BSIZE))%nat;
  cw_room : Z.of_nat (nmap G ds) + 12 <= cap;
  cw_nbuf : (nmap G ds + 12 < NBUF)%nat;
  cw_avail : avail G (missing range (dblock (disk s0)) x0 + need x0) (dblock (disk s0));
  cw_user : user_bytes s0 addr bytes }.

Hypothesis Hcw : can_write.
Implicit Types (s : kstate) (x : inode) (k : nat).

(** After [k] bytes: the inode [x], and what is in the file system. *)
Definition at_rest_w x k : kstate :=
  ftab (with_inode s0 ip x) (<[fd := fl <| f_off := Z.of_nat (off + k) |>]> (ftable s0)).

Record progress k x s : Prop := {
  pg_idle : fs_idle pid dev start cap s;
  pg_rest : rest s = rest (at_rest_w x k);
  pg_inode : i_dev x = dev /\ i_inum x = inum /\ 1 <= i_ref x /\ i_valid x = true /\ sl_locked (i_lock x) = false /\
    i_size x = Z.max (i_size x0) (Z.of_nat (off + k));
  pg_fs : fs_ok G ds (dblock (disk s));
  pg_synced : synced G (dblock (disk s)) x;
  pg_in_use : forall i, in_use G (dblock (disk s)) i <-> in_use G (dblock (disk s0)) i;
  pg_bytes : disk_bytes G (dblock (disk s)) inum = splice off (take k bytes) old;
  pg_other : forall i, in_use G (dblock (disk s0)) i -> i <> inum ->
    disk_bytes G (dblock (disk s)) i = disk_bytes G (dblock (disk s0)) i;
  pg_avail : avail G (missing range (dblock (disk s)) x + need x) (dblock (disk s)) }.

Lemma old_length : length old = isize x0.
Proof using All.
  destruct (synced_fields _ _ _ (cw_synced Hcw)) as (_ & Hs & _). unfold disk_bytes.
  rewrite (length_file_bytes G ds) by apply (cw_fs Hcw), (cw_in_use Hcw). unfold isize. by rewrite Hs.
Qed.

Lemma progress_start : progress 0 x0 s0.
Proof using All.
  pose proof old_length as Hl. destruct Hcw. split; try done.
  - assert (at_rest_w x0 0 = s0) as ->; [|done]. unfold at_rest_w, with_inode, ftab, itab.
    rewrite (list_insert_id (itable s0) ip x0) by done. rewrite list_insert_id; [reflexivity|].
    rewrite cw_file0, Nat.add_0_r, <- cw_off0. reflexivity.
  - do 5 (split; [done|]). lia.
  - rewrite take_0. unfold splice. cbn [app length]. rewrite Nat.add_0_r, take_drop. done.
Qed.

(** The chunk of the next transaction. *)
Section Chunk.
Context (k : nat) (x : inode) (s : kstate) (e : interference).
Hypothesis Hp : progress k x s.
Hypothesis Hk : (k < N)%nat.
Local Abbreviation n1 := (Nat.min (N - k) 3072).
Local Abbreviation V := (dblock (disk s)).
Local Abbreviation chunk := (slice k n1 bytes).
Local Abbreviation xl := (x <| i_lock := Sleeplock true pid |>).

Lemma chunk_length : length chunk = n1.
Proof using All. apply length_slice. lia. Qed.

Lemma chunk_state : sb s = G /\ itable s = <[ip := x]> (itable s0) /\
  ftable s = <[fd := fl <| f_off := Z.of_nat (off + k) |>]> (ftable s0) /\ user_view s = user_view s0.
Proof using All.
  pose proof (pg_rest _ _ _ Hp) as Hr.
  split; [exact (f_equal (fun r => sb (fst r)) Hr)|]. split; [exact (f_equal (fun r => itable (fst r)) Hr)|].
  split; [exact (f_equal (fun r => ftable (fst r)) Hr)|]. exact (rest_user_view _ _ Hr).
Qed.

Lemma chunk_touched : (ntouched (off + k) n1 <= 4)%nat.
Proof using All.
  unfold ntouched. pose proof (Nat.div_mod_eq (off + k + n1 + 1023) 1024). pose proof (Nat.mod_upper_bound (off + k + n1 + 1023) 1024 ltac:(done)).
  pose proof (Nat.div_mod_eq (off + k) 1024). pose proof (Nat.mod_upper_bound (off + k) 1024 ltac:(done)). lia.
Qed.

Lemma chunk_range bn : touched (off + k) n1 bn -> bn ∈ range.
Proof using All.
  intros Hb. apply elem_of_seq. unfold touched, ntouched in *.
  pose proof (Nat.div_mod_eq (off + k + n1 + 1023) 1024). pose proof (Nat.mod_upper_bound (off + k + n1 + 1023) 1024 ltac:(done)).
  pose proof (Nat.div_mod_eq (off + k) 1024). pose proof (Nat.mod_upper_bound (off + k) 1024 ltac:(done)).
  pose proof (Nat.div_mod_eq (off + N + 1023) 1024). pose proof (Nat.mod_upper_bound (off + N + 1023) 1024 ltac:(done)).
  pose proof (Nat.div_mod_eq off 1024). pose proof (Nat.mod_upper_bound off 1024 ltac:(done)). lia.
Qed.

Lemma range_ok : Forall is_file_block range.
Proof using All.
  apply Forall_forall. intros bn Hbn%elem_of_seq. apply (touched_file off N); [apply (cw_end Hcw)|]. unfold touched. lia.
Qed.

(** The inode and the view after the chunk was written. *)
Record rewritten (x' : inode) (v' : Z -> list Z) : Prop := {
  rw_inode : i_dev x' = dev /\ i_inum x' = inum /\ 1 <= i_ref x' /\ i_valid x' = true /\ i_lock x' = Sleeplock true pid /\
    i_size x' = Z.max (i_size x0) (Z.of_nat (off + (k + n1)));
  rw_fs : fs_ok G ds v';
  rw_synced : synced G v' x';
  rw_in_use : forall i, in_use G v' i <-> in_use G V i;
  rw_bytes : disk_bytes G v' inum = splice (off + k) chunk (disk_bytes G V inum);
  rw_other : forall i, in_use G V i -> i <> inum -> disk_bytes G v' i = disk_bytes G V i;
  rw_avail : avail G (missing range v' x' + need x') v' }.

Lemma xl_facts : fs_ok G ds V /\ synced G V xl /\ in_use G V (i_inum xl) /\ good_file G ds V xl /\
  Z.of_nat (off + k) <= i_size xl /\ (off + k + length chunk <= Z.to_nat (MAXFILE * BSIZE))%nat.
Proof using All.
  pose proof (pg_inode _ _ _ Hp) as (_ & Hi & _ & _ & _ & Hs). pose proof (pg_synced _ _ _ Hp) as Hsy.
  assert (in_use G V (i_inum x)) as Hu by (rewrite Hi; apply (pg_in_use _ _ _ Hp), (cw_in_use Hcw)).
  assert (good_file G ds V x) as Hg.
  { destruct (synced_fields _ _ _ Hsy) as (Ha & Hz & _). eapply good_file_addrs; [symmetry; exact Ha|by symmetry|].
    by apply (pg_fs _ _ _ Hp). }
  split; [apply Hp|]. split; [|split; [done|split; [by eapply good_file_addrs; [..|exact Hg]|split]]].
  - unfold synced in *. change (set_dinode xl ?y) with ((set_dinode x y) <| i_lock := Sleeplock true pid |>).
    change (i_inum xl) with (i_inum x). by rewrite Hsy.
  - change (i_size xl) with (i_size x). rewrite Hs. lia.
  - rewrite chunk_length. pose proof (cw_end Hcw). lia.
Qed.

Lemma chunk_rewritten xw v B :
  wrote (begun s) ds xl V [] chunk (off + k) range (length chunk) xw v B ->
  let xf := resized chunk (off + k) xw in
  let v3 := updated (begun s) xl chunk (off + k) xw v in
  rewritten xf v3 /\ (forall n, length (v3 n) = Z.to_nat BSIZE).
Proof using All.
  intros Hw xf v3. destruct xl_facts as (Hfs & Hsy & Hu & Hg & Hof & Hen). destruct chunk_state as (Hsb & _).
  pose proof (cw_layout Hcw) as Hly. pose proof (pg_inode _ _ _ Hp) as (Hd & Hi & Hr & Hv & _ & Hs).
  assert (layout start cap (sb (begun s)) ds) as Hly' by (change (sb (begun s)) with (sb s); by rewrite Hsb).
  assert (fs_ok (sb (begun s)) ds V) as Hfs' by (change (sb (begun s)) with (sb s); by rewrite Hsb).
  assert (synced (sb (begun s)) V xl) as Hsy' by (change (sb (begun s)) with (sb s); by rewrite Hsb).
  assert (in_use (sb (begun s)) V (i_inum xl)) as Hu' by (change (sb (begun s)) with (sb s); by rewrite Hsb).
  pose proof (w_fs_ok start cap (begun s) ds Hly' xl V [] chunk (off + k) Hen Hfs' Hsy' Hu' Hof xw v B range Hw) as R1.
  pose proof (w_synced start cap (begun s) ds Hly' xl V [] chunk (off + k) Hen Hfs' Hsy' Hu' Hof xw v B range Hw) as R2.
  pose proof (w_in_use start cap (begun s) ds Hly' xl V [] chunk (off + k) Hen Hfs' Hsy' Hu' Hof xw v B range Hw) as R3.
  pose proof (w_disk_bytes start cap (begun s) ds Hly' xl V [] chunk (off + k) Hen Hfs' Hsy' Hu' Hof xw v B range Hw) as R4.
  pose proof (w_other_bytes start cap (begun s) ds Hly' xl V [] chunk (off + k) Hen Hfs' Hsy' Hu' Hof xw v B range Hw) as R5.
  pose proof (w_avail start cap (begun s) ds Hly' xl V [] chunk (off + k) Hen Hfs' Hsy' Hu' Hof xw v B range Hw) as R6.
  fold xf v3 in R1, R2, R3, R4, R5, R6. change (sb (begun s)) with (sb s) in *. rewrite Hsb in *.
  change (i_inum xl) with (i_inum x) in *. rewrite Hi in *.
  split; [|apply (fk_map _ _ _ R1)]. split; try done.
  pose proof (ex_inode _ _ _ _ _ _ _ _ _ (wr_ext _ _ _ _ _ _ _ _ _ _ _ _ Hw)) as Hx.
  assert (i_dev xf = i_dev xw /\ i_inum xf = i_inum xw /\ i_ref xf = i_ref xw /\ i_valid xf = i_valid xw /\ i_lock xf = i_lock xw /\
    i_size xf = Z.max (i_size xw) (Z.of_nat (off + k + length chunk))) as (-> & -> & -> & -> & -> & ->).
  { unfold xf, resized. destruct (Z.ltb_spec (i_size xw) (Z.of_nat (off + k + length chunk))); cbn; repeat split; lia. }
  rewrite Hx, chunk_length. do 5 (split; [done|]). change (i_size (xl <| i_addrs := _ |>)) with (i_size x). rewrite Hs. lia.
Qed.

(** [writei] of the chunk. *)
Lemma chunk_writei s1 :
  txs pid dev start cap (with_inode (begun s) ip xl) [] ∅ V s1 ->
  wp (writei ip (User (u64 (addr + Z.of_nat k))) (Z.of_nat (off + k)) (Z.of_nat n1))
    (fun r e' s' => e' = e /\ r = Z.of_nat n1 /\ exists x' v' B',
      txs pid dev start cap (with_inode (begun s) ip x') B' ∅ v' s' /\ B' <> [] /\ (length B' < NBUF)%nat /\
      rewritten x' v' /\ (forall n, length (v' n) = Z.to_nat BSIZE)) e s1.
Proof using All.
  intros Ht. destruct xl_facts as (Hfs & Hsy & Hu & Hg & Hof & Hen). destruct chunk_state as (Hsb & Hit & _ & Hview).
  pose proof (cw_layout Hcw) as Hly. pose proof (pg_inode _ _ _ Hp) as (Hd & Hi & Hr & Hv & _ & Hs).
  pose proof chunk_length as Hcl. pose proof chunk_touched as Hto. pose proof (cw_room Hcw) as Hro. pose proof (cw_nbuf Hcw) as Hnb.
  assert (user_bytes (begun s) (addr + Z.of_nat k) chunk) as Hub.
  { apply user_bytes_slice; [lia|]. eapply user_bytes_view; [|apply (cw_user Hcw)]. exact Hview. }
  assert (u64 (addr + Z.of_nat k) = addr + Z.of_nat k) as ->.
  { destruct (cw_user Hcw) as (? & ? & ? & _ & _ & _ & _ & ? & ? & _). apply u64_small. lia. }
  rewrite <- Hcl. eapply wp_mono.
  - apply (writei_spec pid dev start cap (begun s) ip ds) with (x0 := xl) (v0 := V) (B0 := []) (range := range); try done.
    + change (sb (begun s)) with (sb s). by rewrite Hsb.
    + apply (cw_dev Hcw).
    + change (itable (begun s)) with (itable s). rewrite Hit, length_insert. eapply lookup_lt_Some, (cw_inode Hcw).
    + by apply user_feeds.
    + rewrite Hcl. apply chunk_range.
    + apply range_ok.
    + apply NoDup_seq.
    + change (sb (begun s)) with (sb s). rewrite Hsb, Hcl. split; rewrite ?map_size_empty; cbn [length]; lia.
    + change (sb (begun s)) with (sb s). rewrite Hsb. apply Hu.
    + change (sb (begun s)) with (sb s). rewrite Hsb. apply Hg.
    + apply Hg.
    + change (sb (begun s)) with (sb s). rewrite Hsb. apply (pg_avail _ _ _ Hp).
  - intros r e' s' (-> & -> & xw & v & B & Hw & H' & Hin). split; [done|]. split; [done|].
    destruct (chunk_rewritten xw v B Hw) as [Hrw Hlen]. eexists _, _, _. split; [exact H'|].
    split; [|split; [|by split]].
    + intros HB. pose proof (proj2 (elem_of_log_add (iblock (begun s) xl) (iblock (begun s) xl) B) (or_introl eq_refl)) as Hin'.
      rewrite HB in Hin'. by apply elem_of_nil in Hin'.
    + pose proof (wrote_log_bound _ _ _ _ _ _ _ _ _ _ _ _ _ Hw (tx_nodup _ _ _ _ _ _ _ _ _ H')) as Hb.
      change (sb (begun s)) with (sb s) in Hb. rewrite Hsb, Hcl in Hb. cbn [length] in Hb. lia.
Qed.

Lemma chunk_rest x' t x'' :
  t = <[fd := fl <| f_off := Z.of_nat (off + (k + n1)) |>]> (ftable s) ->
  rest (with_inode (ftab (with_inode (begun s) ip x') t) ip x'') = rest (at_rest_w x'' (k + n1)).
Proof using All.
  intros ->. destruct chunk_state as (_ & Hit & Hft & _). pose proof (pg_rest _ _ _ Hp) as Hr.
  change (rest (at_rest_w ?y ?j)) with
    (retab (fst (rest s0)) (<[ip := y]> (itable s0)) (<[fd := fl <| f_off := Z.of_nat (off + j) |>]> (ftable s0)), snd (rest s0)) in *.
  change (rest (with_inode (ftab (with_inode (begun s) ip x') ?u) ip x'')) with
    (retab (fst (rest s)) (<[ip := x'']> (<[ip := x']> (itable s))) u, snd (rest s)).
  rewrite Hr. cbn [fst snd]. rewrite Hit, Hft, !list_insert_insert_eq. reflexivity.
Qed.

(** From [ilock] to [iunlock]. *)
Lemma chunk_locked {A} (c : Z -> K A) s1 (Q : A -> interference -> kstate -> Prop) :
  txs pid dev start cap (begun s) [] ∅ V s1 ->
  (forall x' v' B' s', let x'' := x' <| i_lock := Sleeplock false 0 |> in
     txs pid dev start cap (with_inode (ftab (with_inode (begun s) ip x')
       (<[fd := fl <| f_off := Z.of_nat (off + (k + n1)) |>]> (ftable s))) ip x'') B' ∅ v' s' ->
     B' <> [] -> (length B' < NBUF)%nat -> rewritten x' v' -> (forall n, length (v' n) = Z.to_nat BSIZE) ->
     wp (c (Z.of_nat n1)) Q e s') ->
  wp (ilock (Some ip) ;;; y <- get_file fd ;;
      r <- writei ip (User (u64 (addr + Z.of_nat k))) (f_off y) (Z.of_nat n1) ;;
      (if 0 <? r then set_file fd (fun y => y <| f_off := u32 (f_off y + r) |>) else retK tt) ;;;
      iunlock (Some ip) ;;; c r) Q e s1.
Proof using All.
  intros Ht HQ. destruct chunk_state as (_ & Hit & Hft & _). pose proof (pg_inode _ _ _ Hp) as (_ & _ & Hr & Hv & Hl & _).
  pose proof (lookup_lt_Some _ _ _ (cw_inode Hcw)) as Hipl. pose proof (lookup_lt_Some _ _ _ (cw_file Hcw)) as Hfdl.
  assert (ftable s !! fd = Some (fl <| f_off := Z.of_nat (off + k) |>)) as Hfd by (rewrite Hft; by apply list_lookup_insert_eq).
  apply wp_bind. eapply tx_ilock; [exact Ht| |done|done|done|].
  { change (itable (begun s)) with (itable s). rewrite Hit. by apply list_lookup_insert_eq. }
  intros s2 H2. apply wp_bind. eapply tx_get_file; [exact H2|exact Hfd|]. cbn [f_off upd].
  change (f_off (fl <| f_off := ?z |>)) with z. apply wp_bind. eapply wp_mono; [by apply chunk_writei|].
  intros r e' s3 (-> & -> & x' & v' & B' & H3 & HB & HBl & Hrw & Hlen). rewrite (proj2 (Z.ltb_lt _ _)) by lia.
  apply wp_bind. eapply tx_set_file; [exact H3|exact Hfd|]. intros s4 H4.
  assert (fl <| f_off := Z.of_nat (off + k) |> <| f_off := u32 (f_off (fl <| f_off := Z.of_nat (off + k) |>) + Z.of_nat n1) |> =
    fl <| f_off := Z.of_nat (off + (k + n1)) |>) as Ef.
  { change (f_off (fl <| f_off := ?z |>)) with z. rewrite u32_small.
    - replace (Z.of_nat (off + k) + Z.of_nat n1) with (Z.of_nat (off + (k + n1))) by lia. reflexivity.
    - pose proof (cw_end Hcw). change (MAXFILE * BSIZE) with 274432 in *. lia. }
  rewrite Ef in H4. change (ftable (with_inode (begun s) ip x')) with (ftable s) in H4.
  destruct (rw_inode _ _ Hrw) as (_ & _ & Hr' & _ & Hl' & _).
  apply wp_bind. eapply tx_iunlock; [exact H4| |done|done|].
  { apply list_lookup_insert_eq. change (ip < length (itable s))%nat. rewrite Hit, length_insert. done. }
  intros s5 H5. by eapply HQ.
Qed.

(** The transaction is on the disk [d]. *)
Lemma chunk_progress x' v' s' :
  rewritten x' v' -> fs_idle pid dev start cap s' -> (forall b, home start cap b -> dblock (disk s') b = v' b) ->
  rest s' = rest (at_rest_w (x' <| i_lock := Sleeplock false 0 |>) (k + n1)) ->
  progress (k + n1) (x' <| i_lock := Sleeplock false 0 |>) s'.
Proof using All.
  intros [Hi Hfs Hsy Hu Hb Ho Hav] Hid Hag Hr. pose proof (cw_layout Hcw) as Hly. set (V' := dblock (disk s')) in *.
  set (x'' := x' <| i_lock := Sleeplock false 0 |>) in *.
  assert (in_use G V inum) as HuV by apply (pg_in_use _ _ _ Hp), (cw_in_use Hcw).
  assert (synced G v' x'') as Hsy''.
  { unfold synced in *. change (set_dinode x'' ?y) with ((set_dinode x' y) <| i_lock := Sleeplock false 0 |>).
    change (i_inum x'') with (i_inum x'). by rewrite Hsy. }
  destruct Hi as (Hi1 & Hi2 & Hi3 & Hi4 & _ & Hi6).
  assert (file_ok G ds v' x'') as Hok.
  { destruct (synced_fields _ _ _ Hsy'') as (Ha & Hz & _). eapply good_file_addrs; [symmetry; exact Ha|by symmetry|].
    apply Hfs. apply Hu. change (i_inum x'') with (i_inum x'). by rewrite Hi2. }
  split; try done.
  - apply (agree_fs_ok start cap G ds v' V' Hly Hag Hfs). apply (id_sized _ _ _ _ _ Hid).
  - apply (agree_synced start cap G ds v' V' Hly Hag Hfs); [|done]. change (i_inum x'') with (i_inum x'). rewrite Hi2. apply HuV.
  - intros i. rewrite <- (pg_in_use _ _ _ Hp). rewrite <- Hu. by apply (agree_in_use start cap G ds).
  - rewrite (agree_bytes start cap G ds v' V' Hly Hag Hfs) by by apply Hu. rewrite Hb, (pg_bytes _ _ _ Hp).
    rewrite <- (take_take_drop bytes k n1), <- splice_splice.
    + f_equal. rewrite length_take. lia.
    + rewrite old_length. unfold isize. pose proof (cw_start Hcw). lia.
  - intros i Hiu Hne. assert (in_use G V i) as HiV by by apply (pg_in_use _ _ _ Hp).
    rewrite (agree_bytes start cap G ds v' V' Hly Hag Hfs) by by apply Hu. rewrite Ho by done. by apply (pg_other _ _ _ Hp).
  - apply (agree_avail start cap G ds v' V' Hly Hag Hfs); [done|]. exact Hav.
Qed.

Lemma chunk_body :
  wp (filewrite_body fd addr (Z.of_nat N) (Z.of_nat k)) (fun r e' s' =>
    e' = e /\ r = inl (Z.of_nat (k + n1)) /\ exists x' v' ws, progress (k + n1) (x' <| i_lock := Sleeplock false 0 |>) s' /\
      (forall b, home start cap b -> dblock (disk s') b = v' b) /\ disk s' = apply_writes ws (disk s) /\
      forall ws1 ws2, ws = ws1 ++ ws2 -> recovers_to dev start cap (disk s) ws1 V v') e s.
Proof using All.
  destruct chunk_state as (Hsb & Hit & Hft & _). pose proof (pg_idle _ _ _ Hp) as Hid.
  pose proof (cw_layout Hcw) as Hly. pose proof (ly_log _ _ _ _ Hly) as (Hst0 & Hcp & _).
  unfold filewrite_body. rewrite (proj2 (Z.ltb_lt _ _)) by lia. cbn [negb].
  assert (Z.min (Z.of_nat N - Z.of_nat k) filewrite_max = Z.of_nat n1) as -> by (change filewrite_max with 3072; lia).
  assert (get_file fd e s = Ok (fl <| f_off := Z.of_nat (off + k) |>) e s) as Hgf.
  { unfold get_file. rewrite Hft, list_lookup_insert_eq; [done|]. eapply lookup_lt_Some, (cw_file Hcw). }
  apply wp_bind. wprun Hgf. change (f_ip (fl <| f_off := _ |>)) with (f_ip fl). rewrite (cw_ip Hcw).
  destruct (begin_op_idle pid dev start cap e s Hid) as [Hb Hb1]. apply wp_bind. wprun Hb.
  eapply chunk_locked; [exact Hb1|]. intros x' v' B' s1 x'' H1 HB HBl Hrw Hlen. apply wp_bind.
  destruct (end_op_spec pid dev start cap (cw_dev Hcw) Hst0 (layout_end _ _ _ _ Hly) Hcp _ B' v' e s1 H1 HB HBl)
    as (ws & s' & Hend & Hid' & Hr' & Hd' & Hag & Hcr).
  { destruct (tx_frame _ _ _ _ _ _ _ _ _ H1) as (ps & bs & l & -> & _ & Ho & _). cbn. rewrite Ho. cbn. by rewrite (id_out _ _ _ _ _ Hid). }
  { destruct (tx_frame _ _ _ _ _ _ _ _ _ H1) as (ps & bs & l & -> & _ & _ & Ho). cbn. rewrite Ho. apply (id_committing _ _ _ _ _ Hid). }
  { rewrite (txs_disk _ _ _ _ _ _ _ _ _ H1). apply (id_sized _ _ _ _ _ Hid). }
  { exact Hlen. }
  { rewrite (txs_disk _ _ _ _ _ _ _ _ _ H1). apply (id_empty _ _ _ _ _ Hid). }
  rewrite (txs_disk _ _ _ _ _ _ _ _ _ H1) in Hd', Hcr.
  wprun Hend. rewrite Z.eqb_refl. cbn [negb]. apply wp_ret. split; [done|]. split; [f_equal; lia|].
  exists x', v', ws. split; [|by split].
  apply (chunk_progress x' v' s'); try done. rewrite Hr', (tframe_rest _ _ (tx_frame _ _ _ _ _ _ _ _ _ H1)).
  by apply chunk_rest.
Qed.
End Chunk.

(** ** The loop *)

(** A crash when [ws1] of the block writes had reached the disk: recovery leaves the bytes of some
    of the transactions, those up to [j], and the other files as they were. *)
Definition crash_leaves (k : nat) (ws1 : list (Z * list Z)) : Prop :=
  forall pid1 e1 s1, rebooted pid1 dev start cap (apply_writes ws1 (disk s0)) s1 ->
    exists s2 j, recover_from_log e1 s1 = Ok tt e1 s2 /\ hdr_n (dblock (disk s2) start) = 0 /\
      (j <= k)%nat /\ (j = N \/ (3072 | Z.of_nat j)) /\
      disk_bytes G (dblock (disk s2)) inum = splice off (take j bytes) old /\
      forall i, in_use G (dblock (disk s0)) i -> i <> inum ->
        disk_bytes G (dblock (disk s2)) i = disk_bytes G (dblock (disk s0)) i.

(** The view that recovery leaves is that after [k] bytes. *)
Lemma crash_view k x s V2 : progress k x s -> (forall b, home start cap b -> V2 b = dblock (disk s) b) ->
  disk_bytes G V2 inum = splice off (take k bytes) old /\
  forall i, in_use G (dblock (disk s0)) i -> i <> inum -> disk_bytes G V2 i = disk_bytes G (dblock (disk s0)) i.
Proof using All.
  intros Hp Hag. pose proof (cw_layout Hcw) as Hly.
  pose proof (fun i Hi => agree_bytes start cap G ds (dblock (disk s)) V2 Hly Hag (pg_fs _ _ _ Hp) i (proj2 (pg_in_use _ _ _ Hp i) Hi)) as Hb.
  split; [rewrite Hb by apply (cw_in_use Hcw); apply Hp|]. intros i Hi Hne. rewrite Hb by done. by apply (pg_other _ _ _ Hp).
Qed.

Lemma crash_start : crash_leaves 0 [].
Proof using All.
  intros pid1 e1 s1 Hboot. pose proof (cw_layout Hcw) as Hly. pose proof (ly_log _ _ _ _ Hly) as (Hst0 & Hcp & _).
  destruct (recover_crashed pid1 dev start cap (disk s0) (dblock (disk s0)) e1 s1) as (s2 & Hr & Hn & Hw); try done.
  - apply (cw_dev Hcw).
  - split; [done|apply (layout_end _ _ _ _ Hly)].
  - pose proof (id_sized _ _ _ _ _ (cw_idle Hcw) start) as Hsz.
    apply (recovers_idle start cap [] (disk s0)); try done; [cbn; lia|apply (id_empty _ _ _ _ _ (cw_idle Hcw))].
  - exists s2, 0%nat. split; [done|]. split; [done|]. split; [done|]. split; [right; by exists 0|].
    by eapply crash_view; [apply progress_start|].
Qed.

Lemma crash_step k x s ws x' v' ws' s' :
  progress k x s -> (k < N)%nat -> (3072 | Z.of_nat k) -> disk s = apply_writes ws (disk s0) ->
  (forall ws1 ws2, ws = ws1 ++ ws2 -> crash_leaves k ws1) ->
  progress (k + Nat.min (N - k) 3072) x' s' -> (forall b, home start cap b -> dblock (disk s') b = v' b) ->
  (forall ws1 ws2, ws' = ws1 ++ ws2 -> recovers_to dev start cap (disk s) ws1 (dblock (disk s)) v') ->
  forall ws1 ws2, ws ++ ws' = ws1 ++ ws2 -> crash_leaves (k + Nat.min (N - k) 3072) ws1.
Proof using All.
  intros Hp Hk Hdiv Hd Hold Hp' Hv' Hnew ws1 ws2 Hws. apply app_eq_app in Hws as (l & [[-> ->]|[-> ->]]).
  - intros pid1 e1 s1 Hboot. destruct (Hold ws1 l eq_refl pid1 e1 s1 Hboot) as (s2 & j & ? & ? & Hj & ?).
    exists s2, j. do 2 (split; [done|]). split; [lia|done].
  - intros pid1 e1 s1 Hboot. rewrite apply_writes_app, <- Hd in Hboot.
    destruct (Hnew l ws2 eq_refl pid1 e1 s1 Hboot) as (s2 & Hr & Hn & [Hw|Hw]).
    + exists s2, k. do 2 (split; [done|]). split; [lia|]. split; [by right|]. by eapply crash_view.
    + exists s2, (k + Nat.min (N - k) 3072)%nat. do 2 (split; [done|]). split; [done|].
      split; [|eapply crash_view; [exact Hp'|]; intros b Hb; by rewrite Hw, Hv'].
      destruct (decide (N - k <= 3072)%nat); [left; lia|right]. rewrite Nat.min_r by lia.
      destruct Hdiv as [c Hc]. exists (c + 1). lia.
Qed.

Lemma filewrite_loop fuel k x s e ws :
  progress k x s -> (k <= N)%nat -> (k = N \/ (3072 | Z.of_nat k)) -> (N - k < fuel)%nat ->
  disk s = apply_writes ws (disk s0) -> (forall ws1 ws2, ws = ws1 ++ ws2 -> crash_leaves k ws1) ->
  wp (whileK fuel (filewrite_body fd addr (Z.of_nat N)) (Z.of_nat k)) (fun r e' s' => e' = e /\ r = Z.of_nat N /\
    exists x' ws', progress N x' s' /\ disk s' = apply_writes ws' (disk s0) /\
      forall ws1 ws2, ws' = ws1 ++ ws2 -> crash_leaves N ws1) e s.
Proof using All.
  revert k x s ws. induction fuel as [|fuel IH]; intros k x s ws Hp Hk Hkd Hf Hd Hcr; [lia|]. apply wp_whileK.
  destruct (decide (k < N)%nat) as [Hlt|Hge].
  - eapply wp_mono; [by apply (chunk_body k x s e Hp Hlt)|].
    intros r e' s' (-> & -> & x' & v' & ws' & Hp' & Hag & Hd' & Hnew).
    eapply (IH _ _ s' (ws ++ ws')); [exact Hp'|lia| |lia|by rewrite apply_writes_app, <- Hd|].
    + destruct Hkd as [?|[c Hc]]; [lia|]. destruct (decide (N - k <= 3072)%nat); [left; lia|right]. exists (c + 1). lia.
    + destruct Hkd as [?|Hkd]; [lia|]. by eapply crash_step.
  - assert (k = N) as -> by lia. unfold filewrite_body. rewrite (proj2 (Z.ltb_ge _ _)) by lia. cbn [negb]. apply wp_ret.
    split; [done|]. split; [done|]. by exists x, ws.
Qed.
Lemma progress_file k x s : progress k x s -> itable s !! ip = Some x /\ good_file G ds (dblock (disk s)) x /\
  file_bytes (dblock (disk s)) x = splice off (take k bytes) old.
Proof using All.
  intros Hp. pose proof (pg_inode _ _ _ Hp) as (_ & Hi & _). destruct (synced_fields _ _ _ (pg_synced _ _ _ Hp)) as (Ha & Hz & _).
  assert (good_file G ds (dblock (disk s)) (disk_ino G (dblock (disk s)) (i_inum x))) as Hg.
  { apply (pg_fs _ _ _ Hp). rewrite Hi. apply (pg_in_use _ _ _ Hp), (cw_in_use Hcw). }
  split; [|split].
  - rewrite (f_equal (fun r => itable (fst r)) (pg_rest _ _ _ Hp) : itable s = <[ip := x]> (itable s0)).
    apply list_lookup_insert_eq. eapply lookup_lt_Some, (cw_inode Hcw).
  - by eapply good_file_addrs; [symmetry; exact Ha|symmetry; exact Hz|].
  - rewrite <- (pg_bytes _ _ _ Hp). unfold disk_bytes. rewrite <- Hi. by eapply file_bytes_same.
Qed.
End FileWrite.

Lemma filewrite_runs pid dev start cap ds s0 fd ip fl x0 addr bytes off e :
  can_write pid dev start cap ds s0 fd ip fl x0 addr bytes off ->
  exists ws x s, filewrite fd addr (Z.of_nat (length bytes)) e s0 = Ok (Z.of_nat (length bytes)) e s /\
    progress pid dev start cap ds s0 fd ip fl x0 bytes off (length bytes) x s /\
    disk s = apply_writes ws (disk s0) /\
    forall ws1 ws2, ws = ws1 ++ ws2 -> crash_leaves dev start cap s0 x0 bytes off (length bytes) ws1.
Proof.
  intros Hcw.
  assert (wp (filewrite fd addr (Z.of_nat (length bytes))) (fun r e' s => e' = e /\ r = Z.of_nat (length bytes) /\
    exists ws x, progress pid dev start cap ds s0 fd ip fl x0 bytes off (length bytes) x s /\
    disk s = apply_writes ws (disk s0) /\
    forall ws1 ws2, ws = ws1 ++ ws2 -> crash_leaves dev start cap s0 x0 bytes off (length bytes) ws1) e s0) as H.
  { unfold filewrite. apply wp_bind. eapply (wp_ok _ _ _ _ fl e s0); [unfold get_file; by rewrite (cw_file _ _ _ _ _ _ _ _ _ _ _ _ _ Hcw)|].
    rewrite (cw_writable _ _ _ _ _ _ _ _ _ _ _ _ _ Hcw), (cw_type _ _ _ _ _ _ _ _ _ _ _ _ _ Hcw). cbn [negb]. apply wp_bind.
    rewrite Nat2Z.id. change 0 with (Z.of_nat 0) at 1.
    eapply wp_mono; [eapply (filewrite_loop _ _ _ _ _ _ _ _ _ _ _ _ _ Hcw _ 0 x0 s0 e []); [by eapply progress_start|lia|right; by exists 0|lia|done|]|].
    - intros ws1 ws2 Hn. symmetry in Hn. apply app_eq_nil in Hn as [-> ->]. by eapply crash_start.
    - intros r e' s' (-> & -> & x & ws & Hp & Hd & Hcr). apply wp_ret. rewrite Z.eqb_refl. split; [done|]. split; [done|].
      by exists ws, x. }
  apply wp_run in H as (r & e' & s & Hrun & -> & -> & ws & x & Hp). by exists ws, x, s.
Qed.

(** C1: [filewrite] on a file, from user memory, whatever the length.  The call returns the number
    of bytes; the machine is idle again, the file system is sound, the file on the disk is the old
    one with the new bytes laid over it (it grows when they reach beyond its end), its inode in
    memory agrees with the disk, the offset has moved, and every other file is as it was.  When
    the machine crashes after any number of the block writes, recovery leaves the file with the
    bytes of the first transactions (a multiple of three blocks, or all), and the other files as
    they were. *)
Theorem filewrite_crash_safe pid dev start cap ds s0 fd ip fl x0 addr bytes off e :
  can_write pid dev start cap ds s0 fd ip fl x0 addr bytes off ->
  exists ws x s, filewrite fd addr (Z.of_nat (length bytes)) e s0 = Ok (Z.of_nat (length bytes)) e s /\
    progress pid dev start cap ds s0 fd ip fl x0 bytes off (length bytes) x s /\
    disk s = apply_writes ws (disk s0) /\
    forall ws1 ws2, ws = ws1 ++ ws2 -> crash_leaves dev start cap s0 x0 bytes off (length bytes) ws1.
Proof. apply filewrite_runs. Qed.

(** ** Reading it back *)

Lemma readi_good pid dev G ds ip x acc off n e s :
  caller pid s -> brep dev ∅ s -> itable s !! ip = Some x -> i_dev x = dev ->
  good_file G ds (dblock (disk s)) x -> (off + n <= isize x)%nat ->
  exists s', readi ip (Kern acc) (Z.of_nat off) (Z.of_nat n) e s =
    Ok (Z.of_nat n, Kern (acc ++ slice off n (file_bytes (dblock (disk s)) x))) e s' /\ disk s' = disk s.
Proof.
  intros Hc Hrep Hx Hd Hg Hle. pose proof (gf_size _ _ _ _ Hg) as Hsz. change (MAXFILE * BSIZE) with 274432 in Hsz.
  assert (forall bn, (bn < nblk (isize x))%nat -> faddr (dblock (disk s)) x bn <> 0) as Hm by apply Hg.
  assert (wp (readi ip (Kern acc) (Z.of_nat off) (Z.of_nat n)) (fun r e' s' => e' = e /\ reading pid dev (disk s) s ∅ s' /\
    let m := Z.min (Z.of_nat n) (Z.of_nat (isize x) - Z.of_nat off) in
    r = (m, Kern (acc ++ slice (Z.to_nat (Z.of_nat off)) (Z.to_nat m) (file_blocks (bview ∅ (disk s)) x (nblk (isize x)))))) e s) as H.
  { eapply readi_spec; [|exact Hx|done|unfold isize; lia|unfold isize; change (MAXFILE * BSIZE) with 274432; lia| | |
      by apply reading_start|lia|lia|unfold isize in *; lia].
    - intros b. unfold can_bread. rewrite lookup_empty, map_size_empty. unfold NBUF. lia.
    - intros bn Hbn. split; [by eapply good_block|]. change (bview ∅ (disk s)) with (dblock (disk s)).
      rewrite bmap_faddr by auto. split; [auto|]. intros Hge Hi. apply (Hm bn Hbn). unfold faddr, ind.
      rewrite decide_False by lia. by rewrite decide_True.
    - intros bn _. apply Hg. }
  apply wp_run in H as (r & e' & s' & Hrun & -> & Hr & ->). exists s'. split; [|apply Hr]. rewrite Hrun.
  rewrite Z.min_l, !Nat2Z.id by (unfold isize in *; lia). do 4 f_equal. unfold file_bytes.
  change (Z.to_nat (i_size x)) with (isize x). unfold slice. rewrite !take_drop_commute, take_take.
  by rewrite Nat.min_l by lia.
Qed.

(** C3: What [filewrite] wrote, [readi] reads: after a write of any length at any offset of a
    file, a read of as many bytes at the same offset gives the bytes the caller had. *)
Theorem filewrite_readi_roundtrip pid dev start cap ds s0 fd ip fl x0 addr bytes off e :
  can_write pid dev start cap ds s0 fd ip fl x0 addr bytes off ->
  exists s s', filewrite fd addr (Z.of_nat (length bytes)) e s0 = Ok (Z.of_nat (length bytes)) e s /\
    readi ip (Kern []) (Z.of_nat off) (Z.of_nat (length bytes)) e s = Ok (Z.of_nat (length bytes), Kern bytes) e s'.
Proof.
  intros Hcw. destruct (filewrite_runs _ _ _ _ _ _ _ _ _ _ _ _ _ e Hcw) as (ws & x & s & Hrun & Hp & _).
  destruct (progress_file _ _ _ _ _ _ _ _ _ _ _ _ _ Hcw _ _ _ Hp) as (Hx & Hg & Hb).
  pose proof (pg_inode _ _ _ _ _ _ _ _ _ _ _ _ _ _ _ Hp) as (Hd & _ & _ & _ & _ & Hz).
  pose proof (pg_idle _ _ _ _ _ _ _ _ _ _ _ _ _ _ _ Hp) as Hid.
  destruct (readi_good pid dev _ ds ip x [] off (length bytes) e s (id_caller _ _ _ _ _ Hid) (id_rep _ _ _ _ _ Hid)
    Hx Hd Hg) as (s' & Hr & _); [unfold isize; lia|].
  exists s, s'. split; [done|]. rewrite Hr. cbn [app]. rewrite Hb, take_ge by lia. rewrite slice_splice; [done|].
  rewrite (old_length _ _ _ _ _ _ _ _ _ _ _ _ _ Hcw). pose proof (cw_start _ _ _ _ _ _ _ _ _ _ _ _ _ Hcw). unfold isize. lia.
Qed.

(** ** A machine with one empty file *)

Definition demo_sb : superblock := Superblock FSMAGIC 1000 954 200 30 2 32 45.
Definition demo_dinode : list Z := replicate 64 0 ++ [2; 0] ++ replicate 958 0.
Definition demo_bitmap : list Z := replicate 5 255 ++ [63] ++ replicate 1018 0.
Definition demo_disk : diskstate := Disk {[ 32 := demo_dinode; 45 := demo_bitmap ]} [].
Definition demo_ino : inode := Inode ROOTDEV 1 1 sleeplock0 true 2 0 0 0 0 (replicate 13 0).
Definition demo_file : file := File FD_INODE 1 true true 0 (Some 0%nat) 0 0.
Definition demo_fs (bs : list buf) : kstate :=
  KState (syms demo_space) [] (mem demo_space) (freelist demo_space) demo_procs None 1 1 (Some 0%nat) (Some (0, 0)%nat)
    (bsems demo_space) 0 0 false (csr demo_space) bs (Log 2 30 0 false ROOTDEV 0 (replicate nlog 0)) demo_sb
    (<[0%nat := demo_ino]> (replicate NINODE inode0)) (<[0%nat := demo_file]> (replicate NFILE file0)) ∅
    (cons_dev demo_space) (uart_dev demo_space) demo_disk.
Definition demo_bytes : list Z := ubytes (mem demo_space) demo_pt 0 3.

Lemma demo_block n : dblock demo_disk n =
  if decide (n = 32) then demo_dinode else if decide (n = 45) then demo_bitmap else zero_block.
Proof.
  unfold dblock, demo_disk. cbn [dk_blocks]. rewrite lookup_insert. repeat case_decide; subst; try done.
  by rewrite lookup_singleton_ne.
Qed.

Lemma demo_in_use i : in_use demo_sb (dblock demo_disk) i <-> i = 1.
Proof.
  split; [|intros ->; by vm_compute]. intros [Hi Ht]. change (sb_ninodes demo_sb) with 200 in Hi.
  assert (forallb (fun i => (i =? 1) || (i_type (disk_ino demo_sb (dblock demo_disk) i) =? 0)) (seqZ 0 200) = true) as H
    by (vm_compute; reflexivity).
  rewrite forallb_forall in H. specialize (H i). rewrite <- list_elem_of_In, elem_of_seqZ in H.
  specialize (H ltac:(lia)). apply orb_true_iff in H as [?%Z.eqb_eq|?%Z.eqb_eq]; done.
Qed.

Lemma demo_faddr v bn : faddr v (disk_ino demo_sb (dblock demo_disk) 1) bn = 0.
Proof.
  assert (i_addrs (disk_ino demo_sb (dblock demo_disk) 1) = replicate 13 0) as Ha by (vm_compute; reflexivity).
  unfold faddr, ind. rewrite Ha. case_decide; [|done].
  apply list_lookup_total_correct, lookup_replicate_2. change (Z.to_nat NDIRECT) with 12%nat in *. lia.
Qed.

Lemma demo_fs_ok : fs_ok demo_sb 46 (dblock demo_disk).
Proof.
  assert (map_ok demo_sb 46 (dblock demo_disk)) as Hm.
  { split.
    - intros b Hb. assert (forallb (allocated demo_sb (dblock demo_disk)) (seqZ 0 46) = true) as H by (vm_compute; reflexivity).
      rewrite forallb_forall in H. apply H. rewrite <- list_elem_of_In, elem_of_seqZ. lia.
    - intros n. rewrite demo_block. repeat case_decide; reflexivity. }
  split; [done| |].
  - intros i ->%demo_in_use. split; [split; [done|reflexivity|by intros []| |]| |].
    + intros bn _. by rewrite demo_faddr.
    + intros bn bn' _ _ _. by rewrite demo_faddr.
    + by vm_compute.
    + intros bn Hbn. by apply Nat.nlt_0_r in Hbn.
  - by intros i j n ->%demo_in_use ->%demo_in_use.
Qed.

Lemma demo_fs_idle : exists bs, fs_idle 0 ROOTDEV 2 29 (demo_fs bs).
Proof.
  destruct (binit_spec ROOTDEV [] (demo_fs (replicate (S NBUF) buf0))) as (bs & _ & Hrep); [|done|].
  { split; [reflexivity|]. intros b x [-> _]%lookup_replicate. done. }
  exists bs. split; try done.
  - split; [|split; [reflexivity|by apply Forall_replicate]|intros l Hl; by apply elem_of_nil in Hl].
    exists 0%nat, (proc0 <| p_pagetable := demo_pt |>). split; [done|]. split; [by apply lookup_replicate_2; unfold NPROC; lia|done].
  - split; try done. by exists (replicate nlog 0).
  - exact (mo_len _ _ _ (fk_map _ _ _ demo_fs_ok)).
Qed.

Lemma demo_can_write bs : fs_idle 0 ROOTDEV 2 29 (demo_fs bs) ->
  can_write 0 ROOTDEV 2 29 46 (demo_fs bs) 0 0 demo_file demo_ino 0 demo_bytes 0.
Proof.
  intros Hid. assert (length demo_bytes = 3%nat) as Hlen by apply ubytes_length.
  split; try reflexivity; rewrite ?Hlen.
  - done.
  - split; by vm_compute.
  - done.
  - exact demo_fs_ok.
  - by apply demo_in_use.
  - apply Nat2Z.inj_le. by vm_compute.
  - done.
  - by apply Nat.ltb_lt.
  - change (avail demo_sb (missing (seq 0 (ntouched 0 (length demo_bytes))) (dblock demo_disk) demo_ino + 1) (dblock demo_disk)).
    rewrite Hlen. exists [46; 47]. split; [by apply (bool_decide_unpack (NoDup [46; 47]))|]. split; [done|]. repeat constructor; by vm_compute.
  - destruct demo_space_ok as ([l Hwf] & _ & Hm). exists 0%nat, (proc0 <| p_pagetable := demo_pt |>), l.
    split; [done|]. split; [by apply lookup_replicate_2; unfold NPROC; lia|]. rewrite Hlen.
    split; [exact (pt_wf_ext demo_space (demo_fs bs) demo_pt l eq_refl eq_refl Hwf)|]. split; [exact demo_space_end|].
    split; [done|]. split; [done|]. split; [exact (Hm 3%nat ltac:(lia))|reflexivity].
Qed.

Lemma filewrite_crash_safe_witness : exists bs ws x s,
  filewrite 0 0 (Z.of_nat (length demo_bytes)) [] (demo_fs bs) = Ok (Z.of_nat (length demo_bytes)) [] s /\
  progress 0 ROOTDEV 2 29 46 (demo_fs bs) 0 0 demo_file demo_ino demo_bytes 0 (length demo_bytes) x s /\
  disk s = apply_writes ws (disk (demo_fs bs)) /\
  forall ws1 ws2, ws = ws1 ++ ws2 ->
    crash_leaves ROOTDEV 2 29 (demo_fs bs) demo_ino demo_bytes 0 (length demo_bytes) ws1.
Proof.
  destruct demo_fs_idle as [bs Hid]. exists bs.
  apply (filewrite_crash_safe 0 ROOTDEV 2 29 46 (demo_fs bs) 0 0 demo_file demo_ino 0 demo_bytes 0 []).
  exact (demo_can_write bs Hid).
Defined.

Lemma filewrite_readi_roundtrip_witness : exists bs s s',
  filewrite 0 0 (Z.of_nat (length demo_bytes)) [] (demo_fs bs) = Ok (Z.of_nat (length demo_bytes)) [] s /\
  readi 0 (Kern []) (Z.of_nat 0) (Z.of_nat (length demo_bytes)) [] s =
    Ok (Z.of_nat (length demo_bytes), Kern demo_bytes) [] s'.
Proof.
  destruct demo_fs_idle as [bs Hid]. exists bs.
  apply (filewrite_readi_roundtrip 0 ROOTDEV 2 29 46 (demo_fs bs) 0 0 demo_file demo_ino 0 demo_bytes 0 []).
  exact (demo_can_write bs Hid).
Defined.
