(* ===== verification/Asm.v ===== *)
(** * The assembly code: trampoline.S, swtch.S, kernelvec.S, entry.S

    The instructions the kernel's assembly files use, run on one hart (a CPU): its registers,
    its control and status registers, the privilege mode and the program counter.  Memory is
    physical; an access goes through [translate], the address translation that the hardware
    does for the page table in [satp].  A routine is the list of its instructions. *)

From stdpp Require Import base numbers list gmap strings.
From S2P Require Import Prelude Mem Types Riscv.

Inductive reg :=
| ra | sp | gp | tp | t0 | t1 | t2 | s0 | s1 | a0 | a1 | a2 | a3 | a4 | a5 | a6 | a7
| s2 | s3 | s4 | s5 | s6 | s7 | s8 | s9 | s10 | s11 | t3 | t4 | t5 | t6.
#[export] Instance reg_eq_dec : EqDecision reg.
Proof. solve_decision. Defined.

Inductive csr :=
| mhartid | mstatus | mepc | sstatus | sip | sie | mie | sepc | medeleg | mideleg | stvec | mtvec
| satp | sscratch | mscratch | scause | stval | mcounteren.
#[export] Instance csr_eq_dec : EqDecision csr.
Proof. solve_decision. Defined.

Inductive priv := User_mode | Supervisor_mode | Machine_mode.

Record hart := Hart {
  h_regs : reg -> Z;
  h_csrs : csr -> Z;
  h_mem : gmap Z Z;
  h_mode : priv;
  h_pc : Z }.

Definition set {X} `{EqDecision X} (x : X) (v : Z) (g : X -> Z) : X -> Z :=
  fun y => if decide (y = x) then v else g y.

Definition set_reg (d : reg) (v : Z) (h : hart) : hart :=
  Hart (set d v (h_regs h)) (h_csrs h) (h_mem h) (h_mode h) (h_pc h).
Definition set_csr (c : csr) (v : Z) (h : hart) : hart :=
  Hart (h_regs h) (set c v (h_csrs h)) (h_mem h) (h_mode h) (h_pc h).
Definition set_mem (m : gmap Z Z) (h : hart) : hart :=
  Hart (h_regs h) (h_csrs h) m (h_mode h) (h_pc h).
Definition jump (p : priv) (pc : Z) (h : hart) : hart :=
  Hart (h_regs h) (h_csrs h) (h_mem h) p pc.

(** Field [lo], [width] bits wide, of a register. *)
Definition field (x lo width : Z) : Z := Z.land (Z.shiftr x lo) (2 ^ width - 1).
Definition set_field (x lo width v : Z) : Z :=
  Z.lor (Z.ldiff x (Z.shiftl (2 ^ width - 1) lo)) (Z.shiftl (Z.land v (2 ^ width - 1)) lo).

Definition priv_of (n : Z) : priv :=
  if n =? 0 then User_mode else if n =? 1 then Supervisor_mode else Machine_mode.

(** Return from a trap: the previous mode and interrupt enable are restored, the previous
    mode becomes user mode. *)
Definition do_sret (h : hart) : hart :=
  let x := h_csrs h sstatus in
  jump (priv_of (field x 8 1)) (h_csrs h sepc)
    (set_csr sstatus (set_field (set_field (set_field x 1 1 (field x 5 1)) 5 1 1) 8 1 0) h).
Definition do_mret (h : hart) : hart :=
  let x := h_csrs h mstatus in
  jump (priv_of (field x 11 2)) (h_csrs h mepc)
    (set_csr mstatus (set_field (set_field (set_field x 3 1 (field x 7 1)) 7 1 1) 11 2 0) h).

Inductive instr :=
| Sd (r : reg) (off : Z) (base : reg)
| Ld (r : reg) (off : Z) (base : reg)
| Csrrw (d : reg) (c : csr) (r : reg)
| Csrr (d : reg) (c : csr)
| Csrw (c : csr) (r : reg)
| Addi (d r : reg) (imm : Z)
| Add (d r q : reg)
| Mul (d r q : reg)
| Li (d : reg) (imm : Z)
| La (d : reg) (sym : Z)
| Sfence_vma
| Jr (r : reg)
| Ret
| Call (g : hart -> hart)
| Sret
| Mret.

Section Machine.
Context (translate : Z -> Z -> Z).

(** Machine mode uses physical addresses. *)
Definition addr_of (h : hart) (off : Z) (base : reg) : Z :=
  match h_mode h with
  | Machine_mode => u64 (h_regs h base + off)
  | _ => translate (h_csrs h satp) (u64 (h_regs h base + off))
  end.

(** A [call] stands for the run of the function that it calls. *)
Definition exec1 (c : instr) (h : hart) : hart :=
  match c with
  | Sd r off b => set_mem (store64 (h_mem h) (addr_of h off b) (h_regs h r)) h
  | Ld r off b => set_reg r (load64 (h_mem h) (addr_of h off b)) h
  | Csrrw d c r => set_reg d (h_csrs h c) (set_csr c (h_regs h r) h)
  | Csrr d c => set_reg d (h_csrs h c) h
  | Csrw c r => set_csr c (h_regs h r) h
  | Addi d r imm => set_reg d (u64 (h_regs h r + imm)) h
  | Add d r q => set_reg d (u64 (h_regs h r + h_regs h q)) h
  | Mul d r q => set_reg d (u64 (h_regs h r * h_regs h q)) h
  | Li d imm => set_reg d (u64 imm) h
  | La d sym => set_reg d sym h
  | Sfence_vma => h
  | Jr r => jump (h_mode h) (h_regs h r) h
  | Ret => jump (h_mode h) (h_regs h ra) h
  | Call g => g h
  | Sret => do_sret h
  | Mret => do_mret h
  end.

Definition exec (l : list instr) (h : hart) : hart := foldl (fun h c => exec1 c h) h l.

Lemma exec_app l1 l2 h : exec (l1 ++ l2) h = exec l2 (exec l1 h).
Proof. apply foldl_app. Qed.
End Machine.

(** ** The routines *)

Definition uservec : list instr :=
  [ Csrrw a0 sscratch a0;
    Sd ra 40 a0; Sd sp 48 a0; Sd gp 56 a0; Sd tp 64 a0; Sd t0 72 a0; Sd t1 80 a0; Sd t2 88 a0;
    Sd s0 96 a0; Sd s1 104 a0; Sd a1 120 a0; Sd a2 128 a0; Sd a3 136 a0; Sd a4 144 a0; Sd a5 152 a0;
    Sd a6 160 a0; Sd a7 168 a0; Sd s2 176 a0; Sd s3 184 a0; Sd s4 192 a0; Sd s5 200 a0; Sd s6 208 a0;
    Sd s7 216 a0; Sd s8 224 a0; Sd s9 232 a0; Sd s10 240 a0; Sd s11 248 a0; Sd t3 256 a0; Sd t4 264 a0;
    Sd t5 272 a0; Sd t6 280 a0;
    Csrr t0 sscratch; Sd t0 112 a0;
    Ld sp 8 a0; Ld tp 32 a0; Ld t0 16 a0; Ld t1 0 a0; Csrw satp t1; Sfence_vma;
    Jr t0 ].

Definition userret : list instr :=
  [ Csrw satp a1; Sfence_vma;
    Ld t0 112 a0; Csrw sscratch t0;
    Ld ra 40 a0; Ld sp 48 a0; Ld gp 56 a0; Ld tp 64 a0; Ld t0 72 a0; Ld t1 80 a0; Ld t2 88 a0;
    Ld s0 96 a0; Ld s1 104 a0; Ld a1 120 a0; Ld a2 128 a0; Ld a3 136 a0; Ld a4 144 a0; Ld a5 152 a0;
    Ld a6 160 a0; Ld a7 168 a0; Ld s2 176 a0; Ld s3 184 a0; Ld s4 192 a0; Ld s5 200 a0; Ld s6 208 a0;
    Ld s7 216 a0; Ld s8 224 a0; Ld s9 232 a0; Ld s10 240 a0; Ld s11 248 a0; Ld t3 256 a0; Ld t4 264 a0;
    Ld t5 272 a0; Ld t6 280 a0;
    Csrrw a0 sscratch a0;
    Sret ].

Definition swtch_code : list instr :=
  [ Sd ra 0 a0; Sd sp 8 a0; Sd s0 16 a0; Sd s1 24 a0; Sd s2 32 a0; Sd s3 40 a0; Sd s4 48 a0; Sd s5 56 a0;
    Sd s6 64 a0; Sd s7 72 a0; Sd s8 80 a0; Sd s9 88 a0; Sd s10 96 a0; Sd s11 104 a0;
    Ld ra 0 a1; Ld sp 8 a1; Ld s0 16 a1; Ld s1 24 a1; Ld s2 32 a1; Ld s3 40 a1; Ld s4 48 a1; Ld s5 56 a1;
    Ld s6 64 a1; Ld s7 72 a1; Ld s8 80 a1; Ld s9 88 a1; Ld s10 96 a1; Ld s11 104 a1;
    Ret ].

Definition kernelvec (kerneltrap : hart -> hart) : list instr :=
  [ Addi sp sp (-256);
    Sd ra 0 sp; Sd sp 8 sp; Sd gp 16 sp; Sd tp 24 sp; Sd t0 32 sp; Sd t1 40 sp; Sd t2 48 sp; Sd s0 56 sp;
    Sd s1 64 sp; Sd a0 72 sp; Sd a1 80 sp; Sd a2 88 sp; Sd a3 96 sp; Sd a4 104 sp; Sd a5 112 sp; Sd a6 120 sp;
    Sd a7 128 sp; Sd s2 136 sp; Sd s3 144 sp; Sd s4 152 sp; Sd s5 160 sp; Sd s6 168 sp; Sd s7 176 sp;
    Sd s8 184 sp; Sd s9 192 sp; Sd s10 200 sp; Sd s11 208 sp; Sd t3 216 sp; Sd t4 224 sp; Sd t5 232 sp;
    Sd t6 240 sp;
    Call kerneltrap;
    Ld ra 0 sp; Ld sp 8 sp; Ld gp 16 sp; Ld t0 32 sp; Ld t1 40 sp; Ld t2 48 sp; Ld s0 56 sp; Ld s1 64 sp;
    Ld a0 72 sp; Ld a1 80 sp; Ld a2 88 sp; Ld a3 96 sp; Ld a4 104 sp; Ld a5 112 sp; Ld a6 120 sp; Ld a7 128 sp;
    Ld s2 136 sp; Ld s3 144 sp; Ld s4 152 sp; Ld s5 160 sp; Ld s6 168 sp; Ld s7 176 sp; Ld s8 184 sp;
    Ld s9 192 sp; Ld s10 200 sp; Ld s11 208 sp; Ld t3 216 sp; Ld t4 224 sp; Ld t5 232 sp; Ld t6 240 sp;
    Addi sp sp 256;
    Sret ].

Definition timervec : list instr :=
  [ Csrrw a0 mscratch a0; Sd a1 0 a0; Sd a2 8 a0; Sd a3 16 a0;
    Ld a1 24 a0; Ld a2 32 a0; Ld a3 0 a1; Add a3 a3 a2; Sd a3 0 a1;
    Li a1 2; Csrw sip a1;
    Ld a3 16 a0; Ld a2 8 a0; Ld a1 0 a0; Csrrw a0 mscratch a0;
    Mret ].

(** [_entry]: one stack of 4096 bytes per CPU, growing down from its end. *)
Definition entry (stack0 : Z) (start : hart -> hart) : list instr :=
  [ La sp stack0; Li a0 (1024 * 4); Csrr a1 mhartid; Addi a1 a1 1; Mul a0 a0 a1; Add sp sp a0; Call start ].
