(* ===== verification/AsmFacts.v ===== *)
(** * What the assembly routines save and restore

    The trampoline keeps the 31 registers of a user thread in its trapframe, at the offsets
    the C code knows; [swtch] keeps the callee-saved ones in a context; [kernelvec] and
    [timervec] put back every register they use. *)

From Stdlib Require Import Sorted.
From stdpp Require Import base numbers list gmap strings.
From S2P Require Import Prelude Mem Types Riscv Asm.

Definition saves (b : reg) (tbl : list (reg * Z)) : list instr := map (fun x => Sd x.1 x.2 b) tbl.
Definition loads (b : reg) (tbl : list (reg * Z)) : list instr := map (fun x => Ld x.1 x.2 b) tbl.

(** The words of a table do not overlap. *)
Definition spaced (tbl : list (reg * Z)) : Prop := StronglySorted (fun x y => x.2 + 8 <= y.2) tbl.

Definition save_mem (m : gmap Z Z) (pa : Z) (g : reg -> Z) (tbl : list (reg * Z)) : gmap Z Z :=
  foldl (fun m x => store64 m (pa + x.2) (g x.1)) m tbl.
Definition load_regs (m : gmap Z Z) (pa : Z) (tbl : list (reg * Z)) (g : reg -> Z) : reg -> Z :=
  foldl (fun g x => set x.1 (load64 m (pa + x.2)) g) g tbl.

Lemma set_eq {X} `{EqDecision X} (x : X) v g : set x v g x = v.
Proof. unfold set. by rewrite decide_True. Qed.
Lemma set_ne {X} `{EqDecision X} (x y : X) v g : y <> x -> set x v g y = g y.
Proof. intros. unfold set. by rewrite decide_False. Qed.

Lemma save_mem_ne tbl m pa g a :
  Forall (fun x => a + 8 <= pa + x.2 \/ pa + x.2 + 8 <= a) tbl -> load64 (save_mem m pa g tbl) a = load64 m a.
Proof.
  unfold save_mem. revert m. induction tbl as [|[r off] tbl IH]; intros m H; [done|]. cbn [foldl].
  inversion_clear H as [|?? H1 H2]. rewrite IH by done. by apply load64_store64_ne.
Qed.

Lemma save_mem_eq tbl m pa g r off :
  spaced tbl -> (r, off) ∈ tbl -> load64 (save_mem m pa g tbl) (pa + off) = u64 (g r).
Proof.
  unfold spaced. intros Hs. revert m. induction Hs as [|x tbl Hs IH Hx]; intros m Hin; [by apply not_elem_of_nil in Hin|].
  apply elem_of_cons in Hin as [<-|Hin]; [|by apply IH].
  change (load64 (save_mem (store64 m (pa + off) (g r)) pa g tbl) (pa + off) = u64 (g r)).
  rewrite save_mem_ne; [apply load64_store64_eq|]. eapply Forall_impl; [exact Hx|]. intros y Hy. cbn in Hy. lia.
Qed.

Lemma load_regs_ne tbl m pa g r : r ∉ tbl.*1 -> load_regs m pa tbl g r = g r.
Proof.
  unfold load_regs. revert g. induction tbl as [|[q off] tbl IH]; intros g H; [done|]. cbn in H |- *.
  apply not_elem_of_cons in H as [H1 H2]. rewrite IH by done. by apply set_ne.
Qed.

Lemma load_regs_eq tbl m pa g r off :
  NoDup tbl.*1 -> (r, off) ∈ tbl -> load_regs m pa tbl g r = load64 m (pa + off).
Proof.
  intros Hn. revert g. induction tbl as [|[q o] tbl IH]; intros g Hin; [by apply not_elem_of_nil in Hin|].
  cbn in Hn. apply NoDup_cons in Hn as [Hq Hn]. apply elem_of_cons in Hin as [[= <- <-]|Hin]; [|by apply IH].
  change (load_regs m pa tbl (set r (load64 m (pa + off)) g) r = load64 m (pa + off)).
  rewrite load_regs_ne by done. apply set_eq.
Qed.

Section Blocks.
Context (translate : Z -> Z -> Z) (b : reg) (pa : Z).

Lemma exec_saves tbl h :
  Forall (fun x => addr_of translate h x.2 b = pa + x.2) tbl ->
  exec translate (saves b tbl) h = set_mem (save_mem (h_mem h) pa (h_regs h) tbl) h.
Proof.
  revert h. induction tbl as [|[r off] tbl IH]; intros h H; [by destruct h|]. inversion_clear H as [|?? H1 H2].
  cbn [saves map]. change (exec translate (?c :: ?l) h) with (exec translate l (exec1 translate c h)).
  cbn [exec1 fst snd]. cbn in H1. rewrite H1. fold (saves b tbl). by rewrite IH.
Qed.

Lemma exec_loads tbl h :
  b ∉ tbl.*1 -> Forall (fun x => addr_of translate h x.2 b = pa + x.2) tbl ->
  exec translate (loads b tbl) h =
  Hart (load_regs (h_mem h) pa tbl (h_regs h)) (h_csrs h) (h_mem h) (h_mode h) (h_pc h).
Proof.
  revert h. induction tbl as [|[r off] tbl IH]; intros h Hb H; [by destruct h|]. inversion_clear H as [|?? H1 H2].
  cbn in Hb. apply not_elem_of_cons in Hb as [Hr Hb].
  cbn [loads map]. change (exec translate (?c :: ?l) h) with (exec translate l (exec1 translate c h)).
  cbn [exec1 fst snd]. cbn in H1. rewrite H1. fold (loads b tbl). rewrite IH; [done|done|].
  eapply Forall_impl; [exact H2|]. intros x Hx. unfold addr_of in *. cbn. by rewrite set_ne.
Qed.
End Blocks.

Definition regs_ok (h : hart) : Prop := forall r, 0 <= h_regs h r < 2 ^ 64.

(** ** The trampoline *)

(** Where [struct trapframe] of proc.h has each register. *)
Definition tf_off (r : reg) : Z :=
  match r with
  | ra => tf_ra | sp => tf_sp | gp => tf_gp | tp => tf_tp | t0 => tf_t0 | t1 => tf_t1 | t2 => tf_t2
  | s0 => tf_s0 | s1 => tf_s1 | a0 => tf_a0 | a1 => tf_a1 | a2 => tf_a2 | a3 => tf_a3 | a4 => tf_a4
  | a5 => tf_a5 | a6 => tf_a6 | a7 => tf_a7 | s2 => tf_s2 | s3 => tf_s3 | s4 => tf_s4 | s5 => tf_s5
  | s6 => tf_s6 | s7 => tf_s7 | s8 => tf_s8 | s9 => tf_s9 | s10 => tf_s10 | s11 => tf_s11
  | t3 => tf_t3 | t4 => tf_t4 | t5 => tf_t5 | t6 => tf_t6
  end.

Definition tf_table : list (reg * Z) :=
  map (fun r => (r, tf_off r))
    [ra; sp; gp; tp; t0; t1; t2; s0; s1; a1; a2; a3; a4; a5; a6; a7; s2; s3; s4; s5; s6; s7; s8; s9; s10; s11;
     t3; t4; t5; t6].

Lemma tf_table_elem r : r <> a0 -> (r, tf_off r) ∈ tf_table.
Proof. intros H. apply (bool_decide_unpack _). destruct r; first [by destruct H|by vm_compute]. Qed.
Lemma tf_table_spaced : spaced tf_table.
Proof. unfold spaced, tf_table. repeat (constructor; [|repeat constructor; vm_compute; discriminate]). constructor. Qed.
Lemma tf_table_nodup : NoDup tf_table.*1.
Proof. apply (bool_decide_unpack _). by vm_compute. Qed.
Lemma tf_table_range : Forall (fun x => 40 <= x.2 <= 280 /\ (x.2 + 8 <= 112 \/ 120 <= x.2)) tf_table.
Proof. apply (bool_decide_unpack _). by vm_compute. Qed.

Lemma uservec_shape : uservec =
  [Csrrw a0 sscratch a0] ++ saves a0 tf_table ++
  [Csrr t0 sscratch; Sd t0 112 a0; Ld sp 8 a0; Ld tp 32 a0; Ld t0 16 a0; Ld t1 0 a0; Csrw satp t1; Sfence_vma; Jr t0].
Proof. reflexivity. Qed.
Lemma userret_shape : userret =
  [Csrw satp a1; Sfence_vma; Ld t0 112 a0; Csrw sscratch t0] ++ loads a0 tf_table ++ [Csrrw a0 sscratch a0; Sret].
Proof. reflexivity. Qed.

#[local] Opaque load64 store64 load_regs save_mem.

Section Trampoline.
Context (translate : Z -> Z -> Z) (usatp tfva pa : Z).
Context (Htr : forall off, 0 <= off < sizeof_trapframe -> translate usatp (u64 (tfva + off)) = pa + off).

Lemma addr_tf h off : 0 <= off < sizeof_trapframe ->
  h_mode h = Supervisor_mode -> h_csrs h satp = usatp -> h_regs h a0 = tfva -> addr_of translate h off a0 = pa + off.
Proof using Htr. intros Ho Hm Hs Ha. unfold addr_of. rewrite Hm, Hs, Ha. by apply Htr. Qed.

Lemma tf_addrs h : h_mode h = Supervisor_mode -> h_csrs h satp = usatp -> h_regs h a0 = tfva ->
  Forall (fun x => addr_of translate h x.2 a0 = pa + x.2) tf_table.
Proof using Htr.
  intros Hm Hs Ha. eapply Forall_impl; [exact tf_table_range|]. intros x Hx. apply addr_tf; try done.
  cbn in Hx. unfold sizeof_trapframe. lia.
Qed.

(** What the kernel finds when [uservec] jumps to it: the stack, the hart id, the page table and
    the handler that the kernel had put into the trapframe, and there every user register. *)
Lemma uservec_spec h :
  h_mode h = Supervisor_mode -> h_csrs h satp = usatp -> h_csrs h sscratch = tfva ->
  let h1 := exec translate uservec h in let m := h_mem h1 in
  (forall a, (a + 8 <= pa + 40 \/ pa + 288 <= a) -> load64 m a = load64 (h_mem h) a) /\
  (forall r, load64 m (pa + tf_off r) = u64 (h_regs h r)) /\
  h_regs h1 sp = load64 m (pa + tf_kernel_sp) /\ h_regs h1 tp = load64 m (pa + tf_kernel_hartid) /\
  h_pc h1 = load64 m (pa + tf_kernel_trap) /\ h_csrs h1 satp = load64 m (pa + tf_kernel_satp) /\ h_mode h1 = h_mode h.
Proof using Htr.
  intros Hmo Hs Hsc. rewrite uservec_shape, !exec_app. cbn [exec foldl exec1].
  set (h1 := set_reg a0 _ _). assert (h_csrs h1 satp = usatp) as Hs1 by done. assert (h_regs h1 a0 = tfva) as Ha1 by done.
  rewrite (exec_saves translate a0 pa tf_table h1) by by apply tf_addrs.
  set (m0 := save_mem (h_mem h1) pa (h_regs h1) tf_table).
  rewrite !addr_tf by done. cbn [h_mem h_csrs h_regs set_mem set_reg set_csr h_mode h_pc jump].
  change (h_csrs h1 sscratch) with (h_regs h a0). rewrite !set_eq.
  set (m := store64 m0 (pa + 112) (h_regs h a0)).
  split_and!; [| |by rewrite !set_ne by done; rewrite set_eq|by rewrite !set_ne by done; rewrite set_eq|
    by rewrite !set_ne by done; rewrite set_eq|done|done].
  - intros a Ha. unfold m. rewrite load64_store64_ne by lia. apply save_mem_ne.
    eapply Forall_impl; [exact tf_table_range|]. intros x Hx. cbv beta in *. lia.
  - intros r. unfold m. destruct (decide (r = a0)) as [->|Hr]; [apply load64_store64_eq|].
    pose proof (tf_table_elem r Hr) as Hin. rewrite load64_store64_ne.
    + unfold m0. rewrite (save_mem_eq tf_table _ _ _ r) by (exact tf_table_spaced || done). cbn. by rewrite set_ne.
    + pose proof tf_table_range as H. rewrite Forall_forall in H. specialize (H _ Hin). cbn [snd] in H. lia.
Qed.

(** [userret] loads every register from the trapframe and leaves for the user's program. *)
Lemma userret_spec h :
  h_mode h = Supervisor_mode -> h_regs h a0 = tfva -> h_regs h a1 = usatp ->
  let h1 := exec translate userret h in
  (forall r, h_regs h1 r = load64 (h_mem h) (pa + tf_off r)) /\ h_mem h1 = h_mem h /\
  h_csrs h1 satp = usatp /\ h_csrs h1 sscratch = tfva /\
  h_pc h1 = h_csrs h sepc /\ h_mode h1 = priv_of (field (h_csrs h sstatus) 8 1).
Proof using Htr.
  intros Hmo Ha0 Ha1. rewrite userret_shape, !exec_app. cbn [exec foldl exec1].
  rewrite addr_tf by done. set (h1 := set_csr sscratch _ _). assert (h_csrs h1 satp = usatp) as Hs1 by done.
  assert (h_regs h1 a0 = tfva) as Ha by done. assert (a0 ∉ tf_table.*1) as Hn by (apply (bool_decide_unpack _); by vm_compute).
  rewrite (exec_loads translate a0 pa tf_table h1) by by try apply tf_addrs.
  unfold do_sret. cbn [foldl exec1 h_regs h_csrs h_mem h_mode h_pc set_reg set_csr jump].
  split; [|split_and!; try done; by rewrite set_ne, set_eq, load_regs_ne by done].
  intros r. destruct (decide (r = a0)) as [->|Hr]; [by rewrite set_eq|].
  rewrite set_ne by done. rewrite (load_regs_eq tf_table _ _ _ r (tf_off r)); [reflexivity|exact tf_table_nodup|by apply tf_table_elem].
Qed.

(** C16: A trap leaves no trace in a user program.  [uservec] stores all 31 registers at the
    offsets [struct trapframe] gives them, writes nothing else, and enters the kernel on its own
    stack, page table and handler; when the kernel then leaves with [userret], whatever it did
    meanwhile, the thread continues at [sepc] with the registers its trapframe holds, hence with
    those it was interrupted with unless the kernel stored into the trapframe, and the next trap
    finds the trapframe again. *)
Theorem trampoline_roundtrip h h2 :
  regs_ok h -> h_mode h = Supervisor_mode -> h_csrs h satp = usatp -> h_csrs h sscratch = tfva ->
  h_mode h2 = Supervisor_mode -> h_regs h2 a0 = tfva -> h_regs h2 a1 = usatp ->
  let h1 := exec translate uservec h in let h3 := exec translate userret h2 in
  (forall r, load64 (h_mem h1) (pa + tf_off r) = h_regs h r) /\
  (forall a, (a + 8 <= pa + tf_ra \/ pa + sizeof_trapframe <= a) -> load64 (h_mem h1) a = load64 (h_mem h) a) /\
  h_regs h1 sp = load64 (h_mem h) (pa + tf_kernel_sp) /\ h_regs h1 tp = load64 (h_mem h) (pa + tf_kernel_hartid) /\
  h_pc h1 = load64 (h_mem h) (pa + tf_kernel_trap) /\ h_csrs h1 satp = load64 (h_mem h) (pa + tf_kernel_satp) /\
  (forall r, load64 (h_mem h2) (pa + tf_off r) = load64 (h_mem h1) (pa + tf_off r) -> h_regs h3 r = h_regs h r) /\
  (forall r, h_regs h3 r = load64 (h_mem h2) (pa + tf_off r)) /\
  h_csrs h3 satp = usatp /\ h_csrs h3 sscratch = tfva /\ h_pc h3 = h_csrs h2 sepc.
Proof using Htr.
  intros Hok Hm Hs Hsc Hm2 H0 H1. destruct (uservec_spec h Hm Hs Hsc) as (Hf & Hr & Hsp & Htp & Hpc & Hsa & _).
  destruct (userret_spec h2 Hm2 H0 H1) as (Hl & _ & Hs3 & Hsc3 & Hpc3 & _). cbv zeta in *.
  rewrite Hf in Hsp, Htp, Hpc, Hsa by (unfold tf_kernel_sp, tf_kernel_hartid, tf_kernel_trap, tf_kernel_satp; lia).
  assert (forall r, load64 (h_mem (exec translate uservec h)) (pa + tf_off r) = h_regs h r) as Hr'.
  { intros r. rewrite Hr. apply u64_small, Hok. }
  split_and!; try done. intros r E. by rewrite Hl, E, Hr'.
Qed.
End Trampoline.

(** A user program that uses the page table at 2^12 and has its trapframe at address 8192. *)
Definition demo_translate (satp va : Z) : Z := if va <? TRAPFRAME then va else va - TRAPFRAME + 8192.
Definition demo_hart (g : reg -> Z) : hart :=
  Hart g (set satp 1 (set sscratch TRAPFRAME (fun _ => 0))) ∅ Supervisor_mode 0.

Lemma trampoline_roundtrip_witness :
  let h := demo_hart (fun _ => 7) in let h2 := demo_hart (set a0 TRAPFRAME (set a1 1 (fun _ => 0))) in
  h_regs (exec demo_translate uservec h) sp = load64 (h_mem h) (8192 + tf_kernel_sp).
Proof.
  apply (trampoline_roundtrip demo_translate 1 TRAPFRAME 8192) with
    (h := demo_hart (fun _ => 7)) (h2 := demo_hart (set a0 TRAPFRAME (set a1 1 (fun _ => 0)))); try reflexivity.
  - intros off Ho. unfold sizeof_trapframe in Ho. unfold demo_translate.
    change TRAPFRAME with 274877898752. rewrite u64_small by lia. destruct (Z.ltb_spec (274877898752 + off) 274877898752); lia.
  - intros r. cbn. lia.
Defined.

(** ** [swtch] *)

(** [struct context] of proc.h. *)
Definition ctx_table : list (reg * Z) :=
  [(ra, 0); (sp, 8); (s0, 16); (s1, 24); (s2, 32); (s3, 40); (s4, 48); (s5, 56); (s6, 64); (s7, 72); (s8, 80);
   (s9, 88); (s10, 96); (s11, 104)].
Definition sizeof_context : Z := 112.

Lemma ctx_table_spaced : spaced ctx_table.
Proof. unfold spaced. repeat (constructor; [|repeat constructor; vm_compute; discriminate]). constructor. Qed.
Lemma ctx_table_nodup : NoDup ctx_table.*1.
Proof. apply (bool_decide_unpack _). by vm_compute. Qed.
Lemma ctx_table_range : Forall (fun x => 0 <= x.2 <= 104) ctx_table.
Proof. apply (bool_decide_unpack _). by vm_compute. Qed.

(** In the kernel's page table, and in machine mode, this memory is mapped to itself. *)
Definition direct (translate : Z -> Z -> Z) (h : hart) (b : reg) (n : Z) : Prop :=
  forall off, 0 <= off < n -> addr_of translate h off b = h_regs h b + off.

Lemma direct_table translate h b n (tbl : list (reg * Z)) :
  direct translate h b n -> Forall (fun x => 0 <= x.2 < n) tbl ->
  Forall (fun x => addr_of translate h x.2 b = h_regs h b + x.2) tbl.
Proof. intros Hd H. eapply Forall_impl; [exact H|]. intros x Hx. by apply Hd. Qed.

Lemma swtch_spec translate h :
  regs_ok h -> direct translate h a0 sizeof_context -> direct translate h a1 sizeof_context ->
  (h_regs h a0 + sizeof_context <= h_regs h a1 \/ h_regs h a1 + sizeof_context <= h_regs h a0) ->
  let h1 := exec translate swtch_code h in
  (forall r off, (r, off) ∈ ctx_table -> load64 (h_mem h1) (h_regs h a0 + off) = h_regs h r) /\
  (forall r off, (r, off) ∈ ctx_table -> h_regs h1 r = load64 (h_mem h) (h_regs h a1 + off)) /\
  (forall r, r ∉ ctx_table.*1 -> h_regs h1 r = h_regs h r) /\
  (forall a, a + 8 <= h_regs h a0 \/ h_regs h a0 + sizeof_context <= a -> load64 (h_mem h1) a = load64 (h_mem h) a) /\
  h_pc h1 = h_regs h1 ra /\ h_csrs h1 = h_csrs h /\ h_mode h1 = h_mode h.
Proof.
  intros Hok H0 H1 Hsep. change swtch_code with (saves a0 ctx_table ++ loads a1 ctx_table ++ [Ret]).
  assert (Forall (fun x : reg * Z => 0 <= x.2 < sizeof_context) ctx_table) as Hrange.
  { eapply Forall_impl; [exact ctx_table_range|]. intros x Hx. unfold sizeof_context. cbv beta in *. lia. }
  rewrite !exec_app, (exec_saves translate a0 (h_regs h a0)) by by eapply direct_table.
  set (m := save_mem _ _ _ _). assert (a1 ∉ ctx_table.*1) as Hn by (apply (bool_decide_unpack _); by vm_compute).
  rewrite (exec_loads translate a1 (h_regs h a1)) by (done || by eapply (direct_table translate (set_mem m h))).
  cbn [exec foldl exec1 set_mem jump h_regs h_mem h_csrs h_pc h_mode].
  assert (forall a, a + 8 <= h_regs h a0 \/ h_regs h a0 + sizeof_context <= a -> load64 m a = load64 (h_mem h) a) as Hm.
  { intros a Ha. apply save_mem_ne. eapply Forall_impl; [exact ctx_table_range|]. unfold sizeof_context in *.
    intros x Hx. cbv beta in *. lia. }
  split_and!; try done.
  - intros r off Hin. unfold m. rewrite (save_mem_eq _ _ _ _ r) by (exact ctx_table_spaced || done). apply u64_small, Hok.
  - intros r off Hin. rewrite (load_regs_eq _ _ _ _ r off) by (exact ctx_table_nodup || done). apply Hm.
    pose proof ctx_table_range as Hr. rewrite Forall_forall in Hr. specialize (Hr _ Hin). cbn [snd] in Hr.
    unfold sizeof_context in *. lia.
  - intros r Hr. by apply load_regs_ne.
Qed.

(** A thread that calls [swtch] and is later switched to again, by a [swtch] whose [new] is the
    context it was saved in, returns from its call with all its callee-saved registers. *)
Lemma swtch_resumes translate h h2 :
  regs_ok h -> regs_ok h2 -> direct translate h a0 sizeof_context -> direct translate h a1 sizeof_context ->
  direct translate h2 a0 sizeof_context -> direct translate h2 a1 sizeof_context ->
  (h_regs h a0 + sizeof_context <= h_regs h a1 \/ h_regs h a1 + sizeof_context <= h_regs h a0) ->
  (h_regs h2 a0 + sizeof_context <= h_regs h2 a1 \/ h_regs h2 a1 + sizeof_context <= h_regs h2 a0) ->
  h_regs h2 a1 = h_regs h a0 ->
  (forall a, h_regs h a0 <= a -> a + 8 <= h_regs h a0 + sizeof_context ->
     load64 (h_mem h2) a = load64 (h_mem (exec translate swtch_code h)) a) ->
  let h3 := exec translate swtch_code h2 in
  (forall r off, (r, off) ∈ ctx_table -> h_regs h3 r = h_regs h r) /\ h_pc h3 = h_regs h ra.
Proof.
  intros Hok Hok2 H0 H1 H2 H3 Hs1 Hs2 E Hkeep. cbv zeta.
  destruct (swtch_spec translate h Hok H0 H1 Hs1) as (Hsave & _).
  destruct (swtch_spec translate h2 Hok2 H2 H3 Hs2) as (_ & Hload & _ & _ & Hpc & _). cbv zeta in *.
  assert (forall r off, (r, off) ∈ ctx_table -> h_regs (exec translate swtch_code h2) r = h_regs h r) as H.
  { intros r off Hin. rewrite (Hload r off Hin), E, Hkeep; [by apply Hsave|..];
      pose proof ctx_table_range as Hr; rewrite Forall_forall in Hr; specialize (Hr _ Hin); cbn [snd] in Hr;
      unfold sizeof_context; lia. }
  split; [done|]. rewrite Hpc. apply (H ra 0). apply (bool_decide_unpack _). by vm_compute.
Qed.

(** ** [kernelvec] *)

Definition kv_table : list (reg * Z) :=
  [(gp, 16); (tp, 24); (t0, 32); (t1, 40); (t2, 48); (s0, 56); (s1, 64); (a0, 72); (a1, 80); (a2, 88); (a3, 96); (a4, 104);
   (a5, 112); (a6, 120); (a7, 128); (s2, 136); (s3, 144); (s4, 152); (s5, 160); (s6, 168); (s7, 176); (s8, 184);
   (s9, 192); (s10, 200); (s11, 208); (t3, 216); (t4, 224); (t5, 232); (t6, 240)].
Definition kv_saved : list (reg * Z) := (ra, 0) :: (sp, 8) :: kv_table.
Definition kv_loaded : list (reg * Z) := delete 1%nat kv_table.

Lemma kernelvec_shape kt : kernelvec kt =
  [Addi sp sp (-256)] ++ saves sp kv_saved ++ [Call kt] ++ loads sp [(ra, 0)] ++ [Ld sp 8 sp] ++ loads sp kv_loaded ++
  [Addi sp sp 256; Sret].
Proof. reflexivity. Qed.

Lemma kv_saved_spaced : spaced kv_saved.
Proof. unfold spaced, kv_saved, kv_table. repeat (constructor; [|repeat constructor; vm_compute; discriminate]). constructor. Qed.
Lemma kv_saved_range : Forall (fun x => 0 <= x.2 < 256) kv_saved.
Proof. apply (bool_decide_unpack _). by vm_compute. Qed.
Lemma kv_loaded_range : Forall (fun x => 0 <= x.2 < 256) kv_loaded.
Proof. apply (bool_decide_unpack _). by vm_compute. Qed.
Lemma kv_loaded_nodup : NoDup kv_loaded.*1.
Proof. apply (bool_decide_unpack _). by vm_compute. Qed.
Lemma kv_loaded_sub x : x ∈ kv_loaded -> x ∈ kv_saved.
Proof. unfold kv_loaded, kv_saved. intros H. do 2 apply list_elem_of_further. revert H. cbn. set_solver. Qed.
Lemma kv_loaded_all r : r ∉ [ra; sp; tp] -> exists off, (r, off) ∈ kv_loaded.
Proof.
  intros H. assert (r ∈ kv_loaded.*1) as Hin; [|by apply list_elem_of_fmap in Hin as ([q off] & -> & ?); eauto].
  apply (bool_decide_unpack _). destruct r; first [by vm_compute|exfalso; apply H; set_solver].
Qed.

Lemma kv_loaded_not : sp ∉ kv_loaded.*1 /\ ra ∉ kv_loaded.*1 /\ tp ∉ kv_loaded.*1 /\ sp ∉ [(ra, 0)].*1 /\ tp ∉ [(ra, 0)].*1.
Proof. apply (bool_decide_unpack _). by vm_compute. Qed.

Section Kernelvec.
Context (translate : Z -> Z -> Z) (ksatp : Z) (kerneltrap : hart -> hart) (h : hart).
(** The frame that [kernelvec] makes on the kernel stack. *)
Definition kv_frame : Z := h_regs h sp - 256.
Context (Hok : regs_ok h) (Hframe : 0 <= kv_frame).
Context (Htr : forall va, kv_frame <= va < kv_frame + 256 -> translate ksatp va = va).

Definition in_frame (h' : hart) : Prop :=
  h_mode h' = Supervisor_mode /\ h_csrs h' satp = ksatp /\ h_regs h' sp = kv_frame.

Lemma in_frame_direct h' : in_frame h' -> direct translate h' sp 256.
Proof using Hframe Htr Hok.
  intros (Hm & Hs & Hsp) off Hoff. pose proof (Hok sp). unfold kv_frame in *. unfold addr_of.
  rewrite Hm, Hs, Hsp, u64_small by lia. apply Htr. lia.
Qed.

(** The state in which [kernelvec] calls [kerneltrap]. *)
Definition kv_called : hart := exec translate (saves sp kv_saved) (set_reg sp kv_frame h).

(** The C function returns on the same stack, with the frame of its caller as it was. *)
Context (Hmode : h_mode h = Supervisor_mode) (Hsatp : h_csrs h satp = ksatp).
Context (Hkt : in_frame (kerneltrap kv_called)).
Context (Hkm : forall a, kv_frame <= a < kv_frame + 256 -> rd (h_mem (kerneltrap kv_called)) a = rd (h_mem kv_called) a).

Lemma kv_word r off : (r, off) ∈ kv_saved ->
  load64 (h_mem (kerneltrap kv_called)) (kv_frame + off) = set sp kv_frame (h_regs h) r.
Proof using All.
  intros Hin. pose proof kv_saved_range as Hr. rewrite Forall_forall in Hr.
  pose proof (Hr _ Hin) as Ho. cbn [snd] in Ho.
  assert (off + 8 <= 256) as Ho8.
  { cut (Forall (fun x : reg * Z => x.2 + 8 <= 256) kv_saved); [intros H8; rewrite Forall_forall in H8; apply (H8 _ Hin)|].
    apply (bool_decide_unpack _). by vm_compute. }
  rewrite (load64_ext _ (h_mem kv_called)) by (intros; apply Hkm; lia).
  unfold kv_called. rewrite (exec_saves translate sp kv_frame).
  - cbn [set_mem h_mem set_reg h_regs]. rewrite (save_mem_eq _ _ _ _ r) by (exact kv_saved_spaced || done).
    apply u64_small. destruct (decide (r = sp)) as [->|]; [rewrite set_eq|rewrite set_ne by done; apply Hok].
    pose proof (Hok sp). unfold kv_frame in *. lia.
  - assert (in_frame (set_reg sp kv_frame h)) as Hin' by (split_and!; try done; apply set_eq).
    pose proof (direct_table translate _ sp 256 kv_saved (in_frame_direct _ Hin') kv_saved_range) as H.
    by replace (h_regs (set_reg sp kv_frame h) sp) with kv_frame in H by (cbn; by rewrite set_eq).
Qed.

(** An interrupt taken in the kernel gives back every register of the interrupted code, except
    that [tp] is that of the CPU the thread now runs on. *)
Lemma kernelvec_restores :
  let h1 := exec translate (kernelvec kerneltrap) h in
  (forall r, r <> tp -> h_regs h1 r = h_regs h r) /\ h_regs h1 tp = h_regs (kerneltrap kv_called) tp /\
  h_pc h1 = h_csrs (kerneltrap kv_called) sepc.
Proof using All.
  rewrite kernelvec_shape, !exec_app. pose proof (Hok sp) as Hsp.
  assert (exec translate [Addi sp sp (-256)] h = set_reg sp kv_frame h) as ->.
  { cbn. by rewrite u64_small by (unfold kv_frame in *; lia). }
  fold kv_called. change (exec translate [Call kerneltrap] kv_called) with (kerneltrap kv_called).
  pose proof kv_word as Hw. destruct Hkt as (Hm2 & Hs2 & Hsp2). set (h2 := kerneltrap kv_called) in *. clearbody h2.
  pose proof (in_frame_direct h2 ltac:(done)) as Hd. pose proof (Hd 0 ltac:(lia)) as Hd0.
  rewrite (exec_loads translate sp kv_frame [(ra, 0)] h2) by (apply kv_loaded_not || (constructor; [by cbn [snd]; rewrite Hd0, Hsp2|constructor])).
  set (h3 := Hart _ _ _ _ _). assert (in_frame h3) as Hf3 by (split_and!; try done; by cbn [h3 h_regs]; rewrite load_regs_ne by apply kv_loaded_not).
  assert (exec translate [Ld sp 8 sp] h3 = set_reg sp kv_frame h3) as ->.
  { cbn [exec foldl exec1]. rewrite (in_frame_direct h3 Hf3 8) by lia. rewrite (proj2 (proj2 Hf3)).
    change (h_mem h3) with (h_mem h2). rewrite (Hw sp 8) by (do 2 constructor). by rewrite set_eq. }
  assert (in_frame (set_reg sp kv_frame h3)) as Hf4 by (split_and!; try done; apply set_eq).
  rewrite (exec_loads translate sp kv_frame); cycle 1.
  { exact (proj1 kv_loaded_not). }
  { pose proof (direct_table translate _ sp 256 kv_loaded (in_frame_direct _ Hf4) kv_loaded_range) as H.
    by rewrite (proj2 (proj2 Hf4)) in H. }
  unfold do_sret. cbn [exec foldl exec1]. unfold do_sret. cbn [h_regs h_csrs h_mem h_mode h_pc set_reg set_csr jump].
  change (h_mem h3) with (h_mem h2). change (h_csrs h3) with (h_csrs h2).
  split_and!; [intros r Hr; destruct (decide (r = sp)) as [->|Hrs]|..|done].
  - rewrite set_eq, load_regs_ne, set_eq by (apply kv_loaded_not). unfold kv_frame. rewrite u64_small; lia.
  - rewrite set_ne by done. destruct (decide (r = ra)) as [->|Hra].
    + rewrite load_regs_ne, set_ne by (apply kv_loaded_not || done). cbn [h3 h_regs].
      rewrite (load_regs_eq _ _ _ _ ra 0) by (apply NoDup_singleton || constructor). rewrite (Hw ra 0) by constructor.
      by rewrite set_ne.
    + destruct (kv_loaded_all r) as [off Hin]; [by rewrite !not_elem_of_cons; split_and!; try done; apply not_elem_of_nil|].
      rewrite (load_regs_eq _ _ _ _ r off) by (exact kv_loaded_nodup || done).
      rewrite (Hw r off) by by apply kv_loaded_sub. by rewrite set_ne.
  - rewrite set_ne, load_regs_ne, set_ne by (apply kv_loaded_not || done). cbn [h3 h_regs]. by rewrite load_regs_ne by apply kv_loaded_not.
Qed.
End Kernelvec.
