(* ===== verification/Boot.v ===== *)
(** * From reset to the timer interrupt: entry.S, start.c, plic.c, timervec

    [start] runs in machine mode on every hart and leaves it in supervisor mode at [main]; the
    only code that runs in machine mode afterwards is [timervec], on the scratch area that
    [timerinit] prepared for it.  The addresses that the linker chooses are arguments.  The
    registers of the CLINT and of the PLIC are words of the physical memory. *)

From stdpp Require Import base numbers list gmap strings.
From S2P Require Import Prelude Mem Types Riscv Asm AsmFacts.

(** ** riscv.h: access to the registers *)

Definition r_mhartid (h : hart) : Z := h_csrs h mhartid.
Definition r_mstatus (h : hart) : Z := h_csrs h mstatus.
Definition w_mstatus (x : Z) : hart -> hart := set_csr mstatus x.
Definition w_mepc (x : Z) : hart -> hart := set_csr mepc x.
Definition r_sie (h : hart) : Z := h_csrs h sie.
Definition w_sie (x : Z) : hart -> hart := set_csr sie x.
Definition r_mie (h : hart) : Z := h_csrs h mie.
Definition w_mie (x : Z) : hart -> hart := set_csr mie x.
Definition w_medeleg (x : Z) : hart -> hart := set_csr medeleg x.
Definition w_mideleg (x : Z) : hart -> hart := set_csr mideleg x.
Definition w_mtvec (x : Z) : hart -> hart := set_csr mtvec x.
Definition w_satp (x : Z) : hart -> hart := set_csr satp x.
Definition w_mscratch (x : Z) : hart -> hart := set_csr mscratch x.
Definition w_tp (x : Z) : hart -> hart := set_reg tp x.

Definition MSTATUS_MPP_MASK : Z := Z.shiftl 3 11.
Definition MSTATUS_MPP_S : Z := Z.shiftl 1 11.
Definition MSTATUS_MIE : Z := Z.shiftl 1 3.
Definition SIE_SEIE : Z := Z.shiftl 1 9.
Definition SIE_STIE : Z := Z.shiftl 1 5.
Definition SIE_SSIE : Z := Z.shiftl 1 1.
Definition MIE_MTIE : Z := Z.shiftl 1 7.

Definition CLINT_MTIMECMP (hartid : Z) : Z := CLINT + 0x4000 + 8 * hartid.
Definition CLINT_MTIME : Z := CLINT + 0xBFF8.
Definition PLIC_SENABLE (hart : Z) : Z := PLIC + 0x2080 + hart * 0x100.
Definition PLIC_SPRIORITY (hart : Z) : Z := PLIC + 0x201000 + hart * 0x2000.
Definition PLIC_SCLAIM (hart : Z) : Z := PLIC + 0x201004 + hart * 0x2000.

Definition store_word (a v : Z) (h : hart) : hart := set_mem (store64 (h_mem h) a v) h.
Definition store_word32 (a v : Z) (h : hart) : hart := set_mem (store 4 (h_mem h) a v) h.

(** ** start.c *)

Definition interval : Z := 1000000.

Definition timerinit (timer_scratch timervec_addr : Z) (h : hart) : hart :=
  let id := i32 (r_mhartid h) in
  let h := store_word (CLINT_MTIMECMP id) (u64 (load64 (h_mem h) CLINT_MTIME + interval)) h in
  let scratch := timer_scratch + 8 * 5 * id in
  let h := store_word (scratch + 8 * 3) (CLINT_MTIMECMP id) h in
  let h := store_word (scratch + 8 * 4) interval h in
  let h := w_mscratch scratch h in
  let h := w_mtvec timervec_addr h in
  let h := w_mstatus (Z.lor (r_mstatus h) MSTATUS_MIE) h in
  w_mie (Z.lor (r_mie h) MIE_MTIE) h.

Definition start (main timer_scratch timervec_addr : Z) (h : hart) : hart :=
  let x := r_mstatus h in
  let x := Z.ldiff x MSTATUS_MPP_MASK in
  let x := Z.lor x MSTATUS_MPP_S in
  let h := w_mstatus x h in
  let h := w_mepc main h in
  let h := w_satp 0 h in
  let h := w_medeleg 0xffff h in
  let h := w_mideleg 0xffff h in
  let h := w_sie (Z.lor (Z.lor (Z.lor (r_sie h) SIE_SEIE) SIE_STIE) SIE_SSIE) h in
  let h := timerinit timer_scratch timervec_addr h in
  let id := i32 (r_mhartid h) in
  let h := w_tp (u64 id) h in
  do_mret h.

(** ** plic.c *)

Definition plicinit (h : hart) : hart :=
  store_word32 (PLIC + VIRTIO0_IRQ * 4) 1 (store_word32 (PLIC + UART0_IRQ * 4) 1 h).

(** [cpuid]: the hart id that [start] left in [tp]. *)
Definition cpuid (h : hart) : Z := i32 (h_regs h tp).

Definition plicinithart (h : hart) : hart :=
  let hart := cpuid h in
  let h := store_word32 (PLIC_SENABLE hart) (Z.lor (Z.shiftl 1 UART0_IRQ) (Z.shiftl 1 VIRTIO0_IRQ)) h in
  store_word32 (PLIC_SPRIORITY hart) 0 h.

Definition plic_claim (h : hart) : Z := i32 (load 4 (h_mem h) (PLIC_SCLAIM (cpuid h))).
Definition plic_complete (irq : Z) (h : hart) : hart := store_word32 (PLIC_SCLAIM (cpuid h)) irq h.

(** ** The timer *)

#[local] Opaque load64 store64.

Section Timer.
Context (translate : Z -> Z -> Z) (main timer_scratch timervec_addr id : Z).
Definition scratch : Z := timer_scratch + 8 * 5 * id.

(** The scratch areas are memory of the kernel, above the devices. *)
Context (Hid : 0 <= id < Z.of_nat NCPU) (Hscr : KERNBASE <= timer_scratch) (Hend : timer_scratch + 8 * 5 * Z.of_nat NCPU <= PHYSTOP).

(** What [timerinit] promises to [timervec]. *)
Record timer_ready (h : hart) : Prop := {
  tr_mscratch : h_csrs h mscratch = scratch;
  tr_mtimecmp : load64 (h_mem h) (scratch + 24) = CLINT_MTIMECMP id;
  tr_interval : load64 (h_mem h) (scratch + 32) = interval }.

Lemma scratch_bounds : CLINT_MTIMECMP id + 8 <= scratch /\ 0 <= CLINT_MTIMECMP id /\ 0 <= scratch /\ scratch + 40 < 2 ^ 64.
Proof using Hid Hscr Hend.
  unfold CLINT_MTIMECMP, scratch, PHYSTOP, KERNBASE, CLINT, NCPU in *. lia.
Qed.

Definition scratch_table : list (reg * Z) := [(a1, 0); (a2, 8); (a3, 16)].

Definition timer_mid : list instr :=
  [Ld a1 24 a0; Ld a2 32 a0; Ld a3 0 a1; Add a3 a3 a2; Sd a3 0 a1; Li a1 2; Csrw sip a1].

Lemma timervec_shape : timervec =
  [Csrrw a0 mscratch a0] ++ saves a0 scratch_table ++
  timer_mid ++ loads a0 (reverse scratch_table) ++ [Csrrw a0 mscratch a0; Mret].
Proof. reflexivity. Qed.

Definition at_scratch (h : hart) : Prop := h_mode h = Machine_mode /\ h_regs h a0 = scratch.

Lemma at_scratch_addr h off : at_scratch h -> 0 <= off < 40 -> addr_of translate h off a0 = scratch + off.
Proof using Hid Hscr Hend.
  intros [Hm Ha] Ho. pose proof scratch_bounds. unfold addr_of. rewrite Hm, Ha. apply u64_small. lia.
Qed.

Lemma at_scratch_table h tbl : at_scratch h -> Forall (fun x : reg * Z => 0 <= x.2 < 40) tbl ->
  Forall (fun x => addr_of translate h x.2 a0 = scratch + x.2) tbl.
Proof using Hid Hscr Hend. intros H Ht. eapply Forall_impl; [exact Ht|]. intros x Hx. by apply at_scratch_addr. Qed.

(** The part of [timervec] between the saving and the restoring of its registers: the next
    interrupt is scheduled and a software interrupt raised for the supervisor. *)
Lemma timer_schedule h : at_scratch h ->
  load64 (h_mem h) (scratch + 24) = CLINT_MTIMECMP id -> load64 (h_mem h) (scratch + 32) = interval ->
  let h1 := exec translate timer_mid h in
  h_mem h1 = store64 (h_mem h) (CLINT_MTIMECMP id) (u64 (load64 (h_mem h) (CLINT_MTIMECMP id) + interval)) /\
  h_csrs h1 = set sip 2 (h_csrs h) /\ at_scratch h1 /\ (forall r, r ∉ scratch_table.*1 -> h_regs h1 r = h_regs h r) /\
  h_pc h1 = h_pc h.
Proof using Hid Hscr Hend.
  intros Hat H24 H32. pose proof scratch_bounds as (Hb1 & Hb2 & Hb3 & Hb4).
  change timer_mid with ([Ld a1 24 a0; Ld a2 32 a0] ++ drop 2 timer_mid). rewrite exec_app.
  assert (exec translate [Ld a1 24 a0; Ld a2 32 a0] h = set_reg a2 interval (set_reg a1 (CLINT_MTIMECMP id) h)) as ->.
  { cbn [exec foldl exec1]. rewrite (at_scratch_addr h), H24 by (done || lia). set (h1 := set_reg a1 _ h).
    assert (at_scratch h1) as Hat1 by (destruct Hat; by split). rewrite (at_scratch_addr h1) by (done || lia).
    change (h_mem h1) with (h_mem h). by rewrite H32. }
  set (h1 := set_reg a2 _ _). assert (addr_of translate h1 0 a1 = CLINT_MTIMECMP id) as Ha1.
  { unfold addr_of. change (h_mode h1) with (h_mode h). rewrite (proj1 Hat). cbn. rewrite set_ne, set_eq, Z.add_0_r by done.
    apply u64_small. lia. }
  cbn [exec foldl exec1 drop timer_mid]. rewrite Ha1. set (h2 := set_reg a3 (load64 _ _) h1). set (h3 := set_reg a3 (u64 _) h2).
  assert (addr_of translate h3 0 a1 = CLINT_MTIMECMP id) as -> by exact Ha1.
  assert (h_regs h3 a3 = u64 (load64 (h_mem h) (CLINT_MTIMECMP id) + interval)) as -> by reflexivity.
  destruct Hat as [Hm Ha]. split_and!; [done|done|by split| |done].
  intros r Hr. cbn in Hr. apply not_elem_of_cons in Hr as [R1 Hr]. apply not_elem_of_cons in Hr as [R2 Hr].
  apply not_elem_of_cons in Hr as [R3 _]. cbn [h_regs set_csr set_reg set_mem h3 h2 h1]. by rewrite !set_ne by done.
Qed.

Lemma scratch_table_not : a0 ∉ (reverse scratch_table).*1 /\ NoDup (reverse scratch_table).*1.
Proof. apply (bool_decide_unpack _). by vm_compute. Qed.
Lemma scratch_table_rev : forall x, x ∈ scratch_table <-> x ∈ reverse scratch_table.
Proof. intros x. by rewrite elem_of_reverse. Qed.
Lemma scratch_table_range : Forall (fun x : reg * Z => 0 <= x.2 < 40) scratch_table.
Proof. apply (bool_decide_unpack _). by vm_compute. Qed.
Lemma scratch_table_low : Forall (fun x : reg * Z => 0 <= x.2 <= 16) scratch_table.
Proof. apply (bool_decide_unpack _). by vm_compute. Qed.
Lemma scratch_table_spaced : spaced scratch_table.
Proof. unfold spaced. repeat (constructor; [|repeat constructor; vm_compute; discriminate]). constructor. Qed.

(** The registers are saved and the interrupt is handled. *)
Lemma timervec_body h :
  timer_ready h -> regs_ok h -> h_mode h = Machine_mode ->
  let h2 := exec translate ([Csrrw a0 mscratch a0] ++ saves a0 scratch_table ++ timer_mid) h in
  exists m, h_mem h2 = store64 m (CLINT_MTIMECMP id) (u64 (load64 (h_mem h) (CLINT_MTIMECMP id) + interval)) /\
    (forall a, a + 8 <= scratch \/ scratch + 24 <= a -> load64 m a = load64 (h_mem h) a) /\
    (forall r off, (r, off) ∈ scratch_table -> load64 m (scratch + off) = h_regs h r) /\
    h_csrs h2 = set sip 2 (set mscratch (h_regs h a0) (h_csrs h)) /\ at_scratch h2 /\
    (forall r, r ∉ scratch_table.*1 -> r <> a0 -> h_regs h2 r = h_regs h r).
Proof using Hid Hscr Hend.
  intros [Hms H24 H32] Hok Hm. pose proof scratch_bounds as (Hb1 & Hb2 & Hb3 & Hb4). rewrite !exec_app.
  set (h1 := exec translate [Csrrw a0 mscratch a0] h). assert (at_scratch h1) as Hat1 by (split; [done|exact Hms]).
  rewrite (exec_saves translate a0 scratch scratch_table h1) by (apply at_scratch_table; [done|exact scratch_table_range]).
  set (m := save_mem (h_mem h1) scratch (h_regs h1) scratch_table).
  assert (forall a, a + 8 <= scratch \/ scratch + 24 <= a -> load64 m a = load64 (h_mem h) a) as Hmo.
  { intros a Ha. change (h_mem h) with (h_mem h1). apply save_mem_ne. eapply Forall_impl; [exact scratch_table_low|].
    intros x Hx. cbv beta in *. lia. }
  destruct (timer_schedule (set_mem m h1)) as (Hmem & Hcsr & Hat2 & Hregs & _);
    [destruct Hat1; by split|cbn [h_mem set_mem]; rewrite Hmo by lia; exact H24|cbn [h_mem set_mem]; rewrite Hmo by lia; exact H32|].
  cbn [h_mem set_mem] in Hmem. rewrite Hmo in Hmem by lia. exists m. split_and!; [exact Hmem|done| |exact Hcsr|exact Hat2|].
  - intros r off Hin. unfold m. rewrite (save_mem_eq _ _ _ _ r) by (exact scratch_table_spaced || done).
    assert (r <> a0) by (intros ->; apply (proj1 scratch_table_not), list_elem_of_fmap; exists (a0, off); by rewrite <- scratch_table_rev).
    cbn [h1 exec foldl exec1 h_regs set_reg set_csr]. rewrite set_ne by done. apply u64_small, Hok.
  - intros r Hr Hr0. rewrite Hregs by done. by apply set_ne.
Qed.

(** The last two instructions. *)
Lemma timervec_leave h :
  let h1 := exec translate [Csrrw a0 mscratch a0; Mret] h in
  h_regs h1 = set a0 (h_csrs h mscratch) (h_regs h) /\ h_mem h1 = h_mem h /\ h_csrs h1 mscratch = h_regs h a0 /\
  h_csrs h1 sip = h_csrs h sip /\ h_pc h1 = h_csrs h mepc /\ h_mode h1 = priv_of (field (h_csrs h mstatus) 11 2).
Proof. done. Qed.

Lemma timervec_tail h : at_scratch h ->
  let h1 := exec translate [Csrrw a0 mscratch a0; Mret] (exec translate (loads a0 (reverse scratch_table)) h) in
  h_regs h1 = set a0 (h_csrs h mscratch) (load_regs (h_mem h) scratch (reverse scratch_table) (h_regs h)) /\
  h_mem h1 = h_mem h /\ h_csrs h1 mscratch = scratch /\
  h_csrs h1 sip = h_csrs h sip /\ h_pc h1 = h_csrs h mepc /\ h_mode h1 = priv_of (field (h_csrs h mstatus) 11 2).
Proof using Hid Hscr Hend.
  intros Hat. rewrite (exec_loads translate a0 scratch _ h);
    [|apply scratch_table_not|apply at_scratch_table; [done|apply Forall_reverse; exact scratch_table_range]].
  destruct (timervec_leave (Hart (load_regs (h_mem h) scratch (reverse scratch_table) (h_regs h)) (h_csrs h) (h_mem h)
    (h_mode h) (h_pc h))) as (E1 & E2 & E3 & E4 & E5 & E6).
  split_and!; [exact E1|exact E2|rewrite E3|exact E4|exact E5|exact E6].
  cbn [h_regs]. rewrite load_regs_ne by apply scratch_table_not. apply Hat.
Qed.

Lemma timervec_split h : exec translate timervec h =
  exec translate [Csrrw a0 mscratch a0; Mret] (exec translate (loads a0 (reverse scratch_table))
    (exec translate ([Csrrw a0 mscratch a0] ++ saves a0 scratch_table ++ timer_mid) h)).
Proof. rewrite <- !exec_app. by rewrite timervec_shape. Qed.

(** [timervec] as a whole. *)
Lemma timervec_spec h :
  timer_ready h -> regs_ok h -> h_mode h = Machine_mode ->
  let h1 := exec translate timervec h in
  timer_ready h1 /\ (forall r, h_regs h1 r = h_regs h r) /\
  load64 (h_mem h1) (CLINT_MTIMECMP id) = u64 (load64 (h_mem h) (CLINT_MTIMECMP id) + interval) /\
  (forall a, a + 8 <= CLINT_MTIMECMP id \/ CLINT_MTIMECMP id + 8 <= a -> a + 8 <= scratch \/ scratch + 24 <= a ->
     load64 (h_mem h1) a = load64 (h_mem h) a) /\
  h_csrs h1 sip = 2 /\ h_pc h1 = h_csrs h mepc /\ h_mode h1 = priv_of (field (h_csrs h mstatus) 11 2).
Proof using Hid Hscr Hend.
  intros Hr Hok Hm. pose proof scratch_bounds as (Hb1 & Hb2 & Hb3 & Hb4).
  destruct (timervec_body h Hr Hok Hm) as (m & Hmem & Hmo & Hms & Hcsr & Hat & Hregs). destruct Hr as [_ H24 H32].
  cbv zeta in *. rewrite timervec_split. set (h2 := exec translate _ h) in *. clearbody h2.
  destruct (timervec_tail h2 Hat) as (E1 & E2 & E3 & E4 & E5 & E6). cbv zeta in *. rewrite Hcsr in E1, E4, E5, E6.
  set (h4 := exec _ _ _) in *. clearbody h4.
  assert (forall a, a + 8 <= CLINT_MTIMECMP id \/ CLINT_MTIMECMP id + 8 <= a -> load64 (h_mem h2) a = load64 m a) as Hw.
  { intros a Ha. rewrite Hmem. by apply load64_store64_ne. }
  split_and!.
  - split; rewrite ?E2; [exact E3|..]; by rewrite Hw, Hmo by lia.
  - intros r. rewrite E1. destruct (decide (r = a0)) as [->|Hr]; [by rewrite set_eq, set_ne, set_eq by done|]. rewrite set_ne by done.
    destruct (decide (r ∈ scratch_table.*1)) as [Hin|Hin].
    + apply list_elem_of_fmap in Hin as ([q off] & -> & Hin). pose proof scratch_table_low as Hl. rewrite Forall_forall in Hl.
      specialize (Hl _ Hin). cbn [snd fst] in *.
      rewrite (load_regs_eq _ _ _ _ q off) by (apply scratch_table_not || by apply scratch_table_rev).
      rewrite Hw by lia. by apply Hms.
    + rewrite load_regs_ne by (rewrite fmap_reverse, elem_of_reverse; done). by apply Hregs.
  - rewrite E2, Hmem, load64_store64_eq. apply u64_small, u64_range.
  - intros a Ha1 Ha2. by rewrite E2, Hw, Hmo.
  - rewrite E4. apply set_eq.
  - by rewrite E5, !set_ne.
  - by rewrite E6, !set_ne.
Qed.

(** ** [start] *)

(** [mret] leaves for supervisor mode. *)
Lemma start_mpp x : field (Z.lor (Z.lor (Z.ldiff x MSTATUS_MPP_MASK) MSTATUS_MPP_S) MSTATUS_MIE) 11 2 = 1.
Proof.
  unfold field, MSTATUS_MPP_MASK, MSTATUS_MPP_S, MSTATUS_MIE. apply Z.bits_inj'. intros n Hn.
  rewrite Z.land_spec, Z.shiftr_spec, !Z.lor_spec, Z.ldiff_spec by done.
  destruct (decide (n = 0)) as [->|]; [by rewrite andb_false_r|].
  destruct (decide (n = 1)) as [->|]; [by rewrite andb_false_r|].
  replace (Z.testbit (2 ^ 2 - 1) n) with false; [rewrite andb_false_r|].
  - symmetry. apply (Z.bits_above_log2 1); [done|]. change (Z.log2 1) with 0. lia.
  - symmetry. apply (Z.bits_above_log2 3); [done|]. change (Z.log2 3) with 1. lia.
Qed.

Lemma timerinit_spec h : i32 (r_mhartid h) = id ->
  let h1 := timerinit timer_scratch timervec_addr h in
  timer_ready h1 /\ h_regs h1 = h_regs h /\ h_csrs h1 mtvec = timervec_addr /\
  h_csrs h1 mstatus = Z.lor (h_csrs h mstatus) MSTATUS_MIE /\ Z.testbit (h_csrs h1 mie) 7 = true /\
  (forall c, c ∉ [mscratch; mtvec; mstatus; mie] -> h_csrs h1 c = h_csrs h c).
Proof using All.
  intros Hi. pose proof scratch_bounds as (Hb1 & Hb2 & Hb3 & Hb4). unfold timerinit. rewrite Hi. fold scratch.
  unfold w_mie, w_mstatus, w_mtvec, w_mscratch, r_mie, r_mstatus, store_word.
  cbn [h_mem h_csrs h_regs set_csr set_mem]. split_and!.
  - split; cbn [h_mem h_csrs set_csr set_mem].
    + by rewrite !set_ne, set_eq by done.
    + rewrite load64_store64_ne, load64_store64_eq by lia. apply u64_small. lia.
    + rewrite load64_store64_eq. by apply u64_small.
  - done.
  - by rewrite !set_ne, set_eq by done.
  - rewrite set_ne, set_eq by done. f_equal.
  - rewrite set_eq, Z.lor_spec. apply orb_true_r.
  - intros c Hc. rewrite !not_elem_of_cons in Hc. by rewrite !set_ne by tauto.
Qed.

Lemma start_spec h : r_mhartid h = id ->
  let h1 := start main timer_scratch timervec_addr h in
  timer_ready h1 /\ h_mode h1 = Supervisor_mode /\ h_pc h1 = main /\ h_regs h1 tp = id /\ h_csrs h1 satp = 0 /\
  h_csrs h1 mtvec = timervec_addr /\ Z.testbit (h_csrs h1 mie) 7 = true /\ h_csrs h1 mideleg = 0xffff.
Proof using All.
  intros Hh. assert (i32 id = id) as Hi by (unfold i32, NCPU in *; rewrite Z.mod_small by lia; lia).
  unfold start. set (h0 := w_sie _ _). cbv zeta.
  assert (h_csrs h0 mhartid = id /\ h_csrs h0 mepc = main /\ h_csrs h0 satp = 0 /\ h_csrs h0 mideleg = 0xffff /\
    h_csrs h0 mstatus = Z.lor (Z.ldiff (h_csrs h mstatus) MSTATUS_MPP_MASK) MSTATUS_MPP_S) as (Hhart & Hepc & Hsatp & Hdel & Hst) by done.
  clearbody h0. destruct (timerinit_spec h0) as ([R1 R2 R3] & _ & Hvec & Hms & Hmie & Hoth); [by unfold r_mhartid; rewrite Hhart|].
  set (h1 := timerinit _ _ h0) in *. clearbody h1.
  assert (h_csrs h1 mhartid = id /\ h_csrs h1 mepc = main /\ h_csrs h1 satp = 0 /\ h_csrs h1 mideleg = 0xffff) as (Hhart1 & Hepc1 & Hsatp1 & Hdel1).
  { by rewrite !Hoth by (apply (bool_decide_unpack _); by vm_compute). }
  unfold do_mret, w_tp, r_mhartid. cbn [h_mem h_csrs h_regs h_mode h_pc set_csr set_reg jump].
  rewrite Hhart1, Hi, Hms, Hst, start_mpp.
  split_and!; [split; try done; by cbn; rewrite set_ne|done|done| | | | |]; rewrite ?set_ne, ?set_eq by done; try done.
  apply u64_small. unfold NCPU in *. lia.
Qed.

(** C17: The machine-mode timer.  On every hart, [start] leaves for [main] in supervisor mode with
    paging off, the hart id in [tp] and machine-mode timer interrupts on, and with the scratch
    area that [timervec] relies on.  From then on each timer interrupt restores every register
    of the code it interrupted, raises the supervisor's software interrupt, moves the deadline on
    by the interval, writes nothing else but its scratch words, and leaves the scratch area ready
    for the next one. *)
Theorem timer_interrupts h h2 :
  r_mhartid h = id -> timer_ready h2 -> regs_ok h2 -> h_mode h2 = Machine_mode ->
  let h1 := start main timer_scratch timervec_addr h in
  (timer_ready h1 /\ h_mode h1 = Supervisor_mode /\ h_pc h1 = main /\ h_regs h1 tp = id /\ h_csrs h1 satp = 0 /\
   h_csrs h1 mtvec = timervec_addr /\ Z.testbit (h_csrs h1 mie) 7 = true) /\
  let h3 := exec translate timervec h2 in
  timer_ready h3 /\ (forall r, h_regs h3 r = h_regs h2 r) /\ h_csrs h3 sip = 2 /\ h_pc h3 = h_csrs h2 mepc /\
  load64 (h_mem h3) (CLINT_MTIMECMP id) = u64 (load64 (h_mem h2) (CLINT_MTIMECMP id) + interval) /\
  (forall a, a + 8 <= CLINT_MTIMECMP id \/ CLINT_MTIMECMP id + 8 <= a -> a + 8 <= scratch \/ scratch + 24 <= a ->
     load64 (h_mem h3) a = load64 (h_mem h2) a).
Proof using All.
  intros Hh Hr Hok Hm. pose proof (start_spec h Hh) as Hs. pose proof (timervec_spec h2 Hr Hok Hm) as Ht. cbv zeta in *. tauto.
Qed.
End Timer.

(** Hart 3 of a kernel that has its scratch areas at 0x80008000, with a first interrupt right
    after [start]. *)
Definition demo_boot : hart := Hart (fun _ => 0) (set mhartid 3 (fun _ => 0)) ∅ Machine_mode 0.
Definition demo_started : hart := start 0x80001000 0x80008000 0x80002000 demo_boot.
Definition demo_interrupted : hart := jump Machine_mode 0x80002000 demo_started.

Lemma timer_interrupts_witness :
  h_pc demo_started = 0x80001000 /\
  load64 (h_mem (exec (fun _ va => va) timervec demo_interrupted)) (CLINT_MTIMECMP 3) =
    u64 (load64 (h_mem demo_interrupted) (CLINT_MTIMECMP 3) + interval).
Proof.
  assert (0 <= 3 < Z.of_nat NCPU) as H1 by (vm_compute; split; [discriminate|reflexivity]).
  assert (KERNBASE <= 0x80008000) as H2 by (vm_compute; discriminate).
  assert (0x80008000 + 8 * 5 * Z.of_nat NCPU <= PHYSTOP) as H3 by (vm_compute; discriminate).
  assert (timer_ready 0x80008000 3 demo_interrupted) as H4 by (split; vm_compute; reflexivity).
  assert (regs_ok demo_interrupted) as H5.
  { intros r. destruct r; vm_compute; split; discriminate || reflexivity. }
  destruct (timer_interrupts (fun _ va => va) 0x80001000 0x80008000 0x80002000 3 H1 H2 H3 demo_boot demo_interrupted
    eq_refl H4 H5 eq_refl) as ((_ & _ & Hpc & _) & _ & _ & _ & _ & Hcmp & _).
  split; [exact Hpc|exact Hcmp].
Defined.

(** ** The stacks of [entry] *)

(** Each hart starts on a stack of its own, inside [stack0]. *)
Lemma entry_stack translate stack0 start h : let id := h_csrs h mhartid in
  0 <= id < Z.of_nat NCPU -> 0 <= stack0 -> stack0 + 4096 * Z.of_nat NCPU < 2 ^ 64 ->
  exists h1, exec translate (entry stack0 start) h = start h1 /\ h_regs h1 sp = stack0 + 4096 * (id + 1).
Proof.
  intros id Hid H1 H2. unfold NCPU in *. eexists. split; [reflexivity|].
  cbn [exec1 set_reg h_regs h_csrs]. repeat first [rewrite set_eq | rewrite set_ne by done]. fold id.
  change (u64 (1024 * 4)) with 4096. rewrite (u64_small (id + 1)), (u64_small (4096 * (id + 1))), u64_small; lia.
Qed.
