(* ===== verification/Proc.v ===== *)
(** * Processes: kernel/proc.c

    Allocation and release of process slots, [fork], [exit], [wait], [kill] and the signal
    system calls.  Every function is the whole of its source, in the order of its
    statements; a null pointer that is dereferenced, and an index outside its table, is
    undefined behaviour. *)

From stdpp Require Import base numbers list gmap strings.
From S2P Require Import Prelude Mem Types Kernel Kalloc Vm Sched Bio Log Fs Console File.

(** ** Trapframes *)

Definition tf_load (tf off : Z) : K Z :=
  if tf =? 0 then ub "null trapframe" else loadK (tf + off).
Definition tf_store (tf off v : Z) : K unit :=
  if tf =? 0 then ub "null trapframe" else storeK (tf + off) v.
(** [*dst = *src], or [memmove(dst, src, sizeof(struct trapframe))]. *)
Definition tf_copy (dst src : Z) : K unit :=
  if (dst =? 0) || (src =? 0) then ub "null trapframe" else
  modifyK (fun s => s <| mem := memmove (mem s) dst src sizeof_trapframe |>).

(** ** Slots *)

Definition freed_thread (x : thread) : thread :=
  x <| t_trapframe := 0 |> <| t_killed := 0 |> <| t_chan := CH_null |>
    <| t_xstate := 0 |> <| t_tparent := None |> <| t_state := t_UNUSED |>.
Definition free_thread (t : nat * nat) : K unit := set_thread t freed_thread.

(** For the process in slot [p], whose trapframe page is known. *)
Definition proc_pagetable (p : nat) : K Z :=
  pagetable <- uvmcreate ;;
  if pagetable =? 0 then retK 0 else
  trampoline <- getsK (fun s => sym_trampoline (syms s)) ;;
  r <- mappages pagetable TRAMPOLINE PGSIZE trampoline (Z.lor PTE_R PTE_X) ;;
  if r <? 0 then uvmfree pagetable 0 ;;; retK 0 else
  x <- get_proc p ;;
  r <- mappages pagetable TRAPFRAME PGSIZE (p_trapframepointer x) (Z.lor PTE_R PTE_W) ;;
  if r <? 0 then
    uvmunmap pagetable TRAMPOLINE 1 false ;;;
    uvmfree pagetable 0 ;;;
    retK 0
  else retK pagetable.

Definition proc_freepagetable (pagetable sz : Z) : K unit :=
  uvmunmap pagetable TRAMPOLINE 1 false ;;;
  uvmunmap pagetable TRAPFRAME 1 false ;;;
  uvmfree pagetable sz.

Definition freeproc (p : nat) : K unit :=
  x <- get_proc p ;;
  (if p_pagetable x =? 0 then retK tt else proc_freepagetable (p_pagetable x) (p_sz x)) ;;;
  (if p_trapframepointer x =? 0 then retK tt else kfree (p_trapframepointer x)) ;;;
  (if p_user_trap_frame_backup x =? 0 then retK tt else kfree (p_user_trap_frame_backup x)) ;;;
  set_proc p (fun x => x <| p_trapframepointer := 0 |> <| p_pagetable := 0 |> <| p_sz := 0 |>
    <| p_pid := 0 |> <| p_parent := None |> <| p_name ::= <[0%nat := 0]> |> <| p_killed := 0 |>
    <| p_xstate := 0 |> <| p_state := UNUSED |>) ;;;
  forK (threads_of p) free_thread.

Definition init_siganls_handlers_to_default (p : nat) : K unit :=
  forK (seq 0 NUMOFSIGNALS) (fun i =>
    set_proc p (fun x => x <| p_signalhandlers ::= <[i := SIG_DFL]> |>)).

(** The search of [allocproc]; it ends with the lock of the slot it found. *)
Definition find_unused_proc : K (option nat) :=
  searchK (seq 0 NPROC) (fun p =>
    acquire (L_proc p) ;;;
    x <- get_proc p ;;
    if decide (p_state x = UNUSED) then retK (Some p)
    else release (L_proc p) ;;; retK None).

Definition alloc_fail (p : nat) : K (option nat) :=
  free_thread (p, 0%nat) ;;;
  freeproc p ;;;
  release (L_proc p) ;;;
  retK None.

Definition allocproc : K (option nat) :=
  found <- find_unused_proc ;;
  match found with
  | None => retK None
  | Some p =>
      let t := (p, 0%nat) in
      pid <- allocpid ;;
      set_proc p (fun x => x <| p_pid := pid |> <| p_state := USED |> <| p_killed := 0 |>) ;;;
      set_thread t (fun x => x <| t_state := t_USED |> <| t_killed := 0 |>) ;;;
      tid <- get_tid ;;
      set_thread t (fun x => x <| t_tid := tid |> <| t_tparent := Some p |>) ;;;
      forK (seq 0 NUMOFSIGNALS) (fun i =>
        set_proc p (fun x => x <| p_signalmasks ::= <[i := 0]> |>)) ;;;
      tf <- kalloc ;;
      if tf =? 0 then alloc_fail p else
      set_proc p (fun x => x <| p_trapframepointer := tf |>) ;;;
      pagetable <- proc_pagetable p ;;
      set_proc p (fun x => x <| p_pagetable := pagetable |>) ;;;
      if pagetable =? 0 then alloc_fail p else
      forK (seq 0 NTHREAD) (fun j =>
        set_thread (p, j) (fun x => x <| t_trapframe := tf + Z.of_nat j * sizeof_trapframe |>)) ;;;
      backup <- kalloc ;;
      set_proc p (fun x => x <| p_user_trap_frame_backup := backup |>) ;;;
      if backup =? 0 then alloc_fail p else
      set_proc p (fun x => x <| p_handlingSignal := 0 |> <| p_signalmask_origin := 0 |>) ;;;
      set_thread t (fun x => x <| t_context := context0 |>) ;;;
      init_siganls_handlers_to_default p ;;;
      set_proc p (fun x => x <| p_pendingsignals := 0 |>) ;;;
      forkret <- getsK (fun s => sym_forkret (syms s)) ;;
      set_thread t (fun x => x <| t_context ::= (fun c =>
        c <| ctx_ra := forkret |> <| ctx_sp := u64 (t_kstack x + PGSIZE) |>) |>) ;;;
      retK (Some p)
  end.

(** [initcode], the first user program. *)
Definition initcode : list Z :=
  [23; 5; 0; 0; 19; 5; 69; 2; 151; 5; 0; 0; 147; 133; 53; 2; 147; 8; 112; 0; 115; 0; 0; 0;
   147; 8; 32; 0; 115; 0; 0; 0; 239; 240; 159; 255; 47; 105; 110; 105; 116; 0; 0; 36;
   0; 0; 0; 0; 0; 0; 0; 0].

Definition initcode_name : list Z := str "initcode".

Definition set_name (p : nat) (name : list Z) : K unit :=
  set_proc p (fun x => x <| p_name ::= splice 0 (safestrcpy_l name 15) |>).

Definition userinit : K unit :=
  r <- allocproc ;;
  match r with
  | None => ub "userinit: allocproc failed"
  | Some p =>
      let t := (p, 0%nat) in
      modifyK (fun s => s <| initproc := Some p |>) ;;;
      x <- get_proc p ;;
      uvminit (p_pagetable x) initcode ;;;
      set_proc p (fun x => x <| p_sz := PGSIZE |>) ;;;
      y <- get_thread t ;;
      tf_store (t_trapframe y) tf_epc 0 ;;;
      tf_store (t_trapframe y) tf_sp PGSIZE ;;;
      init_siganls_handlers_to_default p ;;;
      set_name p initcode_name ;;;
      cwd <- namei [slash] ;;
      set_proc p (fun x => x <| p_cwd := cwd |>) ;;;
      set_thread t (fun x => x <| t_state := t_RUNNABLE |>) ;;;
      release (L_proc p)
  end.

(** The local variable [sz] of [growproc] is a 32-bit [uint]. *)
Definition growproc (n : Z) : K Z :=
  p <- curproc ;;
  acquire (L_proc p) ;;;
  x <- get_proc p ;;
  let sz := u32 (p_sz x) in
  if 0 <? n then
    r <- uvmalloc (p_pagetable x) sz (u32 (sz + n)) ;;
    let sz := u32 r in
    if sz =? 0 then release (L_proc p) ;;; retK (-1) else
    set_proc p (fun x => x <| p_sz := sz |>) ;;;
    release (L_proc p) ;;;
    retK 0
  else
    sz <- (if n <? 0 then r <- uvmdealloc (p_pagetable x) sz (u32 (sz + n)) ;; retK (u32 r)
           else retK sz) ;;
    set_proc p (fun x => x <| p_sz := sz |>) ;;;
    release (L_proc p) ;;;
    retK 0.

Definition copy_signal_handlers (np p : nat) : K unit :=
  forK (seq 0 NUMOFSIGNALS) (fun i =>
    x <- get_proc p ;;
    set_proc np (fun y => y <| p_signalhandlers ::= <[i := p_signalhandlers x !!! i]> |>)).

Definition fork : K Z :=
  p <- curproc ;;
  t <- curthread ;;
  r <- allocproc ;;
  match r with
  | None => retK (-1)
  | Some np =>
      x <- get_proc p ;;
      nx <- get_proc np ;;
      c <- uvmcopy (p_pagetable x) (p_pagetable nx) (p_sz x) ;;
      if c <? 0 then freeproc np ;;; release (L_proc np) ;;; retK (-1) else
      set_proc np (fun y => y <| p_sz := p_sz x |> <| p_pendingsignals := 0 |>) ;;;
      y <- get_thread t ;;
      ny <- get_thread (np, 0%nat) ;;
      tf_copy (t_trapframe ny) (t_trapframe y) ;;;
      tf_store (t_trapframe ny) tf_a0 0 ;;;
      forK (seq 0 NOFILE) (fun i =>
        x <- get_proc p ;;
        match p_ofile x !!! i with
        | Some f => f <- filedup f ;; set_proc np (fun y => y <| p_ofile ::= <[i := Some f]> |>)
        | None => retK tt
        end) ;;;
      cwd <- (match p_cwd x with Some ip => idup ip | None => ub "idup(0)" end) ;;
      set_proc np (fun y => y <| p_cwd := Some cwd |>) ;;;
      set_name np (p_name x) ;;;
      set_proc np (fun y => y <| p_signalmask := p_signalmask x |>) ;;;
      copy_signal_handlers np p ;;;
      nx <- get_proc np ;;
      let pid := p_pid nx in
      release (L_proc np) ;;;
      acquire L_wait ;;;
      set_proc np (fun y => y <| p_parent := Some p |>) ;;;
      release L_wait ;;;
      acquire (L_proc np) ;;;
      set_thread (np, 0%nat) (fun y => y <| t_state := t_RUNNABLE |>) ;;;
      set_proc np (fun y => y <| p_state := USED |>) ;;;
      release (L_proc np) ;;;
      retK pid
  end.

(** ** Signals: the system calls *)

Definition sigret_proc : K Z :=
  p <- curproc ;;
  t <- curthread ;;
  acquire (L_proc p) ;;;
  set_proc p (fun x => x <| p_handlingSignal := 0 |>) ;;;
  x <- get_proc p ;;
  y <- get_thread t ;;
  tf_copy (t_trapframe y) (p_user_trap_frame_backup x) ;;;
  set_proc p (fun x => x <| p_signalmask := p_signalmask_origin x |>) ;;;
  release (L_proc p) ;;;
  retK 0.

(** [struct sigaction]: the handler, the mask and four bytes of padding. *)
Definition sizeof_sigaction : nat := 16.
Definition sigaction_bytes (handler mask : Z) : list Z :=
  bytes_of 8 handler ++ bytes_of 4 mask ++ [0; 0; 0; 0].

Definition sigaction_proc (signum act oldact : Z) : K Z :=
  q <- myproc ;;
  match q with
  | None => retK (-1)
  | Some p =>
      if (33 <? signum) || (signum <? 0) then retK (-1) else
      acquire (L_proc p) ;;;
      x <- get_proc p ;;
      let i := Z.to_nat signum in
      c <- (if oldact =? 0 then retK 0 else
            match p_signalhandlers x !! i, p_signalmasks x !! i with
            | Some h, Some m => copyout (p_pagetable x) oldact (sigaction_bytes h m)
            | _, _ => ub "signalhandlers out of bounds"
            end) ;;
      if c <? 0 then release (L_proc p) ;;; retK (-1) else
      if act =? 0 then release (L_proc p) ;;; retK 0 else
      if (signum =? SIGKILL) || (signum =? SIGSTOP) then release (L_proc p) ;;; retK (-1) else
      r <- copyin (p_pagetable x) act sizeof_sigaction ;;
      if fst r <? 0 then release (L_proc p) ;;; retK (-1) else
      if (i <? length (p_signalhandlers x))%nat && (i <? length (p_signalmasks x))%nat then
        set_proc p (fun x => x <| p_signalhandlers ::= <[i := lget 8 (snd r) 0]> |>
                               <| p_signalmasks ::= <[i := lget 4 (snd r) 8]> |>) ;;;
        release (L_proc p) ;;;
        retK 0
      else ub "signalhandlers out of bounds"
  end.

Definition sigprocmask_proc (newmask : Z) : K Z :=
  p <- curproc ;;
  x <- get_proc p ;;
  set_proc p (fun x => x <| p_signalmask := u32 newmask |>) ;;;
  retK (i32 (p_signalmask x)).

Definition kill (pid signum : Z) : K Z :=
  r <- searchK (seq 0 NPROC) (fun p =>
    acquire (L_proc p) ;;;
    x <- get_proc p ;;
    if (p_pid x =? pid) && (bool_decide (p_state x = ZOMBIE) || bool_decide (p_state x = UNUSED))
    then release (L_proc p) ;;; retK (Some (-1))
    else if p_pid x =? pid then
      set_proc p (fun x => x <| p_pendingsignals := Z.lor (p_pendingsignals x) (u32 signum) |>) ;;;
      release (L_proc p) ;;;
      retK (Some 0)
    else release (L_proc p) ;;; retK None) ;;
  retK (default (-1) r).

(** ** [exit] and [wait] *)

Definition reparent (p : nat) : K unit :=
  forK (seq 0 NPROC) (fun pp =>
    x <- get_proc pp ;;
    if decide (p_parent x = Some p) then
      init <- getsK (fun s => initproc s) ;;
      set_proc pp (fun x => x <| p_parent := init |>) ;;;
      wakeup (match init with Some i => CH_proc i | None => CH_null end)
    else retK tt).

(** Another thread than [tid] that has neither ended nor been released. *)
Definition other_live (tid : Z) (x : thread) : bool :=
  negb (t_tid x =? tid) && negb (bool_decide (t_state x = TZOMBIE)) &&
  negb (bool_decide (t_state x = t_UNUSED)).

Definition killthreads_wait (p : nat) (t : nat * nat) (_ : unit) : K (unit + unit) :=
  y <- get_thread t ;;
  x <- get_proc p ;;
  if existsb (other_live (t_tid y)) (p_threads x) then yield ;;; retK (inl tt)
  else retK (inr tt).

Definition killthreads : K unit :=
  p <- curproc ;;
  t <- curthread ;;
  y <- get_thread t ;;
  (if negb (t_killed y =? 0) then
     wakeup (CH_thread (fst t) (snd t)) ;;;
     acquire (L_thread (fst t) (snd t)) ;;;
     set_thread t (fun y => y <| t_state := TZOMBIE |>) ;;;
     sched
   else
     forK (threads_of p) (fun trd =>
       x <- get_thread trd ;;
       if other_live (t_tid y) x then set_thread trd (fun x => x <| t_killed := 1 |>)
       else retK tt)) ;;;
  blockK (killthreads_wait p t) tt.

Definition exit {A} (status : Z) : K A :=
  p <- curproc ;;
  t <- curthread ;;
  init <- getsK (fun s => initproc s) ;;
  if decide (Some p = init) then panic "init exiting" else
  killthreads ;;;
  forK (seq 0 NOFILE) (fun fd =>
    x <- get_proc p ;;
    match p_ofile x !!! fd with
    | Some f => fileclose f ;;; set_proc p (fun x => x <| p_ofile ::= <[fd := None]> |>)
    | None => retK tt
    end) ;;;
  begin_op ;;;
  x <- get_proc p ;;
  match p_cwd x with Some ip => iput ip | None => ub "iput(0)" end ;;;
  end_op ;;;
  set_proc p (fun x => x <| p_cwd := None |>) ;;;
  acquire L_wait ;;;
  reparent p ;;;
  x <- get_proc p ;;
  wakeup (match p_parent x with Some q => CH_proc q | None => CH_null end) ;;;
  acquire (L_proc p) ;;;
  set_thread t (fun y => y <| t_state := TZOMBIE |> <| t_xstate := status |>) ;;;
  set_proc p (fun x => x <| p_xstate := status |> <| p_state := ZOMBIE |>) ;;;
  release L_wait ;;;
  sched ;;;
  panic "zombie exit".

(** One scan of the process table by [wait]: the value it returns, if any, and whether the
    caller has children. *)
Definition wait_scan (p : nat) (addr : Z) : K (option Z) :=
  searchK (seq 0 NPROC) (fun np =>
    nx <- get_proc np ;;
    if decide (p_parent nx = Some p) then
      acquire (L_proc np) ;;;
      nx <- get_proc np ;;
      if decide (p_state nx = ZOMBIE) then
        let pid := p_pid nx in
        x <- get_proc p ;;
        c <- (if addr =? 0 then retK 0
              else copyout (p_pagetable x) addr (bytes_of 4 (u32 (p_xstate nx)))) ;;
        if c <? 0 then
          release (L_proc np) ;;; release L_wait ;;; retK (Some (-1))
        else
          freeproc np ;;;
          release (L_proc np) ;;;
          release L_wait ;;;
          retK (Some pid)
      else release (L_proc np) ;;; retK None
    else retK None).

Definition has_child (p : nat) (s : kstate) : bool :=
  existsb (fun x => bool_decide (p_parent x = Some p)) (procs s).

Definition wait_body (p : nat) (addr : Z) (_ : unit) : K (unit + Z) :=
  havekids <- getsK (has_child p) ;;
  r <- wait_scan p addr ;;
  match r with
  | Some v => retK (inr v)
  | None =>
      x <- get_proc p ;;
      if negb havekids || negb (p_killed x =? 0) then release L_wait ;;; retK (inr (-1))
      else sleep (CH_proc p) L_wait ;;; retK (inl tt)
  end.

Definition wait (addr : Z) : K Z :=
  p <- curproc ;;
  acquire L_wait ;;;
  blockK (wait_body p addr) tt.

#[global] Arguments kill : simpl never.
#[global] Arguments exit : simpl never.
#[global] Arguments fork : simpl never.
#[global] Arguments freeproc : simpl never.
#[global] Arguments allocproc : simpl never.
