(* ===== verification/Kthread.v ===== *)
(** * Kernel threads and binary semaphores: kernel/proc.c *)

From stdpp Require Import base numbers list gmap strings.
From S2P Require Import Prelude Mem Types Kernel Kalloc Vm Sched Bio Log Fs Console File Proc.

(** ** Threads *)

(** The states [kthread_exit_proc] counts as another thread. *)
Definition counted_thread (tid : Z) (x : thread) : bool :=
  negb (t_tid x =? tid) &&
  (bool_decide (t_state x = t_SLEEPING) || bool_decide (t_state x = t_RUNNABLE) ||
   bool_decide (t_state x = t_RUNNING) || bool_decide (t_state x = t_UNUSED)).

Definition kthread_exit_proc {A} (status : Z) : K A :=
  t <- curthread ;;
  y <- get_thread t ;;
  match t_tparent y with
  | None => ub "null tparent"
  | Some p =>
      acquire (L_proc p) ;;;
      x <- get_proc p ;;
      let num_of_threads := existsb (counted_thread (t_tid y)) (p_threads x) in
      release (L_proc p) ;;;
      if num_of_threads : bool then
        acquire L_wait ;;;
        wakeup (CH_thread (fst t) (snd t)) ;;;
        acquire (L_proc p) ;;;
        set_thread t (fun y => y <| t_state := TZOMBIE |>) ;;;
        release L_wait ;;;
        sched ;;;
        panic "zombie exit"
      else exit status
  end.

(** The thread the search loop of [kthread_join_proc] ends with: the first one with the
    wanted id, or the last one of the table. *)
Fixpoint join_target (tid : Z) (ts : list thread) (j : nat) : nat :=
  match ts with
  | [] => Nat.pred j
  | x :: ts' => if t_tid x =? tid then j else join_target tid ts' (S j)
  end.

Definition join_wait (p : nat) (t : nat * nat) (tid : Z) (_ : unit) : K (unit + unit) :=
  y <- get_thread t ;;
  if (t_tid y =? tid) && negb (bool_decide (t_state y = TZOMBIE)) then
    release (L_proc p) ;;;
    sleep (CH_thread (fst t) (snd t)) L_wait ;;;
    acquire (L_proc p) ;;;
    retK (inl tt)
  else retK (inr tt).

Definition kthread_join_proc (tid status : Z) : K Z :=
  p <- curproc ;;
  me <- curthread ;;
  y <- get_thread me ;;
  next <- getsK (fun s => nexttid s) ;;
  if (tid =? t_tid y) || (next <? tid) || (tid <? 1) then retK (-1) else
  acquire L_wait ;;;
  acquire (L_proc p) ;;;
  x <- get_proc p ;;
  let t := (p, join_target tid (p_threads x) 0) in
  blockK (join_wait p t tid) tt ;;;
  y <- get_thread t ;;
  x <- get_proc p ;;
  c <- (if status =? 0 then retK 0
        else copyout (p_pagetable x) status (bytes_of 4 (u32 (t_xstate y)))) ;;
  if c <? 0 then release (L_proc p) ;;; release L_wait ;;; retK (-1) else
  free_thread t ;;;
  release L_wait ;;;
  release (L_proc p) ;;;
  retK 0.

Definition kthread_create_proc (start_func stack : Z) : K Z :=
  p <- curproc ;;
  acquire (L_proc p) ;;;
  r <- searchK (threads_of p) (fun t =>
    x <- get_thread t ;;
    if decide (t_state x = t_UNUSED) then
      set_thread t (fun x => x <| t_state := t_RUNNABLE |>) ;;;
      tid <- get_tid ;;
      set_thread t (fun x => x <| t_tid := tid |>) ;;;
      tf_store (t_trapframe x) tf_epc start_func ;;;
      tf_store (t_trapframe x) tf_sp (u64 (stack + MAX_STACK_SIZE - 16)) ;;;
      set_thread t (fun x => x <| t_context := context0 |>) ;;;
      forkret <- getsK (fun s => sym_forkret (syms s)) ;;
      set_thread t (fun x => x <| t_context ::= (fun c =>
        c <| ctx_ra := forkret |> <| ctx_sp := u64 (t_kstack x + PGSIZE) |>) |>
        <| t_tparent := Some p |>) ;;;
      release (L_proc p) ;;;
      x <- get_thread t ;;
      retK (Some (t_tid x))
    else retK None) ;;
  match r with
  | Some tid => retK tid
  | None => release (L_proc p) ;;; retK (-1)
  end.

Definition kthread_id_proc : K Z :=
  t <- curthread ;;
  y <- get_thread t ;;
  match t_tparent y with
  | None => ub "null tparent"
  | Some p =>
      acquire (L_proc p) ;;;
      y <- get_thread t ;;
      release (L_proc p) ;;;
      retK (if t_tid y =? 0 then -1 else t_tid y)
  end.

(** ** Binary semaphores *)

Definition get_bsem (d : Z) : K binarySemaphore := fun e s =>
  if d <? 0 then UB "Bsems index" else
  match bsems s !! Z.to_nat d with Some b => Ok b e s | None => UB "Bsems index" end.
Definition set_bsem (d : Z) (f : binarySemaphore -> binarySemaphore) : K unit :=
  modifyK (fun s => s <| bsems ::= alter f (Z.to_nat d) |>).
Definition L_Bsem (d : Z) : lock := L_bsem (Z.to_nat d).

Definition initsems : K unit :=
  forK (seq 0 MAX_BSEM) (fun i =>
    initlock (L_bsem i) ;;;
    acquire (L_bsem i) ;;;
    set_bsem (Z.of_nat i) (fun b => b <| bs_descriptor := -1 |> <| bs_value := 1 |>) ;;;
    release (L_bsem i)).

Fixpoint remove_first (t : nat * nat) (l : list (option (nat * nat))) : list (option (nat * nat)) :=
  match l with
  | [] => []
  | x :: l' => if decide (x = Some t) then None :: l' else x :: remove_first t l'
  end.

Fixpoint place_first (t : nat * nat) (l : list (option (nat * nat)))
    : option (list (option (nat * nat))) :=
  match l with
  | [] => None
  | None :: l' => Some (Some t :: l')
  | x :: l' => cons x <$> place_first t l'
  end.

Definition remove_current_thread (d : Z) : K unit :=
  t <- curthread ;;
  set_bsem d (fun b => b <| bs_threads ::= remove_first t |>).

Definition place_thread_in_line (d : Z) : K unit :=
  t <- curthread ;;
  b <- get_bsem d ;;
  match place_first t (bs_threads b) with
  | Some l => set_bsem d (fun b => b <| bs_threads := l |>)
  | None => panic "No More space for threads in Bsem"
  end.

(** The loop ends after its first iteration. *)
Definition bsem_alloc : K Z :=
  acquire (L_Bsem 0) ;;;
  b <- get_bsem 0 ;;
  (if bs_value b =? -1 then
     set_bsem 0 (fun b => b <| bs_value := 1 |> <| bs_descriptor := 0 |>)
   else retK tt) ;;;
  release (L_Bsem 0) ;;;
  retK (if bs_value b =? -1 then 0 else -1).

Definition bsem_free (d : Z) : K unit :=
  b <- get_bsem d ;;
  acquire (L_Bsem d) ;;;
  b <- get_bsem d ;;
  if (bs_descriptor b =? -1) || (bs_value b =? 0) then release (L_Bsem d) else
  set_bsem d (fun b => b <| bs_descriptor := -1 |>) ;;;
  release (L_Bsem d).

Definition bsem_down_body (d : Z) (_ : unit) : K (unit + unit) :=
  acquire (L_Bsem d) ;;;
  b <- get_bsem d ;;
  if bs_descriptor b =? -1 then release (L_Bsem d) ;;; retK (inr tt) else
  if bs_value b =? 1 then
    t <- mythread ;;
    set_bsem d (fun b => b <| bs_currentThread := t |>) ;;;
    remove_current_thread d ;;;
    set_bsem d (fun b => b <| bs_value := 0 |>) ;;;
    release (L_Bsem d) ;;;
    retK (inr tt)
  else
    place_thread_in_line d ;;;
    sleep (CH_bsem (Z.to_nat d)) (L_Bsem d) ;;;
    retK (inl tt).

Definition bsem_down (d : Z) : K unit :=
  get_bsem d ;;;
  blockK (bsem_down_body d) tt.

Definition bsem_up (d : Z) : K unit :=
  get_bsem d ;;;
  acquire (L_Bsem d) ;;;
  b <- get_bsem d ;;
  if bs_descriptor b =? -1 then release (L_Bsem d) else
  set_bsem d (fun b => b <| bs_currentThread := None |> <| bs_value := 1 |>) ;;;
  wakeup (CH_bsem (Z.to_nat d)) ;;;
  release (L_Bsem d).
