(* ===== verification/KthreadFacts.v ===== *)
(** * What the thread and semaphore calls really do

    The binary semaphores are dead code: no state the kernel can reach has an allocated one.
    The thread calls have behaviours their callers cannot expect: joining an unknown thread
    releases a slot that may be in use, the last thread of a process does not end it, and a
    slot that was joined cannot be used again. *)

From stdpp Require Import base numbers list gmap strings.
From S2P Require Import Prelude Mem Types Kernel Kalloc Vm Sched SchedFacts Bio Log Fs Console File.
From S2P Require Import Proc Kthread.

Lemma get_proc_run i p e s : procs s !! i = Some p -> get_proc i e s = Ok p e s.
Proof. intros H. unfold get_proc. by rewrite H. Qed.

Lemma set_proc_run i f e s : set_proc i f e s = Ok tt e (s <| procs ::= alter f i |>).
Proof. reflexivity. Qed.

Lemma acquire_inv l e s r e' s' :
  acquire l e s = Ok r e' s' -> (l ∉ held s) /\ e' = e /\ s' = s <| held ::= cons l |>.
Proof.
  intros H. destruct (decide (l ∈ held s)) as [Hl|Hl].
  - by rewrite acquire_held in H.
  - rewrite acquire_free in H by done. by injection H as <- <- <-.
Qed.

Lemma critical_same l e s :
  l ∉ held s -> (acquire l ;;; release l) e s = Ok tt e s.
Proof.
  intros H. unfold bindK. rewrite acquire_free by done. by rewrite (release_top _ _ _ (held s)) by done.
Qed.

(** ** Binary semaphores *)

Definition bsem_idle (b : binarySemaphore) : Prop := bs_value b = 1 /\ bs_descriptor b = -1.
Definition bsems_idle (s : kstate) : Prop := Forall bsem_idle (bsems s) /\ length (bsems s) = MAX_BSEM.

Lemma get_bsem_idle d e s :
  bsems_idle s -> 0 <= d < Z.of_nat MAX_BSEM ->
  exists b, get_bsem d e s = Ok b e s /\ bsem_idle b.
Proof.
  intros [Hi Hl] Hd. unfold get_bsem. destruct (Z.ltb_spec d 0); [lia|].
  destruct (bsems s !! Z.to_nat d) as [b|] eqn:E.
  - exists b. split; [done|]. by eapply Forall_lookup_1 in Hi.
  - apply lookup_ge_None in E. lia.
Qed.

Lemma bsems_idle_held s h : bsems_idle s -> bsems_idle (s <| held := h |>).
Proof. done. Qed.

(** The calls do nothing on an idle table. *)

Lemma release_after_acquire l e s : release l e (s <| held ::= cons l |>) = Ok tt e s.
Proof. by rewrite (release_top _ _ _ (held s)) by done. Qed.

Lemma bsem_alloc_idle e s :
  bsems_idle s -> L_bsem 0 ∉ held s -> bsem_alloc e s = Ok (-1) e s.
Proof.
  intros Hi Hh. unfold bsem_alloc, L_Bsem. kstep (acquire_free (L_bsem 0) e s Hh).
  destruct (get_bsem_idle 0 e (s <| held ::= cons (L_bsem 0) |>)) as (b & Hb & Hv & _); [done|unfold MAX_BSEM; lia|].
  kstep Hb. rewrite Hv. change (1 =? -1) with false. cbn iota. rewrite bindK_ret.
  by kstep (release_after_acquire (L_bsem 0) e s).
Qed.

Lemma bsem_free_idle d e s :
  bsems_idle s -> 0 <= d < Z.of_nat MAX_BSEM -> L_bsem (Z.to_nat d) ∉ held s ->
  bsem_free d e s = Ok tt e s.
Proof.
  intros Hi Hd Hh. unfold bsem_free. destruct (get_bsem_idle d e s Hi Hd) as (b0 & Hb0 & _).
  kstep Hb0. kstep (acquire_free (L_Bsem d) e s Hh).
  destruct (get_bsem_idle d e (s <| held ::= cons (L_Bsem d) |>)) as (b & Hb & _ & Hn); [done|done|].
  kstep Hb. rewrite Hn. cbn. apply release_after_acquire.
Qed.

Lemma bsem_up_idle d e s :
  bsems_idle s -> 0 <= d < Z.of_nat MAX_BSEM -> L_bsem (Z.to_nat d) ∉ held s ->
  bsem_up d e s = Ok tt e s.
Proof.
  intros Hi Hd Hh. unfold bsem_up. destruct (get_bsem_idle d e s Hi Hd) as (b0 & Hb0 & _).
  kstep Hb0. kstep (acquire_free (L_Bsem d) e s Hh).
  destruct (get_bsem_idle d e (s <| held ::= cons (L_Bsem d) |>)) as (b & Hb & _ & Hn); [done|done|].
  kstep Hb. rewrite Hn. cbn. apply release_after_acquire.
Qed.

Lemma bsem_down_idle d e s :
  bsems_idle s -> 0 <= d < Z.of_nat MAX_BSEM -> L_bsem (Z.to_nat d) ∉ held s ->
  bsem_down d e s = Ok tt e s.
Proof.
  intros Hi Hd Hh. unfold bsem_down. destruct (get_bsem_idle d e s Hi Hd) as (b0 & Hb0 & _).
  kstep Hb0. unfold blockK. cbn [whileK]. unfold bindK at 1.
  enough (bsem_down_body d tt e s = Ok (inr tt) e s) as -> by done.
  unfold bsem_down_body. kstep (acquire_free (L_Bsem d) e s Hh).
  destruct (get_bsem_idle d e (s <| held ::= cons (L_Bsem d) |>)) as (b & Hb & _ & Hn); [done|done|].
  kstep Hb. rewrite Hn. cbn. by kstep (release_after_acquire (L_Bsem d) e s).
Qed.

(** What changes the semaphore table: its own calls, with any argument, any interference and
    any outcome that returns; every other activity of the kernel leaves it alone. *)
Inductive bsem_step (s s' : kstate) : Prop :=
| step_alloc e r e' : bsem_alloc e s = Ok r e' s' -> bsem_step s s'
| step_free d e e' : bsem_free d e s = Ok tt e' s' -> bsem_step s s'
| step_up d e e' : bsem_up d e s = Ok tt e' s' -> bsem_step s s'
| step_down d e e' : bsem_down d e s = Ok tt e' s' -> bsem_step s s'
| step_other : bsems s' = bsems s -> bsem_step s s'.

Lemma get_bsem_range d e s b e' s' :
  bsems_idle s -> get_bsem d e s = Ok b e' s' -> 0 <= d < Z.of_nat MAX_BSEM /\ e' = e /\ s' = s.
Proof.
  intros [_ Hl]. unfold get_bsem. destruct (Z.ltb_spec d 0); [done|].
  destruct (bsems s !! Z.to_nat d) eqn:E; [|done]. intros [= <- <- <-].
  apply lookup_lt_Some in E. split; [lia|done].
Qed.

(** A call that returns found its descriptor in range and its lock free. *)
Lemma bsem_call_inv {B} d (k : binarySemaphore -> K B) e s b e' s' :
  bsems_idle s -> (x <- get_bsem d ;; acquire (L_Bsem d) ;;; k x) e s = Ok b e' s' ->
  0 <= d < Z.of_nat MAX_BSEM /\ (L_bsem (Z.to_nat d) ∉ held s).
Proof.
  intros Hi H. apply bindK_inv in H as (x & e1 & s1 & Hg & H).
  apply get_bsem_range in Hg as (Hd & -> & ->); [|done].
  apply bindK_inv in H as ([] & e2 & s2 & Ha & _). by apply acquire_inv in Ha as [? _].
Qed.

Lemma bsem_step_idle s s' : bsems_idle s -> bsem_step s s' -> bsems_idle s'.
Proof.
  intros Hi [e r e' H|d e e' H|d e e' H|d e e' H|H].
  - assert (L_bsem 0 ∉ held s) as Hh.
    { apply bindK_inv in H as ([] & e2 & s2 & Ha & _). by apply acquire_inv in Ha as [? _]. }
    rewrite bsem_alloc_idle in H by done. by injection H as <- <- <-.
  - destruct (bsem_call_inv _ _ _ _ _ _ _ Hi H). rewrite bsem_free_idle in H by done.
    by injection H as <- <-.
  - destruct (bsem_call_inv _ _ _ _ _ _ _ Hi H). rewrite bsem_up_idle in H by done.
    by injection H as <- <-.
  - assert (0 <= d < Z.of_nat MAX_BSEM /\ (L_bsem (Z.to_nat d) ∉ held s)) as [Hd Hh].
    { apply bindK_inv in H as (x & e1 & s1 & Hg & H).
      apply get_bsem_range in Hg as (Hd & -> & ->); [|done]. split; [done|].
      unfold blockK in H. cbn [whileK] in H. apply bindK_inv in H as (y & e2 & s2 & Hb & _).
      apply bindK_inv in Hb as ([] & e3 & s3 & Ha & _). by apply acquire_inv in Ha as [? _]. }
    rewrite bsem_down_idle in H by done. by injection H as <- <-.
  - unfold bsems_idle. by rewrite H.
Qed.

Lemma initsems_idle e s e' s' :
  length (bsems s) = MAX_BSEM -> initsems e s = Ok tt e' s' -> bsems_idle s'.
Proof.
  intros Hl.
  assert (forall l s, forK l (fun i => initlock (L_bsem i) ;;; acquire (L_bsem i) ;;;
      set_bsem (Z.of_nat i) (fun b => b <| bs_descriptor := -1 |> <| bs_value := 1 |>) ;;;
      release (L_bsem i)) e s = Ok tt e' s' ->
    bsems s' = foldl (fun l i => alter (fun b => b <| bs_descriptor := -1 |> <| bs_value := 1 |>) i l)
      (bsems s) l) as H.
  { induction l as [|i l IH]; intros s0 H; cbn [forK foldl] in *; [by injection H as _ <-|].
    apply bindK_inv in H as ([] & e1 & s1 & Hb & H). apply bindK_inv in Hb as ([] & ? & ? & Hi & Hb).
    injection Hi as <- <-. apply bindK_inv in Hb as ([] & ? & ? & Ha & Hb).
    apply acquire_inv in Ha as (_ & -> & ->). apply bindK_inv in Hb as ([] & ? & ? & Hs & Hb).
    injection Hs as <- <-. rewrite release_held in Hb by (cbn; constructor).
    injection Hb as <- <-. rewrite (IH _ H). cbn. by rewrite Nat2Z.id. }
  intros Hr. apply H in Hr. rewrite alter_seq_fmap in Hr by done. unfold bsems_idle. rewrite Hr.
  split; [|by rewrite length_fmap]. apply Forall_fmap, Forall_true. intros b. by split.
Qed.

Lemma get_bsem_outside d e s : bsems_idle s -> ~ 0 <= d < Z.of_nat MAX_BSEM -> get_bsem d e s = UB "Bsems index".
Proof.
  intros [_ Hl] Hd. unfold get_bsem. destruct (Z.ltb_spec d 0); [done|]. by rewrite lookup_ge_None_2 by lia.
Qed.

(** C38: Binary semaphores cannot be allocated.  Once [initsems] has run, in every state the
    kernel can reach through semaphore calls and anything else, [bsem_alloc] returns -1, and
    [bsem_down], [bsem_up] and [bsem_free] of the descriptors 0 to [MAX_BSEM] - 1 return
    without doing anything: [bsem_alloc] looks for a value of -1 that [initsems] never stores,
    and only at the first semaphore.  Other descriptors, such as the -1 that [bsem_alloc]
    returned, are not checked: the calls then access memory outside of the table. *)
Theorem bsem_alloc_always_fails s0 e0 e1 s1 s :
  length (bsems s0) = MAX_BSEM -> initsems e0 s0 = Ok tt e1 s1 -> rtc bsem_step s1 s ->
  (forall d, L_Bsem d ∉ held s) ->
  forall e, bsem_alloc e s = Ok (-1) e s /\
    forall d, (0 <= d < Z.of_nat MAX_BSEM /\
        bsem_down d e s = Ok tt e s /\ bsem_up d e s = Ok tt e s /\ bsem_free d e s = Ok tt e s) \/
      (~ 0 <= d < Z.of_nat MAX_BSEM /\ bsem_down d e s = UB "Bsems index" /\
        bsem_up d e s = UB "Bsems index" /\ bsem_free d e s = UB "Bsems index").
Proof.
  intros Hl Hi Hr Hh e. assert (bsems_idle s) as Hidle.
  { apply initsems_idle in Hi; [|done]. clear -Hi Hr. induction Hr; [done|].
    apply IHHr. by eapply bsem_step_idle. }
  split; [apply bsem_alloc_idle; [done|apply (Hh 0)]|]. intros d. specialize (Hh d).
  destruct (decide (0 <= d < Z.of_nat MAX_BSEM)) as [Hd|Hd]; [left|right; split; [done|]].
  - by rewrite bsem_down_idle, bsem_up_idle, bsem_free_idle.
  - pose proof (get_bsem_outside d e s Hidle Hd) as Hub.
    unfold bsem_down, bsem_up, bsem_free, bindK. by rewrite Hub.
Qed.

Definition demo_sems : kstate := final_state demo_boot (initsems [] demo_boot).

Lemma bsem_alloc_always_fails_witness : bsem_alloc [] demo_sems = Ok (-1) [] demo_sems /\
    forall d, (0 <= d < Z.of_nat MAX_BSEM /\
        bsem_down d [] demo_sems = Ok tt [] demo_sems /\ bsem_up d [] demo_sems = Ok tt [] demo_sems /\
        bsem_free d [] demo_sems = Ok tt [] demo_sems) \/
      (~ 0 <= d < Z.of_nat MAX_BSEM /\ bsem_down d [] demo_sems = UB "Bsems index" /\
        bsem_up d [] demo_sems = UB "Bsems index" /\ bsem_free d [] demo_sems = UB "Bsems index").
Proof.
  refine (bsem_alloc_always_fails demo_boot [] [] demo_sems demo_sems _ _ _ _ []).
  - reflexivity.
  - vm_compute. reflexivity.
  - apply rtc_refl.
  - intros d. apply not_elem_of_nil.
Defined.

Lemma get_bsem_run d b e s :
  0 <= d -> bsems s !! Z.to_nat d = Some b -> get_bsem d e s = Ok b e s.
Proof. intros Hd Hb. unfold get_bsem. destruct (Z.ltb_spec d 0); [lia|]. by rewrite Hb. Qed.

Lemma running_ext s s' i j p t :
  c_proc s' = c_proc s -> c_thread s' = c_thread s -> procs s' = procs s ->
  running s i j p t -> running s' i j p t.
Proof. intros H1 H2 H3 [Ha Hb Hc Hd]. split; congruence. Qed.

(** A thread that has to wait in [bsem_down] brings the kernel down when it is woken: the
    loop takes the semaphore's lock again, which [sleep] has already reacquired. *)
Theorem bsem_down_wait_panics d b l i j p t f e s :
  running s i j p t -> held s = [] -> 0 <= d -> bsems s !! Z.to_nat d = Some b ->
  bs_descriptor b <> -1 -> bs_value b <> 1 -> place_first (i, j) (bs_threads b) = Some l ->
  bsem_down d (f :: e) s = Panic "acquire".
Proof.
  intros Hr Hh Hd Hb Hn Hv Hp. unfold bsem_down. kstep (get_bsem_run d b (f :: e) s Hd Hb).
  unfold blockK. cbn [whileK length]. unfold bsem_down_body at 1.
  set (s1 := s <| held ::= cons (L_Bsem d) |>).
  assert (L_Bsem d ∉ held s) as Hni by (rewrite Hh; apply not_elem_of_nil).
  assert (bsem_down_body d tt (f :: e) s = Ok (inl tt) e (resume i (i, j) [L_Bsem d]
    (f (sleeping (CH_bsem (Z.to_nat d)) i j (s1 <| bsems ::= alter (fun b => b <| bs_threads := l |>) (Z.to_nat d) |>)))
      <| procs ::= alter (alter_thread j (fun x => x <| t_chan := CH_null |>)) i |>)) as Hbody.
  { unfold bsem_down_body. kstep (acquire_free (L_Bsem d) (f :: e) s Hni). fold s1.
    kstep (get_bsem_run d b (f :: e) s1 Hd Hb). apply Z.eqb_neq in Hn, Hv. rewrite Hn, Hv.
    assert (place_thread_in_line d (f :: e) s1 =
      Ok tt (f :: e) (s1 <| bsems ::= alter (fun b => b <| bs_threads := l |>) (Z.to_nat d) |>)) as Hpl.
    { unfold place_thread_in_line. kstep (curthread_run _ (f :: e) s1 (run_thread _ _ _ _ _ Hr)).
      kstep (get_bsem_run d b (f :: e) s1 Hd Hb). by rewrite Hp. }
    kstep Hpl. unfold bindK. rewrite (sleep_run _ _ i j p t); [done| |cbn; by rewrite Hh|done].
    by eapply running_ext; [..|exact Hr]. }
  fold (bsem_down_body d). kstep Hbody. unfold bindK, bsem_down_body. unfold bindK.
  rewrite acquire_held; [done|]. cbn. set_solver.
Qed.

(** A taken semaphore 0 with nobody in line. *)
Definition demo_taken : kstate :=
  demo_running <| held := [] |> <| bsems ::= <[0%nat := bsem0 <| bs_descriptor := 0 |>]> |>.

Lemma bsem_down_wait_panics_witness : bsem_down 0 [fun s => s] demo_taken = Panic "acquire".
Proof.
  eapply (bsem_down_wait_panics 0 (bsem0 <| bs_descriptor := 0 |>) _ 0 0 proc0 thread0 (fun s => s) []).
  - split; reflexivity.
  - reflexivity.
  - lia.
  - reflexivity.
  - discriminate.
  - discriminate.
  - reflexivity.
Defined.

(** ** Threads *)

Lemma join_target_none tid ts j :
  Forall (fun x => t_tid x <> tid) ts -> join_target tid ts j = Nat.pred (j + length ts).
Proof.
  revert j. induction ts as [|x ts IH]; intros j H; cbn [join_target length]; [by rewrite Nat.add_0_r|].
  apply Forall_cons in H as [Hx H]. destruct (Z.eqb_spec (t_tid x) tid); [done|].
  rewrite IH by done. f_equal. lia.
Qed.

Lemma free_thread_run t e s :
  free_thread t e s = Ok tt e (s <| procs ::= alter (alter_thread (snd t) freed_thread) (fst t) |>).
Proof. reflexivity. Qed.

(** [kthread_join] of slot [k], which need not wait: it frees the slot. *)
Lemma join_run i j p t tid k y e s :
  running s i j p t -> held s = [] -> t_tid t <> tid -> 1 <= tid <= nexttid s ->
  join_target tid (p_threads p) 0 = k -> p_threads p !! k = Some y -> t_tid y <> tid \/ t_state y = TZOMBIE ->
  kthread_join_proc tid 0 e s = Ok 0 e (s <| procs ::= alter (alter_thread k freed_thread) i |>).
Proof.
  intros Hr Hh Hne Htid Hk Hy Hnw. unfold kthread_join_proc.
  kstep (curproc_run _ e s (run_proc _ _ _ _ _ Hr)). kstep (curthread_run _ e s (run_thread _ _ _ _ _ Hr)).
  kstep (get_thread_run i j e s t (running_thread_of _ _ _ _ _ Hr)).
  kstep (getsK_run (fun s => nexttid s) e s).
  destruct (Z.eqb_spec tid (t_tid t)); [congruence|].
  destruct (Z.ltb_spec (nexttid s) tid); [lia|]. destruct (Z.ltb_spec tid 1); [lia|]. cbn [orb].
  set (s1 := s <| held ::= cons L_wait |>). set (s2 := s1 <| held ::= cons (L_proc i) |>).
  assert (L_wait ∉ held s) as Hw by (rewrite Hh; apply not_elem_of_nil).
  assert (L_proc i ∉ held s1) as Hp by (cbn; rewrite Hh; set_solver).
  kstep (acquire_free L_wait e s Hw). fold s1. kstep (acquire_free (L_proc i) e s1 Hp). fold s2.
  assert (procs s2 !! i = Some p) as Hpi by apply Hr.
  kstep (get_proc_run i p e s2 Hpi). rewrite Hk.
  assert (thread_of s2 i k = Some y) as Htk by (unfold thread_of; by rewrite Hpi).
  assert (blockK (join_wait i (i, k) tid) tt e s2 = Ok tt e s2) as Hb.
  { unfold blockK. cbn [whileK]. unfold bindK, join_wait, bindK. rewrite (get_thread_run i k e s2 y Htk).
    assert ((t_tid y =? tid) && negb (bool_decide (t_state y = TZOMBIE)) = false) as ->; [|done].
    destruct Hnw as [Hn%Z.eqb_neq|Hz]; [by rewrite Hn|]. by rewrite bool_decide_eq_true_2, andb_false_r. }
  kstep Hb. kstep (get_thread_run i k e s2 y Htk). kstep (get_proc_run i p e s2 Hpi). cbn [Z.eqb].
  rewrite bindK_ret. cbn [Z.ltb]. change (0 <? 0) with false. cbn iota.
  kstep (free_thread_run (i, k) e s2). cbn [fst snd].
  set (s3 := s2 <| procs ::= alter (alter_thread k freed_thread) i |>).
  assert (release L_wait e s3 = Ok tt e (s3 <| held := [L_proc i] |>)) as Hrw.
  { apply (release_at _ _ _ (L_proc i :: L_wait :: held s)); [done|set_solver|].
    by rewrite Hh, unhold_cons_ne, unhold_cons. }
  kstep Hrw. unfold bindK. rewrite (release_top _ _ _ []) by done. unfold retK. f_equal.
  unfold s3, s2, s1. clear -Hh. destruct s. cbn in Hh. subst. reflexivity.
Qed.

Lemma freed_others s i k i' j' :
  (i', j') <> (i, k) -> thread_of (s <| procs ::= alter (alter_thread k freed_thread) i |>) i' j' = thread_of s i' j'.
Proof.
  intros Hij. unfold thread_of. cbn. destruct (decide (i = i')) as [->|].
  - rewrite list_lookup_alter_eq. destruct (procs s !! i'); [|done]. cbn.
    rewrite list_lookup_alter_ne; [done|]. congruence.
  - by rewrite list_lookup_alter_ne.
Qed.

(** C35: Joining a thread id that no thread of the process has.  If the id has been handed out,
    that is if it lies between 1 and [nexttid], the call (with a null status pointer) returns
    0 and releases the last slot of the thread table, whatever runs there, and no other.
    Only an id outside of this range is refused, with -1 and nothing changed. *)
Theorem kthread_join_unknown_frees_last i j p t last tid e s :
  running s i j p t -> held s = [] -> length (p_threads p) = NTHREAD ->
  p_threads p !! 7%nat = Some last ->
  Forall (fun x => t_tid x <> tid) (p_threads p) ->
  (1 <= tid <= nexttid s ->
   exists s', kthread_join_proc tid 0 e s = Ok 0 e s' /\ held s' = [] /\
    thread_of s' i 7 = Some (freed_thread last) /\
    forall i' j', (i', j') <> (i, 7)%nat -> thread_of s' i' j' = thread_of s i' j') /\
  (~ 1 <= tid <= nexttid s -> forall status, kthread_join_proc tid status e s = Ok (-1) e s).
Proof.
  intros Hr Hh Hlen Hlast Hall. pose proof (Forall_lookup_1 _ _ _ _ Hall (run_t _ _ _ _ _ Hr)) as Hne. split; intros Htid.
  - eexists. split; [apply (join_run i j p t tid 7 last); try done|].
    + by rewrite join_target_none, Hlen.
    + left. by eapply Forall_lookup_1 in Hall.
    + split; [done|]. split; [|intros; by apply freed_others].
      rewrite thread_of_alter. unfold thread_of. rewrite (run_p _ _ _ _ _ Hr). cbn. by rewrite Hlast.
  - intros status. unfold kthread_join_proc.
    kstep (curproc_run _ e s (run_proc _ _ _ _ _ Hr)). kstep (curthread_run _ e s (run_thread _ _ _ _ _ Hr)).
    kstep (get_thread_run i j e s t (running_thread_of _ _ _ _ _ Hr)). kstep (getsK_run (fun s => nexttid s) e s).
    assert ((tid =? t_tid t) || (nexttid s <? tid) || (tid <? 1) = true) as ->; [lia|done].
Qed.

(** Process 0 with threads 1 (the caller) and 2, which runs in the last slot. *)
Definition demo_two_threads : kstate :=
  demo_running <| held := [] |> <| nexttid := 10 |>
    <| procs ::= alter (fun p => p <| p_state := USED |>
         <| p_threads ::= alter (fun t => t <| t_tid := 1 |> <| t_state := t_RUNNING |> <| t_tparent := Some 0%nat |>) 0%nat |>
         <| p_threads ::= alter (fun t => t <| t_tid := 2 |> <| t_state := t_RUNNABLE |>) 7%nat |>) 0%nat |>.

Definition demo_p0 : proc := default proc0 (procs demo_two_threads !! 0%nat).
Definition demo_t0 : thread := default thread0 (p_threads demo_p0 !! 0%nat).
Definition demo_t7 : thread := default thread0 (p_threads demo_p0 !! 7%nat).

Lemma demo_two_threads_running : running demo_two_threads 0 0 demo_p0 demo_t0.
Proof. split; reflexivity. Qed.

Lemma kthread_join_unknown_frees_last_witness :
  kthread_join_proc 11 0 [] demo_two_threads = Ok (-1) [] demo_two_threads /\
  exists s', kthread_join_proc 5 0 [] demo_two_threads = Ok 0 [] s' /\ held s' = [] /\
    thread_of s' 0 7 = Some (freed_thread demo_t7) /\
    forall i' j', (i', j') <> (0, 7)%nat -> thread_of s' i' j' = thread_of demo_two_threads i' j'.
Proof.
  split.
  - apply (kthread_join_unknown_frees_last 0 0 demo_p0 demo_t0 demo_t7 11 [] demo_two_threads demo_two_threads_running);
      [reflexivity..| |vm_compute; intros [_ H]; by apply H]. repeat constructor; discriminate.
  - apply (kthread_join_unknown_frees_last 0 0 demo_p0 demo_t0 demo_t7 5 [] demo_two_threads demo_two_threads_running);
      [reflexivity..| |vm_compute; split; discriminate]. repeat constructor; discriminate.
Defined.

(** A thread that will never run again. *)
Definition dead (x : thread) : Prop := t_state x = t_UNUSED \/ t_state x = TZOMBIE.

Lemma wake_dead chan x : dead x -> wake_thread chan x = x.
Proof. intros [H|H]; unfold wake_thread; rewrite H; by rewrite decide_False by (by intros [? _]). Qed.

Lemma wake_xstate chan x : t_xstate (wake_thread chan x) = t_xstate x.
Proof. unfold wake_thread. by case_decide. Qed.

Lemma procs_lookup_wake s chan i p :
  procs s !! i = Some p ->
  procs (s <| procs ::= fmap (map_threads (wake_thread chan)) |>) !! i = Some (map_threads (wake_thread chan) p).
Proof. intros H. cbn. by rewrite list_lookup_fmap, H. Qed.

(** C34: The last thread of a process does not end it: [kthread_exit] counts unused slots as
    threads, so a process whose only thread calls it is left in use with no thread that
    could ever run; neither the process nor any of its threads has the exit status stored. *)
Theorem kthread_exit_last_keeps_process status i j p t u x s :
  running s i j p t -> t_tparent t = Some i -> held s = [] -> table_ok s -> p_state p = USED ->
  p_threads p !! u = Some x -> t_state x = t_UNUSED -> t_tid x <> t_tid t ->
  (forall k y, p_threads p !! k = Some y -> k <> j -> dead y) ->
  exists s' p', kthread_exit_proc (A := Z) status [] s = Switched s' /\ procs s' !! i = Some p' /\
    p_state p' = USED /\ Forall dead (p_threads p') /\
    p_xstate p' = p_xstate p /\ t_xstate <$> p_threads p' = t_xstate <$> p_threads p.
Proof.
  intros Hr Htp Hh Hok Hused Hu Hxs Hxt Hdead. unfold kthread_exit_proc.
  kstep (curthread_run _ [] s (run_thread _ _ _ _ _ Hr)).
  kstep (get_thread_run i j [] s t (running_thread_of _ _ _ _ _ Hr)). rewrite Htp.
  assert (L_proc i ∉ held s) as Hpi by (rewrite Hh; apply not_elem_of_nil).
  kstep (acquire_free (L_proc i) [] s Hpi).
  assert (get_proc i [] (s <| held ::= cons (L_proc i) |>) = Ok p [] (s <| held ::= cons (L_proc i) |>))
    as Hgp by (apply get_proc_run, Hr).
  kstep Hgp.
  kstep (release_after_acquire (L_proc i) [] s).
  assert (existsb (counted_thread (t_tid t)) (p_threads p) = true) as Hex.
  { apply existsb_exists. exists x. split; [by apply list_elem_of_In, list_elem_of_lookup_2 with u|].
    unfold counted_thread. apply Z.eqb_neq in Hxt. by rewrite Hxt, Hxs. }
  rewrite Hex. set (s1 := s <| held ::= cons L_wait |>).
  assert (L_wait ∉ held s) as Hw by (rewrite Hh; apply not_elem_of_nil).
  kstep (acquire_free L_wait [] s Hw). fold s1. cbn [fst snd].
  assert (forall q, L_proc q ∉ held s1) as Hq by (intros q; cbn; rewrite Hh; set_solver).
  kstep (wakeup_run (CH_thread i j) [] s1 Hok Hq).
  set (s2 := s1 <| procs ::= fmap (map_threads (wake_thread (CH_thread i j))) |>).
  kstep (acquire_free (L_proc i) [] s2 (Hq i)). set (s3 := s2 <| held ::= cons (L_proc i) |>).
  kstep (set_thread_run (i, j) (fun y => y <| t_state := TZOMBIE |>) [] s3). cbn [fst snd].
  set (s4 := s3 <| procs ::= _ |>).
  assert (release L_wait [] s4 = Ok tt [] (s4 <| held := [L_proc i] |>)) as Hrw.
  { apply (release_at _ _ _ (L_proc i :: L_wait :: held s)); [done|set_solver|].
    by rewrite Hh, unhold_cons_ne, unhold_cons. }
  kstep Hrw. set (p' := alter_thread j (fun y => y <| t_state := TZOMBIE |>) (map_threads (wake_thread (CH_thread i j)) p)).
  assert (procs (s4 <| held := [L_proc i] |>) !! i = Some p') as Hp'.
  { change (procs (s4 <| held := [L_proc i] |>)) with (procs s4). unfold s4. cbn [procs upd].
    rewrite list_lookup_alter_eq. cbn. by rewrite list_lookup_fmap, (run_p _ _ _ _ _ Hr). }
  exists (s4 <| held := [L_proc i] |>), p'. split; [|split; [exact Hp'|split; [exact Hused|split; [|split; [done|]]]]].
  - unfold bindK. erewrite (sched_run i j); [done|apply Hr|apply Hr| | |cbn; set_solver|cbn; lia].
    + unfold thread_of. rewrite Hp'. cbn. rewrite list_lookup_alter_eq, list_lookup_fmap, (run_t _ _ _ _ _ Hr). done.
    + done.
  - apply Forall_lookup. intros k y Hy. cbn in Hy. destruct (decide (j = k)) as [<-|Hne].
    + rewrite list_lookup_alter_eq, list_lookup_fmap, (run_t _ _ _ _ _ Hr) in Hy. injection Hy as <-. by right.
    + rewrite list_lookup_alter_ne, list_lookup_fmap in Hy by done.
      destruct (p_threads p !! k) as [z|] eqn:Ez; [|done]. injection Hy as <-.
      rewrite wake_dead; eauto.
  - apply list_eq. intros k. cbn. rewrite !list_lookup_fmap. destruct (decide (j = k)) as [<-|Hne].
    + rewrite list_lookup_alter_eq, list_lookup_fmap. destruct (p_threads p !! j); [|done]. cbn. by rewrite wake_xstate.
    + rewrite list_lookup_alter_ne, list_lookup_fmap by done. destruct (p_threads p !! k); [|done]. cbn. by rewrite wake_xstate.
Qed.

(** Process 0 with the caller as its only thread. *)
Definition demo_one_thread : kstate :=
  demo_two_threads <| procs ::= alter (alter_thread 7 (fun _ => thread0)) 0%nat |>.
Definition demo_p1 : proc := default proc0 (procs demo_one_thread !! 0%nat).

Lemma demo_one_thread_dead k y : p_threads demo_p1 !! k = Some y -> k <> 0%nat -> dead y.
Proof.
  intros Hy Hk. left. destruct k as [|k]; [done|].
  change (p_threads demo_p1 !! S k) with (replicate 7 thread0 !! k) in Hy.
  by apply lookup_replicate in Hy as [-> _].
Qed.

Lemma kthread_exit_last_keeps_process_witness :
  exists s' p', kthread_exit_proc (A := Z) 3 [] demo_one_thread = Switched s' /\
    procs s' !! 0%nat = Some p' /\ p_state p' = USED /\ Forall dead (p_threads p') /\
    p_xstate p' = p_xstate demo_p1 /\ t_xstate <$> p_threads p' = t_xstate <$> p_threads demo_p1.
Proof.
  apply (kthread_exit_last_keeps_process 3 0 0 demo_p1 demo_t0 1 thread0 demo_one_thread).
  - split; reflexivity.
  - reflexivity.
  - reflexivity.
  - split; [reflexivity|]. repeat (constructor; [reflexivity|]). constructor.
  - reflexivity.
  - reflexivity.
  - reflexivity.
  - discriminate.
  - exact demo_one_thread_dead.
Defined.

Lemma searchK_skip {X R} (l1 l2 : list X) (body : X -> K (option R)) e s :
  (forall x, x ∈ l1 -> body x e s = Ok None e s) ->
  searchK (l1 ++ l2) body e s = searchK l2 body e s.
Proof.
  induction l1 as [|x l1 IH]; intros H; [done|]. cbn [searchK app]. unfold bindK.
  rewrite H by constructor. apply IH. intros y Hy. apply H. by constructor.
Qed.

Lemma searchK_hit {X R} x (l : list X) (body : X -> K (option R)) e s :
  searchK (x :: l) body e s =
  (r <- body x ;; match r with Some v => retK (Some v) | None => searchK l body end) e s.
Proof. reflexivity. Qed.

Lemma create_freed start_func stack i j p t u x e s :
  running s i j p t -> held s = [] -> (u < NTHREAD)%nat ->
  (forall k y, (k < u)%nat -> p_threads p !! k = Some y -> t_state y <> t_UNUSED) ->
  length (p_threads p) = NTHREAD -> p_threads p !! u = Some (freed_thread x) ->
  kthread_create_proc start_func stack e s = UB "null trapframe".
Proof.
  intros Hr Hh Hu Hbefore Hlen Hx. unfold kthread_create_proc.
  kstep (curproc_run _ e s (run_proc _ _ _ _ _ Hr)).
  assert (L_proc i ∉ held s) as Hni by (rewrite Hh; apply not_elem_of_nil).
  kstep (acquire_free (L_proc i) e s Hni). set (s1 := s <| held ::= cons (L_proc i) |>).
  assert (forall k, thread_of s1 i k = p_threads p !! k) as Hth.
  { intros k. unfold thread_of. cbn. by rewrite (run_p _ _ _ _ _ Hr). }
  assert (threads_of i = map (fun j => (i, j)) (seq 0 u) ++ (i, u) :: map (fun j => (i, j)) (seq (S u) (NTHREAD - S u))) as Hsplit.
  { unfold threads_of. rewrite <- map_cons, <- map_app. f_equal. change (u :: seq (S u) (NTHREAD - S u)) with (seq u (S (NTHREAD - S u))).
    rewrite <- seq_app. f_equal. lia. }
  rewrite Hsplit. unfold bindK at 1. rewrite searchK_skip.
  - rewrite searchK_hit. unfold bindK. rewrite (get_thread_run i u e s1 (freed_thread x)) by (by rewrite Hth).
    rewrite decide_True by done. rewrite set_thread_run.
    set (s2 := s1 <| procs ::= _ |>).
    assert (get_tid e s2 = Ok (nexttid s2) e (s2 <| nexttid := i32 (nexttid s2 + 1) |>)) as Htid.
    { unfold get_tid, bindK. rewrite acquire_free by (cbn; rewrite Hh; set_solver).
      unfold getsK, modifyK. by rewrite (release_top _ _ _ (held s2)). }
    rewrite Htid, set_thread_run. done.
  - intros y Hy. apply list_elem_of_fmap in Hy as (k & -> & Hk). apply elem_of_seq in Hk.
    unfold bindK. destruct (lookup_lt_is_Some_2 (p_threads p) k ltac:(lia)) as [z Hz].
    rewrite (get_thread_run i k e s1 z) by (by rewrite Hth). rewrite decide_False; [done|].
    eapply Hbefore; [|exact Hz]. lia.
Qed.

Lemma join_target_first tid ts j u z :
  ts !! u = Some z -> t_tid z = tid -> (forall k y, (k < u)%nat -> ts !! k = Some y -> t_tid y <> tid) ->
  join_target tid ts j = (j + u)%nat.
Proof.
  revert j u. induction ts as [|x ts IH]; intros j u Hz Hid Hb; [done|]. cbn [join_target]. destruct u as [|u].
  - injection Hz as ->. rewrite Hid, Z.eqb_refl. lia.
  - pose proof (Hb O x ltac:(lia) eq_refl) as Hx. apply Z.eqb_neq in Hx. rewrite Hx, (IH (S j) u Hz Hid); [lia|].
    intros k y Hk. apply (Hb (S k)). lia.
Qed.

(** C36: A thread slot that was joined cannot be used again.  When [kthread_join] collects the
    zombie in slot [u], it leaves the slot with a null trapframe; if that slot is then the
    first unused one, the next [kthread_create] takes it and stores through the null
    pointer. *)
Theorem kthread_create_reused_slot_ub start_func stack i j p t u z tid e s :
  running s i j p t -> held s = [] -> length (p_threads p) = NTHREAD ->
  p_threads p !! u = Some z -> t_state z = TZOMBIE -> t_tid z = tid -> tid <> t_tid t -> 1 <= tid <= nexttid s ->
  (forall k y, (k < u)%nat -> p_threads p !! k = Some y -> t_state y <> t_UNUSED /\ t_tid y <> tid) ->
  exists s', kthread_join_proc tid 0 e s = Ok 0 e s' /\
    kthread_create_proc start_func stack e s' = UB "null trapframe".
Proof.
  intros Hr Hh Hlen Hz Hst <- Hne Htid Hb. eexists. split.
  - apply (join_run i j p t (t_tid z) u z); auto. apply (join_target_first _ _ 0 u z); [done..|]. naive_solver.
  - assert (u <> j) as Huj by (intros ->; rewrite (run_t _ _ _ _ _ Hr) in Hz; congruence).
    apply (create_freed start_func stack i j (alter_thread u freed_thread p) t u z); cbn.
    + destruct Hr as [H1 H2 H3 H4]. split; [done|done| |]; cbn; [by rewrite list_lookup_alter_eq, H3|].
      by rewrite list_lookup_alter_ne.
    + done.
    + rewrite <- Hlen. by eapply lookup_lt_Some.
    + intros k y Hk. rewrite list_lookup_alter_ne by lia. intros Hy. by apply (Hb k y).
    + by rewrite length_alter.
    + by rewrite list_lookup_alter_eq, Hz.
Qed.

(** Process 0 with the caller and a zombie in slot 1. *)
Definition demo_zombie : kstate :=
  demo_one_thread <| procs ::= alter (alter_thread 1 (fun x => x <| t_tid := 3 |> <| t_state := TZOMBIE |>)) 0%nat |>.
Definition demo_p2 : proc := default proc0 (procs demo_zombie !! 0%nat).

Lemma kthread_create_reused_slot_ub_witness :
  exists s', kthread_join_proc 3 0 [] demo_zombie = Ok 0 [] s' /\
    kthread_create_proc 4096 8192 [] s' = UB "null trapframe".
Proof.
  apply (kthread_create_reused_slot_ub 4096 8192 0 0 demo_p2 demo_t0 1
    (thread0 <| t_tid := 3 |> <| t_state := TZOMBIE |>) 3 [] demo_zombie).
  - split; reflexivity.
  - reflexivity.
  - reflexivity.
  - reflexivity.
  - reflexivity.
  - reflexivity.
  - discriminate.
  - vm_compute. split; discriminate.
  - intros [|k] y Hk Hy; [injection Hy as <-; split; discriminate|lia].
Defined.

(** C37: A thread that another one has killed brings the kernel down when it calls [exit] (or
    [exec]): [killthreads] switches away without the lock of its process. *)
Theorem killed_thread_exit_panics status i j p t e s :
  running s i j p t -> held s = [] -> table_ok s -> t_killed t <> 0 -> initproc s <> Some i ->
  exit (A := Z) status e s = Panic "sched p->lock".
Proof.
  intros Hr Hh Hok Hk Hi. unfold exit. kstep (curproc_run _ e s (run_proc _ _ _ _ _ Hr)).
  kstep (curthread_run _ e s (run_thread _ _ _ _ _ Hr)). kstep (getsK_run (fun s => initproc s) e s).
  rewrite decide_False by congruence.
  enough (killthreads e s = Panic "sched p->lock") as H by (unfold bindK; by rewrite H).
  unfold killthreads. kstep (curproc_run _ e s (run_proc _ _ _ _ _ Hr)).
  kstep (curthread_run _ e s (run_thread _ _ _ _ _ Hr)).
  kstep (get_thread_run i j e s t (running_thread_of _ _ _ _ _ Hr)).
  apply Z.eqb_neq in Hk. rewrite Hk. cbn [negb fst snd]. unfold bindK at 1 2.
  rewrite wakeup_run by (done || (intros; rewrite Hh; apply not_elem_of_nil)). unfold bindK.
  rewrite acquire_free by (cbn; rewrite Hh; apply not_elem_of_nil). rewrite set_thread_run.
  set (s' := upd procs _ _). unfold sched, bindK.
  rewrite (curthread_run (i, j)) by apply Hr. rewrite (curproc_run i) by apply Hr.
  rewrite holding_run. assert (is_held (L_proc i) (held s') = false) as ->; [|done].
  apply is_held_false. cbn. rewrite Hh. set_solver.
Qed.

Definition demo_killed : kstate :=
  demo_one_thread <| procs ::= alter (alter_thread 0 (fun t => t <| t_killed := 1 |>)) 0%nat |>.

Lemma killed_thread_exit_panics_witness : exit (A := Z) 0 [] demo_killed = Panic "sched p->lock".
Proof.
  apply (killed_thread_exit_panics 0 0 0 (default proc0 (procs demo_killed !! 0%nat))
    (demo_t0 <| t_killed := 1 |>) [] demo_killed).
  - split; reflexivity.
  - reflexivity.
  - split; [reflexivity|]. repeat (constructor; [reflexivity|]). constructor.
  - discriminate.
  - discriminate.
Defined.
