(* ===== verification/ProcFacts.v ===== *)
(** * Process slots: what [allocproc], [fork] and [wait] do to the process table *)

From stdpp Require Import base numbers list gmap strings.
From S2P Require Import Prelude Mem Types Kernel Wp Kalloc Vm Frame VmFacts Copy Sched SchedFacts.
From S2P Require Import Bio Log Fs Console File Proc Kthread KthreadFacts.

(** ** Parts of the table *)

(** The other slots than [p], and a field of slot [p]. *)
Definition others (p : nat) (s : kstate) : list proc := delete p (procs s).
Definition field {T} (g : proc -> T) (p : nat) (s : kstate) : option T := g <$> procs s !! p.

Lemma delete_alter {X} (h : X -> X) i (l : list X) : delete i (alter h i l) = delete i l.
Proof. revert i. induction l as [|x l IH]; intros [|i]; cbn; [done..|]. f_equal. apply IH. Qed.

Lemma keeps_others_set p h : keeps (others p) (set_proc p h).
Proof. apply keeps_modify. intros s. apply delete_alter. Qed.
Lemma keeps_others_set_thread p j h : keeps (others p) (set_thread (p, j) h).
Proof. apply keeps_others_set. Qed.

Lemma keeps_field_set {T} (g : proc -> T) p h :
  (forall x, g (h x) = g x) -> keeps (field g p) (set_proc p h).
Proof.
  intros H. apply keeps_modify. intros s. unfold field. cbn. rewrite list_lookup_alter_eq.
  destruct (procs s !! p); [|done]. cbn. by rewrite H.
Qed.

Lemma keeps_get_proc {T} (part : kstate -> T) i : keeps part (get_proc i).
Proof.
  intros e s a e' s' H. unfold get_proc in H. destruct (procs s !! i); [|done]. by injection H as _ _ <-.
Qed.
Lemma keeps_get_thread {T} (part : kstate -> T) t : keeps part (get_thread t).
Proof.
  intros e s a e' s' H. unfold get_thread in H. destruct (procs s !! fst t) as [q|]; [|done].
  destruct (p_threads q !! snd t); [|done]. by injection H as _ _ <-.
Qed.
Lemma keeps_curproc {T} (part : kstate -> T) : keeps part curproc.
Proof. unfold curproc, myproc. keeps. Qed.
Lemma keeps_curthread {T} (part : kstate -> T) : keeps part curthread.
Proof. unfold curthread, mythread. keeps. Qed.
#[export] Hint Resolve keeps_others_set keeps_others_set_thread keeps_get_proc keeps_get_thread
  keeps_curproc keeps_curthread : keeps.
#[export] Hint Extern 1 (keeps (field _ _) (set_proc _ _)) => (apply keeps_field_set; reflexivity) : keeps.
#[export] Hint Extern 1 (keeps (field _ _) (set_thread (_, _) _)) =>
  (apply keeps_field_set; reflexivity) : keeps.

Lemma keeps_tf_load {T} (part : kstate -> T) tf off : keeps part (tf_load tf off).
Proof. unfold tf_load, loadK. keeps. Qed.
Lemma keeps_tf_store {T} (part : kstate -> T) `{!MemBlind part} tf off v : keeps part (tf_store tf off v).
Proof. unfold tf_store. keeps. Qed.
Lemma keeps_tf_copy {T} (part : kstate -> T) `{!MemBlind part} d src : keeps part (tf_copy d src).
Proof. unfold tf_copy. keeps; by apply blind_mem. Qed.
Lemma keeps_allocpid_procs : keeps (fun s => procs s) allocpid.
Proof. unfold allocpid. keeps. Qed.
Lemma keeps_get_tid_procs : keeps (fun s => procs s) get_tid.
Proof. unfold get_tid. keeps. Qed.
Lemma keeps_get_tid_nextpid : keeps (fun s => nextpid s) get_tid.
Proof. unfold get_tid. keeps. Qed.
Lemma keeps_proc_pagetable {T} (part : kstate -> T) `{!MemBlind part} p : keeps part (proc_pagetable p).
Proof. unfold proc_pagetable. keeps. Qed.
Lemma keeps_proc_freepagetable {T} (part : kstate -> T) `{!MemBlind part} pt sz :
  keeps part (proc_freepagetable pt sz).
Proof. unfold proc_freepagetable. keeps. Qed.
#[export] Hint Resolve keeps_tf_load keeps_tf_store keeps_tf_copy keeps_allocpid_procs
  keeps_get_tid_procs keeps_get_tid_nextpid keeps_proc_pagetable keeps_proc_freepagetable : keeps.

(** What only depends on the table is kept by what keeps the table. *)
Lemma keeps_of_procs {A T} (part : kstate -> T) (h : list proc -> T) (c : K A) :
  (forall s, part s = h (procs s)) -> keeps (fun s => procs s) c -> keeps part c.
Proof. intros Hp Hc e s a e' s' H. rewrite !Hp. f_equal. by apply (Hc _ _ _ _ _ H). Qed.

Lemma keeps_others_of_procs {A} p (c : K A) : keeps (fun s => procs s) c -> keeps (others p) c.
Proof. by apply (keeps_of_procs _ (delete p)). Qed.
Lemma keeps_field_of_procs {A T} (g : proc -> T) p (c : K A) :
  keeps (fun s => procs s) c -> keeps (field g p) c.
Proof. by apply (keeps_of_procs _ (fun ps => g <$> ps !! p)). Qed.
#[export] Hint Resolve keeps_others_of_procs keeps_field_of_procs : keeps.

(** ** [allocproc] *)

Lemma searchK_inv {X R} (l : list X) (body : X -> K (option R)) e s r e' s' :
  searchK l body e s = Ok (Some r) e' s' ->
  exists l1 x l2 e1 s1, l = l1 ++ x :: l2 /\ searchK l1 body e s = Ok None e1 s1 /\
    body x e1 s1 = Ok (Some r) e' s'.
Proof.
  revert e s. induction l as [|x l IH]; intros e s H; [done|]. cbn [searchK] in H.
  apply bindK_inv in H as (o & e1 & s1 & H1 & H2). destruct o as [v|].
  - injection H2 as <- <- <-. exists [], x, l, e, s. done.
  - apply IH in H2 as (l1 & y & l2 & e2 & s2 & -> & Hn & Hb). exists (x :: l1), y, l2, e2, s2.
    split; [done|]. split; [|done]. cbn [searchK]. unfold bindK. by rewrite H1.
Qed.

Lemma find_unused_proc_inv e s p e' s' :
  find_unused_proc e s = Ok (Some p) e' s' ->
  procs s' = procs s /\ nextpid s' = nextpid s /\
  exists x, procs s !! p = Some x /\ p_state x = UNUSED.
Proof.
  intros H. pose proof H as H0. apply searchK_inv in H as (l1 & q & l2 & e1 & s1 & _ & H1 & H2).
  kept (fun s => procs s) H1 Hp1. cbn beta in Hp1. kept (fun s => nextpid s) H1 Hn1. cbn beta in Hn1.
  kept (fun s => procs s) H2 Hp2. cbn beta in Hp2. kept (fun s => nextpid s) H2 Hn2. cbn beta in Hn2.
  split; [congruence|]. split; [congruence|].
  kinv H2. apply acquire_inv in H as (_ & -> & ->). kinv H2. unfold get_proc in H. cbn in H.
  destruct (procs s1 !! q) as [x|] eqn:Hx; [|done]. injection H as <- <- <-.
  destruct (decide (p_state x = UNUSED)).
  - injection H2 as <- _ _. exists x. by rewrite <- Hp1.
  - by kinv H2.
Qed.

Lemma alloc_fail_none p e s r e' s' : alloc_fail p e s = Ok (Some r) e' s' -> False.
Proof. intros H. unfold alloc_fail in H. kinv H. kinv H. kinv H. done. Qed.

(** The run [H] did not take the failure exit. *)
Ltac nofail H :=
  match type of H with
  | (if ?b then alloc_fail _ else _) _ _ = _ => destruct b; [by apply alloc_fail_none in H|]
  end.

(** What the rest of [allocproc] does not touch once the slot has its pid. *)
Definition slot_core (p : nat) (s : kstate) : option (Z * procstate) * Z * list proc :=
  (field (fun x => (p_pid x, p_state x)) p s, nextpid s, others p s).

Lemma keeps_slot_core {A} p (c : K A) :
  keeps (field (fun x => (p_pid x, p_state x)) p) c -> keeps (fun s => nextpid s) c ->
  keeps (others p) c -> keeps (slot_core p) c.
Proof.
  intros H1 H2 H3 e s a e' s' H. unfold slot_core.
  by rewrite (H1 _ _ _ _ _ H), (H2 _ _ _ _ _ H), (H3 _ _ _ _ _ H).
Qed.
Lemma keeps_nextpid_set p h : keeps (fun s => nextpid s) (set_proc p h).
Proof. by apply keeps_modify. Qed.
Lemma keeps_nextpid_set_thread p h : keeps (fun s => nextpid s) (set_thread p h).
Proof. by apply keeps_modify. Qed.
#[export] Hint Resolve keeps_nextpid_set keeps_nextpid_set_thread : keeps.
#[export] Hint Extern 2 (keeps (slot_core _) _) => (apply keeps_slot_core) : keeps.

Lemma keeps_init_handlers p :
  keeps (slot_core p) (init_siganls_handlers_to_default p).
Proof. unfold init_siganls_handlers_to_default. keeps. Qed.
#[export] Hint Resolve keeps_init_handlers : keeps.

Lemma allocpid_inv e s pid e' s' :
  allocpid e s = Ok pid e' s' -> pid = nextpid s /\ nextpid s' = i32 (nextpid s + 1).
Proof.
  intros H. unfold allocpid in H. kinv H. apply acquire_inv in H0 as (_ & -> & ->).
  kinv H. injection H0 as <- <- <-. kinv H. injection H0 as <- <- <-.
  kinv H. kept (fun s => nextpid s) H0 Hn. injection H as <- <- <-. done.
Qed.

Lemma allocproc_inv e s p e' s' :
  allocproc e s = Ok (Some p) e' s' ->
  (exists x, procs s !! p = Some x /\ p_state x = UNUSED) /\
  slot_core p s' = (Some (nextpid s, USED), i32 (nextpid s + 1), others p s).
Proof.
  intros H. unfold allocproc in H. kinv H. destruct a as [q|]; [|done].
  apply find_unused_proc_inv in H0 as (Hp & Hn & x & Hx & Hst).
  kinv H. kept (fun s => procs s) H0 Hp1. cbn beta in Hp1. apply allocpid_inv in H0 as [-> Hn1].
  kinv H. injection H0 as <- <- <-. set (s3 := upd procs _ _) in H.
  assert (slot_core q s3 = (Some (nextpid s, USED), i32 (nextpid s + 1), others q s)) as Hcore.
  { unfold slot_core, s3, field, others. cbn. rewrite list_lookup_alter_eq, delete_alter, Hp1, Hp, Hx, Hn1, Hn.
    done. }
  enough (q = p /\ slot_core q s' = slot_core q s3) as [<- ->] by eauto. clearbody s3.
  do 4 kskip (slot_core q) H. kskip (slot_core q) H.
  nofail H.
  kskip (slot_core q) H. kskip (slot_core q) H. kskip (slot_core q) H.
  nofail H.
  do 3 kskip (slot_core q) H. nofail H.
  do 6 kskip (slot_core q) H. by injection H as <- <- <-.
Qed.

Lemma others_lookup p q s s' : others p s' = others p s -> q <> p -> procs s' !! q = procs s !! q.
Proof.
  unfold others. intros H Hq. destruct (decide (q < p)%nat).
  - by rewrite <- (list_lookup_delete_lt (procs s') p q), <- (list_lookup_delete_lt (procs s) p q), H by done.
  - destruct q as [|q]; [lia|].
    by rewrite <- (list_lookup_delete_ge (procs s') p q), <- (list_lookup_delete_ge (procs s) p q), H by lia.
Qed.

(** The processes that exist have distinct pids, all handed out already. *)
Definition pids_ok (s : kstate) : Prop :=
  forall i x, procs s !! i = Some x -> p_state x <> UNUSED ->
    1 <= p_pid x < nextpid s /\
    forall j y, procs s !! j = Some y -> p_state y <> UNUSED -> p_pid y = p_pid x -> j = i.

(** [allocproc] gives the new process a pid that no process has, takes an unused slot, and
    leaves every other slot alone; pids stay distinct as long as the counter has not wrapped
    around. *)
Theorem allocproc_fresh_pid e s p e' s' :
  pids_ok s -> 1 <= nextpid s < 2 ^ 31 - 1 -> allocproc e s = Ok (Some p) e' s' ->
  pids_ok s' /\ field p_pid p s' = Some (nextpid s) /\ field p_state p s = Some UNUSED /\
  forall q, q <> p -> procs s' !! q = procs s !! q.
Proof.
  intros Hok Hn H. apply allocproc_inv in H as ((x & Hx & Hst) & Hcore).
  unfold slot_core in Hcore. injection Hcore as Hf Hn' Ho. rewrite i32_small in Hn' by lia.
  assert (forall q, q <> p -> procs s' !! q = procs s !! q) as Hother by (intros; by eapply others_lookup).
  unfold field in *. destruct (procs s' !! p) as [x'|] eqn:Hx'; [|done]. injection Hf as Hpid Hst'.
  split; [|split; [by apply (f_equal Some)|split; [rewrite Hx; by apply (f_equal Some)|done]]].
  assert (forall i y, i <> p -> procs s' !! i = Some y -> p_state y <> UNUSED -> 1 <= p_pid y < nextpid s) as Hlt.
  { intros i y Hi Hy Hu. rewrite Hother in Hy by done. by apply (Hok i y Hy Hu). }
  intros i y Hy Hu. rewrite Hn'. destruct (decide (i = p)) as [->|Hi].
  - replace y with x' by congruence. rewrite Hpid. split; [lia|]. intros j z Hz Hzu Heq.
    destruct (decide (j = p)); [done|]. specialize (Hlt j z ltac:(done) Hz Hzu). lia.
  - split; [specialize (Hlt i y Hi Hy Hu); lia|]. intros j z Hz Hzu Heq. destruct (decide (j = p)) as [->|Hj].
    + replace z with x' in * by congruence. specialize (Hlt i y Hi Hy Hu). lia.
    + rewrite Hother in Hy, Hz by done. by apply (proj2 (Hok i y Hy Hu) j z).
Qed.

(** ** [fork] *)

Lemma keeps_filedup_procs f : keeps (fun s => procs s) (filedup f).
Proof.
  assert (forall g, keeps (fun s => procs s) (get_file g)) as Hg.
  { intros g e s a e' s' H. unfold get_file in H. destruct (ftable s !! g); [|done]. by injection H as _ _ <-. }
  unfold filedup, set_file. keeps.
Qed.
Lemma keeps_idup_procs ip : keeps (fun s => procs s) (idup ip).
Proof. unfold idup, set_inode. keeps. Qed.
#[export] Hint Resolve keeps_filedup_procs keeps_idup_procs : keeps.

(** The pid and the number of threads of slot [p], and the other slots. *)
Definition pid_core (p : nat) (s : kstate) : option (Z * nat) * list proc :=
  (field (fun x => (p_pid x, length (p_threads x))) p s, others p s).

Lemma keeps_pid_core {A} p (c : K A) :
  keeps (field (fun x => (p_pid x, length (p_threads x))) p) c -> keeps (others p) c ->
  keeps (pid_core p) c.
Proof.
  intros H1 H2 e s a e' s' H. unfold pid_core. by rewrite (H1 _ _ _ _ _ H), (H2 _ _ _ _ _ H).
Qed.
#[export] Hint Extern 2 (keeps (pid_core _) _) => (apply keeps_pid_core) : keeps.

Lemma keeps_set_name p name : keeps (pid_core p) (set_name p name).
Proof. unfold set_name. keeps. Qed.
Lemma keeps_copy_signal_handlers np p : keeps (pid_core np) (copy_signal_handlers np p).
Proof. unfold copy_signal_handlers. keeps. Qed.
#[export] Hint Resolve keeps_set_name keeps_copy_signal_handlers : keeps.

(** A process that [fork] has made: its parent, its pid, and a first thread ready to run. *)
Definition forked (p : nat) (pid : Z) (y : proc) : Prop :=
  p_pid y = pid /\ p_parent y = Some p /\ p_state y = USED /\
  exists t, p_threads y !! 0%nat = Some t /\ t_state t = t_RUNNABLE.

(** The end of [fork]: the child is given its parent and its first thread is made runnable. *)
Definition fork_publish (p np : nat) : K Z :=
  nx <- get_proc np ;;
  release (L_proc np) ;;;
  acquire L_wait ;;;
  set_proc np (fun y => y <| p_parent := Some p |>) ;;;
  release L_wait ;;;
  acquire (L_proc np) ;;;
  set_thread (np, 0%nat) (fun y => y <| t_state := t_RUNNABLE |>) ;;;
  set_proc np (fun y => y <| p_state := USED |>) ;;;
  release (L_proc np) ;;;
  retK (p_pid nx).

(** [ktableskip H N]: steps over an operation that leaves the process table alone. *)
Ltac ktableskip H N :=
  let a := fresh "a" in let e := fresh "e" in let s := fresh "s" in let H1 := fresh "H" in
  apply bindK_inv in H as (a & e & s & H1 & H); cbn beta iota in H;
  kept (fun s => procs s) H1 N; cbn beta in N; clear H1.

Lemma fork_publish_inv p np e s pid e' s' x n :
  fork_publish p np e s = Ok pid e' s' -> procs s !! np = Some x -> length (p_threads x) = S n ->
  pid = p_pid x /\ (exists y, procs s' !! np = Some y /\ forked p pid y) /\ others np s' = others np s.
Proof.
  intros H Hx Hn. unfold fork_publish in H. kinv H. unfold get_proc in H0. rewrite Hx in H0.
  injection H0 as <- <- <-.
  ktableskip H N1. ktableskip H N2. kinv H. injection H0 as <- <- <-. ktableskip H N3. ktableskip H N4.
  kinv H. injection H0 as <- <- <-. kinv H. injection H0 as <- <- <-. ktableskip H N5.
  injection H as <- <- <-. cbn in N3, N4, N5.
  split; [done|]. unfold others. rewrite N5, N4, N3, N2, N1, !delete_alter. split; [|done].
  rewrite !list_lookup_alter_eq, Hx. eexists. split; [reflexivity|].
  destruct (lookup_lt_is_Some_2 (p_threads x) 0) as [t Ht]; [lia|].
  repeat split. exists (t <| t_state := t_RUNNABLE |>). split; [|done].
  cbn. rewrite list_lookup_alter_eq, Ht. done.
Qed.

Lemma fork_inv e s pid e' s' :
  fork e s = Ok pid e' s' -> pid <> -1 ->
  exists p np y, c_proc s = Some p /\ field p_state np s = Some UNUSED /\ pid = nextpid s /\
    procs s' !! np = Some y /\ forked p pid y /\ others np s' = others np s.
Proof.
  intros H Hpid. unfold fork in H. kinv H. unfold curproc, myproc in H0. kinv H0. injection H1 as <- <- <-.
  destruct (c_proc s) as [p|] eqn:Hp; [|done]. injection H0 as <- <- <-.
  kinv H. assert (e0 = e /\ s0 = s) as [-> ->].
  { unfold curthread, mythread in H0. kinv H0. injection H1 as <- <- <-.
    by destruct (c_thread s); [injection H0 as <- <- <-|]. }
  apply bindK_inv in H as ([np|] & e1 & s1 & Halloc & H); [|by injection H as <- _ _].
  apply allocproc_inv in Halloc as ((x & Hx & Hst) & Hcore).
  assert (exists n, pid_core np s1 = (Some (nextpid s, n), others np s)) as [n Hc].
  { unfold slot_core in Hcore. injection Hcore as Hf _ Ho. unfold pid_core. rewrite Ho. unfold field in *.
    destruct (procs s1 !! np) as [z|]; [|done]. injection Hf as Hf _. exists (length (p_threads z)).
    cbn. by rewrite <- Hf. }
  clear Hcore. revert Hc. do 3 kskip (pid_core np) H.
  match goal with H : (if ?b then _ else _) _ _ = _ |- _ => destruct b end.
  { do 2 kinv H. by injection H as <- _ _. }
  do 2 kskip (pid_core np) H. apply bindK_inv in H as (ny & e6 & s6 & Hny & H).
  assert (e6 = e5 /\ s6 = s5 /\ exists z t0, procs s5 !! np = Some z /\ p_threads z !! 0%nat = Some t0)
    as (-> & -> & z & t0 & Hz & Ht0).
  { unfold get_thread in Hny. cbn in Hny. destruct (procs s5 !! np) as [z|]; [|done].
    destruct (p_threads z !! 0%nat) eqn:Ht; [|done]. injection Hny as <- <- <-. by eauto 7. }
  assert (exists m, length (p_threads z) = S m) as [m Hm].
  { destruct (p_threads z); [done|]. by eexists. }
  intros Hc. assert (n = S m) as ->.
  { unfold pid_core, field in Hc. rewrite Hz in Hc. injection Hc as _ Hc _. congruence. }
  revert Hc. do 8 kskip (pid_core np) H. intros Hc. fold (fork_publish p np) in H.
  unfold pid_core, field in Hc. injection Hc as Hc Ho.
  match goal with H : fork_publish _ _ _ ?s = _ |- _ => destruct (procs s !! np) as [x1|] eqn:Hx1 end; [|done].
  injection Hc as Hpid1 Hlen. apply (fork_publish_inv _ _ _ _ _ _ _ _ _ H Hx1) in Hlen as (-> & (y & Hy & Hf) & Ho').
  exists p, np, y. rewrite Ho', Ho, Hpid1. rewrite Hpid1 in Hf.
  split; [done|]. split; [unfold field; rewrite Hx; by apply (f_equal Some)|]. done.
Qed.

(** C22: A successful [fork] returns the child's pid, which no process had; the child has the
    caller as its parent and a first thread ready to run; every other process is untouched. *)
Theorem fork_creates_child e s pid e' s' :
  pids_ok s -> fork e s = Ok pid e' s' -> pid <> -1 ->
  exists p np y, c_proc s = Some p /\ field p_state np s = Some UNUSED /\
    procs s' !! np = Some y /\ forked p pid y /\
    (forall i x, procs s !! i = Some x -> p_state x <> UNUSED -> p_pid x <> pid) /\
    forall q, q <> np -> procs s' !! q = procs s !! q.
Proof.
  intros Hok H Hpid. destruct (fork_inv _ _ _ _ _ H Hpid) as (p & np & y & Hp & Hst & -> & Hy & Hf & Ho).
  exists p, np, y. repeat (split; [done|]). split.
  - intros i x Hx Hu. pose proof (proj1 (Hok i x Hx Hu)). lia.
  - intros q Hq. by eapply others_lookup.
Qed.

(** Process 0, with pid 1, runs on a machine with eight free pages. *)
Definition demo_unbooted : kstate :=
  kstate0 demo8_syms <| nextpid := 2 |> <| c_proc := Some 0%nat |> <| c_thread := Some (0, 0)%nat |>
    <| procs ::= alter (fun x => x <| p_state := USED |> <| p_pid := 1 |> <| p_cwd := Some 0%nat |>
        <| p_threads ::= alter (fun t => t <| t_trapframe := 4096 |>) 0%nat |>) 0%nat |>.
Definition demo_parent : kstate := final_state demo_unbooted (kinit [] demo_unbooted).

Lemma demo_parent_frame : vm_frame demo_unbooted demo_parent.
Proof.
  destruct (kinit_spec [] demo_unbooted) as (s1 & Hr & _ & Hf); [cbn; set_solver|done|done|].
  unfold demo_parent. by rewrite Hr.
Qed.

Lemma demo_parent_pids : pids_ok demo_parent /\ nextpid demo_parent = 2.
Proof.
  destruct demo_parent_frame as (m & fl & ->). split; [|reflexivity].
  assert (forall i x, procs demo_unbooted !! i = Some x -> p_state x <> UNUSED -> i = 0%nat /\ p_pid x = 1) as Hone.
  { intros [|i] x Hx Hu; [by injection Hx as <-|]. destruct Hu.
    change (procs demo_unbooted !! S i) with (replicate 63 proc0 !! i) in Hx.
    by apply lookup_replicate in Hx as [-> _]. }
  intros i x Hx Hu. destruct (Hone i x Hx Hu) as [-> ->]. split; [done|].
  intros j y Hy Hyu _. by destruct (Hone j y Hy Hyu).
Qed.

Lemma demo_parent_alloc : exists p e' s', allocproc [] demo_parent = Ok (Some p) e' s'.
Proof.
  assert (match allocproc [] demo_parent with Ok (Some _) _ _ => true | _ => false end = true) as H
    by (vm_compute; reflexivity).
  destruct (allocproc [] demo_parent) as [[p|] e' s'| | | |]; try done. eauto.
Qed.

Lemma demo_parent_fork : exists e' s', fork [] demo_parent = Ok 2 e' s'.
Proof.
  assert (match fork [] demo_parent with Ok pid _ _ => pid =? 2 | _ => false end = true) as H
    by (vm_compute; reflexivity).
  destruct (fork [] demo_parent) as [pid e' s'| | | |]; try done. apply Z.eqb_eq in H as ->. eauto.
Qed.

Lemma allocproc_fresh_pid_witness : exists p e' s', allocproc [] demo_parent = Ok (Some p) e' s' /\
  pids_ok s' /\ field p_pid p s' = Some (nextpid demo_parent) /\ field p_state p demo_parent = Some UNUSED /\
  forall q, q <> p -> procs s' !! q = procs demo_parent !! q.
Proof.
  destruct demo_parent_alloc as (p & e' & s' & H). exists p, e', s'. split; [exact H|].
  apply (allocproc_fresh_pid [] demo_parent p e' s');
    [exact (proj1 demo_parent_pids)|rewrite (proj2 demo_parent_pids); lia|exact H].
Defined.

Lemma fork_creates_child_witness : exists e' s', fork [] demo_parent = Ok 2 e' s' /\
  exists p np y, c_proc demo_parent = Some p /\ field p_state np demo_parent = Some UNUSED /\
    procs s' !! np = Some y /\ forked p 2 y /\
    (forall i x, procs demo_parent !! i = Some x -> p_state x <> UNUSED -> p_pid x <> 2) /\
    forall q, q <> np -> procs s' !! q = procs demo_parent !! q.
Proof.
  destruct demo_parent_fork as (e' & s' & H). exists e', s'. split; [exact H|].
  apply (fork_creates_child [] demo_parent 2 e' s'); [exact (proj1 demo_parent_pids)|exact H|discriminate].
Defined.

(** ** A slot that was freed keeps the pointer to its freed page *)

Definition slot_pages (x : proc) : Z * Z * Z :=
  (p_pagetable x, p_trapframepointer x, p_user_trap_frame_backup x).

Lemma field_alter {T} (g : proc -> T) h p i s :
  (forall x, g (h x) = g x) -> field g p (s <| procs ::= alter h i |>) = field g p s.
Proof.
  intros Hh. unfold field. cbn. destruct (decide (p = i)) as [->|].
  - rewrite list_lookup_alter_eq. destruct (procs s !! i); [|done]. cbn. by rewrite Hh.
  - by rewrite list_lookup_alter_ne.
Qed.

Lemma keeps_free_threads {T} (g : proc -> T) p l :
  (forall j h x, g (alter_thread j h x) = g x) -> keeps (field g p) (forK l free_thread).
Proof.
  intros Hg. apply keeps_forK. intros t. unfold free_thread, set_thread.
  apply keeps_modify. intros s. by apply field_alter.
Qed.

Lemma freeproc_slot p e s e' s' x :
  freeproc p e s = Ok tt e' s' -> procs s !! p = Some x ->
  field slot_pages p s' = Some (0, 0, p_user_trap_frame_backup x) /\ field p_state p s' = Some UNUSED.
Proof.
  intros H Hx. unfold freeproc in H. kinv H. unfold get_proc in H0. rewrite Hx in H0. injection H0 as <- <- <-.
  do 3 (ktableskip H Hkeep; rewrite <- Hkeep in Hx; clear Hkeep).
  kinv H. injection H0 as <- <- <-.
  rewrite (keeps_free_threads slot_pages p _ ltac:(done) _ _ _ _ _ H).
  rewrite (keeps_free_threads p_state p _ ltac:(done) _ _ _ _ _ H).
  unfold field. cbn. rewrite list_lookup_alter_eq, Hx. done.
Qed.

(** The slot [p] has been taken, no page is free, and the slot has a stale pointer to [b]. *)
Record stale (p : nat) (b : Z) (s : kstate) : Prop := {
  stale_mem : kmem_ok s [];
  stale_held : held s = [L_proc p];
  stale_slot : field slot_pages p s = Some (0, 0, b);
  stale_ram : ram_page s b }.

Lemma stale_alter p b h i s :
  (forall x, slot_pages (h x) = slot_pages x) -> stale p b s -> stale p b (s <| procs ::= alter h i |>).
Proof.
  intros Hh [Hm Hl Hs Hr]. split; [by destruct Hm|done| |done]. by rewrite field_alter.
Qed.

Lemma wp_set_proc i h (Q : unit -> interference -> kstate -> Prop) e s :
  Q tt e (s <| procs ::= alter h i |>) -> wp (set_proc i h) Q e s.
Proof. done. Qed.
Lemma wp_set_thread t h (Q : unit -> interference -> kstate -> Prop) e s :
  Q tt e (s <| procs ::= alter (alter_thread (snd t) h) (fst t) |>) -> wp (set_thread t h) Q e s.
Proof. done. Qed.
Lemma kmem_ok_procs s l h : kmem_ok s l -> kmem_ok (s <| procs ::= h |>) l.
Proof. by intros []. Qed.

Lemma freeproc_frees_stale p b e s :
  stale p b s ->
  wp (freeproc p) (fun _ e' s' => e' = e /\ kmem_ok s' [b] /\ held s' = [L_proc p]) e s.
Proof.
  intros [Hm Hl Hs Hr]. unfold freeproc. wp. unfold field, slot_pages in Hs.
  destruct (procs s !! p) as [x|] eqn:Hx; [|done]. injection Hs as Hpt Htf Hb.
  wprun (get_proc_run p x e s Hx). wp. rewrite Hpt, Htf. cbn [Z.eqb]. wp.
  assert (0 < b) by (pose proof (ram_page_range s b (kmem_end _ _ Hm) Hr); lia).
  rewrite Hb. destruct (Z.eqb_spec b 0); [lia|].
  destruct (kfree_spec b [] e s) as (s1 & Hrun & Hk & _ & Hv); [done|done|set_solver|rewrite Hl; set_solver|].
  wprun Hrun. wp.
  apply wp_set_proc. apply (wp_forK_inv (fun s => kmem_ok s [b] /\ held s = [L_proc p])).
  - split; [by apply kmem_ok_procs|]. destruct Hv as (m & fl & ->). done.
  - intros t s2 _ [Hk2 Hl2]. apply wp_set_thread. split; [done|]. split; [by apply kmem_ok_procs|done].
  - intros s2 [Hk2 Hl2]. done.
Qed.

Lemma find_unused_first p e s :
  held s = [] -> (p < NPROC)%nat -> field p_state p s = Some UNUSED ->
  (forall q, (q < p)%nat -> exists st, field p_state q s = Some st /\ st <> UNUSED) ->
  find_unused_proc e s = Ok (Some p) e (s <| held := [L_proc p] |>).
Proof.
  intros Hh Hp Hst Hbefore. unfold find_unused_proc.
  replace (seq 0 NPROC) with (seq 0 p ++ p :: seq (S p) (NPROC - S p)).
  2: { change (p :: seq (S p) (NPROC - S p)) with (seq p (S (NPROC - S p))).
       rewrite <- seq_app. f_equal. lia. }
  unfold field in *. rewrite searchK_skip.
  - rewrite searchK_hit. destruct (procs s !! p) as [x|] eqn:Hx; [|done]. injection Hst as Hst.
    assert (forall k, (acquire (L_proc p) ;;; x <- get_proc p ;; k x) e s =
      (k x : K (option nat)) e (s <| held := [L_proc p] |>)) as Hrun.
    { intros k. kstep (acquire_free (L_proc p) e s ltac:(rewrite Hh; set_solver)).
      unfold bindK, get_proc. cbn [procs upd]. rewrite Hx. f_equal. cbv [upd]. by rewrite Hh. }
    unfold bindK at 1. rewrite Hrun. by rewrite decide_True.
  - intros q Hq. apply elem_of_seq in Hq. destruct (Hbefore q) as (st & Hq' & Hne); [lia|].
    destruct (procs s !! q) as [x|] eqn:Hx; [|done]. injection Hq' as Hq'.
    kstep (acquire_free (L_proc q) e s ltac:(rewrite Hh; set_solver)).
    assert (get_proc q e (s <| held ::= cons (L_proc q) |>) = Ok x e (s <| held ::= cons (L_proc q) |>)) as Hg
      by by apply get_proc_run.
    kstep Hg. rewrite decide_False by congruence. by kstep (release_after_acquire (L_proc q) e s).
Qed.

Lemma stale_allocpid p b e s : stale p b s -> wp allocpid (fun _ e' s' => e' = e /\ stale p b s') e s.
Proof.
  intros [Hm Hl Hs Hr]. unfold allocpid. wp. apply wp_acquire; [rewrite Hl; set_solver|]. wp.
  eapply wp_release; [cbn; by rewrite Hl|]. wp. split; [done|]. split; [by destruct Hm|done..].
Qed.
Lemma stale_get_tid p b e s : stale p b s -> wp get_tid (fun _ e' s' => e' = e /\ stale p b s') e s.
Proof.
  intros [Hm Hl Hs Hr]. unfold get_tid. wp. apply wp_acquire; [rewrite Hl; set_solver|]. wp.
  eapply wp_release; [cbn; by rewrite Hl|]. wp. split; [done|]. split; [by destruct Hm|done..].
Qed.

(** C39: A page is freed while it is in use.  [freeproc] frees the backup page of a process and
    leaves the pointer to it in the slot.  When the slot is taken again and no page is left,
    the failure path of [allocproc] runs [freeproc] on it, which puts the page on the free list
    a second time, whoever has it now. *)
Theorem allocproc_oom_frees_live_page p b x e0 s0 e0' s0' e s :
  procs s0 !! p = Some x -> p_user_trap_frame_backup x = b -> freeproc p e0 s0 = Ok tt e0' s0' ->
  procs s !! p = procs s0' !! p -> (p < NPROC)%nat -> held s = [] ->
  (forall q, (q < p)%nat -> exists st, field p_state q s = Some st /\ st <> UNUSED) ->
  kmem_ok s [] -> ram_page s b ->
  exists s', allocproc e s = Ok None e s' /\ kmem_ok s' [b].
Proof.
  intros Hx Hb Hfree Hslot Hp Hh Hbefore Hk Hr.
  destruct (freeproc_slot _ _ _ _ _ _ Hfree Hx) as [Hpages Hst]. unfold field in Hpages, Hst.
  rewrite <- Hslot in Hpages, Hst.
  assert (stale p b (s <| held := [L_proc p] |>)) as Hs.
  { split; [by destruct Hk|done| |done]. unfold field. by rewrite <- Hb. }
  pose proof (find_unused_first p e s Hh Hp Hst Hbefore) as Hfind.
  enough (wp allocproc (fun r e' s' => r = None /\ e' = e /\ kmem_ok s' [b]) e s) as Hwp.
  { apply wp_run in Hwp as (a & e' & s' & Hrun & -> & -> & Hk'). eauto. }
  unfold allocproc. wp. wprun Hfind. wp. set (s1 := s <| held := _ |>) in *. clearbody s1.
  wpapply (stale_allocpid p b); [done|]. intros pid e1 s2 [-> H2]. wp. apply wp_set_proc. wp.
  apply wp_set_thread. wp. wpapply (stale_get_tid p b); [by repeat apply stale_alter|].
  intros tid e1 s3 [-> H3]. wp. apply wp_set_thread. wp.
  apply (wp_forK_inv (stale p b)); [by apply stale_alter| |].
  { intros i s4 _ H4. apply wp_set_proc. split; [done|]. by apply stale_alter. }
  intros s4 H4. wp. wprun (kalloc_empty e s4 (stale_mem _ _ _ H4)); [rewrite (stale_held _ _ _ H4); set_solver|].
  cbn [Z.eqb]. unfold alloc_fail. wp. apply wp_set_thread. wp.
  wpapply (freeproc_frees_stale p b); [by apply stale_alter|]. intros _ e1 s5 (-> & Hk5 & Hl5). wp.
  eapply wp_release; [done|]. wp. split; [done|]. split; [done|]. by destruct Hk5.
Qed.

(** Slot 0 of a machine without free memory: its last process was freed, and its backup page,
    [demo_page], belongs to someone else by now. *)
Definition demo_freed : kstate :=
  demo_boot <| procs ::= alter (fun x => x <| p_user_trap_frame_backup := demo_page |> <| p_state := ZOMBIE |>) 0%nat |>.
Definition demo_full : kstate :=
  demo_boot <| procs := procs (final_state demo_freed (freeproc 0 [] demo_freed)) |>.

Lemma demo_freed_run : exists s', freeproc 0 [] demo_freed = Ok tt [] s'.
Proof.
  assert (match freeproc 0 [] demo_freed with Ok tt [] _ => true | _ => false end = true) as H
    by (vm_compute; reflexivity).
  destruct (freeproc 0 [] demo_freed) as [[] [|] s'| | | |]; try done. eauto.
Qed.

Lemma allocproc_oom_frees_live_page_witness :
  exists s', allocproc [] demo_full = Ok None [] s' /\ kmem_ok s' [demo_page].
Proof.
  destruct demo_freed_run as [s1 Hrun].
  apply (allocproc_oom_frees_live_page 0 demo_page
    (proc0 <| p_user_trap_frame_backup := demo_page |> <| p_state := ZOMBIE |>) [] demo_freed [] s1 [] demo_full).
  - reflexivity.
  - reflexivity.
  - exact Hrun.
  - unfold demo_full. rewrite Hrun. reflexivity.
  - unfold NPROC. lia.
  - reflexivity.
  - intros q Hq. lia.
  - destruct demo_boot_ok as [H1 H2 H3 H4]. split; assumption.
  - split; [reflexivity|]. split; vm_compute; done.
Defined.
