(* ===== verification/Signal.v ===== *)
(** * Delivery of signals: the first part of kernel/trap.c *)

From stdpp Require Import base numbers list gmap strings.
From S2P Require Import Prelude Mem Types Kernel Riscv Kalloc Vm VmFacts Sched Bio Log Fs Console File Proc.

Definition bit (i : nat) : Z := u32 (Z.shiftl 1 (Z.of_nat i)).

Definition sigkill_handler : K Z :=
  p <- curproc ;;
  t <- curthread ;;
  acquire (L_proc p) ;;;
  set_proc p (fun x => x <| p_killed := 1 |>) ;;;
  y <- get_thread t ;;
  (if decide (t_state y = t_SLEEPING) then set_thread t (fun y => y <| t_state := t_RUNNABLE |>)
   else retK tt) ;;;
  forK (threads_of p) (fun t =>
    acquire (L_thread (fst t) (snd t)) ;;;
    y <- get_thread t ;;
    (if decide (t_state y = t_SLEEPING) then set_thread t (fun y => y <| t_state := t_RUNNABLE |>)
     else retK tt) ;;;
    release (L_thread (fst t) (snd t))) ;;;
  release (L_proc p) ;;;
  retK 0.

Definition sigcont_handler : K Z :=
  p <- curproc ;;
  x <- get_proc p ;;
  if p_freeze x =? 0 then retK (-1) else
  set_proc p (fun x => x <| p_freeze := 0 |>) ;;;
  set_proc p (fun x => x <| p_pendingsignals := Z.lxor (p_pendingsignals x) (bit (Z.to_nat SIGCONT)) |>) ;;;
  retK 0.

Definition sigstop_body (p : nat) (_ : unit) : K (unit + unit) :=
  acquire (L_proc p) ;;;
  x <- get_proc p ;;
  if Z.land (p_pendingsignals x) (bit (Z.to_nat SIGCONT)) =? 0 then
    release (L_proc p) ;;;
    yield ;;;
    retK (inl tt)
  else
    set_proc p (fun x => x <| p_freeze := 0 |>
      <| p_pendingsignals := Z.lxor (Z.lxor (p_pendingsignals x) (bit (Z.to_nat SIGSTOP)))
                               (bit (Z.to_nat SIGCONT)) |>) ;;;
    release (L_proc p) ;;;
    retK (inr tt).

Definition sigstop_handler : K Z :=
  p <- curproc ;;
  t <- curthread ;;
  x <- get_proc p ;;
  if negb (p_freeze x =? 0) then retK (-1) else
  y <- get_thread t ;;
  (if bool_decide (t_state y = t_RUNNABLE) || bool_decide (t_state y = t_RUNNING) then
     acquire (L_proc p) ;;;
     set_proc p (fun x => x <| p_freeze := 1 |>) ;;;
     release (L_proc p) ;;;
     blockK (sigstop_body p) tt
   else retK tt) ;;;
  retK 0.

(** Reading memory at address [a] while the kernel runs: the address is translated by the
    kernel's page table, which must let the supervisor read the page; otherwise there is a page
    fault, and [kerneltrap] panics. *)
Definition kernel_pa (s : kstate) (a : Z) : option Z :=
  let v := pte_of (mem s) (kernel_pagetable s) (PGROUNDDOWN a) in
  if (0 <=? a) && (a <? MAXVA) && flag v PTE_V && flag v PTE_R && negb (flag v PTE_U)
  then Some (PTE2PA v + (a - PGROUNDDOWN a)) else None.
Definition kernel_read (a : Z) (n : nat) : K (list Z) := fun e s =>
  match mapM (kernel_pa s) (map (fun i => a + Z.of_nat i) (seq 0 n)) with
  | Some l => Ok (rd (mem s) <$> l) e s
  | None => Panic "kerneltrap"
  end.

(** [copyout(pagetable, dstva, (void* )src, len)] with a source that is a kernel address: the
    memory is read page by page, after the translation of each page of the destination. *)
Definition copyout_at_body (pagetable : Z) (st : Z * Z * nat) : K (Z * Z * nat + Z) :=
  let '(dstva, src, len) := st in
  if (len =? 0)%nat then retK (inr 0) else
  let va0 := PGROUNDDOWN dstva in
  pa0 <- walkaddr pagetable va0 ;;
  if pa0 =? 0 then retK (inr (-1)) else
  let n := Nat.min (Z.to_nat (PGSIZE - (dstva - va0))) len in
  bytes <- kernel_read src n ;;
  modifyK (fun s => s <| mem := wr_list (mem s) (pa0 + (dstva - va0)) bytes |>) ;;;
  retK (inl (u64 (va0 + PGSIZE), u64 (src + Z.of_nat n), (len - n)%nat)).

Definition copyout_at (pagetable dstva src : Z) (len : nat) : K Z :=
  whileK (S len) (copyout_at_body pagetable) (dstva, src, len).

Definition signalhandler_user (i : nat) : K unit :=
  p <- curproc ;;
  t <- curthread ;;
  acquire (L_proc p) ;;;
  x <- get_proc p ;;
  h <- copyin (p_pagetable x) (p_signalhandlers x !!! i) 8 ;;
  if negb (fst h =? 0) then ub "uninitialised sa_handler" else
  m <- copyin (p_pagetable x) (p_signalmasks x !!! i) 4 ;;
  if negb (fst m =? 0) then ub "uninitialised sigmask" else
  set_proc p (fun x => x <| p_signalmask_origin := p_signalmask x |>
                         <| p_signalmask := lget 4 (snd m) 0 |> <| p_handlingSignal := 1 |>) ;;;
  y <- get_thread t ;;
  let tf := t_trapframe y in
  sp <- tf_load tf tf_sp ;;
  copyout_at (p_pagetable x) (u64 (sp - sizeof_trapframe)) sp 8 ;;;
  tf_store tf tf_epc (lget 8 (snd h) 0) ;;;
  sy <- getsK (fun s => syms s) ;;
  let funcsize := sym_sigretEND sy - sym_sigretBEG sy in
  tf_store tf tf_sp (u64 (sp - funcsize)) ;;;
  code <- getsK (fun s => rd_list (mem s) (sym_sigretBEG sy) (Z.to_nat funcsize)) ;;
  copyout (p_pagetable x) (u64 (sp - funcsize)) code ;;;
  tf_store tf tf_a0 (Z.of_nat i) ;;;
  tf_store tf tf_ra (u64 (sp - funcsize)) ;;;
  set_proc p (fun x => x <| p_pendingsignals := Z.lxor (p_pendingsignals x) (bit i) |>) ;;;
  release (L_proc p).

(** [(pendingsignals & 1 << i) & !(signalmask & 1 << i)], with the precedences of C: the
    second operand is 0 or 1. *)
Definition deliverable (x : proc) (i : nat) : bool :=
  negb (Z.land (Z.land (p_pendingsignals x) (bit i))
          (if Z.land (p_signalmask x) (bit i) =? 0 then 1 else 0) =? 0).

Definition deliver (i : nat) (handler : Z) : K unit :=
  if handler =? SIG_IGN then retK tt
  else if handler =? SIG_DFL then sigkill_handler ;;; retK tt
  else if Z.of_nat i =? SIGKILL then sigkill_handler ;;; retK tt
  else if Z.of_nat i =? SIGCONT then sigcont_handler ;;; retK tt
  else if Z.of_nat i =? SIGSTOP then sigstop_handler ;;; retK tt
  else signalhandler_user i.

Definition signal_handler : K unit :=
  p <- curproc ;;
  x <- get_proc p ;;
  if negb (p_handlingSignal x =? 0) then retK tt else
  searchK (seq 0 NUMOFSIGNALS) (fun i =>
    x <- get_proc p ;;
    if deliverable x i then deliver i (p_signalhandlers x !!! i) ;;; retK None
    else retK (Some tt)) ;;;
  retK tt.

#[global] Arguments signal_handler : simpl never.
