(* ===== verification/SignalFacts.v ===== *)
(** * Which signals are delivered

    [kill] records the signal number instead of its bit, and the test of [signal_handler]
    can only succeed for signal 0.  The theorems say what that makes of [kill]: an odd
    number marks the process killed, an even one is lost; a handler installed for signal 0
    makes the kernel read memory at an address the user chose. *)

From stdpp Require Import base numbers list gmap strings.
From S2P Require Import Prelude Mem Types Kernel Riscv Kalloc Vm VmFacts Copy Sched SchedFacts.
From S2P Require Import Bio Log Fs Console File Proc Kthread KthreadFacts Signal.

(** ** The delivery test *)

Lemma bit_pow i : (i < 32)%nat -> bit i = 2 ^ Z.of_nat i.
Proof.
  intros H. unfold bit. rewrite Z.shiftl_mul_pow2, Z.mul_1_l by lia. apply u32_small.
  split; [lia|]. apply Z.pow_lt_mono_r; lia.
Qed.

Lemma deliverable_spec x i :
  (i < 32)%nat ->
  deliverable x i = (i =? 0)%nat && Z.odd (p_pendingsignals x) && negb (Z.odd (p_signalmask x)).
Proof.
  intros Hi. unfold deliverable. rewrite bit_pow, !land_pow2_zero by lia.
  destruct i as [|i].
  - change (Z.of_nat 0) with 0. rewrite !Z.bit0_odd.
    by destruct (Z.odd (p_pendingsignals x)), (Z.odd (p_signalmask x)).
  - change ((S i =? 0)%nat) with false. cbn [andb].
    assert (Z.land (if Z.testbit (p_pendingsignals x) (Z.of_nat (S i)) then 2 ^ Z.of_nat (S i) else 0) 1 = 0) as H1.
    { destruct (Z.testbit _ _); [|done]. change 1 with (Z.ones 1). rewrite Z.land_ones by lia.
      rewrite Nat2Z.inj_succ, Z.pow_succ_r, Z.mul_comm by lia. change (2 ^ 1) with 2. by apply Z.mod_mul. }
    destruct ((if Z.testbit (p_signalmask x) (Z.of_nat (S i)) then 2 ^ Z.of_nat (S i) else 0) =? 0).
    + by rewrite H1.
    + by rewrite Z.land_0_r.
Qed.

Lemma signal_handler_none i p e s :
  c_proc s = Some i -> procs s !! i = Some p ->
  p_handlingSignal p <> 0 \/ Z.odd (p_pendingsignals p) = false \/ Z.odd (p_signalmask p) = true ->
  signal_handler e s = Ok tt e s.
Proof.
  intros Hc Hp H. unfold signal_handler. kstep (curproc_run i e s Hc). kstep (get_proc_run i p e s Hp).
  destruct (Z.eqb_spec (p_handlingSignal p) 0); [|done]. cbn [negb].
  change (seq 0 NUMOFSIGNALS) with (0%nat :: seq 1 31). unfold bindK at 1. rewrite searchK_hit.
  unfold bindK. rewrite (get_proc_run i p e s Hp). rewrite deliverable_spec by lia.
  destruct H as [H|[->| ->]]; [done| |by rewrite andb_false_r]. by rewrite andb_false_r.
Qed.

(** C32: Delivery depends on bit 0 of the pending set only.  With every other combination of the
    31 signals 1 to 31 pending, SIGKILL, SIGSTOP and SIGCONT included, and bit 0 clear or
    masked, [signal_handler] returns at once and changes nothing. *)
Theorem only_signal_zero_is_delivered i p e s :
  c_proc s = Some i -> procs s !! i = Some p ->
  Z.odd (p_pendingsignals p) = false \/ Z.odd (p_signalmask p) = true ->
  signal_handler e s = Ok tt e s /\ forall k, (k < 32)%nat -> deliverable p k = false.
Proof.
  intros Hc Hp H. split; [eapply signal_handler_none; eauto|]. intros k Hk.
  rewrite deliverable_spec by done. destruct H as [->| ->]; by rewrite ?andb_false_r.
Qed.

(** ** Termination by signal *)

Definition wake_sleeping (t : thread) : thread :=
  if decide (t_state t = t_SLEEPING) then t <| t_state := t_RUNNABLE |> else t.

Lemma wake_sleeping_idem t : wake_sleeping (wake_sleeping t) = wake_sleeping t.
Proof.
  unfold wake_sleeping. destruct (decide (t_state t = t_SLEEPING)) as [|H]; [by rewrite decide_False|].
  by rewrite decide_False.
Qed.

(** A conditional assignment to an existing thread is an update. *)
Lemma wake_if_sleeping i j y e s :
  thread_of s i j = Some y ->
  (if decide (t_state y = t_SLEEPING) then set_thread (i, j) (fun y => y <| t_state := t_RUNNABLE |>)
   else retK tt) e s = set_thread (i, j) wake_sleeping e s.
Proof.
  intros Hy. rewrite !set_thread_run. unfold thread_of in Hy.
  destruct (procs s !! i) as [p|] eqn:Hp; [|done]. cbn [mbind option_bind] in Hy.
  destruct (decide (t_state y = t_SLEEPING)) as [H|H].
  - rewrite set_thread_run. f_equal. cbv [upd]. f_equal. apply list_alter_ext. intros q Hq.
    cbn [fst] in Hq. replace q with p by congruence. unfold alter_thread. cbv [upd]. f_equal.
    apply list_alter_ext. intros z Hz. cbn [snd] in Hz. replace z with y by congruence.
    unfold wake_sleeping. by rewrite decide_True.
  - unfold retK. f_equal. cbv [upd]. cbn [fst snd].
    assert (alter (alter_thread j wake_sleeping) i (procs s) = procs s) as ->; [|done].
    rewrite (list_alter_ext _ (fun x => x)); [by apply list_alter_id|]. intros q Hq.
    replace q with p by congruence. unfold alter_thread. cbv [upd].
    assert (alter wake_sleeping j (p_threads p) = p_threads p) as ->; [|done].
    rewrite (list_alter_ext _ (fun x => x)); [by apply list_alter_id|]. intros z Hz.
    replace z with y by congruence. unfold wake_sleeping. by rewrite decide_False.
Qed.

Lemma forK_ext {X} (P : kstate -> Prop) (l : list X) (b1 b2 : X -> K unit) e s :
  P s -> (forall x s, x ∈ l -> P s -> exists s', b1 x e s = Ok tt e s' /\ b2 x e s = Ok tt e s' /\ P s') ->
  forK l b1 e s = forK l b2 e s.
Proof.
  revert s. induction l as [|x l IH]; intros s Hs H; [done|]. cbn [forK]. unfold bindK.
  destruct (H x s) as (s' & -> & -> & Hs'); [by constructor|done|]. apply IH; [done|].
  intros y s0 Hy. apply H. by constructor.
Qed.

Lemma table_thread s i j :
  table_ok s -> (i < NPROC)%nat -> (j < NTHREAD)%nat -> exists y, thread_of s i j = Some y.
Proof.
  intros [H1 H2] Hi Hj. unfold thread_of. destruct (lookup_lt_is_Some_2 (procs s) i) as [p Hp]; [lia|].
  rewrite Hp. cbn. apply lookup_lt_is_Some_2. eapply Forall_lookup_1 in H2; [|exact Hp]. lia.
Qed.

Definition terminated (p : proc) : proc := map_threads wake_sleeping (p <| p_killed := 1 |>).

Lemma table_ok_map s i f :
  table_ok s -> (forall p, length (p_threads (f p)) = length (p_threads p)) ->
  table_ok (s <| procs ::= alter f i |>).
Proof.
  intros [H1 H2] Hf. split; cbn; [by rewrite length_alter|]. apply Forall_alter; [done|].
  intros x _ Hx. by rewrite Hf.
Qed.

Lemma sigkill_run i j p t e s :
  running s i j p t -> held s = [] -> table_ok s ->
  sigkill_handler e s = Ok 0 e (s <| procs ::= alter terminated i |>).
Proof.
  intros Hr Hh Hok. unfold sigkill_handler. kstep (curproc_run _ e s (run_proc _ _ _ _ _ Hr)).
  kstep (curthread_run _ e s (run_thread _ _ _ _ _ Hr)).
  assert (L_proc i ∉ held s) as Hni by (rewrite Hh; apply not_elem_of_nil).
  assert (i < NPROC)%nat as Hi by (pose proof (lookup_lt_Some _ _ _ (run_p _ _ _ _ _ Hr)); destruct Hok; lia).
  kstep (acquire_free (L_proc i) e s Hni). kstep (set_proc_run i (fun x => x <| p_killed := 1 |>) e (s <| held ::= cons (L_proc i) |>)).
  set (s1 := upd procs _ _).
  assert (table_ok s1) as Hok1 by (eapply table_ok_map; [exact Hok|done]).
  assert (thread_of s1 i j = Some t) as Ht.
  { unfold thread_of, s1. cbn. rewrite list_lookup_alter_eq, (run_p _ _ _ _ _ Hr). apply Hr. }
  kstep (get_thread_run i j e s1 t Ht). unfold bindK at 1. rewrite (wake_if_sleeping i j t e s1 Ht), set_thread_run.
  cbn [fst snd]. set (s2 := s1 <| procs ::= alter (alter_thread j wake_sleeping) i |>).
  assert (table_ok s2) as Hok2 by (by apply table_ok_alter).
  unfold bindK at 1. rewrite (forK_ext (fun s => table_ok s /\ held s = [L_proc i]) _ _ (fun t => set_thread t wake_sleeping)).
  - rewrite set_threads_run by done. unfold bindK. rewrite (release_top _ _ _ []) by (cbn; by rewrite Hh).
    unfold retK, s2, s1. f_equal. rewrite !procs_procs, locked_procs by done. apply procs_ext.
    rewrite !list_alter_alter_eq. apply list_alter_ext. intros x Hx.
    unfold terminated, map_threads, alter_thread. cbv [upd compose]. cbn. f_equal.
    apply list_eq. intros k. rewrite !list_lookup_fmap. destruct (decide (j = k)) as [<-|].
    + rewrite list_lookup_alter_eq. destruct (p_threads x !! j); [|done]. cbn. by rewrite wake_sleeping_idem.
    + by rewrite list_lookup_alter_ne.
  - split; [exact Hok2|]. cbn. by rewrite Hh.
  - intros x s0 Hx [Hok0 Hh0]. apply list_elem_of_fmap in Hx as (k & -> & Hk). apply elem_of_seq in Hk.
    destruct (table_thread s0 i k Hok0 Hi) as [y Hy]; [lia|]. cbn [fst snd].
    exists (s0 <| procs ::= alter (alter_thread k wake_sleeping) i |>). split; [|split].
    + unfold bindK. rewrite acquire_free by (rewrite Hh0; set_solver).
      set (s3 := s0 <| held ::= cons (L_thread i k) |>).
      rewrite (get_thread_run i k e s3 y Hy), (wake_if_sleeping i k y e s3 Hy), set_thread_run.
      by rewrite (release_top _ _ _ (held s0)).
    + apply set_thread_run.
    + split; [by apply table_ok_alter|done].
Qed.

Lemma kill_run pid signum i p e s :
  procs s !! i = Some p -> p_pid p = pid -> p_state p = USED ->
  (forall k q, (k < i)%nat -> procs s !! k = Some q -> p_pid q <> pid) ->
  length (procs s) = NPROC -> held s = [] ->
  kill pid signum e s = Ok 0 e (s <| procs ::= alter (fun x =>
    x <| p_pendingsignals := Z.lor (p_pendingsignals x) (u32 signum) |>) i |>).
Proof.
  intros Hp Hpid Hst Hfirst Hlen Hh. unfold kill.
  pose proof (lookup_lt_Some _ _ _ Hp) as Hi.
  replace (seq 0 NPROC) with (seq 0 i ++ i :: seq (S i) (NPROC - S i)).
  2:{ change (i :: seq (S i) (NPROC - S i)) with (seq (0 + i) (S (NPROC - S i))). rewrite <- seq_app.
      f_equal. lia. }
  unfold bindK at 1. rewrite searchK_skip.
  - rewrite searchK_hit. unfold bindK.
    rewrite acquire_free by (rewrite Hh; apply not_elem_of_nil).
    rewrite (get_proc_run i p) by done. rewrite Hpid, Z.eqb_refl, Hst. cbn [andb].
    rewrite !bool_decide_eq_false_2 by done. cbn [orb]. rewrite set_proc_run.
    rewrite (release_top _ _ _ (held s)) by done. done.
  - intros k Hk. apply elem_of_seq in Hk. destruct (lookup_lt_is_Some_2 (procs s) k) as [q Hq]; [lia|].
    unfold bindK. rewrite acquire_free by (rewrite Hh; apply not_elem_of_nil).
    rewrite (get_proc_run k q) by done.
    pose proof (Hfirst k q ltac:(lia) Hq) as Hne. apply Z.eqb_neq in Hne as ->. cbn [andb].
    by rewrite (release_top _ _ _ (held s)).
Qed.

Lemma odd_u32 x : Z.odd (u32 x) = Z.odd x.
Proof.
  unfold u32. rewrite <- !Z.bit0_odd. apply Z.mod_pow2_bits_low. lia.
Qed.

Lemma signal_handler_kill i j p t e s :
  running s i j p t -> held s = [] -> table_ok s -> p_handlingSignal p = 0 ->
  Z.odd (p_pendingsignals p) = true -> Z.odd (p_signalmask p) = false ->
  p_signalhandlers p !!! 0%nat = SIG_DFL ->
  signal_handler e s = Ok tt e (s <| procs ::= alter terminated i |>).
Proof.
  intros Hr Hh Hok Hhs Hp Hm Hd. unfold signal_handler.
  kstep (curproc_run _ e s (run_proc _ _ _ _ _ Hr)). kstep (get_proc_run i p e s (run_p _ _ _ _ _ Hr)).
  rewrite Hhs. cbn [Z.eqb negb]. change (seq 0 NUMOFSIGNALS) with (0%nat :: 1%nat :: seq 2 30).
  unfold bindK at 1. rewrite searchK_hit. unfold bindK.
  rewrite (get_proc_run i p e s (run_p _ _ _ _ _ Hr)), deliverable_spec, Hp, Hm, Hd by lia.
  cbn [Nat.eqb negb andb]. unfold deliver. cbn [Z.eqb]. change (SIG_DFL =? SIG_IGN) with false.
  change (SIG_DFL =? SIG_DFL) with true. unfold bindK. rewrite (sigkill_run i j p t) by done.
  cbv beta iota zeta delta [retK]. rewrite searchK_hit. unfold bindK.
  rewrite (get_proc_run i (terminated p)); [by rewrite deliverable_spec by lia|].
  cbn. by rewrite list_lookup_alter_eq, (run_p _ _ _ _ _ Hr).
Qed.

(** C31: What [kill] means, for a running process that sends a signal to itself.  With bit 0
    not pending and the default action for signal 0, the next [signal_handler] marks the
    process killed exactly when the signal number is odd, whichever it is, bit 0 is not masked
    and no handler is running: SIGCONT and SIGSTOP do it as well as SIGKILL.  Otherwise, and so
    for every even number, [kill] has succeeded and the handler has no effect at all. *)
Theorem kill_marks_iff_odd signum i j p t e s :
  running s i j p t -> held s = [] -> table_ok s -> p_state p = USED ->
  (forall k q, (k < i)%nat -> procs s !! k = Some q -> p_pid q <> p_pid p) ->
  Z.odd (p_pendingsignals p) = false -> p_signalhandlers p !!! 0%nat = SIG_DFL ->
  let taken := Z.odd signum && negb (Z.odd (p_signalmask p)) && (p_handlingSignal p =? 0) in
  exists s1 s2 p2, kill (p_pid p) signum e s = Ok 0 e s1 /\ signal_handler e s1 = Ok tt e s2 /\
    procs s2 !! i = Some p2 /\
    p_killed p2 = (if taken then 1 else p_killed p) /\ (taken = false -> s2 = s1).
Proof.
  intros Hr Hh Hok Hst Hfirst Hpend Hd taken.
  set (pend := fun x : proc => x <| p_pendingsignals := Z.lor (p_pendingsignals x) (u32 signum) |>).
  set (s1 := s <| procs ::= alter pend i |>).
  assert (procs s1 !! i = Some (pend p)) as Hp1
    by (cbn; by rewrite list_lookup_alter_eq, (run_p _ _ _ _ _ Hr)).
  assert (running s1 i j (pend p) t) as Hr1 by (split; [apply Hr|apply Hr|exact Hp1|apply Hr]).
  assert (Z.odd (p_pendingsignals (pend p)) = Z.odd signum) as Hodd.
  { cbn. rewrite <- !Z.bit0_odd, Z.lor_spec, !Z.bit0_odd, Hpend. apply odd_u32. }
  exists s1. destruct taken eqn:Et.
  - apply andb_true_iff in Et as [[Ho Hm%negb_true_iff]%andb_true_iff Hhs%Z.eqb_eq].
    exists (s1 <| procs ::= alter terminated i |>), (terminated (pend p)). split; [|split; [|split]].
    + by apply kill_run with p; try done; [apply Hr|apply Hok].
    + apply (signal_handler_kill i j (pend p) t); try done; [apply table_ok_map; done|congruence].
    + change (alter terminated i (procs s1) !! i = Some (terminated (pend p))).
      by rewrite list_lookup_alter_eq, Hp1.
    + by split.
  - exists s1, (pend p). split; [|split; [|split; [exact Hp1|by split]]].
    + by apply kill_run with p; try done; [apply Hr|apply Hok].
    + eapply signal_handler_none; [apply Hr|exact Hp1|]. rewrite Hodd. cbn.
      apply andb_false_iff in Et as [[?|?%negb_false_iff]%andb_false_iff|?%Z.eqb_neq]; auto.
Qed.

Lemma demo_one_thread_ok : table_ok demo_one_thread.
Proof. split; [reflexivity|]. repeat (constructor; [reflexivity|]). constructor. Qed.

Lemma only_signal_zero_is_delivered_witness :
  signal_handler [] demo_one_thread = Ok tt [] demo_one_thread /\
  forall k, (k < 32)%nat -> deliverable demo_p1 k = false.
Proof.
  apply (only_signal_zero_is_delivered 0 demo_p1 [] demo_one_thread); [reflexivity|reflexivity|].
  left. reflexivity.
Defined.

Lemma kill_marks_iff_odd_witness :
  exists s1 s2 p2, kill (p_pid demo_p1) SIGSTOP [] demo_one_thread = Ok 0 [] s1 /\
    signal_handler [] s1 = Ok tt [] s2 /\ procs s2 !! 0%nat = Some p2 /\
    p_killed p2 = 1 /\ (true = false -> s2 = s1).
Proof.
  apply (kill_marks_iff_odd SIGSTOP 0 0 demo_p1 demo_t0 [] demo_one_thread).
  - split; reflexivity.
  - reflexivity.
  - exact demo_one_thread_ok.
  - reflexivity.
  - intros k q Hk. lia.
  - reflexivity.
  - reflexivity.
Defined.

(** ** User handlers *)

Lemma copyin_mapped pt va len l e s :
  0 <= va -> 0 < sym_end (syms s) -> pt_wf s pt l -> mapped (mem s) pt va len ->
  copyin pt va len e s = Ok (0, ubytes (mem s) pt va len) e s.
Proof.
  intros Hva He Hwf Hm. unfold copyin.
  destruct (copyin_loop (S len) len va [] pt l e s) as (r & bs & Hr & [(-> & -> & _)|[_ Hn]]); try done.
  lia.
Qed.

Lemma copyout_at_fault pt va src len l e s a :
  (0 < len)%nat -> 0 <= va -> 0 < sym_end (syms s) -> pt_wf s pt l ->
  upa (mem s) pt va = Some a -> kernel_pa s src = None ->
  copyout_at pt va src len e s = Panic "kerneltrap".
Proof.
  intros Hlen Hva He Hwf Hu Hsrc. unfold copyout_at. cbn [whileK]. unfold bindK at 1, copyout_at_body.
  destruct (Nat.eqb_spec len 0); [lia|]. unfold bindK. rewrite (walkaddr_any _ _ l) by done.
  destruct (Z.ltb_spec va MAXVA) as [Hlt|]; [|by rewrite upa_ge_MAXVA in Hu by lia].
  rewrite <- (Z.add_0_r va), upa_in_page in Hu by (pose proof (PGROUNDDOWN_bounds va); lia).
  destruct (user_page (mem s) pt (PGROUNDDOWN va) =? 0); [done|].
  destruct (Nat.min _ len) as [|k] eqn:Ek; [pose proof (PGROUNDDOWN_bounds va); unfold PGSIZE in *; lia|].
  unfold kernel_read. cbn [seq map mapM]. rewrite Z.add_0_r, Hsrc. done.
Qed.

(** C33: A process can bring the kernel down with a signal handler.  When signal 0 is pending,
    not masked and not being handled, has a user handler, and the user's pages hold the
    handler's address and mask and the stack 288 bytes below the stack pointer, then
    [signal_handler] passes the user's stack pointer to [copyout] as the kernel address to
    copy from; if the kernel's page table does not map that address, as for an ordinary user
    stack, the kernel faults and panics. *)
Theorem user_handler_panics i j p t l a e s :
  running s i j p t -> held s = [] -> p_handlingSignal p = 0 ->
  Z.odd (p_pendingsignals p) = true -> Z.odd (p_signalmask p) = false ->
  let h := p_signalhandlers p !!! 0%nat in let m := p_signalmasks p !!! 0%nat in
  let sp := load64 (mem s) (t_trapframe t + tf_sp) in
  h <> SIG_DFL -> h <> SIG_IGN -> 0 <= h -> 0 <= m -> t_trapframe t <> 0 ->
  0 < sym_end (syms s) -> pt_wf s (p_pagetable p) l ->
  mapped (mem s) (p_pagetable p) h 8 -> mapped (mem s) (p_pagetable p) m 4 ->
  upa (mem s) (p_pagetable p) (u64 (sp - sizeof_trapframe)) = Some a -> kernel_pa s sp = None ->
  signal_handler e s = Panic "kerneltrap".
Proof.
  intros Hr Hh Hhs Hp Hm h m sp Hd Hg Hh0 Hm0 Htf He Hwf Hmh Hmm Hu Hsp. unfold signal_handler.
  kstep (curproc_run _ e s (run_proc _ _ _ _ _ Hr)). kstep (get_proc_run i p e s (run_p _ _ _ _ _ Hr)).
  rewrite Hhs. cbn [Z.eqb negb]. change (seq 0 NUMOFSIGNALS) with (0%nat :: seq 1 31).
  unfold bindK at 1. rewrite searchK_hit. unfold bindK.
  rewrite (get_proc_run i p e s (run_p _ _ _ _ _ Hr)), deliverable_spec, Hp, Hm by lia.
  cbn [Nat.eqb negb andb]. unfold deliver. fold h. apply Z.eqb_neq in Hd, Hg. rewrite Hd, Hg.
  change (Z.of_nat 0 =? SIGKILL) with false. change (Z.of_nat 0 =? SIGCONT) with false.
  change (Z.of_nat 0 =? SIGSTOP) with false. cbn iota.
  enough (signalhandler_user 0 e s = Panic "kerneltrap") as -> by done.
  unfold signalhandler_user. kstep (curproc_run _ e s (run_proc _ _ _ _ _ Hr)).
  kstep (curthread_run _ e s (run_thread _ _ _ _ _ Hr)).
  assert (L_proc i ∉ held s) as Hni by (rewrite Hh; apply not_elem_of_nil).
  kstep (acquire_free (L_proc i) e s Hni). set (s1 := s <| held ::= cons (L_proc i) |>).
  assert (pt_wf s1 (p_pagetable p) l) as Hwf1 by (by eapply pt_wf_ext; [..|exact Hwf]).
  kstep (get_proc_run i p e s1 (run_p _ _ _ _ _ Hr)). fold h m.
  kstep (copyin_mapped (p_pagetable p) h 8 l e s1 Hh0 He Hwf1 Hmh). cbn [fst Z.eqb negb].
  kstep (copyin_mapped (p_pagetable p) m 4 l e s1 Hm0 He Hwf1 Hmm). cbn [fst Z.eqb negb].
  unfold bindK. rewrite set_proc_run. set (s2 := upd procs _ _).
  assert (thread_of s2 i j = Some t) as Ht.
  { unfold thread_of, s2. cbn. rewrite list_lookup_alter_eq, (run_p _ _ _ _ _ Hr). apply Hr. }
  rewrite (get_thread_run i j e s2 t Ht). unfold tf_load. apply Z.eqb_neq in Htf as ->.
  unfold loadK, getsK. change (load64 (mem s2) (t_trapframe t + tf_sp)) with sp.
  assert (pt_wf s2 (p_pagetable p) l) as Hwf2 by (by eapply pt_wf_ext; [..|exact Hwf]).
  erewrite (copyout_at_fault (p_pagetable p) _ sp 8 l e s2 a); try done; [lia|apply u64_range].
Qed.

(** Process 0 in an address space [pt], with a handler for signal 0 at address 8 and its stack
    pointer at 2048; the low addresses are for users only. *)
Definition demo_tf : Z := KERNBASE.
Definition handler_proc (pt : Z) : proc :=
  proc0 <| p_state := USED |> <| p_pagetable := pt |> <| p_pendingsignals := 1 |>
    <| p_signalhandlers ::= <[0%nat := 8]> |>
    <| p_threads ::= alter (fun t => t <| t_state := t_RUNNING |> <| t_trapframe := demo_tf |>) 0%nat |>.
Definition handler_state (s : kstate) (pt : Z) : kstate :=
  s <| c_proc := Some 0%nat |> <| c_thread := Some (0, 0)%nat |>
    <| kernel_pagetable := pt |> <| procs := <[0%nat := handler_proc pt]> (replicate NPROC proc0) |>
    <| mem := store64 (mem s) (demo_tf + tf_sp) 2048 |>.

Lemma handler_same_pt s pt l :
  syms s = demo8_syms -> pt_wf s pt l -> same_pt (mem s) (mem (handler_state s pt)) pt.
Proof.
  intros Hs Hwf q b a Hq Ha. apply rd_store64_ne.
  apply (pt_page _ _ _ Hwf) in Hq as [[_ [Hb _]] _]. rewrite Hs in Hb. cbn [sym_end demo8_syms] in Hb.
  unfold demo_tf, tf_sp, PHYSTOP, KERNBASE, PGSIZE in *. lia.
Qed.

Lemma handler_mapped s pt l n va :
  syms s = demo8_syms -> pt_wf s pt l -> (forall n, (n <= 4096)%nat -> mapped (mem s) pt 0 n) ->
  0 <= va -> va + Z.of_nat n <= 4096 -> mapped (mem (handler_state s pt)) pt va n.
Proof.
  intros Hs Hwf Hm Hva Hn i Hi. rewrite (upa_same_pt (mem s)) by (by eapply handler_same_pt).
  replace (va + i) with (0 + (va + i)) by lia. apply (Hm 4096%nat); lia.
Qed.

(** The kernel may not read a user's page. *)
Lemma kernel_pa_user s va a : upa (mem s) (kernel_pagetable s) va = Some a -> kernel_pa s va = None.
Proof.
  unfold upa, kernel_pa, user_page. destruct ((0 <=? va) && (va <? MAXVA)); [|done]. cbn [andb].
  destruct (flag _ PTE_V); [|done]. by destruct (flag _ PTE_U); [rewrite andb_false_r|].
Qed.

Lemma user_handler_panics_witness : exists s, signal_handler [] s = Panic "kerneltrap".
Proof.
  destruct space_exists as (s & pt & l & Hs & Hh & Hwf & _ & Hm). exists (handler_state s pt).
  assert (pt_wf (handler_state s pt) pt l) as Hwf'.
  { apply (pt_wf_ext (s <| mem := mem (handler_state s pt) |>)); [reflexivity|reflexivity|].
    exact (pt_wf_same_pt _ _ _ _ (handler_same_pt s pt l Hs Hwf) Hwf). }
  destruct (handler_mapped s pt l 1 1760 Hs Hwf Hm ltac:(lia) ltac:(lia) 0 ltac:(lia)) as [a Ha].
  destruct (handler_mapped s pt l 1 2048 Hs Hwf Hm ltac:(lia) ltac:(lia) 0 ltac:(lia)) as [b Hb].
  assert (load64 (mem (handler_state s pt)) (demo_tf + tf_sp) = 2048) as Hsp by apply load64_store64_eq.
  apply (user_handler_panics 0 0 (handler_proc pt)
    (thread0 <| t_state := t_RUNNING |> <| t_trapframe := demo_tf |>) l a [] (handler_state s pt)).
  - split; reflexivity.
  - exact Hh.
  - reflexivity.
  - reflexivity.
  - reflexivity.
  - discriminate.
  - discriminate.
  - vm_compute. discriminate.
  - vm_compute. discriminate.
  - discriminate.
  - change (0 < sym_end (syms s)). rewrite Hs. reflexivity.
  - exact Hwf'.
  - apply (handler_mapped s pt l 8 8 Hs Hwf Hm); lia.
  - apply (handler_mapped s pt l 4 0 Hs Hwf Hm); lia.
  - cbn [t_trapframe upd]. rewrite Hsp. exact Ha.
  - cbn [t_trapframe upd]. rewrite Hsp. eapply kernel_pa_user. exact Hb.
Defined.
