(* ===== verification/Syscall.v ===== *)
(** * System call arguments and the process system calls: kernel/syscall.c, kernel/sysproc.c

    A handler returns the 64-bit value that [syscall] stores in the caller's a0; an [int] is
    sign-extended to it. *)

From stdpp Require Import base numbers list gmap strings.
From S2P Require Import Prelude Mem Types Kernel Kalloc Vm Sched Bio Log Fs Console File Proc Kthread.

(** ** Arguments *)

Definition fetchaddr (addr : Z) : K (Z * Z) :=
  p <- curproc ;;
  x <- get_proc p ;;
  if (p_sz x <=? addr) || (p_sz x <? u64 (addr + 8)) then retK (-1, 0) else
  r <- copyin (p_pagetable x) addr 8 ;;
  if negb (fst r =? 0) then retK (-1, 0) else retK (0, lget 8 (snd r) 0).

(** The result is the length of the string, or -1, and its characters without the NUL. *)
Definition fetchstr (addr : Z) (max : nat) : K (Z * list Z) :=
  p <- curproc ;;
  x <- get_proc p ;;
  r <- copyinstr (p_pagetable x) addr max ;;
  if fst r <? 0 then retK (fst r, []) else
  let str := removelast (snd r) in
  retK (Z.of_nat (length str), str).

Definition argraw (n : nat) : K Z :=
  t <- curthread ;;
  y <- get_thread t ;;
  match n with
  | 0%nat => tf_load (t_trapframe y) tf_a0
  | 1%nat => tf_load (t_trapframe y) tf_a1
  | 2%nat => tf_load (t_trapframe y) tf_a2
  | 3%nat => tf_load (t_trapframe y) tf_a3
  | 4%nat => tf_load (t_trapframe y) tf_a4
  | 5%nat => tf_load (t_trapframe y) tf_a5
  | _ => panic "argraw"
  end.

Definition argint (n : nat) : K Z := v <- argraw n ;; retK (i32 v).
Definition argaddr (n : nat) : K Z := argraw n.
Definition argstr (n : nat) (max : nat) : K (Z * list Z) := addr <- argaddr n ;; fetchstr addr max.

(** ** sysproc.c *)

Definition sys_exit : K Z := n <- argint 0 ;; exit n.

Definition sys_sigprocmask : K Z := m <- argint 0 ;; sigprocmask_proc m.

Definition sys_sigaction : K Z :=
  signum <- argint 0 ;;
  act <- argaddr 1 ;;
  oldact <- argaddr 2 ;;
  sigaction_proc signum act oldact.

Definition sys_sigret : K Z := sigret_proc.

Definition sys_getpid : K Z := p <- curproc ;; x <- get_proc p ;; retK (p_pid x).

Definition sys_fork : K Z := fork.

Definition sys_wait : K Z := p <- argaddr 0 ;; wait p.

Definition sys_sbrk : K Z :=
  n <- argint 0 ;;
  p <- curproc ;;
  x <- get_proc p ;;
  r <- growproc n ;;
  if r <? 0 then retK (-1) else retK (i32 (p_sz x)).

Definition sys_sleep_body (n ticks0 : Z) (_ : unit) : K (unit + Z) :=
  now <- getsK (fun s => ticks s) ;;
  if u32 (now - ticks0) <? u32 n then
    p <- curproc ;;
    x <- get_proc p ;;
    if negb (p_killed x =? 0) then release L_ticks ;;; retK (inr (-1))
    else sleep CH_ticks L_ticks ;;; retK (inl tt)
  else release L_ticks ;;; retK (inr 0).

Definition sys_sleep : K Z :=
  n <- argint 0 ;;
  acquire L_ticks ;;;
  ticks0 <- getsK (fun s => ticks s) ;;
  blockK (sys_sleep_body n ticks0) tt.

Definition sys_kill : K Z :=
  pid <- argint 0 ;;
  signum <- argint 1 ;;
  kill pid signum.

Definition sys_uptime : K Z :=
  acquire L_ticks ;;;
  xticks <- getsK (fun s => ticks s) ;;
  release L_ticks ;;;
  retK xticks.

Definition sys_kthread_exit : K Z := status <- argint 0 ;; kthread_exit_proc status.

Definition sys_kthread_join : K Z :=
  id <- argint 0 ;;
  status <- argaddr 1 ;;
  kthread_join_proc id status.

Definition sys_kthread_create : K Z :=
  start_func <- argaddr 0 ;;
  stack <- argaddr 1 ;;
  kthread_create_proc start_func stack.

Definition sys_kthread_id : K Z := kthread_id_proc.

Definition sys_bsem_alloc : K Z := bsem_alloc.

(** The descriptor is fetched as a [uint64] and passed as an [int]. *)
Definition sys_bsem_free : K Z := d <- argaddr 0 ;; bsem_free (i32 d) ;;; retK 0.
Definition sys_bsem_down : K Z := d <- argaddr 0 ;; bsem_down (i32 d) ;;; retK 0.
Definition sys_bsem_up : K Z := d <- argaddr 0 ;; bsem_up (i32 d) ;;; retK 0.
