(* ===== verification/Exec.v ===== *)
(** * [exec]: kernel/exec.c *)

From stdpp Require Import base numbers list gmap strings.
From S2P Require Import Prelude Mem Types Kernel Kalloc Vm Sched Bio Log Fs Console File Proc.

Definition ELF_MAGIC : Z := 1179403647.
Definition ELF_PROG_LOAD : Z := 1.
Definition sizeof_elfhdr : Z := 64.
Definition sizeof_proghdr : Z := 56.

(** The fields of [struct elfhdr] and [struct proghdr] the loader uses. *)
Definition elf_magic (h : list Z) : Z := lget 4 h 0.
Definition elf_entry (h : list Z) : Z := lget 8 h 24.
Definition elf_phoff (h : list Z) : Z := lget 8 h 32.
Definition elf_phnum (h : list Z) : Z := lget 2 h 56.
Definition ph_type (h : list Z) : Z := lget 4 h 0.
Definition ph_off (h : list Z) : Z := lget 8 h 8.
Definition ph_vaddr (h : list Z) : Z := lget 8 h 16.
Definition ph_filesz (h : list Z) : Z := lget 8 h 32.
Definition ph_memsz (h : list Z) : Z := lget 8 h 40.

Definition make_dfl_signal (p : nat) : K unit :=
  forK (seq 0 NUMOFSIGNALS) (fun i =>
    x <- get_proc p ;;
    if p_signalhandlers x !!! i =? SIG_IGN then retK tt
    else set_proc p (fun x => x <| p_signalhandlers ::= <[i := SIG_DFL]> |>)).

Definition loadseg_body (pagetable va : Z) (ip : nat) (offset sz : Z) (i : Z) : K (Z + Z) :=
  if negb (i <? sz) then retK (inr 0) else
  pa <- walkaddr pagetable (u64 (va + i)) ;;
  if pa =? 0 then panic "loadseg: address should exist" else
  let n := if sz - i <? PGSIZE then sz - i else PGSIZE in
  r <- readi ip (Kern []) (u32 (offset + i)) n ;;
  modifyK (fun s => s <| mem := wr_list (mem s) pa (io_bytes (snd r)) |>) ;;;
  if negb (fst r =? n) then retK (inr (-1)) else retK (inl (i + PGSIZE)).

Definition loadseg (pagetable va : Z) (ip : nat) (offset sz : Z) : K Z :=
  if negb (va mod PGSIZE =? 0) then panic "loadseg: va must be page aligned" else
  whileK (S (S (Z.to_nat (sz / PGSIZE)))) (loadseg_body pagetable va ip offset sz) 0.

(** The [bad] exit: release the new page table and, while it is still open, the program. *)
Definition exec_bad (pagetable sz : Z) (ip : option nat) : K Z :=
  (if pagetable =? 0 then retK tt else proc_freepagetable pagetable sz) ;;;
  match ip with
  | Some ip => iunlockput ip ;;; end_op
  | None => retK tt
  end ;;;
  retK (-1).

(** The loop over the program headers: [inr (inl sz)] when all segments are loaded, with the
    size reached, [inr (inr sz)] on the way to [bad]. *)
Definition exec_load_body (pagetable : Z) (ip : nat) (phnum : Z) (st : Z * Z * Z)
    : K (Z * Z * Z + (Z + Z)) :=
  let '(i, off, sz) := st in
  if negb (i <? phnum) then retK (inr (inl sz)) else
  r <- readi ip (Kern []) (u32 off) sizeof_proghdr ;;
  let ph := io_bytes (snd r) in
  if negb (fst r =? sizeof_proghdr) then retK (inr (inr sz)) else
  if negb (ph_type ph =? ELF_PROG_LOAD) then retK (inl (i + 1, i32 (off + sizeof_proghdr), sz)) else
  if ph_memsz ph <? ph_filesz ph then retK (inr (inr sz)) else
  if u64 (ph_vaddr ph + ph_memsz ph) <? ph_vaddr ph then retK (inr (inr sz)) else
  sz1 <- uvmalloc pagetable sz (u64 (ph_vaddr ph + ph_memsz ph)) ;;
  if sz1 =? 0 then retK (inr (inr sz)) else
  let sz := sz1 in
  if negb (ph_vaddr ph mod PGSIZE =? 0) then retK (inr (inr sz)) else
  l <- loadseg pagetable (ph_vaddr ph) ip (u32 (ph_off ph)) (u32 (ph_filesz ph)) ;;
  if l <? 0 then retK (inr (inr sz)) else
  retK (inl (i + 1, i32 (off + sizeof_proghdr), sz)).

(** Pushing the argument strings: the stack pointer and the addresses pushed, or nothing on
    the way to [bad]. *)
Fixpoint push_args (pagetable stackbase : Z) (argv : list (list Z)) (sp : Z) (argc : nat)
    (ustack : list Z) : K (option (Z * list Z)) :=
  match argv with
  | [] => retK (Some (sp, ustack))
  | arg :: argv' =>
      if (MAXARG <=? argc)%nat then retK None else
      let sp := u64 (sp - (Z.of_nat (length arg) + 1)) in
      let sp := sp - sp mod 16 in
      if sp <? stackbase then retK None else
      c <- copyout pagetable sp (arg ++ [0]) ;;
      if c <? 0 then retK None
      else push_args pagetable stackbase argv' sp (S argc) (ustack ++ [sp])
  end.

(** The last element of the path, for the process name. *)
Fixpoint last_elem (path last : list Z) : list Z :=
  match path with
  | [] => last
  | c :: path' => last_elem path' (if c =? slash then path' else last)
  end.

(** Committing to the new image, once everything is in place. *)
Definition exec_commit (p : nat) (t : nat * nat) (path : list Z) (pagetable sz entry sp oldsz : Z)
    : K unit :=
  y <- get_thread t ;;
  tf_store (t_trapframe y) tf_a1 sp ;;;
  set_name p (last_elem path path) ;;;
  x <- get_proc p ;;
  let oldpagetable := p_pagetable x in
  set_proc p (fun x => x <| p_pagetable := pagetable |> <| p_sz := sz |>) ;;;
  tf_store (t_trapframe y) tf_epc entry ;;;
  tf_store (t_trapframe y) tf_sp sp ;;;
  proc_freepagetable oldpagetable oldsz.

(** From the end of the loading on: the stack, the arguments and the commit. *)
Definition exec_stack (p : nat) (t : nat * nat) (path : list Z) (argv : list (list Z))
    (pagetable sz entry : Z) : K Z :=
  x <- get_proc p ;;
  let oldsz := p_sz x in
  make_dfl_signal p ;;;
  let sz := PGROUNDUP sz in
  sz1 <- uvmalloc pagetable sz (u64 (sz + 2 * PGSIZE)) ;;
  if sz1 =? 0 then exec_bad pagetable sz None else
  let sz := sz1 in
  uvmclear pagetable (u64 (sz - 2 * PGSIZE)) ;;;
  let stackbase := u64 (sz - PGSIZE) in
  r <- push_args pagetable stackbase argv sz 0 [] ;;
  match r with
  | None => exec_bad pagetable sz None
  | Some (sp, ustack) =>
      let argc := Z.of_nat (length ustack) in
      let sp := u64 (sp - (argc + 1) * 8) in
      let sp := sp - sp mod 16 in
      if sp <? stackbase then exec_bad pagetable sz None else
      c <- copyout pagetable sp (concat (map (bytes_of 8) (ustack ++ [0]))) ;;
      if c <? 0 then exec_bad pagetable sz None else
      exec_commit p t path pagetable sz entry sp oldsz ;;;
      retK argc
  end.

Definition exec (path : list Z) (argv : list (list Z)) : K Z :=
  p <- curproc ;;
  t <- curthread ;;
  killthreads ;;;
  begin_op ;;;
  o <- namei path ;;
  match o with
  | None => end_op ;;; retK (-1)
  | Some ip =>
      ilock (Some ip) ;;;
      r <- readi ip (Kern []) 0 sizeof_elfhdr ;;
      let elf := io_bytes (snd r) in
      if negb (fst r =? sizeof_elfhdr) then exec_bad 0 0 (Some ip) else
      if negb (elf_magic elf =? ELF_MAGIC) then exec_bad 0 0 (Some ip) else
      pagetable <- proc_pagetable p ;;
      if pagetable =? 0 then exec_bad 0 0 (Some ip) else
      l <- whileK (S (Z.to_nat (elf_phnum elf))) (exec_load_body pagetable ip (elf_phnum elf))
             (0, i32 (elf_phoff elf), 0) ;;
      match l with
      | inr sz => exec_bad pagetable sz (Some ip)
      | inl sz =>
          iunlockput ip ;;;
          end_op ;;;
          exec_stack p t path argv pagetable sz (elf_entry elf)
      end
  end.
