(* ===== verification/Sysfile.v ===== *)
(** * The file system calls: kernel/sysfile.c *)

From stdpp Require Import base numbers list gmap strings.
From S2P Require Import Prelude Mem Types Kernel Kalloc Vm Sched Bio Log Fs Console File Proc.
From S2P Require Import Kthread Syscall Exec.

Definition argfd (n : nat) : K (option (nat * nat)) :=
  fd <- argint n ;;
  if (fd <? 0) || (Z.of_nat NOFILE <=? fd) then retK None else
  p <- curproc ;;
  x <- get_proc p ;;
  retK (match p_ofile x !!! Z.to_nat fd with
        | Some f => Some (Z.to_nat fd, f)
        | None => None
        end).

Definition fdalloc (f : nat) : K Z :=
  p <- curproc ;;
  r <- searchK (seq 0 NOFILE) (fun fd =>
    x <- get_proc p ;;
    match p_ofile x !!! fd with
    | None => set_proc p (fun x => x <| p_ofile ::= <[fd := Some f]> |>) ;;; retK (Some (Z.of_nat fd))
    | Some _ => retK None
    end) ;;
  retK (default (-1) r).

Definition clear_ofile (fd : Z) : K unit :=
  p <- curproc ;;
  set_proc p (fun x => x <| p_ofile ::= <[Z.to_nat fd := None]> |>).

Definition sys_dup : K Z :=
  r <- argfd 0 ;;
  match r with
  | None => retK (-1)
  | Some (_, f) =>
      fd <- fdalloc f ;;
      if fd <? 0 then retK (-1) else filedup f ;;; retK fd
  end.

Definition sys_read : K Z :=
  r <- argfd 0 ;;
  match r with
  | None => retK (-1)
  | Some (_, f) => n <- argint 2 ;; p <- argaddr 1 ;; fileread f p n
  end.

Definition sys_write : K Z :=
  r <- argfd 0 ;;
  match r with
  | None => retK (-1)
  | Some (_, f) => n <- argint 2 ;; p <- argaddr 1 ;; filewrite f p n
  end.

Definition sys_close : K Z :=
  r <- argfd 0 ;;
  match r with
  | None => retK (-1)
  | Some (fd, f) => clear_ofile (Z.of_nat fd) ;;; fileclose f ;;; retK 0
  end.

Definition sys_fstat : K Z :=
  r <- argfd 0 ;;
  match r with
  | None => retK (-1)
  | Some (_, f) => st <- argaddr 1 ;; filestat f st
  end.

Definition name0 : list Z := replicate DIRSIZ 0.

(** The [bad] exit of [sys_link]: undo the link count. *)
Definition link_bad (ip : nat) : K Z :=
  ilock (Some ip) ;;;
  set_inode ip (fun x => x <| i_nlink := i16 (i_nlink x - 1) |>) ;;;
  iupdate ip ;;;
  iunlockput ip ;;;
  end_op ;;;
  retK (-1).

Definition sys_link : K Z :=
  old <- argstr 0 MAXPATH ;;
  if fst old <? 0 then retK (-1) else
  new <- argstr 1 MAXPATH ;;
  if fst new <? 0 then retK (-1) else
  begin_op ;;;
  o <- namei (snd old) ;;
  match o with
  | None => end_op ;;; retK (-1)
  | Some ip =>
      ilock (Some ip) ;;;
      x <- get_inode ip ;;
      if i_type x =? T_DIR then iunlockput ip ;;; end_op ;;; retK (-1) else
      set_inode ip (fun x => x <| i_nlink := i16 (i_nlink x + 1) |>) ;;;
      iupdate ip ;;;
      iunlock (Some ip) ;;;
      r <- nameiparent (snd new) name0 ;;
      match fst r with
      | None => link_bad ip
      | Some dp =>
          ilock (Some dp) ;;;
          d <- get_inode dp ;;
          x <- get_inode ip ;;
          l <- (if negb (i_dev d =? i_dev x) then retK (-1) else dirlink dp (snd r) (i_inum x)) ;;
          if l <? 0 then iunlockput dp ;;; link_bad ip else
          iunlockput dp ;;;
          iput ip ;;;
          end_op ;;;
          retK 0
      end
  end.

Definition isdirempty_body (dp : nat) (off : Z) : K (Z + bool) :=
  d <- get_inode dp ;;
  if negb (off <? i_size d) then retK (inr true) else
  de <- read_dirent dp off "isdirempty: readi" ;;
  if negb (de_inum de =? 0) then retK (inr false) else retK (inl (off + sizeof_dirent)).

Definition isdirempty (dp : nat) : K bool :=
  d <- get_inode dp ;;
  whileK (S (S (Z.to_nat (i_size d / sizeof_dirent)))) (isdirempty_body dp) (2 * sizeof_dirent).

Definition dot : list Z := str ".".
Definition dotdot : list Z := str "..".

(** The part of [sys_unlink] after both inodes are locked and the checks have passed. *)
Definition unlink_commit (dp ip : nat) (off : Z) : K Z :=
  w <- writei dp (Kern (replicate 16 0)) off sizeof_dirent ;;
  if negb (w =? sizeof_dirent) then panic "unlink: writei" else
  x <- get_inode ip ;;
  (if i_type x =? T_DIR then
     set_inode dp (fun d => d <| i_nlink := i16 (i_nlink d - 1) |>) ;;; iupdate dp
   else retK tt) ;;;
  iunlockput dp ;;;
  set_inode ip (fun x => x <| i_nlink := i16 (i_nlink x - 1) |>) ;;;
  iupdate ip ;;;
  iunlockput ip ;;;
  end_op ;;;
  retK 0.

Definition sys_unlink : K Z :=
  path <- argstr 0 MAXPATH ;;
  if fst path <? 0 then retK (-1) else
  begin_op ;;;
  r <- nameiparent (snd path) name0 ;;
  match fst r with
  | None => end_op ;;; retK (-1)
  | Some dp =>
      let name := snd r in
      ilock (Some dp) ;;;
      if (namecmp name dot =? 0) || (namecmp name dotdot =? 0) then
        iunlockput dp ;;; end_op ;;; retK (-1)
      else
      l <- dirlookup dp name ;;
      match l with
      | None => iunlockput dp ;;; end_op ;;; retK (-1)
      | Some (ip, off) =>
          ilock (Some ip) ;;;
          x <- get_inode ip ;;
          if i_nlink x <? 1 then panic "unlink: nlink < 1" else
          empty <- (if i_type x =? T_DIR then isdirempty ip else retK true) ;;
          if negb empty then
            iunlockput ip ;;; iunlockput dp ;;; end_op ;;; retK (-1)
          else unlink_commit dp ip off
      end
  end.

Definition create (path : list Z) (type major minor : Z) : K (option nat) :=
  r <- nameiparent path name0 ;;
  match fst r with
  | None => retK None
  | Some dp =>
      let name := snd r in
      ilock (Some dp) ;;;
      l <- dirlookup dp name ;;
      match l with
      | Some (ip, _) =>
          iunlockput dp ;;;
          ilock (Some ip) ;;;
          x <- get_inode ip ;;
          if (type =? T_FILE) && ((i_type x =? T_FILE) || (i_type x =? T_DEVICE)) then retK (Some ip)
          else iunlockput ip ;;; retK None
      | None =>
          d <- get_inode dp ;;
          ip <- ialloc (i_dev d) type ;;
          ilock (Some ip) ;;;
          set_inode ip (fun x => x <| i_major := i16 major |> <| i_minor := i16 minor |>
                                   <| i_nlink := 1 |>) ;;;
          iupdate ip ;;;
          x <- get_inode ip ;;
          (if type =? T_DIR then
             set_inode dp (fun d => d <| i_nlink := i16 (i_nlink d + 1) |>) ;;;
             iupdate dp ;;;
             a <- dirlink ip dot (i_inum x) ;;
             if a <? 0 then panic "create dots" else
             b <- dirlink ip dotdot (i_inum d) ;;
             if b <? 0 then panic "create dots" else retK tt
           else retK tt) ;;;
          c <- dirlink dp name (i_inum x) ;;
          if c <? 0 then panic "create: dirlink" else
          iunlockput dp ;;;
          retK (Some ip)
      end
  end.

(** The inode [sys_open] works on, locked, or nothing when the call has failed. *)
Definition open_inode (path : list Z) (omode : Z) : K (option nat) :=
  if negb (Z.land omode O_CREATE =? 0) then create path T_FILE 0 0 else
  o <- namei path ;;
  match o with
  | None => retK None
  | Some ip =>
      ilock (Some ip) ;;;
      x <- get_inode ip ;;
      if (i_type x =? T_DIR) && negb (omode =? O_RDONLY) then iunlockput ip ;;; retK None
      else retK (Some ip)
  end.

Definition sys_open : K Z :=
  path <- argstr 0 MAXPATH ;;
  if fst path <? 0 then retK (-1) else
  omode <- argint 1 ;;
  begin_op ;;;
  o <- open_inode (snd path) omode ;;
  match o with
  | None => end_op ;;; retK (-1)
  | Some ip =>
      x <- get_inode ip ;;
      if (i_type x =? T_DEVICE) && ((i_major x <? 0) || (NDEV <=? i_major x)) then
        iunlockput ip ;;; end_op ;;; retK (-1)
      else
      a <- filealloc ;;
      match a with
      | None => iunlockput ip ;;; end_op ;;; retK (-1)
      | Some f =>
          fd <- fdalloc f ;;
          if fd <? 0 then fileclose f ;;; iunlockput ip ;;; end_op ;;; retK (-1) else
          (if i_type x =? T_DEVICE then
             set_file f (fun y => y <| f_type := FD_DEVICE |> <| f_major := i_major x |>)
           else set_file f (fun y => y <| f_type := FD_INODE |> <| f_off := 0 |>)) ;;;
          set_file f (fun y => y <| f_ip := Some ip |>
            <| f_readable := (Z.land omode O_WRONLY =? 0) |>
            <| f_writable := negb (Z.land omode O_WRONLY =? 0) || negb (Z.land omode O_RDWR =? 0) |>) ;;;
          (if negb (Z.land omode O_TRUNC =? 0) && (i_type x =? T_FILE) then itrunc ip
           else retK tt) ;;;
          iunlock (Some ip) ;;;
          end_op ;;;
          retK fd
      end
  end.

Definition sys_mkdir : K Z :=
  begin_op ;;;
  path <- argstr 0 MAXPATH ;;
  o <- (if fst path <? 0 then retK None else create (snd path) T_DIR 0 0) ;;
  match o with
  | None => end_op ;;; retK (-1)
  | Some ip => iunlockput ip ;;; end_op ;;; retK 0
  end.

Definition sys_mknod : K Z :=
  begin_op ;;;
  path <- argstr 0 MAXPATH ;;
  o <- (if fst path <? 0 then retK None else
        major <- argint 1 ;;
        minor <- argint 2 ;;
        create (snd path) T_DEVICE (i16 major) (i16 minor)) ;;
  match o with
  | None => end_op ;;; retK (-1)
  | Some ip => iunlockput ip ;;; end_op ;;; retK 0
  end.

Definition sys_chdir : K Z :=
  p <- curproc ;;
  begin_op ;;;
  path <- argstr 0 MAXPATH ;;
  o <- (if fst path <? 0 then retK None else namei (snd path)) ;;
  match o with
  | None => end_op ;;; retK (-1)
  | Some ip =>
      ilock (Some ip) ;;;
      x <- get_inode ip ;;
      if negb (i_type x =? T_DIR) then iunlockput ip ;;; end_op ;;; retK (-1) else
      iunlock (Some ip) ;;;
      y <- get_proc p ;;
      match p_cwd y with Some cwd => iput cwd | None => ub "iput(0)" end ;;;
      end_op ;;;
      set_proc p (fun y => y <| p_cwd := Some ip |>) ;;;
      retK 0
  end.

(** The loop that fetches the arguments of [exec]: the pages allocated so far, the strings
    in them, and whether the array was read to its end. *)
Definition fetch_args_body (uargv : Z) (st : nat * list Z * list (list Z))
    : K (nat * list Z * list (list Z) + list Z * option (list (list Z))) :=
  let '(i, pages, argv) := st in
  if (MAXARG <=? i)%nat then retK (inr (pages, None)) else
  r <- fetchaddr (u64 (uargv + 8 * Z.of_nat i)) ;;
  if fst r <? 0 then retK (inr (pages, None)) else
  if snd r =? 0 then retK (inr (pages, Some argv)) else
  pg <- kalloc ;;
  if pg =? 0 then retK (inr (pages, None)) else
  let pages := pages ++ [pg] in
  str <- fetchstr (snd r) (Z.to_nat PGSIZE) ;;
  if fst str <? 0 then retK (inr (pages, None)) else
  modifyK (fun s => s <| mem := wr_list (mem s) pg (snd str ++ [0]) |>) ;;;
  retK (inl (S i, pages, argv ++ [snd str])).

Definition sys_exec : K Z :=
  path <- argstr 0 MAXPATH ;;
  if fst path <? 0 then retK (-1) else
  uargv <- argaddr 1 ;;
  r <- whileK (S MAXARG) (fetch_args_body uargv) (0%nat, [], []) ;;
  match snd r with
  | Some argv =>
      ret <- exec (snd path) argv ;;
      forK (fst r) kfree ;;;
      retK ret
  | None => forK (fst r) kfree ;;; retK (-1)
  end.

Definition sys_pipe : K Z :=
  p <- curproc ;;
  fdarray <- argaddr 0 ;;
  a <- pipealloc ;;
  let '(r, rf, wf) := a in
  match rf, wf with
  | Some rf, Some wf =>
      if r <? 0 then retK (-1) else
      fd0 <- fdalloc rf ;;
      fd1 <- (if fd0 <? 0 then retK (-1) else fdalloc wf) ;;
      if (fd0 <? 0) || (fd1 <? 0) then
        (if 0 <=? fd0 then clear_ofile fd0 else retK tt) ;;;
        fileclose rf ;;;
        fileclose wf ;;;
        retK (-1)
      else
      x <- get_proc p ;;
      c <- copyout (p_pagetable x) fdarray (bytes_of 4 fd0) ;;
      c <- (if c <? 0 then retK (-1)
            else copyout (p_pagetable x) (u64 (fdarray + 4)) (bytes_of 4 fd1)) ;;
      if c <? 0 then
        clear_ofile fd0 ;;;
        clear_ofile fd1 ;;;
        fileclose rf ;;;
        fileclose wf ;;;
        retK (-1)
      else retK 0
  | _, _ => retK (-1)
  end.
