(* ===== verification/Trap.v ===== *)
(** * Traps: kernel/trap.c and the dispatcher of kernel/syscall.c

    The supervisor's registers are the part of the state named [csr].  [devintr] takes the
    interrupt the PLIC hands over and the disk's interrupt handler as arguments; the write with
    which [plic_complete] ends an interrupt goes to the PLIC's register in memory. *)

From stdpp Require Import base numbers list gmap strings.
From S2P Require Import Prelude Mem Boot Printf Types Kernel Kalloc Vm Sched Bio Log Fs Console File Proc.
From S2P Require Import Kthread Signal Syscall Exec Sysfile.

Definition get_csr : K csrs := getsK (fun s => csr s).
Definition set_csr (f : csrs -> csrs) : K unit := modifyK (fun s => s <| csr ::= f |>).
Definition w_stvec (v : Z) : K unit := set_csr (fun c => c <| r_stvec := v |>).
Definition w_sepc (v : Z) : K unit := set_csr (fun c => c <| r_sepc := v |>).
Definition w_sstatus (v : Z) : K unit := set_csr (fun c => c <| r_sstatus := v |>).
Definition intr_on : K unit := set_csr (fun c => c <| r_sstatus := Z.lor (r_sstatus c) SSTATUS_SIE |>).
Definition intr_off : K unit :=
  set_csr (fun c => c <| r_sstatus := Z.land (r_sstatus c) (Z.lnot SSTATUS_SIE) |>).
Definition intr_get : K bool :=
  c <- get_csr ;; retK (negb (Z.land (r_sstatus c) SSTATUS_SIE =? 0)).

(** ** The dispatcher *)

Definition syscalls (num : Z) : option (K Z) :=
  match num with
  | 1 => Some sys_fork | 2 => Some sys_exit | 3 => Some sys_wait | 4 => Some sys_pipe
  | 5 => Some sys_read | 6 => Some sys_kill | 7 => Some sys_exec | 8 => Some sys_fstat
  | 9 => Some sys_chdir | 10 => Some sys_dup | 11 => Some sys_getpid | 12 => Some sys_sbrk
  | 13 => Some sys_sleep | 14 => Some sys_uptime | 15 => Some sys_open | 16 => Some sys_write
  | 17 => Some sys_mknod | 18 => Some sys_unlink | 19 => Some sys_link | 20 => Some sys_mkdir
  | 21 => Some sys_close | 22 => Some sys_sigprocmask | 23 => Some sys_sigaction
  | 24 => Some sys_sigret | 25 => Some sys_kthread_exit | 26 => Some sys_kthread_create
  | 27 => Some sys_kthread_id | 28 => Some sys_kthread_join | 29 => Some sys_bsem_alloc
  | 30 => Some sys_bsem_free | 31 => Some sys_bsem_down | 32 => Some sys_bsem_up
  | _ => None
  end.

Definition syscall : K unit :=
  p <- curproc ;;
  t <- curthread ;;
  y <- get_thread t ;;
  num <- tf_load (t_trapframe y) tf_a7 ;;
  let num := i32 num in
  match syscalls num with
  | Some f =>
      r <- f ;;
      y <- get_thread t ;;
      tf_store (t_trapframe y) tf_a0 (u64 r)
  | None =>
      x <- get_proc p ;;
      printf (str "%d %s: unknown sys call %d" ++ [10])
        [AInt (p_pid x); AStr (Some (until_nul (p_name x))); AInt num] ;;;
      y <- get_thread t ;;
      tf_store (t_trapframe y) tf_a0 (u64 (-1))
  end.

(** ** Interrupts *)

Definition trapinit : K unit := initlock L_ticks.
Definition trapinithart : K unit := v <- getsK (fun s => sym_kernelvec (syms s)) ;; w_stvec v.

Definition clockintr : K unit :=
  acquire L_ticks ;;;
  modifyK (fun s => s <| ticks := u32 (ticks s + 1) |>) ;;;
  wakeup CH_ticks ;;;
  release L_ticks.

Definition devintr (irq : Z) (virtio_disk_intr : K unit) : K Z :=
  c <- get_csr ;;
  if negb (Z.land (r_scause c) (2 ^ 63) =? 0) && (Z.land (r_scause c) 255 =? 9) then
    (if irq =? UART0_IRQ then uartintr
     else if irq =? VIRTIO0_IRQ then virtio_disk_intr
     else if negb (irq =? 0) then printf (str "unexpected interrupt irq=%d" ++ [10]) [AInt irq]
     else retK tt) ;;;
    (if negb (irq =? 0) then modifyK (fun s => s <| mem := store 4 (mem s) (PLIC_SCLAIM (r_tp c)) irq |>)
     else retK tt) ;;;
    retK 1
  else if r_scause c =? 2 ^ 63 + 1 then
    (if r_tp c =? 0 then clockintr else retK tt) ;;;
    set_csr (fun c => c <| r_sip := Z.land (r_sip c) (Z.lnot 2) |>) ;;;
    retK 2
  else retK 0.

(** ** To and from user space *)

(** [usertrapret] ends in a jump to [userret] with the user's trapframe and page table. *)
Definition usertrapret : K (Z * Z) :=
  p <- curproc ;;
  t <- curthread ;;
  x <- get_proc p ;;
  y <- get_thread t ;;
  let tf := t_trapframe y in
  tf_copy (p_user_trap_frame_backup x) tf ;;;
  intr_off ;;;
  sy <- getsK (fun s => syms s) ;;
  w_stvec (u64 (TRAMPOLINE + (sym_uservec sy - sym_trampoline sy))) ;;;
  c <- get_csr ;;
  tf_store tf tf_kernel_satp (r_satp c) ;;;
  tf_store tf tf_kernel_sp (u64 (t_kstack y + PGSIZE)) ;;;
  tf_store tf tf_kernel_trap (sym_usertrap sy) ;;;
  tf_store tf tf_kernel_hartid (r_tp c) ;;;
  c <- get_csr ;;
  w_sstatus (Z.lor (Z.land (r_sstatus c) (Z.lnot SSTATUS_SPP)) SSTATUS_SPIE) ;;;
  epc <- tf_load tf tf_epc ;;
  w_sepc epc ;;;
  signal_handler ;;;
  x <- get_proc p ;;
  retK (u64 (TRAPFRAME + sizeof_trapframe * Z.of_nat (snd t)), MAKE_SATP (p_pagetable x)).

Definition usertrap (irq : Z) (virtio_disk_intr : K unit) : K (Z * Z) :=
  c <- get_csr ;;
  if negb (Z.land (r_sstatus c) SSTATUS_SPP =? 0) then panic "usertrap: not from user mode" else
  sy <- getsK (fun s => syms s) ;;
  w_stvec (sym_kernelvec sy) ;;;
  p <- curproc ;;
  t <- curthread ;;
  y <- get_thread t ;;
  tf_store (t_trapframe y) tf_epc (r_sepc c) ;;;
  which_dev <- (if r_scause c =? 8 then
                  x <- get_proc p ;;
                  if negb (p_killed x =? 0) then exit (-1) else
                  epc <- tf_load (t_trapframe y) tf_epc ;;
                  tf_store (t_trapframe y) tf_epc (u64 (epc + 4)) ;;;
                  intr_on ;;;
                  syscall ;;;
                  retK 0
                else
                  d <- devintr irq virtio_disk_intr ;;
                  if negb (d =? 0) then retK d
                  else
                    x <- get_proc p ;;
                    printf (str "usertrap(): unexpected scause %p pid=%d" ++ [10])
                      [APtr (r_scause c); AInt (p_pid x)] ;;;
                    printf (str "            sepc=%p stval=%p" ++ [10])
                      [APtr (r_sepc c); APtr (r_stval c)] ;;;
                    set_proc p (fun x => x <| p_killed := 1 |>) ;;;
                    retK 0) ;;
  x <- get_proc p ;;
  if negb (p_killed x =? 0) then exit (-1) else
  (if which_dev =? 2 then yield else retK tt) ;;;
  usertrapret.

(** What an unrecognised trap prints before the panic is not part of the outcome. *)
Definition kerneltrap (irq : Z) (virtio_disk_intr : K unit) : K unit :=
  c <- get_csr ;;
  if Z.land (r_sstatus c) SSTATUS_SPP =? 0 then panic "kerneltrap: not from supervisor mode" else
  i <- intr_get ;;
  if i then panic "kerneltrap: interrupts enabled" else
  which_dev <- devintr irq virtio_disk_intr ;;
  if which_dev =? 0 then panic "kerneltrap" else
  t <- mythread ;;
  (match t with
   | Some t =>
       y <- get_thread t ;;
       if (which_dev =? 2) && bool_decide (t_state y = t_RUNNING) then yield else retK tt
   | None => retK tt
   end) ;;;
  w_sepc (r_sepc c) ;;;
  w_sstatus (r_sstatus c).

(** A new thread starts here, holding its process's lock from the scheduler. *)
Definition forkret : K (Z * Z) :=
  p <- curproc ;;
  release (L_proc p) ;;;
  first <- getsK (fun s => forkret_first s) ;;
  (if first : bool then
     modifyK (fun s => s <| forkret_first := false |>) ;;;
     fsinit ROOTDEV
   else retK tt) ;;;
  usertrapret.
