(* ===== verification/Main.v ===== *)
(** * Booting the kernel: kernel/main.c

    [main] runs on every hart after [start] (Boot.v).  Hart 0 initialises the devices and the
    subsystems and creates the first process; the others wait for it, turn on paging and take
    interrupts.  All end in the scheduler.  The registers of the devices are words of the
    physical memory; what the disk answers while it is probed is the function [mmio]. *)

From stdpp Require Import base numbers list gmap strings.
From S2P Require Import Asm Boot Virtio Prelude Mem Printf Types Kernel Riscv Kalloc Vm Sched Bio Log Fs Console File Proc.
From S2P Require Import Kthread Signal Syscall Exec Sysfile Trap.

(** ** The serial port: kernel/uart.c *)

Definition THR : Z := 0.
Definition IER : Z := 1.
Definition IER_RX_ENABLE : Z := Z.shiftl 1 0.
Definition IER_TX_ENABLE : Z := Z.shiftl 1 1.
Definition FCR : Z := 2.
Definition FCR_FIFO_ENABLE : Z := Z.shiftl 1 0.
Definition FCR_FIFO_CLEAR : Z := Z.shiftl 3 1.
Definition LCR : Z := 3.
Definition LCR_EIGHT_BITS : Z := Z.shiftl 3 0.
Definition LCR_BAUD_LATCH : Z := Z.shiftl 1 7.

Definition WriteReg (reg v : Z) : K unit := modifyK (fun s => s <| mem := wr (mem s) (UART0 + reg) v |>).

Definition uartinit : K unit :=
  WriteReg IER 0 ;;;
  WriteReg LCR LCR_BAUD_LATCH ;;;
  WriteReg 0 3 ;;;
  WriteReg 1 0 ;;;
  WriteReg LCR LCR_EIGHT_BITS ;;;
  WriteReg FCR (Z.lor FCR_FIFO_ENABLE FCR_FIFO_CLEAR) ;;;
  WriteReg IER (Z.lor IER_TX_ENABLE IER_RX_ENABLE) ;;;
  initlock L_uart.

(** The console is the only entry of [devsw]. *)
Definition consoleinit : K unit :=
  initlock L_cons ;;;
  uartinit.

Definition printfinit : K unit := initlock L_pr.

(** ** The interrupt controller and the disk *)

(** The executing hart: its id is in [tp]. *)
Definition hart_of (s : kstate) : hart := Hart (set tp (r_tp (csr s)) (fun _ => 0)) (fun _ => 0) (mem s) Supervisor_mode 0.
Definition on_hart (f : hart -> hart) : K unit := modifyK (fun s => s <| mem := h_mem (f (hart_of s)) |>).
Definition cpu_id : K Z := getsK (fun s => Boot.cpuid (hart_of s)).

Definition disk_init (mmio : Z -> Z) (pages : Z) : K unit :=
  initlock L_vdisk ;;;
  match virtio_disk_init mmio pages with
  | inl msg => panic msg
  | inr (_, writes) => forK writes (fun w => modifyK (fun s => s <| mem := store 4 (mem s) (VIRTIO0 + fst w) (snd w) |>))
  end.

(** ** The scheduler, for [rounds] rounds of its endless loop *)

Definition scheduler (rounds : nat) (run : nat * nat -> K unit) : K unit :=
  modifyK (fun s => s <| c_proc := None |>) ;;;
  whileK rounds (fun _ : unit => intr_on ;;; scheduler_round run ;;; retK (inl tt)) tt.

(** ** main.c *)

Definition newline : list Z := [10].

Section Main.
Context (mmio : Z -> Z) (pages : Z).

(** Hart 0, up to [started = 1]. *)
Definition boot_hart : K unit :=
  consoleinit ;;;
  printfinit ;;;
  printf newline [] ;;;
  printf (str "xv6 kernel is booting" ++ newline) [] ;;;
  printf newline [] ;;;
  kinit ;;;
  kvminit ;;;
  kvminithart ;;;
  procinit ;;;
  trapinit ;;;
  trapinithart ;;;
  on_hart plicinit ;;;
  on_hart plicinithart ;;;
  binit ;;;
  iinit ;;;
  fileinit ;;;
  disk_init mmio pages ;;;
  userinit ;;;
  initsems.

(** The other harts, once [started] is 1. *)
Definition join_hart : K unit :=
  id <- cpu_id ;;
  printf (str "hart %d starting" ++ newline) [AInt id] ;;;
  kvminithart ;;;
  trapinithart ;;;
  on_hart plicinithart.

Definition main (rounds : nat) (run : nat * nat -> K unit) : K unit :=
  id <- cpu_id ;;
  (if id =? 0 then boot_hart else join_hart) ;;;
  scheduler rounds run.
End Main.
