(* ===== verification/Typing.v ===== *)
(** * Well-typed kernel states, and operations that keep them

    [wt s]: every table has the size of its declaration, every pointer from one structure to
    another points into its table, and every buffer has its length.  C guarantees none of this:
    it is what the code has to maintain.  [typed c P] says that [c], run in a well-typed state
    under interference that keeps states well typed, leaves a well-typed state, returns a value
    with [P], and never accesses a table outside of its bounds.  The rules are compositional;
    the tactic [typed] follows the code and finds the functions it calls in the database. *)

From stdpp Require Import base numbers list gmap strings.
From S2P Require Import Prelude Mem Types Kernel.

(** ** The types of the structures *)

(** A pointer into a table of [n] entries, or null. *)
Definition ref (n : nat) (o : option nat) : Prop := match o with Some i => (i < n)%nat | None => True end.
Definition tref (t : nat * nat) : Prop := (fst t < NPROC)%nat /\ (snd t < NTHREAD)%nat.
Definition otref (o : option (nat * nat)) : Prop := match o with Some t => tref t | None => True end.

(** An array of [n] elements of a type. *)
Definition tbl {A} (n : nat) (P : A -> Prop) (l : list A) : Prop := length l = n /\ Forall P l.

Definition wt_thread (t : thread) : Prop := ref NPROC (t_tparent t).

Record wt_proc (p : proc) : Prop := {
  wt_parent : ref NPROC (p_parent p);
  wt_threads : tbl NTHREAD wt_thread (p_threads p);
  wt_ofile : tbl NOFILE (ref NFILE) (p_ofile p);
  wt_cwd : ref NINODE (p_cwd p);
  wt_name : length (p_name p) = 16%nat;
  wt_handlers : length (p_signalhandlers p) = NUMOFSIGNALS;
  wt_masks : length (p_signalmasks p) = NUMOFSIGNALS }.

Record wt_bsem (b : binarySemaphore) : Prop := {
  wt_waiting : tbl NUM_OF_THREADS otref (bs_threads b);
  wt_current : otref (bs_currentThread b) }.

Record wt_buf (b : buf) : Prop := {
  wt_next : (b_next b <= NBUF)%nat;
  wt_prev : (b_prev b <= NBUF)%nat;
  wt_data : length (b_data b) = Z.to_nat BSIZE }.

Definition wt_inode (x : inode) : Prop := length (i_addrs x) = 13%nat.
Definition wt_file (f : file) : Prop := ref NINODE (f_ip f).

Record wt_pipe (p : pipe) : Prop := {
  wt_pdata : length (pi_data p) = Z.to_nat PIPESIZE;
  wt_nread : 0 <= pi_nread p < 2 ^ 32;
  wt_nwrite : 0 <= pi_nwrite p < 2 ^ 32 }.

Record wt_console (c : console) : Prop := {
  wt_input : length (cn_buf c) = Z.to_nat INPUT_BUF;
  wt_r : 0 <= cn_r c < 2 ^ 32;
  wt_w : 0 <= cn_w c < 2 ^ 32;
  wt_e : 0 <= cn_e c < 2 ^ 32 }.

Record wt_uart (u : uart) : Prop := {
  wt_tx : length (ut_buf u) = Z.to_nat UART_TX_BUF_SIZE;
  wt_uart_w : 0 <= ut_w u < 2 ^ 64;
  wt_uart_r : 0 <= ut_r u < 2 ^ 64 }.

Record wt (s : kstate) : Prop := {
  wt_procs : tbl NPROC wt_proc (procs s);
  wt_init : ref NPROC (initproc s);
  wt_cproc : ref NPROC (c_proc s);
  wt_cthread : otref (c_thread s);
  wt_bsems : tbl MAX_BSEM wt_bsem (bsems s);
  wt_bcache : tbl (S NBUF) wt_buf (bcache s);
  wt_log : length (lh_block (log s)) = Z.to_nat LOGSIZE;
  wt_itable : tbl NINODE wt_inode (itable s);
  wt_ftable : tbl NFILE wt_file (ftable s);
  wt_pipes : map_Forall (fun _ => wt_pipe) (pipes s);
  wt_cons : wt_console (cons_dev s);
  wt_uartd : wt_uart (uart_dev s);
  wt_disk : map_Forall (fun _ b => length b = Z.to_nat BSIZE) (dk_blocks (disk s)) }.

(** ** Arrays *)

Section Tables.
Context {A : Type} (n : nat) (P : A -> Prop).
Implicit Types (l : list A).

Lemma tbl_alter f i l : (forall x, P x -> P (f x)) -> tbl n P l -> tbl n P (alter f i l).
Proof. intros Hf [Hl Hall]. split; [by rewrite length_alter|]. apply Forall_alter; auto. Qed.
Lemma tbl_insert i x l : P x -> tbl n P l -> tbl n P (<[i := x]> l).
Proof. intros Hx [Hl Hall]. split; [by rewrite length_insert|]. by apply Forall_insert. Qed.
Lemma tbl_lookup i x l : tbl n P l -> l !! i = Some x -> P x.
Proof. intros [_ Hall]. by apply Forall_lookup_1. Qed.
Lemma tbl_some i l : tbl n P l -> (i < n)%nat -> exists x, l !! i = Some x /\ P x.
Proof.
  intros Ht Hi. destruct (lookup_lt_is_Some_2 l i) as [x Hx]; [by rewrite (proj1 Ht)|].
  exists x. split; [done|by eapply tbl_lookup].
Qed.
Lemma tbl_total `{!Inhabited A} i l : P inhabitant -> tbl n P l -> P (l !!! i).
Proof.
  intros Hd Ht. rewrite list_lookup_total_alt. destruct (l !! i) eqn:E; [by eapply tbl_lookup|done].
Qed.
End Tables.

(** ** Operations *)

(** The accesses the code does not check: indices that a user program or the disk supplies, null
    pointers and pointers to a pipe, and values that were never stored.  The tables of
    processes, threads, inodes, buffers and files are not among them. *)
Definition unchecked_indices : list string :=
  ["signalhandlers out of bounds"; "Bsems index"; "log.lh.block out of bounds"].
Definition unchecked_pointers : list string :=
  ["myproc() is null"; "mythread() is null"; "null trapframe"; "null tparent"; "pipe pointer";
   "idup(0)"; "iput(0)"; "readi(0)"; "writei(0)"; "stati(0)"; "userinit: allocproc failed"].
Definition uninitialised_values : list string :=
  ["uninitialised sa_handler"; "uninitialised sigmask"; "printf: missing argument"].
Definition known_fault (why : string) : Prop :=
  why ∈ unchecked_indices ++ unchecked_pointers ++ uninitialised_values.

Definition wt_env (e : interference) : Prop := Forall (fun f => forall s, wt s -> wt (f s)) e.

Definition typed {A} (c : K A) (P : A -> Prop) : Prop := forall e s, wt_env e -> wt s ->
  match c e s with
  | Ok a e' s' => P a /\ wt_env e' /\ wt s'
  | Switched s' => wt s'
  | UB why => known_fault why
  | Panic _ | OutOfFuel => True
  end.

Definition any {A} : A -> Prop := fun _ => True.
Definition opt {A} (P : A -> Prop) (o : option A) : Prop := match o with Some a => P a | None => True end.

Section Rules.
Context {A B : Type}.
Implicit Types (P Q : A -> Prop).

Lemma typed_weaken (c : K A) P Q : typed c P -> (forall a, P a -> Q a) -> typed c Q.
Proof. intros Hc HPQ e s He Hs. specialize (Hc e s He Hs). destruct (c e s); naive_solver. Qed.
Lemma typed_any (c : K A) P : typed c P -> typed c any.
Proof. intros H. eapply typed_weaken; [exact H|]. done. Qed.
Lemma typed_ret (a : A) P : P a -> typed (retK a) P.
Proof. by intros H e s He Hs. Qed.
Lemma typed_gets (f : kstate -> A) P : (forall s, wt s -> P (f s)) -> typed (getsK f) P.
Proof. intros H e s He Hs. cbn. auto. Qed.
Lemma typed_panic msg P : typed (panic msg) P.
Proof. by intros e s He Hs. Qed.
Lemma typed_ub why P : known_fault why -> typed (ub why) P.
Proof. by intros H e s He Hs. Qed.
Lemma typed_fuel P : typed (fun _ _ => OutOfFuel) P.
Proof. by intros e s He Hs. Qed.
Lemma typed_bind (c : K B) (k : B -> K A) (R : B -> Prop) P :
  typed c R -> (forall b, R b -> typed (k b) P) -> typed (bindK c k) P.
Proof.
  intros Hc Hk e s He Hs. specialize (Hc e s He Hs). unfold bindK. destruct (c e s) as [b e' s'| | | |]; try done.
  destruct Hc as (Hb & He' & Hs'). by apply Hk.
Qed.
End Rules.

Lemma typed_modify f : (forall s, wt s -> wt (f s)) -> typed (modifyK f) any.
Proof. intros H e s He Hs. cbn. split; [exact I|]. auto. Qed.

Lemma typed_forK {X} (l : list X) body : (forall x, x ∈ l -> typed (body x) any) -> typed (forK l body) any.
Proof.
  intros H. induction l as [|x l IH]; cbn; [by apply typed_ret|].
  eapply typed_bind; [apply H; by left|]. intros _ _. apply IH. intros y Hy. apply H. by right.
Qed.

Lemma typed_searchK {X R} (P : R -> Prop) (l : list X) (body : X -> K (option R)) :
  (forall x, x ∈ l -> typed (body x) (opt P)) -> typed (searchK l body) (opt P).
Proof.
  intros H. induction l as [|x l IH]; cbn; [by apply typed_ret|].
  eapply typed_bind; [apply H; by left|]. intros [v|] Hv; [by apply typed_ret|]. apply IH. intros y Hy. apply H. by right.
Qed.

(** The values a loop goes on with have [I], the result has [P]. *)
Definition loop {A R} (I : A -> Prop) (P : R -> Prop) (r : A + R) : Prop := match r with inl a => I a | inr v => P v end.

Lemma typed_whileK {A R} (I : A -> Prop) (P : R -> Prop) n (body : A -> K (A + R)) a :
  (forall a, I a -> typed (body a) (loop I P)) -> I a -> typed (whileK n body a) P.
Proof.
  intros H. revert a. induction n as [|n IH]; intros a Ha; cbn; [apply typed_fuel|].
  eapply typed_bind; [by apply H|]. intros [a'|v] Hr; [by apply IH|by apply typed_ret].
Qed.

(** A loop whose variables are plain numbers. *)
Lemma typed_loop {A R} n (body : A -> K (A + R)) a :
  (forall a, typed (body a) any) -> typed (whileK n body a) any.
Proof.
  intros H. apply (typed_whileK any any); [|done]. intros a' _. eapply typed_weaken; [apply H|]. by intros [|].
Qed.

Lemma typed_holding l : typed (holding l) any.
Proof. by apply typed_gets. Qed.
Lemma wt_held s h : wt s -> wt (s <| held := h |>).
Proof. intros []. split; assumption. Qed.
Lemma typed_acquire l : typed (acquire l) any.
Proof.
  eapply typed_bind; [apply typed_holding|]. intros [|] _; [apply typed_panic|]. apply typed_modify. intros s. apply wt_held.
Qed.
Lemma typed_release l : typed (release l) any.
Proof.
  eapply typed_bind; [apply typed_holding|]. intros [|] _; [|apply typed_panic]. apply typed_modify. intros s. apply wt_held.
Qed.
Lemma typed_initlock l : typed (initlock l) any.
Proof. apply typed_modify. intros s. apply wt_held. Qed.

(** ** Automation *)

Create HintDb typed discriminated.
#[export] Hint Constants Opaque : typed.
#[export] Hint Resolve typed_holding typed_acquire typed_release typed_initlock : typed.

Lemma seq_lt n x : x ∈ seq 0 n -> (x < n)%nat.
Proof. intros H. apply elem_of_seq in H. lia. Qed.

Lemma ref_some n i : (i < n)%nat -> ref n (Some i).
Proof. done. Qed.
Lemma ref_none n : ref n None.
Proof. done. Qed.
Lemma otref_some t : tref t -> otref (Some t).
Proof. done. Qed.
Lemma otref_none : otref None.
Proof. done. Qed.
#[export] Hint Resolve ref_some ref_none otref_some otref_none : typed.

(** What remains about values: bounds, and null pointers; a goal it does not solve is left. *)
Ltac typed_side :=
  cbn [loop opt ref otref fst snd any] in *; unfold any in *;
  first [ assumption | exact I | done | solve [eauto with typed] | lia
        | solve [repeat case_match; cbn in *; first [exact I | assumption | done | eauto with typed]] | idtac ].

Ltac listed := unfold known_fault; apply (bool_decide_unpack _); vm_compute; exact I.

(** The operation is a function whose type is known. *)
Ltac typed_call :=
  first [ solve [eauto 4 with typed nocore]
        | eapply typed_weaken; [solve [eauto 4 with typed nocore]|intros; typed_side] ].

Ltac typed_intro :=
  match goal with
  | |- (_ ∈ seq 0 _) -> _ => let H := fresh in intros H; apply seq_lt in H
  | |- any _ -> _ => intros _
  | |- (fun _ => _) _ -> _ => cbn beta; intros ?
  | |- forall _, _ => intros ?
  end.

(** A choice between calls that return values of the same type. *)
Ltac typed_cases :=
  lazymatch goal with
  | |- typed (match ?x with _ => _ end) _ => first [is_var x; destruct x | let E := fresh "E" in destruct x eqn:E]; typed_cases
  | |- typed (ub _) _ => apply typed_ub; listed
  | |- typed (panic _) _ => apply typed_panic
  | |- typed _ _ => eauto 4 with typed nocore
  end.

Ltac typed_step :=
  lazymatch goal with
  | |- forall _, _ => typed_intro
  | |- typed (retK _) _ => apply typed_ret; typed_side
  | |- typed (panic _) _ => apply typed_panic
  | |- typed (ub _) _ => apply typed_ub; listed
  | |- typed (fun _ _ => OutOfFuel) _ => apply typed_fuel
  | |- typed (getsK _) _ => apply typed_gets; intros; typed_side
  | |- typed (bindK _ _) _ =>
      first [ eapply typed_bind; [solve [eauto 4 with typed nocore]|]
            | eapply typed_bind; [solve [typed_cases]|]
            | eapply (typed_bind _ _ any) ]
  | |- typed (forK _ _) _ => eapply typed_any, typed_forK
  | |- typed (searchK _ _) (opt _) => apply typed_searchK
  | |- typed (searchK _ _) any => eapply (typed_any _ (opt any)), typed_searchK
  | |- typed (whileK _ _ _) any => apply typed_loop
  | |- typed (match ?x with _ => _ end) _ => first [is_var x; destruct x | let E := fresh "E" in destruct x eqn:E]
  | |- typed _ _ => typed_call
  end.
Ltac typed := repeat typed_step.
