(* ===== verification/TypingKern.v ===== *)
(** * The types of the memory, scheduling, buffer and console operations *)

From stdpp Require Import base numbers list gmap strings.
From S2P Require Import Prelude Mem Printf Types Kernel Riscv Kalloc Vm Sched Bio Log Console Typing.

(** ** Memory *)

Lemma wt_mem s m : wt s -> wt (s <| mem := m |>).
Proof. intros []. split; assumption. Qed.
Lemma wt_free s p : wt s -> wt (s <| freelist := p |>).
Proof. intros []. split; assumption. Qed.
Lemma typed_set_mem (f : kstate -> gmap Z Z) : typed (modifyK (fun s => s <| mem := f s |>)) any.
Proof. apply typed_modify. intros s. apply wt_mem. Qed.
Lemma typed_set_free (f : kstate -> Z) : typed (modifyK (fun s => s <| freelist := f s |>)) any.
Proof. apply typed_modify. intros s. apply wt_free. Qed.
Lemma typed_loadK a : typed (loadK a) any.
Proof. by apply typed_gets. Qed.
Lemma typed_storeK a v : typed (storeK a v) any.
Proof. apply typed_set_mem. Qed.
Lemma typed_memsetK a c n : typed (memsetK a c n) any.
Proof. apply typed_set_mem. Qed.
#[export] Hint Resolve typed_set_mem typed_set_free typed_loadK typed_storeK typed_memsetK : typed.

Lemma typed_kfree pa : typed (kfree pa) any.
Proof. unfold kfree. typed. Qed.
Lemma typed_kalloc : typed kalloc any.
Proof. unfold kalloc. typed. Qed.
#[export] Hint Resolve typed_kfree typed_kalloc : typed.

Lemma typed_freerange a b : typed (freerange a b) any.
Proof. apply typed_loop. typed. Qed.
Lemma typed_walk_level va alloc level pt : typed (walk_level va alloc level pt) any.
Proof. unfold walk_level. typed. Qed.
#[export] Hint Resolve typed_freerange typed_walk_level : typed.
Lemma typed_walk pt va alloc : typed (walk pt va alloc) any.
Proof. unfold walk. typed. Qed.
#[export] Hint Resolve typed_walk : typed.
Lemma typed_walkaddr pt va : typed (walkaddr pt va) any.
Proof. unfold walkaddr. typed. Qed.
Lemma typed_mappages pt va size pa perm : typed (mappages pt va size pa perm) any.
Proof. apply typed_loop. intros [a pa']. unfold mappages_body. typed. Qed.
Lemma typed_uvmunmap pt va n fr : typed (uvmunmap pt va n fr) any.
Proof. unfold uvmunmap, uvmunmap_body. typed. Qed.
#[export] Hint Resolve typed_walkaddr typed_mappages typed_uvmunmap : typed.
Lemma typed_uvmcreate : typed uvmcreate any.
Proof. unfold uvmcreate. typed. Qed.
Lemma typed_uvmdealloc pt o n : typed (uvmdealloc pt o n) any.
Proof. unfold uvmdealloc. typed. Qed.
#[export] Hint Resolve typed_uvmcreate typed_uvmdealloc : typed.
Lemma typed_uvmalloc pt o n : typed (uvmalloc pt o n) any.
Proof. unfold uvmalloc, uvmalloc_body. typed. Qed.
Lemma typed_freewalk d pt : typed (freewalk d pt) any.
Proof. revert pt. induction d; intros pt; cbn [freewalk]; typed. Qed.
#[export] Hint Resolve typed_uvmalloc typed_freewalk : typed.
Lemma typed_uvmfree pt sz : typed (uvmfree pt sz) any.
Proof. unfold uvmfree. typed. Qed.
Lemma typed_uvmcopy old new sz : typed (uvmcopy old new sz) any.
Proof. apply typed_loop. unfold uvmcopy_body. typed. Qed.
Lemma typed_uvmclear pt va : typed (uvmclear pt va) any.
Proof. unfold uvmclear. typed. Qed.
Lemma typed_uvminit pt src : typed (uvminit pt src) any.
Proof. unfold uvminit. typed. Qed.
Lemma typed_copyout pt va src : typed (copyout pt va src) any.
Proof. apply typed_loop. intros [a l]. unfold copyout_body. typed. Qed.
Lemma typed_copyinstr pt va len : typed (copyinstr pt va len) any.
Proof. apply typed_loop. intros [[a l] d]. unfold copyinstr_body. typed. Qed.

(** [copyin] stores no more bytes than it was asked for. *)
Lemma length_rd_list m a n : length (rd_list m a n) = n.
Proof. revert a. induction n; intros a; cbn; auto. Qed.
Lemma typed_copyin pt va len : typed (copyin pt va len) (fun r => (length (snd r) <= len)%nat).
Proof.
  apply (typed_whileK (fun st => length (snd st) + snd (fst st) = len)%nat); [|done].
  intros [[a n] d] Hn. cbn in Hn. unfold copyin_body. destruct n as [|n]; [apply typed_ret; cbn; lia|].
  do 4 typed_step; [apply typed_ret; cbn; lia|].
  eapply (typed_bind _ _ (fun bs => length bs = Nat.min (Z.to_nat (PGSIZE - (a - PGROUNDDOWN a))) (S n)));
    [apply typed_gets; intros; apply length_rd_list|].
  intros bs Hb. apply typed_ret. cbn [loop fst snd]. rewrite length_app. lia.
Qed.
#[export] Hint Resolve typed_uvmfree typed_uvmcopy typed_uvmclear typed_uvminit typed_copyout typed_copyinstr
  typed_copyin : typed.

(** ** The process table *)

(** The fields of a structure that is updated. *)
Ltac wt_fields :=
  lazymatch goal with
  | |- wt_thread _ => try unfold wt_thread in *; cbn; eauto with typed
  | |- wt_inode _ => try unfold wt_inode in *; cbn; rewrite ?length_insert; eauto with typed
  | |- wt_file _ => try unfold wt_file in *; cbn; eauto with typed
  | H : ?T ?x |- ?T _ => destruct H; split; cbn; rewrite ?length_insert; eauto with typed
  end.
Ltac wt_update := intros ? ?; repeat case_match; first [assumption | wt_fields].
#[export] Hint Resolve tbl_insert tbl_alter : typed.
#[export] Hint Extern 1 (forall _, wt_proc _ -> wt_proc _) => wt_update : typed.
#[export] Hint Extern 1 (forall _, wt_thread _ -> wt_thread _) => wt_update : typed.
#[export] Hint Extern 1 (forall _, wt_inode _ -> wt_inode _) => wt_update : typed.
#[export] Hint Extern 1 (forall _, wt_file _ -> wt_file _) => wt_update : typed.
#[export] Hint Extern 1 (forall _, wt_buf _ -> wt_buf _) => wt_update : typed.
#[export] Hint Extern 1 (forall _, wt_pipe _ -> wt_pipe _) => wt_update : typed.
#[export] Hint Extern 1 (forall _, wt_console _ -> wt_console _) => wt_update : typed.
#[export] Hint Extern 1 (forall _, wt_uart _ -> wt_uart _) => wt_update : typed.
#[export] Hint Extern 1 (forall _, wt_bsem _ -> wt_bsem _) => wt_update : typed.
#[export] Hint Extern 0 (tref (_, _)) => (split; cbn; solve [assumption | eauto with typed | unfold NTHREAD; lia]) : typed.

Lemma typed_get_proc p : (p < NPROC)%nat -> typed (get_proc p) wt_proc.
Proof.
  intros Hp e s He Hs. unfold get_proc. destruct (tbl_some _ _ p _ (wt_procs s Hs) Hp) as (x & -> & Hx). done.
Qed.
Lemma typed_set_proc p f : (forall x, wt_proc x -> wt_proc (f x)) -> typed (set_proc p f) any.
Proof. intros Hf. apply typed_modify. intros s []. split; try assumption. by apply tbl_alter. Qed.
Lemma typed_get_thread t : tref t -> typed (get_thread t) wt_thread.
Proof.
  intros [Hp Ht] e s He Hs. unfold get_thread. destruct (tbl_some _ _ _ _ (wt_procs s Hs) Hp) as (x & -> & Hx).
  destruct (tbl_some _ _ _ _ (wt_threads x Hx) Ht) as (y & -> & Hy). done.
Qed.
Lemma wt_alter_thread j f x : (forall t, wt_thread t -> wt_thread (f t)) -> wt_proc x -> wt_proc (alter_thread j f x).
Proof. intros Hf []. split; try assumption. by apply tbl_alter. Qed.
Lemma typed_set_thread t f : (forall x, wt_thread x -> wt_thread (f x)) -> typed (set_thread t f) any.
Proof. intros Hf. apply typed_set_proc. intros x. by apply wt_alter_thread. Qed.
Lemma typed_mythread : typed mythread otref.
Proof. apply typed_gets. intros s Hs. apply Hs. Qed.
Lemma typed_myproc : typed myproc (ref NPROC).
Proof. apply typed_gets. intros s Hs. apply Hs. Qed.
#[export] Hint Resolve typed_get_proc typed_set_proc typed_get_thread typed_set_thread typed_mythread typed_myproc : typed.
Lemma typed_curthread : typed curthread tref.
Proof. unfold curthread. typed. Qed.
Lemma typed_curproc : typed curproc (fun p => (p < NPROC)%nat).
Proof. unfold curproc. typed. Qed.
#[export] Hint Resolve typed_curthread typed_curproc : typed.

Lemma threads_of_ref p t : (p < NPROC)%nat -> t ∈ threads_of p -> tref t.
Proof.
  intros Hp Ht. unfold threads_of in Ht. apply list_elem_of_In, in_map_iff in Ht as (j & <- & Hj).
  apply in_seq in Hj. split; [done|]. cbn. lia.
Qed.
#[export] Hint Resolve threads_of_ref : typed.

(** Pointers found in a structure. *)
Lemma cwd_ref x i : wt_proc x -> p_cwd x = Some i -> (i < NINODE)%nat.
Proof. intros [] E. by rewrite E in *. Qed.
Lemma parent_ref x i : wt_proc x -> p_parent x = Some i -> (i < NPROC)%nat.
Proof. intros [] E. by rewrite E in *. Qed.
Lemma ofile_ref x fd f : wt_proc x -> p_ofile x !!! fd = Some f -> (f < NFILE)%nat.
Proof. intros [] E. assert (ref NFILE (p_ofile x !!! fd)) as H by (eapply tbl_total; done). by rewrite E in H. Qed.
Lemma tparent_ref t i : wt_thread t -> t_tparent t = Some i -> (i < NPROC)%nat.
Proof. intros H E. unfold wt_thread in H. by rewrite E in H. Qed.
Lemma ip_ref f i : wt_file f -> f_ip f = Some i -> (i < NINODE)%nat.
Proof. intros H E. unfold wt_file in H. by rewrite E in H. Qed.
#[export] Hint Resolve cwd_ref parent_ref ofile_ref tparent_ref ip_ref : typed.

(** The fields of the state that hold numbers only, and the current process and thread. *)
Lemma typed_set_nextpid (f : kstate -> Z) : typed (modifyK (fun s => s <| nextpid := f s |>)) any.
Proof. apply typed_modify. intros s []. split; assumption. Qed.
Lemma typed_set_nexttid (f : kstate -> Z) : typed (modifyK (fun s => s <| nexttid := f s |>)) any.
Proof. apply typed_modify. intros s []. split; assumption. Qed.
Lemma typed_set_ticks (f : kstate -> Z) : typed (modifyK (fun s => s <| ticks := f s |>)) any.
Proof. apply typed_modify. intros s []. split; assumption. Qed.
Lemma typed_set_cproc o : ref NPROC o -> typed (modifyK (fun s => s <| c_proc := o |>)) any.
Proof. intros Ho. apply typed_modify. intros s []. split; assumption. Qed.
Lemma typed_set_cthread o : otref o -> typed (modifyK (fun s => s <| c_thread := o |>)) any.
Proof. intros Ho. apply typed_modify. intros s []. split; assumption. Qed.
#[export] Hint Resolve typed_set_nextpid typed_set_nexttid typed_set_ticks typed_set_cproc typed_set_cthread : typed.

Lemma typed_threadinit p : typed (threadinit p) any.
Proof. unfold threadinit. typed. Qed.
#[export] Hint Resolve typed_threadinit : typed.
Lemma typed_procinit : typed procinit any.
Proof. unfold procinit. typed. Qed.
Lemma typed_allocpid : typed allocpid any.
Proof. unfold allocpid. typed. Qed.
Lemma typed_get_tid : typed get_tid any.
Proof. unfold get_tid. typed. Qed.

(** ** Giving up the CPU *)

Lemma wt_resume p t h s : (p < NPROC)%nat -> tref t -> wt s -> wt (resume p t h s).
Proof.
  intros Hp Ht []. split; try assumption. cbn. apply tbl_alter; [|assumption]. intros x. apply wt_alter_thread. by intros y.
Qed.
Lemma typed_swtch p t : (p < NPROC)%nat -> tref t -> typed (swtch p t) any.
Proof.
  intros Hp Ht [|f e] s He Hs; cbn; [done|]. inversion He as [|? ? Hf He']. split; [done|]. split; [done|].
  apply wt_resume; [done..|auto].
Qed.
#[export] Hint Resolve typed_procinit typed_allocpid typed_get_tid typed_swtch : typed.
Lemma typed_sched : typed sched any.
Proof. unfold sched. typed. Qed.
#[export] Hint Resolve typed_sched : typed.
Lemma typed_yield : typed yield any.
Proof. unfold yield. typed. Qed.
Lemma typed_sleep chan lk : typed (sleep chan lk) any.
Proof. unfold sleep, sleep_code. cbn [forK stmtK]. typed. Qed.
Lemma wt_wake chan t : wt_thread t -> wt_thread (wake_thread chan t).
Proof. intros H. unfold wake_thread. by case_decide. Qed.
Lemma typed_wakeup chan : typed (wakeup chan) any.
Proof.
  pose proof (wt_wake chan). unfold wakeup, wakeup_code. apply typed_forK. intros p _.
  cbn [threads_of NTHREAD seq map app forK stmtK]. typed.
Qed.
#[export] Hint Resolve typed_yield typed_sleep typed_wakeup : typed.
Lemma typed_scheduler_round run :
  (forall t, tref t -> typed (run t) any) -> typed (scheduler_round run) any.
Proof. intros Hr. unfold scheduler_round. typed. Qed.

Lemma typed_blockK {A R} (I : A -> Prop) (P : R -> Prop) (body : A -> K (A + R)) a :
  (forall a, I a -> typed (body a) (loop I P)) -> I a -> typed (blockK body a) P.
Proof. intros H Ha e s. by apply (typed_whileK I P). Qed.
Lemma typed_blockN {A R} (I : A -> Prop) (P : R -> Prop) n (body : A -> K (A + R)) a :
  (forall a, I a -> typed (body a) (loop I P)) -> I a -> typed (blockN n body a) P.
Proof. intros H Ha e s. by apply (typed_whileK I P). Qed.
Lemma typed_block {A R} (body : A -> K (A + R)) a :
  (forall a, typed (body a) any) -> typed (blockK body a) any.
Proof. intros H e s. by apply typed_loop. Qed.
Lemma typed_blockn {A R} n (body : A -> K (A + R)) a :
  (forall a, typed (body a) any) -> typed (blockN n body a) any.
Proof. intros H e s. by apply typed_loop. Qed.
#[export] Hint Resolve typed_block typed_blockn : typed.

Lemma typed_either_copyout dst src : typed (either_copyout dst src) any.
Proof. unfold either_copyout. typed. Qed.
Lemma typed_either_copyin src len : typed (either_copyin src len) (fun r => (length (snd r) <= len)%nat).
Proof.
  unfold either_copyin. typed. rewrite length_take. lia.
Qed.
#[export] Hint Resolve typed_either_copyout typed_either_copyin : typed.

(** ** Sleep locks and buffers *)

Definition sref (k : slock) : Prop := match k with SL_buf i => (i < NBUF)%nat | SL_inode i => (i < NINODE)%nat end.
Lemma sref_buf b : (b < NBUF)%nat -> sref (SL_buf b).
Proof. done. Qed.
Lemma sref_inode i : (i < NINODE)%nat -> sref (SL_inode i).
Proof. done. Qed.
#[export] Hint Resolve sref_buf sref_inode : typed.

Lemma typed_get_sleeplock k : sref k -> typed (get_sleeplock k) any.
Proof.
  intros Hk e s He Hs. unfold get_sleeplock. destruct k as [i|i]; cbn in Hk.
  - destruct (tbl_some _ _ i _ (wt_bcache s Hs)) as (x & -> & Hx); [lia|done].
  - by destruct (tbl_some _ _ i _ (wt_itable s Hs) Hk) as (x & -> & Hx).
Qed.
Lemma typed_set_sleeplock k l : typed (set_sleeplock k l) any.
Proof.
  apply typed_modify. intros s []. destruct k; split; try assumption; (apply tbl_alter; [|assumption]); [|done].
  by intros x [].
Qed.
#[export] Hint Resolve typed_get_sleeplock typed_set_sleeplock : typed.
Lemma typed_initsleeplock k : typed (initsleeplock k) any.
Proof. unfold initsleeplock. typed. Qed.
Lemma typed_acquiresleep k : sref k -> typed (acquiresleep k) any.
Proof. intros Hk. unfold acquiresleep. typed. apply typed_block. typed. Qed.
Lemma typed_releasesleep k : typed (releasesleep k) any.
Proof. unfold releasesleep. typed. Qed.
Lemma typed_holdingsleep k : sref k -> typed (holdingsleep k) any.
Proof. intros Hk. unfold holdingsleep. typed. Qed.
#[export] Hint Resolve typed_initsleeplock typed_acquiresleep typed_releasesleep typed_holdingsleep : typed.

Lemma typed_get_buf b : (b < NBUF)%nat -> typed (get_buf b) wt_buf.
Proof.
  intros Hb e s He Hs. unfold get_buf. by destruct (tbl_some _ _ b _ (wt_bcache s Hs)) as (x & -> & Hx); [lia|].
Qed.
Lemma typed_set_bcache f : (forall l, tbl (S NBUF) wt_buf l -> tbl (S NBUF) wt_buf (f l)) ->
  typed (modifyK (fun s => s <| bcache ::= f |>)) any.
Proof. intros Hf. apply typed_modify. intros s []. split; try assumption. by apply Hf. Qed.
Lemma typed_set_buf b f : (forall x, wt_buf x -> wt_buf (f x)) -> typed (set_buf b f) any.
Proof. intros Hf. apply typed_set_bcache. intros l. by apply tbl_alter. Qed.
Lemma wt_zero_block : length zero_block = Z.to_nat BSIZE.
Proof. apply length_replicate. Qed.
#[export] Hint Resolve typed_get_buf typed_set_buf wt_zero_block : typed.

(** The disk has the blocks whole. *)
Lemma disk_block_length s n : wt s -> length (disk_block s n) = Z.to_nat BSIZE.
Proof.
  intros Hs. unfold disk_block. destruct (dk_blocks (disk s) !! n) eqn:E; [|apply wt_zero_block]. by eapply (wt_disk s Hs).
Qed.
Lemma typed_virtio_disk_rw b write : (b < NBUF)%nat -> typed (virtio_disk_rw b write) any.
Proof.
  intros Hb. unfold virtio_disk_rw. eapply typed_bind; [by apply typed_get_buf|]. intros x Hx. destruct write; apply typed_modify.
  - intros s []. split; try assumption. cbn. by apply map_Forall_insert_2; [destruct Hx|].
  - intros s Hs. pose proof (disk_block_length s) as Hd. destruct Hs. split; try assumption. cbn.
    apply tbl_alter; [|assumption]. intros y []. split; try assumption. apply Hd. by split.
Qed.

Lemma wt_buf0 : wt_buf buf0.
Proof. split; cbn; [lia|lia|apply wt_zero_block]. Qed.
Lemma next_of_wt bs b : tbl (S NBUF) wt_buf bs -> (next_of bs b <= NBUF)%nat.
Proof. intros H. apply wt_next, (tbl_total (S NBUF)); [exact wt_buf0|done]. Qed.
Lemma prev_of_wt bs b : tbl (S NBUF) wt_buf bs -> (prev_of bs b <= NBUF)%nat.
Proof. intros H. apply wt_prev, (tbl_total (S NBUF)); [exact wt_buf0|done]. Qed.
Lemma wt_set_next b v bs : (v <= NBUF)%nat -> tbl (S NBUF) wt_buf bs -> tbl (S NBUF) wt_buf (set_next b v bs).
Proof. intros Hv. apply tbl_alter. by intros x []. Qed.
Lemma wt_set_prev b v bs : (v <= NBUF)%nat -> tbl (S NBUF) wt_buf bs -> tbl (S NBUF) wt_buf (set_prev b v bs).
Proof. intros Hv. apply tbl_alter. by intros x []. Qed.
#[export] Hint Resolve typed_virtio_disk_rw next_of_wt prev_of_wt wt_set_next wt_set_prev : typed.
Lemma wt_link_front b bs : (b <= NBUF)%nat -> tbl (S NBUF) wt_buf bs -> tbl (S NBUF) wt_buf (link_front b bs).
Proof. intros Hb Hbs. unfold link_front. cbv zeta. auto 10 with typed. Qed.
Lemma wt_unlink b bs : tbl (S NBUF) wt_buf bs -> tbl (S NBUF) wt_buf (unlink b bs).
Proof. intros Hbs. unfold unlink. cbv zeta. auto 10 with typed. Qed.

Lemma typed_link_front b : (b < NBUF)%nat -> typed (modifyK (fun s => s <| bcache ::= link_front b |>)) any.
Proof. intros Hb. apply typed_set_bcache. intros l. apply wt_link_front. lia. Qed.
Lemma typed_move_front b : (b < NBUF)%nat ->
  typed (modifyK (fun s => s <| bcache ::= (fun bs => link_front b (unlink b bs)) |>)) any.
Proof. intros Hb. apply typed_set_bcache. intros l Hl. apply wt_link_front; [lia|by apply wt_unlink]. Qed.
#[export] Hint Resolve typed_link_front typed_move_front : typed.
Lemma typed_binit : typed binit any.
Proof. unfold binit. typed. Qed.

Lemma find_cached_wt fuel dev n bs b r : tbl (S NBUF) wt_buf bs -> (b <= NBUF)%nat ->
  find_cached fuel dev n bs b = Some r -> ref NBUF r.
Proof.
  intros Hbs. revert b. induction fuel as [|fuel IH]; intros b Hb; cbn [find_cached]; [done|].
  destruct (Nat.eqb_spec b NBUF); [by intros [= <-]|]. destruct (_ && _); [intros [= <-]; cbn; lia|].
  apply IH. by apply next_of_wt.
Qed.
Lemma find_unused_wt fuel bs b r : tbl (S NBUF) wt_buf bs -> (b <= NBUF)%nat ->
  find_unused fuel bs b = Some r -> ref NBUF r.
Proof.
  intros Hbs. revert b. induction fuel as [|fuel IH]; intros b Hb; cbn [find_unused]; [done|].
  destruct (Nat.eqb_spec b NBUF); [by intros [= <-]|]. destruct (_ =? _); [intros [= <-]; cbn; lia|].
  apply IH. by apply prev_of_wt.
Qed.
Lemma typed_scan_cached dev n : typed
  (getsK (fun s => find_cached (S NBUF) dev n (bcache s) (next_of (bcache s) NBUF))) (opt (ref NBUF)).
Proof.
  apply typed_gets. intros s Hs. destruct (find_cached _ _ _ _ _) eqn:E; [|done].
  eapply find_cached_wt; [apply Hs| |exact E]. apply next_of_wt, Hs.
Qed.
Lemma typed_scan_unused : typed
  (getsK (fun s => find_unused (S NBUF) (bcache s) (prev_of (bcache s) NBUF))) (opt (ref NBUF)).
Proof.
  apply typed_gets. intros s Hs. destruct (find_unused _ _ _) eqn:E; [|done].
  eapply find_unused_wt; [apply Hs| |exact E]. apply prev_of_wt, Hs.
Qed.
#[export] Hint Resolve typed_binit typed_scan_cached typed_scan_unused : typed.

Lemma typed_bget dev n : typed (bget dev n) (fun b => (b < NBUF)%nat).
Proof. unfold bget. typed. Qed.
#[export] Hint Resolve typed_bget : typed.
Lemma typed_bread dev n : typed (bread dev n) (fun b => (b < NBUF)%nat).
Proof. unfold bread. typed. Qed.
Lemma typed_bwrite b : (b < NBUF)%nat -> typed (bwrite b) any.
Proof. intros Hb. unfold bwrite. typed. Qed.
Lemma typed_brelse b : (b < NBUF)%nat -> typed (brelse b) any.
Proof. intros Hb. unfold brelse. typed. Qed.
Lemma typed_bpin b : typed (bpin b) any.
Proof. unfold bpin. typed. Qed.
Lemma typed_bunpin b : typed (bunpin b) any.
Proof. unfold bunpin. typed. Qed.
#[export] Hint Resolve typed_bread typed_bwrite typed_brelse typed_bpin typed_bunpin : typed.

(** ** The log *)

Lemma typed_get_log : typed get_log any.
Proof. by apply typed_gets. Qed.
Lemma typed_set_log f : (forall l, length (lh_block (f l)) = length (lh_block l)) -> typed (set_log f) any.
Proof. intros Hf. apply typed_modify. intros s []. split; try assumption. cbn. by rewrite Hf. Qed.
#[export] Hint Resolve typed_get_log typed_set_log : typed.
#[export] Hint Extern 1 (forall l, length (lh_block _) = length (lh_block l)) =>
  (intros ?; cbn; rewrite ?length_insert; reflexivity) : typed.
Lemma typed_lh_get i : typed (lh_get i) any.
Proof. unfold lh_get. typed. Qed.
Lemma typed_lh_set i v : typed (lh_set i v) any.
Proof. unfold lh_set. typed. Qed.
Lemma typed_copy_buf from to : (from < NBUF)%nat -> typed (copy_buf from to) any.
Proof.
  intros Hf. unfold copy_buf. eapply typed_bind; [by apply typed_get_buf|]. intros x Hx. apply typed_set_buf.
  intros y []. split; try assumption. apply Hx.
Qed.
#[export] Hint Resolve typed_lh_get typed_lh_set typed_copy_buf : typed.
Lemma typed_install_trans r : typed (install_trans r) any.
Proof. unfold install_trans. typed. Qed.
Lemma typed_read_head : typed read_head any.
Proof. unfold read_head. typed. Qed.
Lemma typed_write_head : typed write_head any.
Proof. unfold write_head. typed. Qed.
Lemma typed_write_log : typed write_log any.
Proof. unfold write_log. typed. Qed.
#[export] Hint Resolve typed_install_trans typed_read_head typed_write_head typed_write_log : typed.
Lemma typed_commit : typed commit any.
Proof. unfold commit. typed. Qed.
Lemma typed_recover_from_log : typed recover_from_log any.
Proof. unfold recover_from_log. typed. Qed.
#[export] Hint Resolve typed_commit typed_recover_from_log : typed.
Lemma typed_initlog dev b : typed (initlog dev b) any.
Proof. unfold initlog. typed. Qed.
Lemma typed_begin_op : typed begin_op any.
Proof. unfold begin_op. typed. apply typed_block. typed. Qed.
Lemma typed_end_op : typed end_op any.
Proof. unfold end_op. typed. Qed.
Lemma typed_log_write b : (b < NBUF)%nat -> typed (log_write b) any.
Proof. intros Hb. unfold log_write. typed. Qed.
#[export] Hint Resolve typed_initlog typed_begin_op typed_end_op typed_log_write : typed.

(** ** The console *)

Lemma typed_get_uart : typed get_uart any.
Proof. by apply typed_gets. Qed.
Lemma typed_set_uart f : (forall u, wt_uart u -> wt_uart (f u)) -> typed (set_uart f) any.
Proof. intros Hf. apply typed_modify. intros s []. split; try assumption. by apply Hf. Qed.
Lemma typed_get_cons : typed get_cons wt_console.
Proof. apply typed_gets. intros s Hs. apply Hs. Qed.
Lemma typed_set_cons f : (forall c, wt_console c -> wt_console (f c)) -> typed (set_cons f) any.
Proof. intros Hf. apply typed_modify. intros s []. split; try assumption. by apply Hf. Qed.
#[export] Hint Resolve typed_get_uart typed_set_uart typed_get_cons typed_set_cons : typed.
#[export] Hint Resolve u32_range u64_range : typed.
Lemma typed_write_thr c : typed (write_thr c) any.
Proof. unfold write_thr. typed. Qed.
Lemma typed_read_lsr_idle : typed read_lsr_idle any.
Proof. unfold read_lsr_idle. typed. Qed.
#[export] Hint Resolve typed_write_thr typed_read_lsr_idle : typed.
Lemma typed_uartputc_sync c : typed (uartputc_sync c) any.
Proof. apply typed_write_thr. Qed.
Lemma typed_uartstart : typed uartstart any.
Proof. unfold uartstart, uartstart_body. typed. Qed.
#[export] Hint Resolve typed_uartputc_sync typed_uartstart : typed.
Lemma typed_uartputc c : typed (uartputc c) any.
Proof. unfold uartputc. typed. apply typed_block. typed. Qed.
Lemma typed_uartgetc : typed uartgetc any.
Proof. unfold uartgetc. typed. Qed.
Lemma typed_consputc c : typed (consputc c) any.
Proof. unfold consputc. typed. Qed.
#[export] Hint Resolve typed_uartputc typed_uartgetc typed_consputc : typed.
Lemma typed_printf fmt args : typed (printf fmt args) any.
Proof. unfold printf. typed. Qed.
#[export] Hint Resolve typed_printf : typed.
Lemma typed_consolewrite src n : typed (consolewrite src n) any.
Proof. apply typed_loop. intros [i s]. unfold consolewrite_body. typed. Qed.
Lemma typed_consoleread dst n : typed (consoleread dst n) any.
Proof. unfold consoleread. typed. apply typed_blockn. intros [i d]. unfold consoleread_body. typed. Qed.
Lemma typed_procdump : typed procdump any.
Proof. unfold procdump. typed. Qed.
#[export] Hint Resolve typed_consolewrite typed_consoleread typed_procdump : typed.
Lemma typed_consoleintr c : typed (consoleintr c) any.
Proof. unfold consoleintr, kill_line_body. typed. Qed.
#[export] Hint Resolve typed_consoleintr : typed.
Lemma typed_uartintr : typed uartintr any.
Proof. unfold uartintr, uartintr_body. typed. Qed.
#[export] Hint Resolve typed_uartintr : typed.
