(* ===== verification/TypingFs.v ===== *)
(** * The types of the file system and file operations *)

From stdpp Require Import base numbers list gmap strings.
From S2P Require Import Prelude Mem Types Kernel Riscv Kalloc Vm Sched Bio Log Fs FsFacts Console File Typing TypingKern.

(** ** Inodes *)

Lemma typed_get_inode ip : (ip < NINODE)%nat -> typed (get_inode ip) wt_inode.
Proof.
  intros Hi e s He Hs. unfold get_inode. by destruct (tbl_some _ _ ip _ (wt_itable s Hs) Hi) as (x & -> & Hx).
Qed.
Lemma typed_set_inode ip f : (forall x, wt_inode x -> wt_inode (f x)) -> typed (set_inode ip f) any.
Proof. intros Hf. apply typed_modify. intros s []. split; try assumption. by apply tbl_alter. Qed.
Lemma typed_set_sb (f : kstate -> superblock) : typed (modifyK (fun s => s <| sb := f s |>)) any.
Proof. apply typed_modify. intros s []. split; assumption. Qed.
#[export] Hint Resolve typed_get_inode typed_set_inode typed_set_sb : typed.
Lemma wt_buf_data f x : (length (b_data x) = Z.to_nat BSIZE -> length (f (b_data x)) = Z.to_nat BSIZE) ->
  wt_buf x -> wt_buf (x <| b_data ::= f |>).
Proof. intros Hf []. split; try assumption. by apply Hf. Qed.
Lemma wt_set_bit bi x : wt_buf x -> wt_buf (x <| b_data ::= set_bit bi |>).
Proof. apply wt_buf_data. by rewrite length_set_bit. Qed.
Lemma wt_clear_bit bi x : wt_buf x -> wt_buf (x <| b_data ::= clear_bit bi |>).
Proof. apply wt_buf_data. by rewrite length_clear_bit. Qed.
Lemma wt_write_dinode ip x : wt_buf x -> wt_buf (x <| b_data ::= write_dinode ip |>).
Proof. apply wt_buf_data. unfold write_dinode. by rewrite length_lput_words, !lput_length. Qed.
Lemma wt_lput n off v x : wt_buf x -> wt_buf (x <| b_data ::= lput n off v |>).
Proof. apply wt_buf_data. by rewrite lput_length. Qed.
Lemma wt_read_dinode data inum x : wt_inode x -> wt_inode (read_dinode data inum x).
Proof. intros _. apply length_lget_words. Qed.
(** A fresh disk inode. *)
Lemma wt_new_dinode inum v x : wt_buf x -> wt_buf (x <| b_data ::= (fun d =>
  lput 2 (dinode_off inum) v (splice (dinode_off inum) (replicate 64 0) d)) |>).
Proof.
  apply wt_buf_data. intros Hl. rewrite lput_length. pose proof (dinode_off_range inum).
  rewrite length_splice; [done|]. rewrite length_replicate, Hl. change (Z.to_nat BSIZE) with 1024%nat. lia.
Qed.
(** The bytes fit into the buffer from [off] on. *)
Lemma wt_splice off bytes x : (off + length bytes <= Z.to_nat BSIZE)%nat ->
  wt_buf x -> wt_buf (x <| b_data ::= splice off bytes |>).
Proof. intros Hle. apply wt_buf_data. intros Hl. rewrite length_splice; lia. Qed.
#[export] Hint Resolve wt_set_bit wt_clear_bit wt_write_dinode wt_lput wt_read_dinode wt_new_dinode wt_splice : typed.

Lemma typed_readsb dev : typed (readsb dev) any.
Proof. unfold readsb. typed. Qed.
#[export] Hint Resolve typed_readsb : typed.
Lemma typed_fsinit dev : typed (fsinit dev) any.
Proof. unfold fsinit. typed. Qed.
Lemma typed_bzero dev n : typed (bzero dev n) any.
Proof. unfold bzero. typed. Qed.
#[export] Hint Resolve typed_fsinit typed_bzero : typed.
Lemma typed_balloc dev : typed (balloc dev) any.
Proof. unfold balloc. typed. Qed.
Lemma typed_bfree dev b : typed (bfree dev b) any.
Proof. unfold bfree. typed. Qed.
Lemma typed_iinit : typed iinit any.
Proof. unfold iinit. typed. Qed.
#[export] Hint Resolve typed_balloc typed_bfree typed_iinit : typed.

(** A search for an entry of a table. *)
Ltac typed_search n := repeat typed_intro; eapply (typed_bind _ _ (opt (fun i => (i < n)%nat))); [apply typed_searchK|].

Lemma typed_iget dev inum : typed (iget dev inum) (fun i => (i < NINODE)%nat).
Proof. unfold iget. typed_step. typed_search NINODE; [typed|]. intros [i|] Hi; [typed|]. typed_search NINODE; typed. Qed.
Lemma typed_idup ip : (ip < NINODE)%nat -> typed (idup ip) (fun i => (i < NINODE)%nat).
Proof. intros Hi. unfold idup. typed. Qed.
#[export] Hint Resolve typed_iget typed_idup : typed.
Lemma typed_ialloc dev type : typed (ialloc dev type) (fun i => (i < NINODE)%nat).
Proof.
  unfold ialloc. typed_step; [typed|]. typed_search NINODE; typed.
Qed.
#[export] Hint Resolve typed_ialloc : typed.

Lemma typed_iupdate ip : (ip < NINODE)%nat -> typed (iupdate ip) any.
Proof. intros Hi. unfold iupdate. typed. Qed.
#[export] Hint Resolve typed_iupdate : typed.
Lemma typed_ilock ip : ref NINODE ip -> typed (ilock ip) any.
Proof. intros Hi. unfold ilock. typed. Qed.
Lemma typed_iunlock ip : ref NINODE ip -> typed (iunlock ip) any.
Proof. intros Hi. unfold iunlock. typed. Qed.
Lemma typed_itrunc ip : (ip < NINODE)%nat -> typed (itrunc ip) any.
Proof. intros Hi. unfold itrunc. typed. Qed.
#[export] Hint Resolve typed_ilock typed_iunlock typed_itrunc : typed.
Lemma typed_iput ip : (ip < NINODE)%nat -> typed (iput ip) any.
Proof. intros Hi. unfold iput. typed. Qed.
#[export] Hint Resolve typed_iput : typed.
Lemma typed_iunlockput ip : (ip < NINODE)%nat -> typed (iunlockput ip) any.
Proof. intros Hi. unfold iunlockput. typed. Qed.
Lemma typed_bmap ip bn : (ip < NINODE)%nat -> typed (bmap ip bn) any.
Proof. intros Hi. unfold bmap. typed. Qed.
Lemma typed_stati ip : (ip < NINODE)%nat -> typed (stati ip) any.
Proof. intros Hi. unfold stati. typed. Qed.
#[export] Hint Resolve typed_iunlockput typed_bmap typed_stati : typed.

(** ** File contents *)

Lemma typed_readi ip dst off n : (ip < NINODE)%nat -> typed (readi ip dst off n) any.
Proof. intros Hi. unfold readi, readi_body. typed. Qed.

(** [writei] writes inside of the buffer, whatever [either_copyin] delivers. *)
Lemma typed_writei_body ip n st : (ip < NINODE)%nat -> typed (writei_body ip n st) any.
Proof.
  intros Hi. unfold writei_body. destruct st as [[tot off] src]. typed_step; [typed|].
  do 4 (typed_step; repeat typed_intro). eapply (typed_bind _ _ any); [|typed].
  apply typed_set_buf. intros x. apply wt_splice. change BSIZE with 1024 in *. change (Z.to_nat 1024) with 1024%nat.
  pose proof (Z.mod_pos_bound off 1024 ltac:(done)). lia.
Qed.
#[export] Hint Resolve typed_readi typed_writei_body : typed.
Lemma typed_writei ip src off n : (ip < NINODE)%nat -> typed (writei ip src off n) any.
Proof. intros Hi. unfold writei. typed. Qed.
Lemma typed_read_dirent dp off msg : (dp < NINODE)%nat -> typed (read_dirent dp off msg) any.
Proof. intros Hi. unfold read_dirent. typed. Qed.
#[export] Hint Resolve typed_writei typed_read_dirent : typed.

(** ** Directories and paths *)

Definition dir_entry (r : nat * Z) : Prop := (fst r < NINODE)%nat.
Lemma typed_dirlookup dp name : (dp < NINODE)%nat -> typed (dirlookup dp name) (opt dir_entry).
Proof.
  intros Hi. unfold dirlookup. typed. apply (typed_whileK any); [|done]. intros off _. unfold dirlookup_body. typed.
Qed.
#[export] Hint Resolve typed_dirlookup : typed.
Lemma typed_dirlink dp name inum : (dp < NINODE)%nat -> typed (dirlink dp name inum) any.
Proof. intros Hi. unfold dirlink, dirlink_body. typed. Qed.
Lemma typed_namex path parent name : typed (namex path parent name) (fun r => ref NINODE (fst r)).
Proof.
  unfold namex. eapply (typed_bind _ _ (fun i => (i < NINODE)%nat)); [typed|]. intros ip Hip.
  apply (typed_whileK (fun st => (snd st < NINODE)%nat)); [|done]. intros [[p nm] i] Hi. unfold namex_body. typed.
Qed.
#[export] Hint Resolve typed_dirlink typed_namex : typed.
Lemma typed_namei path : typed (namei path) (ref NINODE).
Proof. unfold namei. typed. Qed.
Lemma typed_nameiparent path name : typed (nameiparent path name) (fun r => ref NINODE (fst r)).
Proof. apply typed_namex. Qed.
#[export] Hint Resolve typed_namei typed_nameiparent : typed.

(** ** Pipes and files *)

Lemma typed_get_file f : (f < NFILE)%nat -> typed (get_file f) wt_file.
Proof.
  intros Hf e s He Hs. unfold get_file. by destruct (tbl_some _ _ f _ (wt_ftable s Hs) Hf) as (x & -> & Hx).
Qed.
Lemma typed_set_file f g : (forall x, wt_file x -> wt_file (g x)) -> typed (set_file f g) any.
Proof. intros Hg. apply typed_modify. intros s []. split; try assumption. by apply tbl_alter. Qed.
Lemma typed_get_pipe pi : typed (get_pipe pi) wt_pipe.
Proof.
  intros e s He Hs. unfold get_pipe. destruct (pipes s !! pi) as [x|] eqn:E; [|listed]. split; [|done]. by apply (wt_pipes s Hs pi).
Qed.
Lemma typed_set_pipes f : (forall m, map_Forall (fun _ => wt_pipe) m -> map_Forall (fun _ => wt_pipe) (f m)) ->
  typed (modifyK (fun s => s <| pipes ::= f |>)) any.
Proof. intros Hf. apply typed_modify. intros s []. split; try assumption. by apply Hf. Qed.
Lemma typed_set_pipe pi g : (forall x, wt_pipe x -> wt_pipe (g x)) -> typed (set_pipe pi g) any.
Proof.
  intros Hg. apply typed_set_pipes. intros m Hm i x Hx. destruct (decide (i = pi)) as [->|Hne].
  - rewrite lookup_alter_eq in Hx. destruct (m !! pi) eqn:E; [|done]. injection Hx as <-. apply Hg. by eapply Hm.
  - rewrite lookup_alter_ne in Hx by done. by eapply Hm.
Qed.
Lemma typed_delete_pipe pi : typed (modifyK (fun s => s <| pipes ::= delete pi |>)) any.
Proof. apply typed_set_pipes. intros m. apply map_Forall_delete. Qed.
Lemma typed_new_pipe pi x : wt_pipe x -> typed (modifyK (fun s => s <| pipes ::= <[pi := x]> |>)) any.
Proof. intros Hx. apply typed_set_pipes. intros m. by apply map_Forall_insert_2. Qed.
Lemma wt_pipe_new : wt_pipe (Pipe (replicate (Z.to_nat PIPESIZE) 5) 0 0 true true).
Proof. split; cbn; [apply length_replicate|lia|lia]. Qed.
#[export] Hint Resolve typed_get_file typed_set_file typed_get_pipe typed_set_pipe typed_delete_pipe typed_new_pipe
  wt_pipe_new : typed.

Lemma typed_pipeclose pi w : typed (pipeclose pi w) any.
Proof. unfold pipeclose. typed. Qed.
Lemma typed_pipewrite pi addr n : typed (pipewrite pi addr n) any.
Proof.
  unfold pipewrite. typed. apply typed_blockn. intros i. unfold pipewrite_body. typed.
Qed.
Lemma typed_piperead pi addr n : typed (piperead pi addr n) any.
Proof. unfold piperead, piperead_body. typed. apply typed_block. unfold piperead_wait. typed. Qed.
#[export] Hint Resolve typed_pipeclose typed_pipewrite typed_piperead : typed.

Lemma typed_filealloc : typed filealloc (ref NFILE).
Proof. unfold filealloc. typed_step. typed_search NFILE; typed. Qed.
Lemma typed_filedup f : (f < NFILE)%nat -> typed (filedup f) (fun f => (f < NFILE)%nat).
Proof. intros Hf. unfold filedup. typed. Qed.
Lemma typed_fileclose f : (f < NFILE)%nat -> typed (fileclose f) any.
Proof. intros Hf. unfold fileclose. typed. Qed.
#[export] Hint Resolve typed_filealloc typed_filedup typed_fileclose : typed.
Lemma typed_pipealloc : typed pipealloc (fun r => ref NFILE (snd (fst r)) /\ ref NFILE (snd r)).
Proof.
  unfold pipealloc. typed_step. intros f0 H0. eapply (typed_bind _ _ (ref NFILE)); [typed|]. intros f1 H1. typed.
Qed.
Lemma typed_filestat f addr : (f < NFILE)%nat -> typed (filestat f addr) any.
Proof. intros Hf. unfold filestat. typed. Qed.
Lemma typed_fileread f addr n : (f < NFILE)%nat -> typed (fileread f addr n) any.
Proof. intros Hf. unfold fileread. typed. Qed.
Lemma typed_filewrite f addr n : (f < NFILE)%nat -> typed (filewrite f addr n) any.
Proof. intros Hf. unfold filewrite, filewrite_body. typed. Qed.
#[export] Hint Resolve typed_pipealloc typed_filestat typed_fileread typed_filewrite : typed.
