(* ===== verification/TypingProc.v ===== *)
(** * The types of the process operations, the system calls and the traps

    Every entry into the kernel keeps the state well typed; so every state the machine reaches
    from boot, under any interleaving of the threads, is well typed. *)

From stdpp Require Import base numbers list gmap relations strings.
From S2P Require Import Asm Boot Virtio Prelude Mem Printf Types Kernel Riscv Kalloc Vm Sched Bio Log Fs Console File Proc.
From S2P Require Import Kthread Signal Syscall Exec Sysfile Trap Main Typing TypingKern TypingFs.

(** ** Processes *)

Lemma typed_tf_load tf off : typed (tf_load tf off) any.
Proof. unfold tf_load. typed. Qed.
Lemma typed_tf_store tf off v : typed (tf_store tf off v) any.
Proof. unfold tf_store. typed. Qed.
Lemma typed_tf_copy a b : typed (tf_copy a b) any.
Proof. unfold tf_copy. typed. Qed.
Lemma typed_free_thread t : typed (free_thread t) any.
Proof. unfold free_thread, freed_thread. typed. Qed.
Lemma typed_proc_pagetable p : (p < NPROC)%nat -> typed (proc_pagetable p) any.
Proof. intros Hp. unfold proc_pagetable. typed. Qed.
Lemma typed_proc_freepagetable pt sz : typed (proc_freepagetable pt sz) any.
Proof. unfold proc_freepagetable. typed. Qed.
#[export] Hint Resolve typed_tf_load typed_tf_store typed_tf_copy typed_free_thread typed_proc_pagetable
  typed_proc_freepagetable : typed.
Lemma typed_freeproc p : (p < NPROC)%nat -> typed (freeproc p) any.
Proof. intros Hp. unfold freeproc. typed. Qed.
Lemma typed_init_handlers p : typed (init_siganls_handlers_to_default p) any.
Proof. unfold init_siganls_handlers_to_default. typed. Qed.
Lemma typed_find_unused_proc : typed find_unused_proc (ref NPROC).
Proof. apply typed_searchK. typed. Qed.
#[export] Hint Resolve typed_freeproc typed_init_handlers typed_find_unused_proc : typed.
Lemma typed_alloc_fail p : (p < NPROC)%nat -> typed (alloc_fail p) (ref NPROC).
Proof. intros Hp. unfold alloc_fail. typed. Qed.
#[export] Hint Resolve typed_alloc_fail : typed.
Lemma typed_allocproc : typed allocproc (ref NPROC).
Proof. unfold allocproc. typed. Qed.
Lemma length_safestrcpy t k : (length (safestrcpy_l t k) <= S k)%nat.
Proof. revert t. induction k as [|k IH]; intros t; cbn; [lia|]. destruct (_ =? _); cbn; [lia|]. specialize (IH (tail t)). lia. Qed.
Lemma typed_set_name p name : typed (set_name p name) any.
Proof.
  apply typed_set_proc. intros x []. split; try assumption. cbn [p_name]. pose proof (length_safestrcpy name 15).
  change (length (splice 0 (safestrcpy_l name 15) (p_name x)) = 16%nat). rewrite length_splice; lia.
Qed.
Lemma typed_set_initproc o : ref NPROC o -> typed (modifyK (fun s => s <| initproc := o |>)) any.
Proof. intros Ho. apply typed_modify. intros s []. split; assumption. Qed.
Lemma typed_get_initproc : typed (getsK (fun s => initproc s)) (ref NPROC).
Proof. apply typed_gets. intros s Hs. apply Hs. Qed.
#[export] Hint Resolve typed_allocproc typed_set_name typed_set_initproc typed_get_initproc : typed.
Lemma typed_userinit : typed userinit any.
Proof. unfold userinit. typed. Qed.
Lemma typed_growproc n : typed (growproc n) any.
Proof. unfold growproc. typed. Qed.
Lemma typed_copy_signal_handlers np p : (p < NPROC)%nat -> typed (copy_signal_handlers np p) any.
Proof. intros Hp. unfold copy_signal_handlers. typed. Qed.
#[export] Hint Resolve typed_userinit typed_growproc typed_copy_signal_handlers : typed.
Lemma typed_fork : typed fork any.
Proof. unfold fork. typed. Qed.
Lemma typed_sigret_proc : typed sigret_proc any.
Proof. unfold sigret_proc. typed. Qed.
Lemma typed_sigaction_proc signum act oldact : typed (sigaction_proc signum act oldact) any.
Proof. unfold sigaction_proc. typed. Qed.
Lemma typed_sigprocmask_proc m : typed (sigprocmask_proc m) any.
Proof. unfold sigprocmask_proc. typed. Qed.
Lemma typed_kill pid signum : typed (kill pid signum) any.
Proof. unfold kill. typed. Qed.
Lemma typed_reparent p : typed (reparent p) any.
Proof. unfold reparent. typed. Qed.
#[export] Hint Resolve typed_fork typed_sigret_proc typed_sigaction_proc typed_sigprocmask_proc typed_kill typed_reparent : typed.
Lemma typed_killthreads : typed killthreads any.
Proof. unfold killthreads. typed. apply typed_block. unfold killthreads_wait. typed. Qed.
#[export] Hint Resolve typed_killthreads : typed.
(** [exit] does not return. *)
Lemma typed_exit {A} status (P : A -> Prop) : typed (exit status) P.
Proof. unfold exit. typed. Qed.
Lemma typed_wait_scan p addr : (p < NPROC)%nat -> typed (wait_scan p addr) any.
Proof. intros Hp. unfold wait_scan. typed. Qed.
#[export] Hint Resolve typed_exit typed_wait_scan : typed.
Lemma typed_wait addr : typed (wait addr) any.
Proof. unfold wait. typed. apply typed_block. unfold wait_body. typed. Qed.
#[export] Hint Resolve typed_wait : typed.

(** ** Threads and semaphores *)

Lemma typed_kthread_exit_proc {A} status (P : A -> Prop) : typed (kthread_exit_proc status) P.
Proof. unfold kthread_exit_proc. typed. Qed.
Lemma join_target_lt tid ts j : ts <> [] -> (join_target tid ts j < j + length ts)%nat.
Proof.
  revert j. induction ts as [|x ts IH]; intros j Hn; [done|]. cbn. destruct (_ =? _); [lia|].
  destruct ts as [|y ts]; [cbn; lia|]. specialize (IH (S j) ltac:(done)). cbn [length] in *. lia.
Qed.
Lemma join_target_ref p tid x : (p < NPROC)%nat -> wt_proc x -> tref (p, join_target tid (p_threads x) 0).
Proof.
  intros Hp [_ [Hl _] _ _ _ _ _]. split; [done|]. cbn [snd]. rewrite <- Hl.
  apply (join_target_lt tid (p_threads x) 0). intros E. by rewrite E in Hl.
Qed.
#[export] Hint Resolve typed_kthread_exit_proc join_target_ref : typed.
Lemma typed_join_wait p t tid a : tref t -> typed (join_wait p t tid a) any.
Proof. intros Ht. unfold join_wait. typed. Qed.
#[export] Hint Resolve typed_join_wait : typed.
Lemma typed_kthread_join_proc tid status : typed (kthread_join_proc tid status) any.
Proof. unfold kthread_join_proc. typed. Qed.
Lemma typed_kthread_create_proc f stack : typed (kthread_create_proc f stack) any.
Proof. unfold kthread_create_proc. typed. Qed.
Lemma typed_kthread_id_proc : typed kthread_id_proc any.
Proof. unfold kthread_id_proc. typed. Qed.
#[export] Hint Resolve typed_kthread_join_proc typed_kthread_create_proc typed_kthread_id_proc : typed.

Lemma typed_get_bsem d : typed (get_bsem d) wt_bsem.
Proof.
  intros e s He Hs. unfold get_bsem. destruct (d <? 0); [listed|]. destruct (bsems s !! Z.to_nat d) as [b|] eqn:E; [|listed].
  split; [|done]. eapply tbl_lookup; [apply Hs|exact E].
Qed.
Lemma typed_set_bsem d f : (forall b, wt_bsem b -> wt_bsem (f b)) -> typed (set_bsem d f) any.
Proof. intros Hf. apply typed_modify. intros s []. split; try assumption. by apply tbl_alter. Qed.
#[export] Hint Resolve typed_get_bsem typed_set_bsem : typed.
Lemma wt_remove_first t n l : tbl n otref l -> tbl n otref (remove_first t l).
Proof.
  unfold tbl. revert n. induction l as [|x l IH]; intros n [Hl Hall]; cbn; [done|]. inversion Hall; subst.
  destruct (decide (x = Some t)); cbn; [split; [done|by constructor]|].
  destruct (IH (length l)); [done|]. split; [by f_equal|by constructor].
Qed.
Lemma wt_place_first t n l l' : tref t -> tbl n otref l -> place_first t l = Some l' -> tbl n otref l'.
Proof.
  unfold tbl. intros Ht. revert n l'. induction l as [|x l IH]; intros n l' [Hl Hall]; cbn; [done|]. inversion Hall; subst.
  destruct x as [x|]; [|intros [= <-]; split; [done|by constructor]].
  destruct (place_first t l) as [l1|] eqn:E; cbn; [|done]. intros [= <-].
  destruct (IH (length l) l1); [done..|]. split; [cbn; by f_equal|by constructor].
Qed.
#[export] Hint Resolve wt_remove_first : typed.
Lemma typed_initsems : typed initsems any.
Proof. unfold initsems. typed. Qed.
Lemma typed_remove_current_thread d : typed (remove_current_thread d) any.
Proof. unfold remove_current_thread. typed. Qed.
Lemma typed_place_thread_in_line d : typed (place_thread_in_line d) any.
Proof.
  unfold place_thread_in_line. typed_step. intros t Ht. typed_step. intros b [Hb Hc]. typed_step; [|typed].
  apply typed_set_bsem. intros y []. split; cbn; [exact (wt_place_first t _ _ _ Ht Hb E)|assumption].
Qed.
#[export] Hint Resolve typed_initsems typed_remove_current_thread typed_place_thread_in_line : typed.
Lemma typed_bsem_alloc : typed bsem_alloc any.
Proof. unfold bsem_alloc. typed. Qed.
Lemma typed_bsem_free d : typed (bsem_free d) any.
Proof. unfold bsem_free. typed. Qed.
Lemma typed_bsem_down d : typed (bsem_down d) any.
Proof. unfold bsem_down. typed. apply typed_block. unfold bsem_down_body. typed. Qed.
Lemma typed_bsem_up d : typed (bsem_up d) any.
Proof. unfold bsem_up. typed. Qed.
#[export] Hint Resolve typed_bsem_alloc typed_bsem_free typed_bsem_down typed_bsem_up : typed.

(** ** Signals *)

Lemma typed_sigkill_handler : typed sigkill_handler any.
Proof. unfold sigkill_handler. typed. Qed.
Lemma typed_sigcont_handler : typed sigcont_handler any.
Proof. unfold sigcont_handler. typed. Qed.
Lemma typed_sigstop_body p u : (p < NPROC)%nat -> typed (sigstop_body p u) any.
Proof. intros Hp. unfold sigstop_body. typed. Qed.
#[export] Hint Resolve typed_sigkill_handler typed_sigcont_handler typed_sigstop_body : typed.
Lemma typed_sigstop_handler : typed sigstop_handler any.
Proof. unfold sigstop_handler. typed. Qed.
Lemma typed_kernel_read a n : typed (kernel_read a n) any.
Proof. intros e s He Hs. unfold kernel_read. by destruct (mapM _ _). Qed.
#[export] Hint Resolve typed_sigstop_handler typed_kernel_read : typed.
Lemma typed_copyout_at pt va src len : typed (copyout_at pt va src len) any.
Proof. unfold copyout_at, copyout_at_body. typed. Qed.
#[export] Hint Resolve typed_copyout_at : typed.
Lemma typed_signalhandler_user i : typed (signalhandler_user i) any.
Proof. unfold signalhandler_user. typed. Qed.
#[export] Hint Resolve typed_signalhandler_user : typed.
Lemma typed_deliver i h : typed (deliver i h) any.
Proof. unfold deliver. typed. Qed.
#[export] Hint Resolve typed_deliver : typed.
Lemma typed_signal_handler : typed signal_handler any.
Proof. unfold signal_handler. typed. Qed.
#[export] Hint Resolve typed_signal_handler : typed.

(** ** System calls *)

Lemma typed_fetchaddr addr : typed (fetchaddr addr) any.
Proof. unfold fetchaddr. typed. Qed.
Lemma typed_fetchstr addr max : typed (fetchstr addr max) any.
Proof. unfold fetchstr. typed. Qed.
Lemma typed_argraw n : typed (argraw n) any.
Proof. unfold argraw. typed. Qed.
#[export] Hint Resolve typed_fetchaddr typed_fetchstr typed_argraw : typed.
Lemma typed_argint n : typed (argint n) any.
Proof. unfold argint. typed. Qed.
Lemma typed_argaddr n : typed (argaddr n) any.
Proof. apply typed_argraw. Qed.
#[export] Hint Resolve typed_argint typed_argaddr : typed.
Lemma typed_argstr n max : typed (argstr n max) any.
Proof. unfold argstr. typed. Qed.
Lemma typed_sys_sleep_body n t0 u : typed (sys_sleep_body n t0 u) any.
Proof. unfold sys_sleep_body. typed. Qed.
#[export] Hint Resolve typed_argstr typed_sys_sleep_body : typed.

(** exec *)

Lemma typed_make_dfl_signal p : (p < NPROC)%nat -> typed (make_dfl_signal p) any.
Proof. intros Hp. unfold make_dfl_signal. typed. Qed.
Lemma typed_loadseg pt va ip off sz : (ip < NINODE)%nat -> typed (loadseg pt va ip off sz) any.
Proof. intros Hi. unfold loadseg, loadseg_body. typed. Qed.
Lemma typed_exec_bad pt sz ip : ref NINODE ip -> typed (exec_bad pt sz ip) any.
Proof. intros Hi. unfold exec_bad. typed. Qed.
Lemma typed_push_args pt base argv sp argc ustack : typed (push_args pt base argv sp argc ustack) any.
Proof.
  revert sp argc ustack. induction argv as [|a argv IH]; intros sp argc ustack; cbn [push_args]; typed.
Qed.
#[export] Hint Resolve typed_make_dfl_signal typed_loadseg typed_exec_bad typed_push_args : typed.
Lemma typed_exec_load_body pt ip n st : (ip < NINODE)%nat -> typed (exec_load_body pt ip n st) any.
Proof. intros Hi. unfold exec_load_body. typed. Qed.
Lemma typed_exec_commit p t path pt sz entry sp oldsz : (p < NPROC)%nat -> tref t ->
  typed (exec_commit p t path pt sz entry sp oldsz) any.
Proof. intros Hp Ht. unfold exec_commit. typed. Qed.
#[export] Hint Resolve typed_exec_load_body typed_exec_commit : typed.
Lemma typed_exec_stack p t path argv pt sz entry : (p < NPROC)%nat -> tref t ->
  typed (exec_stack p t path argv pt sz entry) any.
Proof. intros Hp Ht. unfold exec_stack. typed. Qed.
#[export] Hint Resolve typed_exec_stack : typed.
Lemma typed_exec path argv : typed (exec path argv) any.
Proof. unfold exec. typed. Qed.
#[export] Hint Resolve typed_exec : typed.

(** Files *)

Lemma typed_argfd n : typed (argfd n) (opt (fun r => (snd r < NFILE)%nat)).
Proof. unfold argfd. typed. Qed.
Lemma typed_fdalloc f : (f < NFILE)%nat -> typed (fdalloc f) any.
Proof. intros Hf. unfold fdalloc. typed. Qed.
Lemma typed_clear_ofile fd : typed (clear_ofile fd) any.
Proof. unfold clear_ofile. typed. Qed.
Lemma typed_link_bad ip : (ip < NINODE)%nat -> typed (link_bad ip) any.
Proof. intros Hi. unfold link_bad. typed. Qed.
Lemma typed_isdirempty dp : (dp < NINODE)%nat -> typed (isdirempty dp) any.
Proof. intros Hi. unfold isdirempty, isdirempty_body. typed. Qed.
Lemma typed_unlink_commit dp ip off : (dp < NINODE)%nat -> (ip < NINODE)%nat -> typed (unlink_commit dp ip off) any.
Proof. intros Hd Hi. unfold unlink_commit. typed. Qed.
Lemma typed_create path type major minor : typed (create path type major minor) (ref NINODE).
Proof. unfold create. typed. Qed.
#[export] Hint Resolve typed_argfd typed_fdalloc typed_clear_ofile typed_link_bad typed_isdirempty typed_unlink_commit
  typed_create : typed.
Lemma typed_open_inode path omode : typed (open_inode path omode) (ref NINODE).
Proof. unfold open_inode. typed. Qed.
Lemma typed_fetch_args_body uargv st : typed (fetch_args_body uargv st) any.
Proof. unfold fetch_args_body. typed. Qed.
#[export] Hint Resolve typed_open_inode typed_fetch_args_body : typed.
Ltac typed_inode := eapply (typed_bind _ _ (ref NINODE)); [|intros [i|] ?].
Lemma typed_sys_mkdir : typed sys_mkdir any.
Proof. unfold sys_mkdir. do 2 (typed_step; repeat typed_intro). typed_inode; typed. Qed.
Lemma typed_sys_mknod : typed sys_mknod any.
Proof. unfold sys_mknod. do 2 (typed_step; repeat typed_intro). typed_inode; typed. Qed.
Lemma typed_sys_chdir : typed sys_chdir any.
Proof. unfold sys_chdir. do 3 (typed_step; repeat typed_intro). typed_inode; typed. Qed.
Lemma typed_sys_pipe : typed sys_pipe any.
Proof.
  unfold sys_pipe. do 2 (typed_step; repeat typed_intro). typed_step. intros [[r rf] wf] [Hr Hw]. cbn [fst snd] in *. typed.
Qed.
#[export] Hint Resolve typed_sys_mkdir typed_sys_mknod typed_sys_chdir typed_sys_pipe : typed.

(** The table of system calls. *)
Lemma typed_syscalls num f : syscalls num = Some f -> typed f any.
Proof.
  assert (forall f g : K Z, typed g any -> Some g = Some f -> typed f any) as Heq by (intros ? ? ? [= <-]; done).
  unfold syscalls. repeat case_match; try done; apply Heq; clear Heq.
  all: unfold sys_fork, sys_exit, sys_wait, sys_read, sys_kill, sys_exec, sys_fstat, sys_dup,
    sys_getpid, sys_sbrk, sys_sleep, sys_uptime, sys_open, sys_write, sys_unlink, sys_link, sys_close, sys_sigprocmask, sys_sigaction, sys_sigret, sys_kthread_exit, sys_kthread_create, sys_kthread_id,
    sys_kthread_join, sys_bsem_alloc, sys_bsem_free, sys_bsem_down, sys_bsem_up.
  all: typed.
Qed.
Lemma typed_syscall : typed syscall any.
Proof. pose proof typed_syscalls. unfold syscall. typed. Qed.
#[export] Hint Resolve typed_syscall : typed.

(** ** Traps *)

Lemma typed_get_csr : typed get_csr any.
Proof. by apply typed_gets. Qed.
Lemma typed_set_csr f : typed (set_csr f) any.
Proof. apply typed_modify. intros s []. split; assumption. Qed.
#[export] Hint Resolve typed_get_csr typed_set_csr : typed.
Lemma typed_w_stvec v : typed (w_stvec v) any.
Proof. apply typed_set_csr. Qed.
Lemma typed_w_sepc v : typed (w_sepc v) any.
Proof. apply typed_set_csr. Qed.
Lemma typed_w_sstatus v : typed (w_sstatus v) any.
Proof. apply typed_set_csr. Qed.
Lemma typed_intr_on : typed intr_on any.
Proof. apply typed_set_csr. Qed.
Lemma typed_intr_off : typed intr_off any.
Proof. apply typed_set_csr. Qed.
Lemma typed_intr_get : typed intr_get any.
Proof. unfold intr_get. typed. Qed.
Lemma typed_clockintr : typed clockintr any.
Proof. unfold clockintr. typed. Qed.
#[export] Hint Resolve typed_w_stvec typed_w_sepc typed_w_sstatus typed_intr_on typed_intr_off typed_intr_get typed_clockintr : typed.

(** The disk's interrupt handler wakes the threads that wait for the buffers it has done. *)
Definition disk_intr (bufs : list nat) : K unit := forK bufs (fun b => wakeup (CH_buf b)).
Lemma typed_disk_intr bufs : typed (disk_intr bufs) any.
Proof. unfold disk_intr. typed. Qed.
#[export] Hint Resolve typed_disk_intr : typed.
Lemma typed_devintr irq bufs : typed (devintr irq (disk_intr bufs)) any.
Proof. unfold devintr. typed. Qed.
Lemma typed_usertrapret : typed usertrapret any.
Proof. unfold usertrapret. typed. Qed.
#[export] Hint Resolve typed_devintr typed_usertrapret : typed.
Lemma typed_usertrap irq bufs : typed (usertrap irq (disk_intr bufs)) any.
Proof. unfold usertrap. typed. Qed.
Lemma typed_kerneltrap irq bufs : typed (kerneltrap irq (disk_intr bufs)) any.
Proof. unfold kerneltrap. typed. Qed.
Lemma typed_set_first (f : kstate -> bool) : typed (modifyK (fun s => s <| forkret_first := f s |>)) any.
Proof. apply typed_modify. intros s []. split; assumption. Qed.
#[export] Hint Resolve typed_usertrap typed_kerneltrap typed_set_first : typed.
Lemma typed_forkret : typed forkret any.
Proof. unfold forkret. typed. Qed.
