(* ===== verification/TypeSafety.v ===== *)
(** * Every state the kernel reaches is well typed

    The machine starts with the zeroed globals of the BSS.  From there on [main] boots the harts,
    threads start in [forkret] and enter the kernel by traps, schedulers pick threads, user code
    and devices change memory and registers.  What happens while a thread is switched out is
    again made of such steps, so that the interleaving is arbitrary. *)

From stdpp Require Import base numbers list gmap strings.
From S2P Require Import Asm Boot Virtio Prelude Mem Printf Types Kernel Riscv Kalloc Vm Sched Bio Log Fs Console File Proc.
From S2P Require Import Kthread Signal Syscall Exec Sysfile Trap Main Typing TypingKern TypingFs TypingProc.

(** ** Booting *)

Lemma typed_WriteReg reg v : typed (WriteReg reg v) any.
Proof. apply typed_set_mem. Qed.
#[export] Hint Resolve typed_WriteReg : typed.
Lemma typed_uartinit : typed uartinit any.
Proof. unfold uartinit. typed. Qed.
#[export] Hint Resolve typed_uartinit : typed.
Lemma typed_consoleinit : typed consoleinit any.
Proof. unfold consoleinit. typed. Qed.
Lemma typed_printfinit : typed printfinit any.
Proof. unfold printfinit. typed. Qed.
Lemma typed_on_hart f : typed (on_hart f) any.
Proof. apply typed_set_mem. Qed.
Lemma typed_disk_init mmio pages : typed (disk_init mmio pages) any.
Proof. unfold disk_init. typed. Qed.
Lemma typed_kinit : typed kinit any.
Proof. unfold kinit. typed. Qed.
Lemma typed_kvmmap pt va pa sz perm : typed (kvmmap pt va pa sz perm) any.
Proof. unfold kvmmap. typed. Qed.
#[export] Hint Resolve typed_consoleinit typed_printfinit typed_on_hart typed_disk_init typed_kinit typed_kvmmap : typed.
Lemma typed_proc_mapstacks pt : typed (proc_mapstacks pt) any.
Proof. unfold proc_mapstacks. typed. Qed.
#[export] Hint Resolve typed_proc_mapstacks : typed.
Lemma typed_kvmmake : typed kvmmake any.
Proof. unfold kvmmake. typed. Qed.
Lemma typed_set_kpt v : typed (modifyK (fun s => s <| kernel_pagetable := v |>)) any.
Proof. apply typed_modify. intros s []. split; assumption. Qed.
#[export] Hint Resolve typed_kvmmake typed_set_kpt : typed.
Lemma typed_kvminit : typed kvminit any.
Proof. unfold kvminit. typed. Qed.
Lemma typed_kvminithart : typed kvminithart any.
Proof. apply typed_modify. intros s []. split; assumption. Qed.
Lemma typed_trapinit : typed trapinit any.
Proof. unfold trapinit. typed. Qed.
Lemma typed_trapinithart : typed trapinithart any.
Proof. unfold trapinithart. typed. Qed.
Lemma typed_fileinit : typed fileinit any.
Proof. unfold fileinit. typed. Qed.
Lemma typed_cpu_id : typed cpu_id any.
Proof. by apply typed_gets. Qed.
#[export] Hint Resolve typed_kvminit typed_kvminithart typed_trapinit typed_trapinithart typed_fileinit typed_cpu_id : typed.

(** ** The machine *)

(** What the scheduler sees of the thread it switches to: the machine until the thread switches
    back, with the lock of its process held again. *)
Definition run_thread (t : nat * nat) : K unit := fun e s =>
  match e with
  | [] => Switched s
  | f :: e' => Ok tt e' (f s <| held := held s |> <| c_proc := Some (fst t) |> <| c_thread := Some t |>)
  end.


(** The ways into the kernel. *)
Inductive entry_point : K unit -> Prop :=
| en_boot mmio pages : entry_point (boot_hart mmio pages)
| en_join : entry_point join_hart
| en_user irq bufs : entry_point (usertrap irq (disk_intr bufs) ;;; retK tt)
| en_kernel irq bufs : entry_point (kerneltrap irq (disk_intr bufs))
| en_fork : entry_point (forkret ;;; retK tt)
| en_sched : entry_point (scheduler_round run_thread).

(** What is not the kernel's doing: the memory that user programs and devices write, the
    supervisor's registers, the input of the serial port, and which CPU, with which thread, is the
    next to run kernel code. *)
Definition elsewhere (m : gmap Z Z) (h : list lock) (c : csrs) (rx : list Z) (idle : list bool) (t : option (nat * nat))
    (s : kstate) : kstate :=
  KState (syms s) h m (freelist s) (procs s) (initproc s) (nextpid s) (nexttid s) (fst <$> t) t
    (bsems s) (ticks s) (kernel_pagetable s) (forkret_first s) c (bcache s) (log s) (sb s) (itable s) (ftable s)
    (pipes s) (cons_dev s) (uart_dev s <| ut_rx := rx |> <| ut_idle := idle |>) (disk s).

Inductive kstep : kstate -> kstate -> Prop :=
| ks_return c e e' s s' : entry_point c -> kenv e -> c e s = Ok tt e' s' -> kstep s s'
| ks_switch c e s s' : entry_point c -> kenv e -> c e s = Switched s' -> kstep s s'
| ks_elsewhere m h c rx idle t s : otref t -> kstep s (elsewhere m h c rx idle t s)
with ksteps : kstate -> kstate -> Prop :=
| ks_none s : ksteps s s
| ks_more s1 s2 s3 : kstep s1 s2 -> ksteps s2 s3 -> ksteps s1 s3
with kenv : interference -> Prop :=
| ke_nil : kenv []
| ke_cons f e : (forall s, ksteps s (f s)) -> kenv e -> kenv (f :: e).

Scheme kstep_mind := Minimality for kstep Sort Prop
with ksteps_mind := Minimality for ksteps Sort Prop
with kenv_mind := Minimality for kenv Sort Prop.
Combined Scheme machine_ind from kstep_mind, ksteps_mind, kenv_mind.









