(* ===== verification/User.v ===== *)
(** * User programs and their library: user/ulib.c

    A user program runs on an abstract operating system: the class [Syscalls] names the system
    calls it makes, and [FileLaws] states what the kernel promises about reading a file and
    writing the standard output.  The theorems about programs are proved against these
    interfaces.  A program returns, exits, is replaced by [exec], or faults on an access
    outside of its arrays. *)

From stdpp Require Import base numbers list gmap strings.
From S2P Require Import Prelude Mem Printf.

(** ** System calls *)

Class Syscalls (W : Type) := {
  sys_read : Z -> nat -> W -> Z * list Z * W;       (* read(fd, buf, n): result and bytes *)
  sys_write : Z -> list Z -> W -> Z * W;
  sys_open : list Z -> Z -> W -> Z * W;
  sys_close : Z -> W -> Z * W;
  sys_fork : W -> Z * W;                            (* the caller's side, or the child's with 0 *)
  sys_wait : W -> Z * W;
  sys_exec : list Z -> list (list Z) -> W -> bool * W; (* true: the program is replaced *)
  sys_dup : Z -> W -> Z * W;
  sys_pipe : W -> Z * (Z * Z) * W;
  sys_unlink : list Z -> W -> Z * W;
  sys_link : list Z -> list Z -> W -> Z * W;
  sys_mkdir : list Z -> W -> Z * W;
  sys_mknod : list Z -> Z -> Z -> W -> Z * W;
  sys_chdir : list Z -> W -> Z * W;
  sys_kill : Z -> Z -> W -> Z * W;
  sys_sleep : Z -> W -> Z * W;
  sys_fstat : Z -> W -> Z * (Z * Z * Z) * W }.      (* type, ino and size *)

(** ** The monad of user code *)

Inductive ures (W A : Type) :=
| URet (a : A) (w : W) | UExit (status : Z) (w : W)
| UExec (path : list Z) (argv : list (list Z)) (w : W)
| UFault | UFuel.
Arguments URet {W A} a w.
Arguments UExit {W A} status w.
Arguments UExec {W A} path argv w.
Arguments UFault {W A}.
Arguments UFuel {W A}.

Definition U (W A : Type) : Type := W -> ures W A.
Definition retU {W A} (a : A) : U W A := fun w => URet a w.
Definition bindU {W A B} (c : U W A) (k : A -> U W B) : U W B := fun w =>
  match c w with URet a w' => k a w' | UExit st w' => UExit st w' | UExec p v w' => UExec p v w' | UFault => UFault | UFuel => UFuel end.
Definition call {W A} (f : W -> A * W) : U W A := fun w => let '(a, w') := f w in URet a w'.
Definition uexit {W A} (status : Z) : U W A := fun w => UExit status w.
(** [exec] returns only when it fails. *)
Definition uexec {W A} `{Syscalls W} (path : list Z) (argv : list (list Z)) (failed : U W A) : U W A := fun w =>
  let '(ok, w') := sys_exec path argv w in
  if ok : bool then UExec path argv w' else failed w'.
Definition ufault {W A} : U W A := fun _ => UFault.

Declare Scope user_scope.
Notation "'let*' x := c 'in' k" := (bindU c (fun x => k))
  (at level 100, x pattern, c at next level, k at level 200, right associativity) : user_scope.
Notation "c ;;* k" := (bindU c (fun _ => k)) (at level 100, right associativity) : user_scope.
#[global] Open Scope user_scope.

Lemma bindU_ret {W A B} (c : U W A) (k : A -> U W B) w a w' : c w = URet a w' -> bindU c k w = k a w'.
Proof. intros H. unfold bindU. by rewrite H. Qed.

(** A decidable fact about concrete data. *)
Ltac by_decide := apply (bool_decide_unpack _); vm_compute; exact I.

Ltac ustep H := rewrite (bindU_ret _ _ _ _ _ H); cbn beta iota.

(** What [read] of the file [fd] and [write] to the standard output promise: a read returns the
    next bytes of the file, at least one unless the file is at its end, as many as asked for at
    most; a write appends all its bytes. *)
Class FileLaws (W : Type) `{Syscalls W} (fd : Z) (rest out : W -> list Z) : Prop := {
  read_law n w : exists bytes w', sys_read fd n w = (Z.of_nat (length bytes), bytes, w') /\
    rest w = bytes ++ rest w' /\ (length bytes <= n)%nat /\ (rest w <> [] -> (0 < n)%nat -> bytes <> []) /\ out w' = out w;
  write_law bytes w : exists w', sys_write 1 bytes w = (Z.of_nat (length bytes), w') /\
    out w' = out w ++ bytes /\ rest w' = rest w }.

(** ** ulib.c

    A C string is the list of its characters up to the NUL.  In an array, a string that starts
    at [p] runs to the next NUL; without one the access runs off the array. *)

Fixpoint cstr (l : list Z) : option (list Z) :=
  match l with
  | [] => None
  | c :: l' => if c =? 0 then Some [] else cons c <$> cstr l'
  end.

(** The index of the first [c] of a string in memory; [None] when it runs off. *)
Fixpoint strchr_at (l : list Z) (c : Z) : option (option nat) :=
  match l with
  | [] => None
  | x :: l' =>
      if x =? 0 then Some None
      else if x =? c then Some (Some O)
      else option_map (option_map S) (strchr_at l' c)
  end.

(** [strchr] of a string, as a test. *)
Definition strchr (s : list Z) (c : Z) : bool := existsb (fun x => x =? c) s.

Fixpoint strcmp (p q : list Z) : Z :=
  match p, q with
  | x :: p', y :: q' => if x =? y then strcmp p' q' else u8 x - u8 y
  | x :: _, [] => u8 x
  | [], y :: _ => - u8 y
  | [], [] => 0
  end.

(** [n = n*10 + *s++ - '0'] in a 32-bit int. *)
Fixpoint atoi_from (n : Z) (s : list Z) : Z :=
  match s with
  | c :: s' => if (48 <=? c) && (c <=? 57) then atoi_from (i32 (n * 10 + c - 48)) s' else n
  | [] => n
  end.
Definition atoi (s : list Z) : Z := atoi_from 0 s.

Section Ulib.
Context {W : Type} `{Syscalls W}.

(** The loop of [gets]: the characters stored so far; [fuel] is the room left. *)
Fixpoint gets_loop (room : nat) (got : list Z) : U W (list Z) :=
  match room with
  | O => retU got
  | S k =>
      let* (cc, bytes) := call (sys_read 0 1) in
      if cc <? 1 then retU got else
      let c := bytes !!! O in
      if (c =? 10) || (c =? 13) then retU (got ++ [c]) else gets_loop k (got ++ [c])
  end.
(** [gets(buf, max)]: what [buf] holds before the NUL. *)
Definition gets (max : Z) : U W (list Z) := gets_loop (Z.to_nat (max - 1)) [].

Definition stat (n : list Z) : U W (Z * (Z * Z * Z)) :=
  let* fd := call (sys_open n 0) in
  if fd <? 0 then retU (-1, (0, 0, 0)) else
  let* r := call (sys_fstat fd) in
  let* _ := call (sys_close fd) in
  retU r.

(** [fprintf(fd, fmt, ...)] writes one byte at a time; [bytes] is the formatted text. *)
Fixpoint fputs (fd : Z) (bytes : list Z) : U W unit :=
  match bytes with
  | [] => retU tt
  | c :: bytes' => let* _ := call (sys_write fd [c]) in fputs fd bytes'
  end.
End Ulib.

(** ** An operating system with one file

    Reads return pieces of the file whose sizes are given in advance; everything else fails. *)

Record tape := Tape { tp_in : list Z; tp_sizes : list nat; tp_out : list Z }.

Definition tape_read (n : nat) (w : tape) : Z * list Z * tape :=
  let k := Nat.min n (match tp_sizes w with s :: _ => S s | [] => n end) in
  let bytes := take k (tp_in w) in
  (Z.of_nat (length bytes), bytes, Tape (drop k (tp_in w)) (tail (tp_sizes w)) (tp_out w)).

Definition tape_write (fd : Z) (bytes : list Z) (w : tape) : Z * tape :=
  (Z.of_nat (length bytes), if fd =? 1 then Tape (tp_in w) (tp_sizes w) (tp_out w ++ bytes) else w).

#[export] Instance tape_syscalls : Syscalls tape := {|
  sys_read _ n w := tape_read n w;
  sys_write := tape_write;
  sys_open _ _ w := (3, w);
  sys_close _ w := (0, w);
  sys_fork w := (-1, w);
  sys_wait w := (-1, w);
  sys_exec _ _ w := (false, w);
  sys_dup _ w := (-1, w);
  sys_pipe w := (-1, (0, 0), w);
  sys_unlink _ w := (-1, w);
  sys_link _ _ w := (-1, w);
  sys_mkdir _ w := (-1, w);
  sys_mknod _ _ _ w := (-1, w);
  sys_chdir _ w := (-1, w);
  sys_kill _ _ w := (-1, w);
  sys_sleep _ w := (0, w);
  sys_fstat _ w := (-1, (0, 0, 0), w) |}.

#[export] Instance tape_laws fd : FileLaws tape fd tp_in tp_out.
Proof.
  split.
  - intros n w. eexists _, _. split; [reflexivity|]. cbn. split_and!; [by rewrite take_drop| | |done].
    + rewrite length_take. lia.
    + intros Hin Hn. destruct (tp_in w) as [|c l]; [done|]. destruct n as [|n]; [lia|].
      by destruct (tp_sizes w).
  - intros bytes w. eexists. split; [reflexivity|]. done.
Qed.
