(* ===== verification/Grep.v ===== *)
(** * user/grep.c

    The matcher of regular expressions, proved equivalent to the language its pattern denotes,
    and the loop that finds the lines of its input in a fixed buffer, proved to print exactly
    the matching lines however the reads split the input. *)

From stdpp Require Import base numbers list gmap strings.
From S2P Require Import Prelude Mem Printf User.

Definition c_caret : Z := 94.
Definition c_dollar : Z := 36.
Definition c_star : Z := 42.
Definition c_dot : Z := 46.
Definition c_nl : Z := 10.

(** ** The matcher *)

(** [matchstar(c, re, text)], with [here] the matcher for [re]. *)
Definition matchstar (here : list Z -> bool) (c : Z) : list Z -> bool :=
  fix loop (text : list Z) : bool :=
    if here text then true
    else match text with
         | [] => false
         | x :: text' => if (x =? c) || (c =? c_dot) then loop text' else false
         end.

Fixpoint matchhere (re text : list Z) : bool :=
  match re with
  | [] => true
  | c :: re1 =>
      let rest :=
        if (c =? c_dollar) && match re1 with [] => true | _ => false end
        then match text with [] => true | _ => false end
        else match text with
             | x :: text' => if (c =? c_dot) || (c =? x) then matchhere re1 text' else false
             | [] => false
             end in
      match re1 with
      | c1 :: re2 => if c1 =? c_star then matchstar (matchhere re2) c text else rest
      | [] => rest
      end
  end.

(** The [do ... while] of [match] tries every suffix of the text, the empty one included. *)
Fixpoint match_from (re text : list Z) : bool :=
  if matchhere re text then true
  else match text with [] => false | _ :: text' => match_from re text' end.

Definition match_re (re text : list Z) : bool :=
  match re with
  | c :: re' => if c =? c_caret then matchhere re' text else match_from re text
  | [] => match_from re text
  end.

(** ** What a pattern means *)

(** A pattern is a sequence of characters and starred characters, and may end with [$]. *)
Inductive item := One (c : Z) | Many (c : Z).

Fixpoint parse (re : list Z) : list item * bool :=
  match re with
  | [] => ([], false)
  | c :: re1 =>
      match re1 with
      | [] => if c =? c_dollar then ([], true) else ([One c], false)
      | c1 :: re2 =>
          if c1 =? c_star then let '(l, e) := parse re2 in (Many c :: l, e)
          else let '(l, e) := parse re1 in (One c :: l, e)
      end
  end.

(** The characters that the pattern character [c] stands for. *)
Definition stands_for (c x : Z) : Prop := c = c_dot \/ c = x.

(** The language of a sequence of items: concatenation, and Kleene star of a character. *)
Inductive in_lang : list item -> list Z -> Prop :=
| L_nil : in_lang [] []
| L_one c x l t : stands_for c x -> in_lang l t -> in_lang (One c :: l) (x :: t)
| L_many c l t1 t2 : Forall (stands_for c) t1 -> in_lang l t2 -> in_lang (Many c :: l) (t1 ++ t2).

(** A prefix of the text, all of it when the pattern ends with [$], is in the language. *)
Definition prefix_in (re text : list Z) : Prop :=
  exists b c, text = b ++ c /\ in_lang (fst (parse re)) b /\ (snd (parse re) = true -> c = []).

(** Some part of the text is: it starts the text after [^] and ends it before [$]. *)
Definition grep_spec (re text : list Z) : Prop :=
  match re with
  | c :: re' =>
      if c =? c_caret then prefix_in re' text
      else exists a t, text = a ++ t /\ prefix_in re t
  | [] => True
  end.

(** ** The matcher decides it *)

Lemma prefix_in_nil text : prefix_in [] text.
Proof. exists [], text. split_and!; [done|constructor|done]. Qed.

Lemma prefix_in_end text : prefix_in [c_dollar] text <-> text = [].
Proof.
  split.
  - intros (b & c & -> & Hl & He). inversion Hl; subst. by rewrite He.
  - intros ->. exists [], []. split_and!; [done|constructor|done].
Qed.

Lemma parse_star c re : parse (c :: c_star :: re) = (Many c :: fst (parse re), snd (parse re)).
Proof. cbn. by destruct (parse re). Qed.

Lemma prefix_in_star c re text :
  prefix_in (c :: c_star :: re) text <-> exists t1 t2, text = t1 ++ t2 /\ Forall (stands_for c) t1 /\ prefix_in re t2.
Proof.
  unfold prefix_in. rewrite parse_star. cbn [fst snd]. split.
  - intros (b & r & -> & Hl & He). inversion Hl as [| |? ? t1 t2 Hf Hl2]; subst.
    exists t1, (t2 ++ r). split_and!; [by rewrite app_assoc|done|]. by exists t2, r.
  - intros (t1 & t2 & -> & Hf & b & r & -> & Hl & He). exists (t1 ++ b), r.
    split_and!; [by rewrite app_assoc|by constructor|done].
Qed.

Lemma prefix_in_one c re text :
  (re <> [] \/ c <> c_dollar) -> (forall re', re <> c_star :: re') ->
  prefix_in (c :: re) text <-> exists x t, text = x :: t /\ stands_for c x /\ prefix_in re t.
Proof.
  intros Hd Hs. assert (parse (c :: re) = (One c :: fst (parse re), snd (parse re))) as Hp.
  { destruct re as [|c1 re].
    - cbn. destruct Hd as [|Hd]; [done|]. by rewrite (proj2 (Z.eqb_neq _ _) Hd).
    - assert (c1 =? c_star = false) as Hc by (apply Z.eqb_neq; intros ->; by apply (Hs re)).
      change (parse (c :: c1 :: re)) with
        (if c1 =? c_star then let '(l, e) := parse re in (Many c :: l, e) else let '(l, e) := parse (c1 :: re) in (One c :: l, e)).
      rewrite Hc. by destruct (parse (c1 :: re)). }
  unfold prefix_in. rewrite Hp. cbn [fst snd]. split.
  - intros (b & r & -> & Hl & He). inversion Hl as [|? x l t Hx Hl2|]; subst. exists x, (t ++ r). split_and!; [done..|]. by exists t, r.
  - intros (x & t & -> & Hx & b & r & -> & Hl & He). exists (x :: b), r. split_and!; [done|by constructor|done].
Qed.

Lemma stands_for_bool c x : (x =? c) || (c =? c_dot) = true <-> stands_for c x.
Proof. unfold stands_for. rewrite orb_true_iff, !Z.eqb_eq. intuition congruence. Qed.

Lemma matchstar_spec here c (P : list Z -> Prop) text :
  (forall t, here t = true <-> P t) ->
  matchstar here c text = true <-> exists t1 t2, text = t1 ++ t2 /\ Forall (stands_for c) t1 /\ P t2.
Proof.
  intros Hh. induction text as [|x text IH]; cbn [matchstar]; fold (matchstar here c); destruct (here _) eqn:E.
  - split; [|done]. intros _. exists [], []. split_and!; [done|constructor|by apply Hh].
  - split; [done|]. intros (t1 & t2 & Ht & _ & Hp). symmetry in Ht. apply app_eq_nil in Ht as [-> ->]. apply Hh in Hp. congruence.
  - split; [|done]. intros _. exists [], (x :: text). split_and!; [done|constructor|by apply Hh].
  - split.
    + destruct ((x =? c) || (c =? c_dot)) eqn:Ex; [|done]. intros (t1 & t2 & -> & Hf & Hp)%IH.
      exists (x :: t1), t2. split_and!; [done|constructor; [by apply stands_for_bool|done]|done].
    + intros (t1 & t2 & Ht & Hf & Hp). destruct t1 as [|y t1]; cbn in Ht; [subst; apply Hh in Hp; congruence|].
      simplify_eq. apply Forall_cons in Hf as [Hx Hf]. rewrite (proj2 (stands_for_bool c y) Hx). apply IH. eauto.
Qed.

Lemma matchhere_spec re text : matchhere re text = true <-> prefix_in re text.
Proof.
  revert text. remember (length re) as n eqn:Hn. revert re Hn.
  induction n as [n IH] using lt_wf_ind. intros [|c re] -> text; [split; [intros; apply prefix_in_nil|done]|].
  assert ((forall re', re <> c_star :: re') ->
    (if (c =? c_dollar) && match re with [] => true | _ => false end
     then match text with [] => true | _ => false end
     else match text with
          | x :: text' => if (c =? c_dot) || (c =? x) then matchhere re text' else false
          | [] => false
          end) = true <-> prefix_in (c :: re) text) as Hrest.
  { intros Hs. destruct ((c =? c_dollar) && match re with [] => true | _ => false end) eqn:Ed.
    - apply andb_true_iff in Ed as [->%Z.eqb_eq Hre]. destruct re; [|done]. rewrite prefix_in_end. by destruct text.
    - rewrite prefix_in_one; [|by destruct re; [right; apply Z.eqb_neq; rewrite andb_true_r in Ed|left]|done].
      destruct text as [|x text]; [split; [done|by intros (? & ? & ? & _)]|].
      assert ((c =? c_dot) || (c =? x) = true <-> stands_for c x) as Hst by (unfold stands_for; rewrite orb_true_iff, !Z.eqb_eq; done).
      split.
      + destruct ((c =? c_dot) || (c =? x)); [|done]. intros H. exists x, text.
        split_and!; [done|by apply Hst|]. by apply (IH (length re)); [cbn; lia|..].
      + intros (y & t & Ht & Hy & Hp). simplify_eq. rewrite (proj2 Hst Hy). by apply (IH (length re)); [cbn; lia|..]. }
  destruct re as [|c1 re]; [by apply Hrest|]. cbn [matchhere]. destruct (c1 =? c_star) eqn:Ec.
  - apply Z.eqb_eq in Ec as ->. rewrite prefix_in_star. apply matchstar_spec. intros t. apply (IH (length re)); [cbn; lia|done].
  - apply Hrest. intros re' H. injection H as -> ->. by rewrite Z.eqb_refl in Ec.
Qed.

Lemma match_from_spec re text : match_from re text = true <-> exists a t, text = a ++ t /\ prefix_in re t.
Proof.
  induction text as [|x text IH]; cbn [match_from]; destruct (matchhere re _) eqn:E.
  - split; [|done]. intros _. exists [], []. split; [done|by apply matchhere_spec].
  - split; [done|]. intros (a & t & Ht & Hp). symmetry in Ht. apply app_eq_nil in Ht as [-> ->]. apply matchhere_spec in Hp. congruence.
  - split; [|done]. intros _. exists [], (x :: text). split; [done|by apply matchhere_spec].
  - rewrite IH. split.
    + intros (a & t & -> & Hp). by exists (x :: a), t.
    + intros (a & t & Ht & Hp). destruct a as [|y a]; cbn in Ht; [subst; apply matchhere_spec in Hp; congruence|].
      simplify_eq. eauto.
Qed.

(** C25: the matcher of grep decides the language of its pattern: it accepts a text exactly when some
    part of the text (at its start after [^], at its end before [$]) is in the language of the
    pattern, where [.] stands for any character and [c*] for any number of [c]. *)
Theorem match_decides_language re text : match_re re text = true <-> grep_spec re text.
Proof.
  unfold match_re, grep_spec. destruct re as [|c re].
  - split; [done|]. intros _. by destruct text.
  - destruct (c =? c_caret); [apply matchhere_spec|apply match_from_spec].
Qed.

(** ** The loop over the lines of a file *)

(** [char buf[1024]]. *)
Definition BUFSIZ : nat := 1024.

Section Program.
Context {W : Type} `{Syscalls W}.

(** The inner loop: every line of [buf] from [p] on that ends in it; [fuel] bounds the lines. *)
Fixpoint grep_lines (fuel : nat) (pattern : list Z) (buf : list Z) (p : nat) : U W (list Z * nat) :=
  match fuel with
  | O => fun _ => UFuel
  | S k =>
      match strchr_at (drop p buf) c_nl with
      | None => ufault
      | Some None => retU (buf, p)
      | Some (Some i) =>
          let q := (p + i)%nat in
          let buf := <[q := 0]> buf in
          match cstr (drop p buf) with
          | None => ufault
          | Some text =>
              if match_re pattern text then
                let buf := <[q := c_nl]> buf in
                let* _ := call (sys_write 1 (slice p (q + 1 - p) buf)) in
                grep_lines k pattern buf (q + 1)
              else grep_lines k pattern buf (q + 1)
          end
      end
  end.

(** [buf[m..]] after [read] stored [bytes] there and [buf[m + n] = 0]. *)
Definition grep_fill (buf : list Z) (m : nat) (bytes : list Z) : list Z :=
  <[(m + length bytes)%nat := 0]> (splice m bytes buf).

(** The outer loop; [buf[0..m)] is the beginning of a line. *)
Fixpoint grep_loop (fuel : nat) (pattern : list Z) (fd : Z) (buf : list Z) (m : nat) : U W unit :=
  match fuel with
  | O => fun _ => UFuel
  | S k =>
      let* (n, bytes) := call (sys_read fd (BUFSIZ - m - 1)) in
      if n <=? 0 then retU tt else
      let buf := grep_fill buf m bytes in
      let m := (m + Z.to_nat n)%nat in
      let* (buf, p) := grep_lines (S BUFSIZ) pattern buf 0 in
      let m' := (m - p)%nat in
      let buf := if (0 <? m)%nat then splice 0 (slice p m' buf) buf else buf in
      grep_loop k pattern fd buf (if (0 <? m)%nat then m' else m)
  end.

Definition grep (fuel : nat) (pattern : list Z) (fd : Z) : U W unit :=
  grep_loop fuel pattern fd (replicate BUFSIZ 0) 0.

(** [main]: the files named on the command line, or the standard input. *)
Fixpoint grep_files (fuel : nat) (pattern : list Z) (files : list (list Z)) : U W unit :=
  match files with
  | [] => uexit 0
  | file :: files' =>
      let* fd := call (sys_open file 0) in
      if fd <? 0 then
        fputs 1 (str "grep: cannot open " ++ file ++ [c_nl]) ;;* uexit 1
      else grep fuel pattern fd ;;* call (sys_close fd) ;;* grep_files fuel pattern files'
  end.

Definition grep_main (fuel : nat) (argv : list (list Z)) : U W unit :=
  match argv with
  | _ :: pattern :: files =>
      match files with
      | [] => grep fuel pattern 0 ;;* uexit 0
      | _ => grep_files fuel pattern files
      end
  | _ => fputs 2 (str "usage: grep pattern [file ...]" ++ [c_nl]) ;;* uexit 1
  end.
End Program.

(** ** What it prints *)

(** The complete lines of a text, and what follows the last newline. *)
Fixpoint lines (l : list Z) : list (list Z) * list Z :=
  match l with
  | [] => ([], [])
  | c :: l' =>
      let '(ls, r) := lines l' in
      if c =? c_nl then ([] :: ls, r)
      else match ls with
           | [] => ([], c :: r)
           | l0 :: ls' => ((c :: l0) :: ls', r)
           end
  end.

Definition print_matching (pattern : list Z) (ls : list (list Z)) : list Z :=
  mjoin ((fun l => if match_re pattern l then l ++ [c_nl] else []) <$> ls).

Lemma lines_rest l : c_nl ∉ l -> lines l = ([], l).
Proof.
  induction l as [|c l IH]; intros Hl; [done|]. cbn. rewrite IH by set_solver.
  by rewrite (proj2 (Z.eqb_neq c c_nl)) by set_solver.
Qed.

Lemma lines_line l t : c_nl ∉ l -> lines (l ++ c_nl :: t) = (l :: fst (lines t), snd (lines t)).
Proof.
  induction l as [|c l IH]; intros Hl; cbn; [by destruct (lines t)|]. rewrite IH by set_solver.
  by rewrite (proj2 (Z.eqb_neq c c_nl)) by set_solver.
Qed.

(** A text is its lines. *)
Lemma lines_cases l : c_nl ∉ l \/ exists l0 t, l = l0 ++ c_nl :: t /\ c_nl ∉ l0.
Proof.
  induction l as [|c l IH]; [left; apply not_elem_of_nil|]. destruct (decide (c = c_nl)) as [->|Hc].
  - right. exists [], l. split; [done|apply not_elem_of_nil].
  - destruct IH as [Hl|(l0 & t & -> & Hl)]; [left; set_solver|right]. exists (c :: l0), t. set_solver.
Qed.

Lemma lines_app a b : lines (a ++ b) = (fst (lines a) ++ fst (lines (snd (lines a) ++ b)), snd (lines (snd (lines a) ++ b))).
Proof.
  remember (length a) as n eqn:Hn. revert a Hn. induction n as [n IH] using lt_wf_ind. intros a ->.
  destruct (lines_cases a) as [Ha|(l0 & t & -> & Hl)].
  - rewrite (lines_rest a Ha). cbn. by destruct (lines (a ++ b)).
  - rewrite <- app_assoc. cbn [app]. rewrite !lines_line by done. cbn [fst snd].
    rewrite (IH (length t)) by (rewrite ?length_app; cbn; lia). done.
Qed.

Lemma lines_rest_no_nl l : c_nl ∉ snd (lines l).
Proof.
  induction l as [|c l IH]; cbn; [apply not_elem_of_nil|]. destruct (lines l) as [ls r]. cbn in IH.
  destruct (c =? c_nl) eqn:E; [done|]. apply Z.eqb_neq in E. destruct ls; cbn; [set_solver|done].
Qed.

(** The lines and the rest make up the text. *)
Lemma lines_join l : l = mjoin ((fun x => x ++ [c_nl]) <$> fst (lines l)) ++ snd (lines l).
Proof.
  induction l as [|c l IH]; cbn; [done|]. destruct (lines l) as [ls r]. cbn in IH. rewrite IH at 1.
  destruct (c =? c_nl) eqn:E; [apply Z.eqb_eq in E as ->; done|]. by destruct ls.
Qed.

Lemma print_matching_app pattern l1 l2 : print_matching pattern (l1 ++ l2) = print_matching pattern l1 ++ print_matching pattern l2.
Proof. unfold print_matching. by rewrite fmap_app, join_app. Qed.

(** ** Strings in the buffer *)

Definition no_nul (l : list Z) : Prop := 0 ∉ l.

Lemma strchr_at_none l t c : no_nul l -> c ∉ l -> strchr_at (l ++ 0 :: t) c = Some None.
Proof.
  unfold no_nul. induction l as [|x l IH]; intros H0 Hc; [done|]. cbn.
  rewrite (proj2 (Z.eqb_neq x 0)), (proj2 (Z.eqb_neq x c)), IH by set_solver. done.
Qed.

Lemma strchr_at_some l t c : no_nul l -> c <> 0 -> c ∉ l -> strchr_at (l ++ c :: t) c = Some (Some (length l)).
Proof.
  unfold no_nul. intros H0 Hc0. revert H0. induction l as [|x l IH]; intros H0 Hc; cbn.
  - by rewrite (proj2 (Z.eqb_neq c 0)), Z.eqb_refl.
  - rewrite (proj2 (Z.eqb_neq x 0)), (proj2 (Z.eqb_neq x c)), IH by set_solver. done.
Qed.

Lemma cstr_nul l t : no_nul l -> cstr (l ++ 0 :: t) = Some l.
Proof.
  unfold no_nul. induction l as [|x l IH]; intros H0; [done|]. cbn.
  rewrite (proj2 (Z.eqb_neq x 0)), IH by set_solver. done.
Qed.

Lemma drop_set (b l r : list Z) y x p : drop p b = l ++ y :: r -> drop p (<[(p + length l)%nat := x]> b) = l ++ x :: r.
Proof.
  intros Hb. rewrite drop_insert_ge by lia. rewrite Hb, insert_app_r_alt by lia.
  by replace (p + length l - p - length l)%nat with O by lia.
Qed.

Lemma drop_after (b l r : list Z) x p : drop p b = l ++ x :: r -> drop (p + length l + 1) b = r.
Proof.
  intros H. rewrite <- Nat.add_assoc, <- drop_drop, H. change (l ++ x :: r) with (l ++ [x] ++ r).
  rewrite app_assoc. replace (length l + 1)%nat with (length (l ++ [x])) by by rewrite length_app. by rewrite drop_app_length.
Qed.

Section Spec.
Context {W : Type} `{Hsys : Syscalls W} (fd : Z) (rest out : W -> list Z) `{Hlaws : !FileLaws W fd rest out}.
Context (pattern : list Z).

Lemma grep_lines_spec fuel data tl buf p w :
  drop p buf = data ++ 0 :: tl -> no_nul data -> (length data < fuel)%nat ->
  exists buf' w', grep_lines fuel pattern buf p w = URet (buf', (p + (length data - length (snd (lines data))))%nat) w' /\
    length buf' = length buf /\ drop (p + (length data - length (snd (lines data)))) buf' = snd (lines data) ++ 0 :: tl /\
    out w' = out w ++ print_matching pattern (fst (lines data)) /\ rest w' = rest w.
Proof.
  revert data buf p w. induction fuel as [|fuel IH]; intros data buf p w Hd H0 Hf; [lia|]. cbn [grep_lines].
  destruct (lines_cases data) as [Hn|(l0 & t & -> & Hn)].
  - rewrite Hd, strchr_at_none by done. exists buf, w. rewrite lines_rest by done. cbn [fst snd].
    rewrite Nat.sub_diag, Nat.add_0_r. split_and!; try done. by rewrite app_nil_r.
  - unfold no_nul in H0. rewrite <- app_assoc in Hd. cbn [app] in Hd. rewrite Hd, strchr_at_some by (done || unfold no_nul; set_solver).
    set (q := (p + length l0)%nat).
    pose proof (fun x => drop_set _ _ _ _ x _ Hd) as Hins. fold q in Hins.
    rewrite Hins. rewrite cstr_nul by (unfold no_nul; set_solver).
    assert (forall b w1, length b = length buf -> drop (q + 1) b = t ++ 0 :: tl -> rest w1 = rest w ->
      out w1 = out w ++ (if match_re pattern l0 then l0 ++ [c_nl] else []) ->
      exists buf' w', grep_lines fuel pattern b (q + 1) w1 =
        URet (buf', (p + (length (l0 ++ c_nl :: t) - length (snd (lines (l0 ++ c_nl :: t)))))%nat) w' /\
        length buf' = length buf /\
        drop (p + (length (l0 ++ c_nl :: t) - length (snd (lines (l0 ++ c_nl :: t))))) buf' = snd (lines (l0 ++ c_nl :: t)) ++ 0 :: tl /\
        out w' = out w ++ print_matching pattern (fst (lines (l0 ++ c_nl :: t))) /\ rest w' = rest w) as Hgo.
    { intros b w1 Hb Hdb Hr Ho. destruct (IH t b (q + 1)%nat w1 Hdb) as (b' & w' & E & H1 & H2 & H3 & H4); [unfold no_nul; set_solver|rewrite length_app in Hf; cbn in Hf; lia|].
      rewrite lines_line by done. cbn [fst snd]. assert (length (snd (lines t)) <= length t)%nat as Hle.
      { rewrite (lines_join t) at 2. rewrite length_app. lia. }
      rewrite length_app. cbn [length]. replace (p + (length l0 + S (length t) - length (snd (lines t))))%nat
        with (q + 1 + (length t - length (snd (lines t))))%nat by lia.
      exists b', w'. split_and!; [done|congruence|done| |congruence]. rewrite H3, Ho.
      change (l0 :: fst (lines t)) with ([l0] ++ fst (lines t)). rewrite print_matching_app, <- app_assoc. do 2 f_equal.
      unfold print_matching. cbn. by rewrite app_nil_r. }
    destruct (match_re pattern l0) eqn:Em.
    + destruct (write_law (slice p (q + 1 - p) (<[q := c_nl]> (<[q := 0]> buf))) w) as (w1 & Hw & Ho & Hr).
      unfold bindU, call. rewrite Hw. apply Hgo; [by rewrite !length_insert| |done|].
      * rewrite list_insert_insert_eq. by eapply drop_after.
      * rewrite Ho. f_equal. unfold slice. rewrite list_insert_insert_eq, Hins.
        replace (q + 1 - p)%nat with (length (l0 ++ [c_nl])) by (rewrite length_app; cbn; lia).
        replace (l0 ++ c_nl :: t ++ 0 :: tl) with ((l0 ++ [c_nl]) ++ t ++ 0 :: tl) by by rewrite <- app_assoc.
        by rewrite take_app_length.
    + apply Hgo; [by rewrite length_insert| |done|by rewrite app_nil_r]. by eapply drop_after.
Qed.

(** Every line, and what follows the last one, fits into the buffer with its newline and NUL. *)
Definition short_lines (l : list Z) : Prop :=
  Forall (fun x => length x <= BUFSIZ - 2)%nat (fst (lines l)) /\ (length (snd (lines l)) <= BUFSIZ - 2)%nat.

Lemma short_prefix part l : c_nl ∉ part -> short_lines (part ++ l) -> (length part <= BUFSIZ - 2)%nat.
Proof.
  intros Hn [Hf Hr]. rewrite lines_app, (lines_rest part Hn) in Hf, Hr. cbn [fst snd app] in Hf, Hr.
  destruct (lines_cases l) as [Hl|(l0 & t & -> & Hl)].
  - rewrite lines_rest in Hr by by rewrite not_elem_of_app. cbn [snd] in Hr. rewrite length_app in Hr. lia.
  - rewrite app_assoc, lines_line in Hf by by rewrite not_elem_of_app. apply Forall_cons in Hf as [Hf _]. rewrite length_app in Hf. lia.
Qed.

Lemma fill_drop buf part bytes :
  take (length part) buf = part -> (length part + length bytes < length buf)%nat ->
  exists tl, grep_fill buf (length part) bytes = (part ++ bytes) ++ 0 :: tl /\ length (grep_fill buf (length part) bytes) = length buf.
Proof.
  intros Hp Hlen. unfold grep_fill, splice. rewrite Hp, app_assoc.
  destruct (drop (length part + length bytes) buf) as [|y tl] eqn:E.
  { assert (length (drop (length part + length bytes) buf) = O) as Hd by by rewrite E. rewrite length_drop in Hd. lia. }
  assert (length (y :: tl) = length buf - (length part + length bytes))%nat as Hl by by rewrite <- E, length_drop.
  exists tl. rewrite insert_app_r_alt by (rewrite length_app; lia). rewrite length_app.
  replace (length part + length bytes - (length part + length bytes))%nat with O by lia. cbn [insert list_insert].
  split; [done|]. rewrite !length_app. cbn in *. lia.
Qed.

Lemma grep_loop_spec fuel buf part w :
  length buf = BUFSIZ -> take (length part) buf = part -> c_nl ∉ part -> no_nul (part ++ rest w) ->
  short_lines (part ++ rest w) -> (length (rest w) < fuel)%nat ->
  exists w', grep_loop fuel pattern fd buf (length part) w = URet tt w' /\
    out w' = out w ++ print_matching pattern (fst (lines (part ++ rest w))) /\ rest w' = [].
Proof.
  revert buf part w. induction fuel as [|fuel IH]; intros buf part w Hlen Hpart Hn H0 Hshort Hf; [lia|].
  pose proof (short_prefix part _ Hn Hshort) as Hm. unfold BUFSIZ in *. cbn [grep_loop].
  destruct (read_law (1024 - length part - 1) w) as (bytes & w1 & Hr & Hrest & Hle & Hne & Hout).
  unfold bindU at 1, call at 1. unfold BUFSIZ. rewrite Hr.
  destruct bytes as [|b0 bytes]; cbn [length].
  { assert (rest w = []) as He. { destruct (rest w); [done|]. by destruct (Hne ltac:(done) ltac:(lia)). }
    exists w1. rewrite He in *. rewrite app_nil_r, lines_rest by done. split_and!; [done| |done].
    by rewrite Hout, app_nil_r. }
  set (bs := b0 :: bytes) in *. change (S (length bytes)) with (length bs).
  assert (0 < length bs)%nat as Hpos by (cbn; lia). rewrite (proj2 (Z.leb_gt _ _)) by lia. rewrite Nat2Z.id.
  destruct (fill_drop buf part bs Hpart ltac:(lia)) as (tl & Hfill & Hfl).
  rewrite Hrest in *. unfold no_nul in H0.
  destruct (grep_lines_spec 1025 (part ++ bs) tl (grep_fill buf (length part) bs) 0 w1) as (buf' & w2 & E & Hl' & Hd' & Ho' & Hr');
    [done|unfold no_nul; rewrite !not_elem_of_app in *; tauto|rewrite length_app; lia|].
  ustep E. cbn [Nat.add] in *. set (r := snd (lines (part ++ bs))) in *.
  pose proof (lines_join (part ++ bs)) as Hj. fold r in Hj. apply (f_equal length) in Hj. rewrite !length_app in Hj.
  rewrite length_app in *. rewrite (proj2 (Nat.ltb_lt _ _)) by lia.
  replace (length part + length bs - (length part + length bs - length r))%nat with (length r) by lia.
  assert (slice (length part + length bs - length r) (length r) buf' = r) as Hsl.
  { unfold slice. by rewrite Hd', take_app_length. }
  assert (r ++ rest w1 = r ++ rest w2) as Hrr by by rewrite Hr'.
  unfold short_lines in Hshort. rewrite app_assoc, lines_app in Hshort. fold r in Hshort. rewrite Hrr in Hshort. cbn [fst snd] in Hshort.
  destruct (IH (splice 0 (slice (length part + length bs - length r) (length r) buf') buf') r w2) as (w3 & E3 & Ho3 & Hr3).
  - rewrite Hsl. unfold splice. rewrite !length_app, length_take, length_drop. lia.
  - rewrite Hsl. unfold splice. rewrite take_0. cbn [app]. by rewrite take_app_length.
  - apply lines_rest_no_nl.
  - rewrite <- Hrr. pose proof (lines_join (part ++ bs)) as Hj2. fold r in Hj2. unfold no_nul.
    rewrite app_assoc, Hj2 in H0. rewrite !not_elem_of_app in *. tauto.
  - destruct Hshort as [Hs1 Hs2]. apply Forall_app in Hs1 as [_ Hs1]. done.
  - rewrite Hr'. lia.
  - exists w3. split_and!; [done| |done]. rewrite Ho3, Ho', Hout, <- app_assoc. f_equal.
    rewrite (app_assoc part), (lines_app (part ++ bs)). fold r. cbn [fst]. by rewrite print_matching_app, Hrr.
Qed.

(** C26: [grep] prints exactly the lines of its input that match, in order, and returns, however the
    reads split the input.  The input has no NUL, its lines have at most 1022 characters, and
    every read makes progress, so one more round than there are bytes is enough. *)
Theorem grep_prints_matching fuel w :
  no_nul (rest w) -> short_lines (rest w) -> (length (rest w) < fuel)%nat ->
  exists w', grep fuel pattern fd w = URet tt w' /\
    out w' = out w ++ print_matching pattern (fst (lines (rest w))) /\ rest w' = [].
Proof.
  intros H0 Hs Hf. apply (grep_loop_spec fuel (replicate BUFSIZ 0) [] w); cbn [app]; try done. apply not_elem_of_nil.
Qed.
End Spec.

Definition demo_text : list Z := str "one" ++ [c_nl] ++ str "two" ++ [c_nl] ++ str "three" ++ [c_nl].
Definition demo_tape : tape := Tape demo_text [0; 4; 0]%nat [].

Lemma grep_prints_matching_witness :
  exists w', grep 15 (str "^t.*o*e*$") 3 demo_tape = URet tt w' /\
    tp_out w' = str "two" ++ [c_nl] ++ str "three" ++ [c_nl] /\ tp_in w' = [].
Proof.
  refine (grep_prints_matching 3 tp_in tp_out (str "^t.*o*e*$") 15 demo_tape _ _ _).
  - unfold no_nul. by_decide.
  - split; vm_compute; repeat constructor; lia.
  - vm_compute. lia.
Defined.

(** A line that fills the buffer makes [grep] ask for no bytes and stop, although there is more
    input: nothing of it is printed. *)
Section LongLine.
Context {W : Type} `{Hsys : Syscalls W} (fd : Z) (rest out : W -> list Z) `{Hlaws : !FileLaws W fd rest out}.
Context (pattern : list Z).

Lemma grep_loop_long_line fuel buf part w l t :
  length buf = BUFSIZ -> take (length part) buf = part -> part ++ rest w = l ++ t -> (length part <= length l)%nat ->
  length l = (BUFSIZ - 1)%nat -> c_nl ∉ l -> no_nul l -> (length l - length part < fuel)%nat ->
  exists w', grep_loop fuel pattern fd buf (length part) w = URet tt w' /\ out w' = out w.
Proof.
  revert buf part w. unfold BUFSIZ. induction fuel as [|fuel IH]; intros buf part w Hlen Hpart Heq Hle Hl Hn H0 Hf; [lia|].
  cbn [grep_loop]. destruct (read_law (1024 - length part - 1) w) as (bytes & w1 & Hr & Hrest & Hb & Hne & Hout).
  unfold bindU at 1, call at 1. unfold BUFSIZ. rewrite Hr. destruct bytes as [|b0 bytes]; [by exists w1|].
  set (bs := b0 :: bytes) in *. assert (0 < length bs)%nat as Hpos by (cbn; lia). rewrite (proj2 (Z.leb_gt _ _)) by lia. rewrite Nat2Z.id.
  destruct (fill_drop buf part bs Hpart ltac:(lia)) as (tl & Hfill & Hfl).
  assert (exists l', l = (part ++ bs) ++ l') as [l' ->].
  { rewrite Hrest, app_assoc in Heq. assert (take (length (part ++ bs)) (l ++ t) = part ++ bs) as Ht by by rewrite <- Heq, take_app_length.
    rewrite take_app_le in Ht by (rewrite length_app; lia). exists (drop (length (part ++ bs)) l). by rewrite <- Ht at 1; rewrite take_drop. }
  assert (c_nl ∉ part ++ bs) as Hn' by (rewrite not_elem_of_app in Hn; tauto).
  assert (no_nul (part ++ bs)) as H0' by (unfold no_nul in *; rewrite not_elem_of_app in H0; tauto).
  destruct (grep_lines_spec fd rest out pattern 1025 (part ++ bs) tl (grep_fill buf (length part) bs) 0 w1) as (buf' & w2 & E & Hl' & Hd' & Ho' & Hr');
    [done|done|rewrite length_app; lia|].
  rewrite lines_rest in E, Hd', Ho' by done. cbn [snd fst] in *. rewrite Nat.sub_diag in E, Hd'. cbn [Nat.add] in E, Hd'. rewrite drop_0 in Hd'.
  ustep E. rewrite (proj2 (Nat.ltb_lt _ _)), Nat.sub_0_r by lia.
  assert (slice 0 (length part + length bs) buf' = part ++ bs) as Hsl.
  { unfold slice. rewrite drop_0, Hd', <- length_app. by rewrite take_app_length. }
  rewrite Hsl. destruct (IH (splice 0 (part ++ bs) buf') (part ++ bs) w2) as (w3 & E3 & Ho3).
  - unfold splice. rewrite !length_app, length_take, length_drop. lia.
  - unfold splice. rewrite take_0. cbn [app]. by rewrite take_app_length.
  - by rewrite Hr', <- app_assoc, <- Hrest.
  - rewrite length_app. lia.
  - done.
  - done.
  - done.
  - rewrite !length_app in *. lia.
  - exists w3. rewrite length_app in E3. split; [done|]. by rewrite Ho3, Ho', Hout, app_nil_r.
Qed.

Lemma grep_long_line_stops fuel w l t :
  rest w = l ++ t -> length l = (BUFSIZ - 1)%nat -> c_nl ∉ l -> no_nul l -> (BUFSIZ <= fuel)%nat ->
  exists w', grep fuel pattern fd w = URet tt w' /\ out w' = out w.
Proof.
  intros Hr Hl Hn H0 Hf. apply (grep_loop_long_line fuel (replicate BUFSIZ 0) [] w l t); cbn [app length]; try done; unfold BUFSIZ in *; lia.
Qed.
End LongLine.
