(* ===== verification/Shell.v ===== *)
(** * The shell: user/sh.c

    The parser works on a line in a buffer; a word is the pair of the positions where it starts
    and ends, as the pointers [q] and [eq] of the source.  [nulterminate] writes a NUL at the
    end of every word of the parsed command, so that the words become C strings in the buffer.
    [runcmd] is the program of the process that runs a command; it goes through [fork] as the
    parent or as the child, as the system call answers. *)

From stdpp Require Import base numbers list gmap strings.
From S2P Require Import Prelude Mem Types Printf User.

Definition MAXARGS : nat := 10.

(** A parsed command; its words are positions in the line, or strings. *)
Inductive cmd (word : Type) :=
| EXEC (argv : list word)
| REDIR (c : cmd word) (file : word) (mode fd : Z)
| PIPE (left right : cmd word)
| LIST (left right : cmd word)
| BACK (c : cmd word).
Arguments EXEC {word} argv.
Arguments REDIR {word} c file mode fd.
Arguments PIPE {word} left right.
Arguments LIST {word} left right.
Arguments BACK {word} c.

Definition word : Type := nat * nat.

Definition whitespace : list Z := [32; 9; 13; 10; 11].
Definition symbols : list Z := str "<|>&;()".

(** ** Parsing *)

(** [SLeft] is the panic of [parsecmd] that also prints the rest of the line; [SNull] is a
    [memset] through a null pointer. *)
Inductive pres (A : Type) := Parsed (a : A) (s m : nat) | SPanic (msg : string) | SLeft (s : nat) | SNull | SFuel.
Arguments Parsed {A} a s m.
Arguments SPanic {A} msg.
Arguments SLeft {A} s.
Arguments SNull {A}.
Arguments SFuel {A}.

(** A parser maps the position [*ps] to a result and the new position; [m] is the number of
    calls of [malloc] that succeed before the first one that fails. *)
Definition P (A : Type) : Type := nat -> nat -> pres A.
Definition bindP {A B} (c : P A) (k : A -> P B) : P B := fun s m =>
  match c s m with
  | Parsed a s' m' => k a s' m'
  | SPanic msg => SPanic msg
  | SLeft s' => SLeft s'
  | SNull => SNull
  | SFuel => SFuel
  end.
Definition retP {A} (a : A) : P A := fun s m => Parsed a s m.
Definition spanic {A} (msg : string) : P A := fun _ _ => SPanic msg.
Notation "'let^' x := c 'in' k" := (bindP c (fun x => k))
  (at level 100, x pattern, c at next level, k at level 200, right associativity) : user_scope.

(** ** The constructors

    [cmd = malloc(...); memset(cmd, 0, ...)]: the result of [malloc] is not tested, so when it
    is null the [memset] is undefined and the tests for a null command, in [runcmd] and
    [nulterminate], are never reached. *)

Definition node : P unit := fun s m => match m with O => SNull | S m' => Parsed tt s m' end.

Definition execcmd : P (cmd word) := let^ _ := node in retP (EXEC []).
Definition redircmd (subcmd : cmd word) (file : word) (mode fd : Z) : P (cmd word) :=
  let^ _ := node in retP (REDIR subcmd file mode fd).
Definition pipecmd (left right : cmd word) : P (cmd word) := let^ _ := node in retP (PIPE left right).
Definition listcmd (left right : cmd word) : P (cmd word) := let^ _ := node in retP (LIST left right).
Definition backcmd (subcmd : cmd word) : P (cmd word) := let^ _ := node in retP (BACK subcmd).

Section Parser.
(** The line is [buf[0..es)], followed by a NUL. *)
Context (buf : list Z) (es : nat).

Definition char (s : nat) : Z := buf !!! s.

(** The loops that advance [s] up to [es] while its character passes a test; [n] is [es - s]. *)
Fixpoint advance (test : Z -> bool) (n s : nat) : nat :=
  match n with
  | O => s
  | S k => if test (char s) then advance test k (S s) else s
  end.
Definition is_space (c : Z) : bool := strchr whitespace c.
Definition in_word (c : Z) : bool := negb (strchr whitespace c) && negb (strchr symbols c).
Definition skip_space (s : nat) : nat := advance is_space (es - s) s.

(** The token, and where it starts and ends. *)
Definition gettoken : P (Z * word) := fun s m =>
  let s := skip_space s in
  let q := s in
  let c := char s in
  let '(ret, s) :=
    if c =? 0 then (0, s)
    else if strchr (str "|();&<") c then (c, S s)
    else if c =? 62 then (if char (S s) =? 62 then (43, S (S s)) else (62, S s))
    else (97, advance in_word (es - s) s) in
  let eq := s in
  Parsed (ret, (q, eq)) (skip_space s) m.

Definition peek (toks : list Z) : P bool := fun s m =>
  let s := skip_space s in
  Parsed (negb (char s =? 0) && strchr toks (char s)) s m.

(** The loop of [parseredirs]; the redirections come in the order of the line. *)
Fixpoint redirs_loop (fuel : nat) (c : cmd word) : P (cmd word) :=
  match fuel with
  | O => fun _ _ => SFuel
  | S k =>
      let^ b := peek (str "<>") in
      if b : bool then
        let^ (tok, _) := gettoken in
        let^ (t, w) := gettoken in
        if negb (t =? 97) then spanic "missing file for redirection" else
        let^ c :=
          (if tok =? 60 then redircmd c w O_RDONLY 0
           else if tok =? 62 then redircmd c w (Z.lor (Z.lor O_WRONLY O_CREATE) O_TRUNC) 1
           else if tok =? 43 then redircmd c w (Z.lor O_WRONLY O_CREATE) 1
           else retP c) in
        redirs_loop k c
      else retP c
  end.
Definition parseredirs (c : cmd word) : P (cmd word) := fun s => redirs_loop (S (es - s)) c s.

(** [cmd->argv[argc] = q; cmd->eargv[argc] = eq], where [cmd] is the command inside the
    redirections parsed so far. *)
Fixpoint add_arg (w : word) (c : cmd word) : cmd word :=
  match c with
  | EXEC argv => EXEC (argv ++ [w])
  | REDIR c file mode fd => REDIR (add_arg w c) file mode fd
  | _ => c
  end.

(** The loop of [parseexec]. *)
Fixpoint args_loop (fuel : nat) (argc : nat) (ret : cmd word) : P (cmd word) :=
  match fuel with
  | O => fun _ _ => SFuel
  | S k =>
      let^ b := peek (str "|)&;") in
      if b : bool then retP ret else
      let^ (tok, w) := gettoken in
      if tok =? 0 then retP ret else
      if negb (tok =? 97) then spanic "syntax" else
      let ret := add_arg w ret in
      let argc := S argc in
      if (MAXARGS <=? argc)%nat then spanic "too many args" else
      let^ ret := parseredirs ret in
      args_loop k argc ret
  end.

(** [while(peek("&"))]: the loop of [parseline]. *)
Fixpoint back_loop (fuel : nat) (c : cmd word) : P (cmd word) :=
  match fuel with
  | O => fun _ _ => SFuel
  | S k =>
      let^ b := peek (str "&") in
      if b : bool then let^ _ := gettoken in let^ c := backcmd c in back_loop k c else retP c
  end.

(** The four routines call each other; [fuel] bounds the depth of the calls. *)
Fixpoint parseline (fuel : nat) : P (cmd word) :=
  match fuel with
  | O => fun _ _ => SFuel
  | S k =>
      let^ c := parsepipe k in
      let^ c := (fun s => back_loop (S (es - s)) c s) in
      let^ b := peek (str ";") in
      if b : bool then
        let^ _ := gettoken in
        let^ r := parseline k in
        listcmd c r
      else retP c
  end
with parsepipe (fuel : nat) : P (cmd word) :=
  match fuel with
  | O => fun _ _ => SFuel
  | S k =>
      let^ c := parseexec k in
      let^ b := peek (str "|") in
      if b : bool then
        let^ _ := gettoken in
        let^ r := parsepipe k in
        pipecmd c r
      else retP c
  end
with parseexec (fuel : nat) : P (cmd word) :=
  match fuel with
  | O => fun _ _ => SFuel
  | S k =>
      let^ b := peek (str "(") in
      if b : bool then parseblock k else
      let^ ret := execcmd in
      let^ ret := parseredirs ret in
      (fun s => args_loop (S (es - s)) 0 ret s)
  end
with parseblock (fuel : nat) : P (cmd word) :=
  match fuel with
  | O => fun _ _ => SFuel
  | S k =>
      let^ b := peek (str "(") in
      if negb b then spanic "parseblock" else
      let^ _ := gettoken in
      let^ c := parseline k in
      let^ b := peek (str ")") in
      if negb b then spanic "syntax - missing )" else
      let^ _ := gettoken in
      parseredirs c
  end.
End Parser.

(** [nulterminate]: the words of a command in the order their ends are overwritten. *)
Fixpoint cmd_words {A} (c : cmd A) : list A :=
  match c with
  | EXEC argv => argv
  | REDIR c file _ _ => cmd_words c ++ [file]
  | PIPE l r | LIST l r => cmd_words l ++ cmd_words r
  | BACK c => cmd_words c
  end.
Definition nulterminate (c : cmd word) (buf : list Z) : list Z :=
  foldl (fun b w => <[snd w := 0]> b) buf (cmd_words c).

(** The fuel [parsecmd] needs: every cycle through the four routines consumes a character. *)
Definition parse_fuel (n : nat) : nat := 4 * n + 4.

(** [parsecmd(s)] for the line [line], in a process where [malloc] succeeds [room] times: the
    command and the buffer with its words terminated. *)
Definition parsecmd (room : nat) (line : list Z) : pres (cmd word * list Z) :=
  let buf := line ++ [0] in
  let es := length line in
  (let^ c := parseline buf es (parse_fuel es) in
   let^ _ := peek buf es [] in
   fun s m =>
     if negb (s =? es)%nat then SLeft s
     else Parsed (c, nulterminate c buf) s m) O room.

(** ** Positions *)

Section Facts.
Context (buf : list Z) (es : nat).
Context (Hend : char buf es = 0) (Hline : forall s, (s < es)%nat -> char buf s <> 0).

Lemma advance_spec test n s :
  (s <= advance buf test n s <= s + n)%nat /\
  (forall i, (s <= i < advance buf test n s)%nat -> test (char buf i) = true) /\
  ((advance buf test n s < s + n)%nat -> test (char buf (advance buf test n s)) = false).
Proof.
  revert s. induction n as [|n IH]; intros s; cbn [advance]; [split_and!; intros; lia|].
  destruct (test (char buf s)) eqn:E; [|split; [lia|split; [intros; lia|done]]].
  destruct (IH (S s)) as (H1 & H2 & H3). split; [lia|split; [|intros; apply H3; lia]].
  intros i Hi. destruct (decide (i = s)) as [->|]; [done|apply H2; lia].
Qed.

Lemma skip_space_spec s : (s <= es)%nat -> (s <= skip_space buf es s <= es)%nat /\
  ((skip_space buf es s < es)%nat -> is_space (char buf (skip_space buf es s)) = false).
Proof.
  intros Hs. unfold skip_space. destruct (advance_spec is_space (es - s) s) as (H1 & _ & H3).
  split; [lia|]. intros Hlt. apply H3. lia.
Qed.

(** A word of the line: not empty, of word characters, and ended by the end of the line or by a
    character that belongs to no word. *)
Definition word_ok (w : word) : Prop :=
  (fst w < snd w <= es)%nat /\ (forall i, (fst w <= i < snd w)%nat -> in_word (char buf i) = true) /\
  ((snd w < es)%nat -> in_word (char buf (snd w)) = false).

Lemma nul_iff s : (s <= es)%nat -> char buf s = 0 <-> s = es.
Proof. intros Hs. split; [|by intros ->]. intros H. destruct (decide (s = es)); [done|]. by apply Hline in H; [|lia]. Qed.

Lemma gettoken_spec s m : (s <= es)%nat ->
  exists tok w s', gettoken buf es s m = Parsed (tok, w) s' m /\ (s <= s' <= es)%nat /\
    (skip_space buf es s <> es -> tok <> 0 /\ (s < s')%nat) /\ (skip_space buf es s = es -> tok = 0) /\ (tok = 97 -> word_ok w).
Proof.
  intros Hs. destruct (skip_space_spec s Hs) as [Hk Hsp]. unfold gettoken. cbv zeta.
  set (p := skip_space buf es s) in *. set (c := char buf p) in *.
  assert (forall q, (p < q <= es)%nat -> (s <= skip_space buf es q <= es)%nat /\ (s < skip_space buf es q)%nat) as Hq.
  { intros q Hq. destruct (skip_space_spec q) as [? _]; lia. }
  destruct (c =? 0) eqn:E0.
  { apply Z.eqb_eq in E0. apply nul_iff in E0; [|lia]. destruct (skip_space_spec p) as [H1 _]; [lia|].
    eexists _, _, _. split; [done|]. split; [lia|]. split; [intros; lia|]. done. }
  apply Z.eqb_neq in E0. assert (p < es)%nat as Hp by (destruct (decide (p = es)) as [Hpe|]; [by rewrite <- Hpe in Hend|lia]).
  destruct (strchr (str "|();&<") c) eqn:E1.
  { destruct (Hq (S p)) as [H1 H2]; [lia|]. eexists _, _, _. split; [done|]. split; [lia|].
    split; [done|]. split; [lia|]. intros Hc. rewrite Hc in E1. by vm_compute in E1. }
  destruct (c =? 62) eqn:E2.
  { destruct (char buf (S p) =? 62) eqn:E3.
    - assert (S p <> es) by (intros Hpe; rewrite Hpe, Hend in E3; done).
      destruct (Hq (S (S p))) as [H1 H2]; [lia|]. eexists _, _, _. split; [done|]. split; [lia|]. split; [by split; [|lia]|]. split; [lia|done].
    - destruct (Hq (S p)) as [H1 H2]; [lia|]. eexists _, _, _. split; [done|]. split; [lia|]. split; [by split; [|lia]|]. split; [lia|done]. }
  destruct (advance_spec in_word (es - p) p) as (A1 & A2 & A3).
  assert (p < advance buf in_word (es - p) p)%nat as Hadv.
  { destruct (decide (advance buf in_word (es - p) p = p)) as [He|]; [|lia]. rewrite He in A3. specialize (A3 ltac:(lia)).
    fold c in A3. unfold in_word in A3. specialize (Hsp Hp). fold c in Hsp. unfold is_space in Hsp. rewrite Hsp in A3. cbn [negb andb] in A3.
    apply negb_false_iff in A3. unfold symbols in A3. apply existsb_exists in A3 as (y & Hy & Heq). apply Z.eqb_eq in Heq. subst y.
    cbn in Hy, E1. destruct_or! Hy; try (rewrite <- Hy in E1; done); try done. by rewrite <- Hy in E2. }
  destruct (Hq (advance buf in_word (es - p) p)) as [H1 H2]; [lia|].
  eexists _, _, _. split; [done|]. split; [lia|]. split; [by split; [|lia]|]. split; [lia|]. intros _.
  split; cbn [fst snd]; [lia|]. split; [done|]. intros Hlt. apply A3. lia.
Qed.

Lemma peek_spec toks s m : (s <= es)%nat ->
  exists b, peek buf es toks s m = Parsed b (skip_space buf es s) m /\ (s <= skip_space buf es s <= es)%nat /\
    (b = true -> skip_space buf es s <> es).
Proof.
  intros Hs. destruct (skip_space_spec s Hs) as [Hk _]. eexists. split; [reflexivity|]. split; [done|].
  intros Hb He. rewrite He, Hend in Hb. done.
Qed.

Lemma skip_space_idem s : (s <= es)%nat -> skip_space buf es (skip_space buf es s) = skip_space buf es s.
Proof.
  intros Hs. destruct (skip_space_spec s Hs) as [Hk Hsp]. set (p := skip_space buf es s) in *.
  unfold skip_space. destruct (es - p)%nat as [|n] eqn:E; [done|]. cbn [advance]. by rewrite Hsp by lia.
Qed.

(** ** What the parsers return *)

(** The parser either panics or returns a result that satisfies [Q], with the position not
    before [s] and not after the end of the line; it does not run out of fuel.  It calls
    [malloc] at most twice for every character that it passes, and [d] times besides. *)
Definition okP {A} (d s m : nat) (Q : A -> Prop) (r : pres A) : Prop :=
  match r with
  | Parsed a s' m' => (s <= s' <= es)%nat /\ (m <= m' + 2 * (s' - s) + d)%nat /\ Q a
  | SPanic _ | SLeft _ => True
  | SNull => (m < 2 * (es - s) + d)%nat
  | SFuel => False
  end.

Lemma okP_weaken {A} d d' s s' m (Q Q' : A -> Prop) r :
  okP d' s' m Q r -> (s <= s' <= es)%nat -> (d' <= d + 2 * (s' - s))%nat -> (forall a, Q a -> Q' a) -> okP d s m Q' r.
Proof.
  destruct r as [a t n| | | |]; cbn; try done; [|lia]. intros (H1 & H2 & H3) Hs Hd HQ. split; [lia|]. split; [lia|auto].
Qed.

Lemma okP_bind {A B} (c : P A) (k : A -> P B) d1 d2 s m (Q : A -> Prop) (R : B -> Prop) :
  (s <= es)%nat -> okP d1 s m Q (c s m) -> (forall a s' m', (s <= s' <= es)%nat -> Q a -> okP d2 s' m' R (k a s' m')) ->
  okP (d1 + d2) s m R (bindP c k s m).
Proof.
  intros Hs. unfold bindP. destruct (c s m) as [a s' m'| | | |]; cbn; try done; [|lia]. intros (H1 & H2 & H3) H.
  specialize (H a s' m' H1 H3). destruct (k a s' m') as [b s2 m2| | | |]; cbn in *; try done; [|lia].
  destruct H as (H4 & H5 & H6). split; [lia|]. split; [lia|done].
Qed.

Lemma here_ok {A} d (a : A) s p m (Q : A -> Prop) : (s <= p <= es)%nat -> Q a -> okP d s m Q (Parsed a p m).
Proof. intros. cbn. split; [lia|]. split; [lia|done]. Qed.

Lemma node_ok {A} (a : A) s m (Q : A -> Prop) : (s <= es)%nat -> Q a -> okP 1 s m Q (bindP node (fun _ => retP a) s m).
Proof. intros Hs Ha. unfold bindP, node, retP. destruct m; cbn; [lia|]. split; [lia|]. split; [lia|done]. Qed.

(** No [EXEC] has more arguments than fit into [argv] with the null pointer that ends it. *)
Fixpoint args_fit {A} (c : cmd A) : Prop :=
  match c with
  | EXEC argv => (length argv < MAXARGS)%nat
  | REDIR c _ _ _ | BACK c => args_fit c
  | PIPE l r | LIST l r => args_fit l /\ args_fit r
  end.

Definition cmd_ok (c : cmd word) : Prop := Forall word_ok (cmd_words c) /\ args_fit c.

(** The command inside the redirections, with its number of arguments. *)
Fixpoint inner_args {A} (c : cmd A) : option nat :=
  match c with EXEC argv => Some (length argv) | REDIR c _ _ _ => inner_args c | _ => None end.

Lemma redirs_loop_ok fuel c s m : (s <= es)%nat -> (es - s < fuel)%nat -> cmd_ok c ->
  okP 0 s m (fun c' => cmd_ok c' /\ inner_args c' = inner_args c) (redirs_loop buf es fuel c s m).
Proof.
  revert c s m. induction fuel as [|fuel IH]; intros c s m Hs Hf Hc; [lia|]. cbn [redirs_loop]. unfold bindP at 1.
  destruct (peek_spec (str "<>") s m Hs) as (b & -> & Hk & Hb). pose proof (skip_space_idem s Hs) as Hid. set (p := skip_space buf es s) in *.
  destruct b; [|by apply here_ok; [lia|]]. specialize (Hb eq_refl). unfold bindP at 1.
  destruct (gettoken_spec p m) as (tok & w0 & s1 & -> & H1 & Hne & _ & _); [lia|].
  rewrite (Hid : skip_space buf es p = p) in Hne. destruct (Hne Hb) as [_ Hlt]. unfold bindP at 1.
  destruct (gettoken_spec s1 m) as (t & w & s2 & -> & H2 & _ & _ & Hw); [lia|].
  destruct (t =? 97) eqn:Et; [|done]. apply Z.eqb_eq in Et. cbn [negb]. specialize (Hw Et).
  apply (okP_weaken 0 (1 + 0) s s2 m (fun c' => cmd_ok c' /\ inner_args c' = inner_args c)); [|lia|lia|done].
  assert (forall mode fd, cmd_ok (REDIR c w mode fd)) as Hr.
  { intros mode fd. destruct Hc as [Hc1 Hc2]. split; [|done]. cbn. apply Forall_app. split; [done|by constructor]. }
  eapply (okP_bind _ _ 1 0 s2 m (fun c' => cmd_ok c' /\ inner_args c' = inner_args c)); [lia| |].
  - unfold redircmd. destruct (tok =? 60), (tok =? 62), (tok =? 43);
      first [apply node_ok; [lia|by split] | by apply here_ok; [lia|]].
  - intros c' s3 m3 H3 [Hc' Hi]. eapply okP_weaken; [apply (IH c' s3); [lia|lia|done]|lia|lia|].
    intros c2 [H4 H5]. split; [done|congruence].
Qed.

Lemma parseredirs_ok c s m : (s <= es)%nat -> cmd_ok c ->
  okP 0 s m (fun c' => cmd_ok c' /\ inner_args c' = inner_args c) (parseredirs buf es c s m).
Proof. intros. apply redirs_loop_ok; [done|lia|done]. Qed.

Lemma add_arg_ok w c n : cmd_ok c -> inner_args c = Some n -> word_ok w -> (S n < MAXARGS)%nat ->
  cmd_ok (add_arg w c) /\ inner_args (add_arg w c) = Some (S n).
Proof.
  intros Hc Hn Hw Hlt. revert Hc Hn. induction c as [argv|c IH file mode fd| | |]; intros [Hc1 Hc2] Hn; try done; cbn in *.
  - injection Hn as <-. rewrite length_app. cbn. split; [split; cbn|f_equal; lia].
    + apply Forall_app. split; [done|by constructor].
    + rewrite length_app. cbn. lia.
  - apply Forall_app in Hc1 as [Hc1 Hf]. destruct IH as [[I1 I2] I3]; [done|done|]. split; [split; cbn; [by apply Forall_app|done]|done].
Qed.

Lemma args_loop_ok fuel argc ret s m : (s <= es)%nat -> (es - s < fuel)%nat -> cmd_ok ret -> inner_args ret = Some argc ->
  okP 0 s m cmd_ok (args_loop buf es fuel argc ret s m).
Proof.
  revert argc ret s m. induction fuel as [|fuel IH]; intros argc ret s m Hs Hf Hc Hi; [lia|]. cbn [args_loop]. unfold bindP at 1.
  destruct (peek_spec (str "|)&;") s m Hs) as (b & -> & Hk & _). pose proof (skip_space_idem s Hs) as Hid. set (p := skip_space buf es s) in *.
  destruct b; [by apply here_ok; [lia|]|]. unfold bindP at 1.
  destruct (gettoken_spec p m) as (tok & w & s1 & -> & H1 & Hne & Hz & Hw); [lia|]. rewrite (Hid : skip_space buf es p = p) in Hne, Hz.
  destruct (tok =? 0) eqn:E0; [by apply here_ok; [lia|]|]. apply Z.eqb_neq in E0.
  destruct (tok =? 97) eqn:E1; [|done]. apply Z.eqb_eq in E1. cbn [negb].
  assert (s < s1)%nat as Hlt by (destruct (decide (p = es)) as [Hpe|Hpe]; [by apply Hz in Hpe|destruct (Hne Hpe); lia]).
  destruct (Nat.leb_spec MAXARGS (S argc)); [done|].
  destruct (add_arg_ok w ret argc Hc Hi (Hw E1)) as [Hc' Hi']; [lia|].
  apply (okP_weaken 0 (0 + 0) s s1 m cmd_ok); [|lia|lia|done].
  eapply okP_bind; [lia|apply (parseredirs_ok (add_arg w ret)); [lia|done]|]. intros ret' s2 m2 H2 [Hc2 Hi2].
  apply (IH (S argc) ret' s2); [lia|lia|done|congruence].
Qed.

Lemma back_loop_ok fuel c s m : (s <= es)%nat -> (es - s < fuel)%nat -> cmd_ok c -> okP 0 s m cmd_ok (back_loop buf es fuel c s m).
Proof.
  revert c s m. induction fuel as [|fuel IH]; intros c s m Hs Hf Hc; [lia|]. cbn [back_loop]. unfold bindP at 1.
  destruct (peek_spec (str "&") s m Hs) as (b & -> & Hk & Hb). pose proof (skip_space_idem s Hs) as Hid. set (p := skip_space buf es s) in *.
  destruct b; [|by apply here_ok; [lia|]]. specialize (Hb eq_refl). unfold bindP at 1.
  destruct (gettoken_spec p m) as (tok & w & s1 & -> & H1 & Hne & _); [lia|]. rewrite (Hid : skip_space buf es p = p) in Hne. destruct (Hne Hb) as [_ Hlt].
  apply (okP_weaken 0 (1 + 0) s s1 m cmd_ok); [|lia|lia|done].
  eapply (okP_bind _ _ 1 0 s1 m cmd_ok); [lia|by apply node_ok; [lia|]|]. intros c' s2 m2 H2 Hc'. apply (IH c' s2); [lia|lia|done].
Qed.

(** [peek], and [gettoken] when it has seen a token: a position further on, which pays for two
    more calls of [malloc]. *)
Lemma peek_then {B} d toks (k1 k2 : P B) s m (R : B -> Prop) : (s <= es)%nat ->
  (forall s' m', (s < s' <= es)%nat -> okP (2 + d) s' m' R (k1 s' m')) -> (forall s' m', (s <= s' <= es)%nat -> okP d s' m' R (k2 s' m')) ->
  okP d s m R (bindP (peek buf es toks) (fun b : bool => if b then bindP (gettoken buf es) (fun _ => k1) else k2) s m).
Proof.
  intros Hs Hk1 Hk2. unfold bindP. destruct (peek_spec toks s m Hs) as (b & -> & Hk & Hb). pose proof (skip_space_idem s Hs) as Hid. set (p := skip_space buf es s) in *.
  destruct b; [|eapply okP_weaken; [apply Hk2; lia|lia|lia|done]].
  destruct (gettoken_spec p m) as (tok & w & s1 & -> & H1 & Hne & _); [lia|]. rewrite (Hid : skip_space buf es p = p) in Hne.
  destruct (Hne (Hb eq_refl)) as [_ Hlt]. eapply okP_weaken; [apply Hk1; lia|lia|lia|done].
Qed.

Lemma then_node {A B} (c : P A) (g : A -> B) d s m (Q : A -> Prop) (R : B -> Prop) :
  (s <= es)%nat -> okP d s m Q (c s m) -> (forall a, Q a -> R (g a)) ->
  okP (d + 1) s m R (bindP c (fun a => bindP node (fun _ => retP (g a))) s m).
Proof. intros Hs Hc HQ. eapply okP_bind; [done..|]. intros a s' m' Hs' Ha. apply node_ok; [lia|auto]. Qed.

(** Every cycle of calls passes a character of the line, so the fuel suffices. *)
Lemma parse_ok fuel s m : (s <= es)%nat ->
  (4 * (es - s) + 4 <= fuel -> okP 1 s m cmd_ok (parseline buf es fuel s m))%nat /\
  (4 * (es - s) + 3 <= fuel -> okP 1 s m cmd_ok (parsepipe buf es fuel s m))%nat /\
  (4 * (es - s) + 2 <= fuel -> okP 1 s m cmd_ok (parseexec buf es fuel s m))%nat /\
  (4 * (es - s) + 1 <= fuel -> okP 1 s m cmd_ok (parseblock buf es fuel s m))%nat.
Proof.
  revert s m. induction fuel as [|fuel IH]; intros s m Hs; [split_and!; intros; lia|]. split_and!; intros Hf.
  - cbn [parseline]. eapply (okP_bind _ _ 1 0); [done|apply (IH s m Hs); lia|]. intros c s1 m1 H1 Hc.
    eapply (okP_bind _ _ 0 0); [lia|apply back_loop_ok; [lia|lia|done]|]. intros c2 s2 m2 H2 Hc2.
    apply peek_then; [lia| |intros; by apply here_ok; [lia|]]. intros s3 m3 H3.
    eapply (then_node _ (LIST c2) 1); [lia|apply (IH s3); lia|]. intros r [Hr1 Hr2]. destruct Hc2. split; [by apply Forall_app|done].
  - cbn [parsepipe]. eapply (okP_bind _ _ 1 0); [done|apply (IH s m Hs); lia|]. intros c s1 m1 H1 Hc.
    apply peek_then; [lia| |intros; by apply here_ok; [lia|]]. intros s2 m2 H2.
    eapply (then_node _ (PIPE c) 1); [lia|apply (IH s2); lia|]. intros r [Hr1 Hr2]. destruct Hc. split; [by apply Forall_app|done].
  - cbn [parseexec]. unfold bindP at 1. destruct (peek_spec (str "(") s m Hs) as (b & -> & Hk & _).
    eapply okP_weaken; [|exact Hk|instantiate (1 := 1%nat); lia|done]. destruct b; [apply IH; lia|].
    eapply (okP_bind _ _ 1 0 _ m (fun c => c = EXEC [])); [lia|by apply node_ok; [lia|]|]. intros ? s1 m1 H1 ->.
    eapply (okP_bind _ _ 0 0); [lia|apply parseredirs_ok; [lia|]|].
    + split; [constructor|cbn; unfold MAXARGS; lia].
    + intros ret s2 m2 H2 [Hr Hi]. apply args_loop_ok; [lia|lia|done|done].
  - cbn [parseblock]. unfold bindP at 1. destruct (peek_spec (str "(") s m Hs) as (b & -> & Hk & Hb). destruct b; [|done].
    cbn [negb]. specialize (Hb eq_refl). pose proof (skip_space_idem s Hs) as Hid. set (p := skip_space buf es s) in *. unfold bindP at 1.
    destruct (gettoken_spec p m) as (tok & w & s1 & -> & H1 & Hne & _); [lia|]. rewrite Hid in Hne. destruct (Hne Hb) as [_ Hlt].
    eapply (okP_weaken 1 (1 + 0) s s1); [|lia|lia|done]. eapply okP_bind; [lia|apply (IH s1); lia|]. intros c s2 m2 H2 Hc.
    unfold bindP at 1. destruct (peek_spec (str ")") s2 m2) as (b & -> & Hk2 & Hb2); [lia|]. destruct b; [|done]. cbn [negb]. unfold bindP at 1.
    destruct (gettoken_spec (skip_space buf es s2) m2) as (tok2 & w2 & s3 & -> & H3 & _); [lia|].
    eapply okP_weaken; [apply (parseredirs_ok c s3 m2); [lia|done]|lia|lia|]. by intros c' [? _].
Qed.
End Facts.

(** The characters of a line followed by its NUL. *)
Lemma line_chars (line : list Z) : 0 ∉ line ->
  char (line ++ [0]) (length line) = 0 /\ forall s, (s < length line)%nat -> char (line ++ [0]) s <> 0.
Proof.
  intros H0. unfold char. split; [by rewrite lookup_total_app_r, Nat.sub_diag by lia|].
  intros s Hs. rewrite lookup_total_app_l by done. intros Hc. apply H0. rewrite <- Hc. apply list_elem_of_lookup_total_2. done.
Qed.

Lemma parsecmd_words room line : 0 ∉ line ->
  match parsecmd room line with
  | Parsed (c, b) s _ => b = nulterminate c (line ++ [0]) /\ s = length line /\
      Forall (word_ok (line ++ [0]) (length line)) (cmd_words c) /\ args_fit c
  | SPanic _ | SLeft _ => True
  | SNull => (room <= 2 * length line)%nat
  | SFuel => False
  end.
Proof.
  intros H0. destruct (line_chars line H0) as [He Hl]. unfold parsecmd. cbv zeta. set (buf := line ++ [0]) in *. set (es := length line) in *.
  pose proof (proj1 (parse_ok buf es He Hl (parse_fuel es) 0 room ltac:(lia)) ltac:(unfold parse_fuel; lia)) as Hp.
  unfold bindP. destruct (parseline buf es (parse_fuel es) O room) as [c s m| | | |]; try done; [|cbn in Hp; lia].
  destruct Hp as (Hs & _ & Hc1 & Hc2).
  destruct (peek_spec buf es He [] s m) as (b & -> & Hk & _); [lia|].
  destruct (Nat.eqb_spec (skip_space buf es s) es); done.
Qed.

(** C27: the parser of the shell terminates on every line: within fuel proportional to the length of
    the line it either panics or returns a command whose words lie in the line, none of them
    empty, and whose argument arrays have room for the null pointer that ends them; a null
    pointer can be used only if [malloc] fails within two calls per character of the line. *)
Theorem parsecmd_terminates room line :
  0 ∉ line ->
  match parsecmd room line with
  | Parsed (c, _) s _ => s = length line /\ Forall (word_ok (line ++ [0]) (length line)) (cmd_words c) /\ args_fit c
  | SPanic _ | SLeft _ => True
  | SNull => (room <= 2 * length line)%nat
  | SFuel => False
  end.
Proof.
  intros H0. pose proof (parsecmd_words room line H0) as H. destruct (parsecmd room line) as [[c b] s m| | | |]; tauto.
Qed.

Lemma parsecmd_terminates_witness :
  exists c b s m, parsecmd 100 (str "cat <in | (wc; echo a) >>out &") = Parsed (c, b) s m /\ s = 30%nat /\
    cmd_words c = [(0, 3); (5, 7); (11, 13); (15, 19); (20, 21); (25, 28)]%nat /\ args_fit c.
Proof.
  pose proof (parsecmd_terminates 100 (str "cat <in | (wc; echo a) >>out &")) as H.
  assert (0 ∉ str "cat <in | (wc; echo a) >>out &") as H0.
  { by_decide. }
  specialize (H H0). destruct (parsecmd _ _) as [[c b] s m| | | |] eqn:E; [|vm_compute in E; discriminate..].
  exists c, b, s, m. vm_compute in E. injection E as <- <- <- <-. split_and!; [vm_compute; reflexivity..|]. by destruct H as (_ & _ & H).
Defined.

(** ** Words become strings *)

(** Writing NULs at positions that hold no character of the word leaves it as it was. *)
Lemma nulterminate_char (ws : list word) b i :
  foldl (fun b w => <[snd w := 0]> b) b ws !! i =
  if bool_decide (i ∈ snd <$> ws) then (if decide (i < length b)%nat then Some 0 else None) else b !! i.
Proof.
  revert b. induction ws as [|w ws IH]; intros b; cbn; [done|]. rewrite IH, length_insert.
  destruct (decide (i ∈ snd <$> ws)) as [Hi|Hi].
  - rewrite !bool_decide_eq_true_2; [done|by right|done].
  - rewrite (bool_decide_eq_false_2 (i ∈ snd <$> ws)) by done. destruct (decide (i = snd w)) as [->|Hne].
    + rewrite bool_decide_eq_true_2 by by left. destruct (decide (snd w < length b)%nat).
      * by rewrite list_lookup_insert_eq.
      * rewrite list_insert_ge by lia. by apply lookup_ge_None_2; lia.
    + rewrite bool_decide_eq_false_2 by (intros [|]%elem_of_cons; done). by rewrite list_lookup_insert_ne.
Qed.

Lemma cstr_at (b : list Z) q n :
  (forall i, (i < n)%nat -> exists c, b !! (q + i)%nat = Some c /\ c <> 0) -> b !! (q + n)%nat = Some 0 ->
  cstr (drop q b) = Some (slice q n b).
Proof.
  revert q. induction n as [|n IH]; intros q Hc H0; unfold slice.
  - rewrite Nat.add_0_r in H0. by rewrite (drop_S _ _ _ H0).
  - destruct (Hc O) as (c & Hc0 & Hne); [lia|]. rewrite Nat.add_0_r in Hc0. rewrite (drop_S _ _ _ Hc0). cbn.
    rewrite (proj2 (Z.eqb_neq _ _) Hne), (IH (S q)); [done| |].
    + intros i Hi. destruct (Hc (S i)) as (x & Hx & Hx0); [lia|]. exists x. by replace (S q + i)%nat with (q + S i)%nat by lia.
    + by replace (S q + n)%nat with (q + S n)%nat by lia.
Qed.

Lemma words_are_strings room line c buf s m w :
  0 ∉ line -> parsecmd room line = Parsed (c, buf) s m -> w ∈ cmd_words c ->
  cstr (drop (fst w) buf) = Some (slice (fst w) (snd w - fst w) line).
Proof.
  intros H0 Hp Hw. pose proof (parsecmd_words room line H0) as Ht. rewrite Hp in Ht. destruct Ht as (-> & -> & Hok & _).
  rewrite Forall_forall in Hok. destruct (Hok w Hw) as ((Hlt & Hle) & Hin & _). destruct (line_chars line H0) as [He Hl].
  unfold nulterminate. set (ws := cmd_words c) in *.
  assert (forall i, (fst w <= i < snd w)%nat -> i ∉ snd <$> ws) as Hout.
  { intros i Hi (w' & -> & Hw')%list_elem_of_fmap. destruct (Hok w' Hw') as ((_ & Hle') & _ & Hend).
    specialize (Hin _ Hi). rewrite Hend in Hin; [done|]. lia. }
  rewrite (cstr_at _ _ (snd w - fst w)).
  - f_equal. unfold slice. apply list_eq. intros i. rewrite !lookup_take. case_decide; [|done].
    rewrite !lookup_drop, nulterminate_char, bool_decide_eq_false_2 by (apply Hout; lia). by rewrite lookup_app_l by lia.
  - intros i Hi. rewrite nulterminate_char, bool_decide_eq_false_2 by (apply Hout; lia). rewrite lookup_app_l by lia.
    destruct (lookup_lt_is_Some_2 line (fst w + i)) as [x Hx]; [lia|]. exists x. split; [done|]. intros ->. apply H0. by eapply list_elem_of_lookup_2.
  - rewrite nulterminate_char, bool_decide_eq_true_2; [|apply list_elem_of_fmap; exists w; split; [lia|done]].
    rewrite decide_True; [done|]. rewrite length_app. cbn. lia.
Qed.

(** C28: [nulterminate] turns every word of the parsed command, argument or file name, into the C
    string of its characters, and spoils none of the others. *)
Theorem nulterminate_words room line c buf s m w :
  0 ∉ line -> parsecmd room line = Parsed (c, buf) s m -> w ∈ cmd_words c ->
  cstr (drop (fst w) buf) = Some (slice (fst w) (snd w - fst w) line).
Proof. apply words_are_strings. Qed.

Lemma nulterminate_words_witness :
  exists c buf s m, parsecmd 10 (str "cat<in|wc") = Parsed (c, buf) s m /\
    cstr (drop 4 buf) = Some (str "in").
Proof.
  destruct (parsecmd 10 (str "cat<in|wc")) as [[c buf] s m| | | |] eqn:E; [|vm_compute in E; discriminate..].
  exists c, buf, s, m. split; [reflexivity|].
  apply (nulterminate_words 10 (str "cat<in|wc") c buf s m (4, 6)%nat); [|exact E|].
  - by_decide.
  - vm_compute in E. injection E as <- <- <- <-. right. left.
Defined.

(** ** Running commands *)

(** The command as [runcmd] sees it: a word is the string at its position; [None] when one has
    no end. *)
Fixpoint strings (buf : list Z) (c : cmd word) : option (cmd (list Z)) :=
  let at_word (w : word) := cstr (drop (fst w) buf) in
  match c with
  | EXEC argv => EXEC <$> mapM at_word argv
  | REDIR c file mode fd => c ← strings buf c; f ← at_word file; Some (REDIR c f mode fd)
  | PIPE l r => l ← strings buf l; r ← strings buf r; Some (PIPE l r)
  | LIST l r => l ← strings buf l; r ← strings buf r; Some (LIST l r)
  | BACK c => BACK <$> strings buf c
  end.

Section Run.
Context {W : Type} `{Syscalls W}.

Definition panic {A} (s : list Z) : U W A := fputs 2 (s ++ [10]) ;;* uexit 1.

Definition fork1 : U W Z :=
  let* pid := call sys_fork in
  (if pid =? -1 then panic (str "fork") else retU tt) ;;*
  retU pid.

(** [runcmd] ends in [exit] or in the program it executes. *)
Fixpoint runcmd (c : cmd (list Z)) : U W unit :=
  match c with
  | EXEC argv =>
      match argv with
      | [] => uexit 1
      | path :: _ => uexec path argv (fputs 2 (str "exec " ++ path ++ str " failed" ++ [10]) ;;* uexit 0)
      end
  | REDIR c file mode fd =>
      call (sys_close fd) ;;*
      let* r := call (sys_open file mode) in
      if r <? 0 then fputs 2 (str "open " ++ file ++ str " failed" ++ [10]) ;;* uexit 1
      else runcmd c ;;* uexit 0
  | LIST l r =>
      let* pid := fork1 in
      (if pid =? 0 then runcmd l else retU tt) ;;*
      call sys_wait ;;*
      runcmd r ;;*
      uexit 0
  | PIPE l r =>
      let* (ok, (p0, p1)) := call sys_pipe in
      (if ok <? 0 then panic (str "pipe") else retU tt) ;;*
      let* pid := fork1 in
      (if pid =? 0 then
         call (sys_close 1) ;;* call (sys_dup p1) ;;* call (sys_close p0) ;;* call (sys_close p1) ;;*
         runcmd l
       else retU tt) ;;*
      let* pid := fork1 in
      (if pid =? 0 then
         call (sys_close 0) ;;* call (sys_dup p0) ;;* call (sys_close p0) ;;* call (sys_close p1) ;;*
         runcmd r
       else retU tt) ;;*
      call (sys_close p0) ;;*
      call (sys_close p1) ;;*
      call sys_wait ;;*
      call sys_wait ;;*
      uexit 0
  | BACK c =>
      let* pid := fork1 in
      (if pid =? 0 then runcmd c else retU tt) ;;*
      uexit 0
  end.

(** [getcmd]: the line read, or nothing at the end of the input. *)
Definition getcmd (nbuf : Z) : U W (option (list Z)) :=
  fputs 2 (str "$ ") ;;*
  let* line := gets nbuf in
  match cstr (line ++ [0]) with
  | Some [] | None => retU None
  | Some l => retU (Some l)
  end.

(** How often [malloc] succeeds in the child that the shell forks; it depends on the memory
    that is free. *)
Context (room : W -> nat).

(** [runcmd(parsecmd(buf))] in the child. *)
Definition run_line (line : list Z) : U W unit := fun w =>
  match parsecmd (room w) line with
  | Parsed (c, buf) _ _ => match strings buf c with Some c => runcmd c w | None => ufault w end
  | SPanic msg => panic (str msg) w
  | SLeft s => (fputs 2 (str "leftovers: " ++ drop s line ++ [10]) ;;* panic (str "syntax")) w
  | SNull => ufault w
  | SFuel => UFuel
  end.

(** The loop of [main]; [fuel] bounds the commands read. *)
Fixpoint sh_loop (fuel : nat) : U W unit :=
  match fuel with
  | O => fun _ => UFuel
  | S k =>
      let* r := getcmd 100 in
      match r with
      | None => uexit 0
      | Some line =>
          if (at_l line 0 =? 99) && (at_l line 1 =? 100) && (at_l line 2 =? 32) then
            let dir := drop 3 (take (length line - 1) line) in
            let* r := call (sys_chdir dir) in
            (if r <? 0 then fputs 2 (str "cannot cd " ++ dir ++ [10]) else retU tt) ;;*
            sh_loop k
          else
            let* pid := fork1 in
            (if pid =? 0 then run_line line else retU tt) ;;*
            call sys_wait ;;*
            sh_loop k
      end
  end.

(** Three descriptors are open before the first command. *)
Fixpoint open_console (fuel : nat) : U W unit :=
  match fuel with
  | O => fun _ => UFuel
  | S k =>
      let* fd := call (sys_open (str "console") O_RDWR) in
      if fd <? 0 then retU tt
      else if 3 <=? fd then call (sys_close fd) ;;* retU tt
      else open_console k
  end.

Definition sh_main (fuel : nat) : U W unit := open_console fuel ;;* sh_loop fuel.
End Run.

(** ** A command always ends *)

(** The process ends by [exit] or by [exec]. *)
Definition ends {W A} (r : ures W A) : Prop := match r with UExit _ _ | UExec _ _ _ => True | _ => False end.
(** It ends or goes on. *)
Definition safe {W A} (r : ures W A) : Prop := match r with URet _ _ => True | _ => ends r end.

Section Ends.
Context {W : Type} `{Syscalls W}.

Lemma safe_bind {A B} (c : U W A) (k : A -> U W B) w :
  safe (c w) -> (forall a w', safe (k a w')) -> safe (bindU c k w).
Proof. unfold bindU. destruct (c w); cbn; auto. Qed.
Lemma ends_bind {A B} (c : U W A) (k : A -> U W B) w :
  safe (c w) -> (forall a w', ends (k a w')) -> ends (bindU c k w).
Proof. unfold bindU. destruct (c w); cbn; auto. Qed.
Lemma safe_call {A} (g : W -> A * W) w : safe (call g w).
Proof. unfold call. by destruct (g w). Qed.
Lemma ends_safe {A} (r : ures W A) : ends r -> safe r.
Proof. by destruct r. Qed.
Lemma safe_fputs fd bytes w : safe (fputs fd bytes w).
Proof. revert w. induction bytes as [|c bytes IH]; intros w; cbn; [done|]. apply safe_bind; [apply safe_call|auto]. Qed.
Lemma ends_panic {A} s w : ends (panic (A := A) s w).
Proof. apply ends_bind; [apply safe_fputs|done]. Qed.
Lemma safe_fork1 w : safe (fork1 w).
Proof.
  apply safe_bind; [apply safe_call|]. intros pid w1. apply safe_bind; [|done].
  destruct (pid =? -1); [apply ends_safe, ends_panic|done].
Qed.

Create HintDb ends.
Hint Resolve safe_call safe_fputs safe_fork1 ends_panic ends_safe : ends.

(** [runcmd] never returns, as its comment says. *)
Lemma runcmd_ends c w : ends (runcmd c w).
Proof.
  revert w. induction c as [argv|c IH file mode fd|l IHl r IHr|l IHl r IHr|c IH]; intros w; cbn [runcmd].
  - destruct argv as [|path argv]; [done|]. unfold uexec. destruct (sys_exec _ _ _) as [[] w']; [done|].
    apply ends_bind; [apply safe_fputs|done].
  - apply ends_bind; [auto with ends|]. intros _ w1. apply ends_bind; [auto with ends|]. intros n w2.
    destruct (n <? 0); (apply ends_bind; [auto with ends|done]).
  - apply ends_bind; [auto with ends|]. intros [ok [p0 p1]] w1. apply ends_bind.
    { destruct (ok <? 0); [auto with ends|done]. }
    intros _ w2. do 2 (apply ends_bind; [auto with ends|]; let pid := fresh in intros pid ?; apply ends_bind;
      [destruct (pid =? 0); [repeat (apply safe_bind; [auto with ends|intros ? ?]); auto with ends|done]|]; intros ? ?).
    repeat (apply ends_bind; [auto with ends|intros ? ?]). done.
  - apply ends_bind; [auto with ends|]. intros pid w1. apply ends_bind; [destruct (pid =? 0); [auto with ends|done]|]. intros _ w2.
    apply ends_bind; [auto with ends|]. intros _ w3. apply ends_bind; [auto with ends|done].
  - apply ends_bind; [auto with ends|]. intros pid w1. apply ends_bind; [destruct (pid =? 0); [auto with ends|done]|done].
Qed.

Lemma strings_some buf c : (forall w, w ∈ cmd_words c -> is_Some (cstr (drop (fst w) buf))) -> is_Some (strings buf c).
Proof.
  induction c as [argv|c IH file mode fd|l IHl r IHr|l IHl r IHr|c IH]; cbn [strings cmd_words]; intros Hw.
  - apply fmap_is_Some, mapM_is_Some, Forall_forall. done.
  - destruct IH as [c' ->]; [set_solver|]. destruct (Hw file) as [f Hf]; [set_solver|]. cbn. by rewrite Hf.
  - destruct IHl as [l' ->]; [set_solver|]. destruct IHr as [r' ->]; [set_solver|]. done.
  - destruct IHl as [l' ->]; [set_solver|]. destruct IHr as [r' ->]; [set_solver|]. done.
  - apply fmap_is_Some, IH. done.
Qed.

(** C29: whatever the line and whatever the system calls answer, the child that runs it ends by
    [exit] or by [exec]: parsing terminates, no access runs off the line, and [runcmd] does not
    return.  The one exception: when [malloc] fails, which takes fewer successful calls than
    two for each character of the line and one more, a constructor writes through the null
    pointer. *)
Theorem run_line_ends room line w :
  0 ∉ line ->
  ends (run_line room line w) \/ parsecmd (room w) line = SNull /\ (room w <= 2 * length line)%nat.
Proof.
  intros H0. unfold run_line. pose proof (parsecmd_words (room w) line H0) as Hp.
  destruct (parsecmd (room w) line) as [[c buf] s m| | | |] eqn:E; [left|left|left|by right|done].
  - destruct (strings_some buf c) as [c' ->]; [|apply runcmd_ends]. intros x Hx. rewrite (words_are_strings (room w) line c buf s m x); done.
  - apply ends_panic.
  - apply ends_bind; [apply safe_fputs|]. intros _ w'. apply ends_panic.
Qed.
End Ends.

Lemma run_line_ends_witness :
  ends (run_line (fun _ => 100%nat) (str "echo hi | wc > x; (ls; cat) &") (Tape [] [] [])).
Proof.
  destruct (run_line_ends (fun _ => 100%nat) (str "echo hi | wc > x; (ls; cat) &") (Tape [] [] [])) as [H|[_ H]].
  - by_decide.
  - exact H.
  - vm_compute in H. lia.
Defined.

(** Without memory the constructor of the first command already fails. *)
Example parsecmd_no_memory : parsecmd 0 (str "ls") = SNull.
Proof. vm_compute. reflexivity. Qed.
