(* ===== verification/UserProgs.v ===== *)
(** * Small user programs and formatted output

    user/printf.c, cat.c, echo.c, wc.c, ls.c, kill.c, ln.c, mkdir.c, rm.c, zombie.c, init.c, forktest.c
    and stressfs.c: each program as a function of its arguments, on the operating system of User.v. *)

From stdpp Require Import base numbers list gmap strings.
From S2P Require Import Prelude Mem Types Printf User.

(** ** printf.c

    The digits are upper-case, and [%l], [%c] are understood; otherwise as in the kernel. *)

Definition udigits : list Z := str "0123456789ABCDEF".

Fixpoint uint_digits (fuel : nat) (x base : Z) : list Z :=
  match fuel with
  | O => []
  | S k => udigits !!! Z.to_nat (x mod base) :: (if x / base =? 0 then [] else uint_digits k (x / base) base)
  end.

(** [xx] is converted to an int by the call. *)
Definition uprintint (xx base : Z) (sgn : bool) : list Z :=
  let xx := i32 xx in
  let neg := sgn && (xx <? 0) in
  let x := if neg then u32 (- xx) else u32 xx in
  reverse (uint_digits 32 x base ++ (if neg then [45] else [])).

Fixpoint uptr_digits (n : nat) (x : Z) : list Z :=
  match n with
  | O => []
  | S k => udigits !!! Z.to_nat (Z.shiftr x 60) :: uptr_digits k (u64 (Z.shiftl x 4))
  end.
Definition uprintptr (x : Z) : list Z := 48 :: 120 :: uptr_digits 16 x.

(** The text for one conversion, [None] when its argument is missing or of the wrong type. *)
Definition convert (c : Z) (args : list varg) : option (list Z * list varg) :=
  if c =? 100 then match args with AInt v :: a => Some (uprintint v 10 true, a) | _ => None end
  else if c =? 108 then match args with APtr v :: a => Some (uprintint v 10 false, a) | _ => None end
  else if c =? 120 then match args with AInt v :: a => Some (uprintint v 16 false, a) | _ => None end
  else if c =? 112 then match args with APtr v :: a => Some (uprintptr v, a) | _ => None end
  else if c =? 115 then match args with AStr s :: a => Some (until_nul (default (str "(null)") s), a) | _ => None end
  else if c =? 99 then match args with AInt v :: a => Some ([u8 v], a) | _ => None end
  else if c =? 37 then Some ([37], args)
  else Some ([37; c], args).

(** [state] is ['%'] after a percent sign. *)
Fixpoint vprintf (percent : bool) (fmt : list Z) (args : list varg) : option (list Z) :=
  match fmt with
  | [] => Some []
  | c :: fmt' =>
      if percent then
        match convert c args with
        | Some (l, args') => app l <$> vprintf false fmt' args'
        | None => None
        end
      else if c =? 37 then vprintf true fmt' args
      else cons c <$> vprintf false fmt' args
  end.

Section Programs.
Context {W : Type} `{Syscalls W}.

Definition fprintf (fd : Z) (fmt : list Z) (args : list varg) : U W unit :=
  match vprintf false fmt args with Some text => fputs fd text | None => ufault end.
Definition printf (fmt : list Z) (args : list varg) : U W unit := fprintf 1 fmt args.
Definition nl : list Z := [10].

(** ** cat.c *)

Fixpoint cat (fuel : nat) (fd : Z) : U W unit :=
  match fuel with
  | O => fun _ => UFuel
  | S k =>
      let* (n, buf) := call (sys_read fd 512) in
      if 0 <? n then
        let* r := call (sys_write 1 buf) in
        if negb (r =? n) then fprintf 2 (str "cat: write error" ++ nl) [] ;;* uexit 1
        else cat k fd
      else if n <? 0 then fprintf 2 (str "cat: read error" ++ nl) [] ;;* uexit 1
      else retU tt
  end.

(** The loop of [main] over the files of the command line, shared by cat and wc. *)
Fixpoint each_file (prog : list Z) (err : Z) (body : Z -> list Z -> U W unit) (files : list (list Z)) : U W unit :=
  match files with
  | [] => uexit 0
  | file :: files' =>
      let* fd := call (sys_open file 0) in
      if fd <? 0 then fprintf err (prog ++ str ": cannot open %s" ++ nl) [AStr (Some file)] ;;* uexit 1
      else body fd file ;;* call (sys_close fd) ;;* each_file prog err body files'
  end.

Definition cat_main (fuel : nat) (argv : list (list Z)) : U W unit :=
  match tail argv with
  | [] => cat fuel 0 ;;* uexit 0
  | files => each_file (str "cat") 2 (fun fd _ => cat fuel fd) files
  end.

(** ** wc.c *)

Record counts := Counts { wc_l : Z; wc_w : Z; wc_c : Z; wc_in : bool }.

(** One character of the inner loop. *)
Definition wc_char (k : counts) (x : Z) : counts :=
  let c := i32 (wc_c k + 1) in
  let l := if x =? 10 then i32 (wc_l k + 1) else wc_l k in
  if strchr [32; 13; 9; 10; 11] x then Counts l (wc_w k) c false
  else if negb (wc_in k) then Counts l (i32 (wc_w k + 1)) c true
  else Counts l (wc_w k) c true.

Fixpoint wc_loop (fuel : nat) (fd : Z) (k : counts) : U W (Z * counts) :=
  match fuel with
  | O => fun _ => UFuel
  | S f =>
      let* (n, buf) := call (sys_read fd 512) in
      if 0 <? n then wc_loop f fd (foldl wc_char k buf) else retU (n, k)
  end.

Definition wc (fuel : nat) (fd : Z) (name : list Z) : U W unit :=
  let* (n, k) := wc_loop fuel fd (Counts 0 0 0 false) in
  if n <? 0 then printf (str "wc: read error" ++ nl) [] ;;* uexit 1
  else printf (str "%d %d %d %s" ++ nl) [AInt (wc_l k); AInt (wc_w k); AInt (wc_c k); AStr (Some name)].

Definition wc_main (fuel : nat) (argv : list (list Z)) : U W unit :=
  match tail argv with
  | [] => wc fuel 0 [] ;;* uexit 0
  | files => each_file (str "wc") 1 (wc fuel) files
  end.

(** ** echo.c *)

Fixpoint echo_args (args : list (list Z)) : U W unit :=
  match args with
  | [] => uexit 0
  | a :: args' =>
      call (sys_write 1 a) ;;*
      (match args' with [] => call (sys_write 1 nl) | _ => call (sys_write 1 [32]) end) ;;*
      echo_args args'
  end.
Definition echo_main (argv : list (list Z)) : U W unit := echo_args (tail argv).

(** ** kill.c, ln.c, mkdir.c, rm.c, zombie.c *)

(** The second argument of a pair may be [argv[argc]], the null pointer. *)
Fixpoint kill_args (args : list (list Z)) : U W unit :=
  match args with
  | [] => uexit 0
  | [_] => ufault
  | pid :: signum :: args' => call (sys_kill (atoi pid) (atoi signum)) ;;* kill_args args'
  end.
Definition kill_main (argv : list (list Z)) : U W unit :=
  match tail argv with
  | [] => fprintf 2 (str "usage: kill pid signum..." ++ nl) [] ;;* uexit 1
  | args => kill_args args
  end.

Definition ln_main (argv : list (list Z)) : U W unit :=
  match argv with
  | [_; old; new] =>
      let* r := call (sys_link old new) in
      (if r <? 0 then fprintf 2 (str "link %s %s: failed" ++ nl) [AStr (Some old); AStr (Some new)] else retU tt) ;;*
      uexit 0
  | _ => fprintf 2 (str "Usage: ln old new" ++ nl) [] ;;* uexit 1
  end.

(** The loop of mkdir and rm: the first failure ends it. *)
Fixpoint until_failure (op : list Z -> W -> Z * W) (msg : list Z) (args : list (list Z)) : U W unit :=
  match args with
  | [] => uexit 0
  | a :: args' =>
      let* r := call (op a) in
      if r <? 0 then fprintf 2 msg [AStr (Some a)] ;;* uexit 0 else until_failure op msg args'
  end.
Definition mkdir_main (argv : list (list Z)) : U W unit :=
  match tail argv with
  | [] => fprintf 2 (str "Usage: mkdir files..." ++ nl) [] ;;* uexit 1
  | args => until_failure sys_mkdir (str "mkdir: %s failed to create" ++ nl) args
  end.
Definition rm_main (argv : list (list Z)) : U W unit :=
  match tail argv with
  | [] => fprintf 2 (str "Usage: rm files..." ++ nl) [] ;;* uexit 1
  | args => until_failure sys_unlink (str "rm: %s failed to delete" ++ nl) args
  end.

Definition zombie_main : U W unit :=
  let* pid := call sys_fork in
  (if 0 <? pid then call (sys_sleep 5) else retU 0) ;;*
  uexit 0.

(** ** init.c *)

(** The inner loop waits for the shell; the outer one starts it again. *)
Fixpoint init_wait (fuel : nat) (pid : Z) : U W unit :=
  match fuel with
  | O => fun _ => UFuel
  | S k =>
      let* wpid := call sys_wait in
      if wpid =? pid then retU tt
      else if wpid <? 0 then printf (str "init: wait returned an error" ++ nl) [] ;;* uexit 1
      else init_wait k pid
  end.
Fixpoint init_loop (fuel : nat) : U W unit :=
  match fuel with
  | O => fun _ => UFuel
  | S k =>
      printf (str "init: starting sh" ++ nl) [] ;;*
      let* pid := call sys_fork in
      (if pid <? 0 then printf (str "init: fork failed" ++ nl) [] ;;* uexit 1 else retU tt) ;;*
      (if pid =? 0 then uexec (str "sh") [str "sh"] (printf (str "init: exec sh failed" ++ nl) [] ;;* uexit 1)
       else retU tt) ;;*
      init_wait k pid ;;*
      init_loop k
  end.
Definition init_main (fuel : nat) : U W unit :=
  let* r := call (sys_open (str "console") O_RDWR) in
  (if r <? 0 then
     call (sys_mknod (str "console") CONSOLE 0) ;;*
     call (sys_open (str "console") O_RDWR)
   else retU 0) ;;*
  call (sys_dup 0) ;;*
  call (sys_dup 0) ;;*
  init_loop fuel.

(** ** forktest.c and stressfs.c *)

Definition FORKS : nat := 1000.
Definition print (s : list Z) : U W Z := call (sys_write 1 s).

(** The loops: children are made until [fork] fails, and waited for. *)
Fixpoint fork_all (todo n : nat) : U W nat :=
  match todo with
  | O => retU n
  | S k =>
      let* pid := call sys_fork in
      if pid <? 0 then retU n
      else if pid =? 0 then uexit 0
      else fork_all k (S n)
  end.
Fixpoint wait_all (n : nat) : U W unit :=
  match n with
  | O => retU tt
  | S k =>
      let* r := call sys_wait in
      if r <? 0 then print (str "wait stopped early" ++ nl) ;;* uexit 1 else wait_all k
  end.
Definition forktest : U W unit :=
  print (str "fork test" ++ nl) ;;*
  let* n := fork_all FORKS 0 in
  (if (n =? FORKS)%nat then print (str "fork claimed to work N times!" ++ nl) ;;* uexit 1 else retU tt) ;;*
  wait_all n ;;*
  let* r := call sys_wait in
  (if negb (r =? -1) then print (str "wait got too many" ++ nl) ;;* uexit 1 else retU tt) ;;*
  print (str "fork test OK" ++ nl) ;;*
  retU tt.
Definition forktest_main : U W unit := forktest ;;* uexit 0.

(** [i] after the loop that stops at the first [fork] that returns in a parent. *)
Fixpoint stress_fork (todo : nat) (i : Z) : U W Z :=
  match todo with
  | O => retU i
  | S k => let* pid := call sys_fork in if 0 <? pid then retU i else stress_fork k (i + 1)
  end.
Fixpoint repeatU {A} (n : nat) (c : U W A) : U W unit :=
  match n with O => retU tt | S k => c ;;* repeatU k c end.
Definition stressfs_main : U W unit :=
  printf (str "stressfs starting" ++ nl) [] ;;*
  let data := replicate 512 97 in
  let* i := stress_fork 4 0 in
  printf (str "write %d" ++ nl) [AInt i] ;;*
  let path := alter (fun c => u8 (c + i)) 8%nat (str "stressfs0") in
  let* fd := call (sys_open path (Z.lor O_CREATE O_RDWR)) in
  repeatU 20 (call (sys_write fd data)) ;;*
  call (sys_close fd) ;;*
  printf (str "read" ++ nl) [] ;;*
  let* fd := call (sys_open path O_RDONLY) in
  repeatU 20 (fun w => let '(r, _, w') := sys_read fd 512 w in URet r w') ;;*
  call (sys_close fd) ;;*
  call sys_wait ;;*
  uexit 0.

(** ** ls.c *)

(** The part after the last slash, blank-padded to [DIRSIZ]. *)
Fixpoint after_slash (path : list Z) : list Z :=
  match path with
  | [] => []
  | c :: path' => if (c =? 47) || strchr path' 47 then after_slash path' else path
  end.
Definition fmtname (path : list Z) : list Z :=
  let p := after_slash path in
  if (DIRSIZ <=? length p)%nat then p else p ++ replicate (DIRSIZ - length p) 32.

(** One line of the listing; [size] is how the size is printed. *)
Definition ls_line (size : string) (path : list Z) (st : Z * Z * Z) : U W unit :=
  let '(type, ino, sz) := st in
  printf (str "%s %d %d " ++ str size ++ nl) [AStr (Some (fmtname path)); AInt type; AInt ino;
    if decide (size = "%l") then APtr sz else AInt sz].

Fixpoint ls_dir (fuel : nat) (fd : Z) (path : list Z) : U W unit :=
  match fuel with
  | O => fun _ => UFuel
  | S k =>
      let* (n, de) := call (sys_read fd 16) in
      if negb (n =? 16) then retU tt else
      if lget 2 de 0 =? 0 then ls_dir k fd path else
      let file := path ++ [47] ++ until_nul (slice 2 DIRSIZ de) in
      let* (r, st) := stat file in
      (if r <? 0 then printf (str "ls: cannot stat %s" ++ nl) [AStr (Some file)]
       else ls_line "%d" file st) ;;*
      ls_dir k fd path
  end.

Definition ls (fuel : nat) (path : list Z) : U W unit :=
  let* fd := call (sys_open path 0) in
  if fd <? 0 then fprintf 2 (str "ls: cannot open %s" ++ nl) [AStr (Some path)] else
  let* (r, st) := call (sys_fstat fd) in
  if r <? 0 then
    fprintf 2 (str "ls: cannot stat %s" ++ nl) [AStr (Some path)] ;;* call (sys_close fd) ;;* retU tt
  else
  let '(type, _, _) := st in
  (if type =? T_FILE then ls_line "%l" path st
   else if type =? T_DIR then
     if (512 <? length path + 1 + DIRSIZ + 1)%nat then printf (str "ls: path too long" ++ nl) []
     else ls_dir fuel fd path
   else retU tt) ;;*
  call (sys_close fd) ;;* retU tt.

Fixpoint ls_args (fuel : nat) (args : list (list Z)) : U W unit :=
  match args with [] => uexit 0 | a :: args' => ls fuel a ;;* ls_args fuel args' end.
Definition ls_main (fuel : nat) (argv : list (list Z)) : U W unit :=
  match tail argv with
  | [] => ls fuel (str ".") ;;* uexit 0
  | args => ls_args fuel args
  end.
End Programs.

(** ** What cat and wc do *)

Section Files.
Context {W : Type} `{Hsys : Syscalls W} (fd : Z) (rest out : W -> list Z) `{Hlaws : !FileLaws W fd rest out}.

(** cat copies the rest of the file to the standard output. *)
Lemma cat_copies fuel w : (length (rest w) < fuel)%nat ->
  exists w', cat fuel fd w = URet tt w' /\ out w' = out w ++ rest w /\ rest w' = [].
Proof.
  revert w. induction fuel as [|fuel IH]; intros w Hf; [lia|]. cbn [cat].
  destruct (read_law 512 w) as (bytes & w1 & Hr & Hrest & _ & Hne & Hout). unfold bindU at 1, call at 1. rewrite Hr.
  destruct bytes as [|b0 bytes].
  - exists w1. assert (rest w = []) as He by (destruct (rest w); [done|by destruct Hne; [|lia|]]).
    cbn. rewrite He in *. split_and!; [done|by rewrite Hout, app_nil_r|done].
  - set (bs := b0 :: bytes) in *. assert (0 < length bs)%nat by (cbn; lia). rewrite (proj2 (Z.ltb_lt _ _)) by lia.
    destruct (write_law bs w1) as (w2 & Hw & Ho & Hr2). unfold bindU at 1, call at 1. rewrite Hw, Z.eqb_refl. cbn [negb].
    rewrite Hrest, length_app in Hf. destruct (IH w2) as (w3 & E & Ho3 & Hr3); [rewrite Hr2; lia|].
    exists w3. split_and!; [done| |done]. by rewrite Ho3, Ho, Hr2, Hout, Hrest, app_assoc.
Qed.

(** wc counts as if the file were read at once. *)
Lemma wc_loop_counts fuel k w : (length (rest w) < fuel)%nat ->
  exists w', wc_loop fuel fd k w = URet (0, foldl wc_char k (rest w)) w' /\ out w' = out w /\ rest w' = [].
Proof.
  revert k w. induction fuel as [|fuel IH]; intros k w Hf; [lia|]. cbn [wc_loop].
  destruct (read_law 512 w) as (bytes & w1 & Hr & Hrest & _ & Hne & Hout). unfold bindU at 1, call at 1. rewrite Hr.
  destruct bytes as [|b0 bytes].
  - exists w1. assert (rest w = []) as He by (destruct (rest w); [done|by destruct Hne; [|lia|]]).
    cbn. rewrite He in *. done.
  - set (bs := b0 :: bytes) in *. assert (0 < length bs)%nat by (cbn; lia). rewrite (proj2 (Z.ltb_lt _ _)) by lia.
    rewrite Hrest, length_app in Hf. destruct (IH (foldl wc_char k bs) w1) as (w3 & E & Ho3 & Hr3); [lia|].
    exists w3. split_and!; [|congruence|done]. rewrite E, Hrest. by rewrite foldl_app.
Qed.
End Files.
