(* ===== verification/Grind.v ===== *)
(** * The random numbers of user/grind.c

    [do_rand] multiplies modulo 2^31 - 1 in two halves so that nothing exceeds 31 bits; it
    computes the generator that its comment names. *)

From stdpp Require Import base numbers.
From S2P Require Import Prelude.

(** The result and the new value of [*ctx]; [/] and [%] on [long] truncate. *)
Definition do_rand (ctx : Z) : Z * Z :=
  let x := ctx mod 2147483646 + 1 in
  let hi := Z.quot x 127773 in
  let lo := Z.rem x 127773 in
  let x := 16807 * lo - 2836 * hi in
  let x := if x <? 0 then x + 2147483647 else x in
  let x := x - 1 in
  (i32 x, u64 x).

(** The value of [rand_next] is the state. *)
Definition rand (rand_next : Z) : Z * Z := do_rand rand_next.

(** The reference: x becomes 7^5 x mod (2^31 - 1), on [1, 2^31 - 2]. *)
Definition park_miller (x : Z) : Z := 7 ^ 5 * x mod (2 ^ 31 - 1).

Lemma schrage x : 0 < x < 2 ^ 31 - 1 ->
  let y := 16807 * (x mod 127773) - 2836 * (x / 127773) in
  - (2 ^ 31 - 1) < y < 2 ^ 31 - 1 /\ (if y <? 0 then y + 2147483647 else y) = park_miller x /\ y <> 0.
Proof.
  intros Hx y. change (2 ^ 31 - 1) with 2147483647 in *.
  pose proof (Z.div_mod x 127773 ltac:(lia)) as E. pose proof (Z.mod_pos_bound x 127773 ltac:(lia)) as Hm.
  set (q := x / 127773) in *. set (r := x mod 127773) in *. assert (0 <= q <= 16807) as Hq by lia.
  assert (16807 * x = y + q * 2147483647) as Ey by (unfold y; lia).
  assert (y <> 0) as Hy by (unfold y; lia).
  unfold park_miller. change (7 ^ 5) with 16807. change (2 ^ 31 - 1) with 2147483647.
  split; [unfold y; lia|]. split; [|done].
  destruct (Z.ltb_spec y 0).
  - apply Z.mod_unique with (q - 1); [left; unfold y in *; lia|lia].
  - apply Z.mod_unique with q; [left; unfold y in *; lia|lia].
Qed.

(** [do_rand] is the minimal standard generator, shifted to start at 0, for every seed. *)
Lemma do_rand_park_miller ctx : 0 <= ctx ->
  let x := ctx mod (2 ^ 31 - 2) + 1 in
  do_rand ctx = (park_miller x - 1, park_miller x - 1) /\ 0 <= park_miller x - 1 <= 2 ^ 31 - 3.
Proof.
  intros Hc x. change (2 ^ 31 - 2) with 2147483646 in x.
  pose proof (Z.mod_pos_bound ctx 2147483646 ltac:(lia)) as Hm. assert (0 < x < 2 ^ 31 - 1) as Hx by lia.
  destruct (schrage x Hx) as (Hy & Hp & Hnz).
  assert (0 < park_miller x < 2 ^ 31 - 1) as Hr by (rewrite <- Hp; case_match; lia).
  unfold do_rand. fold x. rewrite Z.quot_div_nonneg, Z.rem_mod_nonneg by lia. rewrite Hp.
  rewrite i32_small, u64_small by lia. split; [done|lia].
Qed.

(** From any seed all later states are in the range the generator is defined on. *)
Lemma rand_next_range ctx : 0 <= ctx -> 0 <= snd (rand ctx) < 2 ^ 31 - 2 /\ fst (rand ctx) = snd (rand ctx).
Proof.
  intros Hc. destruct (do_rand_park_miller ctx Hc) as [E Hr]. unfold rand. rewrite E. cbn [fst snd]. lia.
Qed.
