(* ===== verification/Umalloc.v ===== *)
(** * The allocator of user programs: user/umalloc.c

    The memory of a process is seen as cells of the size of a [Header]; a pointer is an address,
    and [p + n] on header pointers is [p + 16 * n].  [base] is the static header, [lo] the break
    when the program starts.  [grow b n] says whether the kernel grants the call [sbrk(n)] when
    the break is [b]. *)

From stdpp Require Import base numbers list gmap.
From S2P Require Import Prelude.

Record Header := MkHeader { s_ptr : Z; s_size : Z }.
#[export] Instance header_inhabited : Inhabited Header := populate (MkHeader 0 0).

#[export] Instance header_eq_dec : EqDecision Header.
Proof. solve_decision. Defined.

Record heap := Heap { cells : gmap Z Header; freep : Z; brk : Z }.

Definition sizeof_Header : Z := 16.
(** [p + n] *)
Definition plus (p n : Z) : Z := p + sizeof_Header * n.

Definition ptr (h : heap) (p : Z) : Z := s_ptr (cells h !!! p).
Definition size (h : heap) (p : Z) : Z := s_size (cells h !!! p).
Definition set_ptr (p v : Z) (h : heap) : heap :=
  Heap (<[p := MkHeader v (size h p)]> (cells h)) (freep h) (brk h).
Definition set_size (p v : Z) (h : heap) : heap :=
  Heap (<[p := MkHeader (ptr h p) v]> (cells h)) (freep h) (brk h).
Definition set_freep (p : Z) (h : heap) : heap := Heap (cells h) p (brk h).
Definition set_brk (b : Z) (h : heap) : heap := Heap (cells h) (freep h) b.

(** The loop of [free]: the free block after which [bp] belongs. *)
Fixpoint free_search (fuel : nat) (h : heap) (bp p : Z) : option Z :=
  match fuel with
  | O => None
  | S k =>
      if (p <? bp) && (bp <? ptr h p) then Some p
      else if (ptr h p <=? p) && ((p <? bp) || (bp <? ptr h p)) then Some p
      else free_search k h bp (ptr h p)
  end.

(** The nodes of the list are at different addresses below the break, so this is more than a
    search can need. *)
Definition fuel_of (h : heap) : nat := S (S (Z.to_nat (brk h))).

(** Join [bp] to the block above it, or link it to that block. *)
Definition join_upper (bp p : Z) (h : heap) : heap :=
  if plus bp (size h bp) =? ptr h p then
    let h := set_size bp (u32 (size h bp + size h (ptr h p))) h in
    set_ptr bp (ptr h (ptr h p)) h
  else set_ptr bp (ptr h p) h.

(** Join [bp] to the block below it, or link that block to it. *)
Definition join_lower (bp p : Z) (h : heap) : heap :=
  if plus p (size h p) =? bp then
    let h := set_size p (u32 (size h p + size h bp)) h in
    set_ptr p (ptr h bp) h
  else set_ptr p bp h.

Definition free (ap : Z) (h : heap) : option heap :=
  let bp := ap - sizeof_Header in
  p ← free_search (fuel_of h) h bp (freep h);
  Some (set_freep p (join_lower bp p (join_upper bp p h))).

Section Allocator.
Context (base : Z) (grow : Z -> Z -> bool).

(** The system call: the old break, in an [int], or -1. *)
Definition sbrk (n : Z) (h : heap) : Z * heap :=
  if grow (brk h) n then (i32 (brk h), set_brk (brk h + n) h) else (-1, h).

(** The argument of [sbrk] is an [int]. *)
Definition morecore (nu : Z) (h : heap) : option (Z * heap) :=
  let nu := if nu <? 4096 then 4096 else nu in
  let '(p, h) := sbrk (i32 (nu * sizeof_Header)) h in
  if p =? -1 then Some (0, h) else
  let h := set_size p nu h in
  h ← free (plus p 1) h;
  Some (freep h, h).

(** The block [p], after [prevp], is large enough: all of it, or its upper end. *)
Definition take_block (nunits prevp p : Z) (h : heap) : Z * heap :=
  if size h p =? nunits then
    (plus p 1, set_freep prevp (set_ptr prevp (ptr h p) h))
  else
    let h := set_size p (u32 (size h p - nunits)) h in
    let p := plus p (size h p) in
    let h := set_size p nunits h in
    (plus p 1, set_freep prevp h).

Fixpoint malloc_loop (fuel : nat) (nunits prevp p : Z) (h : heap) : option (Z * heap) :=
  match fuel with
  | O => None
  | S k =>
      if nunits <=? size h p then Some (take_block nunits prevp p h)
      else if p =? freep h then
        r ← morecore nunits h;
        let '(p, h) := r in
        if p =? 0 then Some (0, h) else malloc_loop k nunits p (ptr h p) h
      else malloc_loop k nunits p (ptr h p) h
  end.

Definition units (nbytes : Z) : Z := u32 ((nbytes + sizeof_Header - 1) / sizeof_Header + 1).

(** Once round the list, and once more when [morecore] has added to it. *)
Definition malloc (nbytes : Z) (h : heap) : option (Z * heap) :=
  let nunits := units nbytes in
  let h := if freep h =? 0 then set_size base 0 (set_freep base (set_ptr base base h)) else h in
  malloc_loop (3 * fuel_of h) nunits (freep h) (ptr h (freep h)) h.
End Allocator.

(** ** The free list *)

(** [h] holds the chain of blocks [l] from the header [p] on, back to the header [e]. *)
Fixpoint linked (h : heap) (p : Z) (l : list (Z * Z)) (e : Z) : Prop :=
  match l with
  | [] => ptr h p = e
  | (q, n) :: l' => ptr h p = q /\ size h q = n /\ linked h q l' e
  end.

(** Blocks in the order of their addresses, apart from each other. *)
Fixpoint ascending (lo : Z) (l : list (Z * Z)) (hi : Z) : Prop :=
  match l with
  | [] => lo <= hi
  | (q, n) :: l' => lo <= q /\ 1 <= n /\ ascending (plus q n) l' hi
  end.

Definition apart (x y : Z * Z) : Prop := plus x.1 x.2 <= y.1 \/ plus y.1 y.2 <= x.1.

Lemma ptr_set_ptr p v h q : ptr (set_ptr p v h) q = if decide (q = p) then v else ptr h q.
Proof.
  unfold ptr, set_ptr. cbn. destruct (decide (q = p)) as [->|]; [by rewrite lookup_total_insert_eq|].
  by rewrite lookup_total_insert_ne.
Qed.
Lemma size_set_ptr p v h q : size (set_ptr p v h) q = size h q.
Proof.
  unfold size, set_ptr. cbn. destruct (decide (q = p)) as [->|]; [by rewrite lookup_total_insert_eq|].
  by rewrite lookup_total_insert_ne.
Qed.
Lemma ptr_set_size p v h q : ptr (set_size p v h) q = ptr h q.
Proof.
  unfold ptr, set_size. cbn. destruct (decide (q = p)) as [->|]; [by rewrite lookup_total_insert_eq|].
  by rewrite lookup_total_insert_ne.
Qed.
Lemma size_set_size p v h q : size (set_size p v h) q = if decide (q = p) then v else size h q.
Proof.
  unfold size, set_size. cbn. destruct (decide (q = p)) as [->|]; [by rewrite lookup_total_insert_eq|].
  by rewrite lookup_total_insert_ne.
Qed.

Lemma linked_app h p l1 q n l2 e :
  linked h p (l1 ++ (q, n) :: l2) e <-> linked h p l1 q /\ size h q = n /\ linked h q l2 e.
Proof.
  revert p. induction l1 as [|[r k] l1 IH]; intros p; cbn [linked app]; [tauto|]. rewrite IH. tauto.
Qed.

(** The chain depends on the links of its nodes but the last, and on the sizes of its blocks. *)
Lemma linked_frame h h' p p' l e :
  linked h p l e -> ptr h' p' = ptr h p -> (forall x, x ∈ l -> ptr h' x.1 = ptr h x.1 /\ size h' x.1 = size h x.1) -> linked h' p' l e.
Proof.
  revert p p'. induction l as [|[q n] l IH]; intros p p'; cbn [linked]; [intros <-; done|].
  intros (Hp & Hn & Hl) Hpp Hx. destruct (Hx (q, n) ltac:(constructor)) as [Hq1 Hq2]. cbn in *.
  split_and!; [congruence|congruence|]. apply (IH q); [done|done|]. intros x Hxl. apply Hx. by constructor.
Qed.

Lemma ascending_app lo l1 q n l2 hi :
  ascending lo (l1 ++ (q, n) :: l2) hi <-> ascending lo l1 q /\ 1 <= n /\ ascending (plus q n) l2 hi.
Proof.
  revert lo. induction l1 as [|[r k] l1 IH]; intros lo; cbn [ascending app]; [tauto|]. rewrite IH. tauto.
Qed.

Lemma ascending_in lo l hi x : ascending lo l hi -> x ∈ l -> lo <= x.1 /\ 1 <= x.2 /\ plus x.1 x.2 <= hi.
Proof.
  revert lo. induction l as [|[q n] l IH]; intros lo; cbn [ascending]; [by intros _ ?%not_elem_of_nil|].
  intros (H1 & H2 & H3) [->|Hin]%elem_of_cons; cbn.
  - split_and!; [done..|]. clear - H3. revert H3. generalize (plus q n). induction l as [|[r k] l IH]; intros lo; cbn [ascending]; [done|].
    intros (? & ? & H%IH). unfold plus, sizeof_Header in *. lia.
  - destruct (IH _ H3 Hin) as (? & ? & ?). unfold plus, sizeof_Header in *. split_and!; lia.
Qed.

Lemma ascending_le lo l hi : ascending lo l hi -> lo <= hi.
Proof.
  destruct l as [|[q n] l]; [done|]. intros H. destruct (ascending_in _ _ _ (q, n) H ltac:(constructor)) as (? & ? & ?).
  unfold plus, sizeof_Header in *. cbn in *. lia.
Qed.

Lemma ascending_weaken lo lo' l hi hi' : ascending lo l hi -> lo' <= lo -> hi <= hi' -> ascending lo' l hi'.
Proof.
  revert lo lo'. induction l as [|[q n] l IH]; intros lo lo'; cbn [ascending]; [lia|]. intros (? & ? & ?) ? ?.
  split_and!; [lia|done|]. by eapply IH.
Qed.

Lemma ascending_length lo l hi : ascending lo l hi -> lo + Z.of_nat (length l) <= hi.
Proof.
  revert lo. induction l as [|[q n] l IH]; intros lo; cbn [ascending length]; [lia|]. intros (? & ? & H%IH).
  unfold plus, sizeof_Header in *. lia.
Qed.

Lemma linked_freep h f p l e : linked h p l e -> linked (set_freep f h) p l e.
Proof. intros H. by apply (linked_frame h _ p). Qed.

(** The address of the last node of a chain. *)
Fixpoint last_addr (p : Z) (l : list (Z * Z)) : Z :=
  match l with [] => p | (q, _) :: l' => last_addr q l' end.

Lemma last_addr_app p l1 q n l2 : last_addr p (l1 ++ (q, n) :: l2) = last_addr q l2.
Proof. revert p. induction l1 as [|[r k] l1 IH]; intros p; cbn; auto. Qed.

Lemma last_addr_cases p l : (l = [] /\ last_addr p l = p) \/ exists l' n, l = l' ++ [(last_addr p l, n)].
Proof.
  destruct l as [|x l] using rev_ind; [by left|]. right. destruct x as [q n]. exists l, n. by rewrite last_addr_app.
Qed.

Lemma linked_split h p l1 l2 e :
  linked h p (l1 ++ l2) e <-> linked h p l1 (ptr h (last_addr p l1)) /\ linked h (last_addr p l1) l2 e.
Proof. revert p. induction l1 as [|[q k] l1 IH]; intros p; cbn [linked app last_addr]; [tauto|]. rewrite IH. tauto. Qed.

(** Changing the link of the last node moves the end of the chain. *)
Lemma linked_relink h h' b l e lo hi v :
  linked h b l e -> b < lo -> ascending lo l hi ->
  (forall a, a <> last_addr b l -> ptr h' a = ptr h a) -> (forall x, x ∈ l -> size h' x.1 = size h x.1) ->
  ptr h' (last_addr b l) = v -> linked h' b l v.
Proof.
  intros Hl Hb Ha Hp Hs Hv. destruct (last_addr_cases b l) as [[-> E]|(l' & n & E)]; [by rewrite E in Hv|].
  rewrite E in Hl, Ha |- *. set (p := last_addr b l) in *. clearbody p. apply linked_app in Hl as (Hl & Hn & _).
  apply ascending_app in Ha as (Ha & _ & _). apply linked_app. split_and!; [|rewrite <- Hn; apply (Hs (p, n)); rewrite E, elem_of_app; right; constructor|done].
  apply (linked_frame h _ b); [done|..].
  - apply Hp. pose proof (ascending_le _ _ _ Ha). lia.
  - intros x Hx. split; [|apply Hs; rewrite E, elem_of_app; by left]. apply Hp.
    destruct (ascending_in _ _ _ _ Ha Hx) as (? & ? & ?). unfold plus, sizeof_Header in *. lia.
Qed.

(** ** The search of [free] *)

Section Search.
Context (h : heap) (bp n lo hi : Z).

Lemma search_low fuel p l e :
  linked h p l e -> p < bp -> p < lo -> ascending lo l bp -> bp < e \/ e <= last_addr p l -> (length l < fuel)%nat ->
  free_search fuel h bp p = Some (last_addr p l).
Proof using Type.
  clear n hi. revert p l lo. induction fuel as [|fuel IH]; intros p l lo Hl Hp Hlo Ha He Hf; [lia|]. cbn [free_search].
  destruct l as [|[q k] l]; cbn [linked last_addr length ascending] in *.
  - rewrite Hl. destruct (Z.ltb_spec p bp); [|lia]. destruct (Z.ltb_spec bp e); [done|]. destruct (Z.leb_spec e p); [done|lia].
  - destruct Hl as (-> & _ & Hl). destruct Ha as (H1 & H2 & H3). pose proof (ascending_le _ _ _ H3).
    unfold plus, sizeof_Header in *. destruct (Z.ltb_spec bp q); [lia|]. rewrite andb_false_r.
    destruct (Z.leb_spec q p); [lia|]. cbn [andb]. eapply IH; try done; lia.
Qed.

Lemma search_high k p l base :
  linked h p l base -> bp < p -> p < lo -> ascending lo l hi -> base < bp ->
  free_search (S (length l) + k) h bp p = free_search k h bp base.
Proof using Type.
  clear n. revert p lo. induction l as [|[q m] l IH]; intros p lo Hl Hp Hlo Ha Hb; cbn [length Nat.add free_search linked ascending] in *.
  - rewrite Hl. destruct (Z.ltb_spec p bp); [lia|]. destruct (Z.ltb_spec bp base); [lia|]. cbn [andb orb]. by rewrite andb_false_r.
  - destruct Hl as (-> & _ & Hl). destruct Ha as (H1 & H2 & H3). unfold plus, sizeof_Header in *.
    destruct (Z.ltb_spec p bp); [lia|]. destruct (Z.leb_spec q p); [lia|]. cbn [andb]. eapply IH; try done; lia.
Qed.
End Search.

(** A block that is apart from those of the list has its place between two of them. *)
Lemma ascending_place lo l hi bp n :
  ascending lo l hi -> lo <= bp -> 1 <= n -> plus bp n <= hi -> (forall y, y ∈ l -> apart (bp, n) y) ->
  exists l1 l2, l = l1 ++ l2 /\ ascending lo l1 bp /\ ascending (plus bp n) l2 hi.
Proof.
  revert lo. induction l as [|[q m] l IH]; intros lo Ha Hlo Hn Hhi Hap.
  { exists [], []. cbn. unfold plus, sizeof_Header in *. split_and!; [done|lia|lia]. }
  cbn [ascending] in Ha. destruct Ha as (H1 & H2 & H3).
  destruct (Hap (q, m) ltac:(constructor)) as [H|H]; cbn in H.
  - exists [], ((q, m) :: l). cbn. split_and!; done.
  - destruct (IH (plus q m)) as (l1 & l2 & -> & Ha1 & Ha2); try done; [intros y Hy; apply Hap; by constructor|].
    exists ((q, m) :: l1), l2. cbn. split_and!; done.
Qed.

(** ** The state of the allocator *)

Fixpoint all_apart (l : list (Z * Z)) : Prop :=
  match l with [] => True | x :: l' => Forall (apart x) l' /\ all_apart l' end.

Lemma apart_sym x y : apart x y -> apart y x.
Proof. unfold apart. tauto. Qed.

Lemma all_apart_middle l1 x l2 : all_apart (l1 ++ x :: l2) <-> Forall (apart x) (l1 ++ l2) /\ all_apart (l1 ++ l2).
Proof.
  induction l1 as [|y l1 IH]; [done|]. cbn [all_apart app]. rewrite IH, !Forall_app, !Forall_cons, !Forall_app.
  split; intros H; split_and!; try tauto; apply apart_sym; tauto.
Qed.

Section Safety.
Context (base lo : Z).

(** [fl] are the free blocks, [live] those that the program has, each by the address of its
    header and its size in units. *)
Record heap_ok (h : heap) (fl live : list (Z * Z)) : Prop := {
  ho_linked : linked h base fl base;
  ho_base : size h base = 0;
  ho_freep : freep h = base \/ freep h ∈ fl.*1;
  ho_free : ascending lo fl (brk h);
  ho_live : Forall (fun x => lo <= x.1 /\ 1 <= x.2 /\ plus x.1 x.2 <= brk h /\ size h x.1 = x.2) live;
  ho_apart : Forall (fun x => Forall (apart x) fl) live;
  ho_live_apart : all_apart live;
  ho_brk : brk h < 2 ^ 31 }.

Context (Hbase : 0 < base) (Hlo : plus base 1 <= lo).

Lemma heap_ok_nodes h fl live x : heap_ok h fl live -> x ∈ fl -> base < x.1 /\ plus x.1 x.2 <= brk h /\ 1 <= x.2.
Proof using Hlo.
  intros H Hx. destruct (ascending_in _ _ _ _ (ho_free _ _ _ H) Hx) as (? & ? & ?).
  unfold plus, sizeof_Header in *. split_and!; lia.
Qed.

(** The search finds the node after which the block belongs. *)
Lemma free_search_ok h l1 l2 live bp n :
  heap_ok h (l1 ++ l2) live -> ascending lo l1 bp -> ascending (plus bp n) l2 (brk h) -> 1 <= n ->
  free_search (fuel_of h) h bp (freep h) = Some (last_addr base l1).
Proof using Hbase Hlo.
  intros H H1 H2 Hn. pose proof (ascending_length _ _ _ (ho_free _ _ _ H)) as Hlen. rewrite length_app in Hlen.
  pose proof (ascending_le _ _ _ H1) as Hbp. unfold plus, sizeof_Header in Hlo.
  assert (exists e, linked h base l1 e /\ (bp < e \/ e <= last_addr base l1)) as (e & Hl1 & He).
  { destruct l2 as [|[q m] l2].
    - exists base. split; [rewrite <- (app_nil_r l1); apply H|]. right. destruct (last_addr_cases base l1) as [[_ ->]|(l' & k & E)]; [done|].
      destruct (ascending_in _ _ _ (last_addr base l1, k) H1) as (? & _); [rewrite E at 2; set_solver|cbn in *; lia].
    - exists q. split; [pose proof (ho_linked _ _ _ H) as HL; by apply linked_app in HL as [? _]|]. left.
      cbn [ascending] in H2. unfold plus, sizeof_Header in *. lia. }
  assert (forall k, (length l1 < k)%nat -> free_search k h bp base = Some (last_addr base l1)) as Hfrom.
  { intros k Hk. by apply (search_low h bp lo k base l1 e); try lia. }
  destruct (ho_freep _ _ _ H) as [->|Hf]; [apply Hfrom; unfold fuel_of; lia|].
  apply list_elem_of_fmap in Hf as ([f m] & Ef & Hin). cbn in Ef. subst f. apply elem_of_app in Hin as [Hin|Hin];
    apply list_elem_of_split in Hin as (a & b & ->).
  - apply linked_app in Hl1 as (_ & _ & Hl1). rewrite last_addr_app in He |- *.
    apply ascending_app in H1 as (Ha1 & Hm & H1). pose proof (ascending_le _ _ _ Ha1). pose proof (ascending_le _ _ _ H1).
    rewrite !length_app in Hlen. cbn in Hlen. unfold plus, sizeof_Header in *.
    apply (search_low h bp (freep h + 16 * m) _ _ b e); try done; try lia. unfold fuel_of. lia.
  - pose proof (ho_linked _ _ _ H) as HL. rewrite app_assoc in HL. apply linked_app in HL as (_ & _ & HL).
    apply ascending_app in H2 as (Ha1 & Hm & H2). pose proof (ascending_le _ _ _ Ha1). unfold plus, sizeof_Header in *.
    rewrite !length_app in Hlen. cbn [length] in Hlen.
    replace (fuel_of h) with (S (length b) + (fuel_of h - S (length b)))%nat by (unfold fuel_of; lia).
    rewrite (search_high h bp (freep h + 16 * m) (brk h) _ (freep h) b base); try done; try lia.
    apply Hfrom. unfold fuel_of. lia.
Qed.

Definition same_but (b : Z) (h h' : heap) : Prop :=
  (forall a, a <> b -> cells h' !!! a = cells h !!! a) /\ freep h' = freep h /\ brk h' = brk h.

Lemma same_but_ptr b h h' a : same_but b h h' -> a <> b -> ptr h' a = ptr h a.
Proof using Type. intros [H _] Ha. unfold ptr. by rewrite H. Qed.
Lemma same_but_size b h h' a : same_but b h h' -> a <> b -> size h' a = size h a.
Proof using Type. intros [H _] Ha. unfold size. by rewrite H. Qed.
Lemma same_but_trans b h h1 h2 : same_but b h h1 -> same_but b h1 h2 -> same_but b h h2.
Proof using Type. intros (H1 & H2 & H3) (H4 & H5 & H6). split_and!; [intros a Ha; by rewrite H4, H1|congruence|congruence]. Qed.

Lemma same_but_set_ptr p v h : same_but p h (set_ptr p v h).
Proof using Type. split; [|done]. intros a Ha. cbn. by rewrite lookup_total_insert_ne. Qed.
Lemma same_but_set_size p v h : same_but p h (set_size p v h).
Proof using Type. split; [|done]. intros a Ha. cbn. by rewrite lookup_total_insert_ne. Qed.

Lemma ascending_not_in lo' l hi a : ascending lo' l hi -> a < lo' -> a ∉ l.*1.
Proof using Type.
  intros H Ha Hin. apply list_elem_of_fmap in Hin as (x & -> & Hx). destruct (ascending_in _ _ _ _ H Hx). lia.
Qed.

(** The nodes of a chain above [b] are not changed by writes to [b]. *)
Lemma linked_above h h' b p p' l e lo' hi :
  same_but b h h' -> linked h p l e -> ptr h' p' = ptr h p -> ascending lo' l hi -> b < lo' -> linked h' p' l e.
Proof using Type.
  intros Hs Hl Hp Ha Hb. apply (linked_frame h h' p); [done..|]. intros x Hx.
  destruct (ascending_in _ _ _ _ Ha Hx) as [? _]. split; [apply (same_but_ptr b)|apply (same_but_size b)]; done || lia.
Qed.

Lemma join_upper_ok h bp p n l2 hi :
  linked h p l2 base -> size h bp = n -> 1 <= n -> ascending (plus bp n) l2 hi -> 0 < bp -> base < bp -> p <> bp -> hi < 2 ^ 31 ->
  same_but bp h (join_upper bp p h) /\ exists n1 r, linked (join_upper bp p h) bp r base /\ size (join_upper bp p h) bp = n1 /\
    ((r = l2 /\ n1 = n) \/ exists m, l2 = (plus bp n, m) :: r /\ n1 = n + m).
Proof using Hbase.
  intros Hl Hn Hn1 Ha Hbp Hb Hp Hhi. unfold join_upper. rewrite Hn.
  assert (forall v, same_but bp h (set_ptr bp v h)) as Hset by (intros; apply same_but_set_ptr).
  destruct l2 as [|[q m] r]; cbn [linked ascending] in *.
  - rewrite Hl. destruct (Z.eqb_spec (plus bp n) base); [unfold plus, sizeof_Header in *; lia|].
    split; [done|]. exists n, []. cbn [linked]. rewrite ptr_set_ptr, decide_True, size_set_ptr by done. auto.
  - destruct Hl as (Hpq & Hm & Hl). rewrite !Hpq. destruct Ha as (Hq & Hm1 & Ha). pose proof (ascending_le _ _ _ Ha) as Hend.
    destruct (Z.eqb_spec (plus bp n) q) as [E|E].
    + set (h1 := set_size bp _ h). assert (same_but bp h h1) as H1 by apply same_but_set_size.
      assert (ptr h1 p = q) as -> by (unfold h1; by rewrite ptr_set_size).
      assert (same_but bp h (set_ptr bp (ptr h1 q) h1)) as H2 by (eapply same_but_trans; [done|apply same_but_set_ptr]).
      split; [done|]. exists (n + m), r. rewrite size_set_ptr. unfold h1 at 3. rewrite size_set_size, decide_True, Hm by done.
      unfold plus, sizeof_Header in *. split_and!; [|apply u32_small; lia|right; exists m; rewrite E; done].
      apply (linked_above h _ bp q bp r base (q + 16 * m) hi); try done; [|lia].
      rewrite ptr_set_ptr, decide_True by done. apply (same_but_ptr bp); [done|lia].
    + split; [done|]. exists n, ((q, m) :: r). rewrite size_set_ptr. split_and!; [|done|by left].
      cbn [linked]. rewrite ptr_set_ptr, decide_True, size_set_ptr by done. split_and!; [done..|].
      unfold plus, sizeof_Header in *. apply (linked_above h _ bp q q r base (q + 16 * m) hi); try done; [|lia].
      rewrite ptr_set_ptr, decide_False by lia. done.
Qed.

Lemma join_lower_ok h bp n1 l1 e r hi : let p := last_addr base l1 in
  linked h base l1 e -> ascending lo l1 bp -> size h base = 0 ->
  linked h bp r base -> size h bp = n1 -> 1 <= n1 -> ascending (plus bp n1) r hi -> hi < 2 ^ 31 ->
  same_but p h (join_lower bp p h) /\ size (join_lower bp p h) base = 0 /\
  exists fl', linked (join_lower bp p h) base fl' base /\ (p = base \/ p ∈ fl'.*1) /\
    (fl' = l1 ++ (bp, n1) :: r \/ exists l1' k, l1 = l1' ++ [(p, k)] /\ plus p k = bp /\ fl' = l1' ++ (p, k + n1) :: r).
Proof using Hbase Hlo.
  intros p Hl Ha Hb Hr Hn1 Hpos Har Hhi. pose proof (ascending_le _ _ _ Ha) as Hbp. pose proof (ascending_le _ _ _ Har) as Hend.
  unfold plus, sizeof_Header in Hlo, Hend. unfold join_lower.
  destruct (last_addr_cases base l1) as [[-> E]|(l1' & k & E)]; fold p in E.
  - subst p. rewrite E in *. rewrite Hb. destruct (Z.eqb_spec (plus base 0) bp); [unfold plus, sizeof_Header in *; lia|].
    split; [apply same_but_set_ptr|]. rewrite size_set_ptr. split; [done|]. exists ((bp, n1) :: r). split_and!; [|by left|by left].
    cbn [linked]. rewrite ptr_set_ptr, decide_True, size_set_ptr by done. split_and!; [done..|].
    apply (linked_above h _ base bp bp r base (plus bp n1) hi); try done; [apply same_but_set_ptr| |unfold plus, sizeof_Header in *; lia].
    rewrite ptr_set_ptr, decide_False by lia. done.
  - clearbody p. rewrite E in Hl, Ha. apply linked_app in Hl as (Hl & Hk & _). apply ascending_app in Ha as (Ha & Hk1 & Ha2).
    cbn [ascending] in Ha2. pose proof (ascending_le _ _ _ Ha) as Hpb. unfold plus, sizeof_Header in Hlo, Ha2. rewrite Hk.
    assert (forall h', same_but p h h' -> linked h' base l1' p) as Hl'.
    { intros h' Hs. apply (linked_frame h _ base); [done|apply (same_but_ptr p); [done|lia]|]. intros x Hx.
      destruct (ascending_in _ _ _ _ Ha Hx) as (? & ? & ?). unfold plus, sizeof_Header in *.
      split; [apply (same_but_ptr p)|apply (same_but_size p)]; done || lia. }
    assert (forall h', same_but p h h' -> size h' base = 0) as Hb' by (intros h' Hs; rewrite (same_but_size p h); [done|done|lia]).
    assert (forall h' q, same_but p h h' -> ptr h' q = ptr h bp -> linked h' q r base) as Hr'.
    { intros h' q Hs Hq. apply (linked_above h _ p bp q r base (plus bp n1) hi); try done. unfold plus, sizeof_Header in *. lia. }
    destruct (Z.eqb_spec (plus p k) bp) as [Ej|Ej].
    + set (h1 := set_size p _ h). assert (same_but p h (set_ptr p (ptr h1 bp) h1)) as Hs.
      { eapply same_but_trans; [apply same_but_set_size|apply same_but_set_ptr]. }
      split; [done|]. split; [by apply Hb'|]. exists (l1' ++ (p, k + n1) :: r). split_and!.
      * apply linked_app. split_and!; [by apply Hl'| |].
        -- rewrite size_set_ptr. unfold h1. rewrite size_set_size, decide_True, Hn1 by done. apply u32_small.
           unfold plus, sizeof_Header in *. lia.
        -- apply Hr'; [done|]. rewrite ptr_set_ptr, decide_True by done. unfold h1. by rewrite ptr_set_size.
      * right. rewrite fmap_app, elem_of_app. right. constructor.
      * right. exists l1', k. done.
    + assert (same_but p h (set_ptr p bp h)) as Hs by apply same_but_set_ptr. split; [done|]. split; [by apply Hb'|].
      exists (l1 ++ (bp, n1) :: r). rewrite E, <- app_assoc. cbn [app]. split_and!; [| |by left].
      * apply linked_app. split_and!; [by apply Hl'|by rewrite size_set_ptr|]. cbn [linked].
        rewrite ptr_set_ptr, decide_True, size_set_ptr by done. split_and!; [done..|]. apply Hr'; [done|].
        rewrite ptr_set_ptr, decide_False by lia. done.
      * right. rewrite fmap_app, elem_of_app. right. constructor.
Qed.

Lemma apart_join x a n m : 1 <= x.2 -> 1 <= n -> 1 <= m -> apart x (a, n) -> apart x (plus a n, m) -> apart x (a, n + m).
Proof using Type. unfold apart, plus, sizeof_Header. cbn. lia. Qed.

(** What the two joins make of the list: the blocks of [l1 ++ (bp, n) :: l2], some of them joined. *)
Inductive joined (bp n : Z) (l1 l2 : list (Z * Z)) : list (Z * Z) -> Prop :=
| joined_none : joined bp n l1 l2 (l1 ++ (bp, n) :: l2)
| joined_upper m r : l2 = (plus bp n, m) :: r -> joined bp n l1 l2 (l1 ++ (bp, n + m) :: r)
| joined_lower l p k : l1 = l ++ [(p, k)] -> plus p k = bp -> joined bp n l1 l2 (l ++ (p, k + n) :: l2)
| joined_both l p k m r : l1 = l ++ [(p, k)] -> plus p k = bp -> l2 = (plus bp n, m) :: r ->
    joined bp n l1 l2 (l ++ (p, k + (n + m)) :: r).

Lemma joined_length bp n l1 l2 fl' : joined bp n l1 l2 fl' -> (length fl' <= S (length (l1 ++ l2)))%nat.
Proof using Type.
  intros [|m r ->|l p k -> _|l p k m r -> _ ->]; rewrite !length_app; cbn; rewrite ?length_app; cbn; lia.
Qed.

Section Joined.
Context (bp n lo' hi : Z) (l1 l2 fl' : list (Z * Z)) (H1 : ascending lo' l1 bp) (H2 : ascending (plus bp n) l2 hi) (Hn : 1 <= n).
Context (HJ : joined bp n l1 l2 fl').

Lemma joined_ascending : ascending lo' fl' hi.
Proof using H1 H2 Hn HJ.
  destruct HJ as [|m r ->|l p k -> Ep|l p k m r -> Ep ->]; clear HJ;
    repeat match goal with H : ascending _ (_ ++ _ :: _) _ |- _ => apply ascending_app in H as (? & ? & ?) end;
    cbn [ascending] in *; apply ascending_app; unfold plus, sizeof_Header in *; split_and!; try done; try lia.
  all: destruct_and?; eapply ascending_weaken; [eassumption|lia|lia].
Qed.

Lemma joined_apart x : 1 <= x.2 -> apart x (bp, n) -> Forall (apart x) l1 -> Forall (apart x) l2 -> Forall (apart x) fl'.
Proof using H1 H2 Hn HJ.
  intros Hx Hb F1 F2. destruct HJ as [|m r ->|l p k -> Ep|l p k m r -> Ep ->]; clear HJ;
    rewrite ?Forall_app, ?Forall_cons in *; destruct_and?; split_and!; try done;
    repeat match goal with H : ascending _ (_ ++ _ :: _) _ |- _ => apply ascending_app in H as (? & ? & ?) end;
    cbn [ascending] in *; destruct_and?.
  - by apply apart_join.
  - apply apart_join; try done. by rewrite Ep.
  - apply apart_join; try done; [lia|]. rewrite Ep. by apply apart_join.
Qed.

(** The memory of the block is free now. *)
Lemma joined_covers : exists q m, (q, m) ∈ fl' /\ n <= m.
Proof using H1 H2 Hn HJ.
  destruct HJ as [|m r ->|l p k -> Ep|l p k m r -> Ep ->]; clear HJ;
    repeat match goal with H : ascending _ (_ ++ _ :: _) _ |- _ => apply ascending_app in H as (? & ? & ?) end;
    cbn [ascending] in *; destruct_and?; eexists _, _; (split; [apply elem_of_app; right; constructor|lia]).
Qed.
End Joined.

(** The blocks of [h] and [h'] have the same cells, unless they are headers of the free list. *)
Definition keeps_cells (fl : list (Z * Z)) (bp : Z) (h h' : heap) : Prop :=
  forall a, a <> base -> a <> bp -> a ∉ fl.*1 -> cells h' !!! a = cells h !!! a.

Lemma last_addr_concat p l1 l2 : last_addr p (l1 ++ l2) = last_addr (last_addr p l1) l2.
Proof using Type. revert p. induction l1 as [|[q n] l1 IH]; intros p; cbn; auto. Qed.

Lemma last_addr_elem p l : l <> [] -> last_addr p l ∈ l.*1.
Proof using Type.
  revert p. induction l as [|[q n] l IH]; intros p Hl; [done|]. cbn [last_addr]. destruct l as [|x l]; [constructor|].
  right. by apply IH.
Qed.

Lemma last_addr_in p l : last_addr p l = p \/ last_addr p l ∈ l.*1.
Proof using Type.
  destruct (decide (l = [])) as [->|Hl]; [by left|right]. by apply last_addr_elem.
Qed.

Lemma header_apart x y : apart x y -> 1 <= x.2 -> 1 <= y.2 -> x.1 <> y.1.
Proof using Type. unfold apart, plus, sizeof_Header. lia. Qed.

(** The search and the two joins, on the list around the place of the block. *)
Lemma free_joins h l1 l2 live bp n :
  heap_ok h (l1 ++ l2) live -> ascending lo l1 bp -> ascending (plus bp n) l2 (brk h) -> 1 <= n -> size h bp = n ->
  exists h' fl', free (plus bp 1) h = Some h' /\ linked h' base fl' base /\ size h' base = 0 /\
    (freep h' = base \/ freep h' ∈ fl'.*1) /\ brk h' = brk h /\ joined bp n l1 l2 fl' /\ keeps_cells (l1 ++ l2) bp h h'.
Proof using Hbase Hlo.
  intros H H1 H2 Hn Hsz. pose proof (ascending_le _ _ _ H1) as Hbp. unfold plus, sizeof_Header in Hlo.
  unfold free. replace (plus bp 1 - sizeof_Header) with bp by (unfold plus; lia).
  rewrite (free_search_ok h l1 l2 live bp n) by done. cbn [mbind option_bind].
  set (p := last_addr base l1). pose proof (ho_linked _ _ _ H) as HL.
  assert (p < bp) as Hp.
  { unfold p. destruct (last_addr_cases base l1) as [[_ ->]|(l' & k & E)]; [lia|].
    destruct (ascending_in _ _ _ (last_addr base l1, k) H1) as (? & ? & ?); [rewrite E at 2; set_solver|].
    unfold plus, sizeof_Header in *. cbn in *. lia. }
  assert (linked h base l1 (ptr h p) /\ linked h p l2 base) as [HL1 HL2].
  { by apply linked_split. }
  destruct (join_upper_ok h bp p n l2 (brk h)) as [Hs1 (n1 & r & Hr & Hn1 & HU)]; try done; try lia; [apply H|].
  set (h1 := join_upper bp p h) in *. clearbody h1.
  assert (1 <= n1 /\ ascending (plus bp n1) r (brk h)) as [Hn1' Ha1].
  { destruct HU as [[-> ->]|(m & -> & ->)]; [done|]. cbn [ascending] in H2. unfold plus, sizeof_Header in *. destruct_and?. split; [lia|].
    eapply ascending_weaken; [eassumption|lia|lia]. }
  destruct (join_lower_ok h1 bp n1 l1 (ptr h p) r (brk h)) as (Hs2 & Hb2 & fl' & Hl2 & Hf2 & HD); try done.
  { apply (linked_frame h _ base); [done|apply (same_but_ptr bp); [done|lia]|]. intros x Hx.
    destruct (ascending_in _ _ _ _ H1 Hx) as (? & ? & ?). unfold plus, sizeof_Header in *.
    split; [apply (same_but_ptr bp)|apply (same_but_size bp)]; done || lia. }
  { rewrite (same_but_size bp h) by (done || lia). apply H. }
  { apply H. }
  fold p in Hs2, Hl2, Hf2, HD, Hb2. set (h2 := join_lower bp p h1) in *. clearbody h2.
  eexists _, fl'. split; [done|]. split_and!; try done.
  - by apply (linked_frame h2 _ base).
  - destruct Hs1 as (_ & _ & E1), Hs2 as (_ & _ & E2). cbn. congruence.
  - clearbody p. destruct HU as [[-> ->]|(m & -> & ->)], HD as [->|(l & k & -> & Ek & ->)]; by econstructor.
  - intros a Ha0 Ha1' Ha2. cbn. destruct Hs1 as (E1 & _), Hs2 as (E2 & _). rewrite E2, E1; [done|done|].
    intros Eap. apply Ha2. rewrite fmap_app, elem_of_app, Eap. left. destruct (last_addr_in base l1) as [E|E]; [|done].
    exfalso. apply Ha0. by rewrite Eap.
Qed.

(** [free] puts the block back; it terminates, and nothing that is in use changes. *)
Lemma free_ok h fl v1 bp n v2 :
  heap_ok h fl (v1 ++ (bp, n) :: v2) ->
  exists h' fl', free (plus bp 1) h = Some h' /\ heap_ok h' fl' (v1 ++ v2) /\ brk h' = brk h /\
    keeps_cells fl bp h h' /\ (length fl' <= S (length fl))%nat /\ exists q m, (q, m) ∈ fl' /\ n <= m.
Proof using Hbase Hlo.
  intros H. destruct H as [HL Hb0 Hf Hfl Hlive Hap Hall Hbrk] eqn:E. clear E.
  rewrite Forall_app, Forall_cons in Hlive, Hap. destruct Hlive as (L1 & (Hlo1 & Hn & Hhi & Hsz) & L2), Hap as (A1 & A0 & A2).
  apply all_apart_middle in Hall as [Hbpa Hall]. rewrite Forall_app in Hbpa. destruct Hbpa as [B1 B2]. cbn in *.
  destruct (ascending_place lo fl (brk h) bp n) as (l1 & l2 & -> & H1 & H2); try done.
  { intros y Hy. rewrite Forall_forall in A0. by apply A0. }
  destruct (free_joins h l1 l2 _ bp n H H1 H2 Hn Hsz) as (h' & fl' & Hfree & HL' & Hb' & Hf' & Hbrk' & HJ & Hk).
  exists h', fl'. split; [done|]. split; [|split; [done|]; split; [done|]; split; [by eapply joined_length|exact (joined_covers _ _ _ _ _ _ _ H1 H2 Hn HJ)]].
  assert (Forall (fun x => lo <= x.1 /\ 1 <= x.2 /\ plus x.1 x.2 <= brk h /\ size h x.1 = x.2) (v1 ++ v2)) as Lv by (by apply Forall_app).
  assert (Forall (fun x => Forall (apart x) (l1 ++ l2)) (v1 ++ v2)) as Av by (by apply Forall_app).
  assert (Forall (apart (bp, n)) (v1 ++ v2)) as Bv by (by apply Forall_app).
  rewrite Forall_forall in Lv, Av, Bv.
  split; try done; try (rewrite Hbrk'; done).
  - rewrite Hbrk'. exact (joined_ascending _ _ _ _ _ _ _ H1 H2 Hn HJ).
  - apply Forall_forall. intros x Hx. destruct (Lv _ Hx) as (X1 & X2 & X3 & X4). rewrite Hbrk'. split_and!; try done.
    rewrite <- X4. unfold size. f_equal. apply Hk.
    + unfold plus, sizeof_Header in Hlo. lia.
    + pose proof (header_apart _ _ (Bv _ Hx) Hn X2). done.
    + intros Hin. apply list_elem_of_fmap in Hin as (y & Ey & Hy). specialize (Av _ Hx). rewrite Forall_forall in Av.
      destruct (ascending_in _ _ _ _ Hfl Hy) as (_ & Y & _). by apply (header_apart _ _ (Av _ Hy) X2 Y).
  - apply Forall_forall. intros x Hx. destruct (Lv _ Hx) as (X1 & X2 & X3 & X4). specialize (Av _ Hx). apply Forall_app in Av as [Av1 Av2].
    apply (joined_apart _ _ _ _ _ _ _ H1 H2 Hn HJ); try done. by apply apart_sym, Bv.
Qed.

(** ** Taking a block *)

(** The cells of the blocks in use, headers included. *)
Definition kept (live : list (Z * Z)) (h h' : heap) : Prop :=
  forall x k, x ∈ live -> 0 <= k < x.2 -> cells h' !!! plus x.1 k = cells h !!! plus x.1 k.

(** A cell outside of the heap, or in a block apart from them, is not one of them. *)
Lemma kept_apart h h' hi live : Forall (fun x => lo <= x.1 /\ plus x.1 x.2 <= hi) live ->
  (forall a, cells h' !!! a <> cells h !!! a -> a < lo \/ hi <= a \/ exists y, Forall (apart y) live /\ y.1 <= a < plus y.1 y.2) ->
  kept live h h'.
Proof using Type.
  intros HL Hch x k Hx Hk. destruct (decide (cells h' !!! plus x.1 k = cells h !!! plus x.1 k)) as [|Hne]; [done|exfalso].
  rewrite Forall_forall in HL. destruct (HL _ Hx) as (L1 & L2). destruct (Hch _ Hne) as [Ha|[Ha|(y & Hy & Ha)]].
  1-2: unfold plus, sizeof_Header in *; lia.
  rewrite Forall_forall in Hy. specialize (Hy _ Hx). unfold apart, plus, sizeof_Header in *. lia.
Qed.

Lemma kept_free h h' fl live : heap_ok h fl live ->
  (forall a, cells h' !!! a <> cells h !!! a -> a < lo \/ brk h <= a \/ exists y, y ∈ fl /\ y.1 <= a < plus y.1 y.2) ->
  kept live h h'.
Proof using Type.
  intros H Hch. apply (kept_apart h h' (brk h)).
  - eapply Forall_impl; [apply H|]. cbn. tauto.
  - intros a Ha. destruct (Hch a Ha) as [?|[?|(y & Hy & Hr)]]; [tauto|tauto|]. right. right. exists y. split; [|done].
    apply Forall_forall. intros x Hx. pose proof (ho_apart _ _ _ H) as HA. rewrite Forall_forall in HA. specialize (HA _ Hx).
    rewrite Forall_forall in HA. by apply apart_sym, HA.
Qed.

Lemma live_sizes h h' live hi : kept live h h' -> hi <= brk h' ->
  Forall (fun x => lo <= x.1 /\ 1 <= x.2 /\ plus x.1 x.2 <= hi /\ size h x.1 = x.2) live ->
  Forall (fun x => lo <= x.1 /\ 1 <= x.2 /\ plus x.1 x.2 <= brk h' /\ size h' x.1 = x.2) live.
Proof using Type.
  intros Hk Hb HL. rewrite Forall_forall in HL |- *. intros x Hx. destruct (HL _ Hx) as (L1 & L2 & L3 & L4).
  split_and!; [done|done|lia|]. rewrite <- L4. unfold size. f_equal. specialize (Hk x 0 Hx ltac:(lia)).
  unfold plus, sizeof_Header in Hk. by rewrite !Z.mul_0_r, !Z.add_0_r in Hk.
Qed.

Lemma ascending_concat lo' l1 l2 mid hi : ascending lo' l1 mid -> ascending mid l2 hi -> ascending lo' (l1 ++ l2) hi.
Proof using Type.
  revert lo'. induction l1 as [|[q n] l1 IH]; intros lo'; cbn [ascending app]; [intros; by eapply ascending_weaken|].
  intros (? & ? & ?) ?. split_and!; [done..|]. by apply IH.
Qed.

Lemma ascending_apart lo' l1 q m l2 hi : ascending lo' (l1 ++ (q, m) :: l2) hi ->
  ascending lo' (l1 ++ l2) hi /\ Forall (apart (q, m)) (l1 ++ l2).
Proof using Type.
  intros H. apply ascending_app in H as (H1 & Hm & H2). split.
  - eapply ascending_concat; [exact H1|]. eapply ascending_weaken; [exact H2| |done]. unfold plus, sizeof_Header. lia.
  - apply Forall_app. split; apply Forall_forall; intros x Hx.
    + destruct (ascending_in _ _ _ _ H1 Hx) as (_ & _ & ?). by right.
    + destruct (ascending_in _ _ _ _ H2 Hx) as (? & _ & _). by left.
Qed.

(** A block moves from the free list to those in use. *)
Lemma live_take h h' live q m :
  Forall (apart (q, m)) live -> kept live h h' -> brk h' = brk h -> lo <= q -> 1 <= m -> plus q m <= brk h -> size h' q = m ->
  Forall (fun x => lo <= x.1 /\ 1 <= x.2 /\ plus x.1 x.2 <= brk h /\ size h x.1 = x.2) live -> all_apart live ->
  Forall (fun x => lo <= x.1 /\ 1 <= x.2 /\ plus x.1 x.2 <= brk h' /\ size h' x.1 = x.2) ((q, m) :: live) /\ all_apart ((q, m) :: live).
Proof using Type.
  intros Ha Hk Hb H1 H2 H3 H4 HL Hall. split; [|done]. constructor; [by rewrite Hb|].
  apply (live_sizes h h' live (brk h)); [done|lia|done].
Qed.

Lemma live_apart_sub h fl live l y : heap_ok h fl live -> y ∈ fl -> (forall z, z ∈ l -> z ∈ fl) ->
  Forall (apart y) live /\ Forall (fun x => Forall (apart x) l) live.
Proof using Type.
  intros H Hy Hl. pose proof (ho_apart _ _ _ H) as HA. rewrite Forall_forall in HA. split; apply Forall_forall; intros x Hx;
    specialize (HA _ Hx); rewrite Forall_forall in HA; [by apply apart_sym, HA|]. apply Forall_forall. auto.
Qed.

Lemma take_whole h l1 q m l2 live :
  heap_ok h (l1 ++ (q, m) :: l2) live -> let p := last_addr base l1 in
  let h' := set_freep p (set_ptr p (ptr h q) h) in
  heap_ok h' (l1 ++ l2) ((q, m) :: live) /\ kept live h h'.
Proof using Hbase Hlo.
  intros H p h'. pose proof (ho_free _ _ _ H) as Ha. apply ascending_app in Ha as (Ha1 & Hm & Ha2).
  pose proof (ascending_le _ _ _ Ha1). pose proof (ascending_le _ _ _ Ha2). unfold plus, sizeof_Header in Hlo.
  pose proof (ho_linked _ _ _ H) as HL. apply linked_app in HL as (HL1 & Hsz & HL2).
  assert (forall a, cells h' !!! a <> cells h !!! a -> a = p) as Hch.
  { intros a Hne. destruct (decide (a = p)); [done|]. exfalso. apply Hne. cbn. by rewrite lookup_total_insert_ne. }
  assert (p = base \/ p ∈ l1.*1) as Hp by apply last_addr_in.
  assert (p < q) as Hpq.
  { destruct Hp as [->|Hp]; [lia|]. apply list_elem_of_fmap in Hp as (x & -> & Hx).
    destruct (ascending_in _ _ _ _ Ha1 Hx) as (? & ? & ?). unfold plus, sizeof_Header in *. lia. }
  assert (kept live h h') as Hk.
  { apply (kept_free h h' _ _ H). intros a ->%Hch. destruct Hp as [->|Hp]; [left; lia|]. right. right.
    apply list_elem_of_fmap in Hp as (x & -> & Hx). exists x. destruct (ascending_in _ _ _ _ Ha1 Hx) as (? & ? & ?).
    split; [apply elem_of_app; by left|]. unfold plus, sizeof_Header in *. lia. }
  pose proof (live_take h h' live q m) as Hlv. ospecialize* Hlv; try done; try lia; [|by rewrite <- Hsz; apply size_set_ptr|apply H|apply H|].
  { apply (live_apart_sub h _ live [] (q, m) H); set_solver. }
  split; [|done]. split.
  - apply linked_freep, linked_split. split.
    + apply (linked_relink h _ base l1 q lo q); try done; try lia; [intros a Hne|intros x _; apply size_set_ptr].
      by rewrite ptr_set_ptr, decide_False.
    + fold p. apply (linked_above h _ p q p l2 base (plus q m) (brk h)); try done; [apply same_but_set_ptr| |].
      * by rewrite ptr_set_ptr, decide_True.
      * unfold plus, sizeof_Header. lia.
  - change (size (set_ptr p (ptr h q) h) base = 0). rewrite size_set_ptr. apply H.
  - destruct Hp as [E|Hp]; [by left|right]. rewrite fmap_app, elem_of_app. by left.
  - by apply (ascending_apart lo l1 q m l2), H.
  - apply Hlv.
  - constructor; [by apply (ascending_apart lo l1 q m l2 (brk h)), H|].
    apply (live_apart_sub h _ live (l1 ++ l2) (q, m) H); set_solver.
  - apply Hlv.
  - apply H.
Qed.

Lemma apart_sub x q m a k : apart x (q, m) -> q <= a -> plus a k <= plus q m -> apart x (a, k).
Proof using Type. unfold apart. cbn. lia. Qed.

Lemma take_part h l1 q m l2 live n :
  heap_ok h (l1 ++ (q, m) :: l2) live -> 1 <= n < m -> let p := last_addr base l1 in
  let h' := set_freep p (set_size (plus q (m - n)) n (set_size q (m - n) h)) in
  heap_ok h' (l1 ++ (q, m - n) :: l2) ((plus q (m - n), n) :: live) /\ kept live h h'.
Proof using Hbase Hlo.
  intros H Hn p h'. pose proof (ho_free _ _ _ H) as Ha. apply ascending_app in Ha as (Ha1 & Hm & Ha2).
  pose proof (ascending_le _ _ _ Ha1). pose proof (ascending_le _ _ _ Ha2). unfold plus, sizeof_Header in Hlo.
  pose proof (ho_linked _ _ _ H) as HL. apply linked_app in HL as (HL1 & Hsz & HL2).
  set (nb := plus q (m - n)) in *. assert (q < nb /\ nb + 16 * n = q + 16 * m) as [Hnb Hnb2] by (unfold nb, plus, sizeof_Header; lia).
  assert (forall a, a <> q -> a <> nb -> cells h' !!! a = cells h !!! a) as Hch.
  { intros a Hq1 Hq2. cbn. by rewrite !lookup_total_insert_ne. }
  assert (forall a, ptr h' a = ptr h a) as Hptr by (intros a; change (ptr (set_size nb n (set_size q (m - n) h)) a = ptr h a); by rewrite !ptr_set_size).
  assert (forall a, size h' a = if decide (a = nb) then n else if decide (a = q) then m - n else size h a) as Hsize.
  { intros a. change (size (set_size nb n (set_size q (m - n) h)) a = if decide (a = nb) then n else if decide (a = q) then m - n else size h a).
    by rewrite !size_set_size. }
  assert (forall a, a < q \/ nb + 16 * n <= a -> size h' a = size h a) as Hsz'.
  { intros a Ha. rewrite Hsize, !decide_False by lia. done. }
  assert (kept live h h') as Hk.
  { apply (kept_free h h' _ _ H). intros a Hne. right. right. exists (q, m). split; [set_solver|].
    destruct (decide (a = q)) as [->|]; [|destruct (decide (a = nb)) as [->|]]; [..|exfalso; by apply Hne, Hch];
      unfold plus, sizeof_Header; cbn; lia. }
  pose proof (live_apart_sub h _ live (l1 ++ l2) (q, m) H ltac:(set_solver) ltac:(set_solver)) as [Aq Al].
  destruct (ascending_apart lo l1 q m l2 _ (ho_free _ _ _ H)) as [Hasc Hap].
  assert (forall y, apart y (q, m) -> apart y (nb, n) /\ apart y (q, m - n)) as Hsub.
  { intros y Hy. split; apply (apart_sub y q m); try done; unfold nb, plus, sizeof_Header; lia. }
  pose proof (live_take h h' live nb n) as Hlv. ospecialize* Hlv; try done; try lia;
    [|unfold plus, sizeof_Header in *; lia|by rewrite Hsize, decide_True|apply H|apply H|].
  { eapply Forall_impl; [exact Aq|]. intros y Hy. by apply apart_sym, Hsub, apart_sym. }
  split; [|done]. split.
  - apply linked_app. split_and!; [| |].
    + apply (linked_frame h _ base); [done..|]. intros x Hx. split; [done|]. apply Hsz'.
      destruct (ascending_in _ _ _ _ Ha1 Hx) as (? & ? & ?). unfold plus, sizeof_Header in *. lia.
    + by rewrite Hsize, decide_False, decide_True by (done || lia).
    + apply (linked_frame h _ q); [done..|]. intros x Hx. split; [done|]. apply Hsz'.
      destruct (ascending_in _ _ _ _ Ha2 Hx) as (? & ? & ?). unfold plus, sizeof_Header in *. lia.
  - rewrite Hsz' by lia. apply H.
  - destruct (last_addr_in base l1) as [E|Hp]; [by left|right]. rewrite fmap_app, elem_of_app. by left.
  - apply ascending_app. split_and!; [done|lia|]. eapply ascending_weaken; [exact Ha2| |done]. unfold plus, sizeof_Header. lia.
  - apply Hlv.
  - rewrite Forall_app in Hap. destruct Hap as [Hap1 Hap2]. constructor.
    + apply Forall_app. split; [|constructor; [right; cbn; done|]]; (eapply Forall_impl; [eassumption|]); intros y Hy;
        by apply apart_sym, Hsub, apart_sym.
    + rewrite Forall_forall in Aq, Al |- *. intros x Hx. specialize (Al _ Hx). specialize (Aq _ Hx). apply Forall_app in Al as [Al1 Al2].
      apply Forall_app. split; [done|]. constructor; [by apply Hsub, apart_sym|done].
  - apply Hlv.
  - apply H.
Qed.

(** ** The search of [malloc] *)

Lemma take_block_ok h l1 q m l2 live n :
  heap_ok h (l1 ++ (q, m) :: l2) live -> 1 <= n <= m ->
  exists b h' fl', take_block n (last_addr base l1) q h = (plus b 1, h') /\ heap_ok h' fl' ((b, n) :: live) /\ kept live h h'.
Proof using Hbase Hlo.
  intros H Hn. destruct (proj1 (linked_app _ _ _ _ _ _ _) (ho_linked _ _ _ H)) as (_ & Hsz & _). unfold take_block. rewrite Hsz.
  destruct (Z.eqb_spec m n) as [<-|Hne].
  - destruct (take_whole h l1 q m l2 live H) as [H1 H2]. eauto 10.
  - assert (q + 16 * m < 2 ^ 31 /\ 0 <= q) as [Hq1 Hq2].
    { destruct (heap_ok_nodes h _ _ (q, m) H) as (? & ? & ?); [set_solver|]. pose proof (ho_brk _ _ _ H).
      unfold plus, sizeof_Header in *. cbn in *. lia. }
    rewrite size_set_size, decide_True, u32_small by (done || lia).
    destruct (take_part h l1 q m l2 live n H) as [H1 H2]; [lia|]. eauto 10.
Qed.

Section Scan.
Context (grow : Z -> Z -> bool) (nunits : Z).

(** The branch of the loop that has gone round the list. *)
Definition more (k : nat) (h : heap) : option (Z * heap) :=
  r ← morecore grow nunits h;
  let '(p, h) := r in
  if p =? 0 then Some (0, h) else malloc_loop grow k nunits p (ptr h p) h.

Lemma scan_list h fuel prevp W e :
  linked h prevp W e -> last_addr prevp W = freep h -> W <> [] -> NoDup W.*1 -> (length W <= fuel)%nat ->
  (exists W1 q m W2, W = W1 ++ (q, m) :: W2 /\ nunits <= m /\
     malloc_loop grow fuel nunits prevp (ptr h prevp) h = Some (take_block nunits (last_addr prevp W1) q h)) \/
  (Forall (fun x => x.2 < nunits) W /\ malloc_loop grow fuel nunits prevp (ptr h prevp) h = more (fuel - length W) h).
Proof using Type.
  revert prevp W. induction fuel as [|fuel IH]; intros prevp [|[q m] W] Hl Hf Hne Hnd Hlen; cbn [length] in *; try done; [lia|].
  cbn [linked last_addr malloc_loop] in *. destruct Hl as (-> & Hm & Hl). rewrite Hm.
  destruct (Z.leb_spec nunits m) as [Hle|Hlt]; [left; by exists [], q, m, W|].
  apply NoDup_cons in Hnd as [Hq Hnd]. destruct (decide (W = [])) as [->|HW].
  - cbn [last_addr] in Hf. subst q. rewrite Z.eqb_refl. right. split; [by repeat constructor|]. by rewrite Nat.sub_succ, Nat.sub_0_r.
  - destruct (Z.eqb_spec q (freep h)) as [E|E].
    { exfalso. apply Hq. rewrite E, <- Hf. by apply last_addr_elem. }
    destruct (IH q W) as [(W1 & q' & m' & W2 & -> & Hle & Hr)|[HF Hr]]; try done; [lia|..].
    + left. exists ((q, m) :: W1), q', m', W2. done.
    + right. split; [by constructor|]. rewrite Hr. f_equal.
Qed.

Lemma ascending_nodup lo' l hi : ascending lo' l hi -> NoDup l.*1.
Proof using Type.
  revert lo'. induction l as [|[q n] l IH]; intros lo'; cbn [ascending]; [constructor|]. intros (H1 & H2 & H3). cbn.
  apply NoDup_cons. split; [|by eapply IH]. eapply ascending_not_in; [exact H3|]. unfold plus, sizeof_Header. lia.
Qed.

(** The free list is cut at [freep], where the search starts. *)
Lemma freep_cut h fl live : heap_ok h fl live -> exists c d, fl = c ++ d /\ freep h = last_addr base c.
Proof using Type.
  intros H. destruct (ho_freep _ _ _ H) as [E|Hf]; [by exists [], fl|].
  apply list_elem_of_fmap in Hf as ([f n] & E & Hin). apply list_elem_of_split in Hin as (a & b & ->). cbn in E.
  exists (a ++ [(f, n)]), b. rewrite <- app_assoc, last_addr_app. done.
Qed.

Lemma malloc_find h fl live fuel : heap_ok h fl live -> 1 <= nunits -> (S (length fl) <= fuel)%nat ->
  (exists b h' fl', malloc_loop grow fuel nunits (freep h) (ptr h (freep h)) h = Some (plus b 1, h') /\
     heap_ok h' fl' ((b, nunits) :: live) /\ kept live h h') \/
  (Forall (fun x => x.2 < nunits) fl /\
   malloc_loop grow fuel nunits (freep h) (ptr h (freep h)) h = more (fuel - S (length fl)) h).
Proof using Hbase Hlo.
  intros H Hn Hfuel. destruct (freep_cut _ _ _ H) as (c & d & -> & Ef). pose proof (ho_linked _ _ _ H) as HL.
  apply linked_split in HL as [HLc HLd]. rewrite <- Ef in HLc, HLd.
  assert (NoDup (d ++ (base, 0) :: c).*1) as Hnd.
  { rewrite fmap_app, fmap_cons, (Permutation_app_comm d.*1). cbn. rewrite <- fmap_app. apply NoDup_cons.
    split; [|eapply ascending_nodup, H]. eapply ascending_not_in; [apply H|]. unfold plus, sizeof_Header in Hlo. lia. }
  destruct (scan_list h fuel (freep h) (d ++ (base, 0) :: c) (ptr h (freep h))) as [(W1 & q & m & W2 & EW & Hle & Hr)|[HF Hr]].
  - apply linked_app. split_and!; [done|apply H|done].
  - by rewrite last_addr_app.
  - by destruct d.
  - done.
  - rewrite length_app in *. cbn. lia.
  - left. assert (exists l1 l2, c ++ d = l1 ++ (q, m) :: l2 /\ last_addr (freep h) W1 = last_addr base l1) as (l1 & l2 & El & Elast).
    { apply app_eq_inv in EW as [(k & -> & Ek)|(k & -> & Ek)].
      - destruct k as [|x k]; cbn in Ek; injection Ek as Ex Ek; [lia|]. subst x. exists (c ++ W1), k.
        by rewrite <- app_assoc, last_addr_concat, Ef.
      - destruct k as [|x k]; cbn in Ek; injection Ek as Ex Ek; [lia|]. subst x c. exists k, (W2 ++ d).
        by rewrite <- app_assoc, last_addr_app. }
    rewrite El in H. destruct (take_block_ok h l1 q m l2 live nunits H) as (b & h' & fl' & Ht & Hok & Hk); [lia|].
    exists b, h', fl'. rewrite Hr, Elast, Ht. done.
  - right. rewrite Forall_app, Forall_cons in HF. split; [rewrite Forall_app; tauto|]. rewrite Hr. f_equal. rewrite !length_app. cbn. lia.
Qed.

(** ** [morecore] and [malloc] *)

(** What is known of the kernel: it does not give a process more memory than this. *)
Context (Hgrow : forall b n, grow b n = true -> b + n < 2 ^ 31) (Hn : 1 <= nunits) (Hmax : nunits * 16 < 2 ^ 31).

Lemma sbrk_extends h fl live nu : heap_ok h fl live -> 1 <= nu -> brk h + 16 * nu < 2 ^ 31 ->
  heap_ok (set_size (brk h) nu (set_brk (brk h + 16 * nu) h)) fl ((brk h, nu) :: live).
Proof using Hbase Hlo.
  intros H Hnu Hlim. set (h1 := set_size _ _ _). pose proof (ascending_le _ _ _ (ho_free _ _ _ H)) as Hb.
  unfold plus, sizeof_Header in Hlo. assert (forall a, a < brk h -> cells h1 !!! a = cells h !!! a) as Hold.
  { intros a Ha. cbn. by rewrite lookup_total_insert_ne by lia. }
  assert (forall x, x ∈ fl -> cells h1 !!! x.1 = cells h !!! x.1) as Hfl.
  { intros x Hx. apply Hold. destruct (ascending_in _ _ _ _ (ho_free _ _ _ H) Hx) as (? & ? & ?). unfold plus, sizeof_Header in *. lia. }
  assert (cells h1 !!! base = cells h !!! base) as Hba by (apply Hold; lia).
  pose proof (ho_live _ _ _ H) as HL. rewrite Forall_forall in HL.
  split.
  - apply (linked_frame h _ base); [apply H|unfold ptr; by rewrite Hba|]. intros x Hx. unfold ptr, size. by rewrite Hfl.
  - unfold size. rewrite Hba. apply H.
  - apply H.
  - eapply ascending_weaken; [apply H|done|cbn; lia].
  - constructor; [unfold h1; rewrite size_set_size, decide_True by done; cbn; unfold plus, sizeof_Header; lia|].
    apply Forall_forall. intros x Hx. destruct (HL _ Hx) as (L1 & L2 & L3 & L4). cbn [brk h1 set_size set_brk].
    unfold plus, sizeof_Header in *. split_and!; [done|done|lia|]. unfold size. rewrite Hold by lia. exact L4.
  - constructor; [|apply H]. apply Forall_forall. intros x Hx.
    destruct (ascending_in _ _ _ _ (ho_free _ _ _ H) Hx) as (? & ? & ?). by right.
  - split; [|apply H]. apply Forall_forall. intros x Hx. destruct (HL _ Hx) as (L1 & L2 & L3 & L4). by right.
  - cbn. lia.
Qed.

Lemma morecore_ok h fl live : heap_ok h fl live ->
  morecore grow nunits h = Some (0, h) \/
  exists h' fl', morecore grow nunits h = Some (freep h', h') /\ heap_ok h' fl' live /\ freep h' <> 0 /\ kept live h h' /\
    (length fl' <= S (length fl))%nat /\ exists q m, (q, m) ∈ fl' /\ nunits <= m.
Proof using Hbase Hlo Hgrow Hn Hmax.
  intros H. unfold morecore, sbrk. set (nu := if nunits <? 4096 then 4096 else nunits).
  assert (nunits <= nu /\ 1 <= nu /\ nu * 16 < 2 ^ 31) as (Hnu1 & Hnu2 & Hnu3) by (unfold nu; destruct (Z.ltb_spec nunits 4096); lia).
  clearbody nu. assert (i32 (nu * sizeof_Header) = 16 * nu) as ->.
  { unfold i32, sizeof_Header. rewrite Z.mod_small by lia. lia. }
  destruct (grow (brk h) (16 * nu)) eqn:G; [right|by left]. apply Hgrow in G.
  pose proof (ascending_le _ _ _ (ho_free _ _ _ H)) as Hb. unfold plus, sizeof_Header in Hlo.
  assert (i32 (brk h) = brk h) as -> by (pose proof (ho_brk _ _ _ H); unfold i32; rewrite Z.mod_small by lia; lia).
  destruct (Z.eqb_spec (brk h) (-1)); [lia|]. pose proof (sbrk_extends h fl live nu H Hnu2 G) as H1. set (h1 := set_size _ _ _) in *.
  destruct (free_ok h1 fl [] (brk h) nu live H1) as (h2 & fl2 & Hfree & H2 & Hbrk2 & Hk & Hlen & q & m & Hin & Hm).
  rewrite Hfree. cbn [mbind option_bind]. exists h2, fl2. split_and!; try done.
  - destruct (ho_freep _ _ _ H2) as [->|Hf]; [lia|]. apply list_elem_of_fmap in Hf as (x & -> & Hx).
    destruct (ascending_in _ _ _ _ (ho_free _ _ _ H2) Hx) as (? & ? & ?). lia.
  - apply (kept_free h h2 fl live H). intros a Hne. destruct (decide (a = base)) as [->|]; [left; lia|].
    destruct (decide (a = brk h)) as [->|]; [right; left; lia|]. destruct (decide (a ∈ fl.*1)) as [Hafl|Hafl].
    + right. right. apply list_elem_of_fmap in Hafl as (x & -> & Hx). exists x. split; [done|].
      destruct (ascending_in _ _ _ _ (ho_free _ _ _ H) Hx) as (? & ? & ?). unfold plus, sizeof_Header. lia.
    + exfalso. apply Hne. rewrite Hk by done. cbn. by rewrite lookup_total_insert_ne.
  - exists q, m. split; [done|lia].
Qed.

(** The search succeeds when the list has a large enough block. *)
Lemma malloc_find_big h fl live fuel q m : heap_ok h fl live -> (S (length fl) <= fuel)%nat -> (q, m) ∈ fl -> nunits <= m ->
  exists b h' fl', malloc_loop grow fuel nunits (freep h) (ptr h (freep h)) h = Some (plus b 1, h') /\
    heap_ok h' fl' ((b, nunits) :: live) /\ kept live h h'.
Proof using Hbase Hlo Hn.
  intros H Hf Hin Hm. destruct (malloc_find h fl live fuel H Hn Hf) as [?|[HF _]]; [done|]. rewrite Forall_forall in HF.
  specialize (HF _ Hin). cbn in HF. lia.
Qed.

Lemma kept_trans live h1 h2 h3 : kept live h1 h2 -> kept live h2 h3 -> kept live h1 h3.
Proof using Type. intros H1 H2 x k Hx Hk. by rewrite H2, H1. Qed.
Lemma kept_refl live h : kept live h h.
Proof using Type. done. Qed.

Lemma malloc_loop_ok h fl live : heap_ok h fl live ->
  exists r h' fl', malloc_loop grow (3 * fuel_of h) nunits (freep h) (ptr h (freep h)) h = Some (r, h') /\ kept live h h' /\
    ((r = 0 /\ heap_ok h' fl' live) \/ exists b, r = plus b 1 /\ heap_ok h' fl' ((b, nunits) :: live)).
Proof using Hbase Hlo Hgrow Hn Hmax.
  intros H. pose proof (ascending_length _ _ _ (ho_free _ _ _ H)) as Hlen. unfold plus, sizeof_Header in Hlo.
  destruct (malloc_find h fl live (3 * fuel_of h) H Hn) as [(b & h' & fl' & -> & Hok & Hk)|[_ Hr]]; [unfold fuel_of; lia|eauto 10|].
  rewrite Hr. unfold more. destruct (morecore_ok h fl live H) as [->|(h1 & fl1 & -> & H1 & Hz & Hk1 & Hlen1 & q & m & Hin & Hm)].
  - cbn [mbind option_bind]. rewrite Z.eqb_refl. exists 0, h, fl. auto using kept_refl.
  - cbn [mbind option_bind]. apply Z.eqb_neq in Hz. rewrite Hz.
    destruct (malloc_find_big h1 fl1 live (3 * fuel_of h - S (length fl)) q m H1) as (b & h2 & fl2 & -> & H2 & Hk2); try done.
    + unfold fuel_of. lia.
    + exists (plus b 1), h2, fl2. split; [done|]. split; [by eapply kept_trans|]. eauto.
Qed.
End Scan.

(** ** Any program *)

Section Program.
Context (grow : Z -> Z -> bool) (Hgrow : forall b n, grow b n = true -> b + n < 2 ^ 31).

(** Before the first call [freep] is null. *)
Definition heap_inv (h : heap) (live : list (Z * Z)) : Prop :=
  (freep h = 0 /\ live = [] /\ lo <= brk h < 2 ^ 31) \/ exists fl, heap_ok h fl live.

(** The requests for which the argument of [sbrk] fits into an [int]. *)
Definition reasonable (nbytes : Z) : Prop := 0 <= nbytes <= 2 ^ 31 - 32.

Lemma units_bounds nbytes : reasonable nbytes ->
  1 <= units nbytes /\ units nbytes * 16 < 2 ^ 31 /\ nbytes <= 16 * (units nbytes - 1).
Proof using Type.
  unfold reasonable, units, sizeof_Header. intros H. pose proof (Z.div_mod (nbytes + 16 - 1) 16 ltac:(lia)).
  pose proof (Z.mod_pos_bound (nbytes + 16 - 1) 16 ltac:(lia)). rewrite u32_small by lia. lia.
Qed.

Lemma malloc_inv h live nbytes : heap_inv h live -> reasonable nbytes ->
  exists r h', malloc base grow nbytes h = Some (r, h') /\ kept live h h' /\
    ((r = 0 /\ heap_inv h' live) \/ exists b, r = plus b 1 /\ b <> - sizeof_Header /\ heap_inv h' ((b, units nbytes) :: live)).
Proof using Hbase Hlo Hgrow.
  intros Hinv Hreq. destruct (units_bounds nbytes Hreq) as (Hu1 & Hu2 & _). unfold malloc. unfold plus, sizeof_Header in Hlo.
  set (h0 := if freep h =? 0 then _ else h). assert (exists fl, heap_ok h0 fl live /\ kept live h h0) as (fl & H0 & Hk0).
  { unfold h0. destruct Hinv as [(Hz & -> & Hb)|[fl H]].
    - exists []. rewrite Hz, Z.eqb_refl. split; [|by intros x k ?%not_elem_of_nil].
      split; cbn [freep brk set_size set_freep set_ptr]; [| |by left|cbn; lia|constructor|constructor|done|lia].
      + cbn [linked]. rewrite ptr_set_size. change (ptr (set_ptr base base h) base = base). by rewrite ptr_set_ptr, decide_True.
      + by rewrite size_set_size, decide_True.
    - exists fl. assert (freep h <> 0) as Hz; [|apply Z.eqb_neq in Hz; by rewrite Hz].
      destruct (ho_freep _ _ _ H) as [->|Hf]; [lia|]. apply list_elem_of_fmap in Hf as (x & -> & Hx).
      destruct (ascending_in _ _ _ _ (ho_free _ _ _ H) Hx) as (? & _). lia. }
  destruct (malloc_loop_ok grow (units nbytes) Hgrow Hu1 Hu2 h0 fl live H0) as (r & h' & fl' & -> & Hk & Hc).
  exists r, h'. split; [done|]. split; [by eapply kept_trans|]. destruct Hc as [[-> H']|(b & -> & H')]; [left; split; [done|right; eauto]|].
  right. exists b. split; [done|]. split; [|right; eauto]. pose proof (ho_live _ _ _ H') as HL. inversion_clear HL as [|?? HL1 _].
  cbn in HL1. unfold sizeof_Header. lia.
Qed.

Lemma free_inv h v1 b n v2 : heap_inv h (v1 ++ (b, n) :: v2) ->
  exists h', free (plus b 1) h = Some h' /\ heap_inv h' (v1 ++ v2) /\ kept (v1 ++ v2) h h'.
Proof using All.
  intros [(_ & E & _)|[fl H]]; [by destruct v1|].
  destruct (free_ok h fl v1 b n v2 H) as (h' & fl' & Hf & H' & Hb & Hk & _). exists h'. split; [done|]. split; [right; eauto|].
  pose proof (ho_live _ _ _ H) as HL. pose proof (ho_live_apart _ _ _ H) as HA. apply all_apart_middle in HA as [HA _].
  rewrite Forall_app, Forall_cons in HL. destruct HL as (HL1 & HLb & HL2). cbn in HLb. unfold plus, sizeof_Header in Hlo.
  apply (kept_apart h h' (brk h)).
  - rewrite Forall_app. split; [eapply Forall_impl; [exact HL1|]|eapply Forall_impl; [exact HL2|]]; cbn; tauto.
  - intros a Hne. destruct (decide (a = base)) as [->|]; [left; lia|]. right. right. destruct (decide (a = b)) as [->|].
    + exists (b, n). split; [done|]. cbn. unfold plus, sizeof_Header. lia.
    + destruct (decide (a ∈ fl.*1)) as [Hin|]; [|exfalso; by apply Hne, Hk].
      apply list_elem_of_fmap in Hin as (y & -> & Hy). exists y. destruct (ascending_in _ _ _ _ (ho_free _ _ _ H) Hy) as (_ & ? & _).
      split; [|unfold plus, sizeof_Header; lia]. destruct (live_apart_sub h fl _ [] y H Hy) as [Hap _]; [set_solver|].
      rewrite Forall_app, Forall_cons in Hap. rewrite Forall_app. tauto.
Qed.

(** A program that uses the allocator as it is meant to be used: it frees only what it has, once,
    and writes only into the blocks it has.  [live] are its blocks. *)
Inductive reachable : heap -> list (Z * Z) -> Prop :=
| reach_start m : reachable (Heap m 0 lo) []
| reach_malloc h live nbytes r h' : reachable h live -> reasonable nbytes -> malloc base grow nbytes h = Some (r, h') ->
    reachable h' (if r =? 0 then live else (r - sizeof_Header, units nbytes) :: live)
| reach_free h v1 b n v2 h' : reachable h (v1 ++ (b, n) :: v2) -> free (plus b 1) h = Some h' -> reachable h' (v1 ++ v2)
| reach_write h live x k c : reachable h live -> x ∈ live -> 1 <= k < x.2 ->
    reachable (Heap (<[plus x.1 k := c]> (cells h)) (freep h) (brk h)) live.

Lemma write_inv h live x k c : heap_inv h live -> x ∈ live -> 1 <= k < x.2 ->
  heap_inv (Heap (<[plus x.1 k := c]> (cells h)) (freep h) (brk h)) live.
Proof using All.
  intros [(_ & -> & _)|[fl H]] Hx Hk; [by apply not_elem_of_nil in Hx|]. right. exists fl. set (h' := Heap _ _ _).
  pose proof (ho_live _ _ _ H) as HL. pose proof (ho_apart _ _ _ H) as HA. pose proof (ho_live_apart _ _ _ H) as HP.
  rewrite Forall_forall in HL, HA. destruct (HL _ Hx) as (X1 & X2 & X3 & _). unfold plus, sizeof_Header in Hlo.
  assert (forall a, a <> plus x.1 k -> cells h' !!! a = cells h !!! a) as Hch by (intros a Ha; apply lookup_total_insert_ne; done).
  assert (cells h' !!! base = cells h !!! base) as Hb by (apply Hch; unfold plus, sizeof_Header; lia).
  assert (forall y, y ∈ fl -> cells h' !!! y.1 = cells h !!! y.1) as Hfl.
  { intros y Hy. apply Hch. specialize (HA _ Hx). rewrite Forall_forall in HA. specialize (HA _ Hy).
    destruct (ascending_in _ _ _ _ (ho_free _ _ _ H) Hy) as (_ & ? & _). unfold apart, plus, sizeof_Header in *. lia. }
  assert (forall y, y ∈ live -> cells h' !!! y.1 = cells h !!! y.1) as Hlv.
  { intros y Hy. apply Hch. destruct (HL _ Hy) as (Y1 & Y2 & _). apply list_elem_of_split in Hx as (v1 & v2 & ->).
    apply all_apart_middle in HP as [HP _]. rewrite Forall_forall in HP.
    assert (y = x \/ y ∈ v1 ++ v2) as [->|Hy'] by set_solver; [unfold plus, sizeof_Header; lia|].
    specialize (HP _ Hy'). unfold apart, plus, sizeof_Header in *. lia. }
  split; try apply H.
  - apply (linked_frame h _ base); [apply H|unfold ptr; by rewrite Hb|]. intros y Hy. unfold ptr, size. by rewrite Hfl.
  - unfold size. rewrite Hb. apply H.
  - apply Forall_forall. intros y Hy. unfold size. rewrite Hlv by done. by apply HL.
Qed.

Lemma heap_reachable_inv h live : lo < 2 ^ 31 -> reachable h live -> heap_inv h live.
Proof using Hbase Hlo Hgrow.
  intros Hl. induction 1 as [m|h live nbytes r h' _ IH Hreq Hm|h v1 b n v2 h' _ IH Hf|h live x k c _ IH Hx Hk].
  - left. cbn. split_and!; done || lia.
  - destruct (malloc_inv h live nbytes IH Hreq) as (r1 & h1 & Hm1 & _ & Hc). rewrite Hm in Hm1. injection Hm1 as <- <-.
    destruct Hc as [[-> ?]|(b & -> & Hb & ?)]; [done|]. unfold plus. rewrite Z.mul_1_r.
    destruct (Z.eqb_spec (b + sizeof_Header) 0); [lia|]. by replace (b + sizeof_Header - sizeof_Header) with b by lia.
  - destruct (free_inv h v1 b n v2 IH) as (h1 & Hf1 & ? & _). congruence.
  - by apply write_inv.
Qed.

(** C13: The allocator is safe and it terminates.  In every state a program can bring it to,
    through [malloc] of at most 2^31 - 32 bytes, [free] and writes to its blocks, while the
    kernel keeps the break below 2^31: the blocks it has lie in its heap and do not overlap; a
    further [malloc] of at most 2^31 - 32 bytes returns, either a null pointer or a block of at
    least the size asked for, in the heap and apart from all the others; [free] of any of its
    blocks returns; and neither changes the content of a block in use. *)
Theorem malloc_safe h live : lo < 2 ^ 31 -> reachable h live ->
  (all_apart live /\ Forall (fun x => lo <= x.1 /\ plus x.1 x.2 <= brk h) live) /\
  (forall nbytes, reasonable nbytes -> exists r h', malloc base grow nbytes h = Some (r, h') /\ kept live h h' /\
     (r = 0 \/ exists b n, r = plus b 1 /\ nbytes <= 16 * (n - 1) /\ lo <= b /\ plus b n <= brk h' /\ Forall (apart (b, n)) live)) /\
  (forall v1 b n v2, live = v1 ++ (b, n) :: v2 -> exists h', free (plus b 1) h = Some h' /\ kept (v1 ++ v2) h h').
Proof using All.
  intros Hl Hr. apply heap_reachable_inv in Hr as Hinv; [|done]. split_and!.
  - destruct Hinv as [(_ & -> & _)|[fl H]]; [done|apply H].
  - destruct Hinv as [(_ & -> & _)|[fl H]]; [done|]. eapply Forall_impl; [apply H|]. cbn. tauto.
  - intros nbytes Hreq. destruct (malloc_inv h live nbytes Hinv Hreq) as (r & h' & Hm & Hk & Hc). exists r, h'. split_and!; [done..|].
    destruct Hc as [[-> _]|(b & -> & _ & Hinv')]; [by left|right]. exists b, (units nbytes). split; [done|].
    split; [by apply units_bounds|]. destruct Hinv' as [(_ & ? & _)|[fl' H']]; [done|].
    pose proof (ho_live _ _ _ H') as HL. inversion_clear HL as [|?? HL1 _]. cbn in HL1. destruct (ho_live_apart _ _ _ H'). tauto.
  - intros v1 b n v2 ->. destruct (free_inv h v1 b n v2 Hinv) as (h' & ? & _ & ?). eauto.
Qed.
End Program.
End Safety.

(** A machine that gives a process at most 128 MB. *)
Definition demo_grow (b n : Z) : bool := (0 <=? n) && (b + n <=? 2 ^ 27).
Definition demo_heap : heap := Heap ∅ 0 8192.

(** Three blocks, the second of which is freed again. *)
Definition heap_after (r : option (Z * heap)) : heap := match r with Some (_, h) => h | None => demo_heap end.
Definition demo_heap1 : heap := heap_after (malloc 4096 demo_grow 100 demo_heap).
Definition demo_heap2 : heap := heap_after (malloc 4096 demo_grow 70000 demo_heap1).
Definition demo_heap3 : heap := heap_after (malloc 4096 demo_grow 1 demo_heap2).
Definition demo_heap4 : heap := default demo_heap (free 73744 demo_heap3).

Lemma demo_reachable : reachable 4096 8192 demo_grow demo_heap4 [(73568, 2); (73600, 8)].
Proof.
  apply (reach_free 4096 8192 demo_grow demo_heap3 [(73568, 2)] 73728 4376 [(73600, 8)]); [|by vm_compute].
  apply (reach_malloc 4096 8192 demo_grow demo_heap2 [(73728, 4376); (73600, 8)] 1 73584); [|by vm_compute|by vm_compute].
  apply (reach_malloc 4096 8192 demo_grow demo_heap1 [(73600, 8)] 70000 73744); [|by vm_compute|by vm_compute].
  apply (reach_malloc 4096 8192 demo_grow demo_heap [] 100 73616); [|by vm_compute|by vm_compute].
  apply reach_start.
Qed.

Lemma malloc_safe_witness : exists r h', malloc 4096 demo_grow 500 demo_heap4 = Some (r, h') /\
  kept [(73568, 2); (73600, 8)] demo_heap4 h'.
Proof.
  assert (forall b n, demo_grow b n = true -> b + n < 2 ^ 31) as Hg by (unfold demo_grow; intros b n H; lia).
  destruct (malloc_safe 4096 8192 ltac:(lia) ltac:(vm_compute; discriminate) demo_grow Hg demo_heap4 [(73568, 2); (73600, 8)]
    ltac:(lia) demo_reachable) as (_ & Hm & _).
  destruct (Hm 500 ltac:(unfold reasonable; lia)) as (r & h' & H1 & H2 & _). exists r, h'. split; [exact H1|exact H2].
Defined.

(** A request just above the bound makes [morecore] shrink the process instead. *)
Lemma malloc_huge_shrinks : i32 (units (2 ^ 31 - 31) * sizeof_Header) = - 2 ^ 31.
Proof. reflexivity. Qed.
