(* ===== verification/Mkfs.v ===== *)
(** * The program that makes the first disk image: mkfs/mkfs.c

    The image file is the list of its sectors.  What the host provides is an argument: whether
    the image can be created, and for a file name the results of the successive calls of [read]
    until one is not positive.  Seeks and writes of the image succeed; a read past its end is
    short.  A run ends with the image or with the way the program stopped.  The host is little
    endian, and what the program prints is left out. *)

From stdpp Require Import base numbers list strings.
From S2P Require Import Prelude Mem Types Fs.

Inductive failure := Exit1 | Abort.

Record host := Host {
  h_creat : list Z -> bool;
  h_open : list Z -> option (list (list Z)) }.

Record mkfs := MkMkfs {
  fsfd : list (list Z);
  freeinode : Z;
  freeblock : Z }.

Definition M (A : Type) : Type := mkfs -> failure + A * mkfs.
Definition retM {A} (x : A) : M A := fun s => inr (x, s).
Definition failM {A} (f : failure) : M A := fun _ => inl f.
Definition bindM {A B} (m : M A) (k : A -> M B) : M B := fun s =>
  match m s with inl f => inl f | inr (x, s') => k x s' end.
Definition assertM (b : bool) : M unit := if b then retM tt else failM Abort.

Declare Scope mkfs_scope.
Notation "x <~ m ;; k" := (bindM m (fun x => k))
  (at level 100, m at next level, right associativity) : mkfs_scope.
Notation "m ;;~ k" := (bindM m (fun _ => k)) (at level 100, right associativity) : mkfs_scope.
Open Scope mkfs_scope.

(** ** Constants and global variables *)

Definition NINODES : Z := 200.
Definition nbitmap : Z := FSSIZE / (BSIZE * 8) + 1.
Definition ninodeblocks : Z := NINODES / IPB + 1.
Definition nlog : Z := LOGSIZE.
Definition nmeta : Z := 2 + nlog + ninodeblocks + nbitmap.
Definition nblocks : Z := FSSIZE - nmeta.

(** The bytes are stored in increasing order of address, and the host reads them back. *)
Definition xshort (x : Z) : Z := lget 2 [u8 x; u8 (Z.shiftr x 8)] 0.
Definition xint (x : Z) : Z :=
  lget 4 [u8 x; u8 (Z.shiftr x 8); u8 (Z.shiftr x 16); u8 (Z.shiftr x 24)] 0.

Definition the_sb : superblock :=
  Superblock FSMAGIC (xint FSSIZE) (xint nblocks) (xint NINODES) (xint nlog) (xint 2)
    (xint (2 + nlog)) (xint (2 + nlog + ninodeblocks)).

(** The bytes of [struct superblock]. *)
Definition sb_bytes (s : superblock) : list Z :=
  concat (map (bytes_of 4)
    [sb_magic s; sb_size s; sb_nblocks s; sb_ninodes s; sb_nlog s; sb_logstart s;
     sb_inodestart s; sb_bmapstart s]).

(** ** Sectors *)

(** The sector that [lseek(fsfd, sec * BSIZE, 0)] selects, as the product is a [uint]. *)
Definition sector (sec : Z) : nat := Z.to_nat (u32 (sec * BSIZE) / BSIZE).

Definition wsect (sec : Z) (buf : list Z) : M unit := fun s =>
  let i := sector sec in
  let d := fsfd s in
  inr (tt, MkMkfs (if (i <? length d)%nat then <[i := buf]> d
                   else d ++ replicate (i - length d) zero_block ++ [buf])
             (freeinode s) (freeblock s)).

Definition rsect (sec : Z) : M (list Z) := fun s =>
  match fsfd s !! sector sec with Some buf => inr (buf, s) | None => inl Exit1 end.

(** [freeinode++] and [freeblock++]. *)
Definition next_inode : M Z := fun s =>
  inr (freeinode s, MkMkfs (fsfd s) (u32 (freeinode s + 1)) (freeblock s)).
Definition next_block : M Z := fun s =>
  inr (freeblock s, MkMkfs (fsfd s) (freeinode s) (u32 (freeblock s + 1))).

(** ** Disk inodes, as the 64 bytes of [struct dinode] *)

Definition din_size (din : list Z) : Z := lget 4 din 8.
Definition set_din_size (v : Z) (din : list Z) : list Z := lput 4 8 v din.
Definition din_addr (din : list Z) (i : Z) : Z := lget 4 din (12 + 4 * Z.to_nat i).
Definition set_din_addr (i v : Z) (din : list Z) : list Z := lput 4 (12 + 4 * Z.to_nat i) v din.

Definition winode (inum : Z) (din : list Z) : M unit :=
  let bn := IBLOCK inum the_sb in
  buf <~ rsect bn ;;
  wsect bn (splice (dinode_off inum) din buf).

Definition rinode (inum : Z) : M (list Z) :=
  let bn := IBLOCK inum the_sb in
  buf <~ rsect bn ;;
  retM (slice (dinode_off inum) 64 buf).

Definition ialloc (type : Z) : M Z :=
  inum <~ next_inode ;;
  let din := replicate 64 0 in
  let din := lput 2 0 (xshort type) din in
  let din := lput 2 6 (xshort 1) din in
  let din := set_din_size (xint 0) din in
  winode inum din ;;~
  retM inum.

(** ** The bitmap *)

Definition balloc (used : Z) : M unit :=
  assertM (used <? BSIZE * 8) ;;~
  let buf := foldl (fun buf i => set_bit i buf) zero_block (seq 0 (Z.to_nat used)) in
  wsect (sb_bmapstart the_sb) buf.

(** ** Appending to a file *)

(** The block of file block [fbn], allocated if it is missing; [din] may change. *)
Definition iappend_block (din : list Z) (fbn : Z) : M (list Z * Z) :=
  if fbn <? NDIRECT then
    din <~ (if xint (din_addr din fbn) =? 0 then
              b <~ next_block ;; retM (set_din_addr fbn (xint b) din)
            else retM din) ;;
    retM (din, xint (din_addr din fbn))
  else
    din <~ (if xint (din_addr din NDIRECT) =? 0 then
              b <~ next_block ;; retM (set_din_addr NDIRECT (xint b) din)
            else retM din) ;;
    indirect <~ rsect (xint (din_addr din NDIRECT)) ;;
    let k := (4 * Z.to_nat (fbn - NDIRECT))%nat in
    indirect <~ (if lget 4 indirect k =? 0 then
                   b <~ next_block ;;
                   let indirect := lput 4 k (xint b) indirect in
                   wsect (xint (din_addr din NDIRECT)) indirect ;;~
                   retM indirect
                 else retM indirect) ;;
    retM (din, xint (lget 4 indirect k)).

(** The loop of [iappend], which ends with [din] and [off]; [fuel] exceeds [n]. *)
Fixpoint iappend_loop (fuel : nat) (din : list Z) (off : Z) (p : list Z) (n : Z) : M (list Z * Z) :=
  match fuel with
  | O => failM Abort
  | S fuel =>
      if negb (0 <? n) then retM (din, off) else
      let fbn := off / BSIZE in
      assertM (fbn <? MAXFILE) ;;~
      r <~ iappend_block din fbn ;;
      let '(din, x) := r in
      let n1 := Z.min n ((fbn + 1) * BSIZE - off) in
      buf <~ rsect x ;;
      wsect x (splice (Z.to_nat (off - fbn * BSIZE)) (take (Z.to_nat n1) p) buf) ;;~
      iappend_loop fuel din (u32 (off + n1)) (drop (Z.to_nat n1) p) (n - n1)
  end.

Definition iappend (inum : Z) (xp : list Z) : M unit :=
  let n := Z.of_nat (length xp) in
  din <~ rinode inum ;;
  r <~ iappend_loop (S (length xp)) din (xint (din_size din)) xp n ;;
  let '(din, off) := r in
  winode inum (set_din_size (xint off) din).

(** ** The program *)

Definition dirent (inum : Z) (name : list Z) : list Z :=
  bytes_of 2 (xshort (u16 inum)) ++ strncpy_l name DIRSIZ.

Definition user_prefix : list Z := [117; 115; 101; 114; 47].
Definition underscore : Z := 95.
Definition dot_char : Z := 46.

(** [shortname] before and after the test for a leading [_]. *)
Definition shortname (arg : list Z) : list Z :=
  if strncmp_l arg user_prefix 5 =? 0 then drop 5 arg else arg.
Definition skip_underscore (name : list Z) : list Z :=
  if at_l name 0 =? underscore then tail name else name.

(** The calls of [read] and what is done with each positive result. *)
Fixpoint copy_in (inum : Z) (reads : list (list Z)) : M unit :=
  match reads with
  | [] => retM tt
  | buf :: reads =>
      if negb (0 <? Z.of_nat (length buf)) then retM tt else
      iappend inum buf ;;~ copy_in inum reads
  end.

Definition add_file (h : host) (rootino : Z) (arg : list Z) : M unit :=
  let name := shortname arg in
  assertM (bool_decide (slash ∉ name)) ;;~
  match h_open h arg with
  | None => failM Exit1
  | Some reads =>
      let name := skip_underscore name in
      inum <~ ialloc T_FILE ;;
      iappend rootino (dirent inum name) ;;~
      copy_in inum reads
  end.

Fixpoint add_files (h : host) (rootino : Z) (args : list (list Z)) : M unit :=
  match args with
  | [] => retM tt
  | arg :: args => add_file h rootino arg ;;~ add_files h rootino args
  end.

Fixpoint zero_sectors (l : list nat) : M unit :=
  match l with [] => retM tt | i :: l => wsect (Z.of_nat i) zero_block ;;~ zero_sectors l end.

Definition fix_root (rootino : Z) : M unit :=
  din <~ rinode rootino ;;
  let off := xint (din_size din) in
  let off := u32 ((off / BSIZE + 1) * BSIZE) in
  winode rootino (set_din_size (xint off) din).

Definition format : M Z :=
  zero_sectors (seq 0 (Z.to_nat FSSIZE)) ;;~
  wsect 1 (splice 0 (sb_bytes the_sb) zero_block) ;;~
  rootino <~ ialloc T_DIR ;;
  assertM (rootino =? ROOTINO) ;;~
  iappend rootino (dirent rootino [dot_char]) ;;~
  iappend rootino (dirent rootino [dot_char; dot_char]) ;;~
  retM rootino.

Definition main_body (h : host) (args : list (list Z)) : M unit :=
  rootino <~ format ;;
  add_files h rootino args ;;~
  fix_root rootino ;;~
  (fun s => balloc (i32 (freeblock s)) s).

Definition image_of (r : failure + unit * mkfs) : failure + list (list Z) :=
  match r with inl f => inl f | inr (_, s) => inr (fsfd s) end.

Definition main (h : host) (argv : list (list Z)) : failure + list (list Z) :=
  match argv with
  | _ :: image :: args =>
      if negb (h_creat h image) then inl Exit1 else
      image_of (main_body h args (MkMkfs [] 1 nmeta))
  | _ => inl Exit1
  end.
