(* ===== verification/MkfsFacts.v ===== *)
(** * mkfs makes a file system

    The image is described by the list of its files: type, contents, blocks.  [image_ok] says
    that the inodes and the blocks of an image represent such a list and that the allocated
    blocks belong to exactly one file each; every operation of mkfs keeps it, and the image that
    results is read with the functions of the kernel. *)

From stdpp Require Import base numbers list sets strings.
From S2P Require Import Prelude Mem Types Fs FsFacts Mkfs.

#[local] Opaque lget lput Nat.mul Nat.div.

(** ** Runs that end well *)

Definition runs {A} (m : M A) (s : mkfs) (Q : A -> mkfs -> Prop) : Prop :=
  match m s with inr (x, s') => Q x s' | inl _ => False end.

Lemma runs_ret {A} (x : A) s (Q : A -> mkfs -> Prop) : Q x s -> runs (retM x) s Q.
Proof. done. Qed.

Lemma runs_bind {A B} (m : M A) (k : A -> M B) s Q :
  runs m s (fun x s' => runs (k x) s' Q) -> runs (bindM m k) s Q.
Proof. unfold runs, bindM. by destruct (m s) as [|[x s']]. Qed.

Lemma runs_mono {A} (m : M A) s (Q Q' : A -> mkfs -> Prop) :
  runs m s Q -> (forall x s', Q x s' -> Q' x s') -> runs m s Q'.
Proof. unfold runs. destruct (m s) as [|[x s']]; [done|]. auto. Qed.

Lemma runs_assert b s (Q : unit -> mkfs -> Prop) : b = true -> Q tt s -> runs (assertM b) s Q.
Proof. by intros ->. Qed.

Lemma runs_bind_mono {A B} (m : M A) (k : A -> M B) s Q Q' :
  runs m s Q -> (forall x s', Q x s' -> runs (k x) s' Q') -> runs (bindM m k) s Q'.
Proof. intros H HQ. apply runs_bind. eapply runs_mono; [exact H|]. exact HQ. Qed.

(** ** Integers and sectors *)

Lemma xint_id x : 0 <= x < 2 ^ 32 -> xint x = x.
Proof.
  intros H. unfold xint. Transparent lget. cbn [lget]. Opaque lget. cbn.
  unfold u8. rewrite !Z.shiftr_div_pow2 by lia. change (2 ^ 8) with 256.
  change (2 ^ 16) with 65536. change (2 ^ 24) with 16777216.
  Z.div_mod_to_equations. lia.
Qed.

Lemma xshort_id x : 0 <= x < 2 ^ 16 -> xshort x = x.
Proof.
  intros H. unfold xshort. Transparent lget. cbn [lget]. Opaque lget. cbn.
  unfold u8. rewrite !Z.shiftr_div_pow2 by lia. change (2 ^ 8) with 256.
  Z.div_mod_to_equations. lia.
Qed.

Lemma sector_id b : 0 <= b < FSSIZE -> sector b = Z.to_nat b.
Proof.
  intros H. unfold sector. rewrite u32_small by (unfold FSSIZE, BSIZE in *; lia).
  by rewrite Z.div_mul by (unfold BSIZE; lia).
Qed.

Definition put_block (b : Z) (buf : list Z) (s : mkfs) : mkfs :=
  MkMkfs (<[Z.to_nat b := buf]> (fsfd s)) (freeinode s) (freeblock s).
Definition blk (d : list (list Z)) (b : Z) : list Z := d !!! Z.to_nat b.

Definition sized (d : list (list Z)) : Prop :=
  length d = Z.to_nat FSSIZE /\ forall b, 0 <= b < FSSIZE -> length (blk d b) = Z.to_nat BSIZE.

Lemma blk_upd b buf s : sized (fsfd s) -> 0 <= b < FSSIZE -> blk (fsfd (put_block b buf s)) b = buf.
Proof.
  intros [Hl _] Hb. unfold blk, put_block. cbn [fsfd].
  apply list_lookup_total_insert_eq. unfold FSSIZE in *. lia.
Qed.

Lemma blk_upd_ne b b' buf s :
  0 <= b -> 0 <= b' -> b <> b' -> blk (fsfd (put_block b buf s)) b' = blk (fsfd s) b'.
Proof. intros. unfold blk, put_block. cbn [fsfd]. apply list_lookup_total_insert_ne. lia. Qed.

Lemma sized_upd b buf s :
  sized (fsfd s) -> 0 <= b < FSSIZE -> length buf = Z.to_nat BSIZE -> sized (fsfd (put_block b buf s)).
Proof.
  intros Hs Hb Hl. split; [unfold put_block; cbn [fsfd]; rewrite length_insert; apply Hs|].
  intros c Hc. destruct (decide (b = c)) as [->|Hne].
  - by rewrite blk_upd.
  - rewrite blk_upd_ne by lia. by apply Hs.
Qed.

Lemma rsect_runs b s (Q : list Z -> mkfs -> Prop) :
  sized (fsfd s) -> 0 <= b < FSSIZE -> Q (blk (fsfd s) b) s -> runs (rsect b) s Q.
Proof.
  intros [Hl _] Hb HQ. unfold runs, rsect. rewrite sector_id by done.
  rewrite (list_lookup_lookup_total_lt (fsfd s)) by lia. done.
Qed.

Lemma wsect_runs b buf s (Q : unit -> mkfs -> Prop) :
  sized (fsfd s) -> 0 <= b < FSSIZE -> Q tt (put_block b buf s) -> runs (wsect b buf) s Q.
Proof.
  intros [Hl _] Hb HQ. unfold runs, wsect. rewrite sector_id by done.
  rewrite (proj2 (Nat.ltb_lt _ _)) by lia. exact HQ.
Qed.

(** ** Files in an image *)

Ltac cst := change nmeta with 46 in *; change FSSIZE with 1000 in *; change MAXFILE with 268 in *;
  change NDIRECT with 12 in *; change BSIZE with 1024 in *.

Record frec := FRec {
  f_type : Z; f_size : Z; f_data : list Z; f_blocks : list Z; f_ind : Z }.

Definition block_at (bs : list Z) (i : nat) : Z := default 0 (bs !! i).

(** The inode [din] and the indirect block [ib] list the blocks [bs]. *)
Record maps (d : list (list Z)) (din bs : list Z) (ib : Z) : Prop := {
  mp_max : (length bs <= Z.to_nat MAXFILE)%nat;
  mp_direct : forall i, 0 <= i < NDIRECT -> din_addr din i = block_at bs (Z.to_nat i);
  mp_ind : din_addr din NDIRECT = ib;
  mp_none : ib = 0 <-> (length bs <= Z.to_nat NDIRECT)%nat;
  mp_entry : ib <> 0 -> forall j, (j < Z.to_nat NINDIRECT)%nat ->
    lget 4 (blk d ib) (4 * j) = block_at bs (Z.to_nat NDIRECT + j) }.

(** The blocks hold [data], padded with zeros. *)
Definition holds (d : list (list Z)) (bs data : list Z) : Prop :=
  (length data <= Z.to_nat BSIZE * length bs)%nat /\
  concat (blk d <$> bs) = data ++ replicate (Z.to_nat BSIZE * length bs - length data) 0.

Definition owned (f : frec) : list Z := f_blocks f ++ (if f_ind f =? 0 then [] else [f_ind f]).

Record frep (d : list (list Z)) (din : list Z) (f : frec) : Prop := {
  fr_length : length din = 64%nat;
  fr_type : lget 2 din 0 = f_type f;
  fr_major : lget 2 din 2 = 0;
  fr_minor : lget 2 din 4 = 0;
  fr_nlink : lget 2 din 6 = 1;
  fr_size : din_size din = f_size f;
  fr_maps : maps d din (f_blocks f) (f_ind f);
  fr_holds : holds d (f_blocks f) (f_data f) }.

Lemma maps_frame d d' din bs ib :
  (ib <> 0 -> blk d' ib = blk d ib) -> maps d din bs ib -> maps d' din bs ib.
Proof.
  intros Hb [H1 H2 H3 H4 H5]. split; try done.
  intros Hib j Hj. rewrite Hb by done. by apply H5.
Qed.

Lemma holds_frame d d' bs data :
  (forall b, b ∈ bs -> blk d' b = blk d b) -> holds d bs data -> holds d' bs data.
Proof.
  intros Hb [Hl Hc]. split; [done|]. rewrite <- Hc. f_equal.
  apply list_fmap_ext. intros i b Hi. apply Hb. by eapply list_elem_of_lookup_2.
Qed.

Lemma owned_block f b : b ∈ f_blocks f -> b ∈ owned f.
Proof. intros. unfold owned. apply elem_of_app. auto. Qed.

Lemma owned_ind f : f_ind f <> 0 -> f_ind f ∈ owned f.
Proof.
  intros. unfold owned. rewrite (proj2 (Z.eqb_neq _ _)) by done.
  apply elem_of_app. right. by apply list_elem_of_singleton.
Qed.

Lemma frep_frame d d' din f :
  (forall b, b ∈ owned f -> blk d' b = blk d b) -> frep d din f -> frep d' din f.
Proof.
  intros Hb []. split; try done.
  - eapply maps_frame; [|done]. intros. by apply Hb, owned_ind.
  - eapply holds_frame; [|done]. intros. by apply Hb, owned_block.
Qed.

(** The disk inode of [inum], and the table of inodes while mkfs works on a copy of one. *)
Definition slot (d : list (list Z)) (inum : Z) : list Z :=
  slice (dinode_off inum) 64 (blk d (IBLOCK inum the_sb)).
Definition tab (o : option (nat * list Z)) (d : list (list Z)) (inum : Z) : list Z :=
  match o with
  | Some (k, din) => if inum =? Z.of_nat k + 1 then din else slot d inum
  | None => slot d inum
  end.

Definition sb_block : list Z := splice 0 (sb_bytes the_sb) zero_block.

Record image_ok (o : option (nat * list Z)) (s : mkfs) (fs : list frec) : Prop := {
  io_sized : sized (fsfd s);
  io_inodes : freeinode s = Z.of_nat (length fs) + 1;
  io_few : Z.of_nat (length fs) < NINODES;
  io_rep : forall k f, fs !! k = Some f -> frep (fsfd s) (tab o (fsfd s) (Z.of_nat k + 1)) f;
  io_unused : forall inum, freeinode s <= inum < NINODES -> tab o (fsfd s) inum = replicate 64 0;
  io_range : nmeta <= freeblock s <= FSSIZE;
  io_owned : concat (owned <$> fs) ≡ₚ seqZ nmeta (freeblock s - nmeta);
  io_free : forall b, freeblock s <= b < FSSIZE -> blk (fsfd s) b = zero_block;
  io_meta : forall b, 0 <= b < sb_inodestart the_sb ->
    blk (fsfd s) b = if b =? 1 then sb_block else zero_block }.

Lemma iblock_range inum : 0 <= inum < NINODES ->
  IBLOCK inum the_sb = inum / 16 + 32 /\ 32 <= IBLOCK inum the_sb < 45.
Proof.
  intros H. unfold IBLOCK. change (sb_inodestart the_sb) with 32. change IPB with 16.
  change NINODES with 200 in H. rewrite u32_small; Z.div_mod_to_equations; lia.
Qed.

(** A change of blocks that hold no inode keeps the table. *)
Lemma tab_frame o d d' inum :
  (forall b, 32 <= b < 45 -> blk d' b = blk d b) -> 0 <= inum < NINODES ->
  tab o d' inum = tab o d inum.
Proof.
  intros Hb Hi. destruct (iblock_range inum Hi) as [_ Hr].
  unfold tab, slot. destruct o as [[k din]|]; [case_match; [done|]|]; by rewrite Hb.
Qed.

(** ** Who owns a block *)

Lemma owned_in fs k f b : fs !! k = Some f -> b ∈ owned f -> b ∈ concat (owned <$> fs).
Proof.
  intros Hk Hb. apply list_elem_of_In, in_concat. exists (owned f).
  split; apply list_elem_of_In; [|done]. apply list_elem_of_fmap. exists f.
  split; [done|]. by eapply list_elem_of_lookup_2.
Qed.

Lemma owned_range o s fs k f b :
  image_ok o s fs -> fs !! k = Some f -> b ∈ owned f -> nmeta <= b < freeblock s.
Proof.
  intros Hok Hk Hb. pose proof (owned_in _ _ _ _ Hk Hb) as Hc.
  rewrite (io_owned _ _ _ Hok) in Hc. apply elem_of_seqZ in Hc. lia.
Qed.

Lemma concat_insert_perm (l : list (list Z)) k x y z :
  l !! k = Some x -> y ≡ₚ x ++ z -> concat (<[k := y]> l) ≡ₚ concat l ++ z.
Proof.
  intros Hk Hy. rewrite <- (take_drop_middle l k x Hk) at 2.
  rewrite (insert_take_drop l k y) by (by eapply lookup_lt_Some).
  rewrite !concat_app. cbn [concat]. rewrite Hy. solve_Permutation.
Qed.

Lemma owned_disjoint fs j k f g b :
  NoDup (concat (owned <$> fs)) -> fs !! k = Some f -> fs !! j = Some g -> j <> k ->
  b ∈ owned f -> b ∈ owned g -> False.
Proof.
  intros Hnd Hk Hj Hne Hf Hg.
  assert ((owned <$> fs) !! k = Some (owned f)) as Hk' by by rewrite list_lookup_fmap, Hk.
  assert (concat (owned <$> fs) ≡ₚ concat (<[k := []]> (owned <$> fs)) ++ owned f) as Hp.
  { rewrite <- (list_insert_id (owned <$> fs) k (owned f)) at 1 by done.
    rewrite <- (list_insert_insert_eq (owned <$> fs) k (owned f) []).
    apply (concat_insert_perm _ _ []); [|done].
    apply list_lookup_insert_eq. by eapply lookup_lt_Some. }
  rewrite Hp in Hnd. apply NoDup_app in Hnd as (_ & Hd & _).
  apply (Hd b); [|done]. apply list_elem_of_In, in_concat. exists (owned g).
  split; apply list_elem_of_In; [|done]. eapply (list_elem_of_lookup_2 _ j).
  rewrite list_lookup_insert_ne by done. by rewrite list_lookup_fmap, Hj.
Qed.

(** File [k] becomes [f'], which owns the blocks of [f] and the next free ones up to [fb']. *)
Section update.
Context (o : option (nat * list Z)) (din : list Z) (s : mkfs) (fs : list frec) (k : nat) (f : frec).
Context (din' : list Z) (f' : frec) (d' : list (list Z)) (fb' : Z).
Hypothesis Hok : image_ok o s fs.
Hypothesis Ho : o = Some (k, din) \/ o = None.
Hypothesis Hk : fs !! k = Some f.
Hypothesis Hown : owned f' ≡ₚ owned f ++ seqZ (freeblock s) (fb' - freeblock s).
Hypothesis Hfb : freeblock s <= fb' <= FSSIZE.
Hypothesis Hframe : forall b, 0 <= b -> b ∉ owned f' -> blk d' b = blk (fsfd s) b.

Lemma update_range b : b ∈ owned f' -> nmeta <= b < fb'.
Proof using Hok Hk Hown Hfb.
  intros Hb. rewrite Hown, elem_of_app, elem_of_seqZ in Hb. pose proof (io_range _ _ _ Hok).
  destruct Hb as [Hb|Hb]; [|lia]. pose proof (owned_range _ _ _ _ _ _ Hok Hk Hb). lia.
Qed.

Lemma update_owned : concat (owned <$> <[k := f']> fs) ≡ₚ seqZ nmeta (fb' - nmeta).
Proof using Hok Hk Hown Hfb.
  pose proof (io_range _ _ _ Hok).
  assert ((owned <$> fs) !! k = Some (owned f)) as Hk' by by rewrite list_lookup_fmap, Hk.
  rewrite list_fmap_insert, (concat_insert_perm _ _ _ _ _ Hk' Hown), (io_owned _ _ _ Hok).
  replace (fb' - nmeta) with ((freeblock s - nmeta) + (fb' - freeblock s)) by lia.
  rewrite seqZ_app by lia. by replace (nmeta + (freeblock s - nmeta)) with (freeblock s) by lia.
Qed.

Lemma update_tab i :
  0 <= i < NINODES -> i <> Z.of_nat k + 1 -> tab (Some (k, din')) d' i = tab o (fsfd s) i.
Proof using Hok Hk Hown Hfb Hframe Ho.
  intros Hi Hne. rewrite (tab_frame _ (fsfd s) d'); [|intros b Hb|done].
  - unfold tab. rewrite (proj2 (Z.eqb_neq _ _)) by done.
    destruct Ho as [-> | ->]; [by rewrite (proj2 (Z.eqb_neq _ _)) by done|done].
  - apply Hframe; [lia|]. intros Hb'. apply update_range in Hb'. cst. lia.
Qed.

Lemma update_rep j g : fs !! j = Some g -> j <> k -> frep d' (tab o (fsfd s) (Z.of_nat j + 1)) g.
Proof using Hok Hk Hown Hfb Hframe.
  intros Hj Hne. eapply frep_frame; [|by apply (io_rep _ _ _ Hok)].
  intros b Hb. pose proof (owned_range _ _ _ _ _ _ Hok Hj Hb).
  apply Hframe; [cst; lia|]. rewrite Hown, elem_of_app, elem_of_seqZ. intros [Hb'|]; [|lia].
  eapply (owned_disjoint fs j k); try done. rewrite (io_owned _ _ _ Hok). apply NoDup_seqZ.
Qed.

Lemma image_ok_update :
  sized d' -> frep d' din' f' ->
  image_ok (Some (k, din')) (MkMkfs d' (freeinode s) fb') (<[k := f']> fs).
Proof using All.
  intros Hsz Hrep. pose proof (lookup_lt_Some _ _ _ Hk) as Hlt. pose proof (io_range _ _ _ Hok).
  pose proof (io_few _ _ _ Hok) as Hfew. pose proof (io_inodes _ _ _ Hok) as Hino.
  split; cbn [fsfd freeinode freeblock]; rewrite ?length_insert; try done.
  - intros j g Hj. destruct (decide (j = k)) as [->|Hne].
    + rewrite list_lookup_insert_eq in Hj by done. injection Hj as <-.
      unfold tab. by rewrite Z.eqb_refl.
    + rewrite list_lookup_insert_ne in Hj by done. pose proof (lookup_lt_Some _ _ _ Hj).
      rewrite update_tab by lia. by apply update_rep.
  - intros i Hi. rewrite update_tab by lia. by apply (io_unused _ _ _ Hok).
  - lia.
  - apply update_owned.
  - intros b Hb. rewrite Hframe; [apply (io_free _ _ _ Hok); lia|cst; lia|].
    intros Hb'. apply update_range in Hb'. lia.
  - intros b Hb. rewrite Hframe; [by apply (io_meta _ _ _ Hok)|lia|].
    intros Hb'. apply update_range in Hb'. change (sb_inodestart the_sb) with 32 in Hb. cst. lia.
Qed.
End update.

(** A change of inode or bitmap blocks that agrees with the copy in hand. *)
Lemma image_ok_meta o o' s fs d' :
  image_ok o s fs -> sized d' ->
  (forall b, 0 <= b -> ~ 32 <= b < nmeta -> blk d' b = blk (fsfd s) b) ->
  (forall i, 1 <= i < NINODES -> tab o' d' i = tab o (fsfd s) i) ->
  image_ok o' (MkMkfs d' (freeinode s) (freeblock s)) fs.
Proof.
  intros Hok Hsz Hframe Htab. pose proof (io_few _ _ _ Hok). pose proof (io_inodes _ _ _ Hok).
  pose proof (io_range _ _ _ Hok).
  split; cbn [fsfd freeinode freeblock]; try (by apply Hok); try done.
  - intros k f Hk. pose proof (lookup_lt_Some _ _ _ Hk). rewrite Htab by lia.
    eapply frep_frame; [|by apply (io_rep _ _ _ Hok)].
    intros b Hb. pose proof (owned_range _ _ _ _ _ _ Hok Hk Hb). apply Hframe; cst; lia.
  - intros i Hi. rewrite Htab by lia. by apply (io_unused _ _ _ Hok).
  - intros b Hb. rewrite Hframe by (cst; lia). by apply (io_free _ _ _ Hok).
  - intros b Hb. rewrite Hframe; [by apply (io_meta _ _ _ Hok)|lia|].
    change (sb_inodestart the_sb) with 32 in Hb. lia.
Qed.

(** ** Reading and writing inodes *)

Definition put_inode (inum : Z) (din : list Z) (s : mkfs) : mkfs :=
  put_block (IBLOCK inum the_sb)
    (splice (dinode_off inum) din (blk (fsfd s) (IBLOCK inum the_sb))) s.

Lemma inode_place i j : 0 <= i < NINODES -> 0 <= j < NINODES -> i <> j ->
  IBLOCK i the_sb = IBLOCK j the_sb ->
  (dinode_off i + 64 <= dinode_off j \/ dinode_off j + 64 <= dinode_off i)%nat.
Proof.
  intros Hi Hj Hne Hb. destruct (iblock_range i Hi) as [Ei _], (iblock_range j Hj) as [Ej _].
  unfold dinode_off. change IPB with 16. Z.div_mod_to_equations. lia.
Qed.

Section put.
Context (s : mkfs) (inum : Z) (din : list Z).
Hypothesis Hsz : sized (fsfd s).
Hypothesis Hi : 0 <= inum < NINODES.
Hypothesis Hlen : length din = 64%nat.

Lemma put_fits : (dinode_off inum + length din <= length (blk (fsfd s) (IBLOCK inum the_sb)))%nat.
Proof using All.
  destruct (iblock_range inum Hi) as [_ Hr]. rewrite (proj2 Hsz), Hlen by (cst; lia).
  apply dinode_off_range.
Qed.

Lemma put_sized : sized (fsfd (put_inode inum din s)).
Proof using All.
  destruct (iblock_range inum Hi) as [_ Hr]. apply sized_upd; [done|cst; lia|].
  rewrite length_splice by apply put_fits. apply Hsz. cst. lia.
Qed.

Lemma put_slot : slot (fsfd (put_inode inum din s)) inum = din.
Proof using All.
  destruct (iblock_range inum Hi) as [_ Hr]. unfold slot, put_inode.
  rewrite blk_upd by (done || (cst; lia)). rewrite <- Hlen at 1. apply slice_splice. pose proof put_fits. lia.
Qed.

Lemma put_slot_ne i : 0 <= i < NINODES -> i <> inum ->
  slot (fsfd (put_inode inum din s)) i = slot (fsfd s) i.
Proof using All.
  intros Hj Hne. destruct (iblock_range inum Hi) as [_ Hr], (iblock_range i Hj) as [_ Hr'].
  unfold slot, put_inode. destruct (decide (IBLOCK inum the_sb = IBLOCK i the_sb)) as [He|He].
  - rewrite <- He, blk_upd by (done || (cst; lia)). apply slice_splice_ne; [apply put_fits|].
    rewrite Hlen. pose proof (inode_place i inum Hj Hi Hne). lia.
  - by rewrite blk_upd_ne by lia.
Qed.
End put.

Lemma winode_run inum din s (Q : unit -> mkfs -> Prop) :
  sized (fsfd s) -> 0 <= inum < NINODES -> Q tt (put_inode inum din s) ->
  runs (winode inum din) s Q.
Proof.
  intros Hsz Hi HQ. destruct (iblock_range inum Hi) as [_ Hr]. unfold winode.
  apply runs_bind, rsect_runs; [done|cst; lia|]. apply wsect_runs; [done|cst; lia|done].
Qed.

Lemma rinode_run inum s (Q : list Z -> mkfs -> Prop) :
  sized (fsfd s) -> 0 <= inum < NINODES -> Q (slot (fsfd s) inum) s -> runs (rinode inum) s Q.
Proof.
  intros Hsz Hi HQ. destruct (iblock_range inum Hi) as [_ Hr]. unfold rinode.
  apply runs_bind, rsect_runs; [done|cst; lia|]. done.
Qed.

Lemma winode_ok k din s fs :
  image_ok (Some (k, din)) s fs -> length din = 64%nat -> Z.of_nat k + 1 < NINODES ->
  runs (winode (Z.of_nat k + 1) din) s (fun _ s' => image_ok None s' fs /\ freeblock s' = freeblock s).
Proof.
  intros Hok Hl Hk. pose proof (io_sized _ _ _ Hok) as Hsz.
  assert (0 <= Z.of_nat k + 1 < NINODES) as Hi by lia.
  destruct (iblock_range _ Hi) as [_ Hr]. apply winode_run; [done|done|]. split; [|done].
  eapply (image_ok_meta _ _ _ _ _ Hok); [by apply put_sized| |].
  - intros b Hb Hne. apply blk_upd_ne; cst; lia.
  - intros i Hi'. unfold tab. destruct (Z.eqb_spec i (Z.of_nat k + 1)) as [->|Hne].
    + by apply put_slot.
    + apply put_slot_ne; (done || lia).
Qed.

Lemma image_ok_open s fs k :
  image_ok None s fs -> image_ok (Some (k, slot (fsfd s) (Z.of_nat k + 1))) s fs.
Proof.
  intros Hok. destruct s as [d fi fb].
  apply (image_ok_meta _ _ _ _ _ Hok); [apply Hok|done|].
  intros i _. unfold tab. destruct (Z.eqb_spec i (Z.of_nat k + 1)) as [->|]; done.
Qed.

(** ** Allocating an inode *)

Lemma lget_zeros n m k : lget n (replicate m 0) k = 0.
Proof.
  Transparent lget. revert k. induction n as [|n IH]; intros k; [done|]. cbn [lget].
  rewrite IH. destruct (decide (k < m)%nat).
  - by rewrite lookup_replicate_2.
  - rewrite (lookup_ge_None_2 (replicate m 0)); [done|]. rewrite length_replicate. lia.
Qed.
#[local] Opaque lget.

Definition fresh_din (type : Z) : list Z :=
  set_din_size (xint 0) (lput 2 6 (xshort 1) (lput 2 0 (xshort type) (replicate 64 0))).

Definition fresh_file (type : Z) : frec := FRec type 0 [] [] 0.

Lemma fresh_frep d type : type = T_DIR \/ type = T_FILE -> frep d (fresh_din type) (fresh_file type).
Proof.
  intros Ht.
  assert (forall i, 0 <= i <= NDIRECT -> din_addr (fresh_din type) i = 0) as Ha.
  { intros i Hi. unfold din_addr, fresh_din, set_din_size.
    rewrite !lget_lput_ne by lia. apply lget_zeros. }
  split; try (by destruct Ht as [-> | ->]; vm_compute).
  split; cbn [f_blocks f_ind fresh_file]; try done.
  - cbn. lia.
  - intros i Hi. rewrite Ha by lia. by destruct (Z.to_nat i).
  - split; [cbn; lia|done].
Qed.

Lemma image_ok_fresh s fs type :
  image_ok None s fs -> Z.of_nat (length fs) + 1 < NINODES -> type = T_DIR \/ type = T_FILE ->
  image_ok (Some (length fs, fresh_din type))
    (MkMkfs (fsfd s) (u32 (freeinode s + 1)) (freeblock s)) (fs ++ [fresh_file type]).
Proof.
  intros Hok Hfew Ht. pose proof (io_inodes _ _ _ Hok) as Hino. change NINODES with 200 in *.
  split; cbn [fsfd freeinode freeblock]; rewrite ?length_app; cbn [length]; try apply Hok.
  - rewrite u32_small by lia. lia.
  - change NINODES with 200. lia.
  - intros k f Hk. apply lookup_app_Some in Hk as [Hk|[Hge Hk]].
    + pose proof (lookup_lt_Some _ _ _ Hk). unfold tab.
      rewrite (proj2 (Z.eqb_neq _ _)) by lia. by apply (io_rep _ _ _ Hok).
    + apply list_lookup_singleton_Some in Hk as [Hz <-].
      replace k with (length fs) by lia. unfold tab. rewrite Z.eqb_refl. by apply fresh_frep.
  - intros i Hi. rewrite u32_small in Hi by lia. unfold tab.
    rewrite (proj2 (Z.eqb_neq _ _)) by lia. apply (io_unused _ _ _ Hok). lia.
  - rewrite fmap_app, concat_app. cbn. rewrite !app_nil_r. apply (io_owned _ _ _ Hok).
Qed.

Lemma ialloc_ok s fs type :
  image_ok None s fs -> Z.of_nat (length fs) + 1 < NINODES -> type = T_DIR \/ type = T_FILE ->
  runs (ialloc type) s (fun inum s' =>
    inum = Z.of_nat (length fs) + 1 /\ image_ok None s' (fs ++ [fresh_file type])).
Proof.
  intros Hok Hfew Ht. pose proof (io_inodes _ _ _ Hok) as Hino. unfold ialloc.
  apply runs_bind. unfold runs at 1, next_inode. cbv zeta. rewrite Hino at 1.
  eapply runs_bind_mono.
  - apply (winode_ok _ _ _ _ (image_ok_fresh s fs type Hok Hfew Ht)); [|done].
    by destruct Ht as [-> | ->].
  - intros _ s' [Hs' _]. by apply runs_ret.
Qed.

(** ** Adding a block to a file *)

Lemma entry_snoc bs x i : block_at (bs ++ [x]) i = if decide (i = length bs) then x else block_at bs i.
Proof.
  unfold block_at. case_decide as H.
  - subst i. by rewrite list_lookup_middle.
  - destruct (decide (i < length bs)%nat).
    + by rewrite lookup_app_l.
    + rewrite lookup_ge_None_2 by (rewrite length_app; cbn; lia).
      by rewrite lookup_ge_None_2 by lia.
Qed.

Lemma entry_lookup bs i : (i < length bs)%nat -> bs !! i = Some (block_at bs i).
Proof. intros H. unfold block_at. destruct (lookup_lt_is_Some_2 bs i H) as [x Hx]. by rewrite Hx. Qed.

Lemma entry_end bs i : (length bs <= i)%nat -> block_at bs i = 0.
Proof. intros H. unfold block_at. by rewrite lookup_ge_None_2. Qed.

Lemma addr_set din i v : length din = 64%nat -> 0 <= i <= NDIRECT -> 0 <= v < 2 ^ 32 ->
  din_addr (set_din_addr i v din) i = v.
Proof.
  intros Hl Hi Hv. unfold din_addr, set_din_addr. rewrite lget_lput by (cst; lia).
  apply Z.mod_small. lia.
Qed.

Lemma addr_set_ne din i j v : 0 <= i -> 0 <= j -> i <> j ->
  din_addr (set_din_addr i v din) j = din_addr din j.
Proof. intros. unfold din_addr, set_din_addr. apply lget_lput_ne. lia. Qed.

Lemma maps_direct d d' din bs ib x :
  maps d din bs ib -> length din = 64%nat -> (length bs < Z.to_nat NDIRECT)%nat -> 0 <= x < 2 ^ 32 ->
  maps d' (set_din_addr (Z.of_nat (length bs)) x din) (bs ++ [x]) ib.
Proof.
  intros [H1 H2 H3 H4 H5] Hl Hb Hx. assert (ib = 0) as Hib by (apply H4; lia).
  split; rewrite ?length_app; cbn [length]; try (cst; lia).
  - intros i Hi. rewrite entry_snoc. case_decide as Hd.
    + replace i with (Z.of_nat (length bs)) by lia. apply addr_set; [done|lia|done].
    + rewrite addr_set_ne by lia. by apply H2.
  - rewrite addr_set_ne by (cst; lia). done.
Qed.

Lemma maps_indirect d d' din bs ib x :
  maps d din bs ib -> ib <> 0 -> (length bs < Z.to_nat MAXFILE)%nat -> 0 <= x < 2 ^ 32 ->
  length (blk d ib) = Z.to_nat BSIZE ->
  blk d' ib = lput 4 (4 * (length bs - Z.to_nat NDIRECT)) x (blk d ib) ->
  maps d' din (bs ++ [x]) ib.
Proof.
  intros [H1 H2 H3 H4 H5] Hib Hb Hx Hl Hblk.
  assert (12 < length bs)%nat as Hlen.
  { destruct (decide (length bs <= Z.to_nat NDIRECT)%nat); [tauto|cst; lia]. }
  split; rewrite ?length_app; cbn [length]; try (cst; lia); try done.
  - intros i Hi. rewrite entry_snoc, decide_False by (cst; lia). by apply H2.
  - intros _ j Hj. rewrite Hblk, entry_snoc. change (Z.to_nat NINDIRECT) with 256%nat in Hj. case_decide as Hd.
    + replace (4 * j)%nat with (4 * (length bs - Z.to_nat NDIRECT))%nat by lia.
      rewrite lget_lput by (cst; lia). apply Z.mod_small. lia.
    + rewrite lget_lput_ne by (cst; lia). by apply H5.
Qed.

Lemma maps_first d d' din bs ib x :
  maps d din bs 0 -> length din = 64%nat -> length bs = Z.to_nat NDIRECT ->
  0 < ib < 2 ^ 32 -> 0 <= x < 2 ^ 32 -> blk d' ib = lput 4 0 x zero_block ->
  maps d' (set_din_addr NDIRECT ib din) (bs ++ [x]) ib.
Proof.
  intros [H1 H2 H3 H4 H5] Hl Hb Hib Hx Hblk.
  split; rewrite ?length_app; cbn [length]; try (cst; lia).
  - intros i Hi. rewrite entry_snoc, decide_False by (cst; lia).
    rewrite addr_set_ne by (cst; lia). by apply H2.
  - apply addr_set; [done|cst; lia|lia].
  - intros _ j Hj. rewrite Hblk, entry_snoc. case_decide as Hd.
    + replace j with 0%nat by lia. rewrite lget_lput by (unfold zero_block; rewrite length_replicate; cst; lia). apply Z.mod_small. lia.
    + rewrite lget_lput_ne by lia. rewrite entry_end by lia. apply lget_zeros.
Qed.

Lemma concat_blk_snoc d bs x : concat (blk d <$> bs ++ [x]) = concat (blk d <$> bs) ++ blk d x.
Proof. rewrite fmap_app, concat_app. cbn. by rewrite app_nil_r. Qed.

Lemma holds_snoc d d' bs data x :
  holds d bs data -> (forall b, b ∈ bs -> blk d' b = blk d b) -> blk d' x = zero_block ->
  holds d' (bs ++ [x]) data.
Proof.
  intros [Hl Hc] Hb Hx. split; rewrite length_app; cbn [length]; [lia|].
  rewrite concat_blk_snoc, Hx.
  rewrite (list_fmap_ext _ (blk d) bs) by (intros i b Hi; apply Hb; by eapply list_elem_of_lookup_2).
  rewrite Hc, <- app_assoc. f_equal. unfold zero_block. rewrite <- replicate_add. f_equal. lia.
Qed.

Definition with_blocks (f : frec) (bs : list Z) (ib : Z) : frec :=
  FRec (f_type f) (f_size f) (f_data f) bs ib.

Lemma frep_addr d d' din f i v bs ib :
  frep d din f -> maps d' (set_din_addr i v din) bs ib -> holds d' bs (f_data f) ->
  frep d' (set_din_addr i v din) (with_blocks f bs ib).
Proof.
  intros [] Hm Hh. unfold din_size in *.
  split; try done; unfold set_din_addr, din_size; rewrite ?lput_length, ?lget_lput_ne by lia; done.
Qed.

(** The number of blocks, the indirect one included, for [n] blocks of data. *)
Definition need (n : nat) : nat := if decide (n <= Z.to_nat NDIRECT)%nat then n else S n.

Lemma maps_need d din f : maps d din (f_blocks f) (f_ind f) -> length (owned f) = need (length (f_blocks f)).
Proof.
  intros H. pose proof (mp_none _ _ _ _ H) as Hn. unfold owned, need. rewrite length_app.
  destruct (Z.eqb_spec (f_ind f) 0); case_decide; cbn; (lia || tauto).
Qed.

Lemma with_blocks_id f : with_blocks f (f_blocks f) (f_ind f) = f.
Proof. by destruct f. Qed.

Section grow.
Context (s : mkfs) (fs : list frec) (k : nat) (f : frec) (din : list Z) (n : nat).
Hypothesis Hok : image_ok (Some (k, din)) s fs.
Hypothesis Hk : fs !! k = Some f.
Hypothesis Hmax : (n < Z.to_nat MAXFILE)%nat.
Local Abbreviation bs := (f_blocks f).

Definition grown (r : list Z * Z) (s' : mkfs) : Prop :=
  exists bs' ib', image_ok (Some (k, fst r)) s' (<[k := with_blocks f bs' ib']> fs) /\
    bs' !! n = Some (snd r) /\ length bs' = Nat.max (length bs) (S n) /\
    freeblock s' = freeblock s + Z.of_nat (need (length bs')) - Z.of_nat (need (length bs)).

Lemma grow_rep : frep (fsfd s) din f.
Proof using Hok Hk.
  pose proof (io_rep _ _ _ Hok k f Hk) as H. unfold tab in H. by rewrite Z.eqb_refl in H.
Qed.

Lemma grow_word x : nmeta <= x < FSSIZE -> xint x = x /\ (x =? 0) = false.
Proof. intros H. split; [apply xint_id|apply Z.eqb_neq]; cst; lia. Qed.

Lemma grow_block_range b : b ∈ bs -> nmeta <= b < freeblock s.
Proof using Hok Hk. intros. eapply owned_range; [done..|]. by apply owned_block. Qed.

Lemma grow_ind_range : f_ind f <> 0 -> nmeta <= f_ind f < freeblock s.
Proof using Hok Hk. intros. eapply owned_range; [done..|]. by apply owned_ind. Qed.

Lemma grow_nodup : NoDup (owned f).
Proof using Hok Hk.
  assert (NoDup (concat (owned <$> fs))) as Hnd.
  { rewrite (io_owned _ _ _ Hok). apply NoDup_seqZ. }
  rewrite <- (take_drop_middle fs k f Hk), fmap_app, concat_app in Hnd. cbn in Hnd.
  apply NoDup_app in Hnd as (_ & _ & Hnd). by apply NoDup_app in Hnd as (Hnd & _ & _).
Qed.

Lemma grow_same x : bs !! n = Some x -> grown (din, x) s.
Proof using Hok Hk Hmax.
  intros Hx. exists bs, (f_ind f). cbn [fst snd]. rewrite with_blocks_id.
  rewrite list_insert_id by done. pose proof (lookup_lt_Some _ _ _ Hx).
  split_and!; (done || lia).
Qed.

Lemma grow_old : (n < length bs)%nat -> runs (iappend_block din (Z.of_nat n)) s grown.
Proof using Hok Hk Hmax.
  intros Hn. pose proof grow_rep as Hrep. destruct (fr_maps _ _ _ Hrep) as [M1 M2 M3 M4 M5].
  pose proof (io_range _ _ _ Hok). pose proof (io_sized _ _ _ Hok).
  pose proof (entry_lookup _ _ Hn) as Hx. set (x := block_at bs n) in *.
  pose proof (grow_block_range x ltac:(by eapply list_elem_of_lookup_2)) as Hr.
  destruct (grow_word x ltac:(lia)) as [Ex Nx]. unfold iappend_block.
  destruct (Z.ltb_spec (Z.of_nat n) NDIRECT).
  - rewrite (M2 (Z.of_nat n)) by lia. rewrite Nat2Z.id. fold x. rewrite Ex, Nx.
    apply runs_bind, runs_ret, runs_ret. rewrite (M2 (Z.of_nat n)), Nat2Z.id by lia.
    fold x. rewrite Ex. by apply grow_same.
  - assert (f_ind f <> 0) as Hi by (intros E; apply M4 in E; cst; lia).
    pose proof (grow_ind_range Hi) as Hri.
    destruct (grow_word (f_ind f) ltac:(lia)) as [Ei Ni]. rewrite M3, Ei, Ni.
    apply runs_bind, runs_ret. rewrite M3, Ei. apply runs_bind, rsect_runs; [done|cst; lia|].
    assert (lget 4 (blk (fsfd s) (f_ind f)) (4 * Z.to_nat (Z.of_nat n - NDIRECT)) = x) as E4.
    { rewrite (M5 Hi) by (change (Z.to_nat NINDIRECT) with 256%nat; cst; lia).
      unfold x. f_equal. cst. lia. }
    rewrite E4, Nx. apply runs_bind, runs_ret, runs_ret. rewrite E4, Ex. by apply grow_same.
Qed.

Lemma grow_new d' din' ib' fb' x :
  n = length bs ->
  owned (with_blocks f (bs ++ [x]) ib') ≡ₚ owned f ++ seqZ (freeblock s) (fb' - freeblock s) ->
  freeblock s <= fb' <= FSSIZE -> sized d' ->
  (forall b, 0 <= b -> b ∉ owned (with_blocks f (bs ++ [x]) ib') -> blk d' b = blk (fsfd s) b) ->
  frep d' din' (with_blocks f (bs ++ [x]) ib') ->
  grown (din', x) (MkMkfs d' (freeinode s) fb').
Proof using Hok Hk Hmax.
  intros Hn Hown Hfb Hsz Hframe Hrep. exists (bs ++ [x]), ib'. cbn [fst snd freeblock].
  split_and!.
  - eapply image_ok_update; [exact Hok|by left|done..].
  - rewrite Hn. by apply list_lookup_middle.
  - rewrite length_app. cbn. lia.
  - pose proof (Permutation_length Hown) as Hl.
    rewrite length_app, length_seqZ, (maps_need d' din') in Hl by apply Hrep.
    rewrite (maps_need (fsfd s) din) in Hl by apply grow_rep. cbn [f_blocks with_blocks] in Hl. lia.
Qed.

Lemma next_block_runs (Q : Z -> mkfs -> Prop) t :
  0 <= freeblock t < FSSIZE -> Q (freeblock t) (MkMkfs (fsfd t) (freeinode t) (freeblock t + 1)) ->
  runs next_block t Q.
Proof.
  intros Hlt HQ. unfold runs, next_block. rewrite u32_small by (cst; lia). exact HQ.
Qed.

Lemma seqZ_one a b : b - a = 1 -> seqZ a (b - a) = [a].
Proof. intros ->. unfold seqZ. cbn. f_equal. Qed.

Lemma grow_direct :
  n = length bs -> (n < Z.to_nat NDIRECT)%nat -> freeblock s < FSSIZE ->
  runs (iappend_block din (Z.of_nat n)) s grown.
Proof using Hok Hk Hmax.
  intros Hn Hlt Hfb. pose proof grow_rep as Hrep. pose proof (io_range _ _ _ Hok).
  pose proof (mp_direct _ _ _ _ (fr_maps _ _ _ Hrep)) as M2. pose proof (fr_length _ _ _ Hrep).
  unfold iappend_block. rewrite (proj2 (Z.ltb_lt _ _)) by lia.
  rewrite (M2 (Z.of_nat n)), Nat2Z.id, entry_end by lia.
  change (xint 0 =? 0) with true. cbv iota. destruct (grow_word (freeblock s) ltac:(lia)) as [Ex _].
  apply runs_bind, runs_bind, next_block_runs; [cst; lia|]. apply runs_ret.
  rewrite Ex. apply runs_ret. rewrite addr_set by (done || (cst; lia)). rewrite Ex, Hn.
  eapply grow_new with (ib' := f_ind f); try done; try lia.
  - rewrite seqZ_one by lia. unfold owned. cbn [f_blocks f_ind with_blocks]. solve_Permutation.
  - apply Hok.
  - rewrite <- Hn. eapply frep_addr; [done|rewrite Hn; eapply maps_direct|eapply holds_snoc];
      try apply Hrep; try done; try (cst; lia).
    apply (io_free _ _ _ Hok). lia.
Qed.

(** The new block [x] is listed in the indirect block [ib'], which becomes [buf]. *)
Lemma grow_listed din' ib' fb' x buf :
  n = length bs -> freeblock s <= fb' <= FSSIZE ->
  owned (with_blocks f (bs ++ [x]) ib') ≡ₚ owned f ++ seqZ (freeblock s) (fb' - freeblock s) ->
  nmeta <= ib' < FSSIZE -> ib' ∉ bs -> freeblock s <= x < FSSIZE -> x <> ib' ->
  length buf = Z.to_nat BSIZE ->
  (forall d', blk d' ib' = buf -> holds d' (bs ++ [x]) (f_data f) ->
     frep d' din' (with_blocks f (bs ++ [x]) ib')) ->
  grown (din', x) (MkMkfs (fsfd (put_block ib' buf s)) (freeinode s) fb').
Proof using Hok Hk Hmax.
  intros Hn Hfb Hown Hib Hnb Hx Hne Hl Hrep. pose proof (io_range _ _ _ Hok).
  pose proof (io_sized _ _ _ Hok) as Hsz. apply grow_new with (ib' := ib'); try done.
  - apply sized_upd; [done|cst; lia|done].
  - intros b Hb Hni. apply blk_upd_ne; [cst; lia|done|]. intros <-. apply Hni.
    apply (owned_ind (with_blocks f (bs ++ [x]) ib')). cbn. cst. lia.
  - apply Hrep; [apply blk_upd; [done|cst; lia]|].
    eapply holds_snoc; [apply grow_rep| |].
    + intros b Hb. pose proof (grow_block_range b Hb).
      apply blk_upd_ne; [cst; lia..|]. by intros <-.
    + rewrite blk_upd_ne by (cst; lia). apply (io_free _ _ _ Hok). lia.
Qed.

Lemma grow_first :
  n = length bs -> n = Z.to_nat NDIRECT -> freeblock s + 1 < FSSIZE ->
  runs (iappend_block din (Z.of_nat n)) s grown.
Proof using Hok Hk Hmax.
  intros Hn H12 Hfb. pose proof grow_rep as Hrep. pose proof (io_range _ _ _ Hok).
  destruct (fr_maps _ _ _ Hrep) as [_ _ M3 M4 _]. pose proof (fr_length _ _ _ Hrep) as Hl.
  assert (f_ind f = 0) as Hi by (apply M4; lia). pose proof (io_sized _ _ _ Hok) as Hsz.
  pose proof (io_free _ _ _ Hok (freeblock s) ltac:(lia)) as Hz.
  unfold iappend_block. rewrite (proj2 (Z.ltb_ge _ _)) by (cst; lia). rewrite M3, Hi.
  change (xint 0 =? 0) with true. cbv iota.
  destruct (grow_word (freeblock s) ltac:(lia)) as [Ex _].
  destruct (grow_word (freeblock s + 1) ltac:(lia)) as [Ex' _].
  apply runs_bind, runs_bind, next_block_runs; [cst; lia|]. apply runs_ret.
  rewrite Ex, addr_set, Ex by (done || (cst; lia)).
  apply runs_bind, rsect_runs; [done|cst; lia|]. cbn [fsfd]. rewrite Hz.
  unfold zero_block at 1. rewrite lget_zeros. cbv iota beta. change (0 =? 0) with true. cbv iota.
  apply runs_bind, runs_bind, next_block_runs; [cbn; cst; lia|]. cbn [freeblock freeinode fsfd].
  rewrite Ex'. replace (Z.to_nat (Z.of_nat n - NDIRECT)) with 0%nat by (cst; lia).
  apply runs_bind, wsect_runs; [done|cst; lia|]. apply runs_ret, runs_ret.
  rewrite lget_lput by (unfold zero_block; rewrite length_replicate; cst; lia).
  rewrite Z.mod_small, Ex' by (cst; lia).
  apply (grow_listed _ (freeblock s) (freeblock s + 1 + 1)); try done; try (cst; lia).
  - replace (freeblock s + 1 + 1 - freeblock s) with 2 by lia. unfold owned.
    cbn [f_blocks f_ind with_blocks]. rewrite Hi. rewrite (proj2 (Z.eqb_neq (freeblock s) 0)) by (cst; lia).
    unfold seqZ. cbn. rewrite app_nil_r. rewrite Z.add_comm. solve_Permutation.
  - intros Hb. apply grow_block_range in Hb. lia.
  - intros d' Hd Hh. eapply frep_addr; [done| |done].
    eapply maps_first; try done; try (cst; lia). rewrite <- Hi. apply Hrep.
Qed.

Lemma grow_more :
  n = length bs -> (Z.to_nat NDIRECT < n)%nat -> freeblock s < FSSIZE ->
  runs (iappend_block din (Z.of_nat n)) s grown.
Proof using Hok Hk Hmax.
  intros Hn H12 Hfb. pose proof grow_rep as Hrep. pose proof (io_range _ _ _ Hok).
  destruct (fr_maps _ _ _ Hrep) as [_ _ M3 M4 M5]. pose proof (fr_length _ _ _ Hrep) as Hl.
  assert (f_ind f <> 0) as Hi by (intros E; apply M4 in E; cst; lia).
  pose proof (grow_ind_range Hi) as Hri. pose proof (io_sized _ _ _ Hok) as Hsz.
  assert (length (blk (fsfd s) (f_ind f)) = Z.to_nat BSIZE) as Hbl by (apply Hsz; cst; lia).
  destruct (grow_word (f_ind f) ltac:(lia)) as [Ei Ni].
  destruct (grow_word (freeblock s) ltac:(lia)) as [Ex _].
  unfold iappend_block. rewrite (proj2 (Z.ltb_ge _ _)) by (cst; lia). rewrite M3, Ei, Ni.
  apply runs_bind, runs_ret. rewrite M3, Ei. apply runs_bind, rsect_runs; [done|cst; lia|].
  rewrite (M5 Hi), entry_end by (change (Z.to_nat NINDIRECT) with 256%nat; cst; lia).
  change (0 =? 0) with true. cbv iota.
  apply runs_bind, runs_bind, next_block_runs; [cst; lia|]. rewrite Ex.
  apply runs_bind, wsect_runs; [done|cst; lia|]. apply runs_ret, runs_ret.
  rewrite lget_lput by (rewrite Hbl; cst; lia). rewrite Z.mod_small, Ex by (cst; lia).
  apply (grow_listed _ (f_ind f) (freeblock s + 1)); try done; try (cst; lia).
  - rewrite seqZ_one by lia. unfold owned. cbn [f_blocks f_ind with_blocks]. solve_Permutation.
  - intros Hb. assert (NoDup (owned f)) as Hnd by apply grow_nodup.
    unfold owned in Hnd. rewrite (proj2 (Z.eqb_neq _ _) Hi) in Hnd.
    apply NoDup_app in Hnd as (_ & Hd & _). apply (Hd _ Hb). by apply list_elem_of_singleton.
  - by rewrite lput_length.
  - intros d' Hd Hh. destruct Hrep. split; try done. cbn [f_blocks f_ind with_blocks].
    eapply maps_indirect; try done; try (cst; lia). rewrite Hd. do 2 f_equal. cst. lia.
Qed.

Lemma grow_ok :
  (n <= length bs)%nat ->
  freeblock s + Z.of_nat (need (Nat.max (length bs) (S n))) - Z.of_nat (need (length bs)) <= FSSIZE ->
  runs (iappend_block din (Z.of_nat n)) s grown.
Proof using Hok Hk Hmax.
  intros Hn Hfit. destruct (decide (n < length bs)%nat) as [|]; [by apply grow_old|].
  assert (n = length bs) as E by lia. rewrite Nat.max_r in Hfit by lia. unfold need in Hfit.
  destruct (decide (n < Z.to_nat NDIRECT)%nat).
  - apply grow_direct; [lia..|]. repeat case_decide; cst; lia.
  - destruct (decide (n = Z.to_nat NDIRECT)).
    + apply grow_first; [lia..|]. repeat case_decide; cst; lia.
    + apply grow_more; [lia..|]. repeat case_decide; cst; lia.
Qed.
End grow.

(** ** Appending *)

Lemma length_blocks d bs :
  sized d -> (forall b, b ∈ bs -> 0 <= b < FSSIZE) ->
  length (concat (blk d <$> bs)) = (Z.to_nat BSIZE * length bs)%nat.
Proof.
  intros Hsz Hb. induction bs as [|b bs IH]; [cbn; lia|]. cbn. rewrite length_app.
  rewrite IH by (intros; apply Hb; by right). rewrite (proj2 Hsz) by (apply Hb; by left). lia.
Qed.

Lemma holds_write s bs x data chunk :
  sized (fsfd s) -> (forall b, b ∈ bs ++ [x] -> 0 <= b < FSSIZE) -> x ∉ bs ->
  holds (fsfd s) (bs ++ [x]) data -> (Z.to_nat BSIZE * length bs <= length data)%nat ->
  (length data + length chunk <= Z.to_nat BSIZE * S (length bs))%nat ->
  holds (fsfd (put_block x (splice (length data - Z.to_nat BSIZE * length bs) chunk (blk (fsfd s) x)) s))
    (bs ++ [x]) (data ++ chunk).
Proof.
  intros Hsz Hb Hx [Hl Hc] Hlo Hhi.
  assert (0 <= x < FSSIZE) as Hxr by (apply Hb; set_solver).
  assert (length (concat (blk (fsfd s) <$> bs)) = (Z.to_nat BSIZE * length bs)%nat) as Hlc.
  { apply length_blocks; [done|]. intros. apply Hb. set_solver. }
  assert (length (bs ++ [x]) = S (length bs)) as E by (rewrite length_app; cbn; lia).
  split; rewrite E in *; rewrite length_app; [lia|].
  rewrite concat_blk_snoc in Hc |- *.
  rewrite blk_upd by done. rewrite (list_fmap_ext _ (blk (fsfd s)) bs).
  - rewrite <- Hlc, <- splice_app_r by lia. rewrite Hc, splice_end by lia.
    f_equal. f_equal. lia.
  - intros i b Hi. apply list_elem_of_lookup_2 in Hi.
    apply blk_upd_ne; [lia|apply Hb; set_solver|]. by intros <-.
Qed.

Definition with_data (f : frec) (data : list Z) : frec :=
  FRec (f_type f) (f_size f) data (f_blocks f) (f_ind f).

Lemma write_ok s fs k f din bs x chunk :
  image_ok (Some (k, din)) s fs -> fs !! k = Some f -> f_blocks f = bs ++ [x] ->
  (Z.to_nat BSIZE * length bs <= length (f_data f))%nat ->
  (length (f_data f) + length chunk <= Z.to_nat BSIZE * S (length bs))%nat ->
  image_ok (Some (k, din))
    (put_block x (splice (length (f_data f) - Z.to_nat BSIZE * length bs) chunk (blk (fsfd s) x)) s)
    (<[k := with_data f (f_data f ++ chunk)]> fs).
Proof.
  intros Hok Hk Hbs Hlo Hhi. pose proof (grow_rep _ _ _ _ _ Hok Hk) as Hrep.
  pose proof (grow_nodup _ _ _ _ _ Hok Hk) as Hnd. pose proof (io_sized _ _ _ Hok) as Hsz.
  pose proof (io_range _ _ _ Hok).
  assert (forall b, b ∈ bs ++ [x] -> nmeta <= b < FSSIZE) as Hr.
  { intros b Hb. rewrite <- Hbs in Hb. pose proof (grow_block_range _ _ _ _ _ Hok Hk b Hb). lia. }
  pose proof (Hr x ltac:(set_solver)) as Hxr.
  assert (x ∉ bs /\ (f_ind f <> 0 -> x <> f_ind f)) as [Hx Hxi].
  { unfold owned in Hnd. rewrite Hbs in Hnd. split.
    - apply NoDup_app in Hnd as (Hnd & _). apply NoDup_app in Hnd as (_ & Hd & _). set_solver.
    - intros Hi ->. rewrite (proj2 (Z.eqb_neq _ _) Hi) in Hnd.
      apply NoDup_app in Hnd as (_ & Hd & _). apply (Hd (f_ind f)); set_solver. }
  apply (image_ok_update (Some (k, din)) din _ _ _ f); try done; try lia; [by left|..].
  - rewrite Z.sub_diag. cbn. by rewrite app_nil_r.
  - intros b Hb Hni. apply blk_upd_ne; [cst; lia|done|]. intros <-. apply Hni.
    apply owned_block. cbn. rewrite Hbs. set_solver.
  - apply (sized_upd x _ s); [done|cst; lia|].
    rewrite length_splice; rewrite (proj2 Hsz) by (cst; lia); lia.
  - destruct Hrep as [F1 F2 F3 F4 F5 F6 F7 F8]. split; try done; cbn [f_blocks f_ind f_data with_data].
    + eapply maps_frame; [|exact F7]. intros Hi. pose proof (grow_ind_range _ _ _ _ _ Hok Hk Hi).
      apply blk_upd_ne; [cst; lia..|auto].
    + rewrite Hbs in F8 |- *. apply holds_write; try done. intros b Hb. apply Hr in Hb. cst. lia.
Qed.

(** No block is allocated before it is needed. *)
Definition exact (f : frec) : Prop :=
  (Z.to_nat BSIZE * length (f_blocks f) < length (f_data f) + Z.to_nat BSIZE)%nat.

Definition appended (f : frec) (p : list Z) (f' : frec) : Prop :=
  f_type f' = f_type f /\ f_size f' = f_size f /\ f_data f' = f_data f ++ p /\ exact f'.

Lemma need_mono a b : (a <= b)%nat -> (need a <= need b)%nat.
Proof. unfold need. repeat case_decide; lia. Qed.

(** The space the file at hand may still use. *)
Definition room (s : mkfs) (f : frec) (len : nat) : Prop :=
  freeblock s + Z.of_nat (need (nblk len)) - Z.of_nat (need (length (f_blocks f))) <= FSSIZE.

Section iappend.
Context (fs : list frec) (k : nat) (din : list Z) (s : mkfs) (f : frec) (p : list Z).
Hypothesis Hok : image_ok (Some (k, din)) s fs.
Hypothesis Hk : fs !! k = Some f.
Hypothesis Hex : exact f.
Hypothesis Hmax : Z.of_nat (length (f_data f) + length p) <= MAXFILE * BSIZE.
Hypothesis Hroom : room s f (length (f_data f) + length p).
Hypothesis Hp : (0 < length p)%nat.
Local Abbreviation len := (length (f_data f)).
Local Abbreviation off := (Z.of_nat len).
Local Abbreviation n1 := (Z.min (Z.of_nat (length p)) ((off / BSIZE + 1) * BSIZE - off)).

Lemma iappend_grow :
  runs (iappend_block din (off / BSIZE)) s (grown s fs k f (Z.to_nat (off / BSIZE))).
Proof using All.
  pose proof (fr_holds _ _ _ (grow_rep _ _ _ _ _ Hok Hk)) as [Hl _]. unfold exact in Hex.
  rewrite <- (Z2Nat.id (off / BSIZE)) at 1 by (apply Z.div_pos; cst; lia).
  apply (grow_ok _ _ _ _ _ _ Hok Hk).
  - cst. Z.div_mod_to_equations. lia.
  - cst. Z.div_mod_to_equations. lia.
  - unfold room in Hroom.
    assert (need (Nat.max (length (f_blocks f)) (S (Z.to_nat (off / BSIZE)))) <=
      need (nblk (len + length p)))%nat; [|lia].
    apply need_mono. unfold nblk. cst. Z.div_mod_to_equations. lia.
Qed.

Lemma list_snoc_take (l : list Z) q x : l !! q = Some x -> length l = S q -> l = take q l ++ [x].
Proof.
  intros Hx Hl. rewrite <- (take_drop_middle l q x Hx) at 1. by rewrite (drop_ge l (S q)) by lia.
Qed.

(** One round of the loop. *)
Lemma iappend_round (Q : list Z * Z -> mkfs -> Prop) fuel :
  (forall din' s' f',
     image_ok (Some (k, din')) s' (<[k := f']> fs) -> appended f (take (Z.to_nat n1) p) f' ->
     room s' f' (len + length p) ->
     runs (iappend_loop fuel din' (off + n1) (drop (Z.to_nat n1) p) (Z.of_nat (length p) - n1)) s' Q) ->
  runs (iappend_loop (S fuel) din off p (Z.of_nat (length p))) s Q.
Proof using All.
  intros HQ. pose proof (lookup_lt_Some _ _ _ Hk).
  cbn [iappend_loop]. rewrite (proj2 (Z.ltb_lt _ _)) by lia. cbn [negb].
  apply runs_bind, runs_assert; [apply Z.ltb_lt; cst; Z.div_mod_to_equations; lia|].
  eapply runs_bind_mono; [apply iappend_grow|].
  intros [din' x] s' (bs' & ib' & Hok' & Hx & Hl' & Hfb'). cbn [fst snd] in *.
  set (f1 := with_blocks f bs' ib') in *.
  assert (<[k := f1]> fs !! k = Some f1) as Hk1 by by apply list_lookup_insert_eq.
  pose proof (fr_holds _ _ _ (grow_rep _ _ _ _ _ Hok Hk)) as [Hl _].
  set (q := Z.to_nat (off / BSIZE)) in *. unfold exact in Hex.
  assert (Z.of_nat q = off / BSIZE) as Hq by (unfold q; cst; Z.div_mod_to_equations; lia).
  assert (length bs' = S q) as Hlen by (cst; Z.div_mod_to_equations; lia).
  assert (f_blocks f1 = take q bs' ++ [x]) as Hb1.
  { by apply list_snoc_take. }
  pose proof (io_range _ _ _ Hok'). pose proof (io_sized _ _ _ Hok') as Hsz.
  pose proof (grow_block_range _ _ _ _ _ Hok' Hk1 x ltac:(rewrite Hb1; set_solver)) as Hxr.
  apply runs_bind, rsect_runs; [done|cst; lia|]. apply runs_bind, wsect_runs; [done|cst; lia|].
  rewrite u32_small by (cst; Z.div_mod_to_equations; lia).
  assert (length (take q bs') = q) as Htq by (rewrite length_take; lia).
  assert (length (take (Z.to_nat n1) p) = Z.to_nat n1) as Hc
    by (rewrite length_take; cst; Z.div_mod_to_equations; lia).
  replace (Z.to_nat (off - off / BSIZE * BSIZE)) with (len - Z.to_nat BSIZE * length (take q bs'))%nat
    by (rewrite Htq; cst; Z.div_mod_to_equations; lia).
  apply (HQ _ _ (with_data f1 (f_data f ++ take (Z.to_nat n1) p))).
  - rewrite <- (list_insert_insert_eq fs k _ f1). apply (write_ok s' _ k f1 din'); try done.
    + rewrite Htq. cbn. cst. Z.div_mod_to_equations. lia.
    + rewrite Htq, Hc. cbn. cst. Z.div_mod_to_equations. lia.
  - split_and!; try done. unfold exact. cbn. rewrite length_app, Hlen, Hc.
    cst. Z.div_mod_to_equations. lia.
  - unfold room in *. cbn [freeblock put_block f_blocks with_data f1 with_blocks] in *. lia.
Qed.
End iappend.

Lemma appended_trans f f1 f2 p q :
  appended f p f1 -> appended f1 q f2 -> appended f (p ++ q) f2.
Proof.
  intros (T1 & S1 & D1 & _) (T2 & S2 & D2 & E2). split_and!; try congruence; try done.
  by rewrite D2, D1, app_assoc.
Qed.

Lemma iappend_loop_ok fuel fs k s f din p :
  image_ok (Some (k, din)) s fs -> fs !! k = Some f -> exact f -> (length p < fuel)%nat ->
  Z.of_nat (length (f_data f) + length p) <= MAXFILE * BSIZE ->
  room s f (length (f_data f) + length p) ->
  runs (iappend_loop fuel din (Z.of_nat (length (f_data f))) p (Z.of_nat (length p))) s
    (fun r s' => exists f', image_ok (Some (k, fst r)) s' (<[k := f']> fs) /\ appended f p f' /\
       snd r = Z.of_nat (length (f_data f'))).
Proof.
  revert fs s f din p. induction fuel as [|fuel IH]; intros fs s f din p Hok Hk Hex Hf Hmax Hroom; [lia|].
  destruct (decide (length p = 0)%nat) as [Hz|Hz].
  - apply nil_length_inv in Hz. subst p. cbn. exists f. rewrite list_insert_id by done.
    split_and!; [done| |done]. unfold appended. by rewrite app_nil_r.
  - apply (iappend_round fs k); try done; [lia|]. intros din' s' f' Hok' Happ Hroom'.
    set (n1 := Z.min _ _) in *. pose proof Happ as (_ & _ & D1 & E1).
    pose proof (lookup_lt_Some _ _ _ Hk).
    assert (0 < n1 <= Z.of_nat (length p)) as Hn by (unfold n1; cst; Z.div_mod_to_equations; lia).
    assert (Z.of_nat (length (f_data f')) = Z.of_nat (length (f_data f)) + n1) as Hl.
    { rewrite D1, length_app, length_take. lia. }
    rewrite <- Hl. replace (Z.of_nat (length p) - n1) with (Z.of_nat (length (drop (Z.to_nat n1) p)))
      by (rewrite length_drop; lia).
    eapply runs_mono.
    + apply (IH (<[k := f']> fs) s' f'); try done; rewrite ?length_drop.
      * by apply list_lookup_insert_eq.
      * lia.
      * lia.
      * replace (length (f_data f') + _)%nat with (length (f_data f) + length p)%nat by lia. done.
    + intros r s2 (f2 & Hok2 & Happ2 & Hr). exists f2. rewrite list_insert_insert_eq in Hok2.
      split_and!; try done. rewrite <- (take_drop (Z.to_nat n1) p). by eapply appended_trans.
Qed.

(** ** Images by their contents *)

Definition tight (f : frec) : Prop := f_size f = Z.of_nat (length (f_data f)) /\ exact f.

(** The image holds files of these types and contents. *)
Definition made (s : mkfs) (l : list (Z * list Z)) : Prop :=
  exists fs, image_ok None s fs /\ (fun f => (f_type f, f_data f)) <$> fs = l /\ Forall tight fs.

Definition file_space (x : Z * list Z) : nat := need (nblk (length (snd x))).
Definition space (l : list (Z * list Z)) : nat := sum_list (file_space <$> l).

Lemma exact_blocks d din f : frep d din f -> exact f -> length (f_blocks f) = nblk (length (f_data f)).
Proof.
  intros Hrep Hex. destruct (fr_holds _ _ _ Hrep) as [Hl _]. unfold exact, nblk in *.
  cst. Z.div_mod_to_equations. lia.
Qed.

Lemma image_space o s fs :
  image_ok o s fs -> Forall exact fs ->
  freeblock s = nmeta + Z.of_nat (space ((fun f => (f_type f, f_data f)) <$> fs)).
Proof.
  intros Hok Hex. pose proof (Permutation_length (io_owned _ _ _ Hok)) as Hl.
  rewrite length_seqZ in Hl. pose proof (io_range _ _ _ Hok).
  cut (length (concat (owned <$> fs)) = space ((fun f => (f_type f, f_data f)) <$> fs)); [lia|].
  assert (forall f, f ∈ fs -> length (owned f) = file_space (f_type f, f_data f)) as Hf.
  { intros f Hf. apply list_elem_of_lookup in Hf as [k Hk]. pose proof (io_rep _ _ _ Hok k f Hk) as Hr.
    rewrite (maps_need _ _ _ (fr_maps _ _ _ Hr)). unfold file_space. cbn [snd].
    erewrite exact_blocks; [done..|]. by eapply (Forall_lookup_1 exact). }
  clear -Hf. induction fs as [|f fs IH]; [done|]. unfold space in *. cbn.
  rewrite length_app, IH by (intros; apply Hf; by right). rewrite Hf by by left. done.
Qed.

Lemma sum_list_insert (l : list nat) k x y :
  l !! k = Some x -> (sum_list (<[k := y]> l) + x = sum_list l + y)%nat.
Proof.
  revert k. induction l as [|a l IH]; intros [|k] Hk; try done; cbn in *.
  - injection Hk as <-. lia.
  - specialize (IH k Hk). change (a + sum_list (<[k := y]> l) + x = a + sum_list l + y)%nat. lia.
Qed.

Definition with_size (f : frec) (v : Z) : frec :=
  FRec (f_type f) v (f_data f) (f_blocks f) (f_ind f).

Lemma image_ok_resize k din s fs f v :
  image_ok (Some (k, din)) s fs -> fs !! k = Some f -> 0 <= v < 2 ^ 32 ->
  image_ok (Some (k, set_din_size v din)) s (<[k := with_size f v]> fs).
Proof.
  intros Hok Hk Hv. pose proof (grow_rep _ _ _ _ _ Hok Hk) as [F1 F2 F3 F4 F5 F6 F7 F8].
  pose proof (io_range _ _ _ Hok). destruct s as [d fi fb].
  apply (image_ok_update (Some (k, din)) din (MkMkfs d fi fb) fs k f); try done; cbn [fsfd freeblock] in *.
  - by left.
  - rewrite Z.sub_diag. cbn. by rewrite app_nil_r.
  - lia.
  - apply Hok.
  - split; cbn [f_type f_size f_data f_blocks f_ind with_size];
      unfold set_din_size, din_size; rewrite ?lput_length, ?lget_lput_ne by lia; try done.
    + rewrite lget_lput by lia. apply Z.mod_small. lia.
    + destruct F7 as [G1 G2 G3 G4 G5].
      split; try done; intros; unfold din_addr in *; rewrite lget_lput_ne by lia; auto.
Qed.

Lemma made_file s l k t data :
  made s l -> l !! k = Some (t, data) ->
  exists fs f, image_ok None s fs /\ (fun f => (f_type f, f_data f)) <$> fs = l /\ Forall tight fs /\
    fs !! k = Some f /\ t = f_type f /\ data = f_data f /\ tight f /\ Z.of_nat k + 1 < NINODES.
Proof.
  intros (fs & Hok & <- & Ht) Hk. rewrite list_lookup_fmap in Hk.
  destruct (fs !! k) as [f|] eqn:Hf; [|done]. cbn in Hk. injection Hk as <- <-.
  pose proof (lookup_lt_Some _ _ _ Hf). pose proof (io_few _ _ _ Hok).
  exists fs, f. split_and!; try done; [by eapply (Forall_lookup_1 tight)|lia].
Qed.

Lemma room_of_space s fs k f p :
  image_ok None s fs -> Forall tight fs -> fs !! k = Some f ->
  nmeta + Z.of_nat (space (<[k := (f_type f, f_data f ++ p)]>
    ((fun f => (f_type f, f_data f)) <$> fs))) <= FSSIZE ->
  room s f (length (f_data f) + length p).
Proof.
  intros Hok Ht Hk Hsp. assert (Forall exact fs) as Hex by (eapply Forall_impl; [done|]; by intros ? []).
  pose proof (image_space _ _ _ Hok Hex) as Hfb. unfold space in *.
  rewrite list_fmap_insert in Hsp.
  pose proof (sum_list_insert (file_space <$> ((fun f => (f_type f, f_data f)) <$> fs)) k
    (file_space (f_type f, f_data f)) (file_space (f_type f, f_data f ++ p))) as Hs.
  rewrite !list_lookup_fmap, Hk in Hs. specialize (Hs eq_refl).
  unfold room. rewrite (exact_blocks _ _ _ (io_rep _ _ _ Hok k f Hk) (Forall_lookup_1 _ _ _ _ Hex Hk)).
  unfold file_space in *. cbn [snd] in *. rewrite length_app in *. lia.
Qed.

Lemma iappend_ok s l k t data p :
  made s l -> l !! k = Some (t, data) -> Z.of_nat (length data + length p) <= MAXFILE * BSIZE ->
  nmeta + Z.of_nat (space (<[k := (t, data ++ p)]> l)) <= FSSIZE ->
  runs (iappend (Z.of_nat k + 1) p) s (fun _ s' => made s' (<[k := (t, data ++ p)]> l)).
Proof.
  intros Hm Hk Hmax Hsp.
  destruct (made_file _ _ _ _ _ Hm Hk) as (fs & f & Hok & <- & Ht & Hf & -> & -> & [Hsize Hex] & Hlt).
  pose proof (io_sized _ _ _ Hok) as Hsz. pose proof (lookup_lt_Some _ _ _ Hf).
  pose proof (io_rep _ _ _ Hok k f Hf) as Hrep. unfold iappend.
  apply runs_bind, rinode_run; [done|lia|]. cbn [tab] in Hrep.
  rewrite (fr_size _ _ _ Hrep), Hsize, xint_id by (cst; lia).
  eapply runs_bind_mono.
  - apply iappend_loop_ok; [by apply image_ok_open|done|done|lia|done|by eapply room_of_space].
  - intros [din off] s' (f' & Hok' & (T & _ & D & E) & Hoff). cbn [fst snd] in *.
    assert (off = Z.of_nat (length (f_data f) + length p)) as Ho by (rewrite Hoff, D, length_app; lia).
    rewrite xint_id by (cst; lia).
    assert (<[k := f']> fs !! k = Some f') as Hk' by by apply list_lookup_insert_eq.
    pose proof (grow_rep _ _ _ _ _ Hok' Hk') as Hrep'.
    eapply runs_mono.
    + apply winode_ok; [eapply image_ok_resize; [done|done|cst; lia]| |done].
      unfold set_din_size. rewrite lput_length. apply Hrep'.
    + intros _ s2 [Hs2 _]. rewrite list_insert_insert_eq in Hs2. eexists. split; [exact Hs2|].
      rewrite list_fmap_insert. cbn [f_type f_data with_size]. rewrite T, D. split; [done|].
      apply Forall_insert; [done|]. split; [cbn; by rewrite Hoff|done].
Qed.

(** ** The steps of the program *)

Lemma nblk_mono a b : (a <= b)%nat -> (nblk a <= nblk b)%nat.
Proof. intros. unfold nblk. cst. Z.div_mod_to_equations. lia. Qed.

Lemma file_space_mono t t' a b : (length a <= length b)%nat -> (file_space (t, a) <= file_space (t', b))%nat.
Proof. intros. by apply need_mono, nblk_mono. Qed.

Lemma space_app l l' : space (l ++ l') = (space l + space l')%nat.
Proof. unfold space. by rewrite fmap_app, sum_list_with_app. Qed.

Lemma space_cons x l : space (x :: l) = (file_space x + space l)%nat.
Proof. done. Qed.

Lemma space_snoc_nil l t : space (l ++ [(t, [])]) = space l.
Proof. rewrite space_app. change (space [(t, [])]) with 0%nat. lia. Qed.

Lemma ialloc_made s l type :
  made s l -> Z.of_nat (length l) + 1 < NINODES -> type = T_DIR \/ type = T_FILE ->
  runs (ialloc type) s (fun inum s' =>
    inum = Z.of_nat (length l) + 1 /\ made s' (l ++ [(type, [])])).
Proof.
  intros (fs & Hok & <- & Ht) Hl Hty. rewrite length_fmap in *.
  eapply runs_mono; [by apply ialloc_ok|]. intros i s' [-> Hok']. split; [done|].
  exists (fs ++ [fresh_file type]). rewrite fmap_app. split_and!; try done.
  apply Forall_app. split; [done|]. constructor; [|done]. split; [done|]. unfold exact. cbn [f_blocks f_data fresh_file length]. cst. lia.
Qed.

Lemma copy_in_ok reads s l k t data :
  made s l -> l !! k = Some (t, data) -> Forall (fun b => b <> []) reads ->
  Z.of_nat (length (data ++ concat reads)) <= MAXFILE * BSIZE ->
  nmeta + Z.of_nat (space (<[k := (t, data ++ concat reads)]> l)) <= FSSIZE ->
  runs (copy_in (Z.of_nat k + 1) reads) s
    (fun _ s' => made s' (<[k := (t, data ++ concat reads)]> l)).
Proof.
  revert s l data. induction reads as [|b reads IH]; intros s l data Hm Hk Hne Hmax Hsp.
  - cbn in *. rewrite app_nil_r, list_insert_id in * by done. done.
  - apply Forall_cons in Hne as [Hb Hne]. cbn [copy_in concat] in *.
    assert (0 < length b)%nat as Hlb by (destruct b; [done|cbn; lia]).
    rewrite (proj2 (Z.ltb_lt _ _)) by lia. cbn [negb].
    rewrite app_assoc in *. pose proof (lookup_lt_Some _ _ _ Hk).
    assert (forall q, (length q <= length ((data ++ b) ++ concat reads))%nat ->
      nmeta + Z.of_nat (space (<[k := (t, q)]> l)) <= FSSIZE) as Hq.
    { intros q Hq. unfold space in *. rewrite list_fmap_insert in *.
      assert ((file_space <$> l) !! k = Some (file_space (t, data))) as Hk'
        by by rewrite list_lookup_fmap, Hk.
      pose proof (sum_list_insert _ _ _ (file_space (t, q)) Hk').
      pose proof (sum_list_insert _ _ _ (file_space (t, (data ++ b) ++ concat reads)) Hk').
      pose proof (file_space_mono t t _ _ Hq). lia. }
    eapply runs_bind_mono.
    + apply (iappend_ok s l k t data); [done..| |].
      * rewrite !length_app in *. lia.
      * apply Hq. rewrite !length_app. lia.
    + intros [] s' Hm'. eapply runs_mono; [apply (IH _ _ (data ++ b) Hm')|].
      * by apply list_lookup_insert_eq.
      * done.
      * done.
      * rewrite list_insert_insert_eq. by apply Hq.
      * intros [] s2. by rewrite list_insert_insert_eq.
Qed.

(** What the host gives for a file, and the entries that are written. *)
Definition given (h : host) (arg content : list Z) : Prop :=
  slash ∉ shortname arg /\
  exists reads, h_open h arg = Some reads /\ Forall (fun b => b <> []) reads /\ concat reads = content.

Fixpoint entries (inum : Z) (args : list (list Z)) : list Z :=
  match args with
  | [] => []
  | arg :: args => mk_dirent (skip_underscore (shortname arg)) inum ++ entries (inum + 1) args
  end.

Definition files (contents : list (list Z)) : list (Z * list Z) := (fun c => (T_FILE, c)) <$> contents.

Lemma length_strncpy t n : length (strncpy_l t n) = n.
Proof.
  revert t. induction n as [|n IH]; intros t; [done|]. cbn [strncpy_l].
  case_match; [by rewrite length_replicate|]. cbn. by rewrite IH.
Qed.

Lemma length_dirent name inum : length (mk_dirent name inum) = 16%nat.
Proof. unfold mk_dirent. rewrite length_app, length_strncpy. done. Qed.

Lemma length_entries inum args : length (entries inum args) = (16 * length args)%nat.
Proof.
  revert inum. induction args as [|a args IH]; intros inum; cbn [entries length]; [done|].
  rewrite length_app, length_dirent, IH. lia.
Qed.

Lemma dirent_eq inum name : dirent inum name = mk_dirent name inum.
Proof.
  unfold dirent, mk_dirent. rewrite xshort_id; [done|]. apply u16_range.
Qed.

Lemma add_file_ok h s root fl arg c :
  made s ((T_DIR, root) :: fl) -> given h arg c -> Z.of_nat (length fl) + 2 < NINODES ->
  Z.of_nat (length root) + 16 <= MAXFILE * BSIZE -> Z.of_nat (length c) <= MAXFILE * BSIZE ->
  let root' := root ++ mk_dirent (skip_underscore (shortname arg)) (Z.of_nat (length fl) + 2) in
  nmeta + Z.of_nat (space ((T_DIR, root') :: fl ++ [(T_FILE, c)])) <= FSSIZE ->
  runs (add_file h ROOTINO arg) s (fun _ s' => made s' ((T_DIR, root') :: fl ++ [(T_FILE, c)])).
Proof.
  intros Hm (Hsl & reads & Hopen & Hne & Hc) Hfew Hroot Hcl root' Hsp. unfold add_file.
  apply runs_bind, runs_assert; [by apply bool_decide_eq_true|]. rewrite Hopen.
  eapply runs_bind_mono; [apply (ialloc_made _ _ _ Hm); [cbn [length]; lia|by right]|].
  intros inum s1 [-> Hm1]. rewrite dirent_eq.
  replace (Z.of_nat (length ((T_DIR, root) :: fl)) + 1) with (Z.of_nat (length fl) + 2)
    by (cbn [length]; lia).
  rewrite space_cons, space_app in Hsp. change (space [(T_FILE, c)]) with (file_space (T_FILE, c) + 0)%nat in Hsp.
  eapply runs_bind_mono.
  - change ROOTINO with (Z.of_nat 0 + 1). apply (iappend_ok s1 (((T_DIR, root) :: fl) ++ [(T_FILE, [])]) 0 T_DIR root); [done|done| |].
    + rewrite length_dirent. lia.
    + change (nmeta + Z.of_nat (space ((T_DIR, root') :: fl ++ [(T_FILE, [])])) <= FSSIZE).
      rewrite space_cons, space_snoc_nil. lia.
  - intros [] s2 Hm2. cbn in Hm2. fold root' in Hm2.
    replace (Z.of_nat (length fl) + 2) with (Z.of_nat (S (length fl)) + 1) by lia.
    assert (forall x, <[S (length fl) := x]> ((T_DIR, root') :: fl ++ [(T_FILE, [])]) =
      (T_DIR, root') :: fl ++ [x]) as Hins.
    { intros x. change ((T_DIR, root') :: <[length fl := x]> (fl ++ [(T_FILE, [])]) =
        (T_DIR, root') :: fl ++ [x]). by rewrite insert_app_r_alt, Nat.sub_diag by lia. }
    eapply runs_mono; [apply (copy_in_ok reads s2 _ _ T_FILE [] Hm2)|].
    + cbn. by apply list_lookup_middle.
    + done.
    + cbn. by rewrite Hc.
    + cbn [app]. rewrite Hc, Hins, space_cons, space_app.
      change (space [(T_FILE, c)]) with (file_space (T_FILE, c) + 0)%nat. lia.
    + intros [] s3. cbn [app]. by rewrite Hc, Hins.
Qed.

Lemma add_files_ok h args contents s root fl :
  made s ((T_DIR, root) :: fl) -> Forall2 (given h) args contents ->
  Z.of_nat (length fl + length args) + 1 < NINODES ->
  Z.of_nat (length root + 16 * length args) <= MAXFILE * BSIZE ->
  Forall (fun c => Z.of_nat (length c) <= MAXFILE * BSIZE) contents ->
  let l := (T_DIR, root ++ entries (Z.of_nat (length fl) + 2) args) :: fl ++ files contents in
  nmeta + Z.of_nat (space l) <= FSSIZE ->
  runs (add_files h ROOTINO args) s (fun _ s' => made s' l).
Proof.
  intros Hm Hg. revert s root fl Hm.
  induction Hg as [|arg c args contents Hac Hg IH]; intros s root fl Hm Hfew Hroot Hcs l Hsp.
  - unfold l. cbn. by rewrite !app_nil_r.
  - apply Forall_cons in Hcs as [Hc Hcs]. cbn [length] in *. cbn [add_files].
    set (e := mk_dirent (skip_underscore (shortname arg)) (Z.of_nat (length fl) + 2)) in *.
    assert (l = (T_DIR, (root ++ e) ++ entries (Z.of_nat (length (fl ++ [(T_FILE, c)])) + 2) args) ::
      (fl ++ [(T_FILE, c)]) ++ files contents) as Hl.
    { replace (Z.of_nat (length (fl ++ _)) + 2) with (Z.of_nat (length fl) + 2 + 1)
        by (rewrite length_app; cbn [length]; lia).
      unfold l. cbn [entries]. fold e. by rewrite <- !app_assoc. }
    eapply runs_bind_mono; [apply (add_file_ok h s root fl arg c); try done; try lia|].
    + fold e. rewrite Hl, space_cons, (space_app (fl ++ _)) in Hsp. rewrite space_cons.
      pose proof (file_space_mono T_DIR T_DIR (root ++ e) ((root ++ e) ++
        entries (Z.of_nat (length (fl ++ [(T_FILE, c)])) + 2) args)) as Hmn.
      rewrite (length_app (root ++ e)) in Hmn. specialize (Hmn ltac:(lia)). lia.
    + intros [] s' Hm'. fold e in Hm'. rewrite Hl in *.
      apply IH; try done; rewrite !length_app; cbn [length]; rewrite ?length_dirent; try lia.
      unfold e. rewrite length_dirent. lia.
Qed.

(** ** The empty file system *)

Lemma runs_zero_sectors n a fi fb (Q : unit -> mkfs -> Prop) :
  Z.of_nat (a + n) <= FSSIZE -> Q tt (MkMkfs (replicate (a + n) zero_block) fi fb) ->
  runs (zero_sectors (seq a n)) (MkMkfs (replicate a zero_block) fi fb) Q.
Proof.
  revert a. induction n as [|n IH]; intros a Hn HQ; cbn [seq zero_sectors].
  - rewrite Nat.add_0_r in HQ. done.
  - apply runs_bind. unfold runs at 1, wsect. cbn [fsfd freeinode freeblock].
    rewrite sector_id, Nat2Z.id, length_replicate, Nat.ltb_irrefl, Nat.sub_diag by lia. cbn [replicate app].
    change [zero_block] with (replicate 1 zero_block). rewrite <- replicate_add, Nat.add_1_r.
    apply IH; [lia|]. by rewrite Nat.add_succ_comm.
Qed.

Definition blank : mkfs :=
  put_block 1 sb_block (MkMkfs (replicate (Z.to_nat FSSIZE) zero_block) 1 nmeta).

Lemma blank_blk b : 0 <= b < FSSIZE -> blk (fsfd blank) b = if b =? 1 then sb_block else zero_block.
Proof.
  intros Hb. unfold blk, blank, put_block. cbn [fsfd]. destruct (Z.eqb_spec b 1) as [->|Hne].
  - apply list_lookup_total_insert_eq. rewrite length_replicate. cst. lia.
  - rewrite list_lookup_total_insert_ne by lia. apply lookup_total_replicate_2. lia.
Qed.

Lemma blank_made : made blank [].
Proof.
  exists []. split_and!; [|done|done].
  split; try (cbn [freeinode freeblock blank put_block length]; cst; done || lia).
  - split; [cbn [fsfd blank put_block]; by rewrite length_insert, length_replicate|].
    intros b Hb. rewrite blank_blk by done. case_match; [done|]. apply length_replicate.
  - intros i Hi. change (freeinode blank) with 1 in Hi.
    destruct (iblock_range i ltac:(lia)) as [_ Hr]. pose proof (dinode_off_range i).
    unfold tab, slot. rewrite blank_blk by (cst; lia). rewrite (proj2 (Z.eqb_neq _ _)) by lia.
    unfold slice, zero_block. rewrite drop_replicate, take_replicate. f_equal. cst. lia.
  - intros b Hb. change (freeblock blank) with 46 in Hb. rewrite blank_blk by (cst; lia).
    by rewrite (proj2 (Z.eqb_neq _ _)) by lia.
  - intros b Hb. change (sb_inodestart the_sb) with 32 in Hb. apply blank_blk. cst. lia.
Qed.

Definition dots : list Z := mk_dirent [dot_char] ROOTINO ++ mk_dirent [dot_char; dot_char] ROOTINO.

Lemma format_ok :
  runs format (MkMkfs [] 1 nmeta) (fun r s' => r = ROOTINO /\ made s' [(T_DIR, dots)]).
Proof.
  unfold format. apply runs_bind.
  apply (runs_zero_sectors (Z.to_nat FSSIZE) 0); [cst; lia|].
  apply runs_bind, wsect_runs; [|cst; lia|].
  { split; [apply length_replicate|]. intros b Hb. unfold blk. cbn [fsfd].
    rewrite lookup_total_replicate_2 by (cst; lia). apply length_replicate. }
  change (put_block 1 _ _) with blank.
  eapply runs_bind_mono; [apply (ialloc_made _ _ _ blank_made); [done|by left]|].
  intros r s1 [-> Hm1]. apply runs_bind, runs_assert; [done|].
  rewrite !dirent_eq. change (Z.of_nat (length []) + 1) with ROOTINO.
  eapply runs_bind_mono.
  { apply (iappend_ok s1 [(T_DIR, [])] 0 T_DIR []); [done|done|rewrite length_dirent; cst; cbn; lia|].
    vm_compute. congruence. }
  intros [] s2 Hm2. eapply runs_bind_mono.
  { apply (iappend_ok s2 [(T_DIR, mk_dirent [dot_char] ROOTINO)] 0 T_DIR (mk_dirent [dot_char] ROOTINO)).
    - exact Hm2.
    - done.
    - rewrite !length_dirent. cst. lia.
    - vm_compute. congruence. }
  intros [] s3 Hm3. by apply runs_ret.
Qed.

(** ** The bitmap *)

Definition bitmap (used : Z) : list Z :=
  foldl (fun buf i => set_bit i buf) zero_block (seq 0 (Z.to_nat used)).

Lemma bitmap_prefix n : (n <= 8 * Z.to_nat BSIZE)%nat ->
  let d := foldl (fun buf i => set_bit i buf) zero_block (seq 0 n) in
  length d = Z.to_nat BSIZE /\ forall j, bit_set d j = (j <? n)%nat.
Proof.
  induction n as [|n IH]; intros Hn; cbn zeta in *.
  - split; [apply length_replicate|]. intros j. rewrite bit_set_testbit. cbn [seq foldl].
    unfold at_l, zero_block. destruct (decide (j / 8 < Z.to_nat BSIZE)%nat).
    + rewrite lookup_replicate_2 by done. apply Z.bits_0.
    + rewrite lookup_ge_None_2 by (rewrite length_replicate; lia). apply Z.bits_0.
  - destruct (IH ltac:(lia)) as [Hl Hb]. rewrite seq_S, foldl_app. cbn [foldl Nat.add].
    split; [unfold set_bit; by rewrite length_insert|].
    intros j. rewrite bit_set_set_bit, Hb by lia.
    destruct (Nat.eqb_spec j n), (Nat.ltb_spec j n), (Nat.ltb_spec j (S n)); (done || lia).
Qed.

Lemma bitmap_spec used : 0 <= used <= FSSIZE ->
  length (bitmap used) = Z.to_nat BSIZE /\
  forall b, 0 <= b -> bit_set (bitmap used) (Z.to_nat b) = (b <? used).
Proof.
  intros Hu. destruct (bitmap_prefix (Z.to_nat used)) as [Hl Hb]; [cst; lia|].
  split; [done|]. intros b Hb0. unfold bitmap. rewrite Hb.
  destruct (Z.ltb_spec b used), (Nat.ltb_spec (Z.to_nat b) (Z.to_nat used)); (done || lia).
Qed.

Lemma balloc_ok s fs :
  image_ok None s fs ->
  runs (balloc (i32 (freeblock s))) s (fun _ s' => image_ok None s' fs /\
    freeblock s' = freeblock s /\ blk (fsfd s') (sb_bmapstart the_sb) = bitmap (freeblock s)).
Proof.
  intros Hok. pose proof (io_range _ _ _ Hok). pose proof (io_sized _ _ _ Hok) as Hsz.
  rewrite i32_small by (cst; lia). unfold balloc.
  apply runs_bind, runs_assert; [apply Z.ltb_lt; cst; lia|].
  change (sb_bmapstart the_sb) with 45. destruct (bitmap_spec (freeblock s)) as [Hl _]; [cst; lia|].
  apply wsect_runs; [done|cst; lia|]. split_and!; [|done|apply blk_upd; [done|cst; lia]].
  apply (image_ok_meta _ _ _ _ _ Hok).
  - by apply (sized_upd 45); [done|cst; lia|].
  - intros b Hb Hne. apply (blk_upd_ne 45); cst; lia.
  - intros i Hi. apply tab_frame; [|lia]. intros b Hb. apply (blk_upd_ne 45); lia.
Qed.

Lemma fix_root_ok s fs f :
  image_ok None s fs -> fs !! 0%nat = Some f -> f_size f = Z.of_nat (length (f_data f)) ->
  Z.of_nat (length (f_data f)) <= MAXFILE * BSIZE ->
  runs (fix_root ROOTINO) s (fun _ s' =>
    image_ok None s' (<[0%nat := with_size f ((f_size f / BSIZE + 1) * BSIZE)]> fs)).
Proof.
  intros Hok Hf Hsize Hmax. pose proof (io_sized _ _ _ Hok) as Hsz.
  pose proof (io_rep _ _ _ Hok _ _ Hf) as Hrep. cbn [tab] in Hrep.
  pose proof (image_ok_open _ _ 0 Hok) as Hopen. unfold fix_root.
  apply runs_bind, rinode_run; [done|done|]. change ROOTINO with (Z.of_nat 0 + 1).
  assert (0 <= (f_size f / BSIZE + 1) * BSIZE < 2 ^ 32) as Hr
    by (cst; Z.div_mod_to_equations; lia).
  rewrite (fr_size _ _ _ Hrep), (xint_id (f_size f)), u32_small, xint_id by (cst; lia).
  eapply runs_mono.
  - apply winode_ok; [by eapply image_ok_resize| |done].
    unfold set_din_size. rewrite lput_length. apply Hrep.
  - by intros [] s' [Hs' _].
Qed.

(** ** The image as the kernel reads it *)

(** What [ilock] loads for inode [inum], with the super block that [readsb] finds. *)
Definition disk_sb (d : list (list Z)) : superblock := decode_sb (blk d 1).
Definition disk_inode (d : list (list Z)) (inum : Z) : inode :=
  read_dinode (blk d (IBLOCK inum (disk_sb d))) inum inode0.

Lemma lget_words_entries n data off bs a :
  (forall j, (j < n)%nat -> lget 4 data (off + 4 * j) = block_at bs (a + j)) ->
  lget_words n data off = block_at bs <$> seq a n.
Proof.
  intros H. apply list_eq. intros i. rewrite list_lookup_fmap. destruct (decide (i < n)%nat).
  - rewrite lookup_lget_words, lookup_seq_lt by done. cbn. by rewrite H.
  - rewrite !lookup_ge_None_2; rewrite ?length_lget_words, ?length_seq; (done || lia).
Qed.

Lemma lget_words_snoc n data off :
  lget_words (S n) data off = lget_words n data off ++ [lget 4 data (off + 4 * n)].
Proof.
  revert off. induction n as [|n IH]; intros off.
  - cbn [lget_words app]. by rewrite Nat.mul_0_r, Nat.add_0_r.
  - change (lget_words (S (S n)) data off) with (lget 4 data off :: lget_words (S n) data (off + 4)).
    rewrite IH. cbn [lget_words app]. by replace (off + 4 + 4 * n)%nat with (off + 4 * S n)%nat by lia.
Qed.

Lemma filter_entries n a bs : Forall (fun b => b <> 0) bs ->
  filter (fun b => b <> 0) (block_at bs <$> seq a n) = take n (drop a bs).
Proof.
  intros Hnz. revert a. induction n as [|n IH]; intros a; [done|]. cbn [seq].
  rewrite fmap_cons. destruct (decide (a < length bs)%nat) as [Ha|Ha].
  - pose proof (entry_lookup bs a Ha) as He. rewrite filter_cons_True by (exact (Forall_lookup_1 _ _ _ _ Hnz He)).
    rewrite IH, (drop_S _ _ _ He). done.
  - rewrite entry_end by lia. rewrite filter_cons_False by (intros []; done).
    by rewrite IH, !drop_ge, !take_nil by lia.
Qed.

Section kernel_view.
Context (d : list (list Z)) (inum : Z) (f : frec).
Hypothesis Hi : 0 <= inum < NINODES.
Hypothesis Hsb : disk_sb d = the_sb.
Hypothesis Hrep : frep d (slot d inum) f.
Hypothesis Hnz : Forall (fun b => b <> 0) (f_blocks f).
Hypothesis Hty : f_type f = T_DIR \/ f_type f = T_FILE.

Lemma view_field n k : (k + n <= 64)%nat ->
  lget n (blk d (IBLOCK inum (disk_sb d))) (dinode_off inum + k) = lget n (slot d inum) k.
Proof using Hsb. intros Hk. unfold slot. by rewrite lget_slice, Hsb. Qed.

Lemma view_fields :
  i_type (disk_inode d inum) = f_type f /\ i_nlink (disk_inode d inum) = 1 /\
  i_size (disk_inode d inum) = f_size f.
Proof using Hsb Hrep Hty.
  destruct Hrep. unfold disk_inode, read_dinode. cbn.
  rewrite <- (Nat.add_0_r (dinode_off inum)) at 1.
  rewrite !view_field by lia. rewrite fr_type0, fr_nlink0.
  split_and!; [by destruct Hty as [-> | ->]|done|done].
Qed.

Lemma view_addrs : i_addrs (disk_inode d inum) = (block_at (f_blocks f) <$> seq 0 12) ++ [f_ind f].
Proof using Hsb Hrep.
  destruct (fr_maps _ _ _ Hrep) as [_ M2 M3 _ _]. 
  change (lget_words 13 (blk d (IBLOCK inum (disk_sb d))) (dinode_off inum + 12) =
    (block_at (f_blocks f) <$> seq 0 12) ++ [f_ind f]).
  rewrite (lget_words_snoc 12), <- Nat.add_assoc, view_field by lia. f_equal.
  - apply lget_words_entries. intros j Hj. rewrite <- Nat.add_assoc, view_field by lia.
    specialize (M2 (Z.of_nat j) ltac:(cst; lia)). unfold din_addr in M2. by rewrite Nat2Z.id in M2.
  - by rewrite <- M3.
Qed.

Lemma view_ind : i_addrs (disk_inode d inum) !!! Z.to_nat NDIRECT = f_ind f.
Proof using Hsb Hrep. by rewrite view_addrs. Qed.

Lemma view_bmap bn : (bn < length (f_blocks f))%nat ->
  bmap_at (blk d) (disk_inode d inum) bn = block_at (f_blocks f) bn.
Proof using Hsb Hrep.
  intros Hbn. destruct (fr_maps _ _ _ Hrep) as [M1 _ _ M4 M5]. unfold bmap_at. rewrite view_ind.
  case_decide as Hd.
  - rewrite view_addrs, list_lookup_total_alt, lookup_app_l, list_lookup_fmap, lookup_seq_lt;
      rewrite ?length_fmap, ?length_seq; try (cst; lia). done.
  - rewrite M5; [f_equal; lia| |change (Z.to_nat NINDIRECT) with 256%nat; cst; lia].
    intros E. apply M4 in E. lia.
Qed.

Lemma view_blocks : file_blocks (blk d) (disk_inode d inum) (length (f_blocks f)) =
  f_data f ++ replicate (Z.to_nat BSIZE * length (f_blocks f) - length (f_data f)) 0.
Proof using Hsb Hrep.
  destruct (fr_holds _ _ _ Hrep) as [_ <-]. unfold file_blocks. f_equal. apply list_eq. intros i.
  rewrite !list_lookup_fmap. destruct (decide (i < length (f_blocks f))%nat) as [Hl|Hl].
  - rewrite lookup_seq_lt by done. cbn. by rewrite view_bmap, (entry_lookup _ _ Hl).
  - rewrite (lookup_ge_None_2 (seq _ _)) by (rewrite length_seq; lia).
    by rewrite lookup_ge_None_2 by lia.
Qed.

Lemma view_bytes : tight f -> file_bytes (blk d) (disk_inode d inum) = f_data f.
Proof using Hsb Hrep Hty.
  intros [Hs Hex]. destruct view_fields as (_ & _ & E). unfold file_bytes.
  rewrite E, Hs, Nat2Z.id, <- (exact_blocks _ _ _ Hrep Hex), view_blocks. apply take_app_length.
Qed.

Lemma view_owned : inode_blocks (blk d) (disk_inode d inum) ≡ₚ owned f.
Proof using Hsb Hrep Hnz.
  destruct (fr_maps _ _ _ Hrep) as [M1 _ _ M4 M5]. unfold inode_blocks, owned.
  rewrite view_ind, view_addrs, !filter_app, filter_entries by done. rewrite drop_0.
  destruct (Z.eqb_spec (f_ind f) 0) as [E|E].
  - rewrite E. cbn. rewrite !app_nil_r, take_ge; [done|]. apply M4 in E. cst. lia.
  - rewrite (lget_words_entries _ _ _ (f_blocks f) 12) by (intros j Hj; by apply M5).
    rewrite filter_entries by done. rewrite (take_ge (drop _ _)).
    + rewrite filter_cons_True by done. cbn [filter list_filter].
      rewrite <- (take_drop 12 (f_blocks f)) at 3. solve_Permutation.
    + rewrite length_drop. change (Z.to_nat NINDIRECT) with 256%nat. cst. lia.
Qed.
End kernel_view.

(** ** The theorem *)

Lemma the_sb_value :
  the_sb = Superblock FSMAGIC FSSIZE nblocks NINODES nlog 2 (2 + nlog) (2 + nlog + ninodeblocks).
Proof. by vm_compute. Qed.

Lemma sb_roundtrip : decode_sb sb_block = the_sb.
Proof. by vm_compute. Qed.

Record formatted (d : list (list Z)) (args contents : list (list Z)) : Prop := {
  fm_sized : sized d;
  fm_sb : disk_sb d =
    Superblock FSMAGIC FSSIZE nblocks NINODES nlog 2 (2 + nlog) (2 + nlog + ninodeblocks);
  fm_log : lget 4 (blk d (sb_logstart (disk_sb d))) 0 = 0;
  fm_root : let ip := disk_inode d ROOTINO in let e := dots ++ entries 2 args in
    i_type ip = T_DIR /\ i_nlink ip = 1 /\
    i_size ip = (Z.of_nat (length e) / BSIZE + 1) * BSIZE /\
    file_blocks (blk d) ip (nblk (length e)) =
      e ++ replicate (Z.to_nat BSIZE * nblk (length e) - length e) 0;
  fm_files : forall i c, contents !! i = Some c ->
    let ip := disk_inode d (Z.of_nat i + 2) in
    i_type ip = T_FILE /\ i_nlink ip = 1 /\ i_size ip = Z.of_nat (length c) /\ file_bytes (blk d) ip = c;
  fm_unused : forall inum, Z.of_nat (length contents) + 2 <= inum < NINODES ->
    i_type (disk_inode d inum) = 0;
  fm_nodup : NoDup (concat ((fun i => inode_blocks (blk d) (disk_inode d i)) <$>
    seqZ 1 (Z.of_nat (length contents) + 1)));
  fm_bitmap : forall b, 0 <= b < FSSIZE ->
    bit_set (blk d (BBLOCK b (disk_sb d))) (Z.to_nat (b mod BPB)) = true <->
    b < nmeta \/ b ∈ concat ((fun i => inode_blocks (blk d) (disk_inode d i)) <$>
      seqZ 1 (Z.of_nat (length contents) + 1)) }.

(** The end of [main]: the image is that of the files [fs], with the size of the root rounded up
    and the bitmap written. *)
Record finished (s : mkfs) (args contents : list (list Z)) (fs : list frec) : Prop := {
  fin_ok : image_ok None s fs;
  fin_map : blk (fsfd s) (sb_bmapstart the_sb) = bitmap (freeblock s);
  fin_files : (fun f => (f_type f, f_data f)) <$> fs =
    (T_DIR, dots ++ entries 2 args) :: files contents;
  fin_exact : Forall exact fs;
  fin_root : forall f, fs !! 0%nat = Some f ->
    f_size f = (Z.of_nat (length (f_data f)) / BSIZE + 1) * BSIZE;
  fin_tight : forall i f, fs !! S i = Some f -> tight f }.

Lemma main_body_ok h args contents :
  Forall2 (given h) args contents -> Z.of_nat (length args) + 1 < NINODES ->
  Forall (fun c => Z.of_nat (length c) <= MAXFILE * BSIZE) contents ->
  nmeta + Z.of_nat (space ((T_DIR, dots ++ entries 2 args) :: files contents)) <= FSSIZE ->
  runs (main_body h args) (MkMkfs [] 1 nmeta) (fun _ s => exists fs, finished s args contents fs).
Proof.
  intros Hg Hfew Hcs Hsp. unfold main_body.
  assert (length dots = 32%nat) as Hdots by by unfold dots; rewrite length_app, !length_dirent.
  assert (Z.of_nat (length (dots ++ entries 2 args)) <= MAXFILE * BSIZE) as Hlen.
  { rewrite length_app, length_entries, Hdots. change NINODES with 200 in Hfew. cst. lia. }
  eapply runs_bind_mono; [apply format_ok|]. intros r s1 [-> Hm1].
  eapply runs_bind_mono.
  { apply (add_files_ok h args contents s1 dots []); [done|done|cbn [length]; lia| |done|done].
    by rewrite length_app, length_entries in Hlen. }
  intros [] s2 (fs & Hok & Hfs & Ht). cbn [app length] in Hfs. change (Z.of_nat 0 + 2) with 2 in Hfs.
  destruct fs as [|f fs]; [done|]. rewrite fmap_cons in Hfs. injection Hfs as Hty Hd Hfs.
  apply Forall_cons in Ht as [[Hsize Hex] Ht].
  eapply runs_bind_mono; [by apply (fix_root_ok s2 _ f Hok); [done|done|rewrite Hd]|].
  intros [] s3 Hok3. cbn in Hok3. eapply runs_mono; [by apply balloc_ok|].
  intros [] s4 (Hok4 & Hfb & Hbm). eexists. split; [exact Hok4|by rewrite Hfb|..].
  - rewrite fmap_cons, Hfs. cbn. by rewrite Hty, Hd.
  - constructor; [exact Hex|]. eapply Forall_impl; [exact Ht|]. by intros ? [].
  - intros g [= <-]. cbn. by rewrite Hsize.
  - intros i g Hg'. by eapply (Forall_lookup_1 tight).
Qed.

Lemma concat_perm (l l' : list (list Z)) : Forall2 Permutation l l' -> concat l ≡ₚ concat l'.
Proof. induction 1 as [|x y l l' Hxy _ IH]; cbn; [done|]. by rewrite Hxy, IH. Qed.

Section finish.
Context (s : mkfs) (args contents : list (list Z)) (fs : list frec).
Hypothesis Hfin : finished s args contents fs.
Local Abbreviation d := (fsfd s).

Lemma finished_length : length fs = S (length contents).
Proof using Hfin.
  pose proof (f_equal length (fin_files _ _ _ _ Hfin)) as H. cbn in H.
  by rewrite length_fmap in H; unfold files in H; rewrite length_fmap in H.
Qed.

Lemma finished_sb : disk_sb d = the_sb.
Proof using Hfin.
  unfold disk_sb. rewrite (io_meta _ _ _ (fin_ok _ _ _ _ Hfin)) by done. apply sb_roundtrip.
Qed.

Lemma finished_file k f : fs !! k = Some f ->
  0 <= Z.of_nat k + 1 < NINODES /\ frep d (slot d (Z.of_nat k + 1)) f /\
  Forall (fun b => b <> 0) (f_blocks f).
Proof using Hfin.
  intros Hk. pose proof (fin_ok _ _ _ _ Hfin) as Hok. pose proof (lookup_lt_Some _ _ _ Hk).
  pose proof (io_few _ _ _ Hok). split_and!; [lia|lia|by apply (io_rep _ _ _ Hok)|].
  apply Forall_forall. intros b Hb.
  pose proof (owned_range _ _ _ _ _ _ Hok Hk (owned_block _ _ Hb)). cst. lia.
Qed.

Lemma finished_blocks :
  concat ((fun i => inode_blocks (blk d) (disk_inode d i)) <$> seqZ 1 (Z.of_nat (length contents) + 1))
    ≡ₚ seqZ nmeta (freeblock s - nmeta).
Proof using Hfin.
  pose proof (fin_ok _ _ _ _ Hfin) as Hok. rewrite <- (io_owned _ _ _ Hok).
  apply concat_perm. apply Forall2_same_length_lookup. split.
  - rewrite !length_fmap, length_seqZ, finished_length. lia.
  - intros k x y Hx Hy. rewrite list_lookup_fmap in Hx. rewrite list_lookup_fmap in Hy.
    destruct (fs !! k) as [f|] eqn:Hk; [|done]. injection Hy as <-.
    destruct (finished_file k f Hk) as (Hr & Hrep & Hnz). pose proof (lookup_lt_Some _ _ _ Hk) as Hl.
    rewrite finished_length in Hl. rewrite lookup_seqZ_lt in Hx by lia. injection Hx as <-.
    rewrite (Z.add_comm 1). apply view_owned; (done || apply finished_sb).
Qed.

Lemma finished_root :
  let ip := disk_inode d ROOTINO in let e := dots ++ entries 2 args in
  i_type ip = T_DIR /\ i_nlink ip = 1 /\ i_size ip = (Z.of_nat (length e) / BSIZE + 1) * BSIZE /\
  file_blocks (blk d) ip (nblk (length e)) = e ++ replicate (Z.to_nat BSIZE * nblk (length e) - length e) 0.
Proof using Hfin.
  cbv zeta. pose proof (fin_files _ _ _ _ Hfin) as Hf. pose proof finished_length.
  set (e := dots ++ entries 2 args) in *. clearbody e.
  destruct (fs !! 0%nat) as [f|] eqn:Hk; [|apply lookup_ge_None in Hk; lia].
  apply (f_equal (fun l => l !! 0%nat)) in Hf. rewrite list_lookup_fmap, Hk in Hf.
  injection Hf as Hty Hd. destruct (finished_file _ _ Hk) as (Hr & Hrep & Hnz).
  change ROOTINO with (Z.of_nat 0 + 1).
  destruct (view_fields _ _ _ finished_sb Hrep) as (E1 & E2 & E3); [by left|].
  rewrite E1, E2, E3, (fin_root _ _ _ _ Hfin _ Hk), Hty, <- Hd. split_and!; try done.
  pose proof (Forall_lookup_1 _ _ _ _ (fin_exact _ _ _ _ Hfin) Hk) as Hex.
  rewrite <- (exact_blocks _ _ _ Hrep Hex). apply view_blocks; (done || apply finished_sb).
Qed.

Lemma finished_files i c : contents !! i = Some c ->
  let ip := disk_inode d (Z.of_nat i + 2) in
  i_type ip = T_FILE /\ i_nlink ip = 1 /\ i_size ip = Z.of_nat (length c) /\ file_bytes (blk d) ip = c.
Proof using Hfin.
  cbv zeta. intros Hc. pose proof (fin_files _ _ _ _ Hfin) as Hf. pose proof finished_length.
  pose proof (lookup_lt_Some _ _ _ Hc).
  destruct (fs !! S i) as [f|] eqn:Hk; [|apply lookup_ge_None in Hk; lia].
  apply (f_equal (fun l => l !! S i)) in Hf. rewrite list_lookup_fmap, Hk in Hf.
  change (Some (f_type f, f_data f) = files contents !! i) in Hf.
  unfold files in Hf. rewrite list_lookup_fmap, Hc in Hf.
  injection Hf as Hty Hd. destruct (finished_file _ _ Hk) as (Hr & Hrep & Hnz).
  replace (Z.of_nat i + 2) with (Z.of_nat (S i) + 1) by lia.
  destruct (view_fields _ _ _ finished_sb Hrep) as (E1 & E2 & E3); [by right|].
  pose proof (fin_tight _ _ _ _ Hfin _ _ Hk) as Ht.
  rewrite E1, E2, E3, (proj1 Ht), Hty, <- Hd. split_and!; try done.
  apply view_bytes; (done || apply finished_sb || by right).
Qed.
End finish.

Lemma finished_formatted s args contents fs :
  finished s args contents fs -> formatted (fsfd s) args contents.
Proof.
  intros Hfin. pose proof (fin_ok _ _ _ _ Hfin) as Hok. pose proof (finished_sb _ _ _ _ Hfin) as Hsb.
  pose proof (finished_length _ _ _ _ Hfin) as Hl. pose proof (io_range _ _ _ Hok).
  split.
  - apply Hok.
  - rewrite Hsb. apply the_sb_value.
  - rewrite Hsb. rewrite (io_meta _ _ _ Hok) by done. apply lget_zeros.
  - by apply (finished_root s args contents fs).
  - by apply (finished_files s args contents fs).
  - intros inum Hi. pose proof (io_inodes _ _ _ Hok).
    pose proof (io_unused _ _ _ Hok inum ltac:(lia)) as Hz. unfold disk_inode, read_dinode. cbn.
    rewrite <- (Nat.add_0_r (dinode_off inum)), view_field by (done || lia). cbn [tab] in Hz.
    by rewrite Hz, lget_zeros.
  - rewrite (finished_blocks s args contents fs Hfin). apply NoDup_seqZ.
  - intros b Hb. rewrite (finished_blocks s args contents fs Hfin), elem_of_seqZ, Hsb.
    unfold BBLOCK. change BPB with 8192. change (sb_bmapstart the_sb) with 45.
    cst. rewrite Z.div_small, Z.mod_small by lia. change (u32 (0 + 45)) with (sb_bmapstart the_sb).
    rewrite (fin_map _ _ _ _ Hfin). destruct (bitmap_spec (freeblock s)) as [_ Hbit]; [cst; lia|].
    rewrite Hbit, Z.ltb_lt by lia. lia.
Qed.

Lemma runs_image (m : M unit) s Q :
  runs m s Q -> exists s', image_of (m s) = inr (fsfd s') /\ Q tt s'.
Proof. unfold runs. destruct (m s) as [|[[] s']]; [done|]. intros H. by exists s'. Qed.

Lemma main_creat h prog image args :
  h_creat h image = true ->
  main h (prog :: image :: args) = image_of (main_body h args (MkMkfs [] 1 nmeta)).
Proof. intros H. unfold main. rewrite H. reflexivity. Qed.

Lemma main_finished h prog image args contents d :
  Forall2 (given h) args contents -> Z.of_nat (length args) + 1 < NINODES ->
  Forall (fun c => Z.of_nat (length c) <= MAXFILE * BSIZE) contents ->
  nmeta + Z.of_nat (space ((T_DIR, dots ++ entries 2 args) :: files contents)) <= FSSIZE ->
  main h (prog :: image :: args) = inr d -> exists s fs, finished s args contents fs /\ fsfd s = d.
Proof.
  intros Hg Hfew Hcs Hsp Hmain. destruct (h_creat h image) eqn:Hc; [|unfold main in Hmain; by rewrite Hc in Hmain].
  pose proof (main_body_ok h args contents Hg Hfew Hcs Hsp) as Hm.
  destruct (runs_image _ _ _ Hm) as (s & Hs & fs & Hfin). exists s, fs. split; [done|].
  pose proof (eq_trans (eq_sym Hmain) (eq_trans (main_creat _ _ _ _ Hc) Hs)) as E.
  exact (eq_sym (inj inr _ _ E)).
Qed.

(** C11: Given files of at most [MAXFILE] blocks that fit on the disk, mkfs succeeds, and read with
    the kernel's own functions its image is a consistent file system: the super block gives the
    layout, the log is empty, the root directory holds [.], [..] and one entry per file, every
    file has the bytes that the host's reads returned, the other inodes are free, no block belongs
    to two files, and the bitmap marks exactly the metadata and the blocks of files. *)
Theorem mkfs_builds_file_system h prog image args contents :
  h_creat h image = true -> Forall2 (given h) args contents ->
  Z.of_nat (length args) + 1 < NINODES ->
  Forall (fun c => Z.of_nat (length c) <= MAXFILE * BSIZE) contents ->
  nmeta + Z.of_nat (space ((T_DIR, dots ++ entries 2 args) :: files contents)) <= FSSIZE ->
  exists d, main h (prog :: image :: args) = inr d /\ formatted d args contents.
Proof.
  intros Hc Hg Hfew Hcs Hsp. pose proof (main_body_ok h args contents Hg Hfew Hcs Hsp) as Hm.
  destruct (runs_image _ _ _ Hm) as (s & Hs & fs & Hfin).
  exists (fsfd s). split; [exact (eq_trans (main_creat _ _ _ _ Hc) Hs)|].
  by eapply finished_formatted.
Qed.

(** Two files, one read in two pieces, the other long enough to need an indirect block. *)
Definition demo_host : host := Host (fun _ => true) (fun name =>
  if decide (name = [95; 97]) then Some [[1; 2]; [3]]
  else Some [replicate 8000 7; replicate 8000 8]).
Definition demo_args : list (list Z) := [[95; 97]; user_prefix ++ [98]].
Definition demo_contents : list (list Z) := [[1; 2; 3]; replicate 8000 7 ++ replicate 8000 8].

Lemma demo_given : Forall2 (given demo_host) demo_args demo_contents.
Proof.
  repeat constructor; try (apply (bool_decide_unpack _); vm_compute; exact I);
    eexists; (split; [reflexivity|split; [repeat constructor; discriminate|reflexivity]]).
Qed.

Lemma demo_small : Forall (fun c => Z.of_nat (length c) <= MAXFILE * BSIZE) demo_contents.
Proof. repeat constructor; vm_compute; discriminate. Qed.

Lemma mkfs_builds_file_system_witness :
  exists d, main demo_host ([] :: [102] :: demo_args) = inr d /\ formatted d demo_args demo_contents.
Proof.
  apply (mkfs_builds_file_system demo_host [] [102] demo_args demo_contents).
  - reflexivity.
  - apply demo_given.
  - reflexivity.
  - apply demo_small.
  - vm_compute. discriminate.
Defined.
