(* ===== verification/MkfsRead.v ===== *)
(** * The kernel reads the disk that mkfs made

    Both ends of the file system meet: a file given to mkfs is found in the root directory by
    [dirlookup], loaded by [ilock] and read by [readi]. *)

From stdpp Require Import base numbers list gmap sets strings.
From S2P Require Import Prelude Mem Types Kernel Wp Sched SchedFacts Bio BioFacts Log Fs FsFacts Mkfs MkfsFacts.

(** ** Names *)

Lemma at_l_cons a l i : at_l (a :: l) (S i) = at_l l i.
Proof. done. Qed.

Lemma at_l_tail l i : at_l (tail l) i = at_l l (S i).
Proof. by destruct l. Qed.

Lemma at_l_head_range l : 0 <= at_l l 0 < 256.
Proof. apply u8_range. Qed.

Lemma u8_at_l l i : u8 (at_l l i) = at_l l i.
Proof. apply u8_small, u8_range. Qed.

(** Comparing a name with an entry compares what would be stored for both. *)
Lemma strncmp_strncpy n p q : strncmp_l p (strncpy_l q n) n = 0 <-> strncpy_l p n = strncpy_l q n.
Proof.
  revert p q. induction n as [|n IH]; intros p q; [done|]. cbn [strncmp_l strncpy_l].
  pose proof (at_l_head_range p). pose proof (at_l_head_range q).
  destruct (Z.eqb_spec (at_l p 0) 0) as [Ep|Ep], (Z.eqb_spec (at_l q 0) 0) as [Eq|Eq]; cbn [negb andb].
  - rewrite Ep. done.
  - rewrite Ep. change (at_l (at_l q 0 :: _) 0) with (u8 (at_l q 0)). rewrite u8_at_l.
    split; [lia|]. intros E. apply (f_equal (fun l => at_l l 0)) in E. cbn in E.
    change (at_l (0 :: _) 0) with 0 in E. change (at_l (at_l q 0 :: _) 0) with (u8 (at_l q 0)) in E.
    rewrite u8_at_l in E. lia.
  - change (at_l (replicate (S n) 0) 0) with 0. rewrite (proj2 (Z.eqb_neq _ _) Ep).
    split; [lia|]. intros [= E _]. lia.
  - change (at_l (at_l q 0 :: _) 0) with (u8 (at_l q 0)). rewrite u8_at_l. cbn [tail].
    destruct (Z.eqb_spec (at_l p 0) (at_l q 0)) as [E|E].
    + rewrite IH, E. split; [by intros ->|]. by intros [= ->].
    + split; [lia|]. intros [= E' _]. lia.
Qed.

(** ** Directories that are lists of entries *)

Lemma slice_entry (el : list (list Z)) k de :
  Forall (fun x => length x = 16%nat) el -> el !! k = Some de -> slice (16 * k) 16 (concat el) = de.
Proof.
  intros Hel Hde. rewrite <- (Nat.add_0_r (16 * k)), (slice_concat 16 el k de) by (done || lia).
  unfold slice. rewrite drop_0. apply take_ge. by rewrite (Forall_lookup_1 _ _ _ _ Hel Hde).
Qed.

Lemma dir_find_at name k n j (el : list (list Z)) :
  Forall (fun x => length x = 16%nat) el -> (k <= j < length el)%nat -> (j < k + n)%nat ->
  (forall i de, el !! i = Some de -> (k <= i < j)%nat -> namecmp name (de_name de) <> 0) ->
  (forall de, el !! j = Some de -> de_inum de <> 0 /\ namecmp name (de_name de) = 0) ->
  exists de, el !! j = Some de /\ dir_find name (concat el) k n = Some (j, de_inum de).
Proof.
  intros Hel. revert k. induction n as [|n IH]; intros k Hj Hn Hbefore Hhit; [lia|]. cbn [dir_find].
  destruct (lookup_lt_is_Some_2 el k) as [de Hde]; [lia|]. rewrite (slice_entry el k de) by done.
  destruct (decide (k = j)) as [->|Hne].
  - destruct (Hhit de Hde) as [Hi Hc]. rewrite (proj2 (Z.eqb_neq _ _) Hi), Hc. by exists de.
  - specialize (IH (S k)). rewrite (proj2 (Z.eqb_neq _ _) (Hbefore k de Hde ltac:(lia))).
    destruct (IH ltac:(lia) ltac:(lia)) as (de' & Hde' & Hf).
    + intros i dx Hx Hi. apply (Hbefore i); [done|lia].
    + done.
    + exists de'. split; [done|]. by case_match.
Qed.

(** The entries of the root directory, as a list. *)
Definition entry_name (arg : list Z) : list Z := skip_underscore (shortname arg).
Definition root_entries (args : list (list Z)) : list (list Z) :=
  [mk_dirent [dot_char] ROOTINO; mk_dirent [dot_char; dot_char] ROOTINO] ++
  imap (fun i arg => mk_dirent (entry_name arg) (Z.of_nat i + 2)) args.

Lemma entries_concat args k :
  entries (Z.of_nat k) args = concat (imap (fun i arg => mk_dirent (entry_name arg) (Z.of_nat i + Z.of_nat k)) args).
Proof.
  revert k. induction args as [|a args IH]; intros k; [done|]. rewrite imap_cons. cbn [entries concat].
  rewrite Z.add_0_l. f_equal. replace (Z.of_nat k + 1) with (Z.of_nat (S k)) by lia. rewrite IH. f_equal.
  apply imap_ext. intros i x _. unfold compose. f_equal. lia.
Qed.

Lemma root_bytes args : dots ++ entries 2 args = concat (root_entries args).
Proof.
  unfold root_entries, dots. rewrite concat_app. cbn [concat]. rewrite app_nil_r, <- app_assoc.
  change (entries 2 args) with (entries (Z.of_nat 2) args). by rewrite entries_concat.
Qed.

Lemma root_entries_length args : Forall (fun x => length x = 16%nat) (root_entries args).
Proof.
  unfold root_entries. apply Forall_app. split; [repeat constructor|].
  apply Forall_forall. intros x Hx. apply elem_of_lookup_imap in Hx as (i & a & -> & _). apply length_dirent.
Qed.

Lemma de_name_dirent name inum : de_name (mk_dirent name inum) = strncpy_l name DIRSIZ.
Proof.
  unfold de_name, slice, mk_dirent. rewrite drop_app_length' by done. apply take_ge. by rewrite length_strncpy.
Qed.

Lemma de_inum_dirent name inum : 0 <= inum < 2 ^ 16 -> de_inum (mk_dirent name inum) = inum.
Proof.
  intros Hi. unfold de_inum, mk_dirent. rewrite u16_small by done. cbn [bytes_of app lget lookup list_lookup default from_option id].
  unfold u8. Z.div_mod_to_equations. lia.
Qed.

(** ** The kernel after it has booted from the image

    The root directory is in the inode table and loaded; no other inode is in use. *)

Record booted (pid dev : Z) (d : list (list Z)) (dp : nat) (s : kstate) : Prop := {
  bt_caller : caller pid s;
  bt_cache : brep dev ∅ s;
  bt_disk : forall n, 0 <= n < FSSIZE -> dblock (disk s) n = blk d n;
  bt_sb : sb s = disk_sb d;
  bt_table : length (itable s) = NINODE;
  bt_root : exists x, itable s !! dp = Some x /\ i_dev x = dev /\
    read_dinode (blk d (IBLOCK ROOTINO (disk_sb d))) ROOTINO x = x;
  bt_free : exists y, y ∈ itable s /\ i_ref y = 0;
  bt_idle : forall y, y ∈ itable s -> i_ref y = 0 -> sl_locked (i_lock y) = false;
  bt_only : forall y, y ∈ itable s -> 0 < i_ref y -> i_inum y = ROOTINO }.

Lemma bmap_at_addrs V ip ip' bn : i_addrs ip = i_addrs ip' -> bmap_at V ip bn = bmap_at V ip' bn.
Proof. intros H. unfold bmap_at. by rewrite H. Qed.

Section Kernel.
Context (ms : mkfs) (args contents : list (list Z)) (fs : list frec).
Hypothesis Hfin : finished ms args contents fs.
Context (pid dev : Z) (dp : nat) (s : kstate).
Hypothesis Hboot : booted pid dev (fsfd ms) dp s.
Local Abbreviation d := (fsfd ms).
Local Abbreviation V := (bview ∅ (disk s)).

Lemma view_disk n : 0 <= n < FSSIZE -> V n = blk d n.
Proof using Hboot. intros Hn. unfold bview. rewrite lookup_empty. by apply (bt_disk _ _ _ _ _ Hboot). Qed.

Lemma can_read n : can_bread ∅ n.
Proof. unfold can_bread. rewrite lookup_empty, map_size_empty. unfold NBUF. lia. Qed.

Section File.
Context (k : nat) (f : frec) (ip : inode).
Hypothesis Hk : fs !! k = Some f.
Hypothesis Hip : i_addrs ip = i_addrs (disk_inode d (Z.of_nat k + 1)).

Lemma file_range b : b ∈ owned f -> nmeta <= b < FSSIZE.
Proof using Hfin Hk.
  intros Hb. pose proof (fin_ok _ _ _ _ Hfin) as Hok. pose proof (io_range _ _ _ Hok).
  pose proof (owned_range _ _ _ _ _ _ Hok Hk Hb). lia.
Qed.

Lemma file_ind : i_addrs ip !!! Z.to_nat NDIRECT = f_ind f.
Proof using Hfin Hk Hip.
  destruct (finished_file _ _ _ _ Hfin k f Hk) as (_ & Hrep & _). rewrite Hip.
  apply view_ind; [by eapply finished_sb|done].
Qed.

Lemma file_bmap bn : (bn < length (f_blocks f))%nat -> bmap_at V ip bn = block_at (f_blocks f) bn.
Proof using Hfin Hk Hip Hboot.
  intros Hbn. destruct (finished_file _ _ _ _ Hfin k f Hk) as (_ & Hrep & _).
  pose proof (finished_sb _ _ _ _ Hfin) as Hsb.
  rewrite <- (view_bmap _ _ _ Hsb Hrep bn Hbn), <- (bmap_at_addrs _ _ _ _ Hip).
  unfold bmap_at. case_decide as Hd; [done|]. rewrite file_ind, view_disk; [done|].
  assert (f_ind f <> 0) as Hi by (intros E; apply (mp_none _ _ _ _ (fr_maps _ _ _ Hrep)) in E; lia).
  pose proof (file_range _ (owned_ind _ Hi)). cst. lia.
Qed.

Lemma file_mapped bn : (bn < length (f_blocks f))%nat ->
  mapped V ip bn /\ length (V (bmap_at V ip bn)) = Z.to_nat BSIZE.
Proof using Hfin Hk Hip Hboot.
  intros Hbn. destruct (finished_file _ _ _ _ Hfin k f Hk) as (_ & Hrep & _).
  pose proof (fr_maps _ _ _ Hrep) as Hm.
  pose proof (file_range _ (owned_block _ _ (list_elem_of_lookup_2 _ _ _ (entry_lookup _ _ Hbn)))) as Hr.
  rewrite (file_bmap bn Hbn). split_and!.
  - split_and!; [pose proof (mp_max _ _ _ _ Hm); lia|rewrite (file_bmap bn Hbn); cst; lia|].
    intros Hd. rewrite file_ind. intros E. apply (mp_none _ _ _ _ Hm) in E. lia.
  - rewrite view_disk by (cst; lia). apply (io_sized _ _ _ (fin_ok _ _ _ _ Hfin)). cst. lia.
Qed.

Lemma file_view : file_blocks V ip (length (f_blocks f)) =
  f_data f ++ replicate (Z.to_nat BSIZE * length (f_blocks f) - length (f_data f)) 0.
Proof using Hfin Hk Hip Hboot.
  destruct (finished_file _ _ _ _ Hfin k f Hk) as (_ & Hrep & _).
  rewrite <- (view_blocks d (Z.of_nat k + 1) f (finished_sb _ _ _ _ Hfin) Hrep).
  unfold file_blocks. f_equal. apply list_fmap_ext. intros i bn Hi. apply lookup_seq in Hi as [-> Hl].
  cbn [Nat.add]. rewrite (file_bmap i Hl), (view_bmap _ _ _ (finished_sb _ _ _ _ Hfin) Hrep i Hl).
  pose proof (file_range _ (owned_block _ _ (list_elem_of_lookup_2 _ _ _ (entry_lookup _ _ Hl)))).
  apply view_disk. cst. lia.
Qed.
End File.

(** ** Finding the file *)

(** What is compared of a name. *)
Definition stored (name : list Z) : list Z := strncpy_l name DIRSIZ.
Definition names (args : list (list Z)) : list (list Z) :=
  stored <$> [dot_char] :: [dot_char; dot_char] :: (entry_name <$> args).

Lemma root_entry_name j de : root_entries args !! j = Some de -> names args !! j = Some (de_name de).
Proof.
  unfold root_entries, names. destruct j as [|[|j]]; [by intros E; apply (inj Some) in E; subst de|by intros E; apply (inj Some) in E; subst de|].
  change (imap (fun i arg => mk_dirent (entry_name arg) (Z.of_nat i + 2)) args !! j = Some de ->
    (stored <$> (entry_name <$> args)) !! j = Some (de_name de)).
  rewrite list_lookup_imap, !list_lookup_fmap. destruct (args !! j) as [a|]; [|done].
  change (Some (mk_dirent (entry_name a) (Z.of_nat j + 2)) = Some de ->
    Some (stored (entry_name a)) = Some (de_name de)).
  intros E. apply (inj Some) in E. by rewrite <- E, de_name_dirent.
Qed.

Lemma root_file : exists f, fs !! 0%nat = Some f /\ f_data f = concat (root_entries args) /\ exact f.
Proof using Hfin.
  pose proof (fin_files _ _ _ _ Hfin) as Hf. pose proof (finished_length _ _ _ _ Hfin).
  destruct (fs !! 0%nat) as [f|] eqn:Hk; [|apply lookup_ge_None in Hk; lia]. exists f. split; [done|].
  rewrite root_bytes in Hf. set (el := concat _) in *. clearbody el.
  apply (f_equal (fun l => l !! 0%nat)) in Hf. rewrite list_lookup_fmap, Hk in Hf. injection Hf as _ Hd.
  split; [done|]. exact (Forall_lookup_1 _ _ _ _ (fin_exact _ _ _ _ Hfin) Hk).
Qed.

Lemma length_root : length (concat (root_entries args)) = (16 * (2 + length args))%nat.
Proof.
  rewrite <- root_bytes, length_app, length_entries. unfold dots. rewrite length_app, !length_dirent. lia.
Qed.

(** The entries fill the blocks of the directory up with unused ones. *)
Lemma root_padded n : (16 * (2 + length args) <= 1024 * n)%nat ->
  concat (root_entries args) ++ replicate (1024 * n - 16 * (2 + length args)) 0 =
  concat (root_entries args ++ replicate (64 * n - (2 + length args)) (replicate 16 0)).
Proof.
  intros Hn. rewrite concat_app. f_equal.
  replace (1024 * n - 16 * (2 + length args))%nat with (16 * (64 * n - (2 + length args)))%nat by lia.
  generalize (64 * n - (2 + length args))%nat as m. clear. induction m as [|m IH]; [done|].
  rewrite Nat.mul_succ_r, Nat.add_comm, replicate_add. cbn [replicate concat]. by rewrite IH.
Qed.

Lemma root_find i arg n m :
  args !! i = Some arg -> NoDup (names args) -> Z.of_nat (length args) < NINODES -> (i + 2 < n)%nat ->
  dir_find (entry_name arg) (concat (root_entries args ++ replicate m (replicate 16 0))) 0 n =
  Some ((i + 2)%nat, Z.of_nat i + 2).
Proof.
  intros Hi Hnd Hfew Hn. change NINODES with 200 in Hfew. pose proof (lookup_lt_Some _ _ _ Hi).
  assert (root_entries args !! (i + 2)%nat = Some (mk_dirent (entry_name arg) (Z.of_nat i + 2))) as Hde.
  { rewrite Nat.add_comm.
    change (imap (fun i arg => mk_dirent (entry_name arg) (Z.of_nat i + 2)) args !! i =
      Some (mk_dirent (entry_name arg) (Z.of_nat i + 2))). by rewrite list_lookup_imap, Hi. }
  pose proof (lookup_lt_Some _ _ _ Hde) as Hl.
  assert (forall j de, root_entries args !! j = Some de -> namecmp (entry_name arg) (de_name de) = 0 -> j = (i + 2)%nat) as Huniq.
  { intros j de Hj Hc. apply root_entry_name in Hj. pose proof (root_entry_name _ _ Hde) as Hs.
    rewrite de_name_dirent in Hs. eapply NoDup_lookup; [exact Hnd|exact Hj|]. rewrite Hs. f_equal.
    unfold namecmp in Hc. unfold names in Hj. rewrite list_lookup_fmap in Hj.
    destruct (_ !! j) as [nm|]; [|done]. apply (inj Some) in Hj. rewrite <- Hj in Hc |- *. by apply strncmp_strncpy. }
  destruct (dir_find_at (entry_name arg) 0 n (i + 2) (root_entries args ++ replicate m (replicate 16 0)))
    as (de & Hd & Hf).
  - apply Forall_app. split; [apply root_entries_length|]. by apply Forall_replicate.
  - rewrite length_app. lia.
  - lia.
  - intros j de Hj Hlt Hc. rewrite lookup_app_l in Hj by lia. apply (Huniq j de Hj) in Hc. lia.
  - intros de Hd. rewrite lookup_app_l, Hde in Hd by lia. apply (inj Some) in Hd. subst de.
    rewrite de_inum_dirent, de_name_dirent by lia. split; [lia|]. by apply strncmp_strncpy.
  - rewrite lookup_app_l, Hde in Hd by lia. apply (inj Some) in Hd. subst de. by rewrite de_inum_dirent in Hf by lia.
Qed.

(** The root inode in memory. *)
Lemma root_inode : exists x f, itable s !! dp = Some x /\ i_dev x = dev /\ i_type x = T_DIR /\
  i_addrs x = i_addrs (disk_inode d (Z.of_nat 0 + 1)) /\ fs !! 0%nat = Some f /\
  f_data f = concat (root_entries args) /\ length (f_blocks f) = nblk (16 * (2 + length args)) /\
  i_size x = (Z.of_nat (16 * (2 + length args)) / BSIZE + 1) * BSIZE.
Proof using Hfin Hboot.
  destruct (bt_root _ _ _ _ _ Hboot) as (x & Hx & Hdev & Hload). destruct root_file as (f & Hf & Hd & Hex).
  destruct (finished_file _ _ _ _ Hfin _ _ Hf) as (_ & Hrep & _).
  destruct (finished_root _ _ _ _ Hfin) as (Ht & _ & Hs & _).
  rewrite root_bytes, length_root in Hs.
  exists x, f. split_and!; try done.
  - rewrite <- Hload. exact Ht.
  - rewrite <- Hload. reflexivity.
  - by rewrite (exact_blocks _ _ _ Hrep Hex), Hd, length_root.
  - rewrite <- Hload. exact Hs.
Qed.

Lemma dirlookup_root i arg (Q : option (nat * Z) -> interference -> kstate -> Prop) e :
  args !! i = Some arg -> NoDup (names args) -> Z.of_nat (length args) < NINODES ->
  Z.of_nat (2 + length args) mod 64 <> 0 ->
  (forall s', reading pid dev (disk s) s ∅ s' ->
     wp (iget dev (Z.of_nat i + 2)) (fun ip => Q (Some (ip, 16 * Z.of_nat (i + 2)))) e s') ->
  wp (dirlookup dp (entry_name arg)) Q e s.
Proof using Hfin Hboot.
  intros Hi Hnd Hfew Hmod HQ. pose proof (lookup_lt_Some _ _ _ Hi).
  destruct root_inode as (x & f & Hx & Hdev & Ht & Ha & Hf & Hd & Hnb & Hs). change NINODES with 200 in *.
  set (nb := nblk (16 * (2 + length args))) in *.
  assert (i_size x = Z.of_nat (16 * (64 * nb)) /\ nblk (16 * (64 * nb)) = nb /\
    (16 * (2 + length args) <= 1024 * nb)%nat /\ (nb <= 4)%nat) as (Hsz & Hnn & Hle & Hnb4).
  { unfold nb, nblk. cst. Z.div_mod_to_equations. lia. }
  eapply (wp_dirlookup pid dev ∅ (disk s) s can_read dp x (16 * (64 * nb)) Hx Hdev Hsz); rewrite ?Hnn.
  - cst. lia.
  - intros bn Hbn. rewrite <- Hnb in Hbn. by apply (file_mapped 0 f x).
  - intros bn Hbn. rewrite <- Hnb in Hbn. by apply (file_mapped 0 f x).
  - apply reading_start; apply Hboot.
  - done.
  - done.
  - intros s' Hs'. pose proof (file_view 0 f x Hf Ha) as Hv. rewrite Hnb, Hd, length_root in Hv.
    change (Z.to_nat BSIZE) with 1024%nat in Hv. rewrite root_padded in Hv by done.
    rewrite Hv, (root_find i arg) by (done || lia). by apply HQ.
Qed.

Lemma file_facts i c : contents !! i = Some c ->
  exists f, fs !! S i = Some f /\ f_data f = c /\ length (f_blocks f) = nblk (length c) /\
    Z.of_nat (length c) <= MAXFILE * BSIZE /\ 0 <= Z.of_nat i + 2 < NINODES /\
    i_type (disk_inode d (Z.of_nat i + 2)) = T_FILE /\ i_size (disk_inode d (Z.of_nat i + 2)) = Z.of_nat (length c).
Proof using Hfin.
  intros Hc. pose proof (finished_length _ _ _ _ Hfin). pose proof (lookup_lt_Some _ _ _ Hc).
  destruct (fs !! S i) as [f|] eqn:Hk; [|apply lookup_ge_None in Hk; lia]. exists f.
  destruct (finished_file _ _ _ _ Hfin _ _ Hk) as (Hr & Hrep & _).
  destruct (finished_files _ _ _ _ Hfin _ _ Hc) as (Ety & _ & Esz & _).
  pose proof (fin_files _ _ _ _ Hfin) as Hf. apply (f_equal (fun l => l !! S i)) in Hf.
  rewrite list_lookup_fmap, Hk in Hf. change (Some (f_type f, f_data f) = files contents !! i) in Hf.
  unfold files in Hf. rewrite list_lookup_fmap, Hc in Hf. apply (inj Some), (f_equal snd) in Hf. cbn [snd] in Hf.
  pose proof (fin_tight _ _ _ _ Hfin _ _ Hk) as [_ Hex].
  pose proof (exact_blocks _ _ _ Hrep Hex) as Hnb. rewrite Hf in Hnb.
  pose proof (mp_max _ _ _ _ (fr_maps _ _ _ Hrep)). destruct (fr_holds _ _ _ Hrep) as [Hl _].
  rewrite Hf in Hl. split_and!; try done; cst; lia.
Qed.

(** Reading a file whose inode was just taken from the table. *)
Lemma read_new i c ip x t e s1 :
  contents !! i = Some c -> t !! ip = Some x -> i_dev x = dev -> i_inum x = Z.of_nat i + 2 ->
  1 <= i_ref x -> i_valid x = false -> sl_locked (i_lock x) = false ->
  reading pid dev (disk s) (itab s t) ∅ s1 ->
  wp (ilock (Some ip) ;;; readi ip (Kern []) 0 (Z.of_nat (length c)))
    (fun r _ _ => r = (Z.of_nat (length c), Kern c)) e s1.
Proof using Hfin Hboot.
  intros Hc Hx Hdev Hinum Href Hval Hlk Hs. pose proof (lookup_lt_Some _ _ _ Hx).
  destruct (file_facts i c Hc) as (f & Hk & Hd & Hnb & Hmax & Hr & Ety & Esz).
  destruct (iblock_range _ Hr) as [_ Hib]. pose proof (finished_sb _ _ _ _ Hfin) as Hsb.
  set (y := read_dinode (blk d (IBLOCK (Z.of_nat i + 2) (disk_sb d))) (Z.of_nat i + 2)
              (x <| i_lock := Sleeplock true pid |>)).
  assert (i_addrs y = i_addrs (disk_inode d (Z.of_nat (S i) + 1))) as Hya
    by (replace (Z.of_nat (S i) + 1) with (Z.of_nat i + 2) by lia; reflexivity).
  assert (V (IBLOCK (Z.of_nat i + 2) (sb (itab s t))) = blk d (IBLOCK (Z.of_nat i + 2) (disk_sb d))) as HV.
  { change (sb (itab s t)) with (sb s). rewrite (bt_sb _ _ _ _ _ Hboot). apply view_disk. rewrite Hsb. cst. lia. }
  apply wp_bind. eapply wp_ilock; [apply can_read|exact Hs|exact Hx|done|done|done|done| |]; rewrite Hinum, HV; fold y.
  - change (i_type y) with (i_type (disk_inode d (Z.of_nat i + 2))). by rewrite Ety.
  - intros s2 H2. set (z := y <| i_valid := true |>) in *. cbn beta.
    eapply wp_mono.
    + eapply (readi_spec pid dev ∅ (disk s) _ can_read ip z (length c)); try done; try lia.
      * by apply list_lookup_insert_eq.
      * intros bn Hbn. rewrite <- Hnb in Hbn. by apply (file_mapped (S i) f z Hk Hya).
      * intros bn Hbn. rewrite <- Hnb in Hbn. by apply (file_mapped (S i) f z Hk Hya).
      * change (MAXFILE * BSIZE) with 274432 in Hmax. lia.
    + intros r e' s' (_ & _ & ->). cbv zeta. rewrite Z.sub_0_r, Z.min_id, Nat2Z.id. cbn [app].
      rewrite <- Hnb at 1. rewrite (file_view (S i) f z Hk Hya), Hd. do 2 f_equal.
      unfold slice. cbn [Z.to_nat]. rewrite drop_0. apply take_app_length.
Qed.

(** ** Finding and reading *)

Definition lookup_and_read (name : list Z) (n : Z) : K (Z * ioaddr) :=
  r <- dirlookup dp name ;;
  match r with
  | None => panic "no such file"
  | Some (ip, _) => ilock (Some ip) ;;; readi ip (Kern []) 0 n
  end.

Lemma lookup_and_read_ok i arg c e :
  args !! i = Some arg -> contents !! i = Some c -> NoDup (names args) ->
  Z.of_nat (length args) < NINODES -> Z.of_nat (2 + length args) mod 64 <> 0 ->
  wp (lookup_and_read (entry_name arg) (Z.of_nat (length c)))
    (fun r _ _ => r = (Z.of_nat (length c), Kern c)) e s.
Proof using Hfin Hboot.
  intros Hi Hc Hnd Hfew Hmod. destruct (bt_free _ _ _ _ _ Hboot) as (y & Hy & Hy0).
  unfold lookup_and_read. apply wp_bind. eapply (dirlookup_root i arg); [done..|].
  intros s' Hs'. destruct (reading_inode _ _ _ _ _ _ Hs') as [Hit _].
  eapply (wp_iget pid); [apply Hs'|rewrite Hit; apply Hboot|rewrite Hit; eauto| |]; rewrite Hit.
  - intros ip x Hx Hm. unfold iget_match in Hm. rewrite !andb_true_iff, Z.ltb_lt, !Z.eqb_eq in Hm.
    destruct Hm as [[Hr _] Hn]. apply list_elem_of_lookup_2 in Hx.
    rewrite (bt_only _ _ _ _ _ Hboot x Hx Hr) in Hn. unfold ROOTINO in Hn. lia.
  - intros ip x Hx Hr _. apply (reading_itable _ _ _ _ _ _ (<[ip := x <| i_dev := dev |>
      <| i_inum := Z.of_nat i + 2 |> <| i_ref := 1 |> <| i_valid := false |>]> (itable s))) in Hs'.
    eapply read_new; [exact Hc|apply list_lookup_insert_eq; by eapply lookup_lt_Some|..|exact Hs']; try done.
    change (sl_locked (i_lock x) = false). apply (bt_idle _ _ _ _ _ Hboot); [|done].
    by eapply list_elem_of_lookup_2.
Qed.
End Kernel.

(** ** The theorem *)

(** C12: From mkfs to [readi].  Let mkfs have built an image from files with distinct names (as far
    as directory entries can tell), and let the kernel run on that image with the root directory
    loaded.  Then [dirlookup] finds every file by its name, [ilock] loads its inode and [readi]
    returns the bytes that mkfs was given, without a panic.  The number of entries is not a
    multiple of 64: mkfs rounds the size of a full directory up by a block that does not exist. *)
Theorem mkfs_file_is_read h prog image args contents d pid dev dp s i arg c e :
  Forall2 (given h) args contents -> Z.of_nat (length args) + 1 < NINODES ->
  Forall (fun c => Z.of_nat (length c) <= MAXFILE * BSIZE) contents ->
  nmeta + Z.of_nat (space ((T_DIR, dots ++ entries 2 args) :: files contents)) <= FSSIZE ->
  main h (prog :: image :: args) = inr d -> NoDup (names args) ->
  Z.of_nat (2 + length args) mod 64 <> 0 -> booted pid dev d dp s ->
  args !! i = Some arg -> contents !! i = Some c ->
  wp (lookup_and_read dp (entry_name arg) (Z.of_nat (length c)))
    (fun r _ _ => r = (Z.of_nat (length c), Kern c)) e s.
Proof.
  intros Hg Hfew Hcs Hsp Hmain Hnd Hmod Hboot Hi Hc.
  destruct (main_finished h prog image args contents d Hg Hfew Hcs Hsp Hmain) as (ms & fs & Hfin & <-).
  eapply lookup_and_read_ok; try done. lia.
Qed.

(** A kernel on the image of the two demonstration files. *)
Definition demo_argv : list (list Z) := [] :: [102] :: demo_args.
Definition image_or (r : failure + list (list Z)) : list (list Z) := match r with inr d => d | inl _ => [] end.
Definition demo_image : list (list Z) := image_or (main demo_host demo_argv).

Lemma image_or_ok r d : r = inr d -> r = inr (image_or r).
Proof. by intros ->. Qed.

Definition disk_of (d : list (list Z)) : diskstate :=
  Disk (list_to_map (zip (seqZ 0 (Z.of_nat (length d))) d)) [].
Definition root_of (d : list (list Z)) : inode :=
  read_dinode (blk d (IBLOCK ROOTINO (disk_sb d))) ROOTINO
    (inode0 <| i_dev := ROOTDEV |> <| i_inum := ROOTINO |> <| i_ref := 1 |> <| i_valid := true |>).
Definition boot_from (d : list (list Z)) : kstate :=
  demo_idle <| disk := disk_of d |> <| sb := disk_sb d |>
    <| itable := <[0%nat := root_of d]> (replicate NINODE inode0) |>.
Definition demo_kernel : kstate := final_state (boot_from demo_image) (binit [] (boot_from demo_image)).

Lemma demo_main : main demo_host demo_argv = inr demo_image.
Proof.
  destruct (runs_image _ _ _ (main_body_ok demo_host demo_args demo_contents demo_given ltac:(done) demo_small
    ltac:(vm_compute; discriminate))) as (s & Hs & _).
  exact (image_or_ok _ _ (eq_trans (main_creat demo_host [] [102] demo_args ltac:(reflexivity)) Hs)).
Qed.

Lemma disk_of_block d n : 0 <= n < Z.of_nat (length d) -> dblock (disk_of d) n = blk d n.
Proof.
  intros Hn. unfold dblock, disk_of, blk. cbn [dk_blocks].
  destruct (lookup_lt_is_Some_2 d (Z.to_nat n)) as [b Hb]; [lia|].
  rewrite (elem_of_list_to_map_1 _ n b).
  - cbn. by rewrite (list_lookup_total_correct _ _ _ Hb).
  - rewrite fst_zip by (rewrite length_seqZ; lia). apply NoDup_seqZ.
  - apply list_elem_of_lookup. exists (Z.to_nat n). rewrite lookup_zip_with, Hb, lookup_seqZ_lt by lia.
    cbn. do 2 f_equal. lia.
Qed.

Lemma demo_booted : booted 0 ROOTDEV demo_image 0 demo_kernel.
Proof.
  destruct (main_finished _ _ _ _ _ _ demo_given ltac:(done) demo_small ltac:(vm_compute; discriminate) demo_main)
    as (ms & fs & Hfin & Hd).
  pose proof (io_sized _ _ _ (fin_ok _ _ _ _ Hfin)) as [Hl _]. rewrite Hd in Hl. unfold demo_kernel.
  generalize dependent demo_image. intros d _ Hl.
  destruct (binit_spec ROOTDEV [] (boot_from d)) as (bs & Hrun & Hrep); [by apply demo_boot_cache|done|].
  rewrite Hrun. cbn [final_state]. clear Hrun. split.
  - split; [|exact demo_table_ok|intros l Hin; by apply elem_of_nil in Hin].
    exists 0%nat, proc0. split; [reflexivity|split; reflexivity].
  - exact Hrep.
  - intros n Hn. apply disk_of_block. cst. lia.
  - reflexivity.
  - reflexivity.
  - exists (root_of d). split_and!; reflexivity.
  - exists inode0. split; [|reflexivity]. by apply (list_elem_of_lookup_2 _ 1).
  - intros y Hy. apply list_elem_of_lookup in Hy as [[|j] Hj]; [by injection Hj as <-|].
    change (replicate NINODE inode0 !! S j = Some y) in Hj. by apply lookup_replicate in Hj as [-> _].
  - intros y Hy. apply list_elem_of_lookup in Hy as [[|j] Hj]; [by injection Hj as <-|].
    change (replicate NINODE inode0 !! S j = Some y) in Hj. by apply lookup_replicate in Hj as [-> _].
Qed.

Lemma mkfs_file_is_read_witness :
  wp (lookup_and_read 0 (entry_name (user_prefix ++ [98])) (Z.of_nat 16000))
    (fun r _ _ => r = (Z.of_nat 16000, Kern (replicate 8000 7 ++ replicate 8000 8))) [] demo_kernel.
Proof.
  apply (mkfs_file_is_read demo_host [] [102] demo_args demo_contents demo_image 0 ROOTDEV 0 demo_kernel 1
    (user_prefix ++ [98]) (replicate 8000 7 ++ replicate 8000 8) []).
  - apply demo_given.
  - reflexivity.
  - apply demo_small.
  - vm_compute. discriminate.
  - apply demo_main.
  - apply (bool_decide_unpack _). vm_compute. exact I.
  - discriminate.
  - apply demo_booted.
  - reflexivity.
  - reflexivity.
Defined.
